(* ===== verification/_CoqProject ===== *)
-Q . S2P
Prelude.v
Errors.v
Sql.v
MemDb.v
Axia.v
DbModel.v
Persist.v
Persistence.v
Interface.v
DbMock.v
Prog.v
Models.v
AxcWriter.v
Writer.v
AvmWriter.v
PvmWriter.v
CvmWriter.v
WriterOps.v
Indexing.v
Balance.v
BalanceInv.v
BalanceRun.v
BalanceTxs.v
BalanceSystem.v
BalanceLive.v
Accounting.v
Utils.v
UtilsFacts.v
WorkerPool.v
Stream.v
StreamAx.v
Pool.v
PoolSystem.v
Processors.v
BalanceKeys.v
Streaming.v
StreamAxFacts.v
NodeClient.v
StreamFacts.v
GoText.v
Params.v
ParamsFacts.v
Api.v
ApiFacts.v
Query.v
ReaderAggregates.v
ReaderFacts.v
ReaderModels.v
ReaderTxs.v
ReaderDress.v
ReaderRows.v
ReaderTxsFacts.v
CacheFacts.v
PageFacts.v
Select.v
ReaderLists.v
ParseJson.v
BalanceAnswers.v
ReaderCTrans.v
ReaderAggregator.v
Rewards.v
Replay.v
ReplayFacts.v
Bootstrap.v
BootstrapFacts.v
BootGenesis.v
Config.v
Rpc.v
AssetAggrFacts.v
ReaderCTransFacts.v
Metrics.v
Wiring.v
Connections.v
Manager.v
Services.v
Listen.v
ListenAx.v
Consumers.v
Routes.v
ApiReader.v
