(* ===== verification/Prelude.v ===== *)
(** Magellan, the indexer and API of the Axia network (a Go program), and its correctness.

    The program reads what an Axia node has accepted, stores it in a MySQL database and
    answers HTTP requests from that database.

    * The parts of the program

    - The producers (stream/producer_chain.go, stream/producer_axchain.go) ask the node
      for containers and for blocks of the C chain, and put each as a row in the
      transaction pool, the table tx_pool, and in a local queue.
    - The indexer (stream/consumers/indexer.go) reads the pool and the queue; workers
      give each row to the processor of its topic (stream/consumer_db.go,
      stream/consumer_axchain_db.go), which runs a writer in a database transaction and
      marks the row as processed.
    - The writers (services/indexes/axc, avm, pvm, cvm) take a block or a transaction
      apart into rows: transactions, inputs, outputs, addresses, assets, blocks,
      validators, rewards, logs, traces.
    - The balance manager (balance/balance_manager.go) accumulates the rows the writers
      leave for it into balances and counts for each address.
    - The rewards handler (services/rewards) stores the outputs that a stake pays once
      the block that decides the stake is indexed.
    - The replay command (replay/replay_db.go) indexes the whole pool again.
    - The readers (services/indexes/axc/reader*.go, avm_reader.go, pvm_reader.go) answer
      the questions of the API (api/v2.go), whose parameters are read by
      services/indexes/params, and whose answers are cached (api/context.go, utils).

    Everything goes through the persistence layer (db/dbmodel.go).  The parts share the
    tables: the producers and the indexer share tx_pool, the writers and the balance
    manager the accumulator tables, the writers and the readers all the others.

    * How they are modelled

    Code that can fail is in [result] ([Ok] or [Err] with the text of the error), code
    with a state in the monad [M S A], a function from a state to a state and a result
    (Prelude.v).  A 64-bit or 32-bit integer is a [Z] with its wrap-around written out
    ([u64_add], [wrap32], [int64]); a time is the number of nanoseconds since 1970; bytes
    and texts are strings.  Goroutines are steps of a transition system, one step for
    each access to what they share.  Loops without a bound in the code (the retries after
    a lock error, the passes of the balance manager) have fuel, and the answer [None]
    when it runs out; the theorems on termination give the fuel that is enough: one more
    than the number of lock errors (for a pass, of faults) the database still has to
    report.

    What is not in the repository is a class, with the facts the program relies on as a
    second class, and a concrete instance for the examples: the SQL engine ([SqlEngine],
    [SqlEngineOk], MemDb.v), dbr ([Dbr]: how columns are matched to fields), the packages
    of axia-network-v2 (Axia.v: ids, hashes, checked addition, keys, the cell for errors),
    the codecs of blocks and transactions ([AvmCodec], [PvmCodec], [CvmCodec], [AxJson],
    [CorethJson], [CTransJson]), the API of the node ([RewardsClient]), and the parts of
    Go's library whose grammar does not matter ([GoText]).

    * The files

    Foundations.
    - Prelude.v: results, the state monad and its loops, integers, lists, [magellan] hints.
    - Errors.v: utils/dbutils.go, utils/eventrcvr.go, RepeatForLock: errors by their text;
      the reading of a stored block of the C chain (modelsc.Unmarshal).
    - Sql.v: rows, statements, the engine and its laws, the schema, transactions
      ([in_tx]); MemDb.v: an engine in memory with faults to inject.
    - Axia.v: the packages of axia-network-v2.

    The persistence layer.
    - DbModel.v: db/dbmodel.go, a record and the operations for each struct.
    - Persist.v: its write operations as data ([pop]), the interface [Persist], what an
      implementation promises ([PersistOk]); Persistence.v: the theorems.
    - Interface.v: the same interface, method by method ([db.Persist]), with what its
      queries answer ([db.PersistOk]).
    - DbMock.v: db/dbmodel_mock.go, the implementation in memory, an instance of both
      interfaces.

    The writers.
    - Prog.v: programs that write through [Persist], their weakest preconditions and the
      tactics [solve_emits] and [solve_strict].
    - Models.v: models/types.go, cfg/globals.go, services/services.go.
    - AxcWriter.v, AvmWriter.v, PvmWriter.v, CvmWriter.v: the writers of
      services/indexes, in the modules [axc], [avm], [pvm], [cvm].
    - Writer.v: a writer in its transaction; WriterOps.v: the tables the writers write;
      Indexing.v: the theorems.
    - ParseJson.v: what the writers print of what they index (ParseJSON), with its theorem.

    The balance manager.
    - Balance.v: balance/balance_manager.go; BalanceInv.v, BalanceRun.v, BalanceTxs.v: the
      ledger that the balance tables hold, one processed row, the counts;
      BalanceSystem.v: indexing and processing interleaved; BalanceLive.v: progress;
      Accounting.v: the theorems.
    - BalanceKeys.v: the keys of the balance rows, whatever the writers and the manager do;
      BalanceAnswers.v: the balances that the reader answers are those of the ledger.
    - Manager.v: the start of the manager, its goroutines, their events and their end.

    Streaming.
    - Utils.v: the lists, caches, counters, delays and queues of utils; UtilsFacts.v;
      WorkerPool.v: the goroutines of utils/worker.go, with their theorem.
    - Stream.v: producer_chain.go, consumer_db.go, processor.go, indexer.go; StreamAx.v:
      producer_axchain.go, consumer_axchain_db.go, modelsc.New.
    - Bootstrap.v: the genesis (consumers.Bootstrap, the constructors of the writers,
      utils/avmcodec.go, utils/genesis.go), each statement of each goroutine a step;
      BootstrapFacts.v: its invariant; BootGenesis.v: the theorem.
    - Pool.v: the rows of tx_pool and node_index; PoolSystem.v: the transition system of
      the pool; Processors.v: the writers as processors.
    - Wiring.v: what the process opens and closes: the start of the indexer and of the
      reader's tasks; Listen.v: the producer of a chain, run after run, with its counters;
      ListenAx.v: a run of the producer of the C chain, its goroutines and channels, and
      its runs, one after the other;
      Consumers.v: the consumers, their counters and their topics.
    - NodeClient.v: the client of the C chain's node (modelsc/cblock.go), with its theorem.
    - Streaming.v, StreamAxFacts.v, StreamFacts.v: the theorems.

    The API.
    - GoText.v: numbers, durations, floating point and the query of a URL as Go reads and
      computes them.
    - Params.v: services/indexes/params; ParamsFacts.v.
    - Api.v: api/v2.go, context.go, utils.go, utils/delay_cache.go; ApiFacts.v.
    - Metrics.v: utils/prometheus.go; Routes.v: the routes of v2.go, index.go, server.go,
      the answers on the wire, the making of the server.
    - Services.v: the start of the server with its connections, and the life of the rewards
      handler.

    The readers.
    - Query.v: joins, order, groups over rows; Select.v: the statements built by the
      clauses of Params.v.
    - ReaderAggregates.v: the histograms of reader.go; ReaderFacts.v.
    - ReaderModels.v: models/axc.go; ReaderTxs.v and ReaderDress.v: reader_list_txs.go
      and the cached lists of reader_aggregate_processor.go; ReaderRows.v: the rows behind
      the joins; ReaderTxsFacts.v, CacheFacts.v, PageFacts.v: the theorems.
    - ReaderLists.v: the other lists, the search, the texts of transactions;
      ReaderCTrans.v: reader_list_ctrans.go; ReaderAggregator.v: the background tasks, and
      the one of the aggregates by asset; AssetAggrFacts.v: its theorem;
      ReaderCTransFacts.v: the traces that a listed transaction of the C chain carries.
    - ApiReader.v: the readers as an instance of the interface of Api.v ([AxcReader]), and
      the API over them.

    The commands and the process.
    - Config.v: cfg, the switches of servicesctrl; Connections.v: how a connection to the
      database is made (utils/db.go, utils/connections.go); Rpc.v: the profiles of rpc/api.go.
    - Rewards.v: services/rewards/rewards_handler.go with its theorem.
    - Replay.v: replay/replay_db.go, with its counters and what it logs of them;
      ReplayFacts.v: its theorem.

    * What the theorems show

    - Balances (Accounting.v).  In every interleaving of indexing and processing, the
      balance of an address is the sum of the outputs whose rows were processed, each
      once; a pass that succeeds leaves nothing it read; a failed batch changes nothing;
      the passes and the event loop end.  What the API answers under a chain, an
      address and an asset is that ledger (BalanceAnswers.v).
    - The pool (Streaming.v, StreamFacts.v).  Every container below the stored index of a
      producer is in the pool; an iteration that ends without an error has processed all
      it read, in order of time; a row is marked only after its processor succeeded; the
      writers leave the pool alone; lock errors are retried to their end.
    - The C chain (StreamAxFacts.v).  No block is skipped, a block is recorded after all
      that belongs to it, and each row that the pool gives back reaches the method of the
      writer for its topic.
    - The genesis (BootGenesis.v).  Whatever the interleaving, the mark that says that it is
      indexed is written after all its rows, and the next start skips it.
    - The pool of goroutines of utils processes all it was given before Finish returns
      (WorkerPool.v).
    - Indexing (Indexing.v).  The rows of a transaction, of a block, of an asset, of an
      export or import, of the owners of a reward; the fee, its bounds and the rejection
      of bad transactions; atomicity.  What is printed of a
      block of the platform chain is the block that was indexed (ParseJson.v).
    - Persistence (Persistence.v).  What is inserted is read back; what an update
      overwrites; the tables as lists of structs, with the types of their columns and their
      unique keys, and what each write does to them.
    - The readers.  The histograms are those of the tables for each interval, and cover the range; the
      transactions of an answer carry exactly their inputs and outputs; the totals, with
      the multiplicity of outputs that have several addresses; the cached list answers as
      the tables; the link to the next page, read back as a request,
      neither repeats nor loses a transaction, but for the rest of the last second; the aggregates by asset are those
      of the assets in use, in order; a listed transaction of the C chain carries the
      traces that are stored of it, each at its number.
    - The API (ApiFacts.v, ParamsFacts.v).  What a key of the cache determines, where a
      cached answer comes from and how long it can be repeated, the bounds of limits; no
      request writes to the database (ApiReader.v).  What a client reads of an answer: its
      code, its headers, its body (Routes.v).
    - The commands.  A reward is marked as processed only when all its outputs are
      stored; a replay that ends without an error has consumed every row, but for those a
      worker still holds.
    - The producer of a chain ends when it is closed, and what it leaves is what the pool
      promises, and one connection for each run whose container was not made (Listen.v).
      A run of the producer of the C chain ends and gives everything back, but for one
      case, in which it hangs (ListenAx.v); so does the producer itself, run after
      run.
    - The process.  The indexer accepts the topics of any configuration (Consumers.v); its
      goroutines all return and give their connections back (Wiring.v).  The switches are
      those the configuration file names (Config.v); the balance manager forgets no event,
      and gives its connections back when it is closed (Manager.v); a block of the node is
      read with all its traces and logs (NodeClient.v); whatever fails, no file of a profile
      is left open (Rpc.v).  The rewards handler ends when it is closed, but for a close that
      comes too early (Services.v).

    The modules whose names end in [Sample] run the definitions on small databases, by computation.

    * Not modelled

    The command line and the construction of third-party clients, the text of the log,
    the matching of paths, the listening socket of the HTTP server and the administration
    port: input and output around third-party code.  The encoders of JSON are parameters.
    Within the model: a statement of the database is atomic, and so is the processing of
    one row by a worker, which is a transaction of the database; the order of a Go map is
    the order of the finite maps of the library where a result depends on it; the time of
    a sleep is not modelled, only that it happens.

    The lists of ReaderLists.v and the tasks of ReaderAggregator.v are modelled in full and
    evaluated on samples; but for the balances of the addresses (BalanceAnswers.v) and the
    aggregates by asset (AssetAggrFacts.v), no theorem relates them to the tables. *)

From stdpp Require Export prelude gmap strings list sorting.
From Stdlib Require Export ZArith Lia.
From Stdlib Require Import DecimalString DecimalZ DecimalPos DecimalFacts.

Declare Scope magellan_scope.
Delimit Scope magellan_scope with mag.

(** * Go errors and results

    A Go [error] is observed by the program through its text only
    ([err.Error()]), so an error is that text; a pair [(value, error)] is a
    [result]. *)
Definition error := string.

Inductive result (A : Type) :=
| Ok (a : A)
| Err (e : error).
Arguments Ok {A} a.
Arguments Err {A} e.

#[global] Instance result_eq_dec `{EqDecision A} : EqDecision (result A).
Proof. solve_decision. Defined.

Definition is_ok {A} (r : result A) : bool :=
  match r with Ok _ => true | Err _ => false end.

#[global] Instance result_ret : MRet result := λ A a, Ok a.
#[global] Instance result_bind : MBind result := λ A B f m,
  match m with Ok a => f a | Err e => Err e end.

(** * Stateful code that can fail

    [M S A] is a computation that threads a state [S] and either returns a
    value or stops with an error.  The state reached before an error is kept:
    only a database transaction rolls back. *)
Definition M (S A : Type) : Type := S → S * result A.

Section monad.
Context {S : Type}.

#[global] Instance M_ret : MRet (M S) := λ A a s, (s, Ok a).
#[global] Instance M_bind : MBind (M S) := λ A B f m s,
  match m s with
  | (s', Ok a) => f a s'
  | (s', Err e) => (s', Err e)
  end.

Definition throw {A} (e : error) : M S A := λ s, (s, Err e).

(** [err := m] : the error is a value the caller inspects. *)
Definition attempt {A} (m : M S A) : M S (result A) := λ s,
  let '(s', r) := m s in (s', Ok r).

Definition gets {A} (f : S → A) : M S A := λ s, (s, Ok (f s)).

Definition modify (f : S → S) : M S unit := λ s, (f s, Ok tt).

Definition lift_result {A} (r : result A) : M S A := λ s, (s, r).

(** [for _, x := range l { if err := f(x); err != nil { return err } }] *)
Fixpoint for_each {A} (l : list A) (f : A → M S unit) : M S unit :=
  match l with
  | [] => mret tt
  | x :: l' => f x ≫= λ _, for_each l' f
  end.

(** The same loop with the index of the element and a loop variable. *)
Fixpoint for_fold {A B} (i : Z) (l : list A) (acc : B)
    (f : Z → A → B → M S B) : M S B :=
  match l with
  | [] => mret acc
  | x :: l' => f i x acc ≫= λ acc', for_fold (i + 1)%Z l' acc' f
  end.

Lemma bind_Ok_inv {A B} (m : M S A) (f : A → M S B) s s' b :
  (m ≫= f) s = (s', Ok b) →
  ∃ a s1, m s = (s1, Ok a) ∧ f a s1 = (s', Ok b).
Proof.
  unfold mbind, M_bind. destruct (m s) as [s1 [a|e]] eqn:E; [|congruence]. eauto.
Qed.

Lemma bind_run {A B} (m : M S A) (f : A → M S B) s :
  (m ≫= f) s = match m s with
               | (s', Ok a) => f a s'
               | (s', Err e) => (s', Err e)
               end.
Proof. reflexivity. Qed.

Lemma bind_assoc_run {A B C} (m : M S A) (f : A → M S B) (g : B → M S C) s :
  ((m ≫= f) ≫= g) s = (m ≫= λ a, f a ≫= g) s.
Proof. rewrite !bind_run. by destruct (m s) as [? []]. Qed.

Lemma for_each_app {A} (l1 l2 : list A) (f : A → M S unit) s :
  for_each (l1 ++ l2) f s = (for_each l1 f ≫= λ _, for_each l2 f) s.
Proof.
  revert s. induction l1 as [|x l1 IH]; intros s; [done|].
  simpl. rewrite bind_assoc_run, !bind_run.
  destruct (f x s) as [s1 [[]|e]]; [apply IH | done].
Qed.

(** An invariant kept by [f] whatever its outcome is kept by the loop. *)
Lemma for_each_invariant {A} (P : S → Prop) (l : list A) (f : A → M S unit) s :
  (∀ x s, x ∈ l → P s → P (f x s).1) → P s → P (for_each l f s).1.
Proof.
  revert s. induction l as [|x l IH]; intros s Hf HP; [done|].
  simpl. rewrite bind_run.
  pose proof (Hf x s ltac:(left) HP) as H1.
  destruct (f x s) as [s1 [[]|e]]; simpl in *; [|done].
  apply IH; [|done]. intros y s0 Hy. apply Hf. by right.
Qed.

(** For running a concrete computation: only its outcome needs computing. *)
Lemma run_ok (m : M S unit) s : is_ok (m s).2 = true → m s = ((m s).1, Ok tt).
Proof. by destruct (m s) as [? [[]|]]. Qed.
End monad.

(** * Machine integers

    A Go [uint64] (or [uint32]) is the [Z] in its range; [+] and [-] wrap. *)
Definition uint64_modulus : Z := (2 ^ 64)%Z.
Definition wrap64 (z : Z) : Z := (z mod 2 ^ 64)%Z.
Definition wrap32 (z : Z) : Z := (z mod 2 ^ 32)%Z.
Definition u64_add (a b : Z) : Z := wrap64 (a + b).
Definition u64_sub (a b : Z) : Z := wrap64 (a - b).
Definition u32_add (a b : Z) : Z := wrap32 (a + b).
Definition is_u64 (z : Z) : Prop := (0 ≤ z < 2 ^ 64)%Z.

#[global] Instance is_u64_dec z : Decision (is_u64 z).
Proof. unfold is_u64. apply _. Defined.

Lemma wrap64_small z : is_u64 z → wrap64 z = z.
Proof. intros ?. by apply Z.mod_small. Qed.

Lemma wrap64_range z : is_u64 (wrap64 z).
Proof. by apply Z.mod_pos_bound. Qed.

Lemma u64_sub_nonneg a b : is_u64 a → is_u64 b → (b ≤ a)%Z → u64_sub a b = (a - b)%Z.
Proof. intros [??] [??] ?. apply wrap64_small. unfold is_u64. lia. Qed.

Lemma some_default {A} (o : option A) x : match o with Some _ => true | None => false end = true → o = Some (default x o).
Proof. by destruct o. Qed.

(** * Decimal text of an integer ([strconv.Itoa], [big.Int.String], [%d]) *)
Definition Z_to_string (z : Z) : string := NilZero.string_of_int (Z.to_int z).

Definition Z_of_string (s : string) : option Z :=
  option_map Z.of_int (NilZero.int_of_string s).

Lemma Z_of_to_string z : Z_of_string (Z_to_string z) = Some z.
Proof.
  unfold Z_of_string, Z_to_string.
  rewrite NilZero.isi; [simpl; by rewrite DecimalZ.of_to | |];
    destruct z; try discriminate; simpl; intros [=E];
    by apply (DecimalPos.Unsigned.to_uint_nonnil p).
Qed.

#[global] Instance Z_to_string_inj : Inj (=) (=) Z_to_string.
Proof.
  intros a b E. assert (Some a = Some b) as [=]; [|done].
  by rewrite <-!Z_of_to_string, E.
Qed.

(** * Strings *)

(** [strings.HasPrefix(s, p)] and [strings.HasSuffix(s, p)]. *)
Definition has_prefix (p s : string) : bool := String.prefix p s.

Fixpoint contains (sub s : string) : bool :=
  String.prefix sub s ||
  match s with
  | EmptyString => false
  | String.String _ s' => contains sub s'
  end.

Lemma prefix_self_app p s : String.prefix p (p +:+ s) = true.
Proof.
  induction p as [|c p IH]; simpl; [by destruct s|].
  destruct (Ascii.ascii_dec c c); [apply IH | done].
Qed.

Lemma prefix_app_mono p s t : String.prefix p s = true → String.prefix p (s +:+ t) = true.
Proof.
  revert s. induction p as [|c p IH]; intros [|d s]; simpl; try done.
  - by destruct t.
  - destruct (Ascii.ascii_dec c d); [apply IH | done].
Qed.

Lemma contains_app_mono sub s t : contains sub s = true → contains sub (s +:+ t) = true.
Proof.
  induction s as [|c s IH]; intros H.
  - simpl in H. rewrite orb_false_r in H.
    destruct sub; [|done]. by destruct t.
  - cbn [contains] in H. apply orb_true_iff in H as [H|H].
    + apply (prefix_app_mono _ _ t) in H.
      change (contains sub (String.String c (s +:+ t)) = true).
      cbn [contains]. change (String.String c s +:+ t) with (String.String c (s +:+ t)) in H.
      by rewrite H.
    + change (contains sub (String.String c (s +:+ t)) = true).
      cbn [contains]. by rewrite (IH H), orb_true_r.
Qed.

(** [strings.ToLower] on ASCII text. *)
Definition ascii_lower (c : Ascii.ascii) : Ascii.ascii :=
  let n := Ascii.N_of_ascii c in
  if ((65 <=? n) && (n <=? 90))%N then Ascii.ascii_of_N (n + 32) else c.

Fixpoint to_lower (s : string) : string :=
  match s with
  | EmptyString => EmptyString
  | String.String c s' => String.String (ascii_lower c) (to_lower s')
  end.

(** * Sums over lists *)
Fixpoint sum_with {A} (f : A → Z) (l : list A) : Z :=
  match l with
  | [] => 0
  | x :: l' => (f x + sum_with f l')%Z
  end.

Section sums.
Context {A : Type}.
Implicit Types f g : A → Z.

Lemma sum_with_app f (l k : list A) :
  sum_with f (l ++ k) = (sum_with f l + sum_with f k)%Z.
Proof. induction l; simpl; lia. Qed.

#[global] Instance sum_with_perm f : Proper ((≡ₚ) ==> (=)) (sum_with f).
Proof. induction 1; simpl; lia. Qed.

Lemma sum_with_ext f g (l : list A) :
  (∀ x, x ∈ l → f x = g x) → sum_with f l = sum_with g l.
Proof.
  induction l as [|x l IH]; intros H; simpl; [done|].
  rewrite H by left. rewrite IH; [done|]. intros y Hy. apply H. by right.
Qed.

Lemma sum_with_0 f (l : list A) : (∀ x, x ∈ l → f x = 0%Z) → sum_with f l = 0%Z.
Proof.
  intros H. rewrite (sum_with_ext f (λ _, 0%Z)) by done.
  clear H. induction l; simpl; lia.
Qed.

Lemma sum_with_map {B} (h : B → A) f (l : list B) :
  sum_with f (map h l) = sum_with (λ x, f (h x)) l.
Proof. induction l; simpl; lia. Qed.

Lemma sum_with_add f g (l : list A) :
  sum_with (λ x, (f x + g x)%Z) l = (sum_with f l + sum_with g l)%Z.
Proof. induction l; simpl; lia. Qed.

Lemma sum_with_nonneg f (l : list A) :
  (∀ x, x ∈ l → (0 ≤ f x)%Z) → (0 ≤ sum_with f l)%Z.
Proof.
  induction l as [|x l IH]; intros H; simpl; [lia|].
  pose proof (H x ltac:(left)). assert (0 ≤ sum_with f l)%Z; [|lia].
  apply IH. intros y Hy. apply H. by right.
Qed.

(** Exactly one element of a duplicate-free key contributes. *)
Lemma sum_with_unique {K} (key : A → K) f (l : list A) x :
  NoDup (map key l) → x ∈ l → (∀ y, y ∈ l → key y ≠ key x → f y = 0%Z) →
  sum_with f l = f x.
Proof.
  induction l as [|y l IH]; intros Hnd Hx Hz; [by apply elem_of_nil in Hx|].
  simpl in Hnd. apply NoDup_cons in Hnd as [Hni Hnd].
  apply elem_of_cons in Hx as [->|Hx]; simpl.
  - rewrite (sum_with_0 f l); [lia|].
    intros z Hzl. apply Hz; [by right|]. intros E. apply Hni.
    rewrite <-E. by apply list_elem_of_fmap_2.
  - rewrite IH; [|done|done|intros z ??; apply Hz; [by right|done]].
    rewrite Hz; [lia|left|]. intros E. apply Hni. rewrite E.
    by apply list_elem_of_fmap_2.
Qed.
End sums.

(** * Automation

    [magellan] is the hint database of the facts the components use without
    naming them; [run_step] performs one step of a computation in [M]. *)
Create HintDb magellan.
#[warnings="-implicit-create-rewrite-hint-db"]
#[export] Hint Rewrite @Z_of_to_string @sum_with_app @sum_with_map : magellan.
#[export] Hint Resolve wrap64_range : magellan.

Ltac run_step :=
  match goal with
  | H : (_ ≫= _) _ = (_, Ok _) |- _ =>
      let a := fresh "a" in let s := fresh "s" in
      let H1 := fresh H in
      apply bind_Ok_inv in H as (a & s & H1 & H); simpl in H1, H
  end.

(** Splits the outcome of the first computation of a bind in hypothesis [H]. *)
Ltac bind_case H :=
  rewrite bind_run in H;
  match type of H with
  | match ?m with _ => _ end = _ =>
      let s := fresh "s" in let r := fresh "r" in let E := fresh "E" in
      destruct m as [s r] eqn:E; destruct r
  end.

(** Closes a decidable goal by computing its decision procedure. *)
Ltac by_decide := apply (bool_decide_unpack _); vm_compute; exact I.
