(* ===== verification/Errors.v ===== *)
(** Error classification and retry (utils/dbutils.go, utils/eventrcvr.go,
    [EventErr] of db/dbmodel.go and [RepeatForLock] of
    balance/balance_manager.go), and the reading of a stored block
    (modelsc/cblock.go). *)

From S2P Require Import Prelude.

(** * Recognising MySQL errors by their text *)
Definition DeadlockDBErrorMessage : string :=
  "Deadlock found when trying to get lock; try restarting transaction".
Definition TimeoutDBErrorMessage : string :=
  "Lock wait timeout exceeded; try restarting transaction".

Definition ErrIsDuplicateEntryError (err : error) : bool :=
  has_prefix "Error 1062: Duplicate entry" err.

Definition ErrIsLockError (err : error) : bool :=
  contains DeadlockDBErrorMessage err || contains TimeoutDBErrorMessage err.

(** [fmt.Errorf("%w (%s%s)", err, t, updmsg)] *)
Definition EventErr (t : string) (upd : bool) (err : error) : error :=
  let updmsg := if upd then " upd" else "" in
  err +:+ " (" +:+ t +:+ updmsg +:+ ")".

Lemma EventErr_duplicate t upd e :
  ErrIsDuplicateEntryError e = true → ErrIsDuplicateEntryError (EventErr t upd e) = true.
Proof. apply prefix_app_mono. Qed.

Lemma EventErr_lock t upd e :
  ErrIsLockError e = true → ErrIsLockError (EventErr t upd e) = true.
Proof.
  unfold ErrIsLockError. intros H. apply orb_true_iff in H as [H|H]; apply orb_true_iff.
  - left. by apply contains_app_mono.
  - right. by apply contains_app_mono.
Qed.

#[export] Hint Resolve EventErr_duplicate EventErr_lock : magellan.

(** [(e *event) EventErr] and [EventErrKv]: duplicate-entry and lock errors
    reach the caller as they are, any other error is wrapped by
    [stacktrace.Propagate] (third-party, [Propagate]). *)
Definition event_EventErr (Propagate : error → string → error)
    (name eventName : string) (err : error) : error :=
  if ErrIsDuplicateEntryError err || ErrIsLockError err then err
  else Propagate err (name +:+ " " +:+ eventName).

(** * Retrying while the database reports a lock

    The Go loop has no bound; [fuel] bounds the number of calls and [None] is
    "still retrying". *)
Fixpoint RepeatForLock {S} (fuel : nat) (f : M S unit) (s : S) : option (S * result unit) :=
  match fuel with
  | O => None
  | Datatypes.S fuel' =>
      match f s with
      | (s', Ok _) => Some (s', Ok tt)
      | (s', Err e) => if ErrIsLockError e then RepeatForLock fuel' f s' else Some (s', Err e)
      end
  end.

Section RepeatForLock.
Context {S : Type} (f : M S unit).

(** What every call keeps, the whole loop keeps. *)
Lemma RepeatForLock_invariant (P : S → Prop) fuel s s' r :
  (∀ s0, P s0 → P (f s0).1) → P s →
  RepeatForLock fuel f s = Some (s', r) → P s'.
Proof.
  intros Hf. revert s. induction fuel as [|n IH]; intros s HP H; [done|]. simpl in H.
  pose proof (Hf s HP) as HP'. destruct (f s) as [s1 [[]|e]]; simpl in *.
  - by simplify_eq.
  - destruct (ErrIsLockError e); [by eapply IH | by simplify_eq].
Qed.

(** The loop never reports a lock error. *)
Lemma RepeatForLock_no_lock fuel s s' e :
  RepeatForLock fuel f s = Some (s', Err e) → ErrIsLockError e = false.
Proof.
  revert s. induction fuel as [|n IH]; intros s H; [done|]. simpl in H.
  destruct (f s) as [s1 [[]|e1]]; [done|].
  destruct (ErrIsLockError e1) eqn:E; [by eapply IH | by simplify_eq].
Qed.

Lemma RepeatForLock_mono fuel fuel' s x :
  fuel ≤ fuel' → RepeatForLock fuel f s = Some x → RepeatForLock fuel' f s = Some x.
Proof.
  revert fuel' s. induction fuel as [|n IH]; intros [|n'] s Hle H; try done; [lia|].
  simpl in *. destruct (f s) as [s1 [[]|e]]; [done|].
  destruct (ErrIsLockError e); [|done]. apply IH; [lia|done].
Qed.

(** If a measure of the state decreases with every lock error, a fuel above
    the measure is enough for an answer. *)
Lemma RepeatForLock_terminates (measure : S → nat) fuel s :
  (∀ s0 s1 e, f s0 = (s1, Err e) → ErrIsLockError e = true → measure s1 < measure s0) →
  measure s < fuel → is_Some (RepeatForLock fuel f s).
Proof.
  intros Hm. revert s. induction fuel as [|n IH]; intros s Hlt; [lia|]. simpl.
  destruct (f s) as [s1 [[]|e]] eqn:E; [by eexists|].
  destruct (ErrIsLockError e) eqn:El; [|by eexists].
  apply IH. pose proof (Hm _ _ _ E El). lia.
Qed.
End RepeatForLock.

(** * modelsc/cblock.go: the blocks of the C chain as the program stores them.  The parts of
    the program that read them use different parts of a block: [B] is what one reads of it,
    [T] what it reads of a transaction. *)

Section unmarshal.
Context {B T : Type}.
(** [json.Unmarshal] (third-party): the block, and the bytes of [TxsBytes], those of the
transactions of an old block. *)
Context (json_Unmarshal : string → result (B * list string)).
(** [types.Transaction.UnmarshalJSON] (third-party). *)
Context (UnmarshalJSON : string → result T).

(** [Unmarshal] : the block, and the transactions that are added to its own. *)
Definition modelsc_Unmarshal (data : string) : result (B * list T) :=
'(block, TxsBytes) ← json_Unmarshal data;
txs ← mapM UnmarshalJSON TxsBytes;
Ok (block, txs).

(** A block is read when its JSON is and that of each of its transactions is: all of them,
in order. *)
Lemma modelsc_Unmarshal_ok data block txs : modelsc_Unmarshal data = Ok (block, txs) ↔
∃ TxsBytes, json_Unmarshal data = Ok (block, TxsBytes) ∧ Forall2 (λ t tr, UnmarshalJSON t = Ok tr) TxsBytes txs.
Proof.
unfold modelsc_Unmarshal.
assert (∀ l, mapM UnmarshalJSON l = Ok txs ↔ Forall2 (λ t tr, UnmarshalJSON t = Ok tr) l txs) as Hm.
{ intros l. revert txs. induction l as [|t l IH]; intros txs; cbn.
  - split; [by intros [= <-]|]. by intros ->%Forall2_nil_inv_l.
  - destruct (UnmarshalJSON t) as [tr|e] eqn:Et; cbn.
    2: { split; [done|]. intros H. apply Forall2_cons_inv_l in H as (tr & l' & E & _). congruence. }
    destruct (mapM UnmarshalJSON l) as [l'|e] eqn:El; cbn.
    + split.
      * intros [= <-]. constructor; [done|]. by apply IH.
      * intros H. apply Forall2_cons_inv_l in H as (tr' & l'' & E & H & ->). apply IH in H. cbv [mret result_ret]. congruence.
    + split; [done|]. intros H. apply Forall2_cons_inv_l in H as (tr' & l'' & E & H & ->). apply IH in H. congruence. }
destruct (json_Unmarshal data) as [[b l]|e]; cbn.
- destruct (mapM UnmarshalJSON l) as [l'|e] eqn:El; cbn.
  + split.
    * intros [= <- <-]. exists l. split; [done|]. by apply Hm.
    * intros (l2 & [= <- <-] & H). apply Hm in H. congruence.
  + split; [done|]. intros (l2 & [= <- <-] & H). apply Hm in H. congruence.
- split; [done|]. by intros (? & ? & _).
Qed.
End unmarshal.
