(* ===== verification/Sql.v ===== *)
(** The SQL database as the program sees it: values, rows, the statements the
    program builds with dbr, and the interface of the engine that executes them.

    The engine (MySQL behind gocraft/dbr) is not part of the repository: it is
    the class [SqlEngine], and the class [SqlEngineOk] states the documented
    behaviour the program relies on.  MemDb.v gives a concrete engine. *)

From S2P Require Import Prelude Errors.

(** * Values and rows *)
Inductive value :=
| VNull
| VStr (s : string)
| VNum (z : Z)
| VBool (b : bool)
| VBytes (s : string)
| VTime (ns : Z)       (* an instant, nanoseconds since the Unix epoch *)
| VExpr (s : string).  (* other SQL text spliced into a statement *)

#[global] Instance value_eq_dec : EqDecision value.
Proof. solve_decision. Defined.

Abbreviation row := (gmap string value).

(** Encodings of Go values by the driver.  A [time.Time] is written with six
    fractional digits (the columns are [timestamp(6)]), a nil slice as NULL. *)
Definition trunc_micro (t : Z) : Z := (t / 1000 * 1000)%Z.
Definition vtime (t : Z) : value := VTime (trunc_micro t).
Definition vbytes (b : option string) : value :=
  match b with Some s => VBytes s | None => VNull end.

(** A decimal string concatenated into the SQL text is a numeric literal. *)
Definition literal (s : string) : value :=
  match Z_of_string s with
  | Some z => if decide (Z_to_string z = s) then VNum z else VExpr s
  | None => VExpr s
  end.

Lemma trunc_micro_idemp t : trunc_micro (trunc_micro t) = trunc_micro t.
Proof. unfold trunc_micro. by rewrite Z.div_mul. Qed.

Lemma literal_of_Z z : literal (Z_to_string z) = VNum z.
Proof. unfold literal. rewrite Z_of_to_string. by rewrite decide_True. Qed.

#[export] Hint Rewrite trunc_micro_idemp literal_of_Z : magellan.

(** Scanning a column into a Go field; a missing column leaves the zero value. *)
Definition as_str (v : option value) : string :=
  match v with
  | Some (VStr s) => s
  | Some (VNum z) => Z_to_string z
  | Some (VExpr s) => s
  | _ => ""
  end.
Definition as_num (v : option value) : Z :=
  match v with Some (VNum z) => z | _ => 0%Z end.
Definition as_bool (v : option value) : bool :=
  match v with
  | Some (VBool b) => b
  | Some (VNum z) => negb (z =? 0)%Z
  | _ => false
  end.
Definition as_bytes (v : option value) : option string :=
  match v with Some (VBytes s) => Some s | _ => None end.
(** The zero [time.Time] is 0001-01-01T00:00:00Z. *)
Definition zero_time : Z := (-62135596800 * 10 ^ 9)%Z.
Definition as_time (v : option value) : Z :=
  match v with Some (VTime t) => t | _ => zero_time end.

Definition col_str (r : row) (c : string) : string := as_str (r !! c).
Definition col_num (r : row) (c : string) : Z := as_num (r !! c).

Lemma as_str_literal s : as_str (Some (literal s)) = s.
Proof.
  unfold literal. destruct (Z_of_string s) as [z|]; [|done].
  by case_decide.
Qed.

(** * Statements *)
Inductive setexpr :=
| SetVal (v : value)          (* c = v *)
| SetAdd (v : value).         (* c = c + v *)

Inductive cond :=
| CEq (c : string) (v : value)    (* c = v *)
| CNe (c : string) (v : value).   (* c <> v *)

Inductive stmt :=
| Insert (t : string) (pairs : list (string * value))
| Update (t : string) (sets : list (string * setexpr)) (where_ : list cond).

(** SQL comparison: NULL compares with nothing. *)
Definition cond_holds (r : row) (c : cond) : bool :=
  match c with
  | CEq k v => bool_decide (r !! k = Some v ∧ v ≠ VNull)
  | CNe k v => match r !! k with
               | None | Some VNull => false
               | Some v' => bool_decide (v' ≠ v ∧ v ≠ VNull)
               end
  end.

Definition matches (w : list cond) (r : row) : bool := forallb (cond_holds r) w.

Definition set_column (r : row) (cs : string * setexpr) : row :=
  let '(c, s) := cs in
  match s with
  | SetVal v => <[c := v]> r
  | SetAdd (VNum n) => <[c := VNum (as_num (r !! c) + n)]> r
  | SetAdd _ => r
  end.

Definition apply_sets (sets : list (string * setexpr)) (r : row) : row :=
  fold_left set_column sets r.

Definition update_row (sets : list (string * setexpr)) (w : list cond) (r : row) : row :=
  if matches w r then apply_sets sets r else r.

(** * Schema

    Unique keys (primary keys and unique indexes) and the defaults of the
    columns that some INSERT leaves out, after all the migrations of
    services/db/migrations. *)
Definition unique_keys (t : string) : list (list string) :=
  if decide (t = "avm_outputs") then [["id"]; ["transaction_id"; "output_index"]]
  else if decide (t ∈ ["addresses"; "addresses_bech32"]) then [["address"]]
  else if decide (t = "address_chain") then [["address"; "chain_id"]]
  else if decide (t = "avm_output_addresses") then [["output_id"; "address"]]
  else if decide (t = "cvm_blocks") then [["block"]]
  else if decide (t = "cvm_transactions_txdata") then [["hash"]]
  else if decide (t = "transactions_rewards_owners_address") then [["id"; "address"]]
  else if decide (t = "key_value_store") then [["k"]]
  else if decide (t = "cvm_transactions_txdata_trace") then [["hash"; "idx"]]
  else if decide (t = "node_index") then [["instance"; "topic"]]
  else [["id"]].

Definition column_defaults (t : string) : list (string * value) :=
  if decide (t = "output_addresses_accumulate_out") then [("processed", VNum 0)]
  else if decide (t = "output_addresses_accumulate_in") then
    [("processed", VNum 0); ("output_processed", VNum 0)]
  else if decide (t = "output_txs_accumulate") then [("processed", VNum 0)]
  else if decide (t ∈ ["accumulate_balances_received"; "accumulate_balances_sent"]) then
    [("total_amount", VNum 0); ("utxo_count", VNum 0)]
  else if decide (t = "accumulate_balances_transactions") then [("transaction_count", VNum 0)]
  else if decide (t = "avm_output_addresses") then [("redeeming_signature", VNull)]
  else [].

Definition new_row (t : string) (pairs : list (string * value)) : row :=
  list_to_map (pairs ++ column_defaults t).

Definition project (k : list string) (r : row) : list (option value) :=
  map (λ c, r !! c) k.

(** No two rows agree on a unique key. *)
Definition unique_rows (t : string) (rs : list row) : Prop :=
  ∀ k, k ∈ unique_keys t → NoDup (map (project k) rs).

Definition clashes (t : string) (r : row) (rs : list row) : bool :=
  existsb (λ k, existsb (λ r', bool_decide (project k r = project k r')) rs) (unique_keys t).

(** Rows as a function of the table name. *)
Abbreviation content := (string → list row).

Definition content_eq (c c' : content) : Prop := ∀ t, c t ≡ₚ c' t.
Infix "≡ᶜ" := content_eq (at level 70) : magellan_scope.
Open Scope magellan_scope.

#[global] Instance content_eq_equiv : Equivalence content_eq.
Proof.
  split.
  - intros c t. reflexivity.
  - intros c c' H t. by rewrite (H t).
  - intros c1 c2 c3 H1 H2 t. by rewrite (H1 t).
Qed.

(** Effect of a statement that succeeds. *)
Definition inserted (t : string) (ps : list (string * value)) (c c' : content) : Prop :=
  clashes t (new_row t ps) (c t) = false ∧
  c' t ≡ₚ new_row t ps :: c t ∧
  ∀ t', t' ≠ t → c' t' ≡ₚ c t'.

Definition updated (t : string) (sets : list (string * setexpr)) (w : list cond)
    (c c' : content) : Prop :=
  c' t ≡ₚ map (update_row sets w) (c t) ∧
  ∀ t', t' ≠ t → c' t' ≡ₚ c t'.

(** * The engine *)
Class SqlEngine (D : Type) := {
  rows : D → content;                     (* what queries observe *)
  saved : D → option content;             (* at the start of the open transaction *)
  exec : stmt → M D unit;
  poll : M D unit;                        (* running a SELECT, which can fail *)
  tx_begin : M D unit;
  tx_commit : M D unit;
  tx_rollback : D → D;
}.

Class SqlEngineOk (D : Type) `{!SqlEngine D} : Prop := {
  exec_insert d d' t ps :
    exec (Insert t ps) d = (d', Ok tt) → inserted t ps (rows d) (rows d');
  exec_insert_err d d' t ps e :
    exec (Insert t ps) d = (d', Err e) → rows d ≡ᶜ rows d' ∧
    (ErrIsDuplicateEntryError e = true → clashes t (new_row t ps) (rows d t) = true);
  exec_update d d' t sets w :
    exec (Update t sets w) d = (d', Ok tt) →
    updated t sets w (rows d) (rows d') ∧
    (unique_rows t (rows d t) → unique_rows t (rows d' t));
  exec_update_err d d' t sets w e :
    exec (Update t sets w) d = (d', Err e) → rows d ≡ᶜ rows d' ∧
    (ErrIsDuplicateEntryError e = true → ¬ unique_rows t (map (update_row sets w) (rows d t)));
  exec_saved st d : saved (exec st d).1 = saved d;
  poll_rows d : rows d ≡ᶜ rows (poll d).1;
  poll_saved d : saved (poll d).1 = saved d;
  begin_rows d : rows d ≡ᶜ rows (tx_begin d).1;
  begin_saved d d' :
    tx_begin d = (d', Ok tt) → ∃ c, saved d' = Some c ∧ c ≡ᶜ rows d;
  commit_rows d : rows d ≡ᶜ rows (tx_commit d).1;
  commit_err_saved d d' e : tx_commit d = (d', Err e) → saved d' = saved d;
  rollback_rows d c : saved d = Some c → rows (tx_rollback d) ≡ᶜ c;
}.

Section engine.
Context `{SqlEngine D}.

(** A query: its answer is a function of the content. *)
Definition select {A} (q : content → A) : M D A :=
  poll ≫= λ _, gets (λ d, q (rows d)).

(** [dbTx, err = session.Begin(); defer dbTx.RollbackUnlessCommitted(); ...]
    The body says whether it reached [return dbTx.Commit()] or left with
    [return nil] before it. *)
Definition in_tx (body : M D bool) : M D unit := λ d,
  match tx_begin d with
  | (d1, Err e) => (d1, Err e)
  | (d1, Ok _) =>
      match body d1 with
      | (d2, Err e) => (tx_rollback d2, Err e)
      | (d2, Ok false) => (tx_rollback d2, Ok tt)
      | (d2, Ok true) =>
          match tx_commit d2 with
          | (d3, Err e) => (tx_rollback d3, Err e)
          | (d3, Ok _) => (d3, Ok tt)
          end
      end
  end.

(** [_, err = stmt.ExecContext(ctx)
     if err != nil && !utils.ErrIsDuplicateEntryError(err) {
       return EventErr(tag, false, err) }] *)
Definition exec_ignore_dup (st : stmt) (tag : string) : M D unit :=
  r ← attempt (exec st);
  match r with
  | Err e =>
      if ErrIsDuplicateEntryError e then mret tt else throw (EventErr tag false e)
  | Ok _ => mret tt
  end.

(** [_, err = stmt.ExecContext(ctx)
     if err != nil { return EventErr(tag, true, err) }] *)
Definition exec_report (st : stmt) (tag : string) : M D unit :=
  r ← attempt (exec st);
  match r with Err e => throw (EventErr tag true e) | Ok _ => mret tt end.

(** The body of the [(p *persist) InsertX] that take an [upd] flag: an INSERT
    whose duplicate-entry error is ignored, then, if [upd], an UPDATE. [itag]
    and [utag] are the names the two errors are reported under. *)
Definition insert_upd (ins : stmt) (itag : string) (upds : stmt) (utag : string)
    (upd : bool) : M D unit :=
  exec_ignore_dup ins itag ≫= λ _,
  if upd then exec_report upds utag else mret tt.
End engine.

(** * Facts about any engine *)
Section engine_facts.
Context `{SqlEngine D} `{!SqlEngineOk D}.

(** The computations that leave the open transaction open. *)
Definition keeps_saved {A} (m : M D A) : Prop := ∀ d, saved (m d).1 = saved d.

Lemma keeps_saved_ret {A} (a : A) : keeps_saved (mret a).
Proof. done. Qed.
Lemma keeps_saved_throw {A} e : keeps_saved (throw (A:=A) e).
Proof. done. Qed.
Lemma keeps_saved_lift {A} (r : result A) : keeps_saved (lift_result r).
Proof. done. Qed.
Lemma keeps_saved_exec st : keeps_saved (exec st).
Proof. intros d. apply exec_saved. Qed.
Lemma keeps_saved_bind {A B} (m : M D A) (f : A → M D B) :
  keeps_saved m → (∀ a, keeps_saved (f a)) → keeps_saved (m ≫= f).
Proof.
  intros Hm Hf d. rewrite bind_run. pose proof (Hm d) as E.
  destruct (m d) as [d' [a|e]]; simpl in *; [|done]. by rewrite Hf.
Qed.
Lemma keeps_saved_attempt {A} (m : M D A) : keeps_saved m → keeps_saved (attempt m).
Proof.
  intros Hm d. unfold attempt. pose proof (Hm d). by destruct (m d).
Qed.
Lemma keeps_saved_select {A} (q : content → A) : keeps_saved (select q).
Proof.
  unfold select. apply keeps_saved_bind; [|done]. intros d. apply poll_saved.
Qed.
Lemma keeps_saved_for_each {A} (l : list A) (f : A → M D unit) :
  (∀ x, keeps_saved (f x)) → keeps_saved (for_each l f).
Proof.
  intros Hf. induction l as [|x l IH]; simpl; [done|].
  apply keeps_saved_bind; [apply Hf | done].
Qed.
End engine_facts.

#[export] Hint Resolve keeps_saved_ret keeps_saved_throw keeps_saved_lift keeps_saved_exec
  keeps_saved_bind keeps_saved_attempt keeps_saved_select keeps_saved_for_each : magellan.
#[export] Hint Extern 1 (keeps_saved (match ?x with _ => _ end)) => destruct x : magellan.
#[export] Hint Extern 1 (keeps_saved (if ?x then _ else _)) => destruct x : magellan.

(** * Uniqueness of keys *)
Definition unique_content (c : content) : Prop := ∀ t, unique_rows t (c t).

#[global] Instance unique_rows_perm t : Proper ((≡ₚ) ==> iff) (unique_rows t).
Proof.
  intros l l' E. unfold unique_rows.
  split; intros Hu k Hk; specialize (Hu k Hk);
    [by rewrite <-(Permutation_map (project k) E) | by rewrite (Permutation_map (project k) E)].
Qed.

#[global] Instance unique_content_proper : Proper (content_eq ==> iff) unique_content.
Proof.
  intros c c' E. unfold unique_content.
  split; intros Hu t; specialize (Hu t); [by rewrite <-(E t) | by rewrite (E t)].
Qed.

Lemma clashes_false t r rs :
  clashes t r rs = false ↔
  ∀ k r', k ∈ unique_keys t → r' ∈ rs → project k r ≠ project k r'.
Proof.
  unfold clashes. split.
  - intros H k r' Hk Hr E.
    apply not_true_iff_false in H. apply H. apply existsb_exists.
    exists k. split; [by apply list_elem_of_In|]. apply existsb_exists.
    exists r'. split; [by apply list_elem_of_In|]. by apply bool_decide_eq_true.
  - intros H. apply not_true_iff_false. intros (k & Hk & Hr)%existsb_exists.
    apply existsb_exists in Hr as (r' & Hr & E). apply bool_decide_eq_true in E.
    by apply (H k r'); [apply list_elem_of_In | apply list_elem_of_In |].
Qed.

#[global] Instance clashes_perm t r : Proper ((≡ₚ) ==> (=)) (clashes t r).
Proof.
  intros l l' E. apply eq_true_iff_eq. rewrite <-!not_false_iff_true, !clashes_false.
  by setoid_rewrite E.
Qed.

Lemma unique_rows_insert t r rs :
  clashes t r rs = false → unique_rows t rs → unique_rows t (r :: rs).
Proof.
  intros Hc Hu k Hk. simpl. apply NoDup_cons. split; [|by apply Hu].
  intros (r' & E & Hr)%list_elem_of_fmap. by eapply clashes_false.
Qed.

Lemma inserted_unique t ps c c' :
  inserted t ps c c' → unique_content c → unique_content c'.
Proof.
  intros (Hc & Ht & Ho) Hu t'. destruct (decide (t' = t)) as [->|].
  - rewrite Ht. by apply unique_rows_insert.
  - by rewrite Ho.
Qed.

(** Two rows with the same value of a unique key are the same row. *)
Lemma unique_rows_eq t k rs r r' :
  unique_rows t rs → k ∈ unique_keys t → r ∈ rs → r' ∈ rs →
  project k r = project k r' → r = r'.
Proof.
  intros Hu Hk Hr Hr' E. specialize (Hu k Hk). clear Hk.
  induction rs as [|x rs IH]; [by apply elem_of_nil in Hr|].
  simpl in Hu. apply NoDup_cons in Hu as [Hni Hnd].
  apply elem_of_cons in Hr as [->|Hr], Hr' as [->|Hr']; [done| | |by apply IH].
  - exfalso. apply Hni. rewrite E. by apply list_elem_of_fmap_2.
  - exfalso. apply Hni. rewrite <-E. by apply list_elem_of_fmap_2.
Qed.

(** * The key of a row *)

(** The WHERE clause that selects by unique key [k] the row [r]. *)
Definition key_where (k : list string) (r : row) : list cond :=
  map (λ c, CEq c (default VNull (r !! c))) k.

Definition key_set (k : list string) (r : row) : bool :=
  forallb (λ c, bool_decide (default VNull (r !! c) ≠ VNull)) k.

Lemma key_where_matches k r r' :
  key_set k r = true → matches (key_where k r) r' = true ↔ project k r = project k r'.
Proof.
  unfold key_set, matches, key_where, project.
  induction k as [|c k IH]; simpl; [done|].
  intros [Hc Hk]%andb_true_iff. specialize (IH Hk). rewrite andb_true_iff, IH.
  apply bool_decide_eq_true in Hc. destruct (r !! c) as [v|] eqn:E; simpl in *; [|done].
  rewrite bool_decide_eq_true. split; [intros [[-> _] ->]; done | intros [= -> ->]; done].
Qed.

Lemma key_where_self k r : key_set k r = true → matches (key_where k r) r = true.
Proof. intros H. by apply key_where_matches. Qed.

Lemma filter_singleton_perm {A} (l : list A) x : l ≡ₚ [x] → l = [x].
Proof. intros H. by apply Permutation_singleton_r in H. Qed.

Definition found (w : list cond) (rs : list row) : list row :=
  List.filter (matches w) rs.

#[global] Instance filter_perm {A} (f : A → bool) :
  Proper ((≡ₚ) ==> (≡ₚ)) (List.filter f).
Proof.
  induction 1 as [|x l l' ? IH|x y l|l1 l2 l3 ? IH1 ? IH2]; simpl.
  - done.
  - destruct (f x); [by apply perm_skip|done].
  - destruct (f x), (f y); try done; apply perm_swap.
  - by rewrite IH1.
Qed.

Lemma filter_none {A} (f : A → bool) (l : list A) :
  (∀ x, x ∈ l → f x = false) → List.filter f l = [].
Proof.
  induction l as [|x l IH]; intros Hf; simpl; [done|].
  rewrite Hf by left. apply IH. intros y Hy. apply Hf. by right.
Qed.

(** A row just inserted is the one and only row its key finds. *)
Lemma inserted_found t ps k c c' :
  inserted t ps c c' → k ∈ unique_keys t → key_set k (new_row t ps) = true →
  found (key_where k (new_row t ps)) (c' t) = [new_row t ps].
Proof.
  intros (Hc & Ht & _) Hk Hs. apply filter_singleton_perm. unfold found.
  rewrite Ht. simpl. rewrite key_where_self by done. rewrite filter_none; [done|].
  intros r Hr. apply not_true_iff_false. rewrite key_where_matches by done.
  intros E. by eapply clashes_false.
Qed.

Lemma lookup_apply_sets_ne sets (r : row) c :
  c ∉ map fst sets → apply_sets sets r !! c = r !! c.
Proof.
  unfold apply_sets. revert r. induction sets as [|[k s] sets IH]; intros r Hni; simpl in *; [done|].
  apply not_elem_of_cons in Hni as [Hne Hni]. rewrite IH by done.
  destruct s as [v|[]]; simpl; rewrite ?lookup_insert_ne by done; done.
Qed.

(** * Effect of the composite operations *)

(** An INSERT attempt whose duplicate-entry error is ignored. *)
Definition insert_or_keep (t : string) (ps : list (string * value)) (c c' : content) : Prop :=
  inserted t ps c c' ∨ (clashes t (new_row t ps) (c t) = true ∧ c ≡ᶜ c').

(** [c'] is [c] with, in one table, rows added: what an operation that never
    updates can do. *)
Section effects.
Context `{SqlEngine D} `{!SqlEngineOk D}.

Lemma insert_ignore_dup_ok t ps tag d d' :
  exec_ignore_dup (Insert t ps) tag d = (d', Ok tt) →
  insert_or_keep t ps (rows d) (rows d').
Proof.
  unfold exec_ignore_dup, attempt. rewrite bind_run.
  destruct (exec (Insert t ps) d) as [d1 [[]|e]] eqn:E; simpl.
  - intros [= <-]. left. by eapply exec_insert.
  - apply exec_insert_err in E as [He Hdup].
    destruct (ErrIsDuplicateEntryError e); simpl; [|done].
    intros [= <-]. right. auto.
Qed.

Lemma insert_ignore_dup_err t ps tag d d' e :
  exec_ignore_dup (Insert t ps) tag d = (d', Err e) → rows d ≡ᶜ rows d'.
Proof.
  unfold exec_ignore_dup, attempt. rewrite bind_run.
  destruct (exec (Insert t ps) d) as [d1 [[]|e1]] eqn:E; simpl; [done|].
  apply exec_insert_err in E as [He _].
  destruct (ErrIsDuplicateEntryError e1); simpl; intros [= <- <-]; done.
Qed.

Lemma update_report_ok t sets w tag d d' :
  exec_report (Update t sets w) tag d = (d', Ok tt) →
  updated t sets w (rows d) (rows d') ∧
  (unique_rows t (rows d t) → unique_rows t (rows d' t)).
Proof.
  unfold exec_report, attempt. rewrite bind_run.
  destruct (exec (Update t sets w) d) as [d1 [[]|e]] eqn:E; simpl; [|done].
  intros [= <-]. by eapply exec_update.
Qed.

Lemma update_report_err t sets w tag d d' e :
  exec_report (Update t sets w) tag d = (d', Err e) → rows d ≡ᶜ rows d'.
Proof.
  unfold exec_report, attempt. rewrite bind_run.
  destruct (exec (Update t sets w) d) as [d1 [[]|e1]] eqn:E; simpl; [done|].
  intros [= <- <-]. by eapply exec_update_err.
Qed.

(** The columns of no unique key are among those set. *)
Definition sets_no_key (t : string) (sets : list (string * setexpr)) : bool :=
  forallb (λ k, forallb (λ c, negb (existsb (String.eqb c) (map fst sets))) k) (unique_keys t).

Lemma sets_no_key_unique t sets w rs :
  sets_no_key t sets = true → unique_rows t rs → unique_rows t (map (update_row sets w) rs).
Proof.
  intros Hs Hu k Hk. unfold sets_no_key in Hs. rewrite forallb_forall in Hs.
  specialize (Hs k ltac:(by apply list_elem_of_In)). rewrite forallb_forall in Hs.
  assert (map (project k) (map (update_row sets w) rs) = map (project k) rs) as ->;
    [|by apply Hu].
  rewrite map_map. apply map_ext. intros r. unfold project, update_row.
  apply map_ext_in. intros c Hc. destruct (matches w r); [|done].
  apply lookup_apply_sets_ne. intros Hin.
  specialize (Hs c Hc). apply negb_true_iff, not_true_iff_false in Hs.
  apply Hs, existsb_exists. exists c. split; [by apply list_elem_of_In | apply String.eqb_refl].
Qed.

(** An UPDATE that sets no column of a unique key never meets a duplicate. *)
Lemma update_ignore_dup_ok t sets w tag d d' :
  sets_no_key t sets = true → unique_rows t (rows d t) →
  exec_ignore_dup (Update t sets w) tag d = (d', Ok tt) →
  updated t sets w (rows d) (rows d').
Proof.
  intros Hs Hu. unfold exec_ignore_dup, attempt. rewrite bind_run.
  destruct (exec (Update t sets w) d) as [d1 [[]|e]] eqn:E; simpl.
  - intros [= <-]. by eapply exec_update.
  - apply exec_update_err in E as [_ Hdup].
    destruct (ErrIsDuplicateEntryError e); simpl; [|done].
    exfalso. by apply (Hdup eq_refl), sets_no_key_unique.
Qed.

Lemma update_ignore_dup_err t sets w tag d d' e :
  exec_ignore_dup (Update t sets w) tag d = (d', Err e) → rows d ≡ᶜ rows d'.
Proof.
  unfold exec_ignore_dup, attempt. rewrite bind_run.
  destruct (exec (Update t sets w) d) as [d1 [[]|e1]] eqn:E; simpl; [done|].
  apply exec_update_err in E as [He _].
  destruct (ErrIsDuplicateEntryError e1); simpl; intros [= <- <-]; done.
Qed.

Lemma insert_upd_false_ok t ps itag upds utag d d' :
  insert_upd (Insert t ps) itag upds utag false d = (d', Ok tt) →
  insert_or_keep t ps (rows d) (rows d').
Proof.
  unfold insert_upd. intros (a & d1 & H1 & [= <-])%bind_Ok_inv.
  destruct a. by eapply insert_ignore_dup_ok.
Qed.

Lemma insert_upd_false_err t ps itag upds utag d d' e :
  insert_upd (Insert t ps) itag upds utag false d = (d', Err e) → rows d ≡ᶜ rows d'.
Proof.
  unfold insert_upd. rewrite bind_run.
  destruct (exec_ignore_dup _ _ d) as [d1 [[]|e1]] eqn:E; intros [= <-].
  by eapply insert_ignore_dup_err.
Qed.

Lemma insert_upd_true_ok t ps itag sets w utag d d' :
  insert_upd (Insert t ps) itag (Update t sets w) utag true d = (d', Ok tt) →
  ∃ c, insert_or_keep t ps (rows d) c ∧ updated t sets w c (rows d').
Proof.
  unfold insert_upd. intros (a & d1 & H1 & H2)%bind_Ok_inv. destruct a.
  exists (rows d1). split; [by eapply insert_ignore_dup_ok|].
  by eapply update_report_ok.
Qed.

(** A transaction that reports an error leaves the content as it was. *)
Lemma in_tx_err body d d' e :
  keeps_saved body → in_tx body d = (d', Err e) → rows d ≡ᶜ rows d'.
Proof.
  intros Hk. unfold in_tx.
  pose proof (begin_rows d) as Hb. pose proof (λ d1, begin_saved d d1) as Hs.
  destruct (tx_begin d) as [d1 [[]|e1]]; simpl in Hb; [|by intros [= <- <-]].
  destruct (Hs _ eq_refl) as (c & Hc & Ec). pose proof (Hk d1) as Hk1.
  destruct (body d1) as [d2 [[]|e2]]; simpl in Hk1.
  - destruct (tx_commit d2) as [d3 [[]|e3]] eqn:E3; intros [= <- <-].
    apply commit_err_saved in E3.
    rewrite (rollback_rows d3 c) by congruence. by rewrite Ec.
  - done.
  - intros [= <- <-]. rewrite (rollback_rows d2 c) by congruence. by rewrite Ec.
Qed.

(** A transaction that reports success either committed what its body did,
    started from the content it found, or left without any effect. *)
Lemma in_tx_ok body d d' :
  keeps_saved body → in_tx body d = (d', Ok tt) →
  rows d ≡ᶜ rows d' ∨
  ∃ d1 d2, rows d ≡ᶜ rows d1 ∧ body d1 = (d2, Ok true) ∧ rows d2 ≡ᶜ rows d'.
Proof.
  intros Hk. unfold in_tx.
  pose proof (begin_rows d) as Hb. pose proof (λ d1, begin_saved d d1) as Hs.
  destruct (tx_begin d) as [d1 [[]|e1]]; simpl in Hb; [|done].
  destruct (Hs _ eq_refl) as (c & Hc & Ec). pose proof (Hk d1) as Hk1.
  destruct (body d1) as [d2 [[]|e2]] eqn:E2; simpl in Hk1; [| |done].
  - pose proof (commit_rows d2) as Hcm.
    destruct (tx_commit d2) as [d3 [[]|e3]]; intros [= <-].
    right. by exists d1, d2.
  - intros [= <-]. left. rewrite (rollback_rows d2 c) by congruence. by rewrite Ec.
Qed.

Lemma select_ok {A} (q : content → A) d d' a :
  select q d = (d', Ok a) → rows d ≡ᶜ rows d' ∧ a = q (rows d').
Proof.
  unfold select. intros (u & d1 & H1 & [= <- <-])%bind_Ok_inv.
  split; [|done]. pose proof (poll_rows d). by rewrite H1 in *.
Qed.

Lemma select_rows {A} (q : content → A) d : rows d ≡ᶜ rows (select q d).1.
Proof.
  unfold select. rewrite bind_run. pose proof (poll_rows d).
  by destruct (poll d) as [d1 [[]|e]].
Qed.
End effects.

(** * Reading a row back *)

(** [sess.Select(cols...).From(t).Where(w).LoadOneContext(ctx, v)]: the first
    matching row restricted to the selected columns; no row is
    [dbr.ErrNotFound]. *)
Definition ErrNotFound : error := "dbr: not found".

Definition restrict (cols : list string) (r : row) : row :=
  list_to_map (flat_map (λ c, match r !! c with Some v => [(c, v)] | None => [] end) cols).

Definition load_one (t : string) (cols : list string) (w : list cond) (c : content)
    : option row :=
  restrict cols <$> head (found w (c t)).

Definition query_one `{SqlEngine D} (t : string) (cols : list string) (w : list cond)
    : M D (option row) := select (load_one t cols w).

Lemma inserted_load_one t ps k cols c c' :
  inserted t ps c c' → k ∈ unique_keys t → key_set k (new_row t ps) = true →
  load_one t cols (key_where k (new_row t ps)) c' = Some (restrict cols (new_row t ps)).
Proof. intros. unfold load_one. by erewrite inserted_found. Qed.

(** * Looking up columns by name *)
Fixpoint assoc {A} (c : string) (l : list (string * A)) : option A :=
  match l with
  | [] => None
  | (k, v) :: l' => if String.eqb c k then Some v else assoc c l'
  end.

Lemma lookup_list_to_map_assoc {A} (l : list (string * A)) c :
  (list_to_map l : gmap string A) !! c = assoc c l.
Proof.
  induction l as [|[k v] l IH]; simpl; [apply lookup_empty|].
  destruct (String.eqb_spec c k) as [->|Hne].
  - apply lookup_insert_eq.
  - by rewrite lookup_insert_ne.
Qed.

Lemma lookup_new_row t ps c : new_row t ps !! c = assoc c (ps ++ column_defaults t).
Proof. apply lookup_list_to_map_assoc. Qed.

Lemma lookup_restrict cols (r : row) c :
  restrict cols r !! c = if existsb (String.eqb c) cols then r !! c else None.
Proof.
  unfold restrict. rewrite lookup_list_to_map_assoc.
  induction cols as [|k cols IH]; simpl; [done|].
  destruct (r !! k) as [v|] eqn:E; simpl.
  - destruct (String.eqb_spec c k) as [->|Hne]; simpl; [done|apply IH].
  - rewrite IH. destruct (String.eqb_spec c k) as [->|Hne]; simpl; [|done].
    rewrite E. by destruct (existsb _ _).
Qed.

Lemma apply_sets_id sets (r : row) :
  Forall (λ cs, ∃ v, cs.2 = SetVal v ∧ r !! cs.1 = Some v) sets → apply_sets sets r = r.
Proof.
  unfold apply_sets. induction 1 as [|[c s] sets (v & E & Hr) _ IH]; simpl in *; [done|].
  subst s. by rewrite insert_id.
Qed.

(** A column assigned once by value holds that value; an unassigned one keeps its own. *)
Lemma lookup_apply_sets sets (r : row) c v :
  NoDup (map fst sets) → (c, SetVal v) ∈ sets → apply_sets sets r !! c = Some v.
Proof.
  unfold apply_sets. revert r. induction sets as [|[k s] sets IH]; intros r Hnd Hin.
  - by apply elem_of_nil in Hin.
  - simpl in Hnd. apply NoDup_cons in Hnd as [Hni Hnd]. simpl.
    apply elem_of_cons in Hin as [[= <- <-]|Hin]; [|by apply IH].
    assert (∀ r', r' !! c = Some v → fold_left set_column sets r' !! c = Some v) as Hk.
    { clear IH Hnd. induction sets as [|[k' s'] sets IH]; intros r' Hr'; simpl; [done|].
      apply IH; [intros ?; apply Hni; by right|].
      assert (k' ≠ c) by (intros ->; apply Hni; left).
      destruct s' as [v'|[]]; simpl; rewrite ?lookup_insert_ne by done; done. }
    apply Hk. simpl. apply lookup_insert_eq.
Qed.

(** An UPDATE by key leaves the keyed row where it was. *)
Lemma found_update t sets w c c' r :
  updated t sets w c c' → found w (c t) = [r] →
  (∀ r0, matches w r0 = true → matches w (apply_sets sets r0) = true) →
  found w (c' t) = [apply_sets sets r].
Proof.
  intros [Ht _] Hf Hk. apply filter_singleton_perm. unfold found in *. rewrite Ht. clear Ht.
  assert (∀ rs, List.filter (matches w) (map (update_row sets w) rs)
            = map (apply_sets sets) (List.filter (matches w) rs)) as ->.
  { induction rs as [|x rs IH]; simpl; [done|].
    destruct (matches w x) eqn:E.
    - assert (update_row sets w x = apply_sets sets x) as -> by (unfold update_row; by rewrite E).
      rewrite Hk by done. cbn [map]. f_equal. apply IH.
    - assert (update_row sets w x = x) as -> by (unfold update_row; by rewrite E).
      rewrite E. apply IH. }
  by rewrite Hf.
Qed.

Lemma matches_apply_sets sets w (r : row) :
  (∀ c, c ∈ map fst sets → c ∉ map (λ x, match x with CEq k _ | CNe k _ => k end) w) →
  matches w (apply_sets sets r) = matches w r.
Proof.
  intros Hd. unfold matches. induction w as [|x w IH]; simpl; [done|].
  assert (cond_holds (apply_sets sets r) x = cond_holds r x) as ->.
  { destruct x as [k v|k v]; simpl;
      rewrite lookup_apply_sets_ne; try done; intros Hc; apply (Hd k Hc); left. }
  f_equal. apply IH. intros c Hc Hw. apply (Hd c Hc). by right.
Qed.

#[global] Instance load_one_proper t cols w :
  Proper (content_eq ==> (λ o o', is_Some o ↔ is_Some o')) (load_one t cols w).
Proof.
  intros c c' E. unfold load_one. pose proof (filter_perm (matches w) _ _ (E t)) as Hp.
  unfold found. destruct (List.filter _ (c t)) as [|r rs] eqn:E1,
    (List.filter _ (c' t)) as [|r' rs'] eqn:E2; simpl.
  - done.
  - by apply Permutation_nil_l in Hp.
  - by apply Permutation_nil_r in Hp.
  - split; eauto.
Qed.

Lemma found_perm_singleton w c c' t r :
  c ≡ᶜ c' → found w (c t) = [r] → found w (c' t) = [r].
Proof.
  intros E H. apply filter_singleton_perm. unfold found in *.
  rewrite <-(filter_perm (matches w) _ _ (E t)). by rewrite H.
Qed.
