(* ===== verification/MemDb.v ===== *)
(** A concrete engine: tables in memory, one open transaction, and a list of
    faults to inject, one for each call the engine receives ([None] lets the
    call through).  It discharges [SqlEngineOk] and runs the examples. *)

From S2P Require Import Prelude Errors Sql.

Record MemDb := mkMemDb {
  tables : gmap string (list row);
  snapshot : option (gmap string (list row));
  faults : list (option error);
}.

Definition table_of (m : gmap string (list row)) : content := λ t, default [] (m !! t).

Definition empty_db : MemDb := mkMemDb ∅ None [].
Definition faulty_db (fs : list (option error)) : MemDb := mkMemDb ∅ None fs.

(** The next injected fault; a fault never pretends to be a duplicate entry. *)
Definition next_fault (d : MemDb) : MemDb * option error :=
  match faults d with
  | [] => (d, None)
  | f :: fs =>
      (mkMemDb (tables d) (snapshot d) fs,
       e ← f; if ErrIsDuplicateEntryError e then None else Some e)
  end.

Definition DuplicateEntry : error := "Error 1062: Duplicate entry".

Definition unique_rows_dec (t : string) (rs : list row) : bool :=
  forallb (λ k, bool_decide (NoDup (map (project k) rs))) (unique_keys t).

Definition set_table (d : MemDb) (t : string) (rs : list row) : MemDb :=
  mkMemDb (<[t := rs]> (tables d)) (snapshot d) (faults d).

Definition mem_run (st : stmt) : M MemDb unit := λ d,
  match st with
  | Insert t ps =>
      let r := new_row t ps in
      if clashes t r (table_of (tables d) t) then (d, Err DuplicateEntry)
      else (set_table d t (r :: table_of (tables d) t), Ok tt)
  | Update t sets w =>
      let rs := map (update_row sets w) (table_of (tables d) t) in
      if unique_rows_dec t rs then (set_table d t rs, Ok tt) else (d, Err DuplicateEntry)
  end.

(** [m] unless a fault is due. *)
Definition unless_fault (m : M MemDb unit) : M MemDb unit := λ d,
  match next_fault d with
  | (d', Some e) => (d', Err e)
  | (d', None) => m d'
  end.

#[export] Instance mem_engine : SqlEngine MemDb := {
  rows d := table_of (tables d);
  saved d := table_of <$> snapshot d;
  exec st := unless_fault (mem_run st);
  poll := unless_fault (mret tt);
  tx_begin := unless_fault (λ d, (mkMemDb (tables d) (Some (tables d)) (faults d), Ok tt));
  tx_commit := unless_fault (λ d, (mkMemDb (tables d) None (faults d), Ok tt));
  tx_rollback d :=
    match snapshot d with
    | Some m => mkMemDb m None (faults d)
    | None => d
    end;
}.

Lemma next_fault_tables d : tables (next_fault d).1 = tables d.
Proof. unfold next_fault. by destruct (faults d). Qed.
Lemma next_fault_snapshot d : snapshot (next_fault d).1 = snapshot d.
Proof. unfold next_fault. by destruct (faults d). Qed.
Lemma next_fault_not_dup d e :
  (next_fault d).2 = Some e → ErrIsDuplicateEntryError e = false.
Proof.
  unfold next_fault. destruct (faults d) as [|[e'|] fs]; simpl; [done| |done].
  destruct (ErrIsDuplicateEntryError e') eqn:E; intros [= <-]. done.
Qed.

Lemma table_of_insert_eq m t rs : table_of (<[t := rs]> m) t = rs.
Proof. unfold table_of. by rewrite lookup_insert_eq. Qed.
Lemma table_of_insert_ne m t t' rs : t' ≠ t → table_of (<[t := rs]> m) t' = table_of m t'.
Proof. intros. unfold table_of. by rewrite lookup_insert_ne. Qed.

Lemma unique_rows_dec_ok t rs : unique_rows_dec t rs = true → unique_rows t rs.
Proof.
  intros H k Hk. unfold unique_rows_dec in H. rewrite forallb_forall in H.
  eapply bool_decide_eq_true, H. by apply list_elem_of_In.
Qed.

Lemma unique_rows_dec_complete t rs : unique_rows t rs → unique_rows_dec t rs = true.
Proof.
  intros Hu. apply forallb_forall. intros k Hk. apply bool_decide_eq_true, Hu.
  by apply list_elem_of_In.
Qed.

(** Splits a call into its fault and its run. *)
Ltac mem_fault d :=
  unfold unless_fault in *;
  pose proof (next_fault_tables d); pose proof (next_fault_snapshot d);
  pose proof (next_fault_not_dup d);
  let d1 := fresh "d1" in let f := fresh "f" in
  destruct (next_fault d) as [d1 [f|]]; simpl in *.

#[export] Instance mem_engine_ok : SqlEngineOk MemDb.
Proof.
  split; simpl.
  - intros d d' t ps. mem_fault d; [done|].
    destruct (clashes _ _ _) eqn:E; intros [= <-]. simpl.
    rewrite H in E. split; [done|]. rewrite table_of_insert_eq, H.
    split; [done|]. intros t' Ht. by rewrite table_of_insert_ne.
  - intros d d' t ps e. mem_fault d.
    + intros [= <- <-]. rewrite H. split; [done|]. rewrite (H1 f eq_refl). done.
    + destruct (clashes _ _ _) eqn:E; intros [= <- <-]. rewrite H in *. done.
  - intros d d' t sets w. mem_fault d; [done|].
    destruct (unique_rows_dec _ _) eqn:E; intros [= <-]. simpl. rewrite H in *.
    split.
    + split; rewrite ?table_of_insert_eq; [done|].
      intros t' Ht. by rewrite table_of_insert_ne.
    + intros _. rewrite table_of_insert_eq. by apply unique_rows_dec_ok.
  - intros d d' t sets w e. mem_fault d.
    + intros [= <- <-]. rewrite H, (H1 f eq_refl). done.
    + destruct (unique_rows_dec _ _) eqn:E; intros [= <- <-]. rewrite H in *.
      split; [done|]. intros _ Hu. by rewrite unique_rows_dec_complete in E.
  - intros st d. mem_fault d; [by rewrite H0|].
    destruct st; simpl; case_match; simpl; by rewrite H0.
  - intros d. mem_fault d; by rewrite H.
  - intros d. mem_fault d; by rewrite H0.
  - intros d. mem_fault d; by rewrite H.
  - intros d d'. mem_fault d; intros [= <-]. simpl. rewrite H. by eexists.
  - intros d. mem_fault d; by rewrite H.
  - intros d d' e. mem_fault d; intros [= <- <-]. by rewrite H0.
  - intros d c E. destruct (snapshot d); simplify_eq/=. done.
Qed.

Lemma empty_unique fs : unique_content (rows (mkMemDb ∅ None fs)).
Proof. intros t k _. simpl. unfold table_of. rewrite lookup_empty. constructor. Qed.

(** Uniqueness of the keys of a concrete database, table by table. *)
Definition unique_db (d : MemDb) : bool :=
  forallb (λ '(t, rs), unique_rows_dec t rs) (map_to_list (tables d)).

Lemma unique_db_ok d : unique_db d = true → unique_content (rows d).
Proof.
  unfold unique_db. rewrite forallb_forall. intros H t. simpl. unfold table_of.
  destruct (tables d !! t) as [rs|] eqn:E; simpl.
  - apply unique_rows_dec_ok, (H (t, rs)). apply list_elem_of_In. by apply elem_of_map_to_list.
  - intros k _. constructor.
Qed.
