(* ===== verification/Axia.v ===== *)
(** The third-party packages of axia-network-v2 (ids, hashing, math, formatting,
    crypto): parameters of the model, with the documented facts the program
    relies on, and a toy instance for the examples. *)

From S2P Require Import Prelude.

(** An [ids.ID] is its 32 bytes, an [ids.ShortID] its 20 bytes. *)
Abbreviation ID := string (only parsing).
Abbreviation ShortID := string (only parsing).

Class AxiaIds := {
  ID_String : ID → string;
  ID_Prefix : ID → Z → ID;                  (* id.Prefix(uint64) *)
  ids_FromString : string → result ID;
  ids_ToID : string → result ID;
  ShortID_String : ShortID → string;
  ComputeHash256 : string → string;
}.

Class AxiaIdsOk `{!AxiaIds} : Prop := {
  ToID_hash s : ids_ToID (ComputeHash256 s) = Ok (ComputeHash256 s);
  ID_String_inj :: Inj (=) (=) ID_String;
}.

Definition ErrOverflow : error := "overflow occurred".

(** [math.Add64] : the sum, or an error when it does not fit 64 bits. *)
Class AxiaMath := { Add64 : Z → Z → result Z }.
Class AxiaMathOk `{!AxiaMath} : Prop := {
  Add64_ok a b : is_u64 a → is_u64 b → (a + b < 2 ^ 64)%Z → Add64 a b = Ok (a + b)%Z;
  Add64_overflow a b : is_u64 a → is_u64 b → (2 ^ 64 ≤ a + b)%Z → is_ok (Add64 a b) = false;
}.

Class AxiaCrypto := {
  PublicKey : Type;
  PublicKey_Address : PublicKey → ShortID;
  PublicKey_Bytes : PublicKey → string;
  RecoverPublicKey : string → string → result PublicKey;
  FormatBech32 : string → string → result string;
}.

(** [utils.AtomicInterface]: shared cells that hold an error, or nothing yet. *)
Class AxiaAtomic := {
  Cells : Type;
  GetValue : nat → Cells → option error;
  SetValue : nat → error → Cells → Cells;
}.
Class AxiaAtomicOk `{!AxiaAtomic} : Prop := {
  GetValue_set c e m : GetValue c (SetValue c e m) = Some e;
  GetValue_set_ne c c' e m : c' ≠ c → GetValue c' (SetValue c e m) = GetValue c' m;
}.

Lemma Add64_Ok_inv `{!AxiaMath} `{!AxiaMathOk} a b s :
  is_u64 a → is_u64 b → Add64 a b = Ok s → s = (a + b)%Z ∧ is_u64 s.
Proof.
  intros Ha Hb HE. destruct (decide (a + b < 2 ^ 64)%Z) as [Hlt|Hge].
  - rewrite Add64_ok in HE by done. simplify_eq. split; [done|].
    destruct Ha, Hb. split; lia.
  - pose proof (Add64_overflow a b Ha Hb ltac:(lia)) as Ho. by rewrite HE in Ho.
Qed.

(** A toy instance: ids print as themselves, hashes are injective. *)
Module Toy.
#[export] Instance ids : AxiaIds := {
  ID_String i := i;
  ID_Prefix i n := i +:+ "." +:+ Z_to_string n;
  ids_FromString s := Ok s;
  ids_ToID s := Ok s;
  ShortID_String a := a;
  ComputeHash256 s := "#" +:+ s;
}.
#[export] Instance ids_ok : AxiaIdsOk.
Proof. split; [done|]. by intros a b E. Qed.

#[export] Instance math : AxiaMath := {
  Add64 a b := if (a + b <? 2 ^ 64)%Z then Ok (a + b)%Z else Err ErrOverflow;
}.
#[export] Instance math_ok : AxiaMathOk.
Proof.
  split; simpl; intros a b _ _ H.
  - by apply Z.ltb_lt in H as ->.
  - by apply Z.ltb_ge in H as ->.
Qed.

#[export] Instance crypto : AxiaCrypto := {
  PublicKey := string;
  PublicKey_Address pk := pk;
  PublicKey_Bytes pk := pk;
  RecoverPublicKey msg sig := if decide (sig = "bad") then Err "bad signature" else Ok sig;
  FormatBech32 hrp a := Ok (hrp +:+ "1" +:+ a);
}.

#[export] Instance atomic : AxiaAtomic := {
  Cells := gmap nat error;
  GetValue c m := m !! c;
  SetValue c e m := <[c := e]> m;
}.
#[export] Instance atomic_ok : AxiaAtomicOk.
Proof.
  split; intros; simpl; [by rewrite lookup_insert_eq|by rewrite lookup_insert_ne].
Qed.
End Toy.
