(* ===== verification/DbModel.v ===== *)
(** The persistence layer over SQL (db/dbmodel.go): one record for each struct,
    the columns each statement writes, reads and selects by, and the Query,
    Insert and Update operations built from them. *)

From S2P Require Import Prelude Errors Sql Axia.

(** * Tables *)
Definition TableTransactions : string := "avm_transactions".
Definition TableOutputsRedeeming : string := "avm_outputs_redeeming".
Definition TableOutputs : string := "avm_outputs".
Definition TableAssets : string := "avm_assets".
Definition TableAddresses : string := "addresses".
Definition TableAddressChain : string := "address_chain".
Definition TableOutputAddresses : string := "avm_output_addresses".
Definition TableTransactionsEpochs : string := "transactions_epoch".
Definition TableCvmAddresses : string := "cvm_addresses".
Definition TableCvmBlocks : string := "cvm_blocks".
Definition TableCvmTransactions : string := "cvm_transactions".
Definition TableCvmTransactionsTxdata : string := "cvm_transactions_txdata".
Definition TablePvmBlocks : string := "pvm_blocks".
Definition TableRewards : string := "rewards".
Definition TableTransactionsValidator : string := "transactions_validator".
Definition TableTransactionsBlock : string := "transactions_block".
Definition TableAddressBech32 : string := "addresses_bech32".
Definition TableOutputAddressAccumulateOut : string := "output_addresses_accumulate_out".
Definition TableOutputAddressAccumulateIn : string := "output_addresses_accumulate_in".
Definition TableOutputTxsAccumulate : string := "output_txs_accumulate".
Definition TableAccumulateBalancesReceived : string := "accumulate_balances_received".
Definition TableAccumulateBalancesSent : string := "accumulate_balances_sent".
Definition TableAccumulateBalancesTransactions : string := "accumulate_balances_transactions".
Definition TableTransactionsRewardsOwners : string := "transactions_rewards_owners".
Definition TableTransactionsRewardsOwnersAddress : string := "transactions_rewards_owners_address".
Definition TableTransactionsRewardsOwnersOutputs : string := "transactions_rewards_owners_outputs".
Definition TableTxPool : string := "tx_pool".
Definition TableKeyValueStore : string := "key_value_store".
Definition TableCvmTransactionsTxdataTrace : string := "cvm_transactions_txdata_trace".
Definition TableNodeIndex : string := "node_index".
Definition TableCvmLogs : string := "cvm_logs".
Definition TablePvmProposer : string := "pvm_proposer".

(** * Structs *)
Record Transactions := mkTransactions {
  Transactions_ID : string;
  Transactions_ChainID : string;
  Transactions_Type : string;
  Transactions_Memo : option string;
  Transactions_CanonicalSerialization : option string;
  Transactions_Txfee : Z;
  Transactions_NetworkID : Z;
  Transactions_Genesis : bool;
  Transactions_CreatedAt : Z;
}.

Record OutputsRedeeming := mkOutputsRedeeming {
  OutputsRedeeming_ID : string;
  OutputsRedeeming_RedeemedAt : Z;
  OutputsRedeeming_RedeemingTransactionID : string;
  OutputsRedeeming_Amount : Z;
  OutputsRedeeming_OutputIndex : Z;
  OutputsRedeeming_Intx : string;
  OutputsRedeeming_AssetID : string;
  OutputsRedeeming_ChainID : string;
  OutputsRedeeming_CreatedAt : Z;
}.

Record Outputs := mkOutputs {
  Outputs_ID : string;
  Outputs_ChainID : string;
  Outputs_TransactionID : string;
  Outputs_OutputIndex : Z;
  Outputs_OutputType : Z;
  Outputs_AssetID : string;
  Outputs_Amount : Z;
  Outputs_Locktime : Z;
  Outputs_Threshold : Z;
  Outputs_GroupID : Z;
  Outputs_Payload : option string;
  Outputs_StakeLocktime : Z;
  Outputs_Stake : bool;
  Outputs_Frozen : bool;
  Outputs_Stakeableout : bool;
  Outputs_Genesisutxo : bool;
  Outputs_CreatedAt : Z;
}.

Record Assets := mkAssets {
  Assets_ID : string;
  Assets_ChainID : string;
  Assets_Name : string;
  Assets_Symbol : string;
  Assets_Denomination : Z;
  Assets_Alias : string;
  Assets_CurrentSupply : Z;
  Assets_CreatedAt : Z;
}.

Record Addresses := mkAddresses {
  Addresses_Address : string;
  Addresses_PublicKey : option string;
  Addresses_CreatedAt : Z;
  Addresses_UpdatedAt : Z;
}.

Record AddressChain := mkAddressChain {
  AddressChain_Address : string;
  AddressChain_ChainID : string;
  AddressChain_CreatedAt : Z;
  AddressChain_UpdatedAt : Z;
}.

Record OutputAddresses := mkOutputAddresses {
  OutputAddresses_OutputID : string;
  OutputAddresses_Address : string;
  OutputAddresses_RedeemingSignature : option string;
  OutputAddresses_CreatedAt : Z;
  OutputAddresses_UpdatedAt : Z;
}.

Record TransactionsEpoch := mkTransactionsEpoch {
  TransactionsEpoch_ID : string;
  TransactionsEpoch_Epoch : Z;
  TransactionsEpoch_VertexID : string;
  TransactionsEpoch_CreatedAt : Z;
}.

Record CvmBlocks := mkCvmBlocks {
  CvmBlocks_Block : string;
  CvmBlocks_CreatedAt : Z;
}.

Record CvmAddresses := mkCvmAddresses {
  CvmAddresses_ID : string;
  CvmAddresses_Type : Z;
  CvmAddresses_Idx : Z;
  CvmAddresses_TransactionID : string;
  CvmAddresses_Address : string;
  CvmAddresses_AssetID : string;
  CvmAddresses_Amount : Z;
  CvmAddresses_Nonce : Z;
  CvmAddresses_CreatedAt : Z;
}.

Record CvmTransactions := mkCvmTransactions {
  CvmTransactions_ID : string;
  CvmTransactions_TransactionID : string;
  CvmTransactions_Type : Z;
  CvmTransactions_BlockchainID : string;
  CvmTransactions_Block : string;
  CvmTransactions_CreatedAt : Z;
  CvmTransactions_Serialization : option string;
  CvmTransactions_TxTime : Z;
  CvmTransactions_Nonce : Z;
  CvmTransactions_Hash : string;
  CvmTransactions_ParentHash : string;
}.

Record CvmTransactionsTxdata := mkCvmTransactionsTxdata {
  CvmTransactionsTxdata_Hash : string;
  CvmTransactionsTxdata_Block : string;
  CvmTransactionsTxdata_Idx : Z;
  CvmTransactionsTxdata_Rcpt : string;
  CvmTransactionsTxdata_Nonce : Z;
  CvmTransactionsTxdata_Serialization : option string;
  CvmTransactionsTxdata_CreatedAt : Z;
}.

Record PvmBlocks := mkPvmBlocks {
  PvmBlocks_ID : string;
  PvmBlocks_ChainID : string;
  PvmBlocks_Type : Z;
  PvmBlocks_ParentID : string;
  PvmBlocks_Serialization : option string;
  PvmBlocks_CreatedAt : Z;
  PvmBlocks_Height : Z;
}.

Record Rewards := mkRewards {
  Rewards_ID : string;
  Rewards_BlockID : string;
  Rewards_Txid : string;
  Rewards_Shouldprefercommit : bool;
  Rewards_CreatedAt : Z;
  Rewards_Processed : Z;
}.

Record TransactionsValidator := mkTransactionsValidator {
  TransactionsValidator_ID : string;
  TransactionsValidator_NodeID : string;
  TransactionsValidator_Start : Z;
  TransactionsValidator_End : Z;
  TransactionsValidator_CreatedAt : Z;
}.

Record TransactionsBlock := mkTransactionsBlock {
  TransactionsBlock_ID : string;
  TransactionsBlock_TxBlockID : string;
  TransactionsBlock_CreatedAt : Z;
}.

Record AddressBech32 := mkAddressBech32 {
  AddressBech32_Address : string;
  AddressBech32_Bech32Address : string;
  AddressBech32_UpdatedAt : Z;
}.

Record OutputAddressAccumulate := mkOutputAddressAccumulate {
  OutputAddressAccumulate_ID : string;
  OutputAddressAccumulate_OutputID : string;
  OutputAddressAccumulate_Address : string;
  OutputAddressAccumulate_Processed : Z;
  OutputAddressAccumulate_OutputProcessed : Z;
  OutputAddressAccumulate_TransactionID : string;
  OutputAddressAccumulate_OutputIndex : Z;
  OutputAddressAccumulate_CreatedAt : Z;
}.

Record OutputTxsAccumulate := mkOutputTxsAccumulate {
  OutputTxsAccumulate_ID : string;
  OutputTxsAccumulate_ChainID : string;
  OutputTxsAccumulate_AssetID : string;
  OutputTxsAccumulate_Address : string;
  OutputTxsAccumulate_TransactionID : string;
  OutputTxsAccumulate_Processed : Z;
  OutputTxsAccumulate_CreatedAt : Z;
}.

Record AccumulateBalancesAmount := mkAccumulateBalancesAmount {
  AccumulateBalancesAmount_ID : string;
  AccumulateBalancesAmount_ChainID : string;
  AccumulateBalancesAmount_AssetID : string;
  AccumulateBalancesAmount_Address : string;
  AccumulateBalancesAmount_TotalAmount : string;
  AccumulateBalancesAmount_UtxoCount : string;
  AccumulateBalancesAmount_UpdatedAt : Z;
}.

Record AccumulateBalancesTransactions := mkAccumulateBalancesTransactions {
  AccumulateBalancesTransactions_ID : string;
  AccumulateBalancesTransactions_ChainID : string;
  AccumulateBalancesTransactions_AssetID : string;
  AccumulateBalancesTransactions_Address : string;
  AccumulateBalancesTransactions_TransactionCount : string;
  AccumulateBalancesTransactions_UpdatedAt : Z;
}.

Record TransactionsRewardsOwnersAddress := mkTransactionsRewardsOwnersAddress {
  TransactionsRewardsOwnersAddress_ID : string;
  TransactionsRewardsOwnersAddress_Address : string;
  TransactionsRewardsOwnersAddress_OutputIndex : Z;
  TransactionsRewardsOwnersAddress_UpdatedAt : Z;
}.

Record TransactionsRewardsOwnersOutputs := mkTransactionsRewardsOwnersOutputs {
  TransactionsRewardsOwnersOutputs_ID : string;
  TransactionsRewardsOwnersOutputs_TransactionID : string;
  TransactionsRewardsOwnersOutputs_OutputIndex : Z;
  TransactionsRewardsOwnersOutputs_CreatedAt : Z;
}.

Record TransactionsRewardsOwners := mkTransactionsRewardsOwners {
  TransactionsRewardsOwners_ID : string;
  TransactionsRewardsOwners_ChainID : string;
  TransactionsRewardsOwners_Threshold : Z;
  TransactionsRewardsOwners_Locktime : Z;
  TransactionsRewardsOwners_CreatedAt : Z;
}.

Record TxPool := mkTxPool {
  TxPool_ID : string;
  TxPool_NetworkID : Z;
  TxPool_ChainID : string;
  TxPool_MsgKey : string;
  TxPool_Serialization : option string;
  TxPool_Processed : Z;
  TxPool_Topic : string;
  TxPool_CreatedAt : Z;
}.

Record KeyValueStore := mkKeyValueStore {
  KeyValueStore_K : string;
  KeyValueStore_V : string;
}.

Record CvmTransactionsTxdataTrace := mkCvmTransactionsTxdataTrace {
  CvmTransactionsTxdataTrace_Hash : string;
  CvmTransactionsTxdataTrace_Idx : Z;
  CvmTransactionsTxdataTrace_ToAddr : string;
  CvmTransactionsTxdataTrace_FromAddr : string;
  CvmTransactionsTxdataTrace_CallType : string;
  CvmTransactionsTxdataTrace_Type : string;
  CvmTransactionsTxdataTrace_Serialization : option string;
  CvmTransactionsTxdataTrace_CreatedAt : Z;
}.

Record NodeIndex := mkNodeIndex {
  NodeIndex_Instance : string;
  NodeIndex_Topic : string;
  NodeIndex_Idx : Z;
}.

Record CvmLogs := mkCvmLogs {
  CvmLogs_ID : string;
  CvmLogs_BlockHash : string;
  CvmLogs_TxHash : string;
  CvmLogs_LogIndex : Z;
  CvmLogs_FirstTopic : string;
  CvmLogs_Block : string;
  CvmLogs_Removed : bool;
  CvmLogs_CreatedAt : Z;
  CvmLogs_Serialization : option string;
}.

Record PvmProposer := mkPvmProposer {
  PvmProposer_ID : string;
  PvmProposer_ParentID : string;
  PvmProposer_BlkID : string;
  PvmProposer_ProposerBlkID : string;
  PvmProposer_CoreChainHeight : Z;
  PvmProposer_Proposer : string;
  PvmProposer_TimeStamp : Z;
  PvmProposer_CreatedAt : Z;
}.

(** * Column names

    dbr fills the fields of a struct from the columns of the same name, after
    [NameMapping] (third-party: camel case to snake case). *)
Class Dbr := { NameMapping : string → string }.

Definition camel_names : list (string * string) :=
  [("Address", "address");
   ("Alias", "alias");
   ("Amount", "amount");
   ("AssetID", "asset_id");
   ("Bech32Address", "bech32_address");
   ("BlkID", "blk_id");
   ("Block", "block");
   ("BlockHash", "block_hash");
   ("BlockID", "block_id");
   ("BlockchainID", "blockchain_id");
   ("CallType", "call_type");
   ("CanonicalSerialization", "canonical_serialization");
   ("ChainID", "chain_id");
   ("CoreChainHeight", "core_chain_height");
   ("CreatedAt", "created_at");
   ("CurrentSupply", "current_supply");
   ("Denomination", "denomination");
   ("End", "end");
   ("Epoch", "epoch");
   ("FirstTopic", "first_topic");
   ("FromAddr", "from_addr");
   ("Frozen", "frozen");
   ("Genesis", "genesis");
   ("Genesisutxo", "genesisutxo");
   ("GroupID", "group_id");
   ("Hash", "hash");
   ("Height", "height");
   ("ID", "id");
   ("Idx", "idx");
   ("Instance", "instance");
   ("Intx", "intx");
   ("K", "k");
   ("Locktime", "locktime");
   ("LogIndex", "log_index");
   ("Memo", "memo");
   ("MsgKey", "msg_key");
   ("Name", "name");
   ("NetworkID", "network_id");
   ("NodeID", "node_id");
   ("Nonce", "nonce");
   ("OutputID", "output_id");
   ("OutputIndex", "output_index");
   ("OutputProcessed", "output_processed");
   ("OutputType", "output_type");
   ("ParentHash", "parent_hash");
   ("ParentID", "parent_id");
   ("Payload", "payload");
   ("Processed", "processed");
   ("Proposer", "proposer");
   ("ProposerBlkID", "proposer_blk_id");
   ("PublicKey", "public_key");
   ("Rcpt", "rcpt");
   ("RedeemedAt", "redeemed_at");
   ("RedeemingSignature", "redeeming_signature");
   ("RedeemingTransactionID", "redeeming_transaction_id");
   ("Removed", "removed");
   ("Serialization", "serialization");
   ("Shouldprefercommit", "shouldprefercommit");
   ("Stake", "stake");
   ("StakeLocktime", "stake_locktime");
   ("Stakeableout", "stakeableout");
   ("Start", "start");
   ("Symbol", "symbol");
   ("Threshold", "threshold");
   ("TimeStamp", "time_stamp");
   ("ToAddr", "to_addr");
   ("Topic", "topic");
   ("TotalAmount", "total_amount");
   ("TransactionCount", "transaction_count");
   ("TransactionID", "transaction_id");
   ("TxBlockID", "tx_block_id");
   ("TxHash", "tx_hash");
   ("TxTime", "tx_time");
   ("Txfee", "txfee");
   ("Txid", "txid");
   ("Type", "type");
   ("UpdatedAt", "updated_at");
   ("UtxoCount", "utxo_count");
   ("V", "v");
   ("VertexID", "vertex_id")].

Definition camel_name (f : string) : option string :=
  snd <$> List.find (λ p, String.eqb p.1 f) camel_names.

Class DbrOk `{!Dbr} : Prop := {
  NameMapping_ok f c : camel_name f = Some c → NameMapping f = c;
}.

Module ToyDbr.
#[export] Instance dbr : Dbr := {
  NameMapping f := default f (camel_name f);
}.
#[export] Instance dbr_ok : DbrOk.
Proof. split. intros f c H. unfold NameMapping, dbr. rewrite H. reflexivity. Qed.
End ToyDbr.

(** * Loading a row into a struct *)
Section load.
Context `{!Dbr}.

Definition load_Transactions (r : row) : Transactions := {|
  Transactions_ID := as_str (r !! NameMapping "ID");
  Transactions_ChainID := as_str (r !! NameMapping "ChainID");
  Transactions_Type := as_str (r !! NameMapping "Type");
  Transactions_Memo := as_bytes (r !! NameMapping "Memo");
  Transactions_CanonicalSerialization := as_bytes (r !! NameMapping "CanonicalSerialization");
  Transactions_Txfee := as_num (r !! NameMapping "Txfee");
  Transactions_NetworkID := as_num (r !! NameMapping "NetworkID");
  Transactions_Genesis := as_bool (r !! NameMapping "Genesis");
  Transactions_CreatedAt := as_time (r !! NameMapping "CreatedAt");
|}.

Definition load_OutputsRedeeming (r : row) : OutputsRedeeming := {|
  OutputsRedeeming_ID := as_str (r !! NameMapping "ID");
  OutputsRedeeming_RedeemedAt := as_time (r !! NameMapping "RedeemedAt");
  OutputsRedeeming_RedeemingTransactionID := as_str (r !! NameMapping "RedeemingTransactionID");
  OutputsRedeeming_Amount := as_num (r !! NameMapping "Amount");
  OutputsRedeeming_OutputIndex := as_num (r !! NameMapping "OutputIndex");
  OutputsRedeeming_Intx := as_str (r !! NameMapping "Intx");
  OutputsRedeeming_AssetID := as_str (r !! NameMapping "AssetID");
  OutputsRedeeming_ChainID := as_str (r !! NameMapping "ChainID");
  OutputsRedeeming_CreatedAt := as_time (r !! NameMapping "CreatedAt");
|}.

Definition load_Outputs (r : row) : Outputs := {|
  Outputs_ID := as_str (r !! NameMapping "ID");
  Outputs_ChainID := as_str (r !! NameMapping "ChainID");
  Outputs_TransactionID := as_str (r !! NameMapping "TransactionID");
  Outputs_OutputIndex := as_num (r !! NameMapping "OutputIndex");
  Outputs_OutputType := as_num (r !! NameMapping "OutputType");
  Outputs_AssetID := as_str (r !! NameMapping "AssetID");
  Outputs_Amount := as_num (r !! NameMapping "Amount");
  Outputs_Locktime := as_num (r !! NameMapping "Locktime");
  Outputs_Threshold := as_num (r !! NameMapping "Threshold");
  Outputs_GroupID := as_num (r !! NameMapping "GroupID");
  Outputs_Payload := as_bytes (r !! NameMapping "Payload");
  Outputs_StakeLocktime := as_num (r !! NameMapping "StakeLocktime");
  Outputs_Stake := as_bool (r !! NameMapping "Stake");
  Outputs_Frozen := as_bool (r !! NameMapping "Frozen");
  Outputs_Stakeableout := as_bool (r !! NameMapping "Stakeableout");
  Outputs_Genesisutxo := as_bool (r !! NameMapping "Genesisutxo");
  Outputs_CreatedAt := as_time (r !! NameMapping "CreatedAt");
|}.

Definition load_Assets (r : row) : Assets := {|
  Assets_ID := as_str (r !! NameMapping "ID");
  Assets_ChainID := as_str (r !! NameMapping "ChainID");
  Assets_Name := as_str (r !! NameMapping "Name");
  Assets_Symbol := as_str (r !! NameMapping "Symbol");
  Assets_Denomination := as_num (r !! NameMapping "Denomination");
  Assets_Alias := as_str (r !! NameMapping "Alias");
  Assets_CurrentSupply := as_num (r !! NameMapping "CurrentSupply");
  Assets_CreatedAt := as_time (r !! NameMapping "CreatedAt");
|}.

Definition load_Addresses (r : row) : Addresses := {|
  Addresses_Address := as_str (r !! NameMapping "Address");
  Addresses_PublicKey := as_bytes (r !! NameMapping "PublicKey");
  Addresses_CreatedAt := as_time (r !! NameMapping "CreatedAt");
  Addresses_UpdatedAt := as_time (r !! NameMapping "UpdatedAt");
|}.

Definition load_AddressChain (r : row) : AddressChain := {|
  AddressChain_Address := as_str (r !! NameMapping "Address");
  AddressChain_ChainID := as_str (r !! NameMapping "ChainID");
  AddressChain_CreatedAt := as_time (r !! NameMapping "CreatedAt");
  AddressChain_UpdatedAt := as_time (r !! NameMapping "UpdatedAt");
|}.

Definition load_OutputAddresses (r : row) : OutputAddresses := {|
  OutputAddresses_OutputID := as_str (r !! NameMapping "OutputID");
  OutputAddresses_Address := as_str (r !! NameMapping "Address");
  OutputAddresses_RedeemingSignature := as_bytes (r !! NameMapping "RedeemingSignature");
  OutputAddresses_CreatedAt := as_time (r !! NameMapping "CreatedAt");
  OutputAddresses_UpdatedAt := as_time (r !! NameMapping "UpdatedAt");
|}.

Definition load_TransactionsEpoch (r : row) : TransactionsEpoch := {|
  TransactionsEpoch_ID := as_str (r !! NameMapping "ID");
  TransactionsEpoch_Epoch := as_num (r !! NameMapping "Epoch");
  TransactionsEpoch_VertexID := as_str (r !! NameMapping "VertexID");
  TransactionsEpoch_CreatedAt := as_time (r !! NameMapping "CreatedAt");
|}.

Definition load_CvmBlocks (r : row) : CvmBlocks := {|
  CvmBlocks_Block := as_str (r !! NameMapping "Block");
  CvmBlocks_CreatedAt := as_time (r !! NameMapping "CreatedAt");
|}.

Definition load_CvmAddresses (r : row) : CvmAddresses := {|
  CvmAddresses_ID := as_str (r !! NameMapping "ID");
  CvmAddresses_Type := as_num (r !! NameMapping "Type");
  CvmAddresses_Idx := as_num (r !! NameMapping "Idx");
  CvmAddresses_TransactionID := as_str (r !! NameMapping "TransactionID");
  CvmAddresses_Address := as_str (r !! NameMapping "Address");
  CvmAddresses_AssetID := as_str (r !! NameMapping "AssetID");
  CvmAddresses_Amount := as_num (r !! NameMapping "Amount");
  CvmAddresses_Nonce := as_num (r !! NameMapping "Nonce");
  CvmAddresses_CreatedAt := as_time (r !! NameMapping "CreatedAt");
|}.

Definition load_CvmTransactions (r : row) : CvmTransactions := {|
  CvmTransactions_ID := as_str (r !! NameMapping "ID");
  CvmTransactions_TransactionID := as_str (r !! NameMapping "TransactionID");
  CvmTransactions_Type := as_num (r !! NameMapping "Type");
  CvmTransactions_BlockchainID := as_str (r !! NameMapping "BlockchainID");
  CvmTransactions_Block := as_str (r !! NameMapping "Block");
  CvmTransactions_CreatedAt := as_time (r !! NameMapping "CreatedAt");
  CvmTransactions_Serialization := as_bytes (r !! NameMapping "Serialization");
  CvmTransactions_TxTime := as_time (r !! NameMapping "TxTime");
  CvmTransactions_Nonce := as_num (r !! NameMapping "Nonce");
  CvmTransactions_Hash := as_str (r !! NameMapping "Hash");
  CvmTransactions_ParentHash := as_str (r !! NameMapping "ParentHash");
|}.

Definition load_CvmTransactionsTxdata (r : row) : CvmTransactionsTxdata := {|
  CvmTransactionsTxdata_Hash := as_str (r !! NameMapping "Hash");
  CvmTransactionsTxdata_Block := as_str (r !! NameMapping "Block");
  CvmTransactionsTxdata_Idx := as_num (r !! NameMapping "Idx");
  CvmTransactionsTxdata_Rcpt := as_str (r !! NameMapping "Rcpt");
  CvmTransactionsTxdata_Nonce := as_num (r !! NameMapping "Nonce");
  CvmTransactionsTxdata_Serialization := as_bytes (r !! NameMapping "Serialization");
  CvmTransactionsTxdata_CreatedAt := as_time (r !! NameMapping "CreatedAt");
|}.

Definition load_PvmBlocks (r : row) : PvmBlocks := {|
  PvmBlocks_ID := as_str (r !! NameMapping "ID");
  PvmBlocks_ChainID := as_str (r !! NameMapping "ChainID");
  PvmBlocks_Type := as_num (r !! NameMapping "Type");
  PvmBlocks_ParentID := as_str (r !! NameMapping "ParentID");
  PvmBlocks_Serialization := as_bytes (r !! NameMapping "Serialization");
  PvmBlocks_CreatedAt := as_time (r !! NameMapping "CreatedAt");
  PvmBlocks_Height := as_num (r !! NameMapping "Height");
|}.

Definition load_Rewards (r : row) : Rewards := {|
  Rewards_ID := as_str (r !! NameMapping "ID");
  Rewards_BlockID := as_str (r !! NameMapping "BlockID");
  Rewards_Txid := as_str (r !! NameMapping "Txid");
  Rewards_Shouldprefercommit := as_bool (r !! NameMapping "Shouldprefercommit");
  Rewards_CreatedAt := as_time (r !! NameMapping "CreatedAt");
  Rewards_Processed := as_num (r !! NameMapping "Processed");
|}.

Definition load_TransactionsValidator (r : row) : TransactionsValidator := {|
  TransactionsValidator_ID := as_str (r !! NameMapping "ID");
  TransactionsValidator_NodeID := as_str (r !! NameMapping "NodeID");
  TransactionsValidator_Start := as_num (r !! NameMapping "Start");
  TransactionsValidator_End := as_num (r !! NameMapping "End");
  TransactionsValidator_CreatedAt := as_time (r !! NameMapping "CreatedAt");
|}.

Definition load_TransactionsBlock (r : row) : TransactionsBlock := {|
  TransactionsBlock_ID := as_str (r !! NameMapping "ID");
  TransactionsBlock_TxBlockID := as_str (r !! NameMapping "TxBlockID");
  TransactionsBlock_CreatedAt := as_time (r !! NameMapping "CreatedAt");
|}.

Definition load_AddressBech32 (r : row) : AddressBech32 := {|
  AddressBech32_Address := as_str (r !! NameMapping "Address");
  AddressBech32_Bech32Address := as_str (r !! NameMapping "Bech32Address");
  AddressBech32_UpdatedAt := as_time (r !! NameMapping "UpdatedAt");
|}.

Definition load_OutputAddressAccumulate (r : row) : OutputAddressAccumulate := {|
  OutputAddressAccumulate_ID := as_str (r !! NameMapping "ID");
  OutputAddressAccumulate_OutputID := as_str (r !! NameMapping "OutputID");
  OutputAddressAccumulate_Address := as_str (r !! NameMapping "Address");
  OutputAddressAccumulate_Processed := as_num (r !! NameMapping "Processed");
  OutputAddressAccumulate_OutputProcessed := as_num (r !! NameMapping "OutputProcessed");
  OutputAddressAccumulate_TransactionID := as_str (r !! NameMapping "TransactionID");
  OutputAddressAccumulate_OutputIndex := as_num (r !! NameMapping "OutputIndex");
  OutputAddressAccumulate_CreatedAt := as_time (r !! NameMapping "CreatedAt");
|}.

Definition load_OutputTxsAccumulate (r : row) : OutputTxsAccumulate := {|
  OutputTxsAccumulate_ID := as_str (r !! NameMapping "ID");
  OutputTxsAccumulate_ChainID := as_str (r !! NameMapping "ChainID");
  OutputTxsAccumulate_AssetID := as_str (r !! NameMapping "AssetID");
  OutputTxsAccumulate_Address := as_str (r !! NameMapping "Address");
  OutputTxsAccumulate_TransactionID := as_str (r !! NameMapping "TransactionID");
  OutputTxsAccumulate_Processed := as_num (r !! NameMapping "Processed");
  OutputTxsAccumulate_CreatedAt := as_time (r !! NameMapping "CreatedAt");
|}.

Definition load_AccumulateBalancesAmount (r : row) : AccumulateBalancesAmount := {|
  AccumulateBalancesAmount_ID := as_str (r !! NameMapping "ID");
  AccumulateBalancesAmount_ChainID := as_str (r !! NameMapping "ChainID");
  AccumulateBalancesAmount_AssetID := as_str (r !! NameMapping "AssetID");
  AccumulateBalancesAmount_Address := as_str (r !! NameMapping "Address");
  AccumulateBalancesAmount_TotalAmount := as_str (r !! NameMapping "TotalAmount");
  AccumulateBalancesAmount_UtxoCount := as_str (r !! NameMapping "UtxoCount");
  AccumulateBalancesAmount_UpdatedAt := as_time (r !! NameMapping "UpdatedAt");
|}.

Definition load_AccumulateBalancesTransactions (r : row) : AccumulateBalancesTransactions := {|
  AccumulateBalancesTransactions_ID := as_str (r !! NameMapping "ID");
  AccumulateBalancesTransactions_ChainID := as_str (r !! NameMapping "ChainID");
  AccumulateBalancesTransactions_AssetID := as_str (r !! NameMapping "AssetID");
  AccumulateBalancesTransactions_Address := as_str (r !! NameMapping "Address");
  AccumulateBalancesTransactions_TransactionCount := as_str (r !! NameMapping "TransactionCount");
  AccumulateBalancesTransactions_UpdatedAt := as_time (r !! NameMapping "UpdatedAt");
|}.

Definition load_TransactionsRewardsOwnersAddress (r : row) : TransactionsRewardsOwnersAddress := {|
  TransactionsRewardsOwnersAddress_ID := as_str (r !! NameMapping "ID");
  TransactionsRewardsOwnersAddress_Address := as_str (r !! NameMapping "Address");
  TransactionsRewardsOwnersAddress_OutputIndex := as_num (r !! NameMapping "OutputIndex");
  TransactionsRewardsOwnersAddress_UpdatedAt := as_time (r !! NameMapping "UpdatedAt");
|}.

Definition load_TransactionsRewardsOwnersOutputs (r : row) : TransactionsRewardsOwnersOutputs := {|
  TransactionsRewardsOwnersOutputs_ID := as_str (r !! NameMapping "ID");
  TransactionsRewardsOwnersOutputs_TransactionID := as_str (r !! NameMapping "TransactionID");
  TransactionsRewardsOwnersOutputs_OutputIndex := as_num (r !! NameMapping "OutputIndex");
  TransactionsRewardsOwnersOutputs_CreatedAt := as_time (r !! NameMapping "CreatedAt");
|}.

Definition load_TransactionsRewardsOwners (r : row) : TransactionsRewardsOwners := {|
  TransactionsRewardsOwners_ID := as_str (r !! NameMapping "ID");
  TransactionsRewardsOwners_ChainID := as_str (r !! NameMapping "ChainID");
  TransactionsRewardsOwners_Threshold := as_num (r !! NameMapping "Threshold");
  TransactionsRewardsOwners_Locktime := as_num (r !! NameMapping "Locktime");
  TransactionsRewardsOwners_CreatedAt := as_time (r !! NameMapping "CreatedAt");
|}.

Definition load_TxPool (r : row) : TxPool := {|
  TxPool_ID := as_str (r !! NameMapping "ID");
  TxPool_NetworkID := as_num (r !! NameMapping "NetworkID");
  TxPool_ChainID := as_str (r !! NameMapping "ChainID");
  TxPool_MsgKey := as_str (r !! NameMapping "MsgKey");
  TxPool_Serialization := as_bytes (r !! NameMapping "Serialization");
  TxPool_Processed := as_num (r !! NameMapping "Processed");
  TxPool_Topic := as_str (r !! NameMapping "Topic");
  TxPool_CreatedAt := as_time (r !! NameMapping "CreatedAt");
|}.

Definition load_KeyValueStore (r : row) : KeyValueStore := {|
  KeyValueStore_K := as_str (r !! NameMapping "K");
  KeyValueStore_V := as_str (r !! NameMapping "V");
|}.

Definition load_CvmTransactionsTxdataTrace (r : row) : CvmTransactionsTxdataTrace := {|
  CvmTransactionsTxdataTrace_Hash := as_str (r !! NameMapping "Hash");
  CvmTransactionsTxdataTrace_Idx := as_num (r !! NameMapping "Idx");
  CvmTransactionsTxdataTrace_ToAddr := as_str (r !! NameMapping "ToAddr");
  CvmTransactionsTxdataTrace_FromAddr := as_str (r !! NameMapping "FromAddr");
  CvmTransactionsTxdataTrace_CallType := as_str (r !! NameMapping "CallType");
  CvmTransactionsTxdataTrace_Type := as_str (r !! NameMapping "Type");
  CvmTransactionsTxdataTrace_Serialization := as_bytes (r !! NameMapping "Serialization");
  CvmTransactionsTxdataTrace_CreatedAt := as_time (r !! NameMapping "CreatedAt");
|}.

Definition load_NodeIndex (r : row) : NodeIndex := {|
  NodeIndex_Instance := as_str (r !! NameMapping "Instance");
  NodeIndex_Topic := as_str (r !! NameMapping "Topic");
  NodeIndex_Idx := as_num (r !! NameMapping "Idx");
|}.

Definition load_CvmLogs (r : row) : CvmLogs := {|
  CvmLogs_ID := as_str (r !! NameMapping "ID");
  CvmLogs_BlockHash := as_str (r !! NameMapping "BlockHash");
  CvmLogs_TxHash := as_str (r !! NameMapping "TxHash");
  CvmLogs_LogIndex := as_num (r !! NameMapping "LogIndex");
  CvmLogs_FirstTopic := as_str (r !! NameMapping "FirstTopic");
  CvmLogs_Block := as_str (r !! NameMapping "Block");
  CvmLogs_Removed := as_bool (r !! NameMapping "Removed");
  CvmLogs_CreatedAt := as_time (r !! NameMapping "CreatedAt");
  CvmLogs_Serialization := as_bytes (r !! NameMapping "Serialization");
|}.

Definition load_PvmProposer (r : row) : PvmProposer := {|
  PvmProposer_ID := as_str (r !! NameMapping "ID");
  PvmProposer_ParentID := as_str (r !! NameMapping "ParentID");
  PvmProposer_BlkID := as_str (r !! NameMapping "BlkID");
  PvmProposer_ProposerBlkID := as_str (r !! NameMapping "ProposerBlkID");
  PvmProposer_CoreChainHeight := as_num (r !! NameMapping "CoreChainHeight");
  PvmProposer_Proposer := as_str (r !! NameMapping "Proposer");
  PvmProposer_TimeStamp := as_time (r !! NameMapping "TimeStamp");
  PvmProposer_CreatedAt := as_time (r !! NameMapping "CreatedAt");
|}.

End load.

(** * Statements of the persistence layer *)

Definition Transactions_pairs (v : Transactions) : list (string * value) :=
  [("id", VStr (Transactions_ID v));
   ("chain_id", VStr (Transactions_ChainID v));
   ("type", VStr (Transactions_Type v));
   ("memo", vbytes (Transactions_Memo v));
   ("created_at", vtime (Transactions_CreatedAt v));
   ("canonical_serialization", vbytes (Transactions_CanonicalSerialization v));
   ("txfee", VNum (Transactions_Txfee v));
   ("genesis", VBool (Transactions_Genesis v));
   ("network_id", VNum (Transactions_NetworkID v))].

Definition Transactions_columns : list string :=
  ["id";
   "chain_id";
   "type";
   "memo";
   "created_at";
   "canonical_serialization";
   "txfee";
   "genesis";
   "network_id"].

Definition Transactions_where (v : Transactions) : list cond :=
  [CEq "id" (VStr (Transactions_ID v))].

Definition Transactions_sets (v : Transactions) : list (string * setexpr) :=
  [("chain_id", SetVal (VStr (Transactions_ChainID v)));
   ("type", SetVal (VStr (Transactions_Type v)));
   ("memo", SetVal (vbytes (Transactions_Memo v)));
   ("canonical_serialization", SetVal (vbytes (Transactions_CanonicalSerialization v)));
   ("txfee", SetVal (VNum (Transactions_Txfee v)));
   ("genesis", SetVal (VBool (Transactions_Genesis v)));
   ("network_id", SetVal (VNum (Transactions_NetworkID v)));
   ("created_at", SetVal (vtime (Transactions_CreatedAt v)))].

Definition OutputsRedeeming_pairs (v : OutputsRedeeming) : list (string * value) :=
  [("id", VStr (OutputsRedeeming_ID v));
   ("redeemed_at", vtime (OutputsRedeeming_RedeemedAt v));
   ("redeeming_transaction_id", VStr (OutputsRedeeming_RedeemingTransactionID v));
   ("amount", VNum (OutputsRedeeming_Amount v));
   ("output_index", VNum (OutputsRedeeming_OutputIndex v));
   ("intx", VStr (OutputsRedeeming_Intx v));
   ("asset_id", VStr (OutputsRedeeming_AssetID v));
   ("created_at", vtime (OutputsRedeeming_CreatedAt v));
   ("chain_id", VStr (OutputsRedeeming_ChainID v))].

Definition OutputsRedeeming_columns : list string :=
  ["id";
   "redeemed_at";
   "redeeming_transaction_id";
   "amount";
   "output_index";
   "intx";
   "asset_id";
   "chain_id";
   "created_at"].

Definition OutputsRedeeming_where (v : OutputsRedeeming) : list cond :=
  [CEq "id" (VStr (OutputsRedeeming_ID v))].

Definition OutputsRedeeming_sets (v : OutputsRedeeming) : list (string * setexpr) :=
  [("redeeming_transaction_id", SetVal (VStr (OutputsRedeeming_RedeemingTransactionID v)));
   ("amount", SetVal (VNum (OutputsRedeeming_Amount v)));
   ("output_index", SetVal (VNum (OutputsRedeeming_OutputIndex v)));
   ("intx", SetVal (VStr (OutputsRedeeming_Intx v)));
   ("asset_id", SetVal (VStr (OutputsRedeeming_AssetID v)));
   ("chain_id", SetVal (VStr (OutputsRedeeming_ChainID v)));
   ("created_at", SetVal (vtime (OutputsRedeeming_CreatedAt v)))].

Definition Outputs_pairs (v : Outputs) : list (string * value) :=
  [("id", VStr (Outputs_ID v));
   ("chain_id", VStr (Outputs_ChainID v));
   ("transaction_id", VStr (Outputs_TransactionID v));
   ("output_index", VNum (Outputs_OutputIndex v));
   ("asset_id", VStr (Outputs_AssetID v));
   ("output_type", VNum (Outputs_OutputType v));
   ("amount", VNum (Outputs_Amount v));
   ("locktime", VNum (Outputs_Locktime v));
   ("threshold", VNum (Outputs_Threshold v));
   ("group_id", VNum (Outputs_GroupID v));
   ("payload", vbytes (Outputs_Payload v));
   ("stake_locktime", VNum (Outputs_StakeLocktime v));
   ("stake", VBool (Outputs_Stake v));
   ("frozen", VBool (Outputs_Frozen v));
   ("stakeableout", VBool (Outputs_Stakeableout v));
   ("genesisutxo", VBool (Outputs_Genesisutxo v));
   ("created_at", vtime (Outputs_CreatedAt v))].

Definition Outputs_columns : list string :=
  ["id";
   "chain_id";
   "transaction_id";
   "output_index";
   "asset_id";
   "output_type";
   "amount";
   "locktime";
   "threshold";
   "group_id";
   "payload";
   "stake_locktime";
   "stake";
   "frozen";
   "stakeableout";
   "genesisutxo";
   "created_at"].

Definition Outputs_where (v : Outputs) : list cond :=
  [CEq "id" (VStr (Outputs_ID v))].

Definition Outputs_sets (v : Outputs) : list (string * setexpr) :=
  [("chain_id", SetVal (VStr (Outputs_ChainID v)));
   ("transaction_id", SetVal (VStr (Outputs_TransactionID v)));
   ("output_index", SetVal (VNum (Outputs_OutputIndex v)));
   ("asset_id", SetVal (VStr (Outputs_AssetID v)));
   ("output_type", SetVal (VNum (Outputs_OutputType v)));
   ("amount", SetVal (VNum (Outputs_Amount v)));
   ("locktime", SetVal (VNum (Outputs_Locktime v)));
   ("threshold", SetVal (VNum (Outputs_Threshold v)));
   ("group_id", SetVal (VNum (Outputs_GroupID v)));
   ("payload", SetVal (vbytes (Outputs_Payload v)));
   ("stake_locktime", SetVal (VNum (Outputs_StakeLocktime v)));
   ("stake", SetVal (VBool (Outputs_Stake v)));
   ("frozen", SetVal (VBool (Outputs_Frozen v)));
   ("stakeableout", SetVal (VBool (Outputs_Stakeableout v)));
   ("genesisutxo", SetVal (VBool (Outputs_Genesisutxo v)));
   ("created_at", SetVal (vtime (Outputs_CreatedAt v)))].

Definition Assets_pairs (v : Assets) : list (string * value) :=
  [("id", VStr (Assets_ID v));
   (to_lower "chain_Id", VStr (Assets_ChainID v));
   ("name", VStr (Assets_Name v));
   ("symbol", VStr (Assets_Symbol v));
   ("denomination", VNum (Assets_Denomination v));
   ("alias", VStr (Assets_Alias v));
   ("current_supply", VNum (Assets_CurrentSupply v));
   ("created_at", vtime (Assets_CreatedAt v))].

Definition Assets_columns : list string :=
  ["id";
   "chain_id";
   "name";
   "symbol";
   "denomination";
   "alias";
   "current_supply";
   "created_at"].

Definition Assets_where (v : Assets) : list cond :=
  [CEq "id" (VStr (Assets_ID v))].

Definition Assets_sets (v : Assets) : list (string * setexpr) :=
  [(to_lower "chain_Id", SetVal (VStr (Assets_ChainID v)));
   ("name", SetVal (VStr (Assets_Name v)));
   ("symbol", SetVal (VStr (Assets_Symbol v)));
   ("denomination", SetVal (VNum (Assets_Denomination v)));
   ("alias", SetVal (VStr (Assets_Alias v)));
   ("current_supply", SetVal (VNum (Assets_CurrentSupply v)));
   ("created_at", SetVal (vtime (Assets_CreatedAt v)))].

Definition Addresses_pairs (v : Addresses) : list (string * value) :=
  [("address", VStr (Addresses_Address v));
   ("public_key", vbytes (Addresses_PublicKey v));
   ("created_at", vtime (Addresses_CreatedAt v));
   ("updated_at", vtime (Addresses_UpdatedAt v))].

Definition Addresses_columns : list string :=
  ["address";
   "public_key";
   "created_at";
   "updated_at"].

Definition Addresses_where (v : Addresses) : list cond :=
  [CEq "address" (VStr (Addresses_Address v))].

Definition Addresses_sets (v : Addresses) : list (string * setexpr) :=
  [("public_key", SetVal (vbytes (Addresses_PublicKey v)));
   ("updated_at", SetVal (vtime (Addresses_UpdatedAt v)));
   ("created_at", SetVal (vtime (Addresses_CreatedAt v)))].

Definition AddressChain_pairs (v : AddressChain) : list (string * value) :=
  [("address", VStr (AddressChain_Address v));
   ("chain_id", VStr (AddressChain_ChainID v));
   ("created_at", vtime (AddressChain_CreatedAt v));
   ("updated_at", vtime (AddressChain_UpdatedAt v))].

Definition AddressChain_columns : list string :=
  ["address";
   "chain_id";
   "created_at";
   "updated_at"].

Definition AddressChain_where (v : AddressChain) : list cond :=
  [CEq "address" (VStr (AddressChain_Address v));
   CEq "chain_id" (VStr (AddressChain_ChainID v))].

Definition AddressChain_sets (v : AddressChain) : list (string * setexpr) :=
  [("updated_at", SetVal (vtime (AddressChain_UpdatedAt v)));
   ("created_at", SetVal (vtime (AddressChain_CreatedAt v)))].

Definition OutputAddresses_pairs (v : OutputAddresses) : list (string * value) :=
  [("output_id", VStr (OutputAddresses_OutputID v));
   ("address", VStr (OutputAddresses_Address v));
   ("created_at", vtime (OutputAddresses_CreatedAt v));
   ("updated_at", vtime (OutputAddresses_UpdatedAt v))] ++
  match OutputAddresses_RedeemingSignature v with
  | Some s => [("redeeming_signature", VBytes s)]
  | None => []
  end.

Definition OutputAddresses_columns : list string :=
  ["output_id";
   "address";
   "redeeming_signature";
   "created_at";
   "updated_at"].

Definition OutputAddresses_where (v : OutputAddresses) : list cond :=
  [CEq "output_id" (VStr (OutputAddresses_OutputID v));
   CEq "address" (VStr (OutputAddresses_Address v))].

Definition OutputAddresses_sets (v : OutputAddresses) : list (string * setexpr) :=
  match OutputAddresses_RedeemingSignature v with
  | Some s => [("redeeming_signature", SetVal (VBytes s))]
  | None => []
  end ++
  [("updated_at", SetVal (vtime (OutputAddresses_UpdatedAt v)));
   ("created_at", SetVal (vtime (OutputAddresses_CreatedAt v)))].

Definition TransactionsEpoch_pairs (v : TransactionsEpoch) : list (string * value) :=
  [("id", VStr (TransactionsEpoch_ID v));
   ("epoch", VNum (TransactionsEpoch_Epoch v));
   ("vertex_id", VStr (TransactionsEpoch_VertexID v));
   ("created_at", vtime (TransactionsEpoch_CreatedAt v))].

Definition TransactionsEpoch_columns : list string :=
  ["id";
   "epoch";
   "vertex_id";
   "created_at"].

Definition TransactionsEpoch_where (v : TransactionsEpoch) : list cond :=
  [CEq "id" (VStr (TransactionsEpoch_ID v))].

Definition TransactionsEpoch_sets (v : TransactionsEpoch) : list (string * setexpr) :=
  [("epoch", SetVal (VNum (TransactionsEpoch_Epoch v)));
   ("vertex_id", SetVal (VStr (TransactionsEpoch_VertexID v)));
   ("created_at", SetVal (vtime (TransactionsEpoch_CreatedAt v)))].

Definition CvmBlocks_pairs (v : CvmBlocks) : list (string * value) :=
  [("block", literal (CvmBlocks_Block v));
   ("created_at", vtime (CvmBlocks_CreatedAt v))].

Definition CvmBlocks_columns : list string :=
  ["block";
   "created_at"].

Definition CvmBlocks_where (v : CvmBlocks) : list cond :=
  [CEq "block" (literal (CvmBlocks_Block v))].

Definition CvmAddresses_pairs (v : CvmAddresses) : list (string * value) :=
  [("id", VStr (CvmAddresses_ID v));
   ("type", VNum (CvmAddresses_Type v));
   ("idx", VNum (CvmAddresses_Idx v));
   ("transaction_id", VStr (CvmAddresses_TransactionID v));
   ("address", VStr (CvmAddresses_Address v));
   ("asset_id", VStr (CvmAddresses_AssetID v));
   ("amount", VNum (CvmAddresses_Amount v));
   ("nonce", VNum (CvmAddresses_Nonce v));
   ("created_at", vtime (CvmAddresses_CreatedAt v))].

Definition CvmAddresses_columns : list string :=
  ["id";
   "type";
   "idx";
   "transaction_id";
   "address";
   "asset_id";
   "amount";
   "nonce";
   "created_at"].

Definition CvmAddresses_where (v : CvmAddresses) : list cond :=
  [CEq "id" (VStr (CvmAddresses_ID v))].

Definition CvmAddresses_sets (v : CvmAddresses) : list (string * setexpr) :=
  [("type", SetVal (VNum (CvmAddresses_Type v)));
   ("idx", SetVal (VNum (CvmAddresses_Idx v)));
   ("transaction_id", SetVal (VStr (CvmAddresses_TransactionID v)));
   ("address", SetVal (VStr (CvmAddresses_Address v)));
   ("asset_id", SetVal (VStr (CvmAddresses_AssetID v)));
   ("amount", SetVal (VNum (CvmAddresses_Amount v)));
   ("nonce", SetVal (VNum (CvmAddresses_Nonce v)));
   ("created_at", SetVal (vtime (CvmAddresses_CreatedAt v)))].

Definition CvmTransactions_pairs (v : CvmTransactions) : list (string * value) :=
  [("id", VStr (CvmTransactions_ID v));
   ("transaction_id", VStr (CvmTransactions_TransactionID v));
   ("type", VNum (CvmTransactions_Type v));
   ("blockchain_id", VStr (CvmTransactions_BlockchainID v));
   ("created_at", vtime (CvmTransactions_CreatedAt v));
   ("block", literal (CvmTransactions_Block v));
   ("serialization", vbytes (CvmTransactions_Serialization v));
   ("tx_time", vtime (CvmTransactions_TxTime v));
   ("nonce", VNum (CvmTransactions_Nonce v));
   ("hash", VStr (CvmTransactions_Hash v));
   ("parent_hash", VStr (CvmTransactions_ParentHash v))].

Definition CvmTransactions_columns : list string :=
  ["id";
   "transaction_id";
   "type";
   "blockchain_id";
   "block";
   "created_at";
   "serialization";
   "tx_time";
   "nonce";
   "hash";
   "parent_hash"].

Definition CvmTransactions_where (v : CvmTransactions) : list cond :=
  [CEq "id" (VStr (CvmTransactions_ID v))].

Definition CvmTransactions_sets (v : CvmTransactions) : list (string * setexpr) :=
  [("transaction_id", SetVal (VStr (CvmTransactions_TransactionID v)));
   ("type", SetVal (VNum (CvmTransactions_Type v)));
   ("blockchain_id", SetVal (VStr (CvmTransactions_BlockchainID v)));
   ("block", SetVal (literal (CvmTransactions_Block v)));
   ("serialization", SetVal (vbytes (CvmTransactions_Serialization v)));
   ("tx_time", SetVal (vtime (CvmTransactions_TxTime v)));
   ("nonce", SetVal (VNum (CvmTransactions_Nonce v)));
   ("hash", SetVal (VStr (CvmTransactions_Hash v)));
   ("parent_hash", SetVal (VStr (CvmTransactions_ParentHash v)));
   ("created_at", SetVal (vtime (CvmTransactions_CreatedAt v)))].

Definition CvmTransactionsTxdata_pairs (v : CvmTransactionsTxdata) : list (string * value) :=
  [("hash", VStr (CvmTransactionsTxdata_Hash v));
   ("block", literal (CvmTransactionsTxdata_Block v));
   ("idx", VNum (CvmTransactionsTxdata_Idx v));
   ("rcpt", VStr (CvmTransactionsTxdata_Rcpt v));
   ("nonce", VNum (CvmTransactionsTxdata_Nonce v));
   ("serialization", vbytes (CvmTransactionsTxdata_Serialization v));
   ("created_at", vtime (CvmTransactionsTxdata_CreatedAt v))].

Definition CvmTransactionsTxdata_columns : list string :=
  ["hash";
   "block";
   "idx";
   "rcpt";
   "nonce";
   "serialization";
   "created_at"].

Definition CvmTransactionsTxdata_where (v : CvmTransactionsTxdata) : list cond :=
  [CEq "hash" (VStr (CvmTransactionsTxdata_Hash v))].

Definition CvmTransactionsTxdata_sets (v : CvmTransactionsTxdata) : list (string * setexpr) :=
  [("block", SetVal (literal (CvmTransactionsTxdata_Block v)));
   ("idx", SetVal (VNum (CvmTransactionsTxdata_Idx v)));
   ("rcpt", SetVal (VStr (CvmTransactionsTxdata_Rcpt v)));
   ("nonce", SetVal (VNum (CvmTransactionsTxdata_Nonce v)));
   ("serialization", SetVal (vbytes (CvmTransactionsTxdata_Serialization v)));
   ("created_at", SetVal (vtime (CvmTransactionsTxdata_CreatedAt v)))].

Definition PvmBlocks_pairs (v : PvmBlocks) : list (string * value) :=
  [("id", VStr (PvmBlocks_ID v));
   ("chain_id", VStr (PvmBlocks_ChainID v));
   ("type", VNum (PvmBlocks_Type v));
   ("parent_id", VStr (PvmBlocks_ParentID v));
   ("created_at", vtime (PvmBlocks_CreatedAt v));
   ("serialization", vbytes (PvmBlocks_Serialization v));
   ("height", VNum (PvmBlocks_Height v))].

Definition PvmBlocks_columns : list string :=
  ["id";
   "chain_id";
   "type";
   "parent_id";
   "serialization";
   "created_at";
   "height"].

Definition PvmBlocks_where (v : PvmBlocks) : list cond :=
  [CEq "id" (VStr (PvmBlocks_ID v))].

Definition PvmBlocks_sets (v : PvmBlocks) : list (string * setexpr) :=
  [("chain_id", SetVal (VStr (PvmBlocks_ChainID v)));
   ("type", SetVal (VNum (PvmBlocks_Type v)));
   ("parent_id", SetVal (VStr (PvmBlocks_ParentID v)));
   ("serialization", SetVal (vbytes (PvmBlocks_Serialization v)));
   ("height", SetVal (VNum (PvmBlocks_Height v)));
   ("created_at", SetVal (vtime (PvmBlocks_CreatedAt v)))].

Definition Rewards_pairs (v : Rewards) : list (string * value) :=
  [("id", VStr (Rewards_ID v));
   ("block_id", VStr (Rewards_BlockID v));
   ("txid", VStr (Rewards_Txid v));
   ("shouldprefercommit", VBool (Rewards_Shouldprefercommit v));
   ("created_at", vtime (Rewards_CreatedAt v));
   ("processed", VNum (Rewards_Processed v))].

Definition Rewards_columns : list string :=
  ["id";
   "block_id";
   "txid";
   "shouldprefercommit";
   "created_at";
   "processed"].

Definition Rewards_where (v : Rewards) : list cond :=
  [CEq "id" (VStr (Rewards_ID v))].

Definition Rewards_sets (v : Rewards) : list (string * setexpr) :=
  [("block_id", SetVal (VStr (Rewards_BlockID v)));
   ("txid", SetVal (VStr (Rewards_Txid v)));
   ("shouldprefercommit", SetVal (VBool (Rewards_Shouldprefercommit v)));
   ("created_at", SetVal (vtime (Rewards_CreatedAt v)))].

Definition TransactionsValidator_pairs (v : TransactionsValidator) : list (string * value) :=
  [("id", VStr (TransactionsValidator_ID v));
   ("node_id", VStr (TransactionsValidator_NodeID v));
   ("start", VNum (TransactionsValidator_Start v));
   ("end", VNum (TransactionsValidator_End v));
   ("created_at", vtime (TransactionsValidator_CreatedAt v))].

Definition TransactionsValidator_columns : list string :=
  ["id";
   "node_id";
   "start";
   "end";
   "created_at"].

Definition TransactionsValidator_where (v : TransactionsValidator) : list cond :=
  [CEq "id" (VStr (TransactionsValidator_ID v))].

Definition TransactionsValidator_sets (v : TransactionsValidator) : list (string * setexpr) :=
  [("node_id", SetVal (VStr (TransactionsValidator_NodeID v)));
   ("start", SetVal (VNum (TransactionsValidator_Start v)));
   ("end", SetVal (VNum (TransactionsValidator_End v)));
   ("created_at", SetVal (vtime (TransactionsValidator_CreatedAt v)))].

Definition TransactionsBlock_pairs (v : TransactionsBlock) : list (string * value) :=
  [("id", VStr (TransactionsBlock_ID v));
   ("tx_block_id", VStr (TransactionsBlock_TxBlockID v));
   ("created_at", vtime (TransactionsBlock_CreatedAt v))].

Definition TransactionsBlock_columns : list string :=
  ["id";
   "tx_block_id";
   "created_at"].

Definition TransactionsBlock_where (v : TransactionsBlock) : list cond :=
  [CEq "id" (VStr (TransactionsBlock_ID v))].

Definition TransactionsBlock_sets (v : TransactionsBlock) : list (string * setexpr) :=
  [("tx_block_id", SetVal (VStr (TransactionsBlock_TxBlockID v)));
   ("created_at", SetVal (vtime (TransactionsBlock_CreatedAt v)))].

Definition AddressBech32_pairs (v : AddressBech32) : list (string * value) :=
  [("address", VStr (AddressBech32_Address v));
   ("bech32_address", VStr (AddressBech32_Bech32Address v));
   ("updated_at", vtime (AddressBech32_UpdatedAt v))].

Definition AddressBech32_columns : list string :=
  ["address";
   "bech32_address";
   "updated_at"].

Definition AddressBech32_where (v : AddressBech32) : list cond :=
  [CEq "address" (VStr (AddressBech32_Address v))].

Definition AddressBech32_sets (v : AddressBech32) : list (string * setexpr) :=
  [("bech32_address", SetVal (VStr (AddressBech32_Bech32Address v)));
   ("updated_at", SetVal (vtime (AddressBech32_UpdatedAt v)))].

Definition OutputAddressAccumulateOut_pairs (v : OutputAddressAccumulate) : list (string * value) :=
  [("id", VStr (OutputAddressAccumulate_ID v));
   ("output_id", VStr (OutputAddressAccumulate_OutputID v));
   ("address", VStr (OutputAddressAccumulate_Address v));
   ("transaction_id", VStr (OutputAddressAccumulate_TransactionID v));
   ("output_index", VNum (OutputAddressAccumulate_OutputIndex v));
   ("created_at", vtime (OutputAddressAccumulate_CreatedAt v))].

Definition OutputAddressAccumulateOut_columns : list string :=
  ["id";
   "output_id";
   "address";
   "processed";
   "transaction_id";
   "output_index";
   "created_at"].

Definition OutputAddressAccumulateOut_where (v : OutputAddressAccumulate) : list cond :=
  [CEq "id" (VStr (OutputAddressAccumulate_ID v))].

Definition OutputAddressAccumulateOut_sets (v : OutputAddressAccumulate) : list (string * setexpr) :=
  [("output_id", SetVal (VStr (OutputAddressAccumulate_OutputID v)));
   ("address", SetVal (VStr (OutputAddressAccumulate_Address v)));
   ("transaction_id", SetVal (VStr (OutputAddressAccumulate_TransactionID v)));
   ("output_index", SetVal (VNum (OutputAddressAccumulate_OutputIndex v)));
   ("created_at", SetVal (vtime (OutputAddressAccumulate_CreatedAt v)))].

Definition OutputAddressAccumulateIn_pairs (v : OutputAddressAccumulate) : list (string * value) :=
  [("id", VStr (OutputAddressAccumulate_ID v));
   ("output_id", VStr (OutputAddressAccumulate_OutputID v));
   ("address", VStr (OutputAddressAccumulate_Address v));
   ("transaction_id", VStr (OutputAddressAccumulate_TransactionID v));
   ("output_index", VNum (OutputAddressAccumulate_OutputIndex v));
   ("created_at", vtime (OutputAddressAccumulate_CreatedAt v))].

Definition OutputAddressAccumulateIn_columns : list string :=
  ["id";
   "output_id";
   "address";
   "processed";
   "transaction_id";
   "output_index";
   "created_at"].

Definition OutputAddressAccumulateIn_where (v : OutputAddressAccumulate) : list cond :=
  [CEq "id" (VStr (OutputAddressAccumulate_ID v))].

Definition OutputAddressAccumulateIn_sets (v : OutputAddressAccumulate) : list (string * setexpr) :=
  [("output_id", SetVal (VStr (OutputAddressAccumulate_OutputID v)));
   ("address", SetVal (VStr (OutputAddressAccumulate_Address v)));
   ("transaction_id", SetVal (VStr (OutputAddressAccumulate_TransactionID v)));
   ("output_index", SetVal (VNum (OutputAddressAccumulate_OutputIndex v)));
   ("created_at", SetVal (vtime (OutputAddressAccumulate_CreatedAt v)))].

Definition OutputTxsAccumulate_pairs (v : OutputTxsAccumulate) : list (string * value) :=
  [("id", VStr (OutputTxsAccumulate_ID v));
   ("chain_id", VStr (OutputTxsAccumulate_ChainID v));
   ("asset_id", VStr (OutputTxsAccumulate_AssetID v));
   ("address", VStr (OutputTxsAccumulate_Address v));
   ("transaction_id", VStr (OutputTxsAccumulate_TransactionID v));
   ("created_at", vtime (OutputTxsAccumulate_CreatedAt v))].

Definition OutputTxsAccumulate_columns : list string :=
  ["id";
   "chain_id";
   "asset_id";
   "address";
   "transaction_id";
   "processed";
   "created_at"].

Definition OutputTxsAccumulate_where (v : OutputTxsAccumulate) : list cond :=
  [CEq "id" (VStr (OutputTxsAccumulate_ID v))].

Definition AccumulateBalancesReceived_pairs (v : AccumulateBalancesAmount) : list (string * value) :=
  [("id", VStr (AccumulateBalancesAmount_ID v));
   ("chain_id", VStr (AccumulateBalancesAmount_ChainID v));
   ("asset_id", VStr (AccumulateBalancesAmount_AssetID v));
   ("address", VStr (AccumulateBalancesAmount_Address v));
   ("updated_at", vtime (AccumulateBalancesAmount_UpdatedAt v))].

Definition AccumulateBalancesReceived_columns : list string :=
  ["id";
   "chain_id";
   "asset_id";
   "address";
   "total_amount";
   "utxo_count";
   "updated_at"].

Definition AccumulateBalancesReceived_where (v : AccumulateBalancesAmount) : list cond :=
  [CEq "id" (VStr (AccumulateBalancesAmount_ID v))].

Definition AccumulateBalancesSent_pairs (v : AccumulateBalancesAmount) : list (string * value) :=
  [("id", VStr (AccumulateBalancesAmount_ID v));
   ("chain_id", VStr (AccumulateBalancesAmount_ChainID v));
   ("asset_id", VStr (AccumulateBalancesAmount_AssetID v));
   ("address", VStr (AccumulateBalancesAmount_Address v));
   ("updated_at", vtime (AccumulateBalancesAmount_UpdatedAt v))].

Definition AccumulateBalancesSent_columns : list string :=
  ["id";
   "chain_id";
   "asset_id";
   "address";
   "total_amount";
   "utxo_count";
   "updated_at"].

Definition AccumulateBalancesSent_where (v : AccumulateBalancesAmount) : list cond :=
  [CEq "id" (VStr (AccumulateBalancesAmount_ID v))].

Definition AccumulateBalancesTransactions_pairs (v : AccumulateBalancesTransactions) : list (string * value) :=
  [("id", VStr (AccumulateBalancesTransactions_ID v));
   ("chain_id", VStr (AccumulateBalancesTransactions_ChainID v));
   ("asset_id", VStr (AccumulateBalancesTransactions_AssetID v));
   ("address", VStr (AccumulateBalancesTransactions_Address v));
   ("updated_at", vtime (AccumulateBalancesTransactions_UpdatedAt v))].

Definition AccumulateBalancesTransactions_columns : list string :=
  ["id";
   "chain_id";
   "asset_id";
   "address";
   "transaction_count";
   "updated_at"].

Definition AccumulateBalancesTransactions_where (v : AccumulateBalancesTransactions) : list cond :=
  [CEq "id" (VStr (AccumulateBalancesTransactions_ID v))].

Definition TransactionsRewardsOwnersAddress_pairs (v : TransactionsRewardsOwnersAddress) : list (string * value) :=
  [("id", VStr (TransactionsRewardsOwnersAddress_ID v));
   ("address", VStr (TransactionsRewardsOwnersAddress_Address v));
   ("output_index", VNum (TransactionsRewardsOwnersAddress_OutputIndex v));
   ("updated_at", vtime (TransactionsRewardsOwnersAddress_UpdatedAt v))].

Definition TransactionsRewardsOwnersAddress_columns : list string :=
  ["id";
   "address";
   "output_index";
   "updated_at"].

Definition TransactionsRewardsOwnersAddress_where (v : TransactionsRewardsOwnersAddress) : list cond :=
  [CEq "id" (VStr (TransactionsRewardsOwnersAddress_ID v));
   CEq "address" (VStr (TransactionsRewardsOwnersAddress_Address v))].

Definition TransactionsRewardsOwnersAddress_sets (v : TransactionsRewardsOwnersAddress) : list (string * setexpr) :=
  [("output_index", SetVal (VNum (TransactionsRewardsOwnersAddress_OutputIndex v)));
   ("updated_at", SetVal (vtime (TransactionsRewardsOwnersAddress_UpdatedAt v)))].

Definition TransactionsRewardsOwnersOutputs_pairs (v : TransactionsRewardsOwnersOutputs) : list (string * value) :=
  [("id", VStr (TransactionsRewardsOwnersOutputs_ID v));
   ("transaction_id", VStr (TransactionsRewardsOwnersOutputs_TransactionID v));
   ("output_index", VNum (TransactionsRewardsOwnersOutputs_OutputIndex v));
   ("created_at", vtime (TransactionsRewardsOwnersOutputs_CreatedAt v))].

Definition TransactionsRewardsOwnersOutputs_columns : list string :=
  ["id";
   "transaction_id";
   "output_index";
   "created_at"].

Definition TransactionsRewardsOwnersOutputs_where (v : TransactionsRewardsOwnersOutputs) : list cond :=
  [CEq "id" (VStr (TransactionsRewardsOwnersOutputs_ID v))].

Definition TransactionsRewardsOwnersOutputs_sets (v : TransactionsRewardsOwnersOutputs) : list (string * setexpr) :=
  [("transaction_id", SetVal (VStr (TransactionsRewardsOwnersOutputs_TransactionID v)));
   ("output_index", SetVal (VNum (TransactionsRewardsOwnersOutputs_OutputIndex v)));
   ("created_at", SetVal (vtime (TransactionsRewardsOwnersOutputs_CreatedAt v)))].

Definition TransactionsRewardsOwners_pairs (v : TransactionsRewardsOwners) : list (string * value) :=
  [("id", VStr (TransactionsRewardsOwners_ID v));
   ("chain_id", VStr (TransactionsRewardsOwners_ChainID v));
   ("locktime", VNum (TransactionsRewardsOwners_Locktime v));
   ("threshold", VNum (TransactionsRewardsOwners_Threshold v));
   ("created_at", vtime (TransactionsRewardsOwners_CreatedAt v))].

Definition TransactionsRewardsOwners_columns : list string :=
  ["id";
   "chain_id";
   "locktime";
   "threshold";
   "created_at"].

Definition TransactionsRewardsOwners_where (v : TransactionsRewardsOwners) : list cond :=
  [CEq "id" (VStr (TransactionsRewardsOwners_ID v))].

Definition TransactionsRewardsOwners_sets (v : TransactionsRewardsOwners) : list (string * setexpr) :=
  [("chain_id", SetVal (VStr (TransactionsRewardsOwners_ChainID v)));
   ("locktime", SetVal (VNum (TransactionsRewardsOwners_Locktime v)));
   ("threshold", SetVal (VNum (TransactionsRewardsOwners_Threshold v)));
   ("created_at", SetVal (vtime (TransactionsRewardsOwners_CreatedAt v)))].

Definition TxPool_pairs (v : TxPool) : list (string * value) :=
  [("id", VStr (TxPool_ID v));
   ("network_id", VNum (TxPool_NetworkID v));
   ("chain_id", VStr (TxPool_ChainID v));
   ("msg_key", VStr (TxPool_MsgKey v));
   ("serialization", vbytes (TxPool_Serialization v));
   ("processed", VNum (TxPool_Processed v));
   ("topic", VStr (TxPool_Topic v));
   ("created_at", vtime (TxPool_CreatedAt v))].

Definition TxPool_columns : list string :=
  ["id";
   "network_id";
   "chain_id";
   "msg_key";
   "serialization";
   "processed";
   "topic";
   "created_at"].

Definition TxPool_where (v : TxPool) : list cond :=
  [CEq "id" (VStr (TxPool_ID v))].

Definition KeyValueStore_pairs (v : KeyValueStore) : list (string * value) :=
  [("k", VStr (KeyValueStore_K v));
   ("v", VStr (KeyValueStore_V v))].

Definition KeyValueStore_columns : list string :=
  ["k";
   "v"].

Definition KeyValueStore_where (v : KeyValueStore) : list cond :=
  [CEq "k" (VStr (KeyValueStore_K v))].

Definition CvmTransactionsTxdataTrace_pairs (v : CvmTransactionsTxdataTrace) : list (string * value) :=
  [("hash", VStr (CvmTransactionsTxdataTrace_Hash v));
   ("idx", VNum (CvmTransactionsTxdataTrace_Idx v));
   ("to_addr", VStr (CvmTransactionsTxdataTrace_ToAddr v));
   ("from_addr", VStr (CvmTransactionsTxdataTrace_FromAddr v));
   ("call_type", VStr (CvmTransactionsTxdataTrace_CallType v));
   ("type", VStr (CvmTransactionsTxdataTrace_Type v));
   ("serialization", vbytes (CvmTransactionsTxdataTrace_Serialization v));
   ("created_at", vtime (CvmTransactionsTxdataTrace_CreatedAt v))].

Definition CvmTransactionsTxdataTrace_columns : list string :=
  ["hash";
   "idx";
   "to_addr";
   "from_addr";
   "call_type";
   "type";
   "serialization";
   "created_at"].

Definition CvmTransactionsTxdataTrace_where (v : CvmTransactionsTxdataTrace) : list cond :=
  [CEq "hash" (VStr (CvmTransactionsTxdataTrace_Hash v));
   CEq "idx" (VNum (CvmTransactionsTxdataTrace_Idx v))].

Definition CvmTransactionsTxdataTrace_sets (v : CvmTransactionsTxdataTrace) : list (string * setexpr) :=
  [("to_addr", SetVal (VStr (CvmTransactionsTxdataTrace_ToAddr v)));
   ("from_addr", SetVal (VStr (CvmTransactionsTxdataTrace_FromAddr v)));
   ("call_type", SetVal (VStr (CvmTransactionsTxdataTrace_CallType v)));
   ("type", SetVal (VStr (CvmTransactionsTxdataTrace_Type v)));
   ("serialization", SetVal (vbytes (CvmTransactionsTxdataTrace_Serialization v)));
   ("created_at", SetVal (vtime (CvmTransactionsTxdataTrace_CreatedAt v)))].

Definition NodeIndex_pairs (v : NodeIndex) : list (string * value) :=
  [("instance", VStr (NodeIndex_Instance v));
   ("topic", VStr (NodeIndex_Topic v));
   ("idx", VNum (NodeIndex_Idx v))].

Definition NodeIndex_columns : list string :=
  ["instance";
   "topic";
   "idx"].

Definition NodeIndex_where (v : NodeIndex) : list cond :=
  [CEq "instance" (VStr (NodeIndex_Instance v));
   CEq "topic" (VStr (NodeIndex_Topic v))].

Definition NodeIndex_sets (v : NodeIndex) : list (string * setexpr) :=
  [("idx", SetVal (VNum (NodeIndex_Idx v)))].

Definition CvmLogs_pairs (v : CvmLogs) : list (string * value) :=
  [("id", VStr (CvmLogs_ID v));
   ("block_hash", VStr (CvmLogs_BlockHash v));
   ("tx_hash", VStr (CvmLogs_TxHash v));
   ("log_index", VNum (CvmLogs_LogIndex v));
   ("first_topic", VStr (CvmLogs_FirstTopic v));
   ("block", literal (CvmLogs_Block v));
   ("removed", VBool (CvmLogs_Removed v));
   ("created_at", vtime (CvmLogs_CreatedAt v));
   ("serialization", vbytes (CvmLogs_Serialization v))].

Definition CvmLogs_columns : list string :=
  ["id";
   "block_hash";
   "tx_hash";
   "log_index";
   "first_topic";
   "block";
   "removed";
   "created_at";
   "serialization"].

Definition CvmLogs_where (v : CvmLogs) : list cond :=
  [CEq "id" (VStr (CvmLogs_ID v))].

Definition CvmLogs_sets (v : CvmLogs) : list (string * setexpr) :=
  [("block_hash", SetVal (VStr (CvmLogs_BlockHash v)));
   ("tx_hash", SetVal (VStr (CvmLogs_TxHash v)));
   ("log_index", SetVal (VNum (CvmLogs_LogIndex v)));
   ("first_topic", SetVal (VStr (CvmLogs_FirstTopic v)));
   ("block", SetVal (literal (CvmLogs_Block v)));
   ("removed", SetVal (VBool (CvmLogs_Removed v)));
   ("serialization", SetVal (vbytes (CvmLogs_Serialization v)));
   ("created_at", SetVal (vtime (CvmLogs_CreatedAt v)))].

Definition PvmProposer_pairs (v : PvmProposer) : list (string * value) :=
  [("id", VStr (PvmProposer_ID v));
   ("parent_id", VStr (PvmProposer_ParentID v));
   ("blk_id", VStr (PvmProposer_BlkID v));
   ("p_chain_height", VNum (PvmProposer_CoreChainHeight v));
   ("proposer", VStr (PvmProposer_Proposer v));
   ("time_stamp", vtime (PvmProposer_TimeStamp v));
   ("created_at", vtime (PvmProposer_CreatedAt v));
   ("proposer_blk_id", VStr (PvmProposer_ProposerBlkID v))].

Definition PvmProposer_columns : list string :=
  ["id";
   "parent_id";
   "blk_id";
   "p_chain_height";
   "proposer";
   "time_stamp";
   "created_at";
   "proposer_blk_id"].

Definition PvmProposer_where (v : PvmProposer) : list cond :=
  [CEq "id" (VStr (PvmProposer_ID v))].

Definition PvmProposer_sets (v : PvmProposer) : list (string * setexpr) :=
  [("parent_id", SetVal (VStr (PvmProposer_ParentID v)));
   ("blk_id", SetVal (VStr (PvmProposer_BlkID v)));
   ("p_chain_height", SetVal (VNum (PvmProposer_CoreChainHeight v)));
   ("proposer", SetVal (VStr (PvmProposer_Proposer v)));
   ("time_stamp", SetVal (vtime (PvmProposer_TimeStamp v)));
   ("created_at", SetVal (vtime (PvmProposer_CreatedAt v)));
   ("proposer_blk_id", SetVal (VStr (PvmProposer_ProposerBlkID v)))].

(** * Operations *)
Section operations.
Context `{SqlEngine D} `{!Dbr}.

(** [err := sess.Select(cols...).From(t).Where(w).LoadOneContext(ctx, v); return v, err] :
    the struct, zero when the row is missing, and the error. *)
Definition query_load {A} (t : string) (cols : list string) (w : list cond)
    (load : row → A) : M D (A * option error) :=
  r ← attempt (query_one t cols w);
  mret match r with
       | Err e => (load ∅, Some e)
       | Ok None => (load ∅, Some ErrNotFound)
       | Ok (Some r) => (load r, None)
       end.

Definition QueryTransactions (v : Transactions) : M D (Transactions * option error) :=
  query_load TableTransactions Transactions_columns (Transactions_where v) load_Transactions.

Definition InsertTransactions (v : Transactions) (upd : bool) : M D unit :=
  insert_upd (Insert TableTransactions (Transactions_pairs v)) TableTransactions
    (Update TableTransactions (Transactions_sets v) (Transactions_where v)) TableTransactions upd.

Definition QueryOutputsRedeeming (v : OutputsRedeeming) : M D (OutputsRedeeming * option error) :=
  query_load TableOutputsRedeeming OutputsRedeeming_columns (OutputsRedeeming_where v) load_OutputsRedeeming.

Definition InsertOutputsRedeeming (v : OutputsRedeeming) (upd : bool) : M D unit :=
  insert_upd (Insert TableOutputsRedeeming (OutputsRedeeming_pairs v)) TableOutputsRedeeming
    (Update TableOutputsRedeeming (OutputsRedeeming_sets v) (OutputsRedeeming_where v)) TableOutputsRedeeming upd.

Definition QueryOutputs (v : Outputs) : M D (Outputs * option error) :=
  query_load TableOutputs Outputs_columns (Outputs_where v) load_Outputs.

Definition InsertOutputs (v : Outputs) (upd : bool) : M D unit :=
  insert_upd (Insert TableOutputs (Outputs_pairs v)) TableOutputs
    (Update TableOutputs (Outputs_sets v) (Outputs_where v)) TableOutputs upd.

Definition QueryAssets (v : Assets) : M D (Assets * option error) :=
  query_load TableAssets Assets_columns (Assets_where v) load_Assets.

Definition InsertAssets (v : Assets) (upd : bool) : M D unit :=
  insert_upd (Insert TableAssets (Assets_pairs v)) TableAssets
    (Update TableAssets (Assets_sets v) (Assets_where v)) TableAssets upd.

Definition QueryAddresses (v : Addresses) : M D (Addresses * option error) :=
  query_load TableAddresses Addresses_columns (Addresses_where v) load_Addresses.

Definition InsertAddresses (v : Addresses) (upd : bool) : M D unit :=
  insert_upd (Insert TableAddresses (Addresses_pairs v)) TableAddresses
    (Update TableAddresses (Addresses_sets v) (Addresses_where v)) TableAddresses upd.

Definition QueryAddressChain (v : AddressChain) : M D (AddressChain * option error) :=
  query_load TableAddressChain AddressChain_columns (AddressChain_where v) load_AddressChain.

Definition InsertAddressChain (v : AddressChain) (upd : bool) : M D unit :=
  insert_upd (Insert TableAddressChain (AddressChain_pairs v)) TableAddressChain
    (Update TableAddressChain (AddressChain_sets v) (AddressChain_where v)) TableAddressChain upd.

Definition QueryOutputAddresses (v : OutputAddresses) : M D (OutputAddresses * option error) :=
  query_load TableOutputAddresses OutputAddresses_columns (OutputAddresses_where v) load_OutputAddresses.

Definition InsertOutputAddresses (v : OutputAddresses) (upd : bool) : M D unit :=
  insert_upd (Insert TableOutputAddresses (OutputAddresses_pairs v)) TableOutputAddresses
    (Update TableOutputAddresses (OutputAddresses_sets v) (OutputAddresses_where v)) TableOutputAddresses upd.

Definition QueryTransactionsEpoch (v : TransactionsEpoch) : M D (TransactionsEpoch * option error) :=
  query_load TableTransactionsEpochs TransactionsEpoch_columns (TransactionsEpoch_where v) load_TransactionsEpoch.

Definition InsertTransactionsEpoch (v : TransactionsEpoch) (upd : bool) : M D unit :=
  insert_upd (Insert TableTransactionsEpochs (TransactionsEpoch_pairs v)) TableTransactionsEpochs
    (Update TableTransactionsEpochs (TransactionsEpoch_sets v) (TransactionsEpoch_where v)) TableTransactionsEpochs upd.

Definition QueryCvmBlocks (v : CvmBlocks) : M D (CvmBlocks * option error) :=
  query_load TableCvmBlocks CvmBlocks_columns (CvmBlocks_where v) load_CvmBlocks.

Definition InsertCvmBlocks (v : CvmBlocks) : M D unit :=
  exec_ignore_dup (Insert TableCvmBlocks (CvmBlocks_pairs v)) TableCvmBlocks.

Definition QueryCvmAddresses (v : CvmAddresses) : M D (CvmAddresses * option error) :=
  query_load TableCvmAddresses CvmAddresses_columns (CvmAddresses_where v) load_CvmAddresses.

Definition InsertCvmAddresses (v : CvmAddresses) (upd : bool) : M D unit :=
  insert_upd (Insert TableCvmAddresses (CvmAddresses_pairs v)) TableCvmAddresses
    (Update TableCvmAddresses (CvmAddresses_sets v) (CvmAddresses_where v)) TableCvmAddresses upd.

Definition QueryCvmTransactions (v : CvmTransactions) : M D (CvmTransactions * option error) :=
  query_load TableCvmTransactions CvmTransactions_columns (CvmTransactions_where v) load_CvmTransactions.

Definition InsertCvmTransactions (v : CvmTransactions) (upd : bool) : M D unit :=
  insert_upd (Insert TableCvmTransactions (CvmTransactions_pairs v)) TableCvmTransactions
    (Update TableCvmTransactions (CvmTransactions_sets v) (CvmTransactions_where v)) TableCvmTransactions upd.

Definition QueryCvmTransactionsTxdata (v : CvmTransactionsTxdata) : M D (CvmTransactionsTxdata * option error) :=
  query_load TableCvmTransactionsTxdata CvmTransactionsTxdata_columns (CvmTransactionsTxdata_where v) load_CvmTransactionsTxdata.

Definition InsertCvmTransactionsTxdata (v : CvmTransactionsTxdata) (upd : bool) : M D unit :=
  insert_upd (Insert TableCvmTransactionsTxdata (CvmTransactionsTxdata_pairs v)) TableCvmTransactionsTxdata
    (Update TableCvmTransactionsTxdata (CvmTransactionsTxdata_sets v) (CvmTransactionsTxdata_where v)) TableCvmTransactionsTxdata upd.

Definition QueryPvmBlocks (v : PvmBlocks) : M D (PvmBlocks * option error) :=
  query_load TablePvmBlocks PvmBlocks_columns (PvmBlocks_where v) load_PvmBlocks.

Definition InsertPvmBlocks (v : PvmBlocks) (upd : bool) : M D unit :=
  insert_upd (Insert TablePvmBlocks (PvmBlocks_pairs v)) TablePvmBlocks
    (Update TablePvmBlocks (PvmBlocks_sets v) (PvmBlocks_where v)) TablePvmBlocks upd.

Definition QueryRewards (v : Rewards) : M D (Rewards * option error) :=
  query_load TableRewards Rewards_columns (Rewards_where v) load_Rewards.

Definition InsertRewards (v : Rewards) (upd : bool) : M D unit :=
  insert_upd (Insert TableRewards (Rewards_pairs v)) TableRewards
    (Update TableRewards (Rewards_sets v) (Rewards_where v)) TableRewards upd.

Definition QueryTransactionsValidator (v : TransactionsValidator) : M D (TransactionsValidator * option error) :=
  query_load TableTransactionsValidator TransactionsValidator_columns (TransactionsValidator_where v) load_TransactionsValidator.

Definition InsertTransactionsValidator (v : TransactionsValidator) (upd : bool) : M D unit :=
  insert_upd (Insert TableTransactionsValidator (TransactionsValidator_pairs v)) TableTransactionsValidator
    (Update TableTransactionsValidator (TransactionsValidator_sets v) (TransactionsValidator_where v)) TableTransactionsValidator upd.

Definition QueryTransactionsBlock (v : TransactionsBlock) : M D (TransactionsBlock * option error) :=
  query_load TableTransactionsBlock TransactionsBlock_columns (TransactionsBlock_where v) load_TransactionsBlock.

Definition InsertTransactionsBlock (v : TransactionsBlock) (upd : bool) : M D unit :=
  insert_upd (Insert TableTransactionsBlock (TransactionsBlock_pairs v)) TableTransactionsBlock
    (Update TableTransactionsBlock (TransactionsBlock_sets v) (TransactionsBlock_where v)) TableTransactionsBlock upd.

Definition QueryAddressBech32 (v : AddressBech32) : M D (AddressBech32 * option error) :=
  query_load TableAddressBech32 AddressBech32_columns (AddressBech32_where v) load_AddressBech32.

Definition InsertAddressBech32 (v : AddressBech32) (upd : bool) : M D unit :=
  insert_upd (Insert TableAddressBech32 (AddressBech32_pairs v)) TableAddressBech32
    (Update TableAddressBech32 (AddressBech32_sets v) (AddressBech32_where v)) TableAddressBech32 upd.

Definition QueryOutputAddressAccumulateOut (v : OutputAddressAccumulate) : M D (OutputAddressAccumulate * option error) :=
  query_load TableOutputAddressAccumulateOut OutputAddressAccumulateOut_columns (OutputAddressAccumulateOut_where v) load_OutputAddressAccumulate.

Definition InsertOutputAddressAccumulateOut (v : OutputAddressAccumulate) (upd : bool) : M D unit :=
  insert_upd (Insert TableOutputAddressAccumulateOut (OutputAddressAccumulateOut_pairs v)) TableOutputAddressAccumulateOut
    (Update TableOutputAddressAccumulateOut (OutputAddressAccumulateOut_sets v) (OutputAddressAccumulateOut_where v)) TableAddressBech32 upd.

Definition QueryOutputAddressAccumulateIn (v : OutputAddressAccumulate) : M D (OutputAddressAccumulate * option error) :=
  query_load TableOutputAddressAccumulateIn OutputAddressAccumulateIn_columns (OutputAddressAccumulateIn_where v) load_OutputAddressAccumulate.

Definition InsertOutputAddressAccumulateIn (v : OutputAddressAccumulate) (upd : bool) : M D unit :=
  insert_upd (Insert TableOutputAddressAccumulateIn (OutputAddressAccumulateIn_pairs v)) TableOutputAddressAccumulateIn
    (Update TableOutputAddressAccumulateIn (OutputAddressAccumulateIn_sets v) (OutputAddressAccumulateIn_where v)) TableAddressBech32 upd.

Definition QueryOutputTxsAccumulate (v : OutputTxsAccumulate) : M D (OutputTxsAccumulate * option error) :=
  query_load TableOutputTxsAccumulate OutputTxsAccumulate_columns (OutputTxsAccumulate_where v) load_OutputTxsAccumulate.

Definition InsertOutputTxsAccumulate (v : OutputTxsAccumulate) : M D unit :=
  exec_ignore_dup (Insert TableOutputTxsAccumulate (OutputTxsAccumulate_pairs v)) TableOutputTxsAccumulate.

Definition QueryAccumulateBalancesReceived (v : AccumulateBalancesAmount) : M D (AccumulateBalancesAmount * option error) :=
  query_load TableAccumulateBalancesReceived AccumulateBalancesReceived_columns (AccumulateBalancesReceived_where v) load_AccumulateBalancesAmount.

Definition InsertAccumulateBalancesReceived (v : AccumulateBalancesAmount) : M D unit :=
  exec_ignore_dup (Insert TableAccumulateBalancesReceived (AccumulateBalancesReceived_pairs v)) TableAccumulateBalancesReceived.

Definition QueryAccumulateBalancesSent (v : AccumulateBalancesAmount) : M D (AccumulateBalancesAmount * option error) :=
  query_load TableAccumulateBalancesSent AccumulateBalancesSent_columns (AccumulateBalancesSent_where v) load_AccumulateBalancesAmount.

Definition InsertAccumulateBalancesSent (v : AccumulateBalancesAmount) : M D unit :=
  exec_ignore_dup (Insert TableAccumulateBalancesSent (AccumulateBalancesSent_pairs v)) TableAccumulateBalancesSent.

Definition QueryAccumulateBalancesTransactions (v : AccumulateBalancesTransactions) : M D (AccumulateBalancesTransactions * option error) :=
  query_load TableAccumulateBalancesTransactions AccumulateBalancesTransactions_columns (AccumulateBalancesTransactions_where v) load_AccumulateBalancesTransactions.

Definition InsertAccumulateBalancesTransactions (v : AccumulateBalancesTransactions) : M D unit :=
  exec_ignore_dup (Insert TableAccumulateBalancesTransactions (AccumulateBalancesTransactions_pairs v)) TableAccumulateBalancesTransactions.

Definition QueryTransactionsRewardsOwnersAddress (v : TransactionsRewardsOwnersAddress) : M D (TransactionsRewardsOwnersAddress * option error) :=
  query_load TableTransactionsRewardsOwnersAddress TransactionsRewardsOwnersAddress_columns (TransactionsRewardsOwnersAddress_where v) load_TransactionsRewardsOwnersAddress.

Definition InsertTransactionsRewardsOwnersAddress (v : TransactionsRewardsOwnersAddress) (upd : bool) : M D unit :=
  insert_upd (Insert TableTransactionsRewardsOwnersAddress (TransactionsRewardsOwnersAddress_pairs v)) TableTransactionsRewardsOwnersAddress
    (Update TableTransactionsRewardsOwnersAddress (TransactionsRewardsOwnersAddress_sets v) (TransactionsRewardsOwnersAddress_where v)) TableTransactionsRewardsOwnersAddress upd.

Definition QueryTransactionsRewardsOwnersOutputs (v : TransactionsRewardsOwnersOutputs) : M D (TransactionsRewardsOwnersOutputs * option error) :=
  query_load TableTransactionsRewardsOwnersOutputs TransactionsRewardsOwnersOutputs_columns (TransactionsRewardsOwnersOutputs_where v) load_TransactionsRewardsOwnersOutputs.

Definition InsertTransactionsRewardsOwnersOutputs (v : TransactionsRewardsOwnersOutputs) (upd : bool) : M D unit :=
  insert_upd (Insert TableTransactionsRewardsOwnersOutputs (TransactionsRewardsOwnersOutputs_pairs v)) TableTransactionsRewardsOwnersOutputs
    (Update TableTransactionsRewardsOwnersOutputs (TransactionsRewardsOwnersOutputs_sets v) (TransactionsRewardsOwnersOutputs_where v)) TableTransactionsRewardsOwnersOutputs upd.

Definition QueryTransactionsRewardsOwners (v : TransactionsRewardsOwners) : M D (TransactionsRewardsOwners * option error) :=
  query_load TableTransactionsRewardsOwners TransactionsRewardsOwners_columns (TransactionsRewardsOwners_where v) load_TransactionsRewardsOwners.

Definition InsertTransactionsRewardsOwners (v : TransactionsRewardsOwners) (upd : bool) : M D unit :=
  insert_upd (Insert TableTransactionsRewardsOwners (TransactionsRewardsOwners_pairs v)) TableTransactionsRewardsOwners
    (Update TableTransactionsRewardsOwners (TransactionsRewardsOwners_sets v) (TransactionsRewardsOwners_where v)) TableTransactionsRewardsOwners upd.

Definition QueryTxPool (v : TxPool) : M D (TxPool * option error) :=
  query_load TableTxPool TxPool_columns (TxPool_where v) load_TxPool.

Definition InsertTxPool (v : TxPool) : M D unit :=
  exec_ignore_dup (Insert TableTxPool (TxPool_pairs v)) TableTxPool.

Definition QueryKeyValueStore (v : KeyValueStore) : M D (KeyValueStore * option error) :=
  query_load TableKeyValueStore KeyValueStore_columns (KeyValueStore_where v) load_KeyValueStore.

Definition InsertKeyValueStore (v : KeyValueStore) : M D unit :=
  exec_ignore_dup (Insert TableKeyValueStore (KeyValueStore_pairs v)) TableKeyValueStore.

Definition QueryCvmTransactionsTxdataTrace (v : CvmTransactionsTxdataTrace) : M D (CvmTransactionsTxdataTrace * option error) :=
  query_load TableCvmTransactionsTxdataTrace CvmTransactionsTxdataTrace_columns (CvmTransactionsTxdataTrace_where v) load_CvmTransactionsTxdataTrace.

Definition InsertCvmTransactionsTxdataTrace (v : CvmTransactionsTxdataTrace) (upd : bool) : M D unit :=
  insert_upd (Insert TableCvmTransactionsTxdataTrace (CvmTransactionsTxdataTrace_pairs v)) TableCvmTransactionsTxdataTrace
    (Update TableCvmTransactionsTxdataTrace (CvmTransactionsTxdataTrace_sets v) (CvmTransactionsTxdataTrace_where v)) TableCvmTransactionsTxdataTrace upd.

Definition QueryNodeIndex (v : NodeIndex) : M D (NodeIndex * option error) :=
  query_load TableNodeIndex NodeIndex_columns (NodeIndex_where v) load_NodeIndex.

Definition InsertNodeIndex (v : NodeIndex) (upd : bool) : M D unit :=
  insert_upd (Insert TableNodeIndex (NodeIndex_pairs v)) TableNodeIndex
    (Update TableNodeIndex (NodeIndex_sets v) (NodeIndex_where v)) TableNodeIndex upd.

Definition QueryCvmLogs (v : CvmLogs) : M D (CvmLogs * option error) :=
  query_load TableCvmLogs CvmLogs_columns (CvmLogs_where v) load_CvmLogs.

Definition InsertCvmLogs (v : CvmLogs) (upd : bool) : M D unit :=
  insert_upd (Insert TableCvmLogs (CvmLogs_pairs v)) TableCvmLogs
    (Update TableCvmLogs (CvmLogs_sets v) (CvmLogs_where v)) TableCvmLogs upd.

Definition QueryPvmProposer (v : PvmProposer) : M D (PvmProposer * option error) :=
  query_load TablePvmProposer PvmProposer_columns (PvmProposer_where v) load_PvmProposer.

Definition InsertPvmProposer (v : PvmProposer) (upd : bool) : M D unit :=
  insert_upd (Insert TablePvmProposer (PvmProposer_pairs v)) TableCvmTransactionsTxdataTrace
    (Update TablePvmProposer (PvmProposer_sets v) (PvmProposer_where v)) TablePvmProposer upd.

Definition UpdateOutputAddresses (v : OutputAddresses) : M D unit :=
  exec_report
    (Update TableOutputAddresses
      [("redeeming_signature", SetVal (vbytes (OutputAddresses_RedeemingSignature v)));
       ("updated_at", SetVal (vtime (OutputAddresses_UpdatedAt v)))]
      (OutputAddresses_where v))
    TableOutputAddresses.

Definition UpdateRewardsProcessed (v : Rewards) : M D unit :=
  exec_ignore_dup
    (Update TableRewards [("processed", SetVal (VNum (Rewards_Processed v)))] (Rewards_where v))
    TableRewards.

Definition UpdateOutputAddressAccumulateInOutputsProcessed (id : string) : M D unit :=
  exec_ignore_dup
    (Update TableOutputAddressAccumulateIn
      [("output_processed", SetVal (VNum 1))]
      [CEq "output_id" (VStr id); CNe "output_processed" (VNum 1)])
    TableOutputAddressAccumulateIn.

Definition UpdateTxPoolStatus (v : TxPool) : M D unit :=
  exec_ignore_dup
    (Update TableTxPool [("processed", SetVal (VNum (TxPool_Processed v)))] (TxPool_where v))
    TableTxPool.

Definition UpdateNodeIndex (v : NodeIndex) : M D unit :=
  exec_report
    (Update TableNodeIndex [("idx", SetVal (VNum (NodeIndex_Idx v)))] (NodeIndex_where v))
    TableNodeIndex.
End operations.

(** * Row identifiers: the hash of the natural key *)
Section compute_id.
Context `{!AxiaIds}.

(** [id, err := ids.ToID(hashing.ComputeHash256([]byte(idsv)))], then its text. *)
Definition hashed_id (idsv : string) : result string :=
  id ← ids_ToID (ComputeHash256 idsv); mret (ID_String id).

Definition OutputAddressAccumulate_idsv (b : OutputAddressAccumulate) : string :=
  OutputAddressAccumulate_OutputID b +:+ ":" +:+ OutputAddressAccumulate_Address b.

Definition OutputAddressAccumulate_ComputeID (b : OutputAddressAccumulate) : result OutputAddressAccumulate :=
  id ← hashed_id (OutputAddressAccumulate_idsv b);
  mret {|
    OutputAddressAccumulate_ID := id;
    OutputAddressAccumulate_OutputID := OutputAddressAccumulate_OutputID b;
    OutputAddressAccumulate_Address := OutputAddressAccumulate_Address b;
    OutputAddressAccumulate_Processed := OutputAddressAccumulate_Processed b;
    OutputAddressAccumulate_OutputProcessed := OutputAddressAccumulate_OutputProcessed b;
    OutputAddressAccumulate_TransactionID := OutputAddressAccumulate_TransactionID b;
    OutputAddressAccumulate_OutputIndex := OutputAddressAccumulate_OutputIndex b;
    OutputAddressAccumulate_CreatedAt := OutputAddressAccumulate_CreatedAt b;
  |}.

Definition OutputTxsAccumulate_idsv (b : OutputTxsAccumulate) : string :=
  OutputTxsAccumulate_ChainID b +:+ ":" +:+ OutputTxsAccumulate_AssetID b +:+ ":" +:+ OutputTxsAccumulate_Address b +:+ ":" +:+ OutputTxsAccumulate_TransactionID b.

Definition OutputTxsAccumulate_ComputeID (b : OutputTxsAccumulate) : result OutputTxsAccumulate :=
  id ← hashed_id (OutputTxsAccumulate_idsv b);
  mret {|
    OutputTxsAccumulate_ID := id;
    OutputTxsAccumulate_ChainID := OutputTxsAccumulate_ChainID b;
    OutputTxsAccumulate_AssetID := OutputTxsAccumulate_AssetID b;
    OutputTxsAccumulate_Address := OutputTxsAccumulate_Address b;
    OutputTxsAccumulate_TransactionID := OutputTxsAccumulate_TransactionID b;
    OutputTxsAccumulate_Processed := OutputTxsAccumulate_Processed b;
    OutputTxsAccumulate_CreatedAt := OutputTxsAccumulate_CreatedAt b;
  |}.

Definition AccumulateBalancesAmount_idsv (b : AccumulateBalancesAmount) : string :=
  AccumulateBalancesAmount_ChainID b +:+ ":" +:+ AccumulateBalancesAmount_AssetID b +:+ ":" +:+ AccumulateBalancesAmount_Address b.

Definition AccumulateBalancesAmount_ComputeID (b : AccumulateBalancesAmount) : result AccumulateBalancesAmount :=
  id ← hashed_id (AccumulateBalancesAmount_idsv b);
  mret {|
    AccumulateBalancesAmount_ID := id;
    AccumulateBalancesAmount_ChainID := AccumulateBalancesAmount_ChainID b;
    AccumulateBalancesAmount_AssetID := AccumulateBalancesAmount_AssetID b;
    AccumulateBalancesAmount_Address := AccumulateBalancesAmount_Address b;
    AccumulateBalancesAmount_TotalAmount := AccumulateBalancesAmount_TotalAmount b;
    AccumulateBalancesAmount_UtxoCount := AccumulateBalancesAmount_UtxoCount b;
    AccumulateBalancesAmount_UpdatedAt := AccumulateBalancesAmount_UpdatedAt b;
  |}.

Definition AccumulateBalancesTransactions_idsv (b : AccumulateBalancesTransactions) : string :=
  AccumulateBalancesTransactions_ChainID b +:+ ":" +:+ AccumulateBalancesTransactions_AssetID b +:+ ":" +:+ AccumulateBalancesTransactions_Address b.

Definition AccumulateBalancesTransactions_ComputeID (b : AccumulateBalancesTransactions) : result AccumulateBalancesTransactions :=
  id ← hashed_id (AccumulateBalancesTransactions_idsv b);
  mret {|
    AccumulateBalancesTransactions_ID := id;
    AccumulateBalancesTransactions_ChainID := AccumulateBalancesTransactions_ChainID b;
    AccumulateBalancesTransactions_AssetID := AccumulateBalancesTransactions_AssetID b;
    AccumulateBalancesTransactions_Address := AccumulateBalancesTransactions_Address b;
    AccumulateBalancesTransactions_TransactionCount := AccumulateBalancesTransactions_TransactionCount b;
    AccumulateBalancesTransactions_UpdatedAt := AccumulateBalancesTransactions_UpdatedAt b;
  |}.

Definition TxPool_idsv (b : TxPool) : string :=
  TxPool_MsgKey b +:+ ":" +:+ TxPool_Topic b.

Definition TxPool_ComputeID (b : TxPool) : result TxPool :=
  id ← hashed_id (TxPool_idsv b);
  mret {|
    TxPool_ID := id;
    TxPool_NetworkID := TxPool_NetworkID b;
    TxPool_ChainID := TxPool_ChainID b;
    TxPool_MsgKey := TxPool_MsgKey b;
    TxPool_Serialization := TxPool_Serialization b;
    TxPool_Processed := TxPool_Processed b;
    TxPool_Topic := TxPool_Topic b;
    TxPool_CreatedAt := TxPool_CreatedAt b;
  |}.

Definition CvmLogs_idsv (b : CvmLogs) : string :=
  CvmLogs_BlockHash b +:+ ":" +:+ CvmLogs_TxHash b +:+ ":" +:+ Z_to_string (CvmLogs_LogIndex b).

Definition CvmLogs_ComputeID (b : CvmLogs) : result CvmLogs :=
  id ← hashed_id (CvmLogs_idsv b);
  mret {|
    CvmLogs_ID := id;
    CvmLogs_BlockHash := CvmLogs_BlockHash b;
    CvmLogs_TxHash := CvmLogs_TxHash b;
    CvmLogs_LogIndex := CvmLogs_LogIndex b;
    CvmLogs_FirstTopic := CvmLogs_FirstTopic b;
    CvmLogs_Block := CvmLogs_Block b;
    CvmLogs_Removed := CvmLogs_Removed b;
    CvmLogs_CreatedAt := CvmLogs_CreatedAt b;
    CvmLogs_Serialization := CvmLogs_Serialization b;
  |}.

End compute_id.
