(* ===== verification/Persist.v ===== *)
(** The interface of the persistence layer ([db.Persist]): its write operations
    as data, the interface [Persist] they are performed against, the SQL
    implementation, and what the SQL implementation promises. *)

From S2P Require Import Prelude Errors Sql Axia DbModel.

(** * Rows the program can insert: one constructor for each table *)
Inductive entity :=
| ETransactions (v : Transactions)
| EOutputsRedeeming (v : OutputsRedeeming)
| EOutputs (v : Outputs)
| EAssets (v : Assets)
| EAddresses (v : Addresses)
| EAddressChain (v : AddressChain)
| EOutputAddresses (v : OutputAddresses)
| ETransactionsEpoch (v : TransactionsEpoch)
| ECvmBlocks (v : CvmBlocks)
| ECvmAddresses (v : CvmAddresses)
| ECvmTransactions (v : CvmTransactions)
| ECvmTransactionsTxdata (v : CvmTransactionsTxdata)
| EPvmBlocks (v : PvmBlocks)
| ERewards (v : Rewards)
| ETransactionsValidator (v : TransactionsValidator)
| ETransactionsBlock (v : TransactionsBlock)
| EAddressBech32 (v : AddressBech32)
| EOutputAddressAccumulateOut (v : OutputAddressAccumulate)
| EOutputAddressAccumulateIn (v : OutputAddressAccumulate)
| EOutputTxsAccumulate (v : OutputTxsAccumulate)
| EAccumulateBalancesReceived (v : AccumulateBalancesAmount)
| EAccumulateBalancesSent (v : AccumulateBalancesAmount)
| EAccumulateBalancesTransactions (v : AccumulateBalancesTransactions)
| ETransactionsRewardsOwnersAddress (v : TransactionsRewardsOwnersAddress)
| ETransactionsRewardsOwnersOutputs (v : TransactionsRewardsOwnersOutputs)
| ETransactionsRewardsOwners (v : TransactionsRewardsOwners)
| ETxPool (v : TxPool)
| EKeyValueStore (v : KeyValueStore)
| ECvmTransactionsTxdataTrace (v : CvmTransactionsTxdataTrace)
| ENodeIndex (v : NodeIndex)
| ECvmLogs (v : CvmLogs)
| EPvmProposer (v : PvmProposer).

Definition entity_table (e : entity) : string :=
  match e with
  | ETransactions _ => TableTransactions
  | EOutputsRedeeming _ => TableOutputsRedeeming
  | EOutputs _ => TableOutputs
  | EAssets _ => TableAssets
  | EAddresses _ => TableAddresses
  | EAddressChain _ => TableAddressChain
  | EOutputAddresses _ => TableOutputAddresses
  | ETransactionsEpoch _ => TableTransactionsEpochs
  | ECvmBlocks _ => TableCvmBlocks
  | ECvmAddresses _ => TableCvmAddresses
  | ECvmTransactions _ => TableCvmTransactions
  | ECvmTransactionsTxdata _ => TableCvmTransactionsTxdata
  | EPvmBlocks _ => TablePvmBlocks
  | ERewards _ => TableRewards
  | ETransactionsValidator _ => TableTransactionsValidator
  | ETransactionsBlock _ => TableTransactionsBlock
  | EAddressBech32 _ => TableAddressBech32
  | EOutputAddressAccumulateOut _ => TableOutputAddressAccumulateOut
  | EOutputAddressAccumulateIn _ => TableOutputAddressAccumulateIn
  | EOutputTxsAccumulate _ => TableOutputTxsAccumulate
  | EAccumulateBalancesReceived _ => TableAccumulateBalancesReceived
  | EAccumulateBalancesSent _ => TableAccumulateBalancesSent
  | EAccumulateBalancesTransactions _ => TableAccumulateBalancesTransactions
  | ETransactionsRewardsOwnersAddress _ => TableTransactionsRewardsOwnersAddress
  | ETransactionsRewardsOwnersOutputs _ => TableTransactionsRewardsOwnersOutputs
  | ETransactionsRewardsOwners _ => TableTransactionsRewardsOwners
  | ETxPool _ => TableTxPool
  | EKeyValueStore _ => TableKeyValueStore
  | ECvmTransactionsTxdataTrace _ => TableCvmTransactionsTxdataTrace
  | ENodeIndex _ => TableNodeIndex
  | ECvmLogs _ => TableCvmLogs
  | EPvmProposer _ => TablePvmProposer
  end.

Definition entity_pairs (e : entity) : list (string * value) :=
  match e with
  | ETransactions v => Transactions_pairs v
  | EOutputsRedeeming v => OutputsRedeeming_pairs v
  | EOutputs v => Outputs_pairs v
  | EAssets v => Assets_pairs v
  | EAddresses v => Addresses_pairs v
  | EAddressChain v => AddressChain_pairs v
  | EOutputAddresses v => OutputAddresses_pairs v
  | ETransactionsEpoch v => TransactionsEpoch_pairs v
  | ECvmBlocks v => CvmBlocks_pairs v
  | ECvmAddresses v => CvmAddresses_pairs v
  | ECvmTransactions v => CvmTransactions_pairs v
  | ECvmTransactionsTxdata v => CvmTransactionsTxdata_pairs v
  | EPvmBlocks v => PvmBlocks_pairs v
  | ERewards v => Rewards_pairs v
  | ETransactionsValidator v => TransactionsValidator_pairs v
  | ETransactionsBlock v => TransactionsBlock_pairs v
  | EAddressBech32 v => AddressBech32_pairs v
  | EOutputAddressAccumulateOut v => OutputAddressAccumulateOut_pairs v
  | EOutputAddressAccumulateIn v => OutputAddressAccumulateIn_pairs v
  | EOutputTxsAccumulate v => OutputTxsAccumulate_pairs v
  | EAccumulateBalancesReceived v => AccumulateBalancesReceived_pairs v
  | EAccumulateBalancesSent v => AccumulateBalancesSent_pairs v
  | EAccumulateBalancesTransactions v => AccumulateBalancesTransactions_pairs v
  | ETransactionsRewardsOwnersAddress v => TransactionsRewardsOwnersAddress_pairs v
  | ETransactionsRewardsOwnersOutputs v => TransactionsRewardsOwnersOutputs_pairs v
  | ETransactionsRewardsOwners v => TransactionsRewardsOwners_pairs v
  | ETxPool v => TxPool_pairs v
  | EKeyValueStore v => KeyValueStore_pairs v
  | ECvmTransactionsTxdataTrace v => CvmTransactionsTxdataTrace_pairs v
  | ENodeIndex v => NodeIndex_pairs v
  | ECvmLogs v => CvmLogs_pairs v
  | EPvmProposer v => PvmProposer_pairs v
  end.

Definition entity_columns (e : entity) : list string :=
  match e with
  | ETransactions _ => Transactions_columns
  | EOutputsRedeeming _ => OutputsRedeeming_columns
  | EOutputs _ => Outputs_columns
  | EAssets _ => Assets_columns
  | EAddresses _ => Addresses_columns
  | EAddressChain _ => AddressChain_columns
  | EOutputAddresses _ => OutputAddresses_columns
  | ETransactionsEpoch _ => TransactionsEpoch_columns
  | ECvmBlocks _ => CvmBlocks_columns
  | ECvmAddresses _ => CvmAddresses_columns
  | ECvmTransactions _ => CvmTransactions_columns
  | ECvmTransactionsTxdata _ => CvmTransactionsTxdata_columns
  | EPvmBlocks _ => PvmBlocks_columns
  | ERewards _ => Rewards_columns
  | ETransactionsValidator _ => TransactionsValidator_columns
  | ETransactionsBlock _ => TransactionsBlock_columns
  | EAddressBech32 _ => AddressBech32_columns
  | EOutputAddressAccumulateOut _ => OutputAddressAccumulateOut_columns
  | EOutputAddressAccumulateIn _ => OutputAddressAccumulateIn_columns
  | EOutputTxsAccumulate _ => OutputTxsAccumulate_columns
  | EAccumulateBalancesReceived _ => AccumulateBalancesReceived_columns
  | EAccumulateBalancesSent _ => AccumulateBalancesSent_columns
  | EAccumulateBalancesTransactions _ => AccumulateBalancesTransactions_columns
  | ETransactionsRewardsOwnersAddress _ => TransactionsRewardsOwnersAddress_columns
  | ETransactionsRewardsOwnersOutputs _ => TransactionsRewardsOwnersOutputs_columns
  | ETransactionsRewardsOwners _ => TransactionsRewardsOwners_columns
  | ETxPool _ => TxPool_columns
  | EKeyValueStore _ => KeyValueStore_columns
  | ECvmTransactionsTxdataTrace _ => CvmTransactionsTxdataTrace_columns
  | ENodeIndex _ => NodeIndex_columns
  | ECvmLogs _ => CvmLogs_columns
  | EPvmProposer _ => PvmProposer_columns
  end.

Definition entity_where (e : entity) : list cond :=
  match e with
  | ETransactions v => Transactions_where v
  | EOutputsRedeeming v => OutputsRedeeming_where v
  | EOutputs v => Outputs_where v
  | EAssets v => Assets_where v
  | EAddresses v => Addresses_where v
  | EAddressChain v => AddressChain_where v
  | EOutputAddresses v => OutputAddresses_where v
  | ETransactionsEpoch v => TransactionsEpoch_where v
  | ECvmBlocks v => CvmBlocks_where v
  | ECvmAddresses v => CvmAddresses_where v
  | ECvmTransactions v => CvmTransactions_where v
  | ECvmTransactionsTxdata v => CvmTransactionsTxdata_where v
  | EPvmBlocks v => PvmBlocks_where v
  | ERewards v => Rewards_where v
  | ETransactionsValidator v => TransactionsValidator_where v
  | ETransactionsBlock v => TransactionsBlock_where v
  | EAddressBech32 v => AddressBech32_where v
  | EOutputAddressAccumulateOut v => OutputAddressAccumulateOut_where v
  | EOutputAddressAccumulateIn v => OutputAddressAccumulateIn_where v
  | EOutputTxsAccumulate v => OutputTxsAccumulate_where v
  | EAccumulateBalancesReceived v => AccumulateBalancesReceived_where v
  | EAccumulateBalancesSent v => AccumulateBalancesSent_where v
  | EAccumulateBalancesTransactions v => AccumulateBalancesTransactions_where v
  | ETransactionsRewardsOwnersAddress v => TransactionsRewardsOwnersAddress_where v
  | ETransactionsRewardsOwnersOutputs v => TransactionsRewardsOwnersOutputs_where v
  | ETransactionsRewardsOwners v => TransactionsRewardsOwners_where v
  | ETxPool v => TxPool_where v
  | EKeyValueStore v => KeyValueStore_where v
  | ECvmTransactionsTxdataTrace v => CvmTransactionsTxdataTrace_where v
  | ENodeIndex v => NodeIndex_where v
  | ECvmLogs v => CvmLogs_where v
  | EPvmProposer v => PvmProposer_where v
  end.

(** The SET clause of the update that follows the INSERT, where there is one. *)
Definition entity_sets (e : entity) : option (list (string * setexpr)) :=
  match e with
  | ETransactions v => Some (Transactions_sets v)
  | EOutputsRedeeming v => Some (OutputsRedeeming_sets v)
  | EOutputs v => Some (Outputs_sets v)
  | EAssets v => Some (Assets_sets v)
  | EAddresses v => Some (Addresses_sets v)
  | EAddressChain v => Some (AddressChain_sets v)
  | EOutputAddresses v => Some (OutputAddresses_sets v)
  | ETransactionsEpoch v => Some (TransactionsEpoch_sets v)
  | ECvmAddresses v => Some (CvmAddresses_sets v)
  | ECvmTransactions v => Some (CvmTransactions_sets v)
  | ECvmTransactionsTxdata v => Some (CvmTransactionsTxdata_sets v)
  | EPvmBlocks v => Some (PvmBlocks_sets v)
  | ERewards v => Some (Rewards_sets v)
  | ETransactionsValidator v => Some (TransactionsValidator_sets v)
  | ETransactionsBlock v => Some (TransactionsBlock_sets v)
  | EAddressBech32 v => Some (AddressBech32_sets v)
  | EOutputAddressAccumulateOut v => Some (OutputAddressAccumulateOut_sets v)
  | EOutputAddressAccumulateIn v => Some (OutputAddressAccumulateIn_sets v)
  | ETransactionsRewardsOwnersAddress v => Some (TransactionsRewardsOwnersAddress_sets v)
  | ETransactionsRewardsOwnersOutputs v => Some (TransactionsRewardsOwnersOutputs_sets v)
  | ETransactionsRewardsOwners v => Some (TransactionsRewardsOwners_sets v)
  | ECvmTransactionsTxdataTrace v => Some (CvmTransactionsTxdataTrace_sets v)
  | ENodeIndex v => Some (NodeIndex_sets v)
  | ECvmLogs v => Some (CvmLogs_sets v)
  | EPvmProposer v => Some (PvmProposer_sets v)
  | _ => None
  end.

(** The names errors are reported under: not always the table's own. *)
Definition entity_itag (e : entity) : string :=
  match e with
  | EPvmProposer _ => TableCvmTransactionsTxdataTrace
  | _ => entity_table e
  end.

Definition entity_utag (e : entity) : string :=
  match e with
  | EOutputAddressAccumulateOut _ => TableAddressBech32
  | EOutputAddressAccumulateIn _ => TableAddressBech32
  | _ => entity_table e
  end.

(** The columns of the unique key an operation selects by. *)
Definition entity_key (e : entity) : list string :=
  map (λ c, match c with CEq k _ | CNe k _ => k end) (entity_where e).

(** What a fresh row reads back as: timestamps have microseconds, and the columns
    the INSERT leaves out have their defaults. *)
Definition persisted (e : entity) : entity :=
  match e with
  | ETransactions v => ETransactions {|
      Transactions_ID := Transactions_ID v;
      Transactions_ChainID := Transactions_ChainID v;
      Transactions_Type := Transactions_Type v;
      Transactions_Memo := Transactions_Memo v;
      Transactions_CanonicalSerialization := Transactions_CanonicalSerialization v;
      Transactions_Txfee := Transactions_Txfee v;
      Transactions_NetworkID := Transactions_NetworkID v;
      Transactions_Genesis := Transactions_Genesis v;
      Transactions_CreatedAt := trunc_micro (Transactions_CreatedAt v);
    |}
  | EOutputsRedeeming v => EOutputsRedeeming {|
      OutputsRedeeming_ID := OutputsRedeeming_ID v;
      OutputsRedeeming_RedeemedAt := trunc_micro (OutputsRedeeming_RedeemedAt v);
      OutputsRedeeming_RedeemingTransactionID := OutputsRedeeming_RedeemingTransactionID v;
      OutputsRedeeming_Amount := OutputsRedeeming_Amount v;
      OutputsRedeeming_OutputIndex := OutputsRedeeming_OutputIndex v;
      OutputsRedeeming_Intx := OutputsRedeeming_Intx v;
      OutputsRedeeming_AssetID := OutputsRedeeming_AssetID v;
      OutputsRedeeming_ChainID := OutputsRedeeming_ChainID v;
      OutputsRedeeming_CreatedAt := trunc_micro (OutputsRedeeming_CreatedAt v);
    |}
  | EOutputs v => EOutputs {|
      Outputs_ID := Outputs_ID v;
      Outputs_ChainID := Outputs_ChainID v;
      Outputs_TransactionID := Outputs_TransactionID v;
      Outputs_OutputIndex := Outputs_OutputIndex v;
      Outputs_OutputType := Outputs_OutputType v;
      Outputs_AssetID := Outputs_AssetID v;
      Outputs_Amount := Outputs_Amount v;
      Outputs_Locktime := Outputs_Locktime v;
      Outputs_Threshold := Outputs_Threshold v;
      Outputs_GroupID := Outputs_GroupID v;
      Outputs_Payload := Outputs_Payload v;
      Outputs_StakeLocktime := Outputs_StakeLocktime v;
      Outputs_Stake := Outputs_Stake v;
      Outputs_Frozen := Outputs_Frozen v;
      Outputs_Stakeableout := Outputs_Stakeableout v;
      Outputs_Genesisutxo := Outputs_Genesisutxo v;
      Outputs_CreatedAt := trunc_micro (Outputs_CreatedAt v);
    |}
  | EAssets v => EAssets {|
      Assets_ID := Assets_ID v;
      Assets_ChainID := Assets_ChainID v;
      Assets_Name := Assets_Name v;
      Assets_Symbol := Assets_Symbol v;
      Assets_Denomination := Assets_Denomination v;
      Assets_Alias := Assets_Alias v;
      Assets_CurrentSupply := Assets_CurrentSupply v;
      Assets_CreatedAt := trunc_micro (Assets_CreatedAt v);
    |}
  | EAddresses v => EAddresses {|
      Addresses_Address := Addresses_Address v;
      Addresses_PublicKey := Addresses_PublicKey v;
      Addresses_CreatedAt := trunc_micro (Addresses_CreatedAt v);
      Addresses_UpdatedAt := trunc_micro (Addresses_UpdatedAt v);
    |}
  | EAddressChain v => EAddressChain {|
      AddressChain_Address := AddressChain_Address v;
      AddressChain_ChainID := AddressChain_ChainID v;
      AddressChain_CreatedAt := trunc_micro (AddressChain_CreatedAt v);
      AddressChain_UpdatedAt := trunc_micro (AddressChain_UpdatedAt v);
    |}
  | EOutputAddresses v => EOutputAddresses {|
      OutputAddresses_OutputID := OutputAddresses_OutputID v;
      OutputAddresses_Address := OutputAddresses_Address v;
      OutputAddresses_RedeemingSignature := OutputAddresses_RedeemingSignature v;
      OutputAddresses_CreatedAt := trunc_micro (OutputAddresses_CreatedAt v);
      OutputAddresses_UpdatedAt := trunc_micro (OutputAddresses_UpdatedAt v);
    |}
  | ETransactionsEpoch v => ETransactionsEpoch {|
      TransactionsEpoch_ID := TransactionsEpoch_ID v;
      TransactionsEpoch_Epoch := TransactionsEpoch_Epoch v;
      TransactionsEpoch_VertexID := TransactionsEpoch_VertexID v;
      TransactionsEpoch_CreatedAt := trunc_micro (TransactionsEpoch_CreatedAt v);
    |}
  | ECvmBlocks v => ECvmBlocks {|
      CvmBlocks_Block := CvmBlocks_Block v;
      CvmBlocks_CreatedAt := trunc_micro (CvmBlocks_CreatedAt v);
    |}
  | ECvmAddresses v => ECvmAddresses {|
      CvmAddresses_ID := CvmAddresses_ID v;
      CvmAddresses_Type := CvmAddresses_Type v;
      CvmAddresses_Idx := CvmAddresses_Idx v;
      CvmAddresses_TransactionID := CvmAddresses_TransactionID v;
      CvmAddresses_Address := CvmAddresses_Address v;
      CvmAddresses_AssetID := CvmAddresses_AssetID v;
      CvmAddresses_Amount := CvmAddresses_Amount v;
      CvmAddresses_Nonce := CvmAddresses_Nonce v;
      CvmAddresses_CreatedAt := trunc_micro (CvmAddresses_CreatedAt v);
    |}
  | ECvmTransactions v => ECvmTransactions {|
      CvmTransactions_ID := CvmTransactions_ID v;
      CvmTransactions_TransactionID := CvmTransactions_TransactionID v;
      CvmTransactions_Type := CvmTransactions_Type v;
      CvmTransactions_BlockchainID := CvmTransactions_BlockchainID v;
      CvmTransactions_Block := CvmTransactions_Block v;
      CvmTransactions_CreatedAt := trunc_micro (CvmTransactions_CreatedAt v);
      CvmTransactions_Serialization := CvmTransactions_Serialization v;
      CvmTransactions_TxTime := trunc_micro (CvmTransactions_TxTime v);
      CvmTransactions_Nonce := CvmTransactions_Nonce v;
      CvmTransactions_Hash := CvmTransactions_Hash v;
      CvmTransactions_ParentHash := CvmTransactions_ParentHash v;
    |}
  | ECvmTransactionsTxdata v => ECvmTransactionsTxdata {|
      CvmTransactionsTxdata_Hash := CvmTransactionsTxdata_Hash v;
      CvmTransactionsTxdata_Block := CvmTransactionsTxdata_Block v;
      CvmTransactionsTxdata_Idx := CvmTransactionsTxdata_Idx v;
      CvmTransactionsTxdata_Rcpt := CvmTransactionsTxdata_Rcpt v;
      CvmTransactionsTxdata_Nonce := CvmTransactionsTxdata_Nonce v;
      CvmTransactionsTxdata_Serialization := CvmTransactionsTxdata_Serialization v;
      CvmTransactionsTxdata_CreatedAt := trunc_micro (CvmTransactionsTxdata_CreatedAt v);
    |}
  | EPvmBlocks v => EPvmBlocks {|
      PvmBlocks_ID := PvmBlocks_ID v;
      PvmBlocks_ChainID := PvmBlocks_ChainID v;
      PvmBlocks_Type := PvmBlocks_Type v;
      PvmBlocks_ParentID := PvmBlocks_ParentID v;
      PvmBlocks_Serialization := PvmBlocks_Serialization v;
      PvmBlocks_CreatedAt := trunc_micro (PvmBlocks_CreatedAt v);
      PvmBlocks_Height := PvmBlocks_Height v;
    |}
  | ERewards v => ERewards {|
      Rewards_ID := Rewards_ID v;
      Rewards_BlockID := Rewards_BlockID v;
      Rewards_Txid := Rewards_Txid v;
      Rewards_Shouldprefercommit := Rewards_Shouldprefercommit v;
      Rewards_CreatedAt := trunc_micro (Rewards_CreatedAt v);
      Rewards_Processed := Rewards_Processed v;
    |}
  | ETransactionsValidator v => ETransactionsValidator {|
      TransactionsValidator_ID := TransactionsValidator_ID v;
      TransactionsValidator_NodeID := TransactionsValidator_NodeID v;
      TransactionsValidator_Start := TransactionsValidator_Start v;
      TransactionsValidator_End := TransactionsValidator_End v;
      TransactionsValidator_CreatedAt := trunc_micro (TransactionsValidator_CreatedAt v);
    |}
  | ETransactionsBlock v => ETransactionsBlock {|
      TransactionsBlock_ID := TransactionsBlock_ID v;
      TransactionsBlock_TxBlockID := TransactionsBlock_TxBlockID v;
      TransactionsBlock_CreatedAt := trunc_micro (TransactionsBlock_CreatedAt v);
    |}
  | EAddressBech32 v => EAddressBech32 {|
      AddressBech32_Address := AddressBech32_Address v;
      AddressBech32_Bech32Address := AddressBech32_Bech32Address v;
      AddressBech32_UpdatedAt := trunc_micro (AddressBech32_UpdatedAt v);
    |}
  | EOutputAddressAccumulateOut v => EOutputAddressAccumulateOut {|
      OutputAddressAccumulate_ID := OutputAddressAccumulate_ID v;
      OutputAddressAccumulate_OutputID := OutputAddressAccumulate_OutputID v;
      OutputAddressAccumulate_Address := OutputAddressAccumulate_Address v;
      OutputAddressAccumulate_Processed := 0%Z;
      OutputAddressAccumulate_OutputProcessed := 0%Z;
      OutputAddressAccumulate_TransactionID := OutputAddressAccumulate_TransactionID v;
      OutputAddressAccumulate_OutputIndex := OutputAddressAccumulate_OutputIndex v;
      OutputAddressAccumulate_CreatedAt := trunc_micro (OutputAddressAccumulate_CreatedAt v);
    |}
  | EOutputAddressAccumulateIn v => EOutputAddressAccumulateIn {|
      OutputAddressAccumulate_ID := OutputAddressAccumulate_ID v;
      OutputAddressAccumulate_OutputID := OutputAddressAccumulate_OutputID v;
      OutputAddressAccumulate_Address := OutputAddressAccumulate_Address v;
      OutputAddressAccumulate_Processed := 0%Z;
      OutputAddressAccumulate_OutputProcessed := 0%Z;
      OutputAddressAccumulate_TransactionID := OutputAddressAccumulate_TransactionID v;
      OutputAddressAccumulate_OutputIndex := OutputAddressAccumulate_OutputIndex v;
      OutputAddressAccumulate_CreatedAt := trunc_micro (OutputAddressAccumulate_CreatedAt v);
    |}
  | EOutputTxsAccumulate v => EOutputTxsAccumulate {|
      OutputTxsAccumulate_ID := OutputTxsAccumulate_ID v;
      OutputTxsAccumulate_ChainID := OutputTxsAccumulate_ChainID v;
      OutputTxsAccumulate_AssetID := OutputTxsAccumulate_AssetID v;
      OutputTxsAccumulate_Address := OutputTxsAccumulate_Address v;
      OutputTxsAccumulate_TransactionID := OutputTxsAccumulate_TransactionID v;
      OutputTxsAccumulate_Processed := 0%Z;
      OutputTxsAccumulate_CreatedAt := trunc_micro (OutputTxsAccumulate_CreatedAt v);
    |}
  | EAccumulateBalancesReceived v => EAccumulateBalancesReceived {|
      AccumulateBalancesAmount_ID := AccumulateBalancesAmount_ID v;
      AccumulateBalancesAmount_ChainID := AccumulateBalancesAmount_ChainID v;
      AccumulateBalancesAmount_AssetID := AccumulateBalancesAmount_AssetID v;
      AccumulateBalancesAmount_Address := AccumulateBalancesAmount_Address v;
      AccumulateBalancesAmount_TotalAmount := "0";
      AccumulateBalancesAmount_UtxoCount := "0";
      AccumulateBalancesAmount_UpdatedAt := trunc_micro (AccumulateBalancesAmount_UpdatedAt v);
    |}
  | EAccumulateBalancesSent v => EAccumulateBalancesSent {|
      AccumulateBalancesAmount_ID := AccumulateBalancesAmount_ID v;
      AccumulateBalancesAmount_ChainID := AccumulateBalancesAmount_ChainID v;
      AccumulateBalancesAmount_AssetID := AccumulateBalancesAmount_AssetID v;
      AccumulateBalancesAmount_Address := AccumulateBalancesAmount_Address v;
      AccumulateBalancesAmount_TotalAmount := "0";
      AccumulateBalancesAmount_UtxoCount := "0";
      AccumulateBalancesAmount_UpdatedAt := trunc_micro (AccumulateBalancesAmount_UpdatedAt v);
    |}
  | EAccumulateBalancesTransactions v => EAccumulateBalancesTransactions {|
      AccumulateBalancesTransactions_ID := AccumulateBalancesTransactions_ID v;
      AccumulateBalancesTransactions_ChainID := AccumulateBalancesTransactions_ChainID v;
      AccumulateBalancesTransactions_AssetID := AccumulateBalancesTransactions_AssetID v;
      AccumulateBalancesTransactions_Address := AccumulateBalancesTransactions_Address v;
      AccumulateBalancesTransactions_TransactionCount := "0";
      AccumulateBalancesTransactions_UpdatedAt := trunc_micro (AccumulateBalancesTransactions_UpdatedAt v);
    |}
  | ETransactionsRewardsOwnersAddress v => ETransactionsRewardsOwnersAddress {|
      TransactionsRewardsOwnersAddress_ID := TransactionsRewardsOwnersAddress_ID v;
      TransactionsRewardsOwnersAddress_Address := TransactionsRewardsOwnersAddress_Address v;
      TransactionsRewardsOwnersAddress_OutputIndex := TransactionsRewardsOwnersAddress_OutputIndex v;
      TransactionsRewardsOwnersAddress_UpdatedAt := trunc_micro (TransactionsRewardsOwnersAddress_UpdatedAt v);
    |}
  | ETransactionsRewardsOwnersOutputs v => ETransactionsRewardsOwnersOutputs {|
      TransactionsRewardsOwnersOutputs_ID := TransactionsRewardsOwnersOutputs_ID v;
      TransactionsRewardsOwnersOutputs_TransactionID := TransactionsRewardsOwnersOutputs_TransactionID v;
      TransactionsRewardsOwnersOutputs_OutputIndex := TransactionsRewardsOwnersOutputs_OutputIndex v;
      TransactionsRewardsOwnersOutputs_CreatedAt := trunc_micro (TransactionsRewardsOwnersOutputs_CreatedAt v);
    |}
  | ETransactionsRewardsOwners v => ETransactionsRewardsOwners {|
      TransactionsRewardsOwners_ID := TransactionsRewardsOwners_ID v;
      TransactionsRewardsOwners_ChainID := TransactionsRewardsOwners_ChainID v;
      TransactionsRewardsOwners_Threshold := TransactionsRewardsOwners_Threshold v;
      TransactionsRewardsOwners_Locktime := TransactionsRewardsOwners_Locktime v;
      TransactionsRewardsOwners_CreatedAt := trunc_micro (TransactionsRewardsOwners_CreatedAt v);
    |}
  | ETxPool v => ETxPool {|
      TxPool_ID := TxPool_ID v;
      TxPool_NetworkID := TxPool_NetworkID v;
      TxPool_ChainID := TxPool_ChainID v;
      TxPool_MsgKey := TxPool_MsgKey v;
      TxPool_Serialization := TxPool_Serialization v;
      TxPool_Processed := TxPool_Processed v;
      TxPool_Topic := TxPool_Topic v;
      TxPool_CreatedAt := trunc_micro (TxPool_CreatedAt v);
    |}
  | EKeyValueStore v => EKeyValueStore {|
      KeyValueStore_K := KeyValueStore_K v;
      KeyValueStore_V := KeyValueStore_V v;
    |}
  | ECvmTransactionsTxdataTrace v => ECvmTransactionsTxdataTrace {|
      CvmTransactionsTxdataTrace_Hash := CvmTransactionsTxdataTrace_Hash v;
      CvmTransactionsTxdataTrace_Idx := CvmTransactionsTxdataTrace_Idx v;
      CvmTransactionsTxdataTrace_ToAddr := CvmTransactionsTxdataTrace_ToAddr v;
      CvmTransactionsTxdataTrace_FromAddr := CvmTransactionsTxdataTrace_FromAddr v;
      CvmTransactionsTxdataTrace_CallType := CvmTransactionsTxdataTrace_CallType v;
      CvmTransactionsTxdataTrace_Type := CvmTransactionsTxdataTrace_Type v;
      CvmTransactionsTxdataTrace_Serialization := CvmTransactionsTxdataTrace_Serialization v;
      CvmTransactionsTxdataTrace_CreatedAt := trunc_micro (CvmTransactionsTxdataTrace_CreatedAt v);
    |}
  | ENodeIndex v => ENodeIndex {|
      NodeIndex_Instance := NodeIndex_Instance v;
      NodeIndex_Topic := NodeIndex_Topic v;
      NodeIndex_Idx := NodeIndex_Idx v;
    |}
  | ECvmLogs v => ECvmLogs {|
      CvmLogs_ID := CvmLogs_ID v;
      CvmLogs_BlockHash := CvmLogs_BlockHash v;
      CvmLogs_TxHash := CvmLogs_TxHash v;
      CvmLogs_LogIndex := CvmLogs_LogIndex v;
      CvmLogs_FirstTopic := CvmLogs_FirstTopic v;
      CvmLogs_Block := CvmLogs_Block v;
      CvmLogs_Removed := CvmLogs_Removed v;
      CvmLogs_CreatedAt := trunc_micro (CvmLogs_CreatedAt v);
      CvmLogs_Serialization := CvmLogs_Serialization v;
    |}
  | EPvmProposer v => EPvmProposer {|
      PvmProposer_ID := PvmProposer_ID v;
      PvmProposer_ParentID := PvmProposer_ParentID v;
      PvmProposer_BlkID := PvmProposer_BlkID v;
      PvmProposer_ProposerBlkID := PvmProposer_ProposerBlkID v;
      PvmProposer_CoreChainHeight := PvmProposer_CoreChainHeight v;
      PvmProposer_Proposer := PvmProposer_Proposer v;
      PvmProposer_TimeStamp := trunc_micro (PvmProposer_TimeStamp v);
      PvmProposer_CreatedAt := trunc_micro (PvmProposer_CreatedAt v);
    |}
  end.

(** The struct its QueryX answers for a struct its InsertX has stored.  No field of
    [PvmProposer] is named after p_chain_height: dbr maps the column
    core_chain_height to CoreChainHeight, so that the height is stored and not
    read back. *)
Definition read_back (e : entity) : entity :=
  match e with
  | EPvmProposer v => EPvmProposer {|
      PvmProposer_ID := PvmProposer_ID v;
      PvmProposer_ParentID := PvmProposer_ParentID v;
      PvmProposer_BlkID := PvmProposer_BlkID v;
      PvmProposer_ProposerBlkID := PvmProposer_ProposerBlkID v;
      PvmProposer_CoreChainHeight := 0%Z;
      PvmProposer_Proposer := PvmProposer_Proposer v;
      PvmProposer_TimeStamp := trunc_micro (PvmProposer_TimeStamp v);
      PvmProposer_CreatedAt := trunc_micro (PvmProposer_CreatedAt v);
    |}
  | _ => persisted e
  end.

(** * Operations of the interface *)
Section sql_operations.
Context `{SqlEngine D} `{!Dbr}.

Definition insert_entity (e : entity) (upd : bool) : M D unit :=
  match e with
  | ETransactions v => InsertTransactions v upd
  | EOutputsRedeeming v => InsertOutputsRedeeming v upd
  | EOutputs v => InsertOutputs v upd
  | EAssets v => InsertAssets v upd
  | EAddresses v => InsertAddresses v upd
  | EAddressChain v => InsertAddressChain v upd
  | EOutputAddresses v => InsertOutputAddresses v upd
  | ETransactionsEpoch v => InsertTransactionsEpoch v upd
  | ECvmBlocks v => InsertCvmBlocks v
  | ECvmAddresses v => InsertCvmAddresses v upd
  | ECvmTransactions v => InsertCvmTransactions v upd
  | ECvmTransactionsTxdata v => InsertCvmTransactionsTxdata v upd
  | EPvmBlocks v => InsertPvmBlocks v upd
  | ERewards v => InsertRewards v upd
  | ETransactionsValidator v => InsertTransactionsValidator v upd
  | ETransactionsBlock v => InsertTransactionsBlock v upd
  | EAddressBech32 v => InsertAddressBech32 v upd
  | EOutputAddressAccumulateOut v => InsertOutputAddressAccumulateOut v upd
  | EOutputAddressAccumulateIn v => InsertOutputAddressAccumulateIn v upd
  | EOutputTxsAccumulate v => InsertOutputTxsAccumulate v
  | EAccumulateBalancesReceived v => InsertAccumulateBalancesReceived v
  | EAccumulateBalancesSent v => InsertAccumulateBalancesSent v
  | EAccumulateBalancesTransactions v => InsertAccumulateBalancesTransactions v
  | ETransactionsRewardsOwnersAddress v => InsertTransactionsRewardsOwnersAddress v upd
  | ETransactionsRewardsOwnersOutputs v => InsertTransactionsRewardsOwnersOutputs v upd
  | ETransactionsRewardsOwners v => InsertTransactionsRewardsOwners v upd
  | ETxPool v => InsertTxPool v
  | EKeyValueStore v => InsertKeyValueStore v
  | ECvmTransactionsTxdataTrace v => InsertCvmTransactionsTxdataTrace v upd
  | ENodeIndex v => InsertNodeIndex v upd
  | ECvmLogs v => InsertCvmLogs v upd
  | EPvmProposer v => InsertPvmProposer v upd
  end.

Definition load_entity (e : entity) (r : row) : entity :=
  match e with
  | ETransactions _ => ETransactions (load_Transactions r)
  | EOutputsRedeeming _ => EOutputsRedeeming (load_OutputsRedeeming r)
  | EOutputs _ => EOutputs (load_Outputs r)
  | EAssets _ => EAssets (load_Assets r)
  | EAddresses _ => EAddresses (load_Addresses r)
  | EAddressChain _ => EAddressChain (load_AddressChain r)
  | EOutputAddresses _ => EOutputAddresses (load_OutputAddresses r)
  | ETransactionsEpoch _ => ETransactionsEpoch (load_TransactionsEpoch r)
  | ECvmBlocks _ => ECvmBlocks (load_CvmBlocks r)
  | ECvmAddresses _ => ECvmAddresses (load_CvmAddresses r)
  | ECvmTransactions _ => ECvmTransactions (load_CvmTransactions r)
  | ECvmTransactionsTxdata _ => ECvmTransactionsTxdata (load_CvmTransactionsTxdata r)
  | EPvmBlocks _ => EPvmBlocks (load_PvmBlocks r)
  | ERewards _ => ERewards (load_Rewards r)
  | ETransactionsValidator _ => ETransactionsValidator (load_TransactionsValidator r)
  | ETransactionsBlock _ => ETransactionsBlock (load_TransactionsBlock r)
  | EAddressBech32 _ => EAddressBech32 (load_AddressBech32 r)
  | EOutputAddressAccumulateOut _ => EOutputAddressAccumulateOut (load_OutputAddressAccumulate r)
  | EOutputAddressAccumulateIn _ => EOutputAddressAccumulateIn (load_OutputAddressAccumulate r)
  | EOutputTxsAccumulate _ => EOutputTxsAccumulate (load_OutputTxsAccumulate r)
  | EAccumulateBalancesReceived _ => EAccumulateBalancesReceived (load_AccumulateBalancesAmount r)
  | EAccumulateBalancesSent _ => EAccumulateBalancesSent (load_AccumulateBalancesAmount r)
  | EAccumulateBalancesTransactions _ => EAccumulateBalancesTransactions (load_AccumulateBalancesTransactions r)
  | ETransactionsRewardsOwnersAddress _ => ETransactionsRewardsOwnersAddress (load_TransactionsRewardsOwnersAddress r)
  | ETransactionsRewardsOwnersOutputs _ => ETransactionsRewardsOwnersOutputs (load_TransactionsRewardsOwnersOutputs r)
  | ETransactionsRewardsOwners _ => ETransactionsRewardsOwners (load_TransactionsRewardsOwners r)
  | ETxPool _ => ETxPool (load_TxPool r)
  | EKeyValueStore _ => EKeyValueStore (load_KeyValueStore r)
  | ECvmTransactionsTxdataTrace _ => ECvmTransactionsTxdataTrace (load_CvmTransactionsTxdataTrace r)
  | ENodeIndex _ => ENodeIndex (load_NodeIndex r)
  | ECvmLogs _ => ECvmLogs (load_CvmLogs r)
  | EPvmProposer _ => EPvmProposer (load_PvmProposer r)
  end.

Definition query_entity (e : entity) : M D (entity * option error) :=
  match e with
  | ETransactions v => q ← QueryTransactions v; mret (ETransactions q.1, q.2)
  | EOutputsRedeeming v => q ← QueryOutputsRedeeming v; mret (EOutputsRedeeming q.1, q.2)
  | EOutputs v => q ← QueryOutputs v; mret (EOutputs q.1, q.2)
  | EAssets v => q ← QueryAssets v; mret (EAssets q.1, q.2)
  | EAddresses v => q ← QueryAddresses v; mret (EAddresses q.1, q.2)
  | EAddressChain v => q ← QueryAddressChain v; mret (EAddressChain q.1, q.2)
  | EOutputAddresses v => q ← QueryOutputAddresses v; mret (EOutputAddresses q.1, q.2)
  | ETransactionsEpoch v => q ← QueryTransactionsEpoch v; mret (ETransactionsEpoch q.1, q.2)
  | ECvmBlocks v => q ← QueryCvmBlocks v; mret (ECvmBlocks q.1, q.2)
  | ECvmAddresses v => q ← QueryCvmAddresses v; mret (ECvmAddresses q.1, q.2)
  | ECvmTransactions v => q ← QueryCvmTransactions v; mret (ECvmTransactions q.1, q.2)
  | ECvmTransactionsTxdata v => q ← QueryCvmTransactionsTxdata v; mret (ECvmTransactionsTxdata q.1, q.2)
  | EPvmBlocks v => q ← QueryPvmBlocks v; mret (EPvmBlocks q.1, q.2)
  | ERewards v => q ← QueryRewards v; mret (ERewards q.1, q.2)
  | ETransactionsValidator v => q ← QueryTransactionsValidator v; mret (ETransactionsValidator q.1, q.2)
  | ETransactionsBlock v => q ← QueryTransactionsBlock v; mret (ETransactionsBlock q.1, q.2)
  | EAddressBech32 v => q ← QueryAddressBech32 v; mret (EAddressBech32 q.1, q.2)
  | EOutputAddressAccumulateOut v => q ← QueryOutputAddressAccumulateOut v; mret (EOutputAddressAccumulateOut q.1, q.2)
  | EOutputAddressAccumulateIn v => q ← QueryOutputAddressAccumulateIn v; mret (EOutputAddressAccumulateIn q.1, q.2)
  | EOutputTxsAccumulate v => q ← QueryOutputTxsAccumulate v; mret (EOutputTxsAccumulate q.1, q.2)
  | EAccumulateBalancesReceived v => q ← QueryAccumulateBalancesReceived v; mret (EAccumulateBalancesReceived q.1, q.2)
  | EAccumulateBalancesSent v => q ← QueryAccumulateBalancesSent v; mret (EAccumulateBalancesSent q.1, q.2)
  | EAccumulateBalancesTransactions v => q ← QueryAccumulateBalancesTransactions v; mret (EAccumulateBalancesTransactions q.1, q.2)
  | ETransactionsRewardsOwnersAddress v => q ← QueryTransactionsRewardsOwnersAddress v; mret (ETransactionsRewardsOwnersAddress q.1, q.2)
  | ETransactionsRewardsOwnersOutputs v => q ← QueryTransactionsRewardsOwnersOutputs v; mret (ETransactionsRewardsOwnersOutputs q.1, q.2)
  | ETransactionsRewardsOwners v => q ← QueryTransactionsRewardsOwners v; mret (ETransactionsRewardsOwners q.1, q.2)
  | ETxPool v => q ← QueryTxPool v; mret (ETxPool q.1, q.2)
  | EKeyValueStore v => q ← QueryKeyValueStore v; mret (EKeyValueStore q.1, q.2)
  | ECvmTransactionsTxdataTrace v => q ← QueryCvmTransactionsTxdataTrace v; mret (ECvmTransactionsTxdataTrace q.1, q.2)
  | ENodeIndex v => q ← QueryNodeIndex v; mret (ENodeIndex q.1, q.2)
  | ECvmLogs v => q ← QueryCvmLogs v; mret (ECvmLogs q.1, q.2)
  | EPvmProposer v => q ← QueryPvmProposer v; mret (EPvmProposer q.1, q.2)
  end.
End sql_operations.

Ltac unfold_loads :=
  unfold load_AccumulateBalancesAmount, load_AccumulateBalancesTransactions,
    load_AddressBech32, load_AddressChain, load_Addresses, load_Assets, load_CvmAddresses,
    load_CvmBlocks, load_CvmLogs, load_CvmTransactions, load_CvmTransactionsTxdata,
    load_CvmTransactionsTxdataTrace, load_KeyValueStore, load_NodeIndex,
    load_OutputAddressAccumulate, load_OutputAddresses, load_OutputTxsAccumulate,
    load_Outputs, load_OutputsRedeeming, load_PvmBlocks, load_PvmProposer, load_Rewards,
    load_Transactions, load_TransactionsBlock, load_TransactionsEpoch,
    load_TransactionsRewardsOwners, load_TransactionsRewardsOwnersAddress,
    load_TransactionsRewardsOwnersOutputs, load_TransactionsValidator, load_TxPool.

(** * The SQL implementation *)
Section facts.
Context `{SqlEngine D} `{!Dbr}.

Lemma insert_entity_shape e upd :
  insert_entity (D:=D) e upd =
  match entity_sets e with
  | Some sets =>
      insert_upd (Insert (entity_table e) (entity_pairs e)) (entity_itag e)
        (Update (entity_table e) sets (entity_where e)) (entity_utag e) upd
  | None => exec_ignore_dup (Insert (entity_table e) (entity_pairs e)) (entity_itag e)
  end.
Proof. by destruct e. Qed.

Lemma query_load_map {A B} t cols w (load : row → A) (f : A → B) (d : D) :
  (q ← query_load t cols w load; mret (f q.1, q.2)) d =
  query_load t cols w (λ r, f (load r)) d.
Proof.
  unfold query_load. rewrite !bind_run. by destruct (attempt _ d) as [? [[[]|]|]].
Qed.

Lemma query_entity_shape e (d : D) :
  query_entity e d =
  query_load (entity_table e) (entity_columns e) (entity_where e) (load_entity e) d.
Proof. destruct e; (eapply eq_trans; [eapply query_load_map | reflexivity]). Qed.
End facts.

(** Key facts, by computation on each table's columns. *)
Lemma entity_key_unique e : entity_key e ∈ unique_keys (entity_table e).
Proof. destruct e; vm_compute; repeat (left || right). Qed.

Lemma entity_where_key e :
  entity_where e = key_where (entity_key e) (new_row (entity_table e) (entity_pairs e)).
Proof.
  unfold key_where. destruct e; cbn -[new_row lookup];
  rewrite ?lookup_new_row; reflexivity.
Qed.

Lemma literal_not_null s : literal s ≠ VNull.
Proof. unfold literal. repeat case_match; done. Qed.

Lemma as_bytes_vbytes b : as_bytes (Some (vbytes b)) = b.
Proof. by destruct b. Qed.

Lemma entity_key_set e :
  key_set (entity_key e) (new_row (entity_table e) (entity_pairs e)) = true.
Proof.
  unfold key_set. apply forallb_forall. intros c Hc. apply bool_decide_eq_true.
  destruct e; cbn in Hc; destruct Hc as [<-|Hc]; try (destruct Hc as [<-|[]]); try done;
    rewrite lookup_new_row; cbn; try done; apply literal_not_null.
Qed.

(** The update writes the columns the INSERT writes, the same values. *)
Lemma entity_sets_insert e sets :
  entity_sets e = Some sets →
  apply_sets sets (new_row (entity_table e) (entity_pairs e)) =
  new_row (entity_table e) (entity_pairs e).
Proof.
  intros E. apply apply_sets_id. apply Forall_forall. intros [c s] Hin. simpl.
  setoid_rewrite lookup_new_row.
  destruct e as [| | | | | |v| | | | | | | | | | | | | | | | | | | | | | | | |];
    simplify_eq/=; unfold OutputAddresses_sets, OutputAddresses_pairs in *;
    try destruct (OutputAddresses_RedeemingSignature v) eqn:?; simpl in Hin;
    repeat (apply elem_of_cons in Hin as [[= -> ->]|Hin]; [by eexists|]);
    by apply elem_of_nil in Hin.
Qed.

(** The update leaves the key of the row alone, and sets each column once. *)
Lemma entity_sets_key e sets c :
  entity_sets e = Some sets → c ∈ map fst sets → c ∉ entity_key e.
Proof.
  intros E Hc Hk.
  assert (forallb (λ c, negb (existsb (String.eqb c) (entity_key e))) (map fst sets) = true) as Hb.
  { destruct e as [| | | | | |v| | | | | | | | | | | | | | | | | | | | | | | | |];
      simplify_eq/=; unfold OutputAddresses_sets;
      try destruct (OutputAddresses_RedeemingSignature v); reflexivity. }
  rewrite forallb_forall in Hb. specialize (Hb c ltac:(by apply list_elem_of_In)).
  apply negb_true_iff in Hb. apply not_true_iff_false in Hb. apply Hb, existsb_exists.
  exists c. split; [by apply list_elem_of_In | apply String.eqb_refl].
Qed.

Lemma entity_sets_NoDup e sets : entity_sets e = Some sets → NoDup (map fst sets).
Proof.
  intros E. apply (proj1 (bool_decide_eq_true (NoDup (map fst sets)))).
  destruct e as [| | | | | |v| | | | | | | | | | | | | | | | | | | | | | | | |];
    simplify_eq/=; unfold OutputAddresses_sets;
    try destruct (OutputAddresses_RedeemingSignature v); vm_compute; reflexivity.
Qed.

Section persisted.
Context `{!Dbr} `{!DbrOk}.

Lemma load_persisted e :
  load_entity e (restrict (entity_columns e) (new_row (entity_table e) (entity_pairs e))) =
  read_back e.
Proof.
  destruct e as [| | | | | |v| | | | | | | | | | | | | | | | | | | | | | | | |];
    cbn [load_entity entity_columns entity_table entity_pairs persisted read_back];
    f_equal; unfold_loads;
    repeat (erewrite NameMapping_ok by reflexivity);
    rewrite !lookup_restrict, !lookup_new_row; cbn -[as_str as_bytes vbytes literal];
    rewrite ?as_str_literal, ?as_bytes_vbytes; try reflexivity.
  f_equal. by destruct (OutputAddresses_RedeemingSignature v).
Qed.
End persisted.

(** * Write operations of [db.Persist] as data *)
Inductive pop :=
| PInsert (e : entity) (upd : bool)
| PUpdateOutputAddresses (v : OutputAddresses)
| PUpdateRewardsProcessed (v : Rewards)
| PUpdateOutputAddressAccumulateInOutputsProcessed (id : string)
| PUpdateTxPoolStatus (v : TxPool)
| PUpdateNodeIndex (v : NodeIndex).

(** The interface: what the rest of the program writes through. *)
Class Persist (S : Type) := { perform : pop → M S unit }.

#[export] Instance sql_persist `{SqlEngine D} : Persist D := {
  perform o :=
    match o with
    | PInsert e upd => insert_entity e upd
    | PUpdateOutputAddresses v => UpdateOutputAddresses v
    | PUpdateRewardsProcessed v => UpdateRewardsProcessed v
    | PUpdateOutputAddressAccumulateInOutputsProcessed id =>
        UpdateOutputAddressAccumulateInOutputsProcessed id
    | PUpdateTxPoolStatus v => UpdateTxPoolStatus v
    | PUpdateNodeIndex v => UpdateNodeIndex v
    end;
}.

(** The table an operation writes, and the only one. *)
Definition pop_table (o : pop) : string :=
  match o with
  | PInsert e _ => entity_table e
  | PUpdateOutputAddresses _ => TableOutputAddresses
  | PUpdateRewardsProcessed _ => TableRewards
  | PUpdateOutputAddressAccumulateInOutputsProcessed _ => TableOutputAddressAccumulateIn
  | PUpdateTxPoolStatus _ => TableTxPool
  | PUpdateNodeIndex _ => TableNodeIndex
  end.

(** The SET and WHERE clauses of the update an operation makes. *)
Definition pop_update (o : pop) : option (list (string * setexpr) * list cond) :=
  match o with
  | PInsert e false => None
  | PInsert e true => sets ← entity_sets e; Some (sets, entity_where e)
  | PUpdateOutputAddresses v =>
      Some ([("redeeming_signature", SetVal (vbytes (OutputAddresses_RedeemingSignature v)));
             ("updated_at", SetVal (vtime (OutputAddresses_UpdatedAt v)))],
            OutputAddresses_where v)
  | PUpdateRewardsProcessed v =>
      Some ([("processed", SetVal (VNum (Rewards_Processed v)))], Rewards_where v)
  | PUpdateOutputAddressAccumulateInOutputsProcessed id =>
      Some ([("output_processed", SetVal (VNum 1))],
            [CEq "output_id" (VStr id); CNe "output_processed" (VNum 1)])
  | PUpdateTxPoolStatus v =>
      Some ([("processed", SetVal (VNum (TxPool_Processed v)))], TxPool_where v)
  | PUpdateNodeIndex v => Some ([("idx", SetVal (VNum (NodeIndex_Idx v)))], NodeIndex_where v)
  end.

Definition pop_pairs (o : pop) : option (list (string * value)) :=
  match o with PInsert e _ => Some (entity_pairs e) | _ => None end.

(** The statements an operation can execute. *)
Definition pop_stmts (o : pop) : list stmt :=
  match pop_pairs o with Some ps => [Insert (pop_table o) ps] | None => [] end ++
  match pop_update o with Some (sets, w) => [Update (pop_table o) sets w] | None => [] end.

(** The abstract effect of an operation that returns no error: the row is
    inserted unless its key is taken, then the update is made. *)
Definition pop_effect (o : pop) (c c' : content) : Prop :=
  ∃ c1,
    match pop_pairs o with
    | Some ps => insert_or_keep (pop_table o) ps c c1
    | None => c ≡ᶜ c1
    end ∧
    match pop_update o with
    | Some (sets, w) => updated (pop_table o) sets w c1 c'
    | None => c1 ≡ᶜ c'
    end.

#[global] Instance updated_proper t sets w :
  Proper (content_eq ==> content_eq ==> iff) (updated t sets w).
Proof.
  intros c1 c2 E c1' c2' E'. unfold updated.
  rewrite (E t), (E' t). split; intros [? Ho]; (split; [done|]); intros t' Ht;
    specialize (Ho t' Ht); [by rewrite <-(E t'), <-(E' t') | by rewrite (E t'), (E' t')].
Qed.

#[global] Instance inserted_proper t ps :
  Proper (content_eq ==> content_eq ==> iff) (inserted t ps).
Proof.
  intros c1 c2 E c1' c2' E'. unfold inserted.
  rewrite (E t), (E' t). split; intros (? & ? & Ho); (split; [done|]); (split; [done|]);
    intros t' Ht; specialize (Ho t' Ht);
    [by rewrite <-(E t'), <-(E' t') | by rewrite (E t'), (E' t')].
Qed.

#[global] Instance insert_or_keep_proper t ps :
  Proper (content_eq ==> content_eq ==> iff) (insert_or_keep t ps).
Proof.
  intros c1 c2 E c1' c2' E'. unfold insert_or_keep. by rewrite (E t), E, E'.
Qed.

#[global] Instance pop_effect_proper o :
  Proper (content_eq ==> content_eq ==> iff) (pop_effect o).
Proof.
  intros c1 c2 E c1' c2' E'. unfold pop_effect.
  destruct (pop_pairs o); destruct (pop_update o) as [[]|];
    split; intros (c & H1 & H2); exists c;
    (split; [first [by rewrite <-E | by rewrite E] | first [by rewrite <-E' | by rewrite E']]).
Qed.

Section perform.
Context `{SqlEngine D} `{!SqlEngineOk D}.
Implicit Types d : D.

(** ** What every statement of an operation keeps, the operation keeps *)
Section invariant.
Context (P : D → Prop) (ok : stmt → Prop) (HP : ∀ st d, ok st → P d → P (exec st d).1).

Lemma exec_ignore_dup_invariant st tag d : ok st → P d → P (exec_ignore_dup st tag d).1.
Proof.
  intros Hst Hd. unfold exec_ignore_dup, attempt. rewrite bind_run.
  pose proof (HP st d Hst Hd). destruct (exec st d) as [d1 [[]|e]]; simpl in *; [done|].
  by destruct (ErrIsDuplicateEntryError e).
Qed.

Lemma exec_report_invariant st tag d : ok st → P d → P (exec_report st tag d).1.
Proof.
  intros Hst Hd. unfold exec_report, attempt. rewrite bind_run.
  pose proof (HP st d Hst Hd). by destruct (exec st d) as [d1 [[]|e]].
Qed.

Lemma insert_upd_invariant ins itag upds utag (upd : bool) d :
  ok ins → (upd = true → ok upds) → P d → P (insert_upd ins itag upds utag upd d).1.
Proof.
  intros Hi Hup Hd. unfold insert_upd. rewrite bind_run.
  pose proof (exec_ignore_dup_invariant ins itag d Hi Hd).
  destruct (exec_ignore_dup ins itag d) as [d1 [[]|e]]; simpl in *; [|done].
  destruct upd; [apply exec_report_invariant; auto | done].
Qed.

Lemma perform_invariant o d : Forall ok (pop_stmts o) → P d → P (perform o d).1.
Proof.
  intros Hok Hd. destruct o; cbn [perform sql_persist].
  1: { rewrite insert_entity_shape. unfold pop_stmts in Hok.
       cbn [pop_pairs pop_update pop_table app] in Hok.
       apply Forall_cons in Hok as [Hi Hok].
       destruct (entity_sets e) as [sets|] eqn:Es; [|by apply exec_ignore_dup_invariant].
       apply insert_upd_invariant; [done| |done].
       intros ->. cbn in Hok. by inversion Hok. }
  all: unfold pop_stmts in Hok; simpl in Hok; apply Forall_cons in Hok as [Hi _];
    first [by apply exec_report_invariant | by apply exec_ignore_dup_invariant].
Qed.
End invariant.

Lemma exec_unique st d : unique_content (rows d) → unique_content (rows (exec st d).1).
Proof.
  intros Hu. destruct (exec st d) as [d' [[]|e]] eqn:E; simpl; destruct st as [t ps|t sets w].
  - apply exec_insert in E. by eapply inserted_unique.
  - apply exec_update in E as [[Ht Ho] Hn]. intros t'. destruct (decide (t' = t)) as [->|Hne].
    + by apply Hn.
    + by rewrite (Ho t' Hne).
  - apply exec_insert_err in E as [E _]. by rewrite <-E.
  - apply exec_update_err in E as [E _]. by rewrite <-E.
Qed.

Lemma perform_unique o d : unique_content (rows d) → unique_content (rows (perform o d).1).
Proof.
  apply (perform_invariant (λ d, unique_content (rows d)) (λ _, True));
    [intros; by apply exec_unique | by apply Forall_true].
Qed.

Lemma keeps_saved_perform o : keeps_saved (perform (S:=D) o).
Proof.
  intros d. apply (perform_invariant (λ d', saved d' = saved d) (λ _, True)); [|by apply Forall_true|done].
  intros st d' _ <-. apply exec_saved.
Qed.

(** ** Functional effect *)
Lemma perform_ok o d d' :
  unique_content (rows d) → perform o d = (d', Ok tt) → pop_effect o (rows d) (rows d').
Proof.
  intros Hu. unfold pop_effect. destruct o; cbn [perform sql_persist pop_pairs pop_update pop_table].
  - rewrite insert_entity_shape. intros E. destruct (entity_sets e) as [sets|], upd; simpl.
    + by apply insert_upd_true_ok in E.
    + apply insert_upd_false_ok in E. by exists (rows d').
    + apply insert_ignore_dup_ok in E. by exists (rows d').
    + apply insert_ignore_dup_ok in E. by exists (rows d').
  - intros [E _]%update_report_ok. by exists (rows d).
  - intros E. apply update_ignore_dup_ok in E; [|done|apply Hu]. by exists (rows d).
  - intros E. apply update_ignore_dup_ok in E; [|done|apply Hu]. by exists (rows d).
  - intros E. apply update_ignore_dup_ok in E; [|done|apply Hu]. by exists (rows d).
  - intros [E _]%update_report_ok. by exists (rows d).
Qed.

(** An operation that fails has at most inserted its row. *)
Lemma perform_err o d d' e :
  perform o d = (d', Err e) →
  rows d ≡ᶜ rows d' ∨
  ∃ ps, pop_pairs o = Some ps ∧ insert_or_keep (pop_table o) ps (rows d) (rows d').
Proof.
  destruct o; cbn [perform sql_persist pop_pairs pop_table].
  - rewrite insert_entity_shape. destruct (entity_sets e0) as [sets|], upd; intros E;
      try (left; first [by eapply insert_upd_false_err | by eapply insert_ignore_dup_err]).
    unfold insert_upd in E. rewrite bind_run in E.
    destruct (exec_ignore_dup _ _ d) as [d1 [[]|e1]] eqn:E1.
    + right. eexists. split; [done|]. apply insert_ignore_dup_ok in E1.
      apply update_report_err in E. by rewrite <-E.
    + simplify_eq. left. by eapply insert_ignore_dup_err.
  - intros E. left. by eapply update_report_err.
  - intros E. left. by eapply update_ignore_dup_err.
  - intros E. left. by eapply update_ignore_dup_err.
  - intros E. left. by eapply update_ignore_dup_err.
  - intros E. left. by eapply update_report_err.
Qed.
End perform.

(** An operation touches one table. *)
Lemma pop_effect_frame o c c' t : pop_effect o c c' → t ≠ pop_table o → c' t ≡ₚ c t.
Proof.
  intros (c1 & H1 & H2) Hne.
  assert (c1 t ≡ₚ c t) as E1.
  { destruct (pop_pairs o) as [ps|]; [|by rewrite (H1 t)].
    destruct H1 as [(_ & _ & Ho)|[_ E]]; [by apply Ho | by rewrite (E t)]. }
  rewrite <-E1. destruct (pop_update o) as [[sets w]|]; [|by rewrite (H2 t)].
  by apply H2.
Qed.

(** An operation that makes no update changes nothing when its key is taken. *)
Lemma pop_effect_replay o c c' :
  pop_update o = None →
  (∀ ps, pop_pairs o = Some ps → clashes (pop_table o) (new_row (pop_table o) ps) (c (pop_table o)) = true) →
  pop_effect o c c' → c ≡ᶜ c'.
Proof.
  intros Hn Hc (c1 & H1 & H2). rewrite Hn in H2. rewrite <-H2.
  destruct (pop_pairs o) as [ps|]; [|done]. specialize (Hc ps eq_refl).
  destruct H1 as [(Hf & _)|[_ E]]; [congruence | done].
Qed.

#[export] Hint Resolve keeps_saved_perform perform_unique : magellan.

(** * What an implementation of the interface promises

    [stored s e]: the store has a row for [e].  Inserting a row stores it, and
    the operations that do not rewrite rows wholesale keep what is stored. *)
Definition gentle (o : pop) : Prop :=
  match o with PInsert _ upd => upd = false | _ => True end.

Class PersistOk (S : Type) `{!Persist S} := {
  stored : S → entity → Prop;
  insert_stored e s s' : perform (PInsert e false) s = (s', Ok tt) → stored s' e;
  stored_kept o e s : gentle o → stored s e → stored (perform o s).1 e;
}.

Section sql_stored.
Context `{SqlEngine D} `{!SqlEngineOk D}.

Definition sql_stored (d : D) (e : entity) : Prop :=
  clashes (entity_table e) (new_row (entity_table e) (entity_pairs e))
    (rows d (entity_table e)) = true.

Lemma clashes_cons t r x rs : clashes t r rs = true → clashes t r (x :: rs) = true.
Proof.
  unfold clashes. rewrite !existsb_exists. intros (k & Hk & Hr). exists k. split; [done|].
  simpl. by rewrite Hr, orb_true_r.
Qed.

Lemma clashes_update t r sets w rs :
  sets_no_key t sets = true → clashes t r (map (update_row sets w) rs) = clashes t r rs.
Proof.
  intros Hs. unfold sets_no_key in Hs. rewrite forallb_forall in Hs. unfold clashes.
  apply eq_true_iff_eq. rewrite !existsb_exists.
  assert (∀ k, In k (unique_keys t) → ∀ x, project k (update_row sets w x) = project k x) as Hp.
  { intros k Hk x. unfold update_row, project. destruct (matches w x); [|done].
    apply map_ext_in. intros c Hc. apply lookup_apply_sets_ne. intros Hin.
    specialize (Hs k Hk). rewrite forallb_forall in Hs. specialize (Hs c Hc).
    apply negb_true_iff, not_true_iff_false in Hs. apply Hs, existsb_exists.
    exists c. split; [by apply list_elem_of_In | apply String.eqb_refl]. }
  split; intros (k & Hk & Hr); exists k; (split; [done|]); revert Hr;
    rewrite !existsb_exists; intros (x & Hx & Hb).
  - apply in_map_iff in Hx as (y & <- & Hy). rewrite Hp in Hb by done. eauto.
  - exists (update_row sets w x). split; [by apply in_map|]. by rewrite Hp.
Qed.

(** Statements that set no column of a unique key keep the rows' keys. *)
Definition key_preserving (st : stmt) : Prop :=
  match st with Insert _ _ => True | Update t sets _ => sets_no_key t sets = true end.

Lemma exec_stored st d e : key_preserving st → sql_stored d e → sql_stored (exec st d).1 e.
Proof.
  unfold sql_stored. intros Hk Hs.
  destruct (exec st d) as [d' [[]|x]] eqn:E, st as [t ps|t sets w]; simpl in *.
  - apply exec_insert in E as (_ & Ht & Ho). destruct (decide (entity_table e = t)) as [<-|Hne].
    + rewrite Ht. by apply clashes_cons.
    + by rewrite (Ho _ Hne).
  - apply exec_update in E as [[Ht Ho] _]. destruct (decide (entity_table e = t)) as [<-|Hne].
    + rewrite Ht. by rewrite clashes_update.
    + by rewrite (Ho _ Hne).
  - apply exec_insert_err in E as [E _]. by rewrite <-(E (entity_table e)).
  - apply exec_update_err in E as [E _]. by rewrite <-(E (entity_table e)).
Qed.

Lemma gentle_key_preserving o : gentle o → Forall key_preserving (pop_stmts o).
Proof. destruct o as [e []| | | | |]; simpl; try done; intros _; repeat constructor. Qed.

Lemma insert_or_keep_clashes t ps c c' :
  unique_keys t ≠ [] → insert_or_keep t ps c c' → clashes t (new_row t ps) (c' t) = true.
Proof.
  intros Hk [(_ & Ht & _)|[Hc E]]; [|by rewrite <-(E t)].
  rewrite Ht. apply not_false_iff_true. rewrite clashes_false. intros Hn.
  destruct (unique_keys t) as [|k ks]; [done|].
  apply (Hn k (new_row t ps)); [left|left|done].
Qed.

Lemma entity_unique_keys e : unique_keys (entity_table e) ≠ [].
Proof. intros E. pose proof (entity_key_unique e) as Hin. rewrite E in Hin. by apply elem_of_nil in Hin. Qed.
End sql_stored.

#[export] Instance sql_persist_ok `{SqlEngine D} `{!SqlEngineOk D} : PersistOk D.
Proof.
  refine {| stored := sql_stored |}.
  - intros e d d' E. unfold sql_stored. cbn [perform sql_persist] in E. rewrite insert_entity_shape in E.
    apply (insert_or_keep_clashes _ _ (rows d)); [apply entity_unique_keys|].
    destruct (entity_sets e); [by eapply insert_upd_false_ok | by eapply insert_ignore_dup_ok].
  - intros o e d Ho. apply (perform_invariant (λ d, sql_stored d e) key_preserving).
    + intros. by apply exec_stored.
    + by apply gentle_key_preserving.
Defined.
