(* ===== verification/Persistence.v ===== *)
(** What the SQL implementation of the persistence layer promises: round trips,
    overwriting, replay, and the tables as typed lists of structs, each write changing
    what it says and nothing else. *)

From S2P Require Import Prelude Errors Sql MemDb Axia DbModel Persist.

(** * The columns of the tables

    The types the migrations of services/db/migrations give the columns: a row holds a
    value of its type in each of them.  A [timestamp(6)] has microseconds; a number
    that the program writes as a text of digits is compared as the text it is. *)
Inductive coltype := TText | TNum | TFlag | TBlob | TTime | TDecimal.

#[global] Instance coltype_eq_dec : EqDecision coltype.
Proof. solve_decision. Defined.

Definition has_type (ty : coltype) (v : option value) : bool :=
  match ty, v with
  | TText, Some (VStr _) => true
  | TNum, Some (VNum _) => true
  | TFlag, Some (VBool _) => true
  | TBlob, Some (VBytes _ | VNull) => true
  | TTime, Some (VTime t) => bool_decide (trunc_micro t = t)
  | TDecimal, Some w => bool_decide (w = literal (as_str v))
  | _, _ => false
  end.

Definition schema : list (string * list (string * coltype)) :=
  [(TableTransactions, [("id", TText); ("chain_id", TText); ("type", TText); ("memo", TBlob);
      ("created_at", TTime); ("canonical_serialization", TBlob); ("txfee", TNum);
      ("genesis", TFlag); ("network_id", TNum)]);
   (TableOutputsRedeeming, [("id", TText); ("redeemed_at", TTime); ("redeeming_transaction_id", TText);
      ("amount", TNum); ("output_index", TNum); ("intx", TText); ("asset_id", TText);
      ("created_at", TTime); ("chain_id", TText)]);
   (TableOutputs, [("id", TText); ("chain_id", TText); ("transaction_id", TText);
      ("output_index", TNum); ("asset_id", TText); ("output_type", TNum); ("amount", TNum);
      ("locktime", TNum); ("threshold", TNum); ("group_id", TNum); ("payload", TBlob);
      ("stake_locktime", TNum); ("stake", TFlag); ("frozen", TFlag);
      ("stakeableout", TFlag); ("genesisutxo", TFlag); ("created_at", TTime)]);
   (TableAssets, [("id", TText); ("name", TText); ("symbol", TText); ("denomination", TNum);
      ("alias", TText); ("current_supply", TNum); ("created_at", TTime)]);
   (TableAddresses, [("address", TText); ("public_key", TBlob); ("created_at", TTime);
      ("updated_at", TTime)]);
   (TableAddressChain, [("address", TText); ("chain_id", TText); ("created_at", TTime);
      ("updated_at", TTime)]);
   (TableOutputAddresses, [("output_id", TText); ("address", TText); ("created_at", TTime);
      ("updated_at", TTime); ("redeeming_signature", TBlob)]);
   (TableTransactionsEpochs, [("id", TText); ("epoch", TNum); ("vertex_id", TText); ("created_at", TTime)]);
   (TableCvmBlocks, [("block", TDecimal); ("created_at", TTime)]);
   (TableCvmAddresses, [("id", TText); ("type", TNum); ("idx", TNum); ("transaction_id", TText);
      ("address", TText); ("asset_id", TText); ("amount", TNum); ("nonce", TNum);
      ("created_at", TTime)]);
   (TableCvmTransactions, [("id", TText); ("transaction_id", TText); ("type", TNum); ("blockchain_id", TText);
      ("created_at", TTime); ("block", TDecimal); ("serialization", TBlob);
      ("tx_time", TTime); ("nonce", TNum); ("hash", TText); ("parent_hash", TText)]);
   (TableCvmTransactionsTxdata, [("hash", TText); ("block", TDecimal); ("idx", TNum); ("rcpt", TText);
      ("nonce", TNum); ("serialization", TBlob); ("created_at", TTime)]);
   (TablePvmBlocks, [("id", TText); ("chain_id", TText); ("type", TNum); ("parent_id", TText);
      ("created_at", TTime); ("serialization", TBlob); ("height", TNum)]);
   (TableRewards, [("id", TText); ("block_id", TText); ("txid", TText); ("shouldprefercommit", TFlag);
      ("created_at", TTime); ("processed", TNum)]);
   (TableTransactionsValidator, [("id", TText); ("node_id", TText); ("start", TNum); ("end", TNum);
      ("created_at", TTime)]);
   (TableTransactionsBlock, [("id", TText); ("tx_block_id", TText); ("created_at", TTime)]);
   (TableAddressBech32, [("address", TText); ("bech32_address", TText); ("updated_at", TTime)]);
   (TableOutputAddressAccumulateOut, [("id", TText); ("output_id", TText); ("address", TText); ("transaction_id", TText);
      ("output_index", TNum); ("created_at", TTime); ("processed", TNum)]);
   (TableOutputAddressAccumulateIn, [("id", TText); ("output_id", TText); ("address", TText); ("transaction_id", TText);
      ("output_index", TNum); ("created_at", TTime); ("processed", TNum);
      ("output_processed", TNum)]);
   (TableOutputTxsAccumulate, [("id", TText); ("chain_id", TText); ("asset_id", TText); ("address", TText);
      ("transaction_id", TText); ("created_at", TTime); ("processed", TNum)]);
   (TableAccumulateBalancesReceived, [("id", TText); ("chain_id", TText); ("asset_id", TText); ("address", TText);
      ("updated_at", TTime); ("total_amount", TNum); ("utxo_count", TNum)]);
   (TableAccumulateBalancesSent, [("id", TText); ("chain_id", TText); ("asset_id", TText); ("address", TText);
      ("updated_at", TTime); ("total_amount", TNum); ("utxo_count", TNum)]);
   (TableAccumulateBalancesTransactions, [("id", TText); ("chain_id", TText); ("asset_id", TText); ("address", TText);
      ("updated_at", TTime); ("transaction_count", TNum)]);
   (TableTransactionsRewardsOwnersAddress, [("id", TText); ("address", TText); ("output_index", TNum); ("updated_at", TTime)]);
   (TableTransactionsRewardsOwnersOutputs, [("id", TText); ("transaction_id", TText); ("output_index", TNum);
      ("created_at", TTime)]);
   (TableTransactionsRewardsOwners, [("id", TText); ("chain_id", TText); ("locktime", TNum); ("threshold", TNum);
      ("created_at", TTime)]);
   (TableTxPool, [("id", TText); ("network_id", TNum); ("chain_id", TText); ("msg_key", TText);
      ("serialization", TBlob); ("processed", TNum); ("topic", TText);
      ("created_at", TTime)]);
   (TableKeyValueStore, [("k", TText); ("v", TText)]);
   (TableCvmTransactionsTxdataTrace, [("hash", TText); ("idx", TNum); ("to_addr", TText); ("from_addr", TText);
      ("call_type", TText); ("type", TText); ("serialization", TBlob);
      ("created_at", TTime)]);
   (TableNodeIndex, [("instance", TText); ("topic", TText); ("idx", TNum)]);
   (TableCvmLogs, [("id", TText); ("block_hash", TText); ("tx_hash", TText); ("log_index", TNum);
      ("first_topic", TText); ("block", TDecimal); ("removed", TFlag);
      ("created_at", TTime); ("serialization", TBlob)]);
   (TablePvmProposer, [("id", TText); ("parent_id", TText); ("blk_id", TText); ("p_chain_height", TNum);
      ("proposer", TText); ("time_stamp", TTime); ("created_at", TTime);
      ("proposer_blk_id", TText)])].

Definition table_columns (t : string) : list (string * coltype) := default [] (assoc t schema).

Definition row_typed (t : string) (r : row) : bool :=
  forallb (λ c, has_type c.2 (r !! c.1)) (table_columns t).

Definition well_typed (c : content) : Prop := ∀ t r, r ∈ c t → row_typed t r = true.

(** * What the operations do to the structs of a table *)

(** The fields a struct is found by. *)
Definition entity_id (e : entity) : list string :=
  match e with
  | ETransactions v => [Transactions_ID v]
  | EOutputsRedeeming v => [OutputsRedeeming_ID v]
  | EOutputs v => [Outputs_ID v]
  | EAssets v => [Assets_ID v]
  | EAddresses v => [Addresses_Address v]
  | EAddressChain v => [AddressChain_Address v; AddressChain_ChainID v]
  | EOutputAddresses v => [OutputAddresses_OutputID v; OutputAddresses_Address v]
  | ETransactionsEpoch v => [TransactionsEpoch_ID v]
  | ECvmBlocks v => [CvmBlocks_Block v]
  | ECvmAddresses v => [CvmAddresses_ID v]
  | ECvmTransactions v => [CvmTransactions_ID v]
  | ECvmTransactionsTxdata v => [CvmTransactionsTxdata_Hash v]
  | EPvmBlocks v => [PvmBlocks_ID v]
  | ERewards v => [Rewards_ID v]
  | ETransactionsValidator v => [TransactionsValidator_ID v]
  | ETransactionsBlock v => [TransactionsBlock_ID v]
  | EAddressBech32 v => [AddressBech32_Address v]
  | EOutputAddressAccumulateOut v => [OutputAddressAccumulate_ID v]
  | EOutputAddressAccumulateIn v => [OutputAddressAccumulate_ID v]
  | EOutputTxsAccumulate v => [OutputTxsAccumulate_ID v]
  | EAccumulateBalancesReceived v => [AccumulateBalancesAmount_ID v]
  | EAccumulateBalancesSent v => [AccumulateBalancesAmount_ID v]
  | EAccumulateBalancesTransactions v => [AccumulateBalancesTransactions_ID v]
  | ETransactionsRewardsOwnersAddress v =>
      [TransactionsRewardsOwnersAddress_ID v; TransactionsRewardsOwnersAddress_Address v]
  | ETransactionsRewardsOwnersOutputs v => [TransactionsRewardsOwnersOutputs_ID v]
  | ETransactionsRewardsOwners v => [TransactionsRewardsOwners_ID v]
  | ETxPool v => [TxPool_ID v]
  | EKeyValueStore v => [KeyValueStore_K v]
  | ECvmTransactionsTxdataTrace v =>
      [CvmTransactionsTxdataTrace_Hash v; Z_to_string (CvmTransactionsTxdataTrace_Idx v)]
  | ENodeIndex v => [NodeIndex_Instance v; NodeIndex_Topic v]
  | ECvmLogs v => [CvmLogs_ID v]
  | EPvmProposer v => [PvmProposer_ID v]
  end.

Definition keep_marks (o v : OutputAddressAccumulate) : OutputAddressAccumulate := {|
  OutputAddressAccumulate_ID := OutputAddressAccumulate_ID v;
  OutputAddressAccumulate_OutputID := OutputAddressAccumulate_OutputID v;
  OutputAddressAccumulate_Address := OutputAddressAccumulate_Address v;
  OutputAddressAccumulate_Processed := OutputAddressAccumulate_Processed o;
  OutputAddressAccumulate_OutputProcessed := OutputAddressAccumulate_OutputProcessed o;
  OutputAddressAccumulate_TransactionID := OutputAddressAccumulate_TransactionID v;
  OutputAddressAccumulate_OutputIndex := OutputAddressAccumulate_OutputIndex v;
  OutputAddressAccumulate_CreatedAt := trunc_micro (OutputAddressAccumulate_CreatedAt v);
|}.

(** The struct that InsertX leaves when it updates the stored struct [old] with [new]:
    the new one, but for redeemed_at of a redeeming, processed of a reward, the marks of
    the accumulation, a signature when there is no new one, and the field of the height
    of a proposer, which the column does not fill; the tables whose InsertX has no flag
    keep the old struct. *)
Definition overwritten (old new : entity) : entity :=
  match new, old with
  | EOutputsRedeeming v, EOutputsRedeeming o => EOutputsRedeeming {|
      OutputsRedeeming_ID := OutputsRedeeming_ID v;
      OutputsRedeeming_RedeemedAt := OutputsRedeeming_RedeemedAt o;
      OutputsRedeeming_RedeemingTransactionID := OutputsRedeeming_RedeemingTransactionID v;
      OutputsRedeeming_Amount := OutputsRedeeming_Amount v;
      OutputsRedeeming_OutputIndex := OutputsRedeeming_OutputIndex v;
      OutputsRedeeming_Intx := OutputsRedeeming_Intx v;
      OutputsRedeeming_AssetID := OutputsRedeeming_AssetID v;
      OutputsRedeeming_ChainID := OutputsRedeeming_ChainID v;
      OutputsRedeeming_CreatedAt := trunc_micro (OutputsRedeeming_CreatedAt v);
    |}
  | ERewards v, ERewards o => ERewards {|
      Rewards_ID := Rewards_ID v;
      Rewards_BlockID := Rewards_BlockID v;
      Rewards_Txid := Rewards_Txid v;
      Rewards_Shouldprefercommit := Rewards_Shouldprefercommit v;
      Rewards_CreatedAt := trunc_micro (Rewards_CreatedAt v);
      Rewards_Processed := Rewards_Processed o;
    |}
  | EOutputAddresses v, EOutputAddresses o => EOutputAddresses {|
      OutputAddresses_OutputID := OutputAddresses_OutputID v;
      OutputAddresses_Address := OutputAddresses_Address v;
      OutputAddresses_RedeemingSignature :=
        match OutputAddresses_RedeemingSignature v with
        | Some s => Some s
        | None => OutputAddresses_RedeemingSignature o
        end;
      OutputAddresses_CreatedAt := trunc_micro (OutputAddresses_CreatedAt v);
      OutputAddresses_UpdatedAt := trunc_micro (OutputAddresses_UpdatedAt v);
    |}
  | EOutputAddressAccumulateOut v, EOutputAddressAccumulateOut o =>
      EOutputAddressAccumulateOut (keep_marks o v)
  | EOutputAddressAccumulateIn v, EOutputAddressAccumulateIn o =>
      EOutputAddressAccumulateIn (keep_marks o v)
  | EPvmProposer v, EPvmProposer o => EPvmProposer {|
      PvmProposer_ID := PvmProposer_ID v;
      PvmProposer_ParentID := PvmProposer_ParentID v;
      PvmProposer_BlkID := PvmProposer_BlkID v;
      PvmProposer_ProposerBlkID := PvmProposer_ProposerBlkID v;
      PvmProposer_CoreChainHeight := PvmProposer_CoreChainHeight o;
      PvmProposer_Proposer := PvmProposer_Proposer v;
      PvmProposer_TimeStamp := trunc_micro (PvmProposer_TimeStamp v);
      PvmProposer_CreatedAt := trunc_micro (PvmProposer_CreatedAt v);
    |}
  | ECvmBlocks _, _ | EOutputTxsAccumulate _, _ | EAccumulateBalancesReceived _, _
  | EAccumulateBalancesSent _, _ | EAccumulateBalancesTransactions _, _
  | ETxPool _, _ | EKeyValueStore _, _ => old
  | _, _ => read_back new
  end.

(** A stored struct after an UpdateX. *)
Definition updated_struct (o : pop) (x : entity) : entity :=
  match o, x with
  | PUpdateOutputAddresses v, EOutputAddresses a =>
      if decide (OutputAddresses_OutputID a = OutputAddresses_OutputID v ∧
                 OutputAddresses_Address a = OutputAddresses_Address v)
      then EOutputAddresses {|
        OutputAddresses_OutputID := OutputAddresses_OutputID a;
        OutputAddresses_Address := OutputAddresses_Address a;
        OutputAddresses_RedeemingSignature := OutputAddresses_RedeemingSignature v;
        OutputAddresses_CreatedAt := OutputAddresses_CreatedAt a;
        OutputAddresses_UpdatedAt := trunc_micro (OutputAddresses_UpdatedAt v);
      |}
      else x
  | PUpdateRewardsProcessed v, ERewards a =>
      if decide (Rewards_ID a = Rewards_ID v)
      then ERewards {|
        Rewards_ID := Rewards_ID a;
        Rewards_BlockID := Rewards_BlockID a;
        Rewards_Txid := Rewards_Txid a;
        Rewards_Shouldprefercommit := Rewards_Shouldprefercommit a;
        Rewards_CreatedAt := Rewards_CreatedAt a;
        Rewards_Processed := Rewards_Processed v;
      |}
      else x
  | PUpdateOutputAddressAccumulateInOutputsProcessed id, EOutputAddressAccumulateIn a =>
      if decide (OutputAddressAccumulate_OutputID a = id)
      then EOutputAddressAccumulateIn {|
        OutputAddressAccumulate_ID := OutputAddressAccumulate_ID a;
        OutputAddressAccumulate_OutputID := OutputAddressAccumulate_OutputID a;
        OutputAddressAccumulate_Address := OutputAddressAccumulate_Address a;
        OutputAddressAccumulate_Processed := OutputAddressAccumulate_Processed a;
        OutputAddressAccumulate_OutputProcessed := 1;
        OutputAddressAccumulate_TransactionID := OutputAddressAccumulate_TransactionID a;
        OutputAddressAccumulate_OutputIndex := OutputAddressAccumulate_OutputIndex a;
        OutputAddressAccumulate_CreatedAt := OutputAddressAccumulate_CreatedAt a;
      |}
      else x
  | PUpdateTxPoolStatus v, ETxPool a =>
      if decide (TxPool_ID a = TxPool_ID v)
      then ETxPool {|
        TxPool_ID := TxPool_ID a;
        TxPool_NetworkID := TxPool_NetworkID a;
        TxPool_ChainID := TxPool_ChainID a;
        TxPool_MsgKey := TxPool_MsgKey a;
        TxPool_Serialization := TxPool_Serialization a;
        TxPool_Processed := TxPool_Processed v;
        TxPool_Topic := TxPool_Topic a;
        TxPool_CreatedAt := TxPool_CreatedAt a;
      |}
      else x
  | PUpdateNodeIndex v, ENodeIndex a =>
      if decide (NodeIndex_Instance a = NodeIndex_Instance v ∧ NodeIndex_Topic a = NodeIndex_Topic v)
      then ENodeIndex {|
        NodeIndex_Instance := NodeIndex_Instance a;
        NodeIndex_Topic := NodeIndex_Topic a;
        NodeIndex_Idx := NodeIndex_Idx v;
      |}
      else x
  | _, _ => x
  end.

(** A struct of the table an operation writes. *)
Definition pop_kind (o : pop) : entity :=
  match o with
  | PInsert e _ => e
  | PUpdateOutputAddresses v => EOutputAddresses v
  | PUpdateRewardsProcessed v => ERewards v
  | PUpdateOutputAddressAccumulateInOutputsProcessed id =>
      EOutputAddressAccumulateIn (mkOutputAddressAccumulate "" id "" 0 0 "" 0 0)
  | PUpdateTxPoolStatus v => ETxPool v
  | PUpdateNodeIndex v => ENodeIndex v
  end.

(** The structs of a table, and what a write makes of them; [taken]: a stored row has
    one of the unique keys of the struct. *)
Definition structs `{!Dbr} (e : entity) (c : content) : list entity :=
  map (load_entity e) (c (entity_table e)).
Definition taken (e : entity) (c : content) : bool :=
  clashes (entity_table e) (new_row (entity_table e) (entity_pairs e)) (c (entity_table e)).
Definition inserted_struct (e : entity) (t : bool) (l : list entity) : list entity :=
  if t then l else read_back e :: l.
Definition after (o : pop) (t : bool) (l : list entity) : list entity :=
  match o with
  | PInsert e false => inserted_struct e t l
  | PInsert e true =>
      map (λ x, if decide (entity_id x = entity_id e) then overwritten x e else x) (inserted_struct e t l)
  | _ => map (updated_struct o) l
  end.

Section lemmas.
Context `{SqlEngine D} `{!SqlEngineOk D}.
Implicit Types d : D.

(** The answer of a query, from the content. *)
Lemma query_load_answer {A} t cols w (load : row → A) d d' q :
  query_load t cols w load d = (d', Ok q) →
  rows d ≡ᶜ rows d' ∧
  ((∃ e, (poll d).2 = Err e ∧ q = (load ∅, Some e)) ∨
   q = match load_one t cols w (rows d') with
       | Some r => (load r, None)
       | None => (load ∅, Some ErrNotFound)
       end).
Proof.
  unfold query_load, attempt, query_one. rewrite bind_run.
  pose proof (select_rows (load_one t cols w) d) as Hr.
  destruct (select (load_one t cols w) d) as [d1 [o|e]] eqn:E; intros [= <- <-];
    (split; [done|]).
  - right. apply select_ok in E as [_ ->]. by destruct (load_one _ _ _ _).
  - left. exists e. split; [|done]. unfold select in E. rewrite bind_run in E.
    by destruct (poll d) as [d2 [[]|e2]]; simplify_eq.
Qed.

(** The row an insertion leaves under its key, when the key was free. *)
Lemma insert_entity_found e upd d d' :
  clashes (entity_table e) (new_row (entity_table e) (entity_pairs e))
    (rows d (entity_table e)) = false →
  pop_effect (PInsert e upd) (rows d) (rows d') →
  found (entity_where e) (rows d' (entity_table e)) =
    [new_row (entity_table e) (entity_pairs e)].
Proof.
  intros Hc (c1 & H1 & H2). simpl in H1, H2. destruct H1 as [Hi|[Hc' _]]; [|congruence].
  pose proof (inserted_found _ _ (entity_key e) _ _ Hi (entity_key_unique e)
                (entity_key_set e)) as Hf.
  rewrite <-entity_where_key in Hf.
  destruct upd; [|by eapply found_perm_singleton].
  destruct (entity_sets e) as [sets|] eqn:Es; simpl in H2; [|by eapply found_perm_singleton].
  rewrite <-(entity_sets_insert e sets Es). eapply found_update; [done|done|].
  intros r0 Hr0. rewrite matches_apply_sets; [done|]. intros c Hin.
  by eapply entity_sets_key.
Qed.

Lemma found_clashes e r (rs : list row) :
  r ∈ found (entity_where e) rs →
  clashes (entity_table e) (new_row (entity_table e) (entity_pairs e)) rs = true.
Proof.
  unfold found. rewrite list_elem_of_In, filter_In, <-list_elem_of_In. intros [Hin Hm].
  apply not_false_iff_true. rewrite clashes_false. intros Hn.
  apply (Hn (entity_key e) r (entity_key_unique e) Hin).
  rewrite entity_where_key in Hm. apply key_where_matches in Hm; [done|apply entity_key_set].
Qed.

Lemma perform_replay_rows e d d1 d2 :
  unique_content (rows d) →
  perform (PInsert e false) d = (d1, Ok tt) →
  perform (PInsert e false) d1 = (d2, Ok tt) → rows d1 ≡ᶜ rows d2.
Proof.
  intros Hu E1 E2.
  assert (unique_content (rows d1)) as Hu1.
  { pose proof (perform_unique (PInsert e false) d Hu) as Hp. by rewrite E1 in Hp. }
  apply perform_ok in E1 as (c & Hc & E1); [|done]. apply perform_ok in E2; [|done].
  simpl in Hc, E1. apply pop_effect_replay in E2; [done|done|].
  intros ps [= <-]. simpl. rewrite <-(E1 (entity_table e)).
  eapply insert_or_keep_clashes; [apply entity_unique_keys|done].
Qed.
(** The rows found by the key of a struct: one at most. *)
Lemma found_entity_unique e (c : content) r rs :
  unique_content c → found (entity_where e) (c (entity_table e)) = r :: rs → rs = [].
Proof.
  intros Hu Hf. specialize (Hu (entity_table e) (entity_key e) (entity_key_unique e)).
  unfold found in Hf. revert Hf Hu. generalize (c (entity_table e)). rewrite entity_where_key.
  intros l. revert r rs. induction l as [|x l IH]; intros r rs; [done|]. cbn [List.filter map].
  destruct (matches _ x) eqn:Ex; [|rewrite NoDup_cons; intros Hf [_ Hu]; by eapply IH].
  intros [= -> Hl]. rewrite NoDup_cons. intros [Hni _]. destruct rs as [|y rs]; [done|]. exfalso. apply Hni.
  assert (y ∈ y :: rs) as Hy by left. rewrite <-Hl in Hy.
  apply list_elem_of_In, filter_In in Hy as [Hy Ey].
  apply key_where_matches in Ex; [|apply entity_key_set]. apply key_where_matches in Ey; [|apply entity_key_set].
  apply list_elem_of_fmap. exists y. split; [by rewrite <-Ex, <-Ey|by apply list_elem_of_In].
Qed.

(** The rows an UPDATE does not find stay as they are. *)
Lemma unfound_update w sets (l : list row) :
  (∀ r, matches w r = true → matches w (apply_sets sets r) = true) →
  List.filter (λ r, negb (matches w r)) (map (update_row sets w) l) = List.filter (λ r, negb (matches w r)) l.
Proof.
  intros Hk. induction l as [|r l IH]; [done|]. cbn [map List.filter]. unfold update_row at 1 2.
  destruct (matches w r) eqn:Er; cbn [negb]; [by rewrite Hk|]. by rewrite Er, IH.
Qed.
End lemmas.

Lemma assoc_elem {A} c (l : list (string * A)) s : assoc c l = Some s → (c, s) ∈ l.
Proof.
  induction l as [|[k v] l IH]; simpl; [done|].
  destruct (String.eqb_spec c k) as [->|Hne]; [intros [= ->]; left|intros E; right; by apply IH].
Qed.

Lemma assoc_NoDup {A} c (l : list (string * A)) s : NoDup (map fst l) → (c, s) ∈ l → assoc c l = Some s.
Proof.
  induction l as [|[k v] l IH]; simpl; intros Hnd Hin; [by apply elem_of_nil in Hin|].
  apply NoDup_cons in Hnd as [Hni Hnd]. apply elem_of_cons in Hin as [[= -> ->]|Hin]; [by rewrite String.eqb_refl|].
  destruct (String.eqb_spec c k) as [->|Hne]; [|by apply IH].
  destruct Hni. apply list_elem_of_fmap. by exists (k, s).
Qed.

(** * Rows and structs *)
Lemma lookup_sets sets (r : row) c :
  NoDup (map fst sets) → Forall (λ cs, ∃ v, cs.2 = SetVal v) sets →
  apply_sets sets r !! c =
    match assoc c sets with Some (SetVal v) => Some v | _ => r !! c end.
Proof.
  intros Hnd Hv. destruct (assoc c sets) as [s|] eqn:Ea.
  - apply assoc_elem in Ea. rewrite Forall_forall in Hv. destruct (Hv _ Ea) as [v E]. simpl in E. subst s.
    by apply lookup_apply_sets.
  - apply lookup_apply_sets_ne. intros (cs & -> & Hin)%list_elem_of_fmap. destruct cs as [k s].
    clear Hnd Hv. induction sets as [|[k' s'] sets IH]; [by apply elem_of_nil in Hin|]. simpl in Ea.
    destruct (String.eqb_spec k k') as [->|Hne]; [done|]. apply elem_of_cons in Hin as [[= ]|Hin]; [done|by apply IH].
Qed.

Lemma entity_sets_vals e sets :
  entity_sets e = Some sets → Forall (λ cs, ∃ v, cs.2 = SetVal v) sets.
Proof.
  intros E. destruct e as [| | | | | |v| | | | | | | | | | | | | | | | | | | | | | | | |];
    simplify_eq/=; unfold OutputAddresses_sets; try destruct (OutputAddresses_RedeemingSignature v);
    repeat constructor; by eexists.
Qed.

Lemma has_type_time t : has_type TTime (Some (vtime t)) = true.
Proof. unfold vtime. cbn [has_type]. by rewrite trunc_micro_idemp, bool_decide_true. Qed.
Lemma has_type_blob b : has_type TBlob (Some (vbytes b)) = true.
Proof. by destruct b. Qed.
Lemma has_type_decimal s : has_type TDecimal (Some (literal s)) = true.
Proof. cbn [has_type]. by rewrite as_str_literal, bool_decide_true. Qed.

Ltac typed_values :=
  rewrite ?has_type_time, ?has_type_blob, ?has_type_decimal; try reflexivity.

Lemma new_row_typed e : row_typed (entity_table e) (new_row (entity_table e) (entity_pairs e)) = true.
Proof.
  unfold row_typed.
  transitivity (forallb (λ c, has_type c.2 (assoc c.1 (entity_pairs e ++ column_defaults (entity_table e))))
                  (table_columns (entity_table e))).
  { generalize (table_columns (entity_table e)). induction l as [|[c ty] l IH]; [done|].
    cbn [forallb fst snd]. by rewrite lookup_new_row, IH. }
  apply forallb_forall, List.Forall_forall.
  destruct e as [| | | | | |v| | | | | | | | | | | | | | | | | | | | | | | | |];
    cbn [entity_pairs]; unfold OutputAddresses_pairs; try destruct (OutputAddresses_RedeemingSignature v);
    lazy -[has_type vtime vbytes literal]; repeat constructor; typed_values.
Qed.

Lemma apply_sets_typed t sets r :
  NoDup (map fst sets) →
  Forall (λ cs, ∃ v, cs.2 = SetVal v ∧ match assoc cs.1 (table_columns t) with
                                       | Some ty => has_type ty (Some v) | None => true end = true) sets →
  NoDup (map fst (table_columns t)) →
  row_typed t r = true → row_typed t (apply_sets sets r) = true.
Proof.
  unfold row_typed. rewrite !forallb_forall. intros Hnd Hs Hn Hr [c ty] Hc. specialize (Hr _ Hc). simpl in *.
  rewrite lookup_sets; [|done|by eapply Forall_impl; [exact Hs|intros ? (v & ? & _); by exists v]].
  destruct (assoc c sets) as [s|] eqn:Ea; [|done]. apply assoc_elem in Ea.
  rewrite Forall_forall in Hs. destruct (Hs _ Ea) as (v & Ev & Hv). simpl in *. subst s.
  apply list_elem_of_In in Hc. by rewrite (assoc_NoDup _ _ _ Hn Hc) in Hv.
Qed.

(** Finding a row is finding its struct. *)
Lemma row_typed_col t r c ty :
  assoc c (table_columns t) = Some ty → row_typed t r = true → has_type ty (r !! c) = true.
Proof.
  intros Ha%assoc_elem Hr. unfold row_typed in Hr. rewrite forallb_forall in Hr.
  apply (Hr (c, ty)). by apply list_elem_of_In.
Qed.

(** The comparison of a typed column with the value of a field. *)
Lemma key_text r c s : has_type TText (r !! c) = true → cond_holds r (CEq c (VStr s)) = true ↔ as_str (r !! c) = s.
Proof.
  unfold cond_holds. rewrite bool_decide_eq_true. destruct (r !! c) as [[]|]; try done. simpl. naive_solver.
Qed.
Lemma key_num r c z : has_type TNum (r !! c) = true → cond_holds r (CEq c (VNum z)) = true ↔ as_num (r !! c) = z.
Proof.
  unfold cond_holds. rewrite bool_decide_eq_true. destruct (r !! c) as [[]|]; try done. simpl. naive_solver.
Qed.
Lemma key_decimal r c s :
  has_type TDecimal (r !! c) = true → cond_holds r (CEq c (literal s)) = true ↔ as_str (r !! c) = s.
Proof.
  unfold cond_holds. rewrite bool_decide_eq_true. destruct (r !! c) as [v|]; [|done].
  cbn [has_type]. rewrite bool_decide_eq_true. intros Hv. split.
  - intros [[= ->] _]. apply as_str_literal.
  - intros <-. rewrite <-Hv. split; [done|]. rewrite Hv. apply literal_not_null.
Qed.

Lemma singleton_eq {A} (x y : A) : [x] = [y] ↔ x = y.
Proof. naive_solver. Qed.
Lemma pair_list_eq {A} (x y x' y' : A) : [x; x'] = [y; y'] ↔ x = y ∧ x' = y'.
Proof. naive_solver. Qed.
Lemma Z_text_eq x y : Z_to_string x = Z_to_string y ↔ x = y.
Proof. split; [apply Z_to_string_inj|by intros ->]. Qed.

Section structs.
Context `{!Dbr} `{!DbrOk}.

Lemma matches_entity_id e r :
  row_typed (entity_table e) r = true →
  matches (entity_where e) r = bool_decide (entity_id (load_entity e r) = entity_id e).
Proof.
  intros Hr. apply eq_true_iff_eq. rewrite bool_decide_eq_true.
  destruct e; cbn [entity_table] in Hr; cbn [entity_where load_entity entity_id];
    unfold_loads; cbn -[NameMapping as_str as_num Z_to_string literal cond_holds];
    repeat (erewrite NameMapping_ok by reflexivity);
    rewrite ?andb_true_r, ?andb_true_iff, ?singleton_eq, ?pair_list_eq, ?Z_text_eq;
    repeat (rewrite key_text || rewrite key_num || rewrite key_decimal); try done;
    by (eapply row_typed_col; [|exact Hr]; reflexivity).
Qed.

(** The struct of a row after an UPDATE. *)
Lemma load_changed e sets r r' :
  entity_sets e = Some sets → entity_id (load_entity e r) = entity_id e →
  (∀ c, r' !! c = match assoc c sets with Some (SetVal v) => Some v | _ => r !! c end) →
  load_entity e r' = overwritten (load_entity e r) e.
Proof.
  intros Es Hid Hl.
  destruct e as [| | | | | |v| | | | | | | | | | | | | | | | | | | | | | | | |];
    cbn [entity_sets] in Es; try done; injection Es as <-;
    cbn [load_entity overwritten read_back persisted entity_id] in *; f_equal;
    unfold_loads; unfold keep_marks, OutputAddresses_sets in *;
    try destruct (OutputAddresses_RedeemingSignature v); cbn -[NameMapping as_str as_num as_bool as_bytes as_time] in Hid |- *;
    repeat (erewrite NameMapping_ok by reflexivity; rewrite ?Hl);
    repeat (erewrite NameMapping_ok in Hid by reflexivity);
    cbn -[vbytes literal as_str as_bytes lookup] in *; rewrite ?as_str_literal, ?as_bytes_vbytes;
    rewrite ?singleton_eq, ?pair_list_eq, ?Z_text_eq in Hid; destruct_and?; f_equal; done.
Qed.

Lemma load_overwritten e sets r :
  entity_sets e = Some sets → entity_id (load_entity e r) = entity_id e →
  load_entity e (apply_sets sets r) = overwritten (load_entity e r) e.
Proof.
  intros Es Hid. eapply load_changed; [done..|]. intros c.
  apply lookup_sets; [by eapply entity_sets_NoDup|by eapply entity_sets_vals].
Qed.

(** The UPDATE sets no column that the query leaves out. *)
Lemma entity_sets_columns e sets c s :
  entity_sets e = Some sets → assoc c sets = Some s → existsb (String.eqb c) (entity_columns e) = true.
Proof.
  intros Es Ea%assoc_elem. revert c s Ea.
  assert (forallb (λ cs, existsb (String.eqb cs.1) (entity_columns e)) sets = true) as Hb.
  { destruct e as [| | | | | |v| | | | | | | | | | | | | | | | | | | | | | | | |];
      cbn [entity_sets] in Es; try done; injection Es as <-; unfold OutputAddresses_sets;
      try destruct (OutputAddresses_RedeemingSignature v); reflexivity. }
  rewrite forallb_forall in Hb. intros c s Hin%list_elem_of_In. by apply (Hb (c, s)).
Qed.

Lemma load_overwritten_restrict e sets r :
  entity_sets e = Some sets → entity_id (load_entity e (restrict (entity_columns e) r)) = entity_id e →
  load_entity e (restrict (entity_columns e) (apply_sets sets r)) =
  overwritten (load_entity e (restrict (entity_columns e) r)) e.
Proof.
  intros Es Hid. eapply load_changed; [done..|]. intros c. rewrite !lookup_restrict.
  rewrite lookup_sets; [|by eapply entity_sets_NoDup|by eapply entity_sets_vals].
  destruct (assoc c sets) as [s|] eqn:Ea; [|done]. by rewrite (entity_sets_columns e sets c s).
Qed.

Lemma load_kept e x : entity_sets e = None → overwritten x e = x.
Proof. by destruct e. Qed.

(** A row found by the key of a struct has its key. *)
Lemma found_id e r :
  matches (entity_where e) r = true →
  entity_id (load_entity e (restrict (entity_columns e) r)) = entity_id e.
Proof.
  intros Hm.
  assert (∀ k v, CEq k v ∈ entity_where e → r !! k = Some v) as Hk.
  { intros k v Hin. unfold matches in Hm. rewrite forallb_forall in Hm. apply list_elem_of_In in Hin.
    specialize (Hm _ Hin). cbn in Hm. by apply bool_decide_eq_true in Hm as [-> _]. }
  clear Hm.
  destruct e; cbn [entity_where entity_columns load_entity entity_id] in *; unfold_loads;
    cbn -[NameMapping as_str as_num Z_to_string restrict];
    repeat (erewrite NameMapping_ok by reflexivity); rewrite ?lookup_restrict; cbn -[as_str as_num Z_to_string];
    repeat (erewrite Hk by (left || (right; left))); rewrite ?as_str_literal; done.
Qed.

Lemma load_new_row e : load_entity e (new_row (entity_table e) (entity_pairs e)) = read_back e.
Proof.
  destruct e as [| | | | | |v| | | | | | | | | | | | | | | | | | | | | | | | |];
    cbn [load_entity entity_table entity_pairs read_back persisted];
    unfold_loads; unfold OutputAddresses_pairs; try destruct (OutputAddresses_RedeemingSignature v) as [sig|];
    repeat (erewrite NameMapping_ok by reflexivity; rewrite ?lookup_new_row);
    cbn -[as_str as_bytes vbytes literal]; rewrite ?as_str_literal, ?as_bytes_vbytes; try done.
Qed.
(** ** The effect of a write on the structs of its table *)
Lemma structs_proper e (c c' : content) : c ≡ᶜ c' → structs e c ≡ₚ structs e c'.
Proof. intros E. unfold structs. by rewrite (E (entity_table e)). Qed.

Lemma well_typed_proper (c c' : content) : c ≡ᶜ c' → well_typed c → well_typed c'.
Proof. intros E Ht t r Hr. apply Ht. by rewrite (E t). Qed.

Lemma insert_or_keep_structs e (c c' : content) :
  insert_or_keep (entity_table e) (entity_pairs e) c c' → well_typed c →
  well_typed c' ∧ structs e c' ≡ₚ inserted_struct e (taken e c) (structs e c) ∧
  ∀ t, t ≠ entity_table e → c' t ≡ₚ c t.
Proof.
  intros [(Hc & Ht & Ho)|[Hc E]] Hty; unfold taken; rewrite Hc.
  - split_and!; [|unfold structs; rewrite Ht; cbn [map]; by rewrite load_new_row|done].
    intros t r Hr. destruct (decide (t = entity_table e)) as [->|Hne].
    + rewrite Ht in Hr. apply elem_of_cons in Hr as [->|Hr]; [apply new_row_typed|by apply Hty].
    + rewrite (Ho t Hne) in Hr. by apply Hty.
  - split_and!; [by eapply well_typed_proper|by rewrite (structs_proper e _ _ E)|].
    intros t _. by rewrite (E t).
Qed.

(** An UPDATE that does [f] to the struct of every typed row. *)
Lemma updated_structs e sets w f (c c' : content) :
  updated (entity_table e) sets w c c' → well_typed c →
  (∀ r, row_typed (entity_table e) r = true →
     row_typed (entity_table e) (update_row sets w r) = true ∧
     load_entity e (update_row sets w r) = f (load_entity e r)) →
  well_typed c' ∧ structs e c' ≡ₚ map f (structs e c).
Proof.
  intros [Ht Ho] Hty Hf. split.
  - intros t r Hr. destruct (decide (t = entity_table e)) as [->|Hne].
    + rewrite Ht in Hr. apply list_elem_of_fmap in Hr as (r0 & -> & Hr0). by apply Hf, Hty.
    + rewrite (Ho t Hne) in Hr. by apply Hty.
  - unfold structs. rewrite Ht, !map_map. erewrite map_ext_in; [done|].
    intros r Hr. apply Hf, Hty. by apply list_elem_of_In.
Qed.

Lemma table_columns_NoDup e : NoDup (map fst (table_columns (entity_table e))).
Proof. apply (bool_decide_unpack _). destruct e; vm_compute; done. Qed.

(** The values an UPDATE sets have the types of their columns. *)
Lemma entity_sets_typed e sets r :
  entity_sets e = Some sets → row_typed (entity_table e) r = true →
  row_typed (entity_table e) (apply_sets sets r) = true.
Proof.
  intros Es Hr. apply apply_sets_typed; [by eapply entity_sets_NoDup| |apply table_columns_NoDup|done].
  destruct e as [| | | | | |v| | | | | | | | | | | | | | | | | | | | | | | | |];
    cbn [entity_sets] in Es; try done; injection Es as <-; unfold OutputAddresses_sets;
    try destruct (OutputAddresses_RedeemingSignature v); cbn [app];
    repeat (apply Forall_cons; split; [eexists; split; [reflexivity|]|]); try apply Forall_nil_2;
    lazy -[has_type vtime vbytes literal]; typed_values.
Qed.

Lemma insert_update_struct e sets r :
  entity_sets e = Some sets → row_typed (entity_table e) r = true →
  row_typed (entity_table e) (update_row sets (entity_where e) r) = true ∧
  load_entity e (update_row sets (entity_where e) r) =
    (if decide (entity_id (load_entity e r) = entity_id e) then overwritten (load_entity e r) e
     else load_entity e r).
Proof.
  intros Es Hr. unfold update_row. rewrite (matches_entity_id e r Hr).
  destruct (decide (entity_id (load_entity e r) = entity_id e)) as [Hid|Hid].
  - rewrite bool_decide_true by done. split; [by apply entity_sets_typed|by apply load_overwritten].
  - by rewrite bool_decide_false.
Qed.

Lemma map_if_kept e l : entity_sets e = None →
  map (λ x, if decide (entity_id x = entity_id e) then overwritten x e else x) l = l.
Proof. intros Es. induction l as [|x l IH]; [done|]. cbn [map]. rewrite IH, (load_kept e x Es). by case_decide. Qed.
Lemma key_other (r : row) c z :
  has_type TNum (r !! c) = true → cond_holds r (CNe c (VNum z)) = true ↔ as_num (r !! c) ≠ z.
Proof. unfold cond_holds. destruct (r !! c) as [[]|]; try done. intros _. rewrite bool_decide_eq_true. simpl. naive_solver. Qed.

(** The struct of a row after an UpdateX: the row is updated when its keys say so. *)
Lemma update_row_typed t sets w r :
  bool_decide (NoDup (map fst sets)) = true → bool_decide (NoDup (map fst (table_columns t))) = true →
  Forall (λ cs, ∃ v, cs.2 = SetVal v ∧ match assoc cs.1 (table_columns t) with
                                       | Some ty => has_type ty (Some v) | None => true end = true) sets →
  row_typed t r = true → row_typed t (update_row sets w r) = true.
Proof.
  intros Hs%bool_decide_eq_true Ht%bool_decide_eq_true Hf Hr. unfold update_row.
  destruct (matches w r); [by apply apply_sets_typed|done].
Qed.

Ltac updates :=
  split; [apply update_row_typed; [by vm_compute|by vm_compute| |done];
          repeat (apply Forall_cons; split; [eexists; split; [reflexivity|]|]); try apply Forall_nil_2;
          lazy -[has_type vtime vbytes literal]; typed_values|].

Ltac updated_fields Hm :=
  unfold update_row; rewrite Hm; cbn [load_entity updated_struct];
  unfold_loads; cbn [OutputAddresses_OutputID OutputAddresses_Address OutputAddresses_CreatedAt
    Rewards_ID Rewards_BlockID Rewards_Txid Rewards_Shouldprefercommit Rewards_CreatedAt
    OutputAddressAccumulate_ID OutputAddressAccumulate_OutputID OutputAddressAccumulate_Address
    OutputAddressAccumulate_Processed OutputAddressAccumulate_TransactionID
    OutputAddressAccumulate_OutputIndex OutputAddressAccumulate_CreatedAt
    TxPool_ID TxPool_NetworkID TxPool_ChainID TxPool_MsgKey TxPool_Serialization TxPool_Topic TxPool_CreatedAt
    NodeIndex_Instance NodeIndex_Topic];
  repeat (erewrite NameMapping_ok by reflexivity).

Ltac set_fields :=
  rewrite !lookup_sets by (first [apply (bool_decide_unpack _); by vm_compute |
    repeat constructor; by eexists]);
  cbn -[vbytes as_str as_bytes lookup]; rewrite ?as_bytes_vbytes; try done.

Ltac deciding :=
  match goal with
  | |- context [bool_decide ?P] =>
      destruct (decide P); [rewrite (bool_decide_true P) by done|rewrite (bool_decide_false P) by done]
  end; [set_fields|done].

Ltac by_keys :=
  apply eq_true_iff_eq; unfold matches; cbn [forallb OutputAddresses_where Rewards_where TxPool_where NodeIndex_where];
  rewrite ?andb_true_r, ?andb_true_iff, bool_decide_eq_true;
  repeat (rewrite key_text || rewrite key_other); try done.

Lemma update_struct o sets w r :
  (∀ e upd, o ≠ PInsert e upd) → pop_update o = Some (sets, w) → row_typed (pop_table o) r = true →
  row_typed (pop_table o) (update_row sets w r) = true ∧
  load_entity (pop_kind o) (update_row sets w r) = updated_struct o (load_entity (pop_kind o) r).
Proof.
  intros Ho Eu Hr.
  destruct o as [e upd|v|v|id|v|v]; [by destruct (Ho e upd)|..];
    cbn [pop_update pop_table pop_kind] in *; injection Eu as <- <-; updates.
  - assert (matches (OutputAddresses_where v) r = bool_decide
      (as_str (r !! "output_id") = OutputAddresses_OutputID v ∧ as_str (r !! "address") = OutputAddresses_Address v)) as Hm.
    { by_keys; by (eapply row_typed_col; [|exact Hr]; reflexivity). }
    updated_fields Hm. cbn [snd]. deciding.
  - assert (matches (Rewards_where v) r = bool_decide (as_str (r !! "id") = Rewards_ID v)) as Hm.
    { by_keys; by (eapply row_typed_col; [|exact Hr]; reflexivity). }
    updated_fields Hm. cbn [snd]. deciding.
  - pose proof (row_typed_col TableOutputAddressAccumulateIn r "output_processed" TNum eq_refl Hr) as Ht2.
    assert (matches [CEq "output_id" (VStr id); CNe "output_processed" (VNum 1)] r =
      bool_decide (as_str (r !! "output_id") = id ∧ as_num (r !! "output_processed") ≠ 1%Z)) as Hm.
    { by_keys; by (eapply row_typed_col; [|exact Hr]; reflexivity). }
    updated_fields Hm. cbn [snd]. case_decide as Hd.
    + destruct (decide (as_num (r !! "output_processed") = 1%Z)) as [Hone|Hone].
      * rewrite bool_decide_false by naive_solver. by rewrite Hone.
      * rewrite bool_decide_true by done. set_fields.
    + rewrite bool_decide_false by naive_solver. done.
  - assert (matches (TxPool_where v) r = bool_decide (as_str (r !! "id") = TxPool_ID v)) as Hm.
    { by_keys; by (eapply row_typed_col; [|exact Hr]; reflexivity). }
    updated_fields Hm. cbn [snd]. deciding.
  - assert (matches (NodeIndex_where v) r = bool_decide
      (as_str (r !! "instance") = NodeIndex_Instance v ∧ as_str (r !! "topic") = NodeIndex_Topic v)) as Hm.
    { by_keys; by (eapply row_typed_col; [|exact Hr]; reflexivity). }
    updated_fields Hm. cbn [snd]. deciding.
Qed.
Lemma effect_structs o (c c' : content) :
  pop_effect o c c' → well_typed c →
  well_typed c' ∧ structs (pop_kind o) c' ≡ₚ after o (taken (pop_kind o) c) (structs (pop_kind o) c).
Proof.
  intros (c1 & H1 & H2) Hty. destruct o as [e upd|v|v|id|v|v].
  1: { cbn [pop_pairs pop_table pop_kind after] in *.
       apply insert_or_keep_structs in H1 as (Hty1 & Hl1 & _); [|done].
       destruct upd; cbn [pop_update] in H2.
       - destruct (entity_sets e) as [sets|] eqn:Es; cbn in H2.
         + apply (updated_structs e _ _ (λ x, if decide (entity_id x = entity_id e) then overwritten x e else x)) in H2
             as [Hty2 Hl2]; [|done|by intros r; apply insert_update_struct].
           split; [done|]. by rewrite Hl2, Hl1.
         + split; [by eapply well_typed_proper|]. by rewrite <-(structs_proper e _ _ H2), Hl1, map_if_kept.
       - split; [by eapply well_typed_proper|]. by rewrite <-(structs_proper e _ _ H2), Hl1. }
  all: cbn [pop_pairs pop_update pop_table pop_kind after] in *;
    apply (well_typed_proper _ _ H1) in Hty; rewrite (structs_proper _ _ _ H1).
  - apply (updated_structs (EOutputAddresses v) _ _ _ _ _ H2 Hty). intros r.
    by apply (update_struct (PUpdateOutputAddresses v)).
  - apply (updated_structs (ERewards v) _ _ _ _ _ H2 Hty). intros r.
    by apply (update_struct (PUpdateRewardsProcessed v)).
  - apply (updated_structs (EOutputAddressAccumulateIn (mkOutputAddressAccumulate "" id "" 0 0 "" 0 0)) _ _ _ _ _ H2 Hty).
    intros r. by apply (update_struct (PUpdateOutputAddressAccumulateInOutputsProcessed id)).
  - apply (updated_structs (ETxPool v) _ _ _ _ _ H2 Hty). intros r. by apply (update_struct (PUpdateTxPoolStatus v)).
  - apply (updated_structs (ENodeIndex v) _ _ _ _ _ H2 Hty). intros r. by apply (update_struct (PUpdateNodeIndex v)).
Qed.
End structs.

(** ** The row of a struct that is inserted over a stored one *)
Definition rewritten (e : entity) (upd : bool) (r : row) : row :=
  if upd then match entity_sets e with Some sets => apply_sets sets r | None => r end else r.

Lemma load_rewritten `{!Dbr} `{!DbrOk} e upd r :
  matches (entity_where e) r = true →
  load_entity e (restrict (entity_columns e) (rewritten e upd r)) =
  (if upd then overwritten (load_entity e (restrict (entity_columns e) r)) e
   else load_entity e (restrict (entity_columns e) r)).
Proof.
  intros Hm%found_id. unfold rewritten. destruct upd; [|done].
  destruct (entity_sets e) as [sets|] eqn:Es; [by apply load_overwritten_restrict|by rewrite load_kept].
Qed.

Lemma overwrite_rows e upd (c c' : content) r :
  pop_effect (PInsert e upd) c c' → found (entity_where e) (c (entity_table e)) = [r] →
  found (entity_where e) (c' (entity_table e)) = [rewritten e upd r] ∧
  List.filter (λ r, negb (matches (entity_where e) r)) (c' (entity_table e)) ≡ₚ
    List.filter (λ r, negb (matches (entity_where e) r)) (c (entity_table e)) ∧
  ∀ t, t ≠ entity_table e → c' t ≡ₚ c t.
Proof.
  intros Hi Hf.
  assert (∀ t, t ≠ entity_table e → c' t ≡ₚ c t) as Ho by (intros t Ht; by eapply (pop_effect_frame (PInsert e upd))).
  destruct Hi as (c1 & H1 & H2). cbn [pop_pairs pop_update pop_table] in H1, H2.
  destruct H1 as [(Hc & _)|[_ E]]; [rewrite (found_clashes e r) in Hc; [done|rewrite Hf; left]|].
  assert (c1 ≡ᶜ c' → found (entity_where e) (c' (entity_table e)) = [r] ∧
    List.filter (λ r, negb (matches (entity_where e) r)) (c' (entity_table e)) ≡ₚ
    List.filter (λ r, negb (matches (entity_where e) r)) (c (entity_table e)) ∧
    ∀ t, t ≠ entity_table e → c' t ≡ₚ c t) as Hsame.
  { intros E'. split_and!; [|by rewrite (E (entity_table e)), (E' (entity_table e))|done].
    eapply found_perm_singleton; [|exact Hf]. by rewrite E. }
  unfold rewritten. destruct upd; [|by apply Hsame]. destruct (entity_sets e) as [sets|] eqn:Es; [|by apply Hsame].
  cbn in H2.
  assert (∀ r0, matches (entity_where e) r0 = true → matches (entity_where e) (apply_sets sets r0) = true) as Hk.
  { intros r0 Hr0. rewrite matches_apply_sets; [done|]. intros c0 Hin. by eapply entity_sets_key. }
  split_and!; [|destruct H2 as [-> _]; by rewrite unfound_update, (E (entity_table e))|done].
  eapply found_update; [done|by eapply found_perm_singleton|done].
Qed.

Lemma found_in w r (l : list row) : r ∈ found w l → r ∈ l.
Proof. unfold found. rewrite !list_elem_of_In, filter_In. by intros []. Qed.

(** The types of a database in memory, by computation. *)
Definition typed_db (d : MemDb) : bool :=
  forallb (λ '(t, rs), forallb (row_typed t) rs) (map_to_list (tables d)).

Lemma typed_db_ok d : typed_db d = true → well_typed (rows d).
Proof.
  unfold typed_db. rewrite forallb_forall. intros H t r Hr. simpl in Hr. unfold table_of in Hr.
  destruct (tables d !! t) as [rs|] eqn:E; simpl in Hr; [|by apply elem_of_nil in Hr].
  assert (forallb (row_typed t) rs = true) as Hb.
  { apply (H (t, rs)). apply list_elem_of_In. by apply elem_of_map_to_list. }
  rewrite forallb_forall in Hb. by apply Hb, list_elem_of_In.
Qed.

(** * Properties *)

(** C6. A struct inserted by any of the InsertX operations of db/dbmodel.go under
    a free key, with or without the update flag, is read back by its QueryX as
    it was written, timestamps cut to microseconds and the columns no INSERT
    writes at their defaults, but for the height of a proposer: it is stored in
    p_chain_height and read back as 0, because no field of the struct is named after
    that column (a bug: its test expects the height back). The only error the query can
    report is the database's own. *)
Theorem insert_then_query `{SqlEngine D} `{!SqlEngineOk D} `{!Dbr} `{!DbrOk}
    (e : entity) (upd : bool) (d d1 d2 : D) q err :
  unique_content (rows d) →
  clashes (entity_table e) (new_row (entity_table e) (entity_pairs e))
    (rows d (entity_table e)) = false →
  insert_entity e upd d = (d1, Ok tt) →
  query_entity e d1 = (d2, Ok (q, err)) →
  match err with
  | None =>
      ((∀ v, e ≠ EPvmProposer v) → q = persisted e) ∧
      ∀ v, e = EPvmProposer v →
        (∃ v', persisted e = EPvmProposer v' ∧ PvmProposer_CoreChainHeight v' = PvmProposer_CoreChainHeight v ∧
           q = EPvmProposer (mkPvmProposer (PvmProposer_ID v') (PvmProposer_ParentID v') (PvmProposer_BlkID v')
                 (PvmProposer_ProposerBlkID v') 0 (PvmProposer_Proposer v') (PvmProposer_TimeStamp v')
                 (PvmProposer_CreatedAt v'))) ∧
        ∃ r, r ∈ rows d1 TablePvmProposer ∧ r !! "id" = Some (VStr (PvmProposer_ID v)) ∧
          r !! "p_chain_height" = Some (VNum (PvmProposer_CoreChainHeight v))
  | Some x => (poll d1).2 = Err x
  end.
Proof.
  intros Hu Hc Hi Hq. apply (perform_ok (PInsert e upd)) in Hi; [|done].
  apply insert_entity_found in Hi; [|done].
  rewrite query_entity_shape in Hq. apply query_load_answer in Hq as [Hr [(x & Hx & [= -> ->])|Hq]]; [done|].
  pose proof Hi as Hi1. eapply found_perm_singleton in Hi; [|done].
  unfold load_one in Hq. rewrite Hi in Hq. simpl in Hq. injection Hq as -> ->. rewrite load_persisted.
  split; [by destruct e; intros Hn; try done; destruct (Hn v)|]. intros v ->. split; [by eexists|].
  exists (new_row TablePvmProposer (PvmProposer_pairs v)). split; [|by rewrite !lookup_new_row].
  eapply found_in. cbn [entity_table entity_pairs] in Hi1. rewrite Hi1. left.
Qed.

Definition sample_output : Outputs := mkOutputs "o1" "X" "t1" 0 7 "AXC" 5 0 1 0 None 0
  false false false false 1234567.

Definition sample_inserted : MemDb := (insert_entity (EOutputs sample_output) false empty_db).1.
Definition sample_query : MemDb * result (entity * option error) :=
  query_entity (H0:=ToyDbr.dbr) (EOutputs sample_output) sample_inserted.

Lemma insert_then_query_witness :
  ∃ q, sample_query = (sample_query.1, Ok (q, None)) ∧ q = persisted (EOutputs sample_output).
Proof.
  eexists. split; [vm_compute; reflexivity|].
  apply (insert_then_query (H0:=ToyDbr.dbr) (H1:=ToyDbr.dbr_ok)
           (EOutputs sample_output) false empty_db sample_inserted
           sample_query.1 _ None); [..|done].
  - apply empty_unique.
  - vm_compute. reflexivity.
  - apply run_ok. vm_compute. reflexivity.
  - vm_compute. reflexivity.
Defined.

(** C16. When QueryX finds a struct and InsertX is then given another one under the
    same key, QueryX answers, with the update flag, the new struct, timestamps cut to
    microseconds, except for what the UPDATE leaves as it was: redeemed_at of a
    redeeming, processed of a reward, the marks of the accumulation, a signature when
    there is no new one, and the whole struct in the tables without update; without the
    flag, the old struct.  The height of a proposer is not read back (C6).  There is one
    row under the key, no other row of the table and no other table changes, and the
    only error the query can report is the database's own. *)
Theorem insert_overwrites `{SqlEngine D} `{!SqlEngineOk D} `{!Dbr} `{!DbrOk}
    (e old : entity) (upd : bool) (d d0 d1 d2 : D) q err :
  unique_content (rows d) →
  query_entity e d = (d0, Ok (old, None)) →
  insert_entity e upd d0 = (d1, Ok tt) →
  query_entity e d1 = (d2, Ok (q, err)) →
  match err with
  | None => q = if upd then overwritten old e else old
  | Some x => (poll d1).2 = Err x
  end ∧
  length (found (entity_where e) (rows d1 (entity_table e))) = 1 ∧
  List.filter (λ r, negb (matches (entity_where e) r)) (rows d1 (entity_table e)) ≡ₚ
    List.filter (λ r, negb (matches (entity_where e) r)) (rows d (entity_table e)) ∧
  ∀ t, t ≠ entity_table e → rows d1 t ≡ₚ rows d t.
Proof.
  intros Hu Hq0 Hi Hq.
  rewrite query_entity_shape in Hq0, Hq.
  apply query_load_answer in Hq0 as [Hr0 [(x & Hx & [= _ [=]])|Hq0]].
  unfold load_one in Hq0. destruct (found (entity_where e) (rows d0 (entity_table e))) as [|r rs] eqn:Hf; [done|].
  simpl in Hq0. injection Hq0 as ->.
  assert (unique_content (rows d0)) as Hu0 by (by rewrite <-Hr0).
  pose proof (found_entity_unique e _ _ _ Hu0 Hf) as ->.
  assert (matches (entity_where e) r = true) as Hm.
  { assert (r ∈ found (entity_where e) (rows d0 (entity_table e))) as Hin by (rewrite Hf; left).
    unfold found in Hin. rewrite list_elem_of_In, filter_In in Hin. by destruct Hin. }
  apply (perform_ok (PInsert e upd)) in Hi; [|done].
  destruct (overwrite_rows e upd _ _ r Hi Hf) as (Hf1 & Hn & Ho).
  split_and!; [|by rewrite Hf1| |].
  - apply query_load_answer in Hq as [Hr [(x & Hx & [= -> ->])|Hq]]; [done|].
    eapply found_perm_singleton in Hf1; [|done]. unfold load_one in Hq. rewrite Hf1 in Hq. simpl in Hq.
    injection Hq as -> ->. by apply load_rewritten.
  - rewrite Hn. by rewrite (Hr0 (entity_table e)).
  - intros t Ht. rewrite (Ho t Ht). by rewrite (Hr0 t).
Qed.

Definition sample_output' : Outputs := mkOutputs "o1" "X" "t1" 0 7 "AXC" 9 0 1 0 None 0
  false false false false 1234567.
Definition sample_overwritten : MemDb := (insert_entity (EOutputs sample_output') true sample_query.1).1.
Definition sample_query' : MemDb * result (entity * option error) :=
  query_entity (H0:=ToyDbr.dbr) (EOutputs sample_output') sample_overwritten.

Lemma insert_overwrites_witness :
  ∃ q, sample_query' = (sample_query'.1, Ok (q, None)) ∧ q = persisted (EOutputs sample_output').
Proof.
  eexists. split; [vm_compute; reflexivity|].
  etransitivity; [apply (insert_overwrites (H0:=ToyDbr.dbr) (H1:=ToyDbr.dbr_ok)
           (EOutputs sample_output') (persisted (EOutputs sample_output)) true sample_inserted sample_query.1
           sample_overwritten sample_query'.1 _ None)|reflexivity].
  - apply unique_db_ok. vm_compute. reflexivity.
  - vm_compute. reflexivity.
  - apply run_ok. vm_compute. reflexivity.
  - vm_compute. reflexivity.
Defined.

(** Inserting the same struct again without the update flag, as the indexer
    does when a message is delivered twice, succeeds without changing anything. *)
Theorem insert_replay `{SqlEngine D} `{!SqlEngineOk D} (e : entity) (d d1 d2 : D) :
  unique_content (rows d) →
  insert_entity e false d = (d1, Ok tt) →
  insert_entity e false d1 = (d2, Ok tt) → rows d1 ≡ᶜ rows d2.
Proof. apply perform_replay_rows. Qed.

Lemma insert_replay_witness :
  rows sample_inserted ≡ᶜ rows (insert_entity (EOutputs sample_output) false sample_inserted).1.
Proof.
  apply (insert_replay (EOutputs sample_output) empty_db).
  - apply empty_unique.
  - apply run_ok. vm_compute. reflexivity.
  - apply run_ok. vm_compute. reflexivity.
Defined.


