(* ===== verification/Interface.v ===== *)
(** The interface of the persistence layer, method by method ([db.Persist] in
    db/dbmodel.go), what an implementation promises its clients, and the SQL
    implementation of both. *)

From S2P Require Import Prelude Errors Sql MemDb Axia DbModel Persist Persistence.

(** * The interface *)
Module db.
(** A query answers a pointer, which can be nil, and an error. *)
Class Persist (S : Type) := {
QueryTransactions : Transactions → M S (option Transactions * option error);
InsertTransactions : Transactions → bool → M S unit;
QueryOutputsRedeeming : OutputsRedeeming → M S (option OutputsRedeeming * option error);
InsertOutputsRedeeming : OutputsRedeeming → bool → M S unit;
QueryOutputs : Outputs → M S (option Outputs * option error);
InsertOutputs : Outputs → bool → M S unit;
QueryAssets : Assets → M S (option Assets * option error);
InsertAssets : Assets → bool → M S unit;
QueryAddresses : Addresses → M S (option Addresses * option error);
InsertAddresses : Addresses → bool → M S unit;
QueryAddressChain : AddressChain → M S (option AddressChain * option error);
InsertAddressChain : AddressChain → bool → M S unit;
QueryOutputAddresses : OutputAddresses → M S (option OutputAddresses * option error);
InsertOutputAddresses : OutputAddresses → bool → M S unit;
UpdateOutputAddresses : OutputAddresses → M S unit;
QueryTransactionsEpoch : TransactionsEpoch → M S (option TransactionsEpoch * option error);
InsertTransactionsEpoch : TransactionsEpoch → bool → M S unit;
QueryCvmBlocks : CvmBlocks → M S (option CvmBlocks * option error);
InsertCvmBlocks : CvmBlocks → M S unit;
QueryCvmAddresses : CvmAddresses → M S (option CvmAddresses * option error);
InsertCvmAddresses : CvmAddresses → bool → M S unit;
QueryCvmTransactions : CvmTransactions → M S (option CvmTransactions * option error);
InsertCvmTransactions : CvmTransactions → bool → M S unit;
QueryCvmTransactionsTxdata : CvmTransactionsTxdata → M S (option CvmTransactionsTxdata * option error);
InsertCvmTransactionsTxdata : CvmTransactionsTxdata → bool → M S unit;
QueryPvmBlocks : PvmBlocks → M S (option PvmBlocks * option error);
InsertPvmBlocks : PvmBlocks → bool → M S unit;
QueryRewards : Rewards → M S (option Rewards * option error);
InsertRewards : Rewards → bool → M S unit;
UpdateRewardsProcessed : Rewards → M S unit;
QueryTransactionsValidator : TransactionsValidator → M S (option TransactionsValidator * option error);
InsertTransactionsValidator : TransactionsValidator → bool → M S unit;
QueryTransactionsBlock : TransactionsBlock → M S (option TransactionsBlock * option error);
InsertTransactionsBlock : TransactionsBlock → bool → M S unit;
QueryAddressBech32 : AddressBech32 → M S (option AddressBech32 * option error);
InsertAddressBech32 : AddressBech32 → bool → M S unit;
QueryOutputAddressAccumulateOut : OutputAddressAccumulate → M S (option OutputAddressAccumulate * option error);
InsertOutputAddressAccumulateOut : OutputAddressAccumulate → bool → M S unit;
QueryOutputAddressAccumulateIn : OutputAddressAccumulate → M S (option OutputAddressAccumulate * option error);
InsertOutputAddressAccumulateIn : OutputAddressAccumulate → bool → M S unit;
UpdateOutputAddressAccumulateInOutputsProcessed : string → M S unit;
QueryOutputTxsAccumulate : OutputTxsAccumulate → M S (option OutputTxsAccumulate * option error);
InsertOutputTxsAccumulate : OutputTxsAccumulate → M S unit;
QueryAccumulateBalancesReceived : AccumulateBalancesAmount → M S (option AccumulateBalancesAmount * option error);
InsertAccumulateBalancesReceived : AccumulateBalancesAmount → M S unit;
QueryAccumulateBalancesSent : AccumulateBalancesAmount → M S (option AccumulateBalancesAmount * option error);
InsertAccumulateBalancesSent : AccumulateBalancesAmount → M S unit;
QueryAccumulateBalancesTransactions : AccumulateBalancesTransactions → M S (option AccumulateBalancesTransactions * option error);
InsertAccumulateBalancesTransactions : AccumulateBalancesTransactions → M S unit;
QueryTransactionsRewardsOwnersAddress : TransactionsRewardsOwnersAddress → M S (option TransactionsRewardsOwnersAddress * option error);
InsertTransactionsRewardsOwnersAddress : TransactionsRewardsOwnersAddress → bool → M S unit;
QueryTransactionsRewardsOwnersOutputs : TransactionsRewardsOwnersOutputs → M S (option TransactionsRewardsOwnersOutputs * option error);
InsertTransactionsRewardsOwnersOutputs : TransactionsRewardsOwnersOutputs → bool → M S unit;
QueryTransactionsRewardsOwners : TransactionsRewardsOwners → M S (option TransactionsRewardsOwners * option error);
InsertTransactionsRewardsOwners : TransactionsRewardsOwners → bool → M S unit;
QueryTxPool : TxPool → M S (option TxPool * option error);
InsertTxPool : TxPool → M S unit;
UpdateTxPoolStatus : TxPool → M S unit;
QueryKeyValueStore : KeyValueStore → M S (option KeyValueStore * option error);
InsertKeyValueStore : KeyValueStore → M S unit;
QueryCvmTransactionsTxdataTrace : CvmTransactionsTxdataTrace → M S (option CvmTransactionsTxdataTrace * option error);
InsertCvmTransactionsTxdataTrace : CvmTransactionsTxdataTrace → bool → M S unit;
QueryNodeIndex : NodeIndex → M S (option NodeIndex * option error);
InsertNodeIndex : NodeIndex → bool → M S unit;
UpdateNodeIndex : NodeIndex → M S unit;
QueryCvmLogs : CvmLogs → M S (option CvmLogs * option error);
InsertCvmLogs : CvmLogs → bool → M S unit;
QueryPvmProposer : PvmProposer → M S (option PvmProposer * option error);
InsertPvmProposer : PvmProposer → bool → M S unit;
}.

Section methods.
Context {S : Type} `{!Persist S}.

(** The methods by the struct they are given. *)
Definition insert (e : entity) (upd : bool) : M S unit :=
match e with
| ETransactions v => InsertTransactions v upd
| EOutputsRedeeming v => InsertOutputsRedeeming v upd
| EOutputs v => InsertOutputs v upd
| EAssets v => InsertAssets v upd
| EAddresses v => InsertAddresses v upd
| EAddressChain v => InsertAddressChain v upd
| EOutputAddresses v => InsertOutputAddresses v upd
| ETransactionsEpoch v => InsertTransactionsEpoch v upd
| ECvmBlocks v => InsertCvmBlocks v
| ECvmAddresses v => InsertCvmAddresses v upd
| ECvmTransactions v => InsertCvmTransactions v upd
| ECvmTransactionsTxdata v => InsertCvmTransactionsTxdata v upd
| EPvmBlocks v => InsertPvmBlocks v upd
| ERewards v => InsertRewards v upd
| ETransactionsValidator v => InsertTransactionsValidator v upd
| ETransactionsBlock v => InsertTransactionsBlock v upd
| EAddressBech32 v => InsertAddressBech32 v upd
| EOutputAddressAccumulateOut v => InsertOutputAddressAccumulateOut v upd
| EOutputAddressAccumulateIn v => InsertOutputAddressAccumulateIn v upd
| EOutputTxsAccumulate v => InsertOutputTxsAccumulate v
| EAccumulateBalancesReceived v => InsertAccumulateBalancesReceived v
| EAccumulateBalancesSent v => InsertAccumulateBalancesSent v
| EAccumulateBalancesTransactions v => InsertAccumulateBalancesTransactions v
| ETransactionsRewardsOwnersAddress v => InsertTransactionsRewardsOwnersAddress v upd
| ETransactionsRewardsOwnersOutputs v => InsertTransactionsRewardsOwnersOutputs v upd
| ETransactionsRewardsOwners v => InsertTransactionsRewardsOwners v upd
| ETxPool v => InsertTxPool v
| EKeyValueStore v => InsertKeyValueStore v
| ECvmTransactionsTxdataTrace v => InsertCvmTransactionsTxdataTrace v upd
| ENodeIndex v => InsertNodeIndex v upd
| ECvmLogs v => InsertCvmLogs v upd
| EPvmProposer v => InsertPvmProposer v upd
end.

Definition as_entity {A} (f : A → entity) (m : M S (option A * option error)) : M S (option entity * option error) :=
q ← m; mret (f <$> q.1, q.2).

Definition query (e : entity) : M S (option entity * option error) :=
match e with
| ETransactions v => as_entity ETransactions (QueryTransactions v)
| EOutputsRedeeming v => as_entity EOutputsRedeeming (QueryOutputsRedeeming v)
| EOutputs v => as_entity EOutputs (QueryOutputs v)
| EAssets v => as_entity EAssets (QueryAssets v)
| EAddresses v => as_entity EAddresses (QueryAddresses v)
| EAddressChain v => as_entity EAddressChain (QueryAddressChain v)
| EOutputAddresses v => as_entity EOutputAddresses (QueryOutputAddresses v)
| ETransactionsEpoch v => as_entity ETransactionsEpoch (QueryTransactionsEpoch v)
| ECvmBlocks v => as_entity ECvmBlocks (QueryCvmBlocks v)
| ECvmAddresses v => as_entity ECvmAddresses (QueryCvmAddresses v)
| ECvmTransactions v => as_entity ECvmTransactions (QueryCvmTransactions v)
| ECvmTransactionsTxdata v => as_entity ECvmTransactionsTxdata (QueryCvmTransactionsTxdata v)
| EPvmBlocks v => as_entity EPvmBlocks (QueryPvmBlocks v)
| ERewards v => as_entity ERewards (QueryRewards v)
| ETransactionsValidator v => as_entity ETransactionsValidator (QueryTransactionsValidator v)
| ETransactionsBlock v => as_entity ETransactionsBlock (QueryTransactionsBlock v)
| EAddressBech32 v => as_entity EAddressBech32 (QueryAddressBech32 v)
| EOutputAddressAccumulateOut v => as_entity EOutputAddressAccumulateOut (QueryOutputAddressAccumulateOut v)
| EOutputAddressAccumulateIn v => as_entity EOutputAddressAccumulateIn (QueryOutputAddressAccumulateIn v)
| EOutputTxsAccumulate v => as_entity EOutputTxsAccumulate (QueryOutputTxsAccumulate v)
| EAccumulateBalancesReceived v => as_entity EAccumulateBalancesReceived (QueryAccumulateBalancesReceived v)
| EAccumulateBalancesSent v => as_entity EAccumulateBalancesSent (QueryAccumulateBalancesSent v)
| EAccumulateBalancesTransactions v => as_entity EAccumulateBalancesTransactions (QueryAccumulateBalancesTransactions v)
| ETransactionsRewardsOwnersAddress v => as_entity ETransactionsRewardsOwnersAddress (QueryTransactionsRewardsOwnersAddress v)
| ETransactionsRewardsOwnersOutputs v => as_entity ETransactionsRewardsOwnersOutputs (QueryTransactionsRewardsOwnersOutputs v)
| ETransactionsRewardsOwners v => as_entity ETransactionsRewardsOwners (QueryTransactionsRewardsOwners v)
| ETxPool v => as_entity ETxPool (QueryTxPool v)
| EKeyValueStore v => as_entity EKeyValueStore (QueryKeyValueStore v)
| ECvmTransactionsTxdataTrace v => as_entity ECvmTransactionsTxdataTrace (QueryCvmTransactionsTxdataTrace v)
| ENodeIndex v => as_entity ENodeIndex (QueryNodeIndex v)
| ECvmLogs v => as_entity ECvmLogs (QueryCvmLogs v)
| EPvmProposer v => as_entity EPvmProposer (QueryPvmProposer v)
end.

(** The errors of an answer. *)
Definition found_nothing (r : result (option entity * option error)) : Prop :=
match r with Ok (Some _, None) => False | _ => True end.
End methods.

(** What an implementation promises.  [has s e]: the key of [e] is taken; [kept e]: the
  struct [e] as it is read back; [fails s x]: the query made in [s] reports the error [x]
  of the store itself. *)
Class PersistOk (S : Type) `{!Persist S} := {
well : S → Prop;
has : S → entity → Prop;
kept : entity → entity;
fails : S → error → Prop;
insert_well e upd s : well s → well (insert e upd s).1;
query_absent e s : well s → ¬ has s e → found_nothing (query e s).2;
query_inserted e upd s s' : well s → ¬ has s e → insert e upd s = (s', Ok tt) →
(query e s').2 = Ok (Some (kept e), None) ∨ ∃ q x, (query e s').2 = Ok (q, Some x) ∧ fails s' x;
}.
End db.

(** * The SQL implementation *)
(** [v := &T{}; err := ...LoadOneContext(ctx, v); return v, err] *)
Definition pointer {A D} (m : M D (A * option error)) : M D (option A * option error) :=
q ← m; mret (Some q.1, q.2).

(** [db.NewPersist] *)
Definition NewPersist `{SqlEngine D} `{!Dbr} : db.Persist D := {|
db.QueryTransactions v := pointer (QueryTransactions v);
db.InsertTransactions v upd := InsertTransactions v upd;
db.QueryOutputsRedeeming v := pointer (QueryOutputsRedeeming v);
db.InsertOutputsRedeeming v upd := InsertOutputsRedeeming v upd;
db.QueryOutputs v := pointer (QueryOutputs v);
db.InsertOutputs v upd := InsertOutputs v upd;
db.QueryAssets v := pointer (QueryAssets v);
db.InsertAssets v upd := InsertAssets v upd;
db.QueryAddresses v := pointer (QueryAddresses v);
db.InsertAddresses v upd := InsertAddresses v upd;
db.QueryAddressChain v := pointer (QueryAddressChain v);
db.InsertAddressChain v upd := InsertAddressChain v upd;
db.QueryOutputAddresses v := pointer (QueryOutputAddresses v);
db.InsertOutputAddresses v upd := InsertOutputAddresses v upd;
db.UpdateOutputAddresses v := UpdateOutputAddresses v;
db.QueryTransactionsEpoch v := pointer (QueryTransactionsEpoch v);
db.InsertTransactionsEpoch v upd := InsertTransactionsEpoch v upd;
db.QueryCvmBlocks v := pointer (QueryCvmBlocks v);
db.InsertCvmBlocks v := InsertCvmBlocks v;
db.QueryCvmAddresses v := pointer (QueryCvmAddresses v);
db.InsertCvmAddresses v upd := InsertCvmAddresses v upd;
db.QueryCvmTransactions v := pointer (QueryCvmTransactions v);
db.InsertCvmTransactions v upd := InsertCvmTransactions v upd;
db.QueryCvmTransactionsTxdata v := pointer (QueryCvmTransactionsTxdata v);
db.InsertCvmTransactionsTxdata v upd := InsertCvmTransactionsTxdata v upd;
db.QueryPvmBlocks v := pointer (QueryPvmBlocks v);
db.InsertPvmBlocks v upd := InsertPvmBlocks v upd;
db.QueryRewards v := pointer (QueryRewards v);
db.InsertRewards v upd := InsertRewards v upd;
db.UpdateRewardsProcessed v := UpdateRewardsProcessed v;
db.QueryTransactionsValidator v := pointer (QueryTransactionsValidator v);
db.InsertTransactionsValidator v upd := InsertTransactionsValidator v upd;
db.QueryTransactionsBlock v := pointer (QueryTransactionsBlock v);
db.InsertTransactionsBlock v upd := InsertTransactionsBlock v upd;
db.QueryAddressBech32 v := pointer (QueryAddressBech32 v);
db.InsertAddressBech32 v upd := InsertAddressBech32 v upd;
db.QueryOutputAddressAccumulateOut v := pointer (QueryOutputAddressAccumulateOut v);
db.InsertOutputAddressAccumulateOut v upd := InsertOutputAddressAccumulateOut v upd;
db.QueryOutputAddressAccumulateIn v := pointer (QueryOutputAddressAccumulateIn v);
db.InsertOutputAddressAccumulateIn v upd := InsertOutputAddressAccumulateIn v upd;
db.UpdateOutputAddressAccumulateInOutputsProcessed v := UpdateOutputAddressAccumulateInOutputsProcessed v;
db.QueryOutputTxsAccumulate v := pointer (QueryOutputTxsAccumulate v);
db.InsertOutputTxsAccumulate v := InsertOutputTxsAccumulate v;
db.QueryAccumulateBalancesReceived v := pointer (QueryAccumulateBalancesReceived v);
db.InsertAccumulateBalancesReceived v := InsertAccumulateBalancesReceived v;
db.QueryAccumulateBalancesSent v := pointer (QueryAccumulateBalancesSent v);
db.InsertAccumulateBalancesSent v := InsertAccumulateBalancesSent v;
db.QueryAccumulateBalancesTransactions v := pointer (QueryAccumulateBalancesTransactions v);
db.InsertAccumulateBalancesTransactions v := InsertAccumulateBalancesTransactions v;
db.QueryTransactionsRewardsOwnersAddress v := pointer (QueryTransactionsRewardsOwnersAddress v);
db.InsertTransactionsRewardsOwnersAddress v upd := InsertTransactionsRewardsOwnersAddress v upd;
db.QueryTransactionsRewardsOwnersOutputs v := pointer (QueryTransactionsRewardsOwnersOutputs v);
db.InsertTransactionsRewardsOwnersOutputs v upd := InsertTransactionsRewardsOwnersOutputs v upd;
db.QueryTransactionsRewardsOwners v := pointer (QueryTransactionsRewardsOwners v);
db.InsertTransactionsRewardsOwners v upd := InsertTransactionsRewardsOwners v upd;
db.QueryTxPool v := pointer (QueryTxPool v);
db.InsertTxPool v := InsertTxPool v;
db.UpdateTxPoolStatus v := UpdateTxPoolStatus v;
db.QueryKeyValueStore v := pointer (QueryKeyValueStore v);
db.InsertKeyValueStore v := InsertKeyValueStore v;
db.QueryCvmTransactionsTxdataTrace v := pointer (QueryCvmTransactionsTxdataTrace v);
db.InsertCvmTransactionsTxdataTrace v upd := InsertCvmTransactionsTxdataTrace v upd;
db.QueryNodeIndex v := pointer (QueryNodeIndex v);
db.InsertNodeIndex v upd := InsertNodeIndex v upd;
db.UpdateNodeIndex v := UpdateNodeIndex v;
db.QueryCvmLogs v := pointer (QueryCvmLogs v);
db.InsertCvmLogs v upd := InsertCvmLogs v upd;
db.QueryPvmProposer v := pointer (QueryPvmProposer v);
db.InsertPvmProposer v upd := InsertPvmProposer v upd
|}.
#[export] Existing Instance NewPersist.

Section sql.
Context `{SqlEngine D} `{!SqlEngineOk D} `{!Dbr} `{!DbrOk}.

Lemma sql_insert e upd : db.insert (S:=D) e upd = insert_entity e upd.
Proof. by destruct e. Qed.

Lemma as_entity_pointer {A} (f : A → entity) (m : M D (A * option error)) (d : D) :
db.as_entity f (pointer m) d = pointer (q ← m; mret (f q.1, q.2)) d.
Proof. unfold db.as_entity, pointer. rewrite !bind_run. by destruct (m d) as [d' [[a x]|e]]. Qed.

Lemma sql_query e (d : D) : db.query e d = pointer (query_entity e) d.
Proof. destruct e; apply as_entity_pointer. Qed.

(** A query never fails: its errors are in its answer. *)
Lemma query_load_total {A} t cols w (load : row → A) (d : D) : ∃ d' q, query_load t cols w load d = (d', Ok q).
Proof. unfold query_load. rewrite bind_run. unfold attempt. destruct (query_one t cols w d) as [d' r]. by eexists _, _. Qed.

Lemma sql_query_answer e (d : D) : ∃ d' q, query_entity e d = (d', Ok q) ∧ db.query e d = (d', Ok (Some q.1, q.2)).
Proof.
rewrite sql_query. unfold pointer. rewrite bind_run, query_entity_shape.
destruct (query_load_total (entity_table e) (entity_columns e) (entity_where e) (load_entity e) d) as (d' & q & ->).
by exists d', q.
Qed.

#[export] Instance NewPersist_ok : db.PersistOk D.
Proof.
refine {| db.well d := unique_content (rows d);
db.has d e := clashes (entity_table e) (new_row (entity_table e) (entity_pairs e)) (rows d (entity_table e)) = true;
db.kept := read_back; db.fails d x := (poll d).2 = Err x |}.
- intros e upd d Hu. rewrite sql_insert. by apply (perform_unique (PInsert e upd)).
- intros e d Hu Hc. destruct (sql_query_answer e d) as (d' & q & Hq & ->). cbn. rewrite query_entity_shape in Hq.
apply query_load_answer in Hq as [Hr [(x & _ & ->)| ->]]; [done|].
unfold load_one. destruct (found (entity_where e) (rows d' (entity_table e))) as [|r rs] eqn:Ef; [done|].
destruct Hc. rewrite (Hr (entity_table e)). apply (found_clashes e r). rewrite Ef. by left.
- intros e upd d d1 Hu Hc Hi. rewrite sql_insert in Hi. apply not_true_iff_false in Hc.
apply (perform_ok (PInsert e upd)) in Hi; [|done]. apply insert_entity_found in Hi; [|done].
destruct (sql_query_answer e d1) as (d' & q & Hq & ->). cbn. rewrite query_entity_shape in Hq.
apply query_load_answer in Hq as [Hr [(x & Hx & ->)| ->]]; [right; by eexists _, _|left].
eapply found_perm_singleton in Hi; [|done]. unfold load_one. rewrite Hi. cbn. by rewrite load_persisted.
Defined.
End sql.
