(* ===== verification/DbMock.v ===== *)
(** The in-memory implementation of [db.Persist]: db/dbmodel_mock.go.

    The struct has one map for each table, with its own type of values.  An insertion copies
    the struct it is given, so the maps hold values; a query answers the stored pointer, here
    its value.  The lock makes each method one step. *)

From S2P Require Import Prelude Errors Sql Axia DbModel Persist Interface.

(** * The struct *)
(** The names of its fields. *)
Inductive mock_field :=
| F_Transactions
| F_Outputs
| F_OutputsRedeeming
| F_CvmTransactions
| F_CvmTransactionsTxdata
| F_CvmBlocks
| F_CvmAddresses
| F_TransactionsValidator
| F_TransactionsBlock
| F_Rewards
| F_Addresses
| F_AddressChain
| F_OutputAddresses
| F_Assets
| F_TransactionsEpoch
| F_PvmBlocks
| F_AddressBech32
| F_OutputAddressAccumulateOut
| F_OutputAddressAccumulateIn
| F_OutputTxsAccumulate
| F_AccumulateBalancesReceived
| F_AccumulateBalancesSent
| F_AccumulateBalancesTransactions
| F_TransactionsRewardsOwnersAddress
| F_TransactionsRewardsOwnersOutputs
| F_TransactionsRewardsOwners
| F_TxPool
| F_KeyValueStore
| F_CvmTransactionsTxdataTrace
| F_NodeIndex
| F_CvmLogs
| F_PvmProposer.
#[export] Instance mock_field_eq_dec : EqDecision mock_field.
Proof. solve_decision. Defined.

(** The structs a map points to. *)
Definition mock_type (f : mock_field) : Type :=
match f with
| F_Transactions => Transactions
| F_Outputs => Outputs
| F_OutputsRedeeming => OutputsRedeeming
| F_CvmTransactions => CvmTransactions
| F_CvmTransactionsTxdata => CvmTransactionsTxdata
| F_CvmBlocks => CvmBlocks
| F_CvmAddresses => CvmAddresses
| F_TransactionsValidator => TransactionsValidator
| F_TransactionsBlock => TransactionsBlock
| F_Rewards => Rewards
| F_Addresses => Addresses
| F_AddressChain => AddressChain
| F_OutputAddresses => OutputAddresses
| F_Assets => Assets
| F_TransactionsEpoch => TransactionsEpoch
| F_PvmBlocks => PvmBlocks
| F_AddressBech32 => AddressBech32
| F_OutputAddressAccumulateOut => OutputAddressAccumulate
| F_OutputAddressAccumulateIn => OutputAddressAccumulate
| F_OutputTxsAccumulate => OutputTxsAccumulate
| F_AccumulateBalancesReceived => AccumulateBalancesAmount
| F_AccumulateBalancesSent => AccumulateBalancesAmount
| F_AccumulateBalancesTransactions => AccumulateBalancesTransactions
| F_TransactionsRewardsOwnersAddress => TransactionsRewardsOwnersAddress
| F_TransactionsRewardsOwnersOutputs => TransactionsRewardsOwnersOutputs
| F_TransactionsRewardsOwners => TransactionsRewardsOwners
| F_TxPool => TxPool
| F_KeyValueStore => KeyValueStore
| F_CvmTransactionsTxdataTrace => CvmTransactionsTxdataTrace
| F_NodeIndex => NodeIndex
| F_CvmLogs => CvmLogs
| F_PvmProposer => PvmProposer
end.

Definition MockPersist : Type := ∀ f : mock_field, gmap string (mock_type f).

Definition NewPersistMock : MockPersist := λ _, ∅.

(** One of its maps is changed. *)
Definition set_map (f : mock_field) (g : gmap string (mock_type f) → gmap string (mock_type f)) (m : MockPersist)
  : MockPersist := λ f',
match decide (f = f') with
| left E => eq_rect f (λ f, gmap string (mock_type f)) (g (m f)) f' E
| right _ => m f'
end.

(** * The methods *)
Module mock.

Definition QueryTransactions (v : Transactions) : M MockPersist (option Transactions * option error) := λ m,
(m, Ok (m F_Transactions !! (Transactions_ID v), None)).
Definition InsertTransactions (v : Transactions) (upd : bool) : M MockPersist unit := λ m,
(set_map F_Transactions <[Transactions_ID v := v]> m, Ok tt).

Definition QueryOutputsRedeeming (v : OutputsRedeeming) : M MockPersist (option OutputsRedeeming * option error) := λ m,
(m, Ok (m F_OutputsRedeeming !! (OutputsRedeeming_ID v), None)).
Definition InsertOutputsRedeeming (v : OutputsRedeeming) (upd : bool) : M MockPersist unit := λ m,
(set_map F_OutputsRedeeming <[OutputsRedeeming_ID v := v]> m, Ok tt).

Definition QueryOutputs (v : Outputs) : M MockPersist (option Outputs * option error) := λ m,
(m, Ok (m F_Outputs !! (Outputs_ID v), None)).
Definition InsertOutputs (v : Outputs) (upd : bool) : M MockPersist unit := λ m,
(set_map F_Outputs <[Outputs_ID v := v]> m, Ok tt).

Definition QueryAssets (v : Assets) : M MockPersist (option Assets * option error) := λ m,
(m, Ok (m F_Assets !! (Assets_ID v), None)).
Definition InsertAssets (v : Assets) (upd : bool) : M MockPersist unit := λ m,
(set_map F_Assets <[Assets_ID v := v]> m, Ok tt).

Definition QueryAddresses (v : Addresses) : M MockPersist (option Addresses * option error) := λ m,
(m, Ok (m F_Addresses !! (Addresses_Address v), None)).
Definition InsertAddresses (v : Addresses) (upd : bool) : M MockPersist unit := λ m,
(set_map F_Addresses <[Addresses_Address v := v]> m, Ok tt).

Definition QueryAddressChain (v : AddressChain) : M MockPersist (option AddressChain * option error) := λ m,
(m, Ok (m F_AddressChain !! (AddressChain_Address v +:+ ":" +:+ AddressChain_ChainID v), None)).
Definition InsertAddressChain (v : AddressChain) (upd : bool) : M MockPersist unit := λ m,
(set_map F_AddressChain <[AddressChain_Address v +:+ ":" +:+ AddressChain_ChainID v := v]> m, Ok tt).

Definition QueryOutputAddresses (v : OutputAddresses) : M MockPersist (option OutputAddresses * option error) := λ m,
(m, Ok (m F_OutputAddresses !! (OutputAddresses_OutputID v +:+ ":" +:+ OutputAddresses_Address v), None)).
Definition InsertOutputAddresses (v : OutputAddresses) (upd : bool) : M MockPersist unit := λ m,
(set_map F_OutputAddresses <[OutputAddresses_OutputID v +:+ ":" +:+ OutputAddresses_Address v := v]> m, Ok tt).

Definition UpdateOutputAddresses (v : OutputAddresses) : M MockPersist unit := λ m,
(set_map F_OutputAddresses (alter (λ fv, mkOutputAddresses (OutputAddresses_OutputID fv) (OutputAddresses_Address fv)
   (OutputAddresses_RedeemingSignature v) (OutputAddresses_CreatedAt fv) (OutputAddresses_UpdatedAt fv))
   (OutputAddresses_OutputID v +:+ ":" +:+ OutputAddresses_Address v)) m, Ok tt).

Definition QueryTransactionsEpoch (v : TransactionsEpoch) : M MockPersist (option TransactionsEpoch * option error) := λ m,
(m, Ok (m F_TransactionsEpoch !! (TransactionsEpoch_ID v), None)).
Definition InsertTransactionsEpoch (v : TransactionsEpoch) (upd : bool) : M MockPersist unit := λ m,
(set_map F_TransactionsEpoch <[TransactionsEpoch_ID v := v]> m, Ok tt).

Definition QueryCvmBlocks (v : CvmBlocks) : M MockPersist (option CvmBlocks * option error) := λ m,
(m, Ok (m F_CvmBlocks !! (CvmBlocks_Block v), None)).
Definition InsertCvmBlocks (v : CvmBlocks) : M MockPersist unit := λ m,
(set_map F_CvmBlocks <[CvmBlocks_Block v := v]> m, Ok tt).

Definition QueryCvmAddresses (v : CvmAddresses) : M MockPersist (option CvmAddresses * option error) := λ m,
(m, Ok (m F_CvmAddresses !! (CvmAddresses_ID v), None)).
Definition InsertCvmAddresses (v : CvmAddresses) (upd : bool) : M MockPersist unit := λ m,
(set_map F_CvmAddresses <[CvmAddresses_ID v := v]> m, Ok tt).

Definition QueryCvmTransactions (v : CvmTransactions) : M MockPersist (option CvmTransactions * option error) := λ m,
(m, Ok (m F_CvmTransactions !! (CvmTransactions_ID v), None)).
Definition InsertCvmTransactions (v : CvmTransactions) (upd : bool) : M MockPersist unit := λ m,
(set_map F_CvmTransactions <[CvmTransactions_ID v := v]> m, Ok tt).

Definition QueryCvmTransactionsTxdata (v : CvmTransactionsTxdata) : M MockPersist (option CvmTransactionsTxdata * option error) := λ m,
(m, Ok (m F_CvmTransactionsTxdata !! (CvmTransactionsTxdata_Hash v), None)).
Definition InsertCvmTransactionsTxdata (v : CvmTransactionsTxdata) (upd : bool) : M MockPersist unit := λ m,
(set_map F_CvmTransactionsTxdata <[CvmTransactionsTxdata_Hash v := v]> m, Ok tt).

Definition QueryPvmBlocks (v : PvmBlocks) : M MockPersist (option PvmBlocks * option error) := λ m,
(m, Ok (m F_PvmBlocks !! (PvmBlocks_ID v), None)).
Definition InsertPvmBlocks (v : PvmBlocks) (upd : bool) : M MockPersist unit := λ m,
(set_map F_PvmBlocks <[PvmBlocks_ID v := v]> m, Ok tt).

Definition QueryRewards (v : Rewards) : M MockPersist (option Rewards * option error) := λ m,
(m, Ok (m F_Rewards !! (Rewards_ID v), None)).
Definition InsertRewards (v : Rewards) (upd : bool) : M MockPersist unit := λ m,
(set_map F_Rewards <[Rewards_ID v := v]> m, Ok tt).

Definition UpdateRewardsProcessed (v : Rewards) : M MockPersist unit := λ m,
(set_map F_Rewards (alter (λ fv, mkRewards (Rewards_ID fv) (Rewards_BlockID fv) (Rewards_Txid fv)
   (Rewards_Shouldprefercommit fv) (Rewards_CreatedAt fv) (Rewards_Processed v))
   (Rewards_ID v)) m, Ok tt).

Definition QueryTransactionsValidator (v : TransactionsValidator) : M MockPersist (option TransactionsValidator * option error) := λ m,
(m, Ok (m F_TransactionsValidator !! (TransactionsValidator_ID v), None)).
Definition InsertTransactionsValidator (v : TransactionsValidator) (upd : bool) : M MockPersist unit := λ m,
(set_map F_TransactionsValidator <[TransactionsValidator_ID v := v]> m, Ok tt).

Definition QueryTransactionsBlock (v : TransactionsBlock) : M MockPersist (option TransactionsBlock * option error) := λ m,
(m, Ok (m F_TransactionsBlock !! (TransactionsBlock_ID v), None)).
Definition InsertTransactionsBlock (v : TransactionsBlock) (upd : bool) : M MockPersist unit := λ m,
(set_map F_TransactionsBlock <[TransactionsBlock_ID v := v]> m, Ok tt).

Definition QueryAddressBech32 (v : AddressBech32) : M MockPersist (option AddressBech32 * option error) := λ m,
(m, Ok (m F_AddressBech32 !! (AddressBech32_Address v), None)).
Definition InsertAddressBech32 (v : AddressBech32) (upd : bool) : M MockPersist unit := λ m,
(set_map F_AddressBech32 <[AddressBech32_Address v := v]> m, Ok tt).

Definition QueryOutputAddressAccumulateOut (v : OutputAddressAccumulate) : M MockPersist (option OutputAddressAccumulate * option error) := λ m,
(m, Ok (m F_OutputAddressAccumulateOut !! (OutputAddressAccumulate_ID v), None)).
Definition InsertOutputAddressAccumulateOut (v : OutputAddressAccumulate) (upd : bool) : M MockPersist unit := λ m,
(set_map F_OutputAddressAccumulateOut <[OutputAddressAccumulate_ID v := v]> m, Ok tt).

Definition QueryOutputAddressAccumulateIn (v : OutputAddressAccumulate) : M MockPersist (option OutputAddressAccumulate * option error) := λ m,
(m, Ok (m F_OutputAddressAccumulateIn !! (OutputAddressAccumulate_ID v), None)).
Definition InsertOutputAddressAccumulateIn (v : OutputAddressAccumulate) (upd : bool) : M MockPersist unit := λ m,
(set_map F_OutputAddressAccumulateIn <[OutputAddressAccumulate_ID v := v]> m, Ok tt).

Definition UpdateOutputAddressAccumulateInOutputsProcessed (id : string) : M MockPersist unit := λ m,
(set_map F_OutputAddressAccumulateIn (fmap (λ v,
   if String.eqb (OutputAddressAccumulate_OutputID v) id
   then mkOutputAddressAccumulate (OutputAddressAccumulate_ID v) (OutputAddressAccumulate_OutputID v)
          (OutputAddressAccumulate_Address v) (OutputAddressAccumulate_Processed v) 1
          (OutputAddressAccumulate_TransactionID v) (OutputAddressAccumulate_OutputIndex v)
          (OutputAddressAccumulate_CreatedAt v)
   else v)) m, Ok tt).

Definition QueryOutputTxsAccumulate (v : OutputTxsAccumulate) : M MockPersist (option OutputTxsAccumulate * option error) := λ m,
(m, Ok (m F_OutputTxsAccumulate !! (OutputTxsAccumulate_ID v), None)).
Definition InsertOutputTxsAccumulate (v : OutputTxsAccumulate) : M MockPersist unit := λ m,
(set_map F_OutputTxsAccumulate <[OutputTxsAccumulate_ID v := v]> m, Ok tt).

Definition QueryAccumulateBalancesReceived (v : AccumulateBalancesAmount) : M MockPersist (option AccumulateBalancesAmount * option error) := λ m,
(m, Ok (m F_AccumulateBalancesReceived !! (AccumulateBalancesAmount_ID v), None)).
Definition InsertAccumulateBalancesReceived (v : AccumulateBalancesAmount) : M MockPersist unit := λ m,
(set_map F_AccumulateBalancesReceived <[AccumulateBalancesAmount_ID v := v]> m, Ok tt).

Definition QueryAccumulateBalancesSent (v : AccumulateBalancesAmount) : M MockPersist (option AccumulateBalancesAmount * option error) := λ m,
(m, Ok (m F_AccumulateBalancesSent !! (AccumulateBalancesAmount_ID v), None)).
Definition InsertAccumulateBalancesSent (v : AccumulateBalancesAmount) : M MockPersist unit := λ m,
(set_map F_AccumulateBalancesSent <[AccumulateBalancesAmount_ID v := v]> m, Ok tt).

Definition QueryAccumulateBalancesTransactions (v : AccumulateBalancesTransactions) : M MockPersist (option AccumulateBalancesTransactions * option error) := λ m,
(m, Ok (m F_AccumulateBalancesTransactions !! (AccumulateBalancesTransactions_ID v), None)).
Definition InsertAccumulateBalancesTransactions (v : AccumulateBalancesTransactions) : M MockPersist unit := λ m,
(set_map F_AccumulateBalancesTransactions <[AccumulateBalancesTransactions_ID v := v]> m, Ok tt).

Definition QueryTransactionsRewardsOwnersAddress (v : TransactionsRewardsOwnersAddress) : M MockPersist (option TransactionsRewardsOwnersAddress * option error) := λ m,
(m, Ok (m F_TransactionsRewardsOwnersAddress !! (TransactionsRewardsOwnersAddress_ID v +:+ " " +:+ TransactionsRewardsOwnersAddress_Address v), None)).
Definition InsertTransactionsRewardsOwnersAddress (v : TransactionsRewardsOwnersAddress) (upd : bool) : M MockPersist unit := λ m,
(set_map F_TransactionsRewardsOwnersAddress <[TransactionsRewardsOwnersAddress_ID v +:+ " " +:+ TransactionsRewardsOwnersAddress_Address v := v]> m, Ok tt).

Definition QueryTransactionsRewardsOwnersOutputs (v : TransactionsRewardsOwnersOutputs) : M MockPersist (option TransactionsRewardsOwnersOutputs * option error) := λ m,
(m, Ok (m F_TransactionsRewardsOwnersOutputs !! (TransactionsRewardsOwnersOutputs_ID v), None)).
Definition InsertTransactionsRewardsOwnersOutputs (v : TransactionsRewardsOwnersOutputs) (upd : bool) : M MockPersist unit := λ m,
(set_map F_TransactionsRewardsOwnersOutputs <[TransactionsRewardsOwnersOutputs_ID v := v]> m, Ok tt).

Definition QueryTransactionsRewardsOwners (v : TransactionsRewardsOwners) : M MockPersist (option TransactionsRewardsOwners * option error) := λ m,
(m, Ok (m F_TransactionsRewardsOwners !! (TransactionsRewardsOwners_ID v), None)).
Definition InsertTransactionsRewardsOwners (v : TransactionsRewardsOwners) (upd : bool) : M MockPersist unit := λ m,
(set_map F_TransactionsRewardsOwners <[TransactionsRewardsOwners_ID v := v]> m, Ok tt).

Definition QueryTxPool (v : TxPool) : M MockPersist (option TxPool * option error) := λ m,
(m, Ok (m F_TxPool !! (TxPool_ID v), None)).
Definition InsertTxPool (v : TxPool) : M MockPersist unit := λ m,
(set_map F_TxPool <[TxPool_ID v := v]> m, Ok tt).

Definition UpdateTxPoolStatus (v : TxPool) : M MockPersist unit := λ m,
(set_map F_TxPool (alter (λ fv, mkTxPool (TxPool_ID fv) (TxPool_NetworkID fv) (TxPool_ChainID fv)
   (TxPool_MsgKey fv) (TxPool_Serialization fv) (TxPool_Processed v) (TxPool_Topic fv) (TxPool_CreatedAt fv))
   (TxPool_ID v)) m, Ok tt).

Definition QueryKeyValueStore (v : KeyValueStore) : M MockPersist (option KeyValueStore * option error) := λ m,
(m, Ok (m F_KeyValueStore !! (KeyValueStore_K v), None)).
Definition InsertKeyValueStore (v : KeyValueStore) : M MockPersist unit := λ m,
(set_map F_KeyValueStore <[KeyValueStore_K v := v]> m, Ok tt).

Definition QueryCvmTransactionsTxdataTrace (v : CvmTransactionsTxdataTrace) : M MockPersist (option CvmTransactionsTxdataTrace * option error) := λ m,
(m, Ok (m F_CvmTransactionsTxdataTrace !! (CvmTransactionsTxdataTrace_Hash v +:+ ":" +:+ Z_to_string (CvmTransactionsTxdataTrace_Idx v)), None)).
Definition InsertCvmTransactionsTxdataTrace (v : CvmTransactionsTxdataTrace) (upd : bool) : M MockPersist unit := λ m,
(set_map F_CvmTransactionsTxdataTrace <[CvmTransactionsTxdataTrace_Hash v +:+ ":" +:+ Z_to_string (CvmTransactionsTxdataTrace_Idx v) := v]> m, Ok tt).

Definition QueryNodeIndex (v : NodeIndex) : M MockPersist (option NodeIndex * option error) := λ m,
(m, Ok (m F_NodeIndex !! (NodeIndex_Topic v), None)).
Definition InsertNodeIndex (v : NodeIndex) (upd : bool) : M MockPersist unit := λ m,
(set_map F_NodeIndex <[NodeIndex_Topic v := v]> m, Ok tt).

Definition UpdateNodeIndex (v : NodeIndex) : M MockPersist unit := λ m,
(set_map F_NodeIndex (alter (λ fv, mkNodeIndex (NodeIndex_Instance fv) (NodeIndex_Topic fv) (NodeIndex_Idx v))
   (NodeIndex_Topic v)) m, Ok tt).

Definition QueryCvmLogs (v : CvmLogs) : M MockPersist (option CvmLogs * option error) := λ m,
(m, Ok (m F_CvmLogs !! (CvmLogs_ID v), None)).
Definition InsertCvmLogs (v : CvmLogs) (upd : bool) : M MockPersist unit := λ m,
(set_map F_CvmLogs <[CvmLogs_ID v := v]> m, Ok tt).

Definition QueryPvmProposer (v : PvmProposer) : M MockPersist (option PvmProposer * option error) := λ m,
(m, Ok (m F_PvmProposer !! (PvmProposer_ID v), None)).
Definition InsertPvmProposer (v : PvmProposer) (upd : bool) : M MockPersist unit := λ m,
(set_map F_PvmProposer <[PvmProposer_ID v := v]> m, Ok tt).

End mock.

(** * The interface *)
#[export] Instance MockPersist_methods : db.Persist MockPersist := {|
db.QueryTransactions := mock.QueryTransactions;
db.InsertTransactions := mock.InsertTransactions;
db.QueryOutputsRedeeming := mock.QueryOutputsRedeeming;
db.InsertOutputsRedeeming := mock.InsertOutputsRedeeming;
db.QueryOutputs := mock.QueryOutputs;
db.InsertOutputs := mock.InsertOutputs;
db.QueryAssets := mock.QueryAssets;
db.InsertAssets := mock.InsertAssets;
db.QueryAddresses := mock.QueryAddresses;
db.InsertAddresses := mock.InsertAddresses;
db.QueryAddressChain := mock.QueryAddressChain;
db.InsertAddressChain := mock.InsertAddressChain;
db.QueryOutputAddresses := mock.QueryOutputAddresses;
db.InsertOutputAddresses := mock.InsertOutputAddresses;
db.UpdateOutputAddresses := mock.UpdateOutputAddresses;
db.QueryTransactionsEpoch := mock.QueryTransactionsEpoch;
db.InsertTransactionsEpoch := mock.InsertTransactionsEpoch;
db.QueryCvmBlocks := mock.QueryCvmBlocks;
db.InsertCvmBlocks := mock.InsertCvmBlocks;
db.QueryCvmAddresses := mock.QueryCvmAddresses;
db.InsertCvmAddresses := mock.InsertCvmAddresses;
db.QueryCvmTransactions := mock.QueryCvmTransactions;
db.InsertCvmTransactions := mock.InsertCvmTransactions;
db.QueryCvmTransactionsTxdata := mock.QueryCvmTransactionsTxdata;
db.InsertCvmTransactionsTxdata := mock.InsertCvmTransactionsTxdata;
db.QueryPvmBlocks := mock.QueryPvmBlocks;
db.InsertPvmBlocks := mock.InsertPvmBlocks;
db.QueryRewards := mock.QueryRewards;
db.InsertRewards := mock.InsertRewards;
db.UpdateRewardsProcessed := mock.UpdateRewardsProcessed;
db.QueryTransactionsValidator := mock.QueryTransactionsValidator;
db.InsertTransactionsValidator := mock.InsertTransactionsValidator;
db.QueryTransactionsBlock := mock.QueryTransactionsBlock;
db.InsertTransactionsBlock := mock.InsertTransactionsBlock;
db.QueryAddressBech32 := mock.QueryAddressBech32;
db.InsertAddressBech32 := mock.InsertAddressBech32;
db.QueryOutputAddressAccumulateOut := mock.QueryOutputAddressAccumulateOut;
db.InsertOutputAddressAccumulateOut := mock.InsertOutputAddressAccumulateOut;
db.QueryOutputAddressAccumulateIn := mock.QueryOutputAddressAccumulateIn;
db.InsertOutputAddressAccumulateIn := mock.InsertOutputAddressAccumulateIn;
db.UpdateOutputAddressAccumulateInOutputsProcessed := mock.UpdateOutputAddressAccumulateInOutputsProcessed;
db.QueryOutputTxsAccumulate := mock.QueryOutputTxsAccumulate;
db.InsertOutputTxsAccumulate := mock.InsertOutputTxsAccumulate;
db.QueryAccumulateBalancesReceived := mock.QueryAccumulateBalancesReceived;
db.InsertAccumulateBalancesReceived := mock.InsertAccumulateBalancesReceived;
db.QueryAccumulateBalancesSent := mock.QueryAccumulateBalancesSent;
db.InsertAccumulateBalancesSent := mock.InsertAccumulateBalancesSent;
db.QueryAccumulateBalancesTransactions := mock.QueryAccumulateBalancesTransactions;
db.InsertAccumulateBalancesTransactions := mock.InsertAccumulateBalancesTransactions;
db.QueryTransactionsRewardsOwnersAddress := mock.QueryTransactionsRewardsOwnersAddress;
db.InsertTransactionsRewardsOwnersAddress := mock.InsertTransactionsRewardsOwnersAddress;
db.QueryTransactionsRewardsOwnersOutputs := mock.QueryTransactionsRewardsOwnersOutputs;
db.InsertTransactionsRewardsOwnersOutputs := mock.InsertTransactionsRewardsOwnersOutputs;
db.QueryTransactionsRewardsOwners := mock.QueryTransactionsRewardsOwners;
db.InsertTransactionsRewardsOwners := mock.InsertTransactionsRewardsOwners;
db.QueryTxPool := mock.QueryTxPool;
db.InsertTxPool := mock.InsertTxPool;
db.UpdateTxPoolStatus := mock.UpdateTxPoolStatus;
db.QueryKeyValueStore := mock.QueryKeyValueStore;
db.InsertKeyValueStore := mock.InsertKeyValueStore;
db.QueryCvmTransactionsTxdataTrace := mock.QueryCvmTransactionsTxdataTrace;
db.InsertCvmTransactionsTxdataTrace := mock.InsertCvmTransactionsTxdataTrace;
db.QueryNodeIndex := mock.QueryNodeIndex;
db.InsertNodeIndex := mock.InsertNodeIndex;
db.UpdateNodeIndex := mock.UpdateNodeIndex;
db.QueryCvmLogs := mock.QueryCvmLogs;
db.InsertCvmLogs := mock.InsertCvmLogs;
db.QueryPvmProposer := mock.QueryPvmProposer;
db.InsertPvmProposer := mock.InsertPvmProposer
|}.

#[export] Instance mock_persist : Persist MockPersist := {
perform o :=
  match o with
  | PInsert e upd => db.insert e upd
  | PUpdateOutputAddresses v => mock.UpdateOutputAddresses v
  | PUpdateRewardsProcessed v => mock.UpdateRewardsProcessed v
  | PUpdateOutputAddressAccumulateInOutputsProcessed id => mock.UpdateOutputAddressAccumulateInOutputsProcessed id
  | PUpdateTxPoolStatus v => mock.UpdateTxPoolStatus v
  | PUpdateNodeIndex v => mock.UpdateNodeIndex v
  end;
}.

(** * The mock meets both interfaces *)
(** The field, the key and the value of a struct. *)
Definition mock_field_of (e : entity) : mock_field :=
match e with
| ETransactions _ => F_Transactions
| EOutputsRedeeming _ => F_OutputsRedeeming
| EOutputs _ => F_Outputs
| EAssets _ => F_Assets
| EAddresses _ => F_Addresses
| EAddressChain _ => F_AddressChain
| EOutputAddresses _ => F_OutputAddresses
| ETransactionsEpoch _ => F_TransactionsEpoch
| ECvmBlocks _ => F_CvmBlocks
| ECvmAddresses _ => F_CvmAddresses
| ECvmTransactions _ => F_CvmTransactions
| ECvmTransactionsTxdata _ => F_CvmTransactionsTxdata
| EPvmBlocks _ => F_PvmBlocks
| ERewards _ => F_Rewards
| ETransactionsValidator _ => F_TransactionsValidator
| ETransactionsBlock _ => F_TransactionsBlock
| EAddressBech32 _ => F_AddressBech32
| EOutputAddressAccumulateOut _ => F_OutputAddressAccumulateOut
| EOutputAddressAccumulateIn _ => F_OutputAddressAccumulateIn
| EOutputTxsAccumulate _ => F_OutputTxsAccumulate
| EAccumulateBalancesReceived _ => F_AccumulateBalancesReceived
| EAccumulateBalancesSent _ => F_AccumulateBalancesSent
| EAccumulateBalancesTransactions _ => F_AccumulateBalancesTransactions
| ETransactionsRewardsOwnersAddress _ => F_TransactionsRewardsOwnersAddress
| ETransactionsRewardsOwnersOutputs _ => F_TransactionsRewardsOwnersOutputs
| ETransactionsRewardsOwners _ => F_TransactionsRewardsOwners
| ETxPool _ => F_TxPool
| EKeyValueStore _ => F_KeyValueStore
| ECvmTransactionsTxdataTrace _ => F_CvmTransactionsTxdataTrace
| ENodeIndex _ => F_NodeIndex
| ECvmLogs _ => F_CvmLogs
| EPvmProposer _ => F_PvmProposer
end.

Definition mock_key (e : entity) : string :=
match e with
| ETransactions v => Transactions_ID v
| EOutputsRedeeming v => OutputsRedeeming_ID v
| EOutputs v => Outputs_ID v
| EAssets v => Assets_ID v
| EAddresses v => Addresses_Address v
| EAddressChain v => AddressChain_Address v +:+ ":" +:+ AddressChain_ChainID v
| EOutputAddresses v => OutputAddresses_OutputID v +:+ ":" +:+ OutputAddresses_Address v
| ETransactionsEpoch v => TransactionsEpoch_ID v
| ECvmBlocks v => CvmBlocks_Block v
| ECvmAddresses v => CvmAddresses_ID v
| ECvmTransactions v => CvmTransactions_ID v
| ECvmTransactionsTxdata v => CvmTransactionsTxdata_Hash v
| EPvmBlocks v => PvmBlocks_ID v
| ERewards v => Rewards_ID v
| ETransactionsValidator v => TransactionsValidator_ID v
| ETransactionsBlock v => TransactionsBlock_ID v
| EAddressBech32 v => AddressBech32_Address v
| EOutputAddressAccumulateOut v => OutputAddressAccumulate_ID v
| EOutputAddressAccumulateIn v => OutputAddressAccumulate_ID v
| EOutputTxsAccumulate v => OutputTxsAccumulate_ID v
| EAccumulateBalancesReceived v => AccumulateBalancesAmount_ID v
| EAccumulateBalancesSent v => AccumulateBalancesAmount_ID v
| EAccumulateBalancesTransactions v => AccumulateBalancesTransactions_ID v
| ETransactionsRewardsOwnersAddress v => TransactionsRewardsOwnersAddress_ID v +:+ " " +:+ TransactionsRewardsOwnersAddress_Address v
| ETransactionsRewardsOwnersOutputs v => TransactionsRewardsOwnersOutputs_ID v
| ETransactionsRewardsOwners v => TransactionsRewardsOwners_ID v
| ETxPool v => TxPool_ID v
| EKeyValueStore v => KeyValueStore_K v
| ECvmTransactionsTxdataTrace v => CvmTransactionsTxdataTrace_Hash v +:+ ":" +:+ Z_to_string (CvmTransactionsTxdataTrace_Idx v)
| ENodeIndex v => NodeIndex_Topic v
| ECvmLogs v => CvmLogs_ID v
| EPvmProposer v => PvmProposer_ID v
end.

Definition mock_value (e : entity) : mock_type (mock_field_of e) :=
match e with
| ETransactions v => v
| EOutputsRedeeming v => v
| EOutputs v => v
| EAssets v => v
| EAddresses v => v
| EAddressChain v => v
| EOutputAddresses v => v
| ETransactionsEpoch v => v
| ECvmBlocks v => v
| ECvmAddresses v => v
| ECvmTransactions v => v
| ECvmTransactionsTxdata v => v
| EPvmBlocks v => v
| ERewards v => v
| ETransactionsValidator v => v
| ETransactionsBlock v => v
| EAddressBech32 v => v
| EOutputAddressAccumulateOut v => v
| EOutputAddressAccumulateIn v => v
| EOutputTxsAccumulate v => v
| EAccumulateBalancesReceived v => v
| EAccumulateBalancesSent v => v
| EAccumulateBalancesTransactions v => v
| ETransactionsRewardsOwnersAddress v => v
| ETransactionsRewardsOwnersOutputs v => v
| ETransactionsRewardsOwners v => v
| ETxPool v => v
| EKeyValueStore v => v
| ECvmTransactionsTxdataTrace v => v
| ENodeIndex v => v
| ECvmLogs v => v
| EPvmProposer v => v
end.

Lemma set_map_eq f g m : set_map f g m f = g (m f).
Proof. unfold set_map. destruct (decide (f = f)) as [E|]; [|done]. by rewrite (proof_irrel E eq_refl). Qed.

Lemma set_map_ne f f' g m : f ≠ f' → set_map f g m f' = m f'.
Proof. unfold set_map. intros Hne. by destruct (decide (f = f')). Qed.

Lemma mock_insert e upd m :
db.insert e upd m = (set_map (mock_field_of e) <[mock_key e := mock_value e]> m, Ok tt).
Proof. by destruct e. Qed.

Definition mock_has (m : MockPersist) (e : entity) : Prop := is_Some (m (mock_field_of e) !! mock_key e).

(** The answer of a query. *)
Lemma mock_query_absent e m : m (mock_field_of e) !! mock_key e = None → db.query e m = (m, Ok (None, None)).
Proof. destruct e; cbn; unfold db.as_entity; intros E; rewrite bind_run; cbn; by rewrite E. Qed.

Lemma mock_query_inserted e m : m (mock_field_of e) !! mock_key e = Some (mock_value e) →
db.query e m = (m, Ok (Some e, None)).
Proof. destruct e; cbn; unfold db.as_entity; intros E; rewrite bind_run; cbn; by rewrite E. Qed.

(** What a change of a map keeps. *)
Lemma mock_has_set f g m e : (∀ k, is_Some (m f !! k) → is_Some (g (m f) !! k)) → mock_has m e → mock_has (set_map f g m) e.
Proof.
unfold mock_has. intros Hg Hs. destruct (decide (f = mock_field_of e)) as [->|Hne].
- rewrite set_map_eq. by apply Hg.
- by rewrite set_map_ne.
Qed.

Lemma mock_has_alter f h k m e : mock_has m e → mock_has (set_map f (alter h k) m) e.
Proof. apply mock_has_set. intros k' Hk. by apply lookup_alter_is_Some. Qed.

#[export] Instance mock_persist_ok : PersistOk MockPersist.
Proof.
refine {| stored := mock_has |}.
- intros e m m'. cbn. rewrite mock_insert. intros [= <-]. unfold mock_has. rewrite set_map_eq, lookup_insert_eq. eauto.
- intros o e m _ Hs. destruct o; cbn [perform mock_persist]; try by apply mock_has_alter.
  + rewrite mock_insert. cbn. apply mock_has_set; [|done]. intros k Hk. apply lookup_insert_is_Some'. by right.
  + cbn. apply mock_has_set; [|done]. intros k Hk. rewrite lookup_fmap. by apply fmap_is_Some.
Defined.

(** The mock keeps what it is given as it is, and its queries report no error. *)
#[export] Instance MockPersist_ok : db.PersistOk MockPersist.
Proof.
refine {| db.well _ := True; db.has := mock_has; db.kept e := e; db.fails _ _ := False |}.
- done.
- intros e m _ Hn. rewrite mock_query_absent; [done|]. by apply eq_None_not_Some.
- intros e upd m m' _ _. rewrite mock_insert. intros [= <-]. left.
  rewrite (mock_query_inserted e); [done|]. by rewrite set_map_eq, lookup_insert_eq.
Defined.
