(* ===== verification/Prog.v ===== *)
(** Programs that write through [db.Persist]: the writers of
    services/indexes/*/writer.go.

    Such code reads the clock ([time.Now()]), calls the write operations of
    the interface, and returns a value or an error; it sees nothing of the
    store but the errors.  [Prog] is its syntax; [run] executes it against any
    implementation of [Persist]; [wp] is its weakest precondition, about the
    sequence of operations it issues; [strict] says it never swallows an error
    of the store. *)

From S2P Require Import Prelude Persist.

Inductive Prog (A : Type) :=
| Ret (a : A)
| Fail (e : error)
| Do (o : pop) (k : result unit → Prog A)
| Now (k : Z → Prog A).
Arguments Ret {A} a.
Arguments Fail {A} e.
Arguments Do {A} o k.
Arguments Now {A} k.

#[global] Instance Prog_ret : MRet Prog := @Ret.
#[global] Instance Prog_bind : MBind Prog := λ A B f,
  fix go p :=
    match p with
    | Ret a => f a
    | Fail e => Fail e
    | Do o k => Do o (λ r, go (k r))
    | Now k => Now (λ t, go (k t))
    end.

Definition lift {A} (r : result A) : Prog A :=
  match r with Ok a => Ret a | Err e => Fail e end.
Definition persist (o : pop) : Prog unit := Do o lift.
Definition time_Now : Prog Z := Now Ret.

(** [err := p]: the error is a value. *)
Fixpoint catch {A} (p : Prog A) : Prog (result A) :=
  match p with
  | Ret a => Ret (Ok a)
  | Fail e => Ret (Err e)
  | Do o k => Do o (λ r, catch (k r))
  | Now k => Now (λ t, catch (k t))
  end.

(** [stacktrace.Propagate] around a computation: the error it returns is changed. *)
Definition wrap_err {A} (f : error → error) (p : Prog A) : Prog A :=
  catch p ≫= λ r, match r with Ok a => Ret a | Err e => Fail (f e) end.

(** [for _, x := range l { acc, err = f(x, acc); if err != nil { return err } }] *)
Fixpoint prog_fold {A B} (l : list A) (acc : B) (f : A → B → Prog B) : Prog B :=
  match l with
  | [] => Ret acc
  | x :: l' => f x acc ≫= λ acc', prog_fold l' acc' f
  end.

Definition prog_each {A} (l : list A) (f : A → Prog unit) : Prog unit :=
  prog_fold l tt (λ x _, f x).

(** [wrappers.Errs] (third-party): [errs.Add(p1, p2, ...)] runs all its arguments
    and remembers the first error. *)
Definition Errs := option error.

Definition errs_note (errs : Errs) (r : result unit) : Errs :=
  match errs, r with
  | None, Err e => Some e
  | _, _ => errs
  end.

Definition errs_Add (ps : list (Prog unit)) (errs : Errs) : Prog Errs :=
  prog_fold ps errs (λ p errs, r ← catch p; Ret (errs_note errs r)).

Definition errs_Err (errs : Errs) : Prog unit :=
  match errs with Some e => Fail e | None => Ret tt end.

(** * Execution *)
Section run.
Context {S : Type} `{Persist S} (clock : nat → Z).

(** The store and the number of clock readings so far. *)
Fixpoint run {A} (p : Prog A) : M (S * nat) A := λ '(s, n),
  match p with
  | Ret a => (s, n, Ok a)
  | Fail e => (s, n, Err e)
  | Do o k => let '(s', r) := perform o s in run (k r) (s', n)
  | Now k => run (k (clock n)) (s, Datatypes.S n)
  end.

(** The store's part: what a caller that has no clock of its own sees. *)
Definition run_store {A} (p : Prog A) : M S A := λ s,
  let '(s', _, r) := run p (s, 0) in (s', r).

Definition performs (l : list pop) : M S unit := for_each l perform.

Lemma run_bind {A B} (p : Prog A) (f : A → Prog B) s n :
  run (p ≫= f) (s, n) =
  match run p (s, n) with
  | (s', n', Ok a) => run (f a) (s', n')
  | (s', n', Err e) => (s', n', Err e)
  end.
Proof.
  revert s n. induction p as [a|e|o k IH|k IH]; intros s n; simpl; [done|done| |apply IH].
  destruct (perform o s) as [s1 r]. apply IH.
Qed.

Lemma run_outcome (p : Prog unit) s n :
  is_ok (run p (s, n)).2 = true →
  run p (s, n) = ((run p (s, n)).1.1, (run p (s, n)).1.2, Ok tt).
Proof. by destruct (run p (s, n)) as [[? ?] [[]|]]. Qed.

Lemma run_catch {A} (p : Prog A) s n :
  run (catch p) (s, n) = let '(s', n', r) := run p (s, n) in (s', n', Ok r).
Proof.
  revert s n. induction p as [a|e|o k IH|k IH]; intros s n; simpl; [done|done| |apply IH].
  destruct (perform o s) as [s1 r]. apply IH.
Qed.
End run.

(** * Weakest preconditions

    [wp p E Q]: whatever the clock says, if every operation succeeds, [p] ends
    with a value and the operations it issued in [Q], or with an error and the
    operations in [E]. *)
Fixpoint wp {A} (p : Prog A) (E : list pop → error → Prop) (Q : list pop → A → Prop) : Prop :=
  match p with
  | Ret a => Q [] a
  | Fail e => E [] e
  | Do o k => wp (k (Ok tt)) (λ l, E (o :: l)) (λ l, Q (o :: l))
  | Now k => ∀ t, wp (k t) E Q
  end.

(** Every operation [p] can issue, on any path, satisfies [P]. *)
Fixpoint emits {A} (P : pop → Prop) (p : Prog A) : Prop :=
  match p with
  | Ret _ | Fail _ => True
  | Do o k => P o ∧ ∀ r, emits P (k r)
  | Now k => ∀ t, emits P (k t)
  end.

(** Every value [p] can return satisfies [Q]. *)
Fixpoint returns {A} (Q : A → Prop) (p : Prog A) : Prop :=
  match p with
  | Ret a => Q a
  | Fail _ => True
  | Do o k => ∀ r, returns Q (k r)
  | Now k => ∀ t, returns Q (k t)
  end.

(** Once an operation has failed, every value [p] can return satisfies [Q]: with
    [Q] false, [p] returns an error. *)
Fixpoint failing {A} (Q : A → Prop) (p : Prog A) : Prop :=
  match p with
  | Ret _ | Fail _ => True
  | Do o k => failing Q (k (Ok tt)) ∧ ∀ e, returns Q (k (Err e))
  | Now k => ∀ t, failing Q (k t)
  end.

Definition strict {A} (p : Prog A) : Prop := failing (λ _, False) p.

Lemma wp_mono {A} (p : Prog A) (E E' : list pop → error → Prop) (Q Q' : list pop → A → Prop) :
  wp p E Q → (∀ l e, E l e → E' l e) → (∀ l a, Q l a → Q' l a) → wp p E' Q'.
Proof.
  revert E E' Q Q'. induction p as [a|e|o k IH|k IH]; simpl; intros E E' Q Q' Hp HE HQ.
  - by apply HQ.
  - by apply HE.
  - eapply IH; [exact Hp| |]; simpl; auto.
  - intros t. eapply IH; [apply Hp| |]; auto.
Qed.

Lemma wp_bind {A B} (p : Prog A) (f : A → Prog B) E Q :
  wp p E (λ l a, wp (f a) (λ l', E (l ++ l')) (λ l', Q (l ++ l'))) → wp (p ≫= f) E Q.
Proof.
  revert E Q. induction p as [a|e|o k IH|k IH]; simpl; intros E Q Hp; [done|done| |].
  - apply IH. exact Hp.
  - intros t. apply IH. apply Hp.
Qed.

Lemma wp_lift {A} (r : result A) E (Q : list pop → A → Prop) :
  (∀ e, r = Err e → E [] e) → (∀ a, r = Ok a → Q [] a) → wp (lift r) E Q.
Proof. destruct r; simpl; auto. Qed.

Lemma wp_catch {A} (p : Prog A) E (Q : list pop → result A → Prop) :
  wp p (λ l e, Q l (Err e)) (λ l a, Q l (Ok a)) → wp (catch p) E Q.
Proof.
  revert E Q. induction p as [a|e|o k IH|k IH]; simpl; intros E Q Hp; [done|done| |].
  - by apply (IH (Ok tt) (λ l, E (o :: l)) (λ l, Q (o :: l))).
  - intros t. apply IH, Hp.
Qed.

Lemma wp_wrap_err {A} f (p : Prog A) E Q :
  wp p (λ l e, E l (f e)) Q → wp (wrap_err f p) E Q.
Proof.
  intros Hp. unfold wrap_err. apply wp_bind, wp_catch.
  eapply wp_mono; [exact Hp| |]; simpl; intros; by rewrite app_nil_r.
Qed.

(** A loop invariant: what has been issued and the accumulator, for the elements
    already visited. *)
Lemma wp_fold {A B} (l : list A) (acc : B) f E (I : list A → list pop → B → Prop) :
  I [] [] acc →
  (∀ done x rest ops b, l = done ++ x :: rest → I done ops b →
     wp (f x b) (λ ops', E (ops ++ ops')) (λ ops', I (done ++ [x]) (ops ++ ops'))) →
  wp (prog_fold l acc f) E (I l).
Proof.
  intros H0 Hstep.
  cut (∀ rest done ops b, l = done ++ rest → I done ops b →
    wp (prog_fold rest b f) (λ ops', E (ops ++ ops')) (λ ops', I l (ops ++ ops'))).
  { intros Hc. eapply wp_mono; [apply (Hc l [] [] acc eq_refl H0)| |]; auto. }
  intros rest. induction rest as [|x rest IH]; intros done ops b El HI; simpl.
  - rewrite app_nil_r in *. by subst.
  - apply wp_bind. eapply wp_mono; [by eapply Hstep| |]; [done|].
    intros ops' b' HI'. simpl. specialize (IH (done ++ [x]) (ops ++ ops') b').
    eapply wp_mono; [apply IH| |]; [by rewrite <-app_assoc|done| |];
      intros; by rewrite app_assoc.
Qed.

Lemma emits_bind {A B} P (p : Prog A) (f : A → Prog B) :
  emits P p → (∀ a, emits P (f a)) → emits P (p ≫= f).
Proof.
  intros Hp Hf. induction p as [a|e|o k IH|k IH]; simpl in *; auto.
  - destruct Hp as [? Hp]. split; [done|]. intros r. by apply IH.
Qed.

Lemma emits_lift {A} P (r : result A) : emits P (lift r).
Proof. by destruct r. Qed.

Lemma emits_fold {A B} P (l : list A) (acc : B) f :
  (∀ x b, emits P (f x b)) → emits P (prog_fold l acc f).
Proof.
  intros Hf. revert acc. induction l as [|x l IH]; intros acc; simpl; [done|].
  by apply emits_bind.
Qed.

Lemma emits_each {A} P (l : list A) f : (∀ x, emits P (f x)) → emits P (prog_each l f).
Proof. intros Hf. apply emits_fold. intros x []. apply Hf. Qed.

Lemma emits_catch {A} P (p : Prog A) : emits P p → emits P (catch p).
Proof.
  induction p as [a|e|o k IH|k IH]; simpl; auto.
  intros [??]. split; [done|]. intros r. auto.
Qed.

Lemma emits_wrap_err {A} P f (p : Prog A) : emits P p → emits P (wrap_err f p).
Proof. intros Hp. apply emits_bind; [by apply emits_catch | by intros []]. Qed.

Lemma emits_mono {A} (P P' : pop → Prop) (p : Prog A) :
  (∀ o, P o → P' o) → emits P p → emits P' p.
Proof. intros Hm. induction p; simpl; auto. intros [??]. auto. Qed.

Lemma emits_true {A} (p : Prog A) : emits (λ _, True) p.
Proof. induction p; simpl; auto. Qed.

Lemma emits_persist P o : P o → emits P (persist o).
Proof. split; [done|]. apply emits_lift. Qed.

Lemma emits_now {A} P (f : Z → Prog A) :
  (∀ t, emits P (f t)) → emits P (time_Now ≫= f).
Proof. intros Hf t. apply Hf. Qed.

Lemma emits_errs_Add P ps errs : Forall (emits P) ps → emits P (errs_Add ps errs).
Proof.
  intros Hps. unfold errs_Add. revert errs. induction Hps; intros errs; simpl; [done|].
  apply emits_bind; [|auto]. apply emits_bind; [by apply emits_catch | done].
Qed.

(** ** Errors of the store are not swallowed *)
Lemma returns_mono {A} (Q Q' : A → Prop) (p : Prog A) :
  (∀ a, Q a → Q' a) → returns Q p → returns Q' p.
Proof. intros HQ. induction p; simpl; auto. Qed.

Lemma returns_bind {A B} Q R (p : Prog A) (f : A → Prog B) :
  returns Q p → (∀ a, Q a → returns R (f a)) → returns R (p ≫= f).
Proof. intros Hp Hf. induction p; simpl in *; auto. Qed.

Lemma returns_true {A} (p : Prog A) : returns (λ _, True) p.
Proof. induction p; simpl; auto. Qed.

Lemma failing_bind {A B} Q R (p : Prog A) (f : A → Prog B) :
  failing Q p → (∀ a, failing R (f a)) → (∀ a, Q a → returns R (f a)) →
  failing R (p ≫= f).
Proof.
  intros Hp Hf HQ. induction p as [a|e|o k IH|k IH]; simpl in *; auto.
  destruct Hp as [Hk He]. split; [by apply IH|]. intros e. by eapply returns_bind.
Qed.

Lemma strict_bind {A B} R (p : Prog A) (f : A → Prog B) :
  strict p → (∀ a, failing R (f a)) → failing R (p ≫= f).
Proof. intros Hp Hf. eapply failing_bind; [exact Hp|done|done]. Qed.

Lemma strict_lift {A} R (r : result A) : failing R (lift r).
Proof. by destruct r. Qed.

Lemma strict_persist R o : failing R (persist o).
Proof. by split. Qed.

Lemma strict_now {A} R (f : Z → Prog A) :
  (∀ t, failing R (f t)) → failing R (time_Now ≫= f).
Proof. intros Hf t. apply Hf. Qed.

Lemma strict_fold {A B} (l : list A) (acc : B) f :
  (∀ x b, strict (f x b)) → strict (prog_fold l acc f).
Proof.
  intros Hf. revert acc. induction l as [|x l IH]; intros acc; simpl; [done|].
  apply strict_bind; [apply Hf | apply IH].
Qed.

Lemma strict_each {A} (l : list A) f : (∀ x, strict (f x)) → strict (prog_each l f).
Proof. intros Hf. apply strict_fold. intros x []. apply Hf. Qed.

Lemma returns_catch {A} (p : Prog A) Q :
  returns Q p → returns (λ r, match r with Ok a => Q a | Err _ => True end) (catch p).
Proof. induction p; simpl; auto. Qed.

Lemma failing_catch {A} (p : Prog A) :
  strict p → failing (λ r, is_ok r = false) (catch p).
Proof.
  unfold strict. induction p as [a|e|o k IH|k IH]; simpl; auto.
  intros [Hk He]. split; [by apply IH|]. intros e. eapply returns_mono; [|by apply returns_catch].
  by intros [].
Qed.

Lemma strict_wrap_err {A} f (p : Prog A) : strict p → strict (wrap_err f p).
Proof.
  intros Hp. eapply failing_bind; [by apply failing_catch| |]; by intros [].
Qed.

(** [errs.Add] remembers that an operation failed. *)
Lemma returns_errs_Add ps errs : is_Some errs → returns is_Some (errs_Add ps errs).
Proof.
  unfold errs_Add. revert errs. induction ps as [|p ps IH]; intros errs He; simpl; [done|].
  eapply returns_bind; [|intros a Ha; by apply IH].
  eapply returns_bind; [apply returns_true|]. intros r _. simpl. by destruct He as [? ->].
Qed.

Lemma failing_errs_Add ps errs : Forall strict ps → failing is_Some (errs_Add ps errs).
Proof.
  intros Hps. unfold errs_Add. revert errs. induction Hps as [|p ps Hp _ IH]; intros errs; simpl; [done|].
  eapply failing_bind; [|apply IH|intros; by apply returns_errs_Add].
  eapply failing_bind; [by apply failing_catch|done|].
  intros [a|e] Hr; [done|]. simpl. destruct errs; by eexists.
Qed.

Lemma strict_errs_Err {A} (p : Prog A) (g : A → Errs) :
  failing (λ a, is_Some (g a)) p → strict (p ≫= λ a, errs_Err (g a)).
Proof.
  intros Hp. eapply failing_bind; [exact Hp| |].
  - intros a. by destruct (g a).
  - intros a [e He]. by rewrite He.
Qed.

#[export] Hint Resolve emits_bind emits_lift emits_fold emits_each emits_catch emits_wrap_err
  emits_persist emits_now emits_errs_Add
  strict_bind strict_lift strict_persist strict_now strict_fold strict_each strict_wrap_err
  failing_errs_Add : magellan.

(** * Adequacy *)
Section adequacy.
Context {S : Type} `{Persist S} (clock : nat → Z).

Lemma run_returns {A} Q (p : Prog A) s n s' n' a :
  returns Q p → run clock p (s, n) = (s', n', Ok a) → Q a.
Proof.
  revert s n. induction p as [b|e|o k IH|k IH]; simpl; intros s n Hp Hr; simplify_eq; [done| |].
  - destruct (perform o s) as [s1 r]. by eapply IH.
  - by eapply IH.
Qed.

(** A run that returns a value performed, in order and successfully, a sequence
    of operations the precondition speaks of. *)
Lemma run_Ok {A} (p : Prog A) E Q s n s' n' a :
  strict p → wp p E Q → run clock p (s, n) = (s', n', Ok a) →
  ∃ l, performs l s = (s', Ok tt) ∧ Q l a.
Proof.
  unfold strict. revert E Q s n.
  induction p as [b|e|o k IH|k IH]; simpl; intros E Q s n Hs Hp Hr; simplify_eq.
  - by exists [].
  - destruct Hs as [Hs He]. destruct (perform o s) as [s1 [[]|e1]] eqn:Eo.
    + destruct (IH _ _ _ _ _ Hs Hp Hr) as (l & Hl & HQ). exists (o :: l).
      unfold performs in *. simpl. rewrite bind_run, Eo. done.
    + exfalso. by eapply (run_returns (λ _, False)).
  - by eapply IH.
Qed.

(** A run that returns an error either performed a sequence of operations and
    gave up, or met an operation that failed. *)
Lemma run_Err {A} (p : Prog A) E Q s n s' n' e :
  wp p E Q → run clock p (s, n) = (s', n', Err e) →
  (∃ l, performs l s = (s', Ok tt) ∧ E l e) ∨
  (∃ l o s1 s2 e', performs l s = (s1, Ok tt) ∧ perform o s1 = (s2, Err e')).
Proof.
  revert E Q s n. induction p as [b|e'|o k IH|k IH]; simpl; intros E Q s n Hp Hr; simplify_eq.
  - left. by exists [].
  - destruct (perform o s) as [s1 [[]|e1]] eqn:Eo.
    + destruct (IH _ _ _ _ _ Hp Hr) as [(l & Hl & HE)|(l & o' & s2 & s3 & e' & Hl & Ho)];
        [left|right].
      * exists (o :: l). unfold performs in *. simpl. by rewrite bind_run, Eo.
      * exists (o :: l), o', s2, s3, e'. unfold performs in *. simpl. by rewrite bind_run, Eo.
    + right. by exists [], o, s, s1, e1.
  - by eapply IH.
Qed.

(** What the operations a program can issue keep, whatever their outcome, the
    program keeps. *)
Lemma run_invariant {A} (I : S → Prop) (P : pop → Prop) (p : Prog A) s n :
  emits P p → (∀ o s0, P o → I s0 → I (perform o s0).1) → I s → I (run clock p (s, n)).1.1.
Proof.
  intros Hp Ho. revert s n. induction p as [b|e|o k IH|k IH]; simpl in *; intros s n Hs; try done.
  - destruct Hp as [HP Hp]. pose proof (Ho o s HP Hs) as H1.
    destruct (perform o s) as [s1 r]; simpl in *. by apply IH.
  - by apply IH.
Qed.

Lemma run_store_invariant {A} (I : S → Prop) (P : pop → Prop) (p : Prog A) s :
  emits P p → (∀ o s0, P o → I s0 → I (perform o s0).1) → I s → I (run_store clock p s).1.
Proof.
  intros Hp Ho Hs. unfold run_store. pose proof (run_invariant I P p s 0 Hp Ho Hs) as HI.
  by destruct (run clock p (s, 0)) as [[s' n'] r].
Qed.

Lemma run_store_Ok {A} (p : Prog A) E Q s s' a :
  strict p → wp p E Q → run_store clock p s = (s', Ok a) →
  ∃ l, performs l s = (s', Ok tt) ∧ Q l a.
Proof.
  unfold run_store. intros Hs Hp Hr. destruct (run clock p (s, 0)) as [[s1 n1] r] eqn:E1.
  simplify_eq. by eapply run_Ok.
Qed.
End adequacy.

(** Sequencing of the operations performed. *)
Lemma performs_app {S : Type} `{Persist S} l1 l2 (s : S) :
  performs (l1 ++ l2) s = (performs l1 ≫= λ _, performs l2) s.
Proof. apply for_each_app. Qed.

(** Structural proofs of [strict] and [emits] on writer code. *)
Ltac strict_step :=
  match goal with
  | |- strict (_ ≫= _) => apply strict_bind; [|intros ?]
  | |- failing _ (_ ≫= _) => first [apply strict_now; intros ? | apply strict_bind; [|intros ?]]
  | |- strict (lift _) => apply strict_lift
  | |- failing _ (lift _) => apply strict_lift
  | |- strict (persist _) => apply strict_persist
  | |- failing _ (persist _) => apply strict_persist
  | |- strict (prog_fold _ _ _) => apply strict_fold; intros ? ?
  | |- strict (prog_each _ _) => apply strict_each; intros ?
  | |- strict (wrap_err _ _) => apply strict_wrap_err
  | |- strict (Ret _) => exact I
  | |- strict (Fail _) => exact I
  | |- strict time_Now => intros ?; exact I
  | |- failing _ (Ret _) => exact I
  | |- failing _ (Fail _) => exact I
  | |- context [match ?x with _ => _ end] => destruct x
  end.
Ltac solve_strict := repeat (change (failing (λ _, False) ?p) with (strict p) || strict_step);
  auto with magellan.

Ltac emits_step :=
  match goal with
  | |- emits _ (time_Now ≫= _) => apply emits_now; intros ?
  | |- emits _ (_ ≫= _) => apply emits_bind; [|intros ?]
  | |- emits _ (lift _) => apply emits_lift
  | |- emits _ (persist _) => apply emits_persist
  | |- emits _ (prog_fold _ _ _) => apply emits_fold; intros ? ?
  | |- emits _ (prog_each _ _) => apply emits_each; intros ?
  | |- emits _ (wrap_err _ _) => apply emits_wrap_err
  | |- emits _ (Ret _) => exact I
  | |- emits _ (Fail _) => exact I
  | |- context [match ?x with _ => _ end] => destruct x
  end.
Ltac solve_emits := repeat emits_step; auto with magellan.

Lemma wp_and {A} (p : Prog A) E E' (Q Q' : list pop → A → Prop) :
  wp p E Q → wp p E' Q' → wp p (λ l e, E l e ∧ E' l e) (λ l a, Q l a ∧ Q' l a).
Proof.
  revert E E' Q Q'. induction p as [a|e|o k IH|k IH]; simpl; intros E E' Q Q' H1 H2; auto.
Qed.

Lemma emits_wp {A} (P : pop → Prop) (p : Prog A) :
  emits P p → wp p (λ l _, Forall P l) (λ l _, Forall P l).
Proof.
  induction p as [a|e|o k IH|k IH]; simpl; auto.
  intros [Ho Hk]. eapply wp_mono; [by apply IH| |]; simpl; auto.
Qed.

(** Partial correctness: nothing is said of the runs that end with an error. *)
Definition wlp {A} (p : Prog A) (Q : list pop → A → Prop) : Prop := wp p (λ _ _, True) Q.

Lemma wlp_bind {A B} (p : Prog A) (f : A → Prog B) Q :
  wlp p (λ l a, wlp (f a) (λ l', Q (l ++ l'))) → wlp (p ≫= f) Q.
Proof. apply wp_bind. Qed.

Lemma wlp_mono {A} (p : Prog A) (Q Q' : list pop → A → Prop) :
  wlp p Q → (∀ l a, Q l a → Q' l a) → wlp p Q'.
Proof. intros Hp HQ. by eapply wp_mono. Qed.

Lemma wlp_lift {A} (r : result A) (Q : list pop → A → Prop) :
  (∀ a, r = Ok a → Q [] a) → wlp (lift r) Q.
Proof. intros. by apply wp_lift. Qed.

Lemma wlp_ret {A} (a : A) (Q : list pop → A → Prop) : Q [] a → wlp (Ret a) Q.
Proof. done. Qed.

Lemma wlp_persist o (Q : list pop → unit → Prop) : Q [o] tt → wlp (persist o) Q.
Proof. done. Qed.

Lemma wlp_now {A} (f : Z → Prog A) Q : (∀ t, wlp (f t) Q) → wlp (time_Now ≫= f) Q.
Proof. intros Hf t. apply Hf. Qed.

Lemma wlp_wrap_err {A} f (p : Prog A) Q : wlp p Q → wlp (wrap_err f p) Q.
Proof. intros Hp. by apply wp_wrap_err. Qed.

Lemma wlp_and {A} (p : Prog A) (Q Q' : list pop → A → Prop) :
  wlp p Q → wlp p Q' → wlp p (λ l a, Q l a ∧ Q' l a).
Proof. intros H1 H2. eapply wp_mono; [apply (wp_and _ _ _ _ _ H1 H2)| |]; auto. Qed.

(** A part of the program that issues none of the operations [sel] selects. *)
Lemma wlp_silent {A B} (sel : pop → option B) (p : Prog A) :
  emits (λ o, sel o = None) p → wlp p (λ l _, omap sel l = []).
Proof.
  intros Hp. eapply wp_mono; [by apply emits_wp|done|]. simpl.
  intros l _ Hl. induction Hl as [|o l Ho _ IH]; simpl; [done|]. by rewrite Ho.
Qed.

Lemma wlp_true {A} (p : Prog A) : wlp p (λ _ _, True).
Proof. eapply wp_mono; [apply (emits_wp (λ _, True)), emits_true|done|done]. Qed.

(** What only the last part of a program establishes. *)
Lemma wlp_bind_last {A B} (p : Prog A) (f : A → Prog B) (Q : list pop → B → Prop) :
  (∀ a l, wlp (f a) (λ l' b, Q (l ++ l') b)) → wlp (p ≫= f) Q.
Proof. intros Hf. apply wlp_bind. eapply wlp_mono; [apply wlp_true|]. auto. Qed.

(** A fact about a sequence of operations that survives the ones around it. *)
Definition within (P : list pop → Prop) : Prop := ∀ l l1 l2, P l → P (l1 ++ l ++ l2).

Lemma within_elem (P : pop → Prop) : within (λ l, ∃ o, o ∈ l ∧ P o).
Proof. intros l l1 l2 (o & Ho & HP). exists o. rewrite !elem_of_app. auto. Qed.

Lemma within_true : within (λ _, True).
Proof. done. Qed.

Lemma within_l P l l' : within P → P l → P (l ++ l').
Proof. intros HP Hl. by apply (HP l []). Qed.
Lemma within_r P l l' : within P → P l' → P (l ++ l').
Proof. intros HP Hl. rewrite <-(app_nil_r l'). by apply HP. Qed.

(** [errs.Add]: when no error is remembered, every argument did its work. *)
Lemma wlp_errs_Add (pPs : list (Prog unit * (list pop → Prop))) errs :
  Forall (λ pP, within pP.2 ∧ wlp pP.1 (λ l _, pP.2 l)) pPs →
  wlp (errs_Add (map fst pPs) errs)
    (λ l e, e = None → errs = None ∧ Forall (λ pP, pP.2 l) pPs).
Proof.
  unfold errs_Add. intros Hps. revert errs.
  induction Hps as [|[p P] pPs [HP Hp] Hps IH]; intros errs; simpl in *.
  - apply wlp_ret. done.
  - apply wlp_bind, wlp_bind. unfold wlp. apply wp_catch.
    assert (Forall (λ pP, within pP.2) pPs) as Hw by (eapply Forall_impl; [exact Hps|]; by intros ? []).
    eapply wp_mono; [exact Hp| |]; simpl.
    + intros l x _. eapply wlp_mono; [apply IH|]. simpl. intros l' e He Hn.
      destruct (He Hn) as [Hx _]. by destruct errs.
    + intros l [] HPl. eapply wlp_mono; [apply IH|]. simpl. intros l' e He Hn.
      destruct (He Hn) as [Hx Hv]. rewrite app_nil_r in *. split; [by destruct errs|].
      constructor; [by apply within_l|].
      clear -Hv Hw. induction Hv; simpl in *; [done|]. apply Forall_cons in Hw as [? Hw].
      constructor; [by apply within_r | auto].
Qed.

Lemma wlp_errs_Err errs (Q : list pop → unit → Prop) :
  (errs = None → Q [] tt) → wlp (errs_Err errs) Q.
Proof. by destruct errs; [|intros HQ; apply HQ]. Qed.
