(* ===== verification/Models.v ===== *)
(** Enumerations and configuration of the program (models/types.go,
    cfg/globals.go, services/services.go) and the transaction data of
    axia-network-v2 the writers take apart. *)

From S2P Require Import Prelude Axia.

(** * models/types.go *)
Module models.
Definition AXChainIn : Z := 1.
Definition AXchainOut : Z := 2.
Definition AXChainImport : Z := 1.
Definition AXChainExport : Z := 2.

Definition OutputTypesSECP2556K1Transfer : Z := 7.
Definition OutputTypesSECP2556K1Mint : Z := 6.
Definition OutputTypesNFTMint : Z := 10.
Definition OutputTypesNFTTransfer : Z := 11.
Definition OutputTypesAtomicExportTx : Z := 0xFFFFFFF1.
Definition OutputTypesAtomicImportTx : Z := 0xFFFFFFF2.

Definition BlockTypeProposal : Z := 0.
Definition BlockTypeAbort : Z := 1.
Definition BlockTypeCommit : Z := 2.
Definition BlockTypeStandard : Z := 3.
Definition BlockTypeAtomic : Z := 4.

Definition TransactionTypeBase : Z := 0.
Definition TransactionTypeCreateAsset : Z := 1.
Definition TransactionTypeOperation : Z := 2.
Definition TransactionTypeAVMImport : Z := 3.
Definition TransactionTypeAVMExport : Z := 4.
Definition TransactionTypeAddValidator : Z := 0xc.
Definition TransactionTypeAddSubnetValidator : Z := 0xd.
Definition TransactionTypeAddDelegator : Z := 0xe.
Definition TransactionTypeCreateChain : Z := 0xf.
Definition TransactionTypeCreateSubnet : Z := 0x10.
Definition TransactionTypePVMImport : Z := 0x11.
Definition TransactionTypePVMExport : Z := 0x12.
Definition TransactionTypeAdvanceTime : Z := 0x13.
Definition TransactionTypeRewardValidator : Z := 0x14.

Definition TypeUnknown : string := "unknown".

Definition TransactionType_String (t : Z) : string :=
  if (t =? TransactionTypeBase)%Z then "base"
  else if (t =? TransactionTypeCreateAsset)%Z then "create_asset"
  else if (t =? TransactionTypeOperation)%Z then "operation"
  else if (t =? TransactionTypeAVMImport)%Z then "import"
  else if (t =? TransactionTypeAVMExport)%Z then "export"
  else if (t =? TransactionTypeAddValidator)%Z then "add_validator"
  else if (t =? TransactionTypeAddSubnetValidator)%Z then "add_subnet_validator"
  else if (t =? TransactionTypeAddDelegator)%Z then "add_delegator"
  else if (t =? TransactionTypeCreateChain)%Z then "create_chain"
  else if (t =? TransactionTypeCreateSubnet)%Z then "create_subnet"
  else if (t =? TransactionTypePVMImport)%Z then "pvm_import"
  else if (t =? TransactionTypePVMExport)%Z then "pvm_export"
  else if (t =? TransactionTypeAdvanceTime)%Z then "advance_time"
  else if (t =? TransactionTypeRewardValidator)%Z then "reward_validator"
  else TypeUnknown.

Definition OutputType_String (t : Z) : string :=
  if (t =? OutputTypesSECP2556K1Transfer)%Z then "secp256k1_transfer"
  else if (t =? OutputTypesSECP2556K1Mint)%Z then "secp256k1_mint"
  else if (t =? OutputTypesNFTTransfer)%Z then "nft_transfer"
  else if (t =? OutputTypesNFTMint)%Z then "nft_mint"
  else if (t =? OutputTypesAtomicExportTx)%Z then "atomic_export"
  else if (t =? OutputTypesAtomicImportTx)%Z then "atomic_import"
  else TypeUnknown.
End models.

(** * Process-wide variables: [cfg.PerformUpdates] and [models.Bech32HRP] *)
Class Cfg := {
  PerformUpdates : bool;
  Bech32HRP : string;
}.

(** The normal operation: no updates. *)
Definition default_cfg : Cfg := {| PerformUpdates := false; Bech32HRP := "axc" |}.

(** * services/services.go: the context a writer runs in

    The database session and the persist of the Go struct are the store that
    [run] threads. *)
Record ConsumerCtx := mkConsumerCtx { ctx_Time : Z }.

(** [time.Unix(ts, nanosecond)], as nanoseconds since the epoch. *)
Definition NewConsumerContext (ts nanosecond : Z) : ConsumerCtx :=
  mkConsumerCtx (ts * 10 ^ 9 + nanosecond).

(** * Transactions of axia-network-v2 *)
Record OutputOwners := mkOutputOwners {
  Owners_Locktime : Z;
  Owners_Threshold : Z;
  Owners_Addrs : list string;     (* the addresses as byte slices *)
}.

(** [secp256k1fx.TransferOutput] *)
Record TransferOutput := mkTransferOutput {
  Amt : Z;
  Owners : OutputOwners;
}.

(** The dynamic types of [verify.State] the program distinguishes. *)
Inductive State :=
| StakeableLockOut (Locktime : Z) (TransferableOut : option TransferOutput)
| NFTTransferOutput (GroupID : Z) (Payload : option string) (owners : OutputOwners)
| NFTMintOutput (GroupID : Z) (owners : OutputOwners)
| SECPMintOutput (owners : OutputOwners)
| SECPTransferOutput (out : TransferOutput)
| OtherState (type_name : string).

Record TransferableOutput := mkTransferableOutput {
  out_AssetID : ID;
  out_Out : State;
}.

Record TransferableInput := mkTransferableInput {
  in_TxID : ID;
  in_OutputIndex : Z;
  in_AssetID : ID;
  in_Amount : Z;                  (* in.Input().Amount() *)
}.

(** A credential: its signatures when it is a [secp256k1fx.Credential]. *)
Definition Credential := option (list string).

Record BaseTx := mkBaseTx {
  BaseTx_ID : ID;
  BaseTx_NetworkID : Z;
  BaseTx_Outs : list TransferableOutput;
  BaseTx_Ins : list TransferableInput;
  BaseTx_Memo : option string;
}.

(** [copy(addr[:], b)] into a zero [20]byte. *)
Definition copy_ShortID (b : string) : ShortID :=
  String.substring 0 20 b +:+ String.concat "" (repeat (String.String Ascii.zero "") (20 - String.length b)).

(** [ids.ID{}] *)
Definition ids_Empty : ID := String.concat "" (repeat (String.String Ascii.zero "") 32).

(** Length of a byte slice; nil has none. *)
Definition bytes_len (b : option string) : Z :=
  match b with Some s => Z.of_nat (String.length s) | None => 0%Z end.
