(* ===== verification/AxcWriter.v ===== *)
(** The indexing of a base transaction: services/indexes/axc/writer.go. *)

From S2P Require Import Prelude Errors Axia DbModel Persist Prog Models.

(** * Definitions *)
Definition MaxSerializationLen : Z := (16 * 1024 * 1024) - 1.
Definition MaxMemoLen : Z := 1024.

Module axc.
Record Writer := mkWriter {
  chainID : string;
  axcAssetID : ID;
}.

Definition NewWriter (chainID : string) (axcAssetID : ID) : Writer :=
  mkWriter chainID axcAssetID.

Record AddInsContainer := mkAddInsContainer {
  AddIns_Ins : list TransferableInput;
  AddIns_ChainID : string;
}.

Record AddOutsContainer := mkAddOutsContainer {
  AddOuts_Outs : list TransferableOutput;
  AddOuts_Stake : bool;
  AddOuts_ChainID : string;
}.

Section writer.
Context `{!AxiaIds} `{!AxiaMath} `{!AxiaCrypto} `{!Cfg}.
(** [stacktrace.Propagate] and [fmt.Sprint] of a Go type are third-party. *)
Context (Propagate : error → string → error).

Definition InsertTransactionBase (ctx : ConsumerCtx) (txID : ID) (chainID txType : string)
    (memo txBytes : option string) (txfee : Z) (genesis : bool) (networkID : Z) : Prog unit :=
  let txBytes := if (MaxSerializationLen <? bytes_len txBytes)%Z then Some "" else txBytes in
  let memo := if (MaxMemoLen <? bytes_len memo)%Z then None else memo in
  persist (PInsert (ETransactions {|
    Transactions_ID := ID_String txID;
    Transactions_ChainID := chainID;
    Transactions_Type := txType;
    Transactions_Memo := memo;
    Transactions_CanonicalSerialization := txBytes;
    Transactions_Txfee := txfee;
    Transactions_NetworkID := networkID;
    Transactions_Genesis := genesis;
    Transactions_CreatedAt := ctx_Time ctx;
  |}) PerformUpdates).

Definition InsertAddressFromPublicKey (ctx : ConsumerCtx) (publicKey : PublicKey) : Prog unit :=
  now ← time_Now;
  persist (PInsert (EAddresses {|
    Addresses_Address := ShortID_String (PublicKey_Address publicKey);
    Addresses_PublicKey := Some (PublicKey_Bytes publicKey);
    Addresses_CreatedAt := ctx_Time ctx;
    Addresses_UpdatedAt := now;
  |}) PerformUpdates).

Definition InsertOutputAddress (ctx : ConsumerCtx) (outputID : ID) (address : ShortID)
    (sig : option string) (txID : ID) (idx : Z) (chainID : string) : Prog unit :=
  now1 ← time_Now;
  _ ← persist (PInsert (EAddressChain {|
    AddressChain_Address := ShortID_String address;
    AddressChain_ChainID := chainID;
    AddressChain_CreatedAt := ctx_Time ctx;
    AddressChain_UpdatedAt := now1;
  |}) PerformUpdates);
  bech32Addr ← lift (FormatBech32 Bech32HRP address);
  now2 ← time_Now;
  _ ← persist (PInsert (EAddressBech32 {|
    AddressBech32_Address := ShortID_String address;
    AddressBech32_Bech32Address := bech32Addr;
    AddressBech32_UpdatedAt := now2;
  |}) PerformUpdates);
  now3 ← time_Now;
  outputAddressAccumulate ← lift (OutputAddressAccumulate_ComputeID {|
    OutputAddressAccumulate_ID := "";
    OutputAddressAccumulate_OutputID := ID_String outputID;
    OutputAddressAccumulate_Address := ShortID_String address;
    OutputAddressAccumulate_Processed := 0;
    OutputAddressAccumulate_OutputProcessed := 0;
    OutputAddressAccumulate_TransactionID := ID_String txID;
    OutputAddressAccumulate_OutputIndex := idx;
    OutputAddressAccumulate_CreatedAt := now3;
  |});
  _ ← persist (PInsert (EOutputAddressAccumulateOut outputAddressAccumulate) PerformUpdates);
  _ ← persist (PInsert (EOutputAddressAccumulateIn outputAddressAccumulate) PerformUpdates);
  now4 ← time_Now;
  let outputAddresses := {|
    OutputAddresses_OutputID := ID_String outputID;
    OutputAddresses_Address := ShortID_String address;
    OutputAddresses_RedeemingSignature := sig;
    OutputAddresses_CreatedAt := ctx_Time ctx;
    OutputAddresses_UpdatedAt := now4;
  |} in
  _ ← persist (PInsert (EOutputAddresses outputAddresses) PerformUpdates);
  match sig with
  | None => Ret tt
  | Some _ => persist (PUpdateOutputAddresses outputAddresses)
  end.

(** One iteration of the loop over [out.Addresses()]. *)
Definition InsertOutput_address (ctx : ConsumerCtx) (outputID txID : ID) (idx : Z)
    (assetID : ID) (chainID : string) (addr : string) : Prog unit :=
  let addrid := copy_ShortID addr in
  _ ← InsertOutputAddress ctx outputID addrid None txID idx chainID;
  now ← time_Now;
  outputTxsAccumulate ← lift (OutputTxsAccumulate_ComputeID {|
    OutputTxsAccumulate_ID := "";
    OutputTxsAccumulate_ChainID := chainID;
    OutputTxsAccumulate_AssetID := ID_String assetID;
    OutputTxsAccumulate_Address := ShortID_String addrid;
    OutputTxsAccumulate_TransactionID := ID_String txID;
    OutputTxsAccumulate_Processed := 0;
    OutputTxsAccumulate_CreatedAt := now;
  |});
  persist (PInsert (EOutputTxsAccumulate outputTxsAccumulate) false).

Definition InsertOutput (ctx : ConsumerCtx) (txID : ID) (idx : Z) (assetID : ID)
    (out : TransferOutput) (outputType groupID : Z) (payload : option string)
    (stakeLocktime : Z) (chainID : string) (stake frozen stakeableout genesisutxo : bool)
    : Prog unit :=
  let outputID := ID_Prefix txID idx in
  _ ← prog_each (Owners_Addrs (Owners out))
        (InsertOutput_address ctx outputID txID idx assetID chainID);
  persist (PInsert (EOutputs {|
    Outputs_ID := ID_String outputID;
    Outputs_ChainID := chainID;
    Outputs_TransactionID := ID_String txID;
    Outputs_OutputIndex := idx;
    Outputs_OutputType := outputType;
    Outputs_AssetID := ID_String assetID;
    Outputs_Amount := Amt out;
    Outputs_Locktime := Owners_Locktime (Owners out);
    Outputs_Threshold := Owners_Threshold (Owners out);
    Outputs_GroupID := groupID;
    Outputs_Payload := payload;
    Outputs_StakeLocktime := stakeLocktime;
    Outputs_Stake := stake;
    Outputs_Frozen := frozen;
    Outputs_Stakeableout := stakeableout;
    Outputs_Genesisutxo := genesisutxo;
    Outputs_CreatedAt := ctx_Time ctx;
  |}) PerformUpdates).

Definition xOut (oo : OutputOwners) : TransferOutput := mkTransferOutput 0 oo.

Definition ErrInvalidTransferOutput : error := "invalid type *secp256k1fx.TransferOutput".

(** [if assetID == w.axcAssetID { totalout, err = math.Add64(totalout, amt) }] *)
Definition add_axc (w : Writer) (assetID : ID) (total amt : Z) : result Z :=
  if decide (assetID = axcAssetID w) then Add64 total amt else Ok total.

Definition ProcessStateOut (w : Writer) (ctx : ConsumerCtx) (out : State) (txID : ID)
    (outputCount : Z) (assetID : ID) (amount totalout : Z) (chainID : string)
    (stake genesisutxo : bool) : Prog (Z * Z) :=
  match out with
  | StakeableLockOut locktime None => Fail ErrInvalidTransferOutput
  | StakeableLockOut locktime (Some xout) =>
      totalout ← lift (add_axc w assetID totalout (Amt xout));
      _ ← InsertOutput ctx txID outputCount assetID xout
            models.OutputTypesSECP2556K1Transfer 0 None locktime chainID
            stake false true genesisutxo;
      Ret (amount, totalout)
  | NFTTransferOutput groupID payload owners =>
      _ ← InsertOutput ctx txID outputCount assetID (xOut owners)
            models.OutputTypesNFTTransfer groupID payload 0 chainID
            stake false false genesisutxo;
      Ret (amount, totalout)
  | NFTMintOutput groupID owners =>
      _ ← InsertOutput ctx txID outputCount assetID (xOut owners)
            models.OutputTypesNFTMint groupID None 0 chainID
            stake false false genesisutxo;
      Ret (amount, totalout)
  | SECPMintOutput owners =>
      _ ← InsertOutput ctx txID outputCount assetID (xOut owners)
            models.OutputTypesSECP2556K1Mint 0 None 0 chainID
            stake false false genesisutxo;
      Ret (amount, totalout)
  | SECPTransferOutput typedOut =>
      totalout ← lift (add_axc w assetID totalout (Amt typedOut));
      _ ← InsertOutput ctx txID outputCount assetID typedOut
            models.OutputTypesSECP2556K1Transfer 0 None 0 chainID
            stake false false genesisutxo;
      amount ← wrap_err (λ e, Propagate e ("add " +:+ Z_to_string (Amt typedOut) +:+
                                           " to " +:+ Z_to_string amount))
                 (lift (Add64 amount (Amt typedOut)));
      Ret (amount, totalout)
  | OtherState type_name => Fail ("unknown type " +:+ type_name)
  end.

Definition InsertTransactionOuts (w : Writer) (idx : Z) (ctx : ConsumerCtx) (totalout : Z)
    (out : TransferableOutput) (txID : ID) (chainID : string) (stake genesisutxo : bool)
    : Prog Z :=
  r ← ProcessStateOut w ctx (out_Out out) txID idx (out_AssetID out) 0 totalout chainID
        stake genesisutxo;
  Ret r.2.

(** The loop over the signatures of a credential. *)
Definition InsertTransactionIns_sig (ctx : ConsumerCtx) (inputID : ID)
    (i : TransferableInput) (unsignedBytes : string) (chainID : string) (sig : string)
    : Prog unit :=
  publicKey ← lift (RecoverPublicKey unsignedBytes sig);
  _ ← InsertAddressFromPublicKey ctx publicKey;
  InsertOutputAddress ctx inputID (PublicKey_Address publicKey) (Some sig)
    (in_TxID i) (in_OutputIndex i) chainID.

Definition InsertTransactionIns (w : Writer) (idx : nat) (ctx : ConsumerCtx) (totalin : Z)
    (i : TransferableInput) (txID : ID) (creds : list Credential) (unsignedBytes : string)
    (chainID : string) : Prog Z :=
  totalin ← lift (add_axc w (in_AssetID i) totalin (in_Amount i));
  let inputID := ID_Prefix (in_TxID i) (in_OutputIndex i) in
  _ ← match creds !! idx with
      | Some (Some sigs) =>
          prog_each sigs (InsertTransactionIns_sig ctx inputID i unsignedBytes chainID)
      | _ => Ret tt
      end;
  _ ← persist (PUpdateOutputAddressAccumulateInOutputsProcessed (ID_String inputID));
  _ ← persist (PInsert (EOutputsRedeeming {|
        OutputsRedeeming_ID := ID_String inputID;
        OutputsRedeeming_RedeemedAt := ctx_Time ctx;
        OutputsRedeeming_RedeemingTransactionID := ID_String txID;
        OutputsRedeeming_Amount := in_Amount i;
        OutputsRedeeming_OutputIndex := in_OutputIndex i;
        OutputsRedeeming_Intx := ID_String (in_TxID i);
        OutputsRedeeming_AssetID := ID_String (in_AssetID i);
        OutputsRedeeming_ChainID := chainID;
        OutputsRedeeming_CreatedAt := ctx_Time ctx;
      |}) PerformUpdates);
  Ret totalin.

(** The loops of [InsertTransaction] carry an index and a running total. *)
Definition ins_loop (w : Writer) (ctx : ConsumerCtx) (txID : ID) (creds : list Credential)
    (unsignedBytes chainID : string) (ins : list TransferableInput) (st : nat * Z)
    : Prog (nat * Z) :=
  prog_fold ins st (λ i '(inidx, totalin),
    totalin ← InsertTransactionIns w inidx ctx totalin i txID creds unsignedBytes chainID;
    Ret (S inidx, totalin)).

Definition outs_loop (w : Writer) (ctx : ConsumerCtx) (txID : ID) (chainID : string)
    (stake : bool) (outs : list TransferableOutput) (st : Z * Z) : Prog (Z * Z) :=
  prog_fold outs st (λ out '(idx, totalout),
    totalout ← InsertTransactionOuts w idx ctx totalout out txID chainID stake false;
    Ret (u32_add idx 1, totalout)).

(** The fee: what the inputs bring beyond the outputs, never negative. *)
Definition fee (totalin totalout addlOutTxfee : Z) (genesis : bool) : Z :=
  let txfee := u64_sub totalin (u64_add totalout addlOutTxfee) in
  if genesis then 0%Z
  else if (totalin <? u64_add totalout addlOutTxfee)%Z then 0%Z
  else txfee.

Definition InsertTransaction (w : Writer) (ctx : ConsumerCtx) (txBytes : option string)
    (unsignedBytes : string) (baseTx : BaseTx) (creds : list Credential) (txType : Z)
    (addIns : option AddInsContainer) (addOuts : option AddOutsContainer)
    (addlOutTxfee : Z) (genesis : bool) : Prog unit :=
  let txID := BaseTx_ID baseTx in
  ins1 ← ins_loop w ctx txID creds unsignedBytes (chainID w) (BaseTx_Ins baseTx) (0, 0%Z);
  ins2 ← match addIns with
         | None => Ret ins1
         | Some a =>
             ins_loop w ctx txID creds unsignedBytes (AddIns_ChainID a) (AddIns_Ins a) ins1
         end;
  outs1 ← outs_loop w ctx txID (chainID w) false (BaseTx_Outs baseTx) (0%Z, 0%Z);
  outs2 ← match addOuts with
          | None => Ret outs1
          | Some a =>
              outs_loop w ctx txID (AddOuts_ChainID a) (AddOuts_Stake a) (AddOuts_Outs a) outs1
          end;
  InsertTransactionBase ctx txID (chainID w) (models.TransactionType_String txType)
    (BaseTx_Memo baseTx) txBytes (fee ins2.2 outs2.2 addlOutTxfee genesis) genesis
    (BaseTx_NetworkID baseTx).
End writer.
End axc.

(** * Facts *)
Section strictness.
Context `{!AxiaIds} `{!AxiaMath} `{!AxiaCrypto} `{!Cfg} (Propagate : error → string → error).
Import axc.

Lemma InsertTransactionBase_strict ctx txID chainID txType memo txBytes txfee genesis networkID :
  strict (InsertTransactionBase ctx txID chainID txType memo txBytes txfee genesis networkID).
Proof. apply strict_persist. Qed.

Lemma InsertOutputAddress_strict ctx outputID address sig txID idx chainID :
  strict (InsertOutputAddress ctx outputID address sig txID idx chainID).
Proof. unfold InsertOutputAddress. solve_strict. Qed.

Lemma InsertOutput_strict ctx txID idx assetID out ot g p sl chainID a b c d :
  strict (InsertOutput ctx txID idx assetID out ot g p sl chainID a b c d).
Proof.
  unfold InsertOutput, InsertOutput_address. solve_strict. apply InsertOutputAddress_strict.
Qed.

Lemma ProcessStateOut_strict w ctx out txID n assetID amount totalout chainID a b :
  strict (ProcessStateOut Propagate w ctx out txID n assetID amount totalout chainID a b).
Proof. unfold ProcessStateOut. solve_strict. all: try apply InsertOutput_strict. Qed.

Lemma InsertTransactionOuts_strict w idx ctx totalout out txID chainID a b :
  strict (InsertTransactionOuts Propagate w idx ctx totalout out txID chainID a b).
Proof. unfold InsertTransactionOuts. solve_strict. apply ProcessStateOut_strict. Qed.

Lemma InsertTransactionIns_strict w idx ctx totalin i txID creds ub chainID :
  strict (InsertTransactionIns w idx ctx totalin i txID creds ub chainID).
Proof.
  unfold InsertTransactionIns, InsertTransactionIns_sig, InsertAddressFromPublicKey.
  solve_strict. apply InsertOutputAddress_strict.
Qed.

Lemma InsertTransaction_strict w ctx txBytes ub baseTx creds txType addIns addOuts fee genesis :
  strict (InsertTransaction Propagate w ctx txBytes ub baseTx creds txType addIns addOuts fee genesis).
Proof.
  unfold InsertTransaction, ins_loop, outs_loop. solve_strict.
  all: first [apply InsertTransactionIns_strict | apply InsertTransactionOuts_strict
             | apply InsertTransactionBase_strict].
Qed.
End strictness.

(** ** What a base transaction is indexed as *)

(** The rows that record the transaction itself, its inputs and its outputs. *)
Definition main_row (o : pop) : option entity :=
  match o with
  | PInsert (EOutputs _ as e) _ | PInsert (EOutputsRedeeming _ as e) _
  | PInsert (ETransactions _ as e) _ => Some e
  | _ => None
  end.

(** The owners, type, group, payload and stake lock of an output, and its amount. *)
Definition state_transfer (out : State) : TransferOutput :=
  match out with
  | StakeableLockOut _ (Some x) | SECPTransferOutput x => x
  | NFTTransferOutput _ _ o | NFTMintOutput _ o | SECPMintOutput o => mkTransferOutput 0 o
  | _ => mkTransferOutput 0 (mkOutputOwners 0 0 [])
  end.

Definition state_known (out : State) : Prop :=
  match out with StakeableLockOut _ None | OtherState _ => False | _ => True end.

Definition output_row `{!AxiaIds} (ctx : ConsumerCtx) (txID : ID) (chainID : string)
    (stake genesisutxo : bool) (idx : Z) (assetID : ID) (out : State) : Outputs := {|
  Outputs_ID := ID_String (ID_Prefix txID idx);
  Outputs_ChainID := chainID;
  Outputs_TransactionID := ID_String txID;
  Outputs_OutputIndex := idx;
  Outputs_OutputType :=
    match out with
    | NFTTransferOutput _ _ _ => models.OutputTypesNFTTransfer
    | NFTMintOutput _ _ => models.OutputTypesNFTMint
    | SECPMintOutput _ => models.OutputTypesSECP2556K1Mint
    | _ => models.OutputTypesSECP2556K1Transfer
    end;
  Outputs_AssetID := ID_String assetID;
  Outputs_Amount := Amt (state_transfer out);
  Outputs_Locktime := Owners_Locktime (Owners (state_transfer out));
  Outputs_Threshold := Owners_Threshold (Owners (state_transfer out));
  Outputs_GroupID :=
    match out with NFTTransferOutput g _ _ | NFTMintOutput g _ => g | _ => 0 end;
  Outputs_Payload := match out with NFTTransferOutput _ p _ => p | _ => None end;
  Outputs_StakeLocktime := match out with StakeableLockOut l _ => l | _ => 0 end;
  Outputs_Stake := stake;
  Outputs_Frozen := false;
  Outputs_Stakeableout := match out with StakeableLockOut _ _ => true | _ => false end;
  Outputs_Genesisutxo := genesisutxo;
  Outputs_CreatedAt := ctx_Time ctx;
|}.

Definition redeeming_row `{!AxiaIds} (ctx : ConsumerCtx) (txID : ID) (chainID : string)
    (i : TransferableInput) : OutputsRedeeming := {|
  OutputsRedeeming_ID := ID_String (ID_Prefix (in_TxID i) (in_OutputIndex i));
  OutputsRedeeming_RedeemedAt := ctx_Time ctx;
  OutputsRedeeming_RedeemingTransactionID := ID_String txID;
  OutputsRedeeming_Amount := in_Amount i;
  OutputsRedeeming_OutputIndex := in_OutputIndex i;
  OutputsRedeeming_Intx := ID_String (in_TxID i);
  OutputsRedeeming_AssetID := ID_String (in_AssetID i);
  OutputsRedeeming_ChainID := chainID;
  OutputsRedeeming_CreatedAt := ctx_Time ctx;
|}.

(** The amount of the fee asset an output or an input carries. *)
Definition if_axc (w : axc.Writer) (assetID : ID) (amt : Z) : Z :=
  if decide (assetID = axc.axcAssetID w) then amt else 0.
Definition output_axc (w : axc.Writer) (o : TransferableOutput) : Z :=
  if_axc w (out_AssetID o) (Amt (state_transfer (out_Out o))).
Definition input_axc (w : axc.Writer) (i : TransferableInput) : Z :=
  if_axc w (in_AssetID i) (in_Amount i).

(** Amounts are [uint64]. *)
Definition output_ok (o : TransferableOutput) : Prop := is_u64 (Amt (state_transfer (out_Out o))).
Definition input_ok (i : TransferableInput) : Prop := is_u64 (in_Amount i).

Section functional.
Context `{!AxiaIds} `{!AxiaMath} `{!AxiaMathOk} `{!AxiaCrypto} `{!Cfg}.
Context (Propagate : error → string → error).
Import axc.

Lemma add_axc_ok w assetID total amt s :
  is_u64 total → is_u64 amt → add_axc w assetID total amt = Ok s →
  s = (total + if_axc w assetID amt)%Z ∧ is_u64 s.
Proof.
  unfold add_axc, if_axc. intros Ht Ha. case_decide; [by apply Add64_Ok_inv|].
  intros [= <-]. split; [lia|done].
Qed.

Lemma InsertOutputAddress_silent ctx outputID address sig txID idx chainID :
  emits (λ o, main_row o = None) (InsertOutputAddress ctx outputID address sig txID idx chainID).
Proof. unfold InsertOutputAddress. solve_emits. Qed.

Lemma InsertOutput_rows ctx txID idx assetID out ot g p sl chainID st fr so gu :
  wlp (InsertOutput ctx txID idx assetID out ot g p sl chainID st fr so gu)
    (λ l _, omap main_row l = [EOutputs (mkOutputs (ID_String (ID_Prefix txID idx)) chainID
       (ID_String txID) idx ot (ID_String assetID) (Amt out) (Owners_Locktime (Owners out))
       (Owners_Threshold (Owners out)) g p sl st fr so gu (ctx_Time ctx))]).
Proof.
  unfold InsertOutput. apply wlp_bind. eapply wlp_mono.
  - apply (wlp_silent main_row). unfold InsertOutput_address. solve_emits.
    apply InsertOutputAddress_silent.
  - intros l [] Hl; simpl in Hl. apply wlp_persist. by rewrite omap_app, Hl.
Qed.

Lemma ProcessStateOut_rows w ctx out txID n assetID amount totalout chainID st gu :
  is_u64 amount → is_u64 totalout → is_u64 (Amt (state_transfer out)) →
  wlp (ProcessStateOut Propagate w ctx out txID n assetID amount totalout chainID st gu)
    (λ l r,
      omap main_row l = [EOutputs (output_row ctx txID chainID st gu n assetID out)] ∧
      state_known out ∧
      r.1 = (amount + match out with SECPTransferOutput x => Amt x | _ => 0 end)%Z ∧
      r.2 = (totalout + if_axc w assetID (Amt (state_transfer out)))%Z ∧
      is_u64 r.1 ∧ is_u64 r.2).
Proof.
  intros Ha Ht Ho.
  assert (∀ x, if_axc w assetID 0 = x → x = 0%Z) as Hz by (intros x <-; unfold if_axc; by case_decide).
  destruct out as [lt [x|]|gid p o|gid o|o|x|tn]; simpl in *; try done.
  - apply wlp_bind, wlp_lift. intros s (-> & Hs)%add_axc_ok; [|done|done]. simpl.
    apply wlp_bind. eapply wlp_mono; [apply InsertOutput_rows|]. intros l [] Hl; simpl in Hl.
    apply wlp_ret. simpl. rewrite app_nil_r, Hl. by rewrite Z.add_0_r.
  - apply wlp_bind. eapply wlp_mono; [apply InsertOutput_rows|]. intros l [] Hl; simpl in Hl.
    apply wlp_ret; simpl. rewrite app_nil_r, Hl, (Hz _ eq_refl). by rewrite !Z.add_0_r.
  - apply wlp_bind. eapply wlp_mono; [apply InsertOutput_rows|]. intros l [] Hl; simpl in Hl.
    apply wlp_ret; simpl. rewrite app_nil_r, Hl, (Hz _ eq_refl). by rewrite !Z.add_0_r.
  - apply wlp_bind. eapply wlp_mono; [apply InsertOutput_rows|]. intros l [] Hl; simpl in Hl.
    apply wlp_ret; simpl. rewrite app_nil_r, Hl, (Hz _ eq_refl). by rewrite !Z.add_0_r.
  - apply wlp_bind, wlp_lift. intros s (-> & Hs)%add_axc_ok; [|done|done]. simpl.
    apply wlp_bind. eapply wlp_mono; [apply InsertOutput_rows|]. intros l [] Hl; simpl in Hl.
    apply wlp_bind, wlp_wrap_err, wlp_lift. intros a (-> & Hu)%Add64_Ok_inv; [|done|done].
    apply wlp_ret; simpl. rewrite !app_nil_r, Hl. done.
Qed.

Lemma InsertTransactionOuts_rows w idx ctx totalout o txID chainID st gu :
  is_u64 totalout → output_ok o →
  wlp (InsertTransactionOuts Propagate w idx ctx totalout o txID chainID st gu)
    (λ l r,
      omap main_row l = [EOutputs (output_row ctx txID chainID st gu idx (out_AssetID o) (out_Out o))] ∧
      state_known (out_Out o) ∧ r = (totalout + output_axc w o)%Z ∧ is_u64 r).
Proof.
  intros Ht Ho. unfold InsertTransactionOuts. apply wlp_bind.
  eapply wlp_mono; [apply ProcessStateOut_rows; [by split|done|done]|].
  intros l [a t] (Hl & Hk & _ & Hr & _ & Hu). apply wlp_ret; simpl in *. by rewrite app_nil_r.
Qed.

Lemma InsertTransactionIns_rows w idx ctx totalin i txID creds ub chainID :
  is_u64 totalin → input_ok i →
  wlp (InsertTransactionIns w idx ctx totalin i txID creds ub chainID)
    (λ l r, omap main_row l = [EOutputsRedeeming (redeeming_row ctx txID chainID i)] ∧
            r = (totalin + input_axc w i)%Z ∧ is_u64 r).
Proof.
  intros Ht Hi. unfold InsertTransactionIns.
  apply wlp_bind, wlp_lift. intros s (-> & Hs)%add_axc_ok; [|done|done]. simpl.
  apply wlp_bind. eapply wlp_mono.
  - apply (wlp_silent main_row). unfold InsertTransactionIns_sig, InsertAddressFromPublicKey.
    solve_emits. apply InsertOutputAddress_silent.
  - intros l [] Hl; simpl in Hl. unfold wlp. simpl. by rewrite omap_app, Hl.
Qed.

(** The rows of a list of outputs that starts at index [idx]. *)
Fixpoint outputs_rows (ctx : ConsumerCtx) (txID : ID) (chainID : string) (stake : bool)
    (idx : Z) (outs : list TransferableOutput) : list entity :=
  match outs with
  | [] => []
  | o :: outs' =>
      EOutputs (output_row ctx txID chainID stake false idx (out_AssetID o) (out_Out o)) ::
      outputs_rows ctx txID chainID stake (u32_add idx 1) outs'
  end.

Definition inputs_rows (ctx : ConsumerCtx) (txID : ID) (chainID : string)
    (ins : list TransferableInput) : list entity :=
  map (λ i, EOutputsRedeeming (redeeming_row ctx txID chainID i)) ins.

Lemma u32_add_wrap idx k : u32_add (wrap32 (idx + k)) 1 = wrap32 (idx + (k + 1)).
Proof. unfold u32_add, wrap32. rewrite Zplus_mod_idemp_l. f_equal. lia. Qed.

Lemma ins_loop_rows w ctx txID creds ub chainID ins n totalin :
  is_u64 totalin → Forall input_ok ins →
  wlp (ins_loop w ctx txID creds ub chainID ins (n, totalin))
    (λ l r, omap main_row l = inputs_rows ctx txID chainID ins ∧
            r = (n + length ins, (totalin + sum_with (input_axc w) ins)%Z) ∧ is_u64 r.2).
Proof.
  intros Ht Hins. unfold ins_loop. revert n totalin Ht.
  induction Hins as [|i ins Hi Hins IH]; intros n totalin Ht; simpl.
  - apply wlp_ret; simpl. rewrite Z.add_0_r, Nat.add_0_r. done.
  - apply wlp_bind, wlp_bind. eapply wlp_mono; [by apply InsertTransactionIns_rows|].
    intros l r (Hl & -> & Hr).
    apply wlp_ret; simpl. eapply wlp_mono; [by apply IH|].
    intros l' r' (Hl' & -> & Hr'). rewrite app_nil_r, omap_app, Hl, Hl'.
    split; [done|]. split; [|done]. f_equal; [lia|]. simpl. lia.
Qed.

Lemma outs_loop_rows w ctx txID chainID st outs idx totalout :
  is_u64 totalout → Forall output_ok outs →
  wlp (outs_loop Propagate w ctx txID chainID st outs (idx, totalout))
    (λ l r, omap main_row l = outputs_rows ctx txID chainID st idx outs ∧
            r.2 = (totalout + sum_with (output_axc w) outs)%Z ∧ is_u64 r.2 ∧
            Forall (λ o, state_known (out_Out o)) outs ∧
            r.1 = Nat.iter (length outs) (λ x, u32_add x 1) idx).
Proof.
  intros Ht Houts. unfold outs_loop. revert idx totalout Ht.
  induction Houts as [|o outs Ho Houts IH]; intros idx totalout Ht; simpl.
  - apply wlp_ret; simpl. by rewrite Z.add_0_r.
  - apply wlp_bind, wlp_bind. eapply wlp_mono; [by apply InsertTransactionOuts_rows|].
    intros l r (Hl & Hk & -> & Hr).
    apply wlp_ret; simpl. eapply wlp_mono; [by apply IH|].
    intros l' r' (Hl' & Hr2 & Hu & Hks & Hr1). rewrite app_nil_r, omap_app, Hl, Hl'.
    split; [done|]. split; [simpl; lia|]. split; [done|]. split; [by constructor|].
    rewrite Hr1. apply (Nat.iter_swap _ _ (λ x, u32_add x 1) idx).
Qed.

(** The inputs and outputs of a transaction with the chain each is on. *)
Definition all_inputs_rows (w : Writer) (ctx : ConsumerCtx) (txID : ID) (ins : list TransferableInput)
    (addIns : option AddInsContainer) : list entity :=
  inputs_rows ctx txID (chainID w) ins ++
  match addIns with
  | None => []
  | Some a => inputs_rows ctx txID (AddIns_ChainID a) (AddIns_Ins a)
  end.

Definition all_outputs_rows (w : Writer) (ctx : ConsumerCtx) (txID : ID)
    (outs : list TransferableOutput) (addOuts : option AddOutsContainer) : list entity :=
  outputs_rows ctx txID (chainID w) false 0 outs ++
  match addOuts with
  | None => []
  | Some a =>
      outputs_rows ctx txID (AddOuts_ChainID a) (AddOuts_Stake a)
        (wrap32 (Z.of_nat (length outs))) (AddOuts_Outs a)
  end.

Definition all_inputs (ins : list TransferableInput) (addIns : option AddInsContainer) :=
  ins ++ match addIns with None => [] | Some a => AddIns_Ins a end.
Definition all_outputs (outs : list TransferableOutput) (addOuts : option AddOutsContainer) :=
  outs ++ match addOuts with None => [] | Some a => AddOuts_Outs a end.

Lemma iter_u32_add n : Nat.iter n (λ x, u32_add x 1) 0%Z = wrap32 (Z.of_nat n).
Proof.
  induction n as [|n IH]; [done|]. simpl. rewrite IH.
  rewrite <-(Z.add_0_l (Z.of_nat n)), u32_add_wrap. f_equal. lia.
Qed.

Definition transaction_row (w : Writer) (ctx : ConsumerCtx) (txBytes : option string)
    (baseTx : BaseTx) (txType txfee : Z) (genesis : bool) : Transactions := {|
  Transactions_ID := ID_String (BaseTx_ID baseTx);
  Transactions_ChainID := chainID w;
  Transactions_Type := models.TransactionType_String txType;
  Transactions_Memo :=
    if (MaxMemoLen <? bytes_len (BaseTx_Memo baseTx))%Z then None else BaseTx_Memo baseTx;
  Transactions_CanonicalSerialization :=
    if (MaxSerializationLen <? bytes_len txBytes)%Z then Some "" else txBytes;
  Transactions_Txfee := txfee;
  Transactions_NetworkID := BaseTx_NetworkID baseTx;
  Transactions_Genesis := genesis;
  Transactions_CreatedAt := ctx_Time ctx;
|}.

(** The index of a transaction: its inputs, its outputs at consecutive indexes,
    itself with its fee, in this order. *)
Lemma InsertTransaction_rows w ctx txBytes ub baseTx creds txType addIns addOuts addl genesis :
  Forall input_ok (all_inputs (BaseTx_Ins baseTx) addIns) →
  Forall output_ok (all_outputs (BaseTx_Outs baseTx) addOuts) →
  wlp (InsertTransaction Propagate w ctx txBytes ub baseTx creds txType addIns addOuts addl genesis)
    (λ l _,
      let totalin := sum_with (input_axc w) (all_inputs (BaseTx_Ins baseTx) addIns) in
      let totalout := sum_with (output_axc w) (all_outputs (BaseTx_Outs baseTx) addOuts) in
      is_u64 totalin ∧ is_u64 totalout ∧
      Forall (λ o, state_known (out_Out o)) (all_outputs (BaseTx_Outs baseTx) addOuts) ∧
      omap main_row l =
        all_inputs_rows w ctx (BaseTx_ID baseTx) (BaseTx_Ins baseTx) addIns ++
        all_outputs_rows w ctx (BaseTx_ID baseTx) (BaseTx_Outs baseTx) addOuts ++
        [ETransactions (transaction_row w ctx txBytes baseTx txType
                          (fee totalin totalout addl genesis) genesis)]).
Proof.
  unfold all_inputs, all_outputs. intros [Hi1 Hi2]%Forall_app [Ho1 Ho2]%Forall_app.
  unfold InsertTransaction. apply wlp_bind.
  eapply wlp_mono; [by apply ins_loop_rows|]. intros l1 r1 (Hl1 & -> & Hu1).
  apply wlp_bind. eapply (wlp_mono _ (λ l r,
    omap main_row l = match addIns with None => [] | Some a =>
      inputs_rows ctx (BaseTx_ID baseTx) (AddIns_ChainID a) (AddIns_Ins a) end ∧
    r.2 = sum_with (input_axc w) (BaseTx_Ins baseTx ++
            match addIns with None => [] | Some a => AddIns_Ins a end) ∧ is_u64 r.2)).
  { destruct addIns as [a|].
    - eapply wlp_mono; [by apply ins_loop_rows|]. intros l r (Hl & -> & Hu).
      split; [done|]. split; [|done]. simpl. rewrite sum_with_app. lia.
    - apply wlp_ret. rewrite app_nil_r. simpl. split; [done|]. split; [lia|done]. }
  intros l2 [n2 tin] (Hl2 & Htin & Hu2). simpl in Htin, Hu2. apply wlp_bind.
  eapply wlp_mono; [by apply outs_loop_rows|]. intros l3 [i3 t3] (Hl3 & Ht3 & Hu3 & Hk3 & Hi3).
  simpl in Ht3, Hu3, Hi3. rewrite iter_u32_add in Hi3. subst i3. apply wlp_bind.
  eapply (wlp_mono _ (λ l r,
    omap main_row l = match addOuts with None => [] | Some a =>
      outputs_rows ctx (BaseTx_ID baseTx) (AddOuts_ChainID a) (AddOuts_Stake a)
        (wrap32 (Z.of_nat (length (BaseTx_Outs baseTx)))) (AddOuts_Outs a) end ∧
    r.2 = sum_with (output_axc w) (BaseTx_Outs baseTx ++
            match addOuts with None => [] | Some a => AddOuts_Outs a end) ∧ is_u64 r.2 ∧
    Forall (λ o, state_known (out_Out o)) (BaseTx_Outs baseTx ++
            match addOuts with None => [] | Some a => AddOuts_Outs a end))).
  { destruct addOuts as [a|].
    - eapply wlp_mono; [by apply outs_loop_rows|]. intros l r (Hl & Hr & Hu & Hk & _).
      split; [done|]. split; [rewrite sum_with_app; lia|]. split; [done|]. by apply Forall_app.
    - apply wlp_ret. rewrite app_nil_r. simpl. split; [done|]. split; [lia|done]. }
  intros l4 [i4 tout] (Hl4 & Htout & Hu4 & Hk4). simpl in Htout, Hu4.
  apply wlp_persist. rewrite <-Htin, <-Htout. split; [done|]. split; [done|]. split; [done|].
  rewrite !omap_app, Hl1, Hl2, Hl3, Hl4.
  unfold all_inputs_rows, all_outputs_rows. by rewrite <-!app_assoc.
Qed.
End functional.
