(* ===== verification/Writer.v ===== *)
(** Running a writer in a database transaction, as the Consume methods of
    services/indexes/*/writer.go do, and what that guarantees. *)

From S2P Require Import Prelude Errors Sql Axia DbModel Persist Prog.

Section consume.
Context `{SqlEngine D} (clock : nat → Z).

(** [dbTx, err := sess.Begin(); defer dbTx.RollbackUnlessCommitted();
     err = w.index(...); if err != nil { return err }; return dbTx.Commit()] *)
Definition consume (p : Prog unit) : M D unit :=
  in_tx (run_store clock p ≫= λ _, mret true).
End consume.

(** * Whatever the store *)
Section stored.
Context {S : Type} `{PersistOk S} (clock : nat → Z).

Lemma performs_kept l s e : Forall gentle l → stored s e → stored (performs l s).1 e.
Proof.
  intros Hl. revert s. induction Hl as [|o l Ho _ IH]; intros s Hs; [done|].
  unfold performs in *. simpl. rewrite bind_run.
  pose proof (stored_kept o e s Ho Hs) as Hk.
  destruct (perform o s) as [s1 [[]|x]]; simpl in *; [by apply IH | done].
Qed.

(** Every row a successful sequence of operations inserts is stored in the end. *)
Lemma performs_stored l s s' e :
  Forall gentle l → performs l s = (s', Ok tt) → PInsert e false ∈ l → stored s' e.
Proof.
  intros Hl. revert s. induction Hl as [|o l Ho Hl IH]; intros s Hr Hin;
    [by apply elem_of_nil in Hin|].
  unfold performs in *. simpl in Hr. apply bind_Ok_inv in Hr as ([] & s1 & H1 & H2).
  apply elem_of_cons in Hin as [<-|Hin]; [|by eapply IH].
  apply insert_stored in H1. pose proof (performs_kept l s1 e Hl H1) as Hk.
  unfold performs in Hk. by rewrite H2 in Hk.
Qed.

Lemma run_stored {A} (p : Prog A) Q s n s' n' a :
  strict p → emits gentle p → wlp p Q → run clock p (s, n) = (s', n', Ok a) →
  ∃ l, Q l a ∧ ∀ e, PInsert e false ∈ l → stored s' e.
Proof.
  intros Hs Hg Hq Hr.
  destruct (run_Ok clock _ _ _ _ _ _ _ _ Hs (wlp_and _ _ _ Hq (wp_mono _ _ _ _ _
    (emits_wp _ _ Hg) (λ _ _ _, I) (λ _ _ H, H))) Hr) as (l & Hl & HQ & HG).
  exists l. split; [done|]. intros e. by eapply performs_stored.
Qed.
End stored.

(** * In a transaction *)
Section transaction.
Context `{SqlEngine D} `{!SqlEngineOk D} (clock : nat → Z).
Implicit Types d : D.

Lemma keeps_saved_run_store {A} (p : Prog A) : keeps_saved (run_store (S:=D) clock p).
Proof.
  intros d. apply (run_store_invariant clock (λ d', saved d' = saved d) (λ _, True));
    [|intros o d' _ <-; apply keeps_saved_perform|done].
  apply emits_true.
Qed.

Lemma keeps_saved_consume_body (p : Prog unit) :
  keeps_saved (D:=D) (run_store clock p ≫= λ _, mret true).
Proof. apply keeps_saved_bind; [apply keeps_saved_run_store | done]. Qed.

(** All or nothing: after an error the content is as it was. *)
Lemma consume_err p d d' e : consume clock p d = (d', Err e) → rows d ≡ᶜ rows d'.
Proof. apply in_tx_err, keeps_saved_consume_body. Qed.

(** After success, it is the effect of the operations the writer issued. *)
Lemma consume_ok p Q d d' :
  strict p → wlp p Q → consume clock p d = (d', Ok tt) →
  ∃ l d1 d2, rows d ≡ᶜ rows d1 ∧ performs l d1 = (d2, Ok tt) ∧ rows d2 ≡ᶜ rows d' ∧ Q l tt.
Proof.
  intros Hs Hq. unfold consume, in_tx.
  pose proof (begin_rows d) as Hb.
  destruct (tx_begin d) as [d1 [[]|e1]]; simpl in Hb; [|done].
  rewrite bind_run. destruct (run_store clock p d1) as [d2 [[]|e2]] eqn:Er; [|done]. simpl.
  pose proof (commit_rows d2) as Hc.
  destruct (tx_commit d2) as [d3 [[]|e3]]; intros [= <-].
  apply (run_store_Ok clock _ _ _ _ _ _ Hs Hq) in Er as (l & Hl & HQ).
  by exists l, d1, d2.
Qed.

Lemma sql_stored_proper d d' e : rows d ≡ᶜ rows d' → sql_stored d e → sql_stored d' e.
Proof. unfold sql_stored. intros E. by rewrite (E (entity_table e)). Qed.

(** Every row the writer inserted is in the database. *)
Lemma consume_stored p Q d d' :
  strict p → emits gentle p → wlp p Q → consume clock p d = (d', Ok tt) →
  ∃ l, Q l tt ∧ ∀ e, PInsert e false ∈ l → sql_stored d' e.
Proof.
  intros Hs Hg Hq Hc.
  destruct (consume_ok p (λ l a, Q l a ∧ Forall gentle l) d d') as (l & d1 & d2 & _ & Hl & E & HQ & HG);
    [done| |done|].
  { apply wlp_and; [done|]. eapply wp_mono; [by apply emits_wp| |]; done. }
  exists l. split; [done|]. intros e Hin. eapply sql_stored_proper; [exact E|].
  change (stored (S:=D) d2 e). by eapply performs_stored.
Qed.

(** The keys stay unique, whatever happens. *)
Lemma consume_unique p d : unique_content (rows d) → unique_content (rows (consume clock p d).1).
Proof.
  intros Hu. destruct (consume clock p d) as [d' [[]|e]] eqn:E; simpl.
  - destruct (in_tx_ok _ _ _ (keeps_saved_consume_body p) E) as [Ed|(d1 & d2 & E1 & Hb & E2)].
    + by rewrite <-Ed.
    + rewrite <-E2. apply bind_Ok_inv in Hb as ([] & d3 & Hr & [= <-]).
      pose proof (run_store_invariant clock (λ d, unique_content (rows d)) (λ _, True) p d1) as Hi.
      rewrite Hr in Hi. apply Hi; [|intros; by apply perform_unique|by rewrite <-E1].
      apply emits_true.
  - apply consume_err in E. by rewrite <-E.
Qed.
End transaction.

(** * The row that is inserted

    In a table that the operations write only by inserting one row, whose key is free, the
    row is there in the end, and no other is added. *)
Section lands.
Context `{SqlEngine D} `{!SqlEngineOk D}.
Implicit Types d : D.

Definition the_row (e : entity) : row := new_row (entity_table e) (entity_pairs e).

(** An operation that inserts without updating, in its own table and in the others. *)
Lemma perform_other o d d' t : unique_content (rows d) → perform o d = (d', Ok tt) → pop_table o ≠ t → rows d' t ≡ₚ rows d t.
Proof.
  intros Hu E Hne. apply perform_ok in E as (c & Hc & Hc'); [|done]. transitivity (c t).
  - destruct (pop_update o) as [[sets w]|]; [|by rewrite (Hc' t)]. destruct Hc' as [_ Ho]. by apply Ho.
  - destruct (pop_pairs o) as [ps|]; [|by rewrite (Hc t)].
    destruct Hc as [(_ & _ & Ho)|[_ Hk]]; [by apply Ho|by rewrite (Hk t)].
Qed.

Lemma perform_insert e d d' : unique_content (rows d) → perform (PInsert e false) d = (d', Ok tt) →
  (clashes (entity_table e) (the_row e) (rows d (entity_table e)) = false ∧
     rows d' (entity_table e) ≡ₚ the_row e :: rows d (entity_table e)) ∨
  (clashes (entity_table e) (the_row e) (rows d (entity_table e)) = true ∧
     rows d' (entity_table e) ≡ₚ rows d (entity_table e)).
Proof.
  intros Hu E. apply perform_ok in E as (c & Hc & Hc'); [|done]. cbn in Hc, Hc'.
  destruct Hc as [(Hf & Hr & _)|[Hk Hr]]; [left|right]; (split; [done|]); by rewrite <-(Hc' (entity_table e)), ?Hr.
Qed.

Lemma performs_lands l e d d' : unique_content (rows d) →
  Forall (λ o, pop_table o = entity_table e → o = PInsert e false) l → performs l d = (d', Ok tt) →
  (clashes (entity_table e) (the_row e) (rows d (entity_table e)) = true →
     rows d' (entity_table e) ≡ₚ rows d (entity_table e)) ∧
  (clashes (entity_table e) (the_row e) (rows d (entity_table e)) = false → PInsert e false ∈ l →
     rows d' (entity_table e) ≡ₚ the_row e :: rows d (entity_table e)).
Proof.
  intros Hu Hl. revert d Hu. induction Hl as [|o l Ho _ IH]; intros d Hu E.
  { injection E as <-. split; [done|]. by intros _ ?%elem_of_nil. }
  apply (bind_Ok_inv (perform o) (λ _, performs l)) in E as ([] & d1 & E1 & E2).
  assert (unique_content (rows d1)) as Hu1 by (pose proof (perform_unique o d Hu) as Hp; by rewrite E1 in Hp).
  destruct (IH d1 Hu1 E2) as [IHt IHf]. destruct (decide (pop_table o = entity_table e)) as [Et|Hne].
  - rewrite (Ho Et) in E1. destruct (perform_insert _ _ _ Hu E1) as [[Hc Hr]|[Hc Hr]]; rewrite Hr in IHt, IHf.
    + split; [congruence|]. intros _ _. apply IHt. apply not_false_iff_true. rewrite clashes_false. intros Hn.
      apply (Hn (entity_key e) (the_row e)); [apply entity_key_unique|left|done].
    + by split; [|congruence].
  - pose proof (perform_other _ _ _ _ Hu E1 Hne) as Hr. rewrite Hr in IHt, IHf. split; [done|].
    intros Hc [<-|Hin]%elem_of_cons; [done|by apply IHf].
Qed.

(** The same, in the transaction of a writer. *)
Lemma consume_lands clock p Q e d d' : unique_content (rows d) →
  strict p → wlp p Q → emits (λ o, pop_table o = entity_table e → o = PInsert e false) p →
  consume clock p d = (d', Ok tt) →
  ∃ l, Q l tt ∧ (PInsert e false ∈ l →
    clashes (entity_table e) (the_row e) (rows d (entity_table e)) = false →
    rows d' (entity_table e) ≡ₚ the_row e :: rows d (entity_table e)).
Proof.
  intros Hu Hs Hq He Hc.
  destruct (consume_ok clock p (λ l a, Q l a ∧ Forall (λ o, pop_table o = entity_table e → o = PInsert e false) l) d d')
    as (l & d1 & d2 & R1 & Hl & R2 & HQ & HG); [done| |done|].
  { apply wlp_and; [done|]. eapply wp_mono; [by apply emits_wp| |]; done. }
  exists l. split; [done|]. intros Hin Hf. rewrite <-(R2 _), (R1 _). rewrite (R1 _) in Hf.
  apply (performs_lands l e d1 d2); [by rewrite <-R1|done..].
Qed.
End lands.
