(* ===== verification/AvmWriter.v ===== *)
(** The indexing of the X chain: services/indexes/avm/writer.go and parser.go. *)

From S2P Require Import Prelude Errors Sql Axia DbModel Persist Prog Models AxcWriter Writer.

(** * Transactions of the AVM, as the writer takes them apart *)
Record AvmOperation := mkAvmOperation {
  Op_AssetID : ID;
  Op_UTXOIDs : list (ID * Z);          (* transaction and output index *)
  Op_Outs : list State;
}.

Record CreateAssetTx := mkCreateAssetTx {
  CreateAsset_Base : BaseTx;
  CreateAsset_Name : string;
  CreateAsset_Symbol : string;
  CreateAsset_Denomination : Z;
  CreateAsset_States : list (list State);   (* the outputs of each initial state *)
}.

Inductive AvmUnsignedTx :=
| AvmCreateAssetTx (tx : CreateAssetTx)
| AvmOperationTx (base : BaseTx) (Ops : list AvmOperation)
| AvmImportTx (base : BaseTx) (SourceChain : ID) (ImportedIns : list TransferableInput)
| AvmExportTx (base : BaseTx) (DestinationChain : ID) (ExportedOuts : list TransferableOutput)
| AvmBaseTx (base : BaseTx)
| AvmOtherTx (type_name : string).

Record AvmTx := mkAvmTx {
  AvmTx_UnsignedTx : AvmUnsignedTx;
  AvmTx_Credentials : list Credential;
  AvmTx_UnsignedBytes : string;
}.

Record AvmGenesisAsset := mkAvmGenesisAsset {
  Genesis_Alias : string;
  Genesis_CreateAssetTx : CreateAssetTx;
}.

(** The codec and [Initialize] of axia-network-v2, which computes the
    transaction's id and remembers its bytes. *)
Class AvmCodec := {
  avm_Unmarshal : string → result (Z * AvmTx);
  avm_UnmarshalGenesis : string → result (Z * list AvmGenesisAsset);
  avm_MarshalUnsigned : Z → AvmUnsignedTx → result string;
  avm_MarshalSigned : Z → AvmUnsignedTx → result string;
  avm_MarshalCreateAsset : Z → CreateAssetTx → result string;
  avm_Initialize : string → string → AvmTx → AvmTx;
  avm_InitializeCreateAsset : string → string → CreateAssetTx → CreateAssetTx;
  vertex_Parse : string → result (ID * Z * list string);  (* id, epoch, transactions *)
}.

Module avm.
Definition Writer := axc.Writer.

Section writer.
Context `{!AxiaIds} `{!AxiaMath} `{!AxiaCrypto} `{!Cfg} `{!AvmCodec}.
Context (Propagate : error → string → error).

(** ** parser.go *)
Definition parseTx (bytes : string) : result AvmTx :=
  '(ver, tx) ← avm_Unmarshal bytes;
  unsignedBytes ← avm_MarshalUnsigned ver (AvmTx_UnsignedTx tx);
  mret (avm_Initialize unsignedBytes bytes tx).

(** ** writer.go *)

(** The loop over [tx.Outs] that only counts the outputs (and inserts them a
    first time). *)
Definition count_outs (w : Writer) (ctx : ConsumerCtx) (txID : ID)
    (outs : list TransferableOutput) : Prog Z :=
  prog_fold outs 0%Z (λ out outputCount,
    _ ← axc.InsertTransactionOuts Propagate w outputCount ctx 0 out txID (axc.chainID w) false false;
    Ret (u32_add outputCount 1)).

(** The loop over the outputs of a state or of an operation. *)
Definition process_outs (w : Writer) (ctx : ConsumerCtx) (txID assetID : ID)
    (outs : list State) (st : Z * Z * Z) : Prog (Z * Z * Z) :=
  prog_fold outs st (λ out '(outputCount, amount, totalout),
    '(amount, totalout) ← axc.ProcessStateOut Propagate w ctx out txID outputCount assetID
                            amount totalout (axc.chainID w) false false;
    Ret (u32_add outputCount 1, amount, totalout)).

Definition op_inputs (op : AvmOperation) : list TransferableInput :=
  map (λ '(txID, idx), mkTransferableInput txID idx (Op_AssetID op) 0) (Op_UTXOIDs op).

Definition insertOperationTx (w : Writer) (ctx : ConsumerCtx) (txBytes : option string)
    (unsignedBytes : string) (base : BaseTx) (Ops : list AvmOperation)
    (creds : list Credential) (genesis : bool) : Prog unit :=
  let txID := BaseTx_ID base in
  outputCount ← count_outs w ctx txID (BaseTx_Outs base);
  '(addIns, (_, _, totalout)) ← prog_fold Ops ([], (outputCount, 0%Z, 0%Z)) (λ op '(ins, st),
    st ← process_outs w ctx txID (Op_AssetID op) (Op_Outs op) st;
    Ret (ins ++ op_inputs op, st));
  axc.InsertTransaction Propagate w ctx txBytes unsignedBytes base creds
    models.TransactionTypeOperation
    (Some (axc.mkAddInsContainer addIns (axc.chainID w))) None totalout genesis.

Definition insertCreateAssetTx (w : Writer) (ctx : ConsumerCtx) (txBytes : option string)
    (unsignedBytes : string) (tx : CreateAssetTx) (creds : list Credential) (alias : string)
    (genesis : bool) : Prog unit :=
  let base := CreateAsset_Base tx in
  let txID := BaseTx_ID base in
  outputCount ← count_outs w ctx txID (BaseTx_Outs base);
  '(_, amount, totalout) ← prog_fold (CreateAsset_States tx) (outputCount, 0%Z, 0%Z)
    (λ outs st, process_outs w ctx txID txID outs st);
  _ ← persist (PInsert (EAssets {|
        Assets_ID := ID_String txID;
        Assets_ChainID := axc.chainID w;
        Assets_Name := CreateAsset_Name tx;
        Assets_Symbol := CreateAsset_Symbol tx;
        Assets_Denomination := CreateAsset_Denomination tx;
        Assets_Alias := alias;
        Assets_CurrentSupply := amount;
        Assets_CreatedAt := ctx_Time ctx;
      |}) PerformUpdates);
  axc.InsertTransaction Propagate w ctx txBytes unsignedBytes base creds
    models.TransactionTypeCreateAsset None None totalout genesis.

Definition insertTxInternal (w : Writer) (ctx : ConsumerCtx) (tx : AvmTx) (txBytes : string)
    : Prog unit :=
  let creds := AvmTx_Credentials tx in
  let ub := AvmTx_UnsignedBytes tx in
  match AvmTx_UnsignedTx tx with
  | AvmCreateAssetTx castTx =>
      insertCreateAssetTx w ctx (Some txBytes) ub castTx creds "" false
  | AvmOperationTx base Ops => insertOperationTx w ctx (Some txBytes) ub base Ops creds false
  | AvmImportTx base SourceChain ImportedIns =>
      axc.InsertTransaction Propagate w ctx (Some txBytes) ub base creds
        models.TransactionTypeAVMImport
        (Some (axc.mkAddInsContainer ImportedIns (ID_String SourceChain))) None 0 false
  | AvmExportTx base DestinationChain ExportedOuts =>
      axc.InsertTransaction Propagate w ctx (Some txBytes) ub base creds
        models.TransactionTypeAVMExport None
        (Some (axc.mkAddOutsContainer ExportedOuts false (ID_String DestinationChain))) 0 false
  | AvmBaseTx base =>
      axc.InsertTransaction Propagate w ctx (Some txBytes) ub base creds
        models.TransactionTypeBase None None 0 false
  | AvmOtherTx type_name => Fail ("unknown tx type " +:+ type_name)
  end.

Definition insertTx (w : Writer) (ctx : ConsumerCtx) (txBytes : string) : Prog unit :=
  tx ← lift (parseTx txBytes);
  insertTxInternal w ctx tx txBytes.

Definition insertGenesis (w : Writer) (ctx : ConsumerCtx) (genesisBytes : string) : Prog unit :=
  '(ver, txs) ← wrap_err (λ e, Propagate e "Failed to parse avm genesis bytes")
                  (lift (avm_UnmarshalGenesis genesisBytes));
  _ ← prog_fold txs 0 (λ tx i,
    let castTx := Genesis_CreateAssetTx tx in
    txBytes ← wrap_err (λ e, Propagate e ("Failed to serialize wrapped avm genesis tx " +:+ Z_to_string (Z.of_nat i)))
                (lift (avm_MarshalSigned ver (AvmCreateAssetTx castTx)));
    unsignedBytes ← lift (avm_MarshalCreateAsset ver castTx);
    let castTx := avm_InitializeCreateAsset unsignedBytes txBytes castTx in
    _ ← wrap_err (λ e, Propagate e ("Failed to index avm genesis tx " +:+ Z_to_string (Z.of_nat i)))
          (insertCreateAssetTx w ctx (Some txBytes) unsignedBytes castTx [] (Genesis_Alias tx) true);
    Ret (S i));
  Ret tt.

Definition ErrIncorrectGenesisChainTxType : error := "incorrect genesis chain tx type".

(** [Bootstrap] on the chains of the platform genesis: [None] is a chain whose
    transaction is not a CreateChainTx.  [AVMID] is a third-party constant. *)
Definition Bootstrap (AVMID : ID) (w : Writer) (Timestamp : Z)
    (Chains : list (option (ID * string))) : Prog unit :=
  prog_each Chains (λ chain,
    match chain with
    | None => Fail (Propagate ErrIncorrectGenesisChainTxType "Platform genesis contains invalid Chains")
    | Some (VMID, GenesisData) =>
        if decide (VMID = AVMID)
        then insertGenesis w (NewConsumerContext Timestamp 0) GenesisData
        else Ret tt
    end).

(** The body of [Consume] inside its transaction. *)
Definition Consume_body (w : Writer) (Timestamp Nanosecond : Z) (Body : string) : Prog unit :=
  insertTx w (NewConsumerContext Timestamp Nanosecond) Body.

Definition Consume `{SqlEngine D} (clock : nat → Z) (w : Writer) (Timestamp Nanosecond : Z)
    (Body : string) : M D unit :=
  consume clock (Consume_body w Timestamp Nanosecond Body).

(** The loop of [ConsumeConsensus] over the transactions of a vertex. *)
Definition ConsumeConsensus_body (ctx : ConsumerCtx) (vertID : ID) (epoch : Z)
    (txs : list string) : Prog unit :=
  prog_each txs (λ tx,
    txID ← lift (ids_ToID (ComputeHash256 tx));
    persist (PInsert (ETransactionsEpoch {|
      TransactionsEpoch_ID := ID_String txID;
      TransactionsEpoch_Epoch := epoch;
      TransactionsEpoch_VertexID := ID_String vertID;
      TransactionsEpoch_CreatedAt := ctx_Time ctx;
    |}) PerformUpdates)).

Definition ConsumeConsensus `{SqlEngine D} (clock : nat → Z) (Timestamp Nanosecond : Z)
    (Body : string) : M D unit :=
  '(vertID, epoch, txs) ← lift_result (vertex_Parse Body);
  consume clock
    (ConsumeConsensus_body (NewConsumerContext Timestamp Nanosecond) vertID epoch txs).
End writer.
End avm.

(** * Facts *)
Section facts.
Context `{!AxiaIds} `{!AxiaMath} `{!AxiaMathOk} `{!AxiaCrypto} `{!Cfg} `{!AvmCodec}.
Context (Propagate : error → string → error).
Import avm.

Lemma count_outs_strict w ctx txID outs : strict (count_outs Propagate w ctx txID outs).
Proof. unfold count_outs. solve_strict. apply InsertTransactionOuts_strict. Qed.

Lemma process_outs_strict w ctx txID assetID outs st :
  strict (process_outs Propagate w ctx txID assetID outs st).
Proof. unfold process_outs. solve_strict. apply ProcessStateOut_strict. Qed.

Lemma insertCreateAssetTx_strict w ctx txBytes ub tx creds alias genesis :
  strict (insertCreateAssetTx Propagate w ctx txBytes ub tx creds alias genesis).
Proof.
  unfold insertCreateAssetTx. solve_strict.
  - apply count_outs_strict.
  - apply process_outs_strict.
  - apply InsertTransaction_strict.
Qed.

Lemma insertTx_strict w ctx txBytes : strict (insertTx Propagate w ctx txBytes).
Proof.
  unfold insertTx, insertTxInternal, insertOperationTx. solve_strict.
  all: first [apply insertCreateAssetTx_strict | apply InsertTransaction_strict
             | apply count_outs_strict | apply process_outs_strict].
Qed.

(** The amount a state output adds to the supply of its asset, and to the
    outputs of the fee asset. *)
Definition state_supply (out : State) : Z :=
  match out with SECPTransferOutput x => Amt x | _ => 0 end.
Definition state_axc (w : Writer) (assetID : ID) (out : State) : Z :=
  if_axc w assetID (Amt (state_transfer out)).

(** The rows of state outputs that start at index [idx]. *)
Fixpoint states_rows (ctx : ConsumerCtx) (txID : ID) (chainID : string) (assetID : ID) (idx : Z)
    (outs : list State) : list entity :=
  match outs with
  | [] => []
  | o :: outs' =>
      EOutputs (output_row ctx txID chainID false false idx assetID o) ::
      states_rows ctx txID chainID assetID (u32_add idx 1) outs'
  end.

Lemma states_rows_app ctx txID chainID assetID idx l1 l2 :
  states_rows ctx txID chainID assetID idx (l1 ++ l2) =
  states_rows ctx txID chainID assetID idx l1 ++
  states_rows ctx txID chainID assetID (Nat.iter (length l1) (λ x, u32_add x 1) idx) l2.
Proof.
  revert idx. induction l1 as [|o l1 IH]; intros idx; simpl; [done|].
  rewrite IH. do 3 f_equal. apply (Nat.iter_swap _ _ (λ x, u32_add x 1) idx).
Qed.

Lemma process_outs_rows w ctx txID assetID outs n amount totalout :
  is_u64 amount → is_u64 totalout → Forall (λ o, is_u64 (Amt (state_transfer o))) outs →
  wlp (process_outs Propagate w ctx txID assetID outs (n, amount, totalout))
    (λ l '(n', a', t'),
      omap main_row l = states_rows ctx txID (axc.chainID w) assetID n outs ∧
      n' = Nat.iter (length outs) (λ x, u32_add x 1) n ∧
      a' = (amount + sum_with state_supply outs)%Z ∧ is_u64 a' ∧
      t' = (totalout + sum_with (state_axc w assetID) outs)%Z ∧ is_u64 t').
Proof.
  intros Ha Ht Ho. unfold process_outs. revert n amount totalout Ha Ht.
  induction Ho as [|o outs Hu Ho IH]; intros n amount totalout Ha Ht.
  - apply wlp_ret. simpl. by rewrite !Z.add_0_r.
  - apply wlp_bind, wlp_bind. eapply wlp_mono; [by apply ProcessStateOut_rows|].
    intros l [a t] (Hl & _ & Ea & Et & Ha' & Ht'). simpl in Ea, Et, Ha', Ht'. subst a t.
    apply wlp_ret. eapply wlp_mono; [apply (IH _ _ _ Ha' Ht')|].
    intros l' [[n' a'] t'] (Hl' & -> & -> & ? & -> & ?). rewrite app_nil_r, omap_app, Hl, Hl'.
    simpl. split; [done|]. split; [apply (Nat.iter_swap _ _ (λ x, u32_add x 1) n)|].
    unfold state_supply, state_axc in *. split; [lia|]. split; [done|]. split; [lia|done].
Qed.

Lemma count_outs_rows w ctx txID outs :
  Forall output_ok outs →
  wlp (count_outs Propagate w ctx txID outs)
    (λ l n, omap main_row l = outputs_rows ctx txID (axc.chainID w) false 0 outs ∧
            n = wrap32 (Z.of_nat (length outs))).
Proof.
  intros Ho. unfold count_outs. rewrite <-iter_u32_add.
  match goal with |- wlp (prog_fold _ _ ?f) _ =>
    cut (∀ n, wlp (prog_fold outs n f) (λ l m,
      omap main_row l = outputs_rows ctx txID (axc.chainID w) false n outs ∧
      m = Nat.iter (length outs) (λ x, u32_add x 1) n)) end.
  { intros Hn. apply Hn. }
  induction Ho as [|o outs Hu Ho IH].
  - intros n. by apply wlp_ret.
  - intros n. apply wlp_bind, wlp_bind. eapply wlp_mono; [apply InsertTransactionOuts_rows; [by split|done]|].
    intros l t (Hl & _). apply wlp_ret. eapply wlp_mono; [apply IH|].
    intros l' n' (Hl' & ->). rewrite app_nil_r, omap_app, Hl, Hl'. split; [done|].
    apply (Nat.iter_swap _ _ (λ x, u32_add x 1) n).
Qed.

Definition asset_of (o : pop) : option Assets :=
  match o with PInsert (EAssets a) _ => Some a | _ => None end.

(** Indexing an asset creation: the outputs of its initial states follow the
    transaction's own, and the supply is the sum of the spendable amounts. *)
Lemma insertCreateAssetTx_rows w ctx txBytes ub tx creds alias genesis :
  let base := CreateAsset_Base tx in
  let txID := BaseTx_ID base in
  let states := List.concat (CreateAsset_States tx) in
  Forall input_ok (BaseTx_Ins base) → Forall output_ok (BaseTx_Outs base) →
  Forall (λ o, is_u64 (Amt (state_transfer o))) states →
  wlp (insertCreateAssetTx Propagate w ctx txBytes ub tx creds alias genesis)
    (λ l _,
      let totalin := sum_with (input_axc w) (BaseTx_Ins base) in
      let totalout := sum_with (output_axc w) (BaseTx_Outs base) in
      let minted := sum_with (state_axc w txID) states in
      is_u64 (sum_with state_supply states) ∧
      omap main_row l =
        outputs_rows ctx txID (axc.chainID w) false 0 (BaseTx_Outs base) ++
        states_rows ctx txID (axc.chainID w) txID (wrap32 (Z.of_nat (length (BaseTx_Outs base)))) states ++
        inputs_rows ctx txID (axc.chainID w) (BaseTx_Ins base) ++
        outputs_rows ctx txID (axc.chainID w) false 0 (BaseTx_Outs base) ++
        [ETransactions (transaction_row w ctx txBytes base models.TransactionTypeCreateAsset
           (axc.fee totalin totalout minted genesis) genesis)] ∧
      ∃ l1 l2, l = l1 ++ PInsert (EAssets (mkAssets (ID_String txID) (axc.chainID w)
        (CreateAsset_Name tx) (CreateAsset_Symbol tx) (CreateAsset_Denomination tx) alias
        (sum_with state_supply states) (ctx_Time ctx))) PerformUpdates :: l2).
Proof.
  intros base txID states Hi Ho Hs. unfold insertCreateAssetTx.
  apply wlp_bind. eapply wlp_mono; [by apply count_outs_rows|]. intros l1 n (Hl1 & ->).
  apply wlp_bind. eapply wlp_mono.
  { apply (wp_fold _ _ _ (λ _ _, True) (λ done ops '(n', a', t'),
      omap main_row ops = states_rows ctx txID (axc.chainID w) txID
        (wrap32 (Z.of_nat (length (BaseTx_Outs base)))) (List.concat done) ∧
      n' = Nat.iter (length (List.concat done)) (λ x, u32_add x 1) (wrap32 (Z.of_nat (length (BaseTx_Outs base)))) ∧
      a' = sum_with state_supply (List.concat done) ∧ is_u64 a' ∧
      t' = sum_with (state_axc w txID) (List.concat done) ∧ is_u64 t')); [done|].
    intros done x rest ops [[n' a'] t'] E (Hl & -> & Ea & Ha & Et & Ht).
    assert (Forall (λ o, is_u64 (Amt (state_transfer o))) x) as Hx.
    { unfold states in Hs. rewrite E, concat_app in Hs. simpl in Hs.
      apply Forall_app in Hs as [_ [Hs _]%Forall_app]. done. }
    eapply wlp_mono; [by apply process_outs_rows|].
    intros l [[n2 a2] t2] (Hl2 & -> & -> & ? & -> & ?).
    rewrite omap_app, Hl, Hl2, concat_app. simpl. rewrite app_nil_r, states_rows_app, length_app.
    split; [done|]. rewrite Nat.add_comm, Nat.iter_add, !sum_with_app. subst. done. }
  intros l2 [[n2 a2] t2] (Hl2 & _ & -> & Ha & -> & Ht).
  unfold wlp. simpl. apply (wlp_mono _ _ _ (InsertTransaction_rows Propagate w ctx txBytes ub base creds _ None None _ genesis
    ltac:(by unfold all_inputs; rewrite app_nil_r) ltac:(by unfold all_outputs; rewrite app_nil_r))).
  intros l3 [] (_ & _ & _ & Hl3). unfold all_inputs, all_outputs in Hl3. rewrite !app_nil_r in Hl3.
  split; [done|]. split; [|by rewrite app_assoc; eexists _, _].
  rewrite !omap_app, Hl1, Hl2. change (omap main_row (?x :: l3)) with (omap main_row l3).
  rewrite Hl3.
  unfold all_inputs_rows, all_outputs_rows. by rewrite !app_nil_r.
Qed.
End facts.
