(* ===== verification/PvmWriter.v ===== *)
(** The indexing of the platform chain: services/indexes/pvm/writer.go. *)

From S2P Require Import Prelude Errors Sql Axia DbModel Persist Prog Models AxcWriter Writer.

(** * Blocks and transactions of the platform chain *)
Record Validator := mkValidator {
  Validator_NodeID : ShortID;
  Validator_Start : Z;
  Validator_End : Z;
}.

(** [castTx.RewardsOwner], a [verify.Verifiable]. *)
Inductive RewardsOwner :=
| NoRewardsOwner
| OwnerOutputOwners (owner : OutputOwners)
| OwnerOther (type_name : string).

Inductive PvmUnsignedTx :=
| UnsignedAddValidatorTx (base : BaseTx) (validator : Validator)
    (Stake : list TransferableOutput) (owner : RewardsOwner)
| UnsignedAddSubnetValidatorTx (base : BaseTx)
| UnsignedAddDelegatorTx (base : BaseTx) (validator : Validator)
    (Stake : list TransferableOutput) (owner : RewardsOwner)
| UnsignedCreateSubnetTx (base : BaseTx)
| UnsignedCreateChainTx (base : BaseTx)
| UnsignedImportTx (base : BaseTx) (SourceChain : ID) (ImportedInputs : list TransferableInput)
| UnsignedExportTx (base : BaseTx) (DestinationChain : ID)
    (ExportedOutputs : list TransferableOutput)
| UnsignedAdvanceTimeTx
| UnsignedRewardValidatorTx (id : ID) (TxID : ID) (InitiallyPrefersCommit : bool)
| UnsignedOtherTx (type_name : string).

Record PvmTx := mkPvmTx {
  PvmTx_UnsignedTx : PvmUnsignedTx;
  PvmTx_Creds : list Credential;
  PvmTx_Bytes : option string;
  PvmTx_UnsignedBytes : string;
}.

Record CommonBlock := mkCommonBlock { Block_Parent : ID; Block_Height : Z }.

Inductive PvmBlock :=
| ProposalBlock (common : CommonBlock) (tx : PvmTx)
| StandardBlock (common : CommonBlock) (txs : list PvmTx)
| AtomicBlock (common : CommonBlock) (tx : PvmTx)
| AbortBlock (common : CommonBlock)
| CommitBlock (common : CommonBlock)
| OtherBlock (type_name : string).

(** A block of the proposer VM; the details of a [block.SignedBlock]. *)
Record SignedDetail := mkSignedDetail {
  Signed_CoreChainHeight : Z;
  Signed_Proposer : ShortID;
  Signed_Timestamp : Z;
}.

Record ProposerBlock := mkProposerBlock {
  Proposer_ID : ID;
  Proposer_ParentID : ID;
  Proposer_Block : string;
  Proposer_Signed : option SignedDetail;
}.

(** The codec and parsers of axia-network-v2.  [pvm_Initialize] gives the
    transaction its id and bytes; it works through a pointer, so the caller's
    transaction is initialised too. *)
Class PvmCodec := {
  block_Parse : string → result ProposerBlock;
  pvm_Unmarshal : string → result (Z * PvmBlock);
  pvm_MarshalUnsigned : Z → PvmTx → result string;
  pvm_MarshalSigned : Z → PvmTx → result string;
  pvm_Initialize : string → string → PvmTx → PvmTx;
}.

Module pvm.
Definition Writer := axc.Writer.
Definition ChainID : ID := ids_Empty.

Section writer.
Context `{!AxiaIds} `{!AxiaMath} `{!AxiaCrypto} `{!Cfg} `{!PvmCodec}.
Context (Propagate : error → string → error).

Definition initializeTx (version : Z) (tx : PvmTx) : result PvmTx :=
  unsignedBytes ← pvm_MarshalUnsigned version tx;
  signedBytes ← pvm_MarshalSigned version tx;
  mret (pvm_Initialize unsignedBytes signedBytes tx).

(** The transaction after [initializeTx], and the error it reports. *)
Definition initialized (version : Z) (tx : PvmTx) : PvmTx * result unit :=
  match initializeTx version tx with
  | Ok tx' => (tx', Ok tt)
  | Err e => (tx, Err e)
  end.

Definition InsertTransactionValidator (ctx : ConsumerCtx) (txID : ID) (validator : Validator)
    : Prog unit :=
  persist (PInsert (ETransactionsValidator {|
    TransactionsValidator_ID := ID_String txID;
    TransactionsValidator_NodeID := ShortID_String (Validator_NodeID validator);
    TransactionsValidator_Start := Validator_Start validator;
    TransactionsValidator_End := Validator_End validator;
    TransactionsValidator_CreatedAt := ctx_Time ctx;
  |}) PerformUpdates).

Definition InsertTransactionBlock (ctx : ConsumerCtx) (txID blkTxID : ID) : Prog unit :=
  persist (PInsert (ETransactionsBlock {|
    TransactionsBlock_ID := ID_String txID;
    TransactionsBlock_TxBlockID := ID_String blkTxID;
    TransactionsBlock_CreatedAt := ctx_Time ctx;
  |}) PerformUpdates).

Definition rewards_address (base : BaseTx) (addr : string) (ipos : nat) : Prog nat :=
  now ← time_Now;
  _ ← persist (PInsert (ETransactionsRewardsOwnersAddress {|
        TransactionsRewardsOwnersAddress_ID := ID_String (BaseTx_ID base);
        TransactionsRewardsOwnersAddress_Address := ShortID_String (copy_ShortID addr);
        TransactionsRewardsOwnersAddress_OutputIndex := wrap32 (Z.of_nat ipos);
        TransactionsRewardsOwnersAddress_UpdatedAt := now;
      |}) PerformUpdates);
  Ret (S ipos).

Definition rewards_output (ctx : ConsumerCtx) (base : BaseTx) (ipos : Z) : Prog unit :=
  persist (PInsert (ETransactionsRewardsOwnersOutputs {|
    TransactionsRewardsOwnersOutputs_ID := ID_String (ID_Prefix (BaseTx_ID base) ipos);
    TransactionsRewardsOwnersOutputs_TransactionID := ID_String (BaseTx_ID base);
    TransactionsRewardsOwnersOutputs_OutputIndex := wrap32 ipos;
    TransactionsRewardsOwnersOutputs_CreatedAt := ctx_Time ctx;
  |}) PerformUpdates).

Definition insertTransactionsRewardsOwners (w : Writer) (ctx : ConsumerCtx)
    (rewardsOwner : RewardsOwner) (base : BaseTx) (stakeOuts : list TransferableOutput)
    : Prog unit :=
  match rewardsOwner with
  | OwnerOutputOwners owner =>
      _ ← prog_fold (Owners_Addrs owner) 0 (rewards_address base);
      (* the positions len(outs) and len(outs)+1 identify the rewards *)
      let outcnt := Z.of_nat (length (BaseTx_Outs base) + length stakeOuts) in
      _ ← prog_each [outcnt; (outcnt + 1)%Z] (rewards_output ctx base);
      persist (PInsert (ETransactionsRewardsOwners {|
        TransactionsRewardsOwners_ID := ID_String (BaseTx_ID base);
        TransactionsRewardsOwners_ChainID := axc.chainID w;
        TransactionsRewardsOwners_Threshold := Owners_Threshold owner;
        TransactionsRewardsOwners_Locktime := Owners_Locktime owner;
        TransactionsRewardsOwners_CreatedAt := ctx_Time ctx;
      |}) PerformUpdates)
  | NoRewardsOwner => Fail "rewards owner <nil>"
  | OwnerOther type_name => Fail ("rewards owner " +:+ type_name)
  end.

(** What the add-validator and add-delegator cases do before the transaction
    itself is inserted. *)
Definition index_staker (w : Writer) (ctx : ConsumerCtx) (blkID : ID) (base : BaseTx)
    (validator : Validator) (Stake : list TransferableOutput) (owner : RewardsOwner)
    : Prog unit :=
  _ ← InsertTransactionValidator ctx (BaseTx_ID base) validator;
  _ ← InsertTransactionBlock ctx (BaseTx_ID base) blkID;
  match owner with
  | NoRewardsOwner => Ret tt
  | _ => insertTransactionsRewardsOwners w ctx owner base Stake
  end.

Definition indexTransaction (w : Writer) (ctx : ConsumerCtx) (blkID : ID) (tx : PvmTx)
    (genesis : bool) : Prog unit :=
  let insert base typ ins outs :=
    axc.InsertTransaction Propagate w ctx (PvmTx_Bytes tx) (PvmTx_UnsignedBytes tx) base
      (PvmTx_Creds tx) typ ins outs 0 genesis in
  match PvmTx_UnsignedTx tx with
  | UnsignedAddValidatorTx base validator Stake owner =>
      _ ← index_staker w ctx blkID base validator Stake owner;
      insert base models.TransactionTypeAddValidator None
        (Some (axc.mkAddOutsContainer Stake true (axc.chainID w)))
  | UnsignedAddSubnetValidatorTx base =>
      _ ← InsertTransactionBlock ctx (BaseTx_ID base) blkID;
      insert base models.TransactionTypeAddSubnetValidator None None
  | UnsignedAddDelegatorTx base validator Stake owner =>
      _ ← index_staker w ctx blkID base validator Stake owner;
      insert base models.TransactionTypeAddDelegator None
        (Some (axc.mkAddOutsContainer Stake true (axc.chainID w)))
  | UnsignedCreateSubnetTx base =>
      _ ← InsertTransactionBlock ctx (BaseTx_ID base) blkID;
      insert base models.TransactionTypeCreateSubnet None None
  | UnsignedCreateChainTx base =>
      _ ← InsertTransactionBlock ctx (BaseTx_ID base) blkID;
      insert base models.TransactionTypeCreateChain None None
  | UnsignedImportTx base SourceChain ImportedInputs =>
      _ ← InsertTransactionBlock ctx (BaseTx_ID base) blkID;
      insert base models.TransactionTypePVMImport
        (Some (axc.mkAddInsContainer ImportedInputs (ID_String SourceChain))) None
  | UnsignedExportTx base DestinationChain ExportedOutputs =>
      _ ← InsertTransactionBlock ctx (BaseTx_ID base) blkID;
      insert base models.TransactionTypePVMExport None
        (Some (axc.mkAddOutsContainer ExportedOutputs false (ID_String DestinationChain)))
  | UnsignedAdvanceTimeTx => Ret tt
  | UnsignedRewardValidatorTx id TxID prefersCommit =>
      persist (PInsert (ERewards {|
        Rewards_ID := ID_String id;
        Rewards_BlockID := ID_String blkID;
        Rewards_Txid := ID_String TxID;
        Rewards_Shouldprefercommit := prefersCommit;
        Rewards_CreatedAt := ctx_Time ctx;
        Rewards_Processed := 0;
      |}) PerformUpdates)
  | UnsignedOtherTx type_name => Fail ("unknown tx type " +:+ type_name)
  end.

Definition indexCommonBlock (w : Writer) (ctx : ConsumerCtx) (blkID : ID) (blkType : Z)
    (blk : CommonBlock) (blockBytes : string) : Prog unit :=
  let blockBytes :=
    if (MaxSerializationLen <? Z.of_nat (String.length blockBytes))%Z then "" else blockBytes in
  persist (PInsert (EPvmBlocks {|
    PvmBlocks_ID := ID_String blkID;
    PvmBlocks_ChainID := axc.chainID w;
    PvmBlocks_Type := blkType;
    PvmBlocks_ParentID := ID_String (Block_Parent blk);
    PvmBlocks_Serialization := Some blockBytes;
    PvmBlocks_CreatedAt := ctx_Time ctx;
    PvmBlocks_Height := Block_Height blk;
  |}) PerformUpdates).

Definition index_proposer (ctx : ConsumerCtx) (blkID proposerBlkID : ID) (b : ProposerBlock)
    : Prog unit :=
  persist (PInsert (EPvmProposer
    match Proposer_Signed b with
    | Some detail => {|
        PvmProposer_ID := ID_String (Proposer_ID b);
        PvmProposer_ParentID := ID_String (Proposer_ParentID b);
        PvmProposer_BlkID := ID_String blkID;
        PvmProposer_ProposerBlkID := ID_String proposerBlkID;
        PvmProposer_CoreChainHeight := Signed_CoreChainHeight detail;
        PvmProposer_Proposer := ShortID_String (Signed_Proposer detail);
        PvmProposer_TimeStamp := Signed_Timestamp detail;
        PvmProposer_CreatedAt := ctx_Time ctx;
      |}
    | None => {|
        PvmProposer_ID := ID_String (Proposer_ID b);
        PvmProposer_ParentID := ID_String (Proposer_ParentID b);
        PvmProposer_BlkID := ID_String blkID;
        PvmProposer_ProposerBlkID := ID_String proposerBlkID;
        PvmProposer_CoreChainHeight := 0;
        PvmProposer_Proposer := "";
        PvmProposer_TimeStamp := ctx_Time ctx;
        PvmProposer_CreatedAt := ctx_Time ctx;
      |}
    end) PerformUpdates).

(** [errs.Add(initializeTx(...), w.indexTransaction(...))] of a standard block,
    and the two calls around [indexCommonBlock] of the others. *)
Definition index_block_txs (w : Writer) (ctx : ConsumerCtx) (blkID : ID) (ver : Z)
    (txs : list PvmTx) (errs : Errs) : Prog Errs :=
  prog_fold txs errs (λ tx errs,
    let '(tx', r) := initialized ver tx in
    errs_Add [lift r; indexTransaction w ctx blkID tx' false] errs).

Definition index_single (w : Writer) (ctx : ConsumerCtx) (blkID : ID) (ver blkType : Z)
    (common : CommonBlock) (tx : PvmTx) (blockBytes : string) : Prog Errs :=
  let '(tx', r) := initialized ver tx in
  errs_Add [lift r;
            indexCommonBlock w ctx blkID blkType common blockBytes;
            indexTransaction w ctx blkID tx' false] None.

Definition index_pblock (w : Writer) (ctx : ConsumerCtx) (blkID : ID) (ver : Z)
    (pblock : PvmBlock) (blockBytes : string) : Prog unit :=
  match pblock with
  | ProposalBlock common tx =>
      errs ← index_single w ctx blkID ver models.BlockTypeProposal common tx blockBytes;
      errs_Err errs
  | StandardBlock common txs =>
      errs ← errs_Add [indexCommonBlock w ctx blkID models.BlockTypeStandard common blockBytes] None;
      errs ← index_block_txs w ctx blkID ver txs errs;
      errs_Err errs
  | AtomicBlock common tx =>
      errs ← index_single w ctx blkID ver models.BlockTypeProposal common tx blockBytes;
      errs_Err errs
  | AbortBlock common =>
      errs ← errs_Add [indexCommonBlock w ctx blkID models.BlockTypeAbort common blockBytes] None;
      errs_Err errs
  | CommitBlock common =>
      errs ← errs_Add [indexCommonBlock w ctx blkID models.BlockTypeCommit common blockBytes] None;
      errs_Err errs
  | OtherBlock type_name => Fail ("unknown type " +:+ type_name)
  end.

(** The proposer block if the bytes are one, the platform block, its codec
    version and its bytes. *)
Definition parse_block (bytes : string) : result (option ProposerBlock * Z * PvmBlock * string) :=
  match block_Parse bytes with
  | Ok proposerBlock =>
      match pvm_Unmarshal (Proposer_Block proposerBlock) with
      | Ok (ver, pblock) => Ok (Some proposerBlock, ver, pblock, Proposer_Block proposerBlock)
      | Err e => Err (Propagate e "proposer bytes")
      end
  | Err _ =>
      match pvm_Unmarshal bytes with
      | Ok (ver, pblock) => Ok (None, ver, pblock, bytes)
      | Err e => Err (Propagate e "block bytes")
      end
  end.

Definition indexBlock (w : Writer) (ctx : ConsumerCtx) (proposerblockBytes : string)
    : Prog unit :=
  '(proposerBlock, ver, pblock, blockBytes) ← lift (parse_block proposerblockBytes);
  let blkID := ComputeHash256 blockBytes in
  _ ← match proposerBlock with
      | None => Ret tt
      | Some b => index_proposer ctx blkID (ComputeHash256 proposerblockBytes) b
      end;
  index_pblock w ctx blkID ver pblock blockBytes.

Definition Consume `{SqlEngine D} (clock : nat → Z) (w : Writer) (Timestamp Nanosecond : Z)
    (Body : string) : M D unit :=
  consume clock (indexBlock w (NewConsumerContext Timestamp Nanosecond) Body).

(** [Bootstrap] on the UTXOs and transactions of the platform genesis. *)
Definition Bootstrap (w : Writer) (Timestamp : Z) (UTXOs : list TransferableOutput)
    (Validators Chains : list PvmTx) : Prog unit :=
  let cCtx := NewConsumerContext Timestamp 0 in
  _ ← prog_fold UTXOs 0 (λ utxo idx,
        _ ← axc.ProcessStateOut Propagate w cCtx (out_Out utxo) ChainID (wrap32 (Z.of_nat idx))
              (out_AssetID utxo) 0 0 (axc.chainID w) false true;
        Ret (S idx));
  errs ← prog_fold (Validators ++ Chains) None (λ tx errs,
           errs_Add [indexTransaction w cCtx ChainID tx true] errs);
  errs_Err errs.
End writer.
End pvm.

(** * Facts *)
Section facts.
Context `{!AxiaIds} `{!AxiaMath} `{!AxiaCrypto} `{!Cfg} `{!PvmCodec}.
Context (Propagate : error → string → error).
Import pvm.

Lemma indexTransaction_strict w ctx blkID tx genesis :
  strict (indexTransaction Propagate w ctx blkID tx genesis).
Proof.
  unfold indexTransaction, index_staker, insertTransactionsRewardsOwners, rewards_address,
    rewards_output, InsertTransactionValidator, InsertTransactionBlock.
  solve_strict. all: apply InsertTransaction_strict.
Qed.

Lemma failing_errs_fold {A} (l : list A) (f : A → Errs → Prog Errs) errs :
  (∀ x e, failing is_Some (f x e)) → (∀ x e, is_Some e → returns is_Some (f x e)) →
  failing is_Some (prog_fold l errs f).
Proof.
  intros Hf Hr.
  assert (∀ e, is_Some e → returns is_Some (prog_fold l e f)) as Hl.
  { induction l as [|x l IH]; intros e He; simpl; [done|]. eapply returns_bind; eauto. }
  clear -Hf Hr. revert errs. induction l as [|x l IH]; intros errs; simpl; [done|].
  eapply failing_bind; [apply Hf|apply IH|]. clear IH.
  induction l as [|y l IH]; intros e He; simpl; [done|]. eapply returns_bind; eauto.
Qed.

Lemma index_single_failing w ctx blkID ver typ common tx bytes :
  failing is_Some (index_single Propagate w ctx blkID ver typ common tx bytes).
Proof.
  unfold index_single. destruct (initialized ver tx) as [tx' r].
  apply failing_errs_Add. repeat constructor.
  - apply strict_lift.
  - apply indexTransaction_strict.
Qed.

Lemma index_block_txs_failing w ctx blkID ver txs errs :
  failing is_Some (index_block_txs Propagate w ctx blkID ver txs errs).
Proof.
  apply failing_errs_fold.
  - intros tx e. destruct (initialized ver tx) as [tx' r]. apply failing_errs_Add.
    repeat constructor; [apply strict_lift | apply indexTransaction_strict].
  - intros tx e He. destruct (initialized ver tx) as [tx' r]. by apply returns_errs_Add.
Qed.

Lemma index_block_txs_returns w ctx blkID ver txs errs :
  is_Some errs → returns is_Some (index_block_txs Propagate w ctx blkID ver txs errs).
Proof.
  unfold index_block_txs. revert errs.
  induction txs as [|tx txs IH]; intros errs He; simpl; [done|].
  eapply returns_bind; [|intros; by apply IH].
  destruct (initialized ver tx). by apply returns_errs_Add.
Qed.

(** An error of any of the calls collected by [wrappers.Errs] is reported. *)
Lemma indexBlock_strict w ctx bytes : strict (indexBlock Propagate w ctx bytes).
Proof.
  unfold indexBlock. apply strict_bind; [apply strict_lift|].
  intros [[[pb ver] pblock] bb]. apply strict_bind.
  { destruct pb; [apply strict_persist|done]. }
  intros _. destruct pblock; unfold index_pblock.
  - apply (strict_errs_Err _ id), index_single_failing.
  - eapply failing_bind; [apply failing_errs_Add; by repeat constructor| |].
    + intros errs. apply (strict_errs_Err _ id), index_block_txs_failing.
    + intros errs He. eapply returns_bind; [by apply index_block_txs_returns|]. by intros ? [? ->].
  - apply (strict_errs_Err _ id), index_single_failing.
  - apply (strict_errs_Err _ id), failing_errs_Add. by repeat constructor.
  - apply (strict_errs_Err _ id), failing_errs_Add. by repeat constructor.
  - done.
Qed.
End facts.

(** ** What a block is indexed as *)
Definition block_common (b : PvmBlock) : option CommonBlock :=
  match b with
  | ProposalBlock c _ | StandardBlock c _ | AtomicBlock c _ | AbortBlock c | CommitBlock c => Some c
  | OtherBlock _ => None
  end.

(** The type a block is recorded with: an atomic block counts as a proposal. *)
Definition recorded_type (b : PvmBlock) : Z :=
  match b with
  | ProposalBlock _ _ | AtomicBlock _ _ | OtherBlock _ => models.BlockTypeProposal
  | StandardBlock _ _ => models.BlockTypeStandard
  | AbortBlock _ => models.BlockTypeAbort
  | CommitBlock _ => models.BlockTypeCommit
  end.

Definition block_txs (b : PvmBlock) : list PvmTx :=
  match b with
  | ProposalBlock _ tx | AtomicBlock _ tx => [tx]
  | StandardBlock _ txs => txs
  | _ => []
  end.

(** The identifier a transaction is recorded under, in [avm_transactions] or (for
    a reward) in [rewards]; advancing the time is not recorded. *)
Definition tx_recorded `{!AxiaIds} `{!Cfg} (tx : PvmTx) (o : pop) : Prop :=
  match PvmTx_UnsignedTx tx with
  | UnsignedAddValidatorTx base _ _ _ | UnsignedAddSubnetValidatorTx base
  | UnsignedAddDelegatorTx base _ _ _ | UnsignedCreateSubnetTx base | UnsignedCreateChainTx base
  | UnsignedImportTx base _ _ | UnsignedExportTx base _ _ =>
      ∃ t, o = PInsert (ETransactions t) PerformUpdates ∧ Transactions_ID t = ID_String (BaseTx_ID base)
  | UnsignedRewardValidatorTx id _ _ =>
      ∃ r, o = PInsert (ERewards r) PerformUpdates ∧ Rewards_ID r = ID_String id
  | UnsignedAdvanceTimeTx | UnsignedOtherTx _ => False
  end.

Definition is_recorded (tx : PvmTx) : Prop := PvmTx_UnsignedTx tx ≠ UnsignedAdvanceTimeTx.

Section rows.
Context `{!AxiaIds} `{!AxiaMath} `{!AxiaCrypto} `{!Cfg} `{!PvmCodec}.
Context (Propagate : error → string → error).
Import pvm.

Lemma InsertTransaction_last w ctx txBytes ub base creds typ ins outs addl genesis :
  wlp (axc.InsertTransaction Propagate w ctx txBytes ub base creds typ ins outs addl genesis)
    (λ l _, ∃ o, o ∈ l ∧ ∃ t, o = PInsert (ETransactions t) PerformUpdates ∧
              Transactions_ID t = ID_String (BaseTx_ID base)).
Proof.
  unfold axc.InsertTransaction. do 4 (apply wlp_bind_last; intros ? ?). apply wlp_persist.
  eexists. split; [apply elem_of_app; right; apply elem_of_app; right;
    apply elem_of_app; right; apply elem_of_app; right; left|].
  by eexists.
Qed.

Definition tx_done (tx : PvmTx) (l : list pop) : Prop :=
  is_recorded tx → ∃ o, o ∈ l ∧ tx_recorded tx o.

Lemma within_tx_done tx : within (tx_done tx).
Proof. intros l l1 l2 Hd Hr. apply (within_elem (tx_recorded tx)). by apply Hd. Qed.

Lemma indexTransaction_done w ctx blkID tx genesis :
  wlp (indexTransaction Propagate w ctx blkID tx genesis) (λ l _, tx_done tx l).
Proof.
  unfold indexTransaction, tx_done, is_recorded, tx_recorded.
  destruct (PvmTx_UnsignedTx tx); try done.
  all: try (apply wlp_bind_last; intros ? l0; eapply wlp_mono; [apply InsertTransaction_last|];
    intros l [] (o & Ho & Ht) _; exists o; split; [by apply elem_of_app; right | done]).
  - apply wlp_ret. by intros [].
  - apply wlp_persist. intros _. eexists. split; [left|]. by eexists.
Qed.

Definition block_row (w : Writer) (ctx : ConsumerCtx) (blkID : ID) (typ : Z) (c : CommonBlock)
    (bytes : string) : PvmBlocks := {|
  PvmBlocks_ID := ID_String blkID;
  PvmBlocks_ChainID := axc.chainID w;
  PvmBlocks_Type := typ;
  PvmBlocks_ParentID := ID_String (Block_Parent c);
  PvmBlocks_Serialization :=
    Some (if (MaxSerializationLen <? Z.of_nat (String.length bytes))%Z then "" else bytes);
  PvmBlocks_CreatedAt := ctx_Time ctx;
  PvmBlocks_Height := Block_Height c;
|}.

Definition block_done w ctx blkID typ c bytes (l : list pop) : Prop :=
  ∃ o, o ∈ l ∧ o = PInsert (EPvmBlocks (block_row w ctx blkID typ c bytes)) PerformUpdates.

Lemma indexCommonBlock_done w ctx blkID typ c bytes :
  wlp (indexCommonBlock w ctx blkID typ c bytes) (λ l _, block_done w ctx blkID typ c bytes l).
Proof. apply wlp_persist. eexists. split; [left|done]. Qed.

Lemma within_block_done w ctx blkID typ c bytes : within (block_done w ctx blkID typ c bytes).
Proof. apply within_elem. Qed.

Lemma index_single_done w ctx blkID ver typ c tx bytes :
  wlp (index_single Propagate w ctx blkID ver typ c tx bytes)
    (λ l e, e = None →
      block_done w ctx blkID typ c bytes l ∧ tx_done (initialized ver tx).1 l).
Proof.
  unfold index_single. destruct (initialized ver tx) as [tx' r]. simpl.
  eapply wlp_mono.
  - apply (wlp_errs_Add [(lift r, λ _, True);
      (indexCommonBlock w ctx blkID typ c bytes, block_done w ctx blkID typ c bytes);
      (indexTransaction Propagate w ctx blkID tx' false, tx_done tx')]).
    repeat constructor; simpl.
    + by apply wlp_true.
    + apply within_block_done.
    + by exists (PInsert (EPvmBlocks (block_row w ctx blkID typ c bytes)) PerformUpdates); split; [left|].
    + apply within_tx_done.
    + apply indexTransaction_done.
  - simpl. intros l e Hd He. destruct (Hd He) as [_ Hf].
    apply Forall_cons in Hf as [_ Hf]. apply Forall_cons in Hf as [? Hf].
    by apply Forall_cons in Hf as [? _].
Qed.

Lemma index_block_txs_done w ctx blkID ver txs errs :
  wlp (index_block_txs Propagate w ctx blkID ver txs errs)
    (λ l e, e = None → errs = None ∧ Forall (λ tx, tx_done (initialized ver tx).1 l) txs).
Proof.
  unfold index_block_txs. revert errs. induction txs as [|tx txs IH]; intros errs; simpl.
  - by apply wlp_ret.
  - apply wlp_bind. destruct (initialized ver tx) as [tx' r] eqn:Ei. eapply wlp_mono.
    + apply (wlp_errs_Add [(lift r, λ _, True);
        (indexTransaction Propagate w ctx blkID tx' false, tx_done tx')]).
      repeat constructor; simpl; [by apply wlp_true|apply within_tx_done|apply indexTransaction_done].
    + simpl. intros l e He. eapply wlp_mono; [apply IH|]. simpl. intros l' e' He' Hn.
      destruct (He' Hn) as [Hn1 Hf]. destruct (He Hn1) as [Hn2 Hf2]. split; [done|].
      apply Forall_cons in Hf2 as [_ Hf2]. apply Forall_cons in Hf2 as [Htx _].
      constructor; [rewrite Ei; by apply within_l, Htx; apply within_tx_done|].
      eapply Forall_impl; [exact Hf|]. intros tx0 Htx0. by apply within_r; [apply within_tx_done|].
Qed.

(** The block itself and all its transactions are recorded. *)
Lemma index_pblock_done w ctx blkID ver pblock bytes :
  wlp (index_pblock Propagate w ctx blkID ver pblock bytes)
    (λ l _, ∃ c, block_common pblock = Some c ∧
      block_done w ctx blkID (recorded_type pblock) c bytes l ∧
      Forall (λ tx, tx_done (initialized ver tx).1 l) (block_txs pblock)).
Proof.
  assert (∀ c typ, wlp (errs_Add [indexCommonBlock w ctx blkID typ c bytes] None)
    (λ l e, e = None → block_done w ctx blkID typ c bytes l)) as Hone.
  { intros c typ. eapply wlp_mono.
    - apply (wlp_errs_Add [(indexCommonBlock w ctx blkID typ c bytes, block_done w ctx blkID typ c bytes)]).
      apply Forall_singleton. split; [apply within_block_done|apply indexCommonBlock_done].
    - simpl. intros l e Hd He. destruct (Hd He) as [_ Hf]. by apply Forall_cons in Hf as [? _]. }
  destruct pblock; unfold index_pblock; try done.
  1,3: apply wlp_bind; (eapply wlp_mono; [apply index_single_done|]); simpl; intros l e He;
    apply wlp_errs_Err; intros Hn; rewrite app_nil_r; destruct (He Hn) as [? ?];
    eexists; by repeat constructor.
  - apply wlp_bind. eapply wlp_mono; [apply Hone|]. simpl. intros l e He.
    apply wlp_bind. eapply wlp_mono; [apply index_block_txs_done|]. simpl. intros l' e' He'.
    apply wlp_errs_Err. intros Hn. rewrite app_nil_r. destruct (He' Hn) as [Hn1 Hf].
    exists common. split; [done|]. split; [apply within_l; [apply within_block_done|by apply He]|].
    eapply Forall_impl; [exact Hf|]. intros tx Htx. by apply within_r; [apply within_tx_done|].
  - apply wlp_bind. eapply wlp_mono; [apply Hone|]. simpl. intros l e He.
    apply wlp_errs_Err. intros Hn. rewrite app_nil_r. eexists. split; [done|].
    split; [by apply He|constructor].
  - apply wlp_bind. eapply wlp_mono; [apply Hone|]. simpl. intros l e He.
    apply wlp_errs_Err. intros Hn. rewrite app_nil_r. eexists. split; [done|].
    split; [by apply He|constructor].
Qed.
End rows.
