(* ===== verification/CvmWriter.v ===== *)
(** The indexing of the C chain: services/indexes/cvm/writer.go, and
    utils/type_address_util.go. *)

From Stdlib Require Import Ascii.
From S2P Require Import Prelude Errors Sql Axia DbModel Persist Prog Models AxcWriter Writer.

(** * utils/type_address_util.go *)
Definition is_hex (c : Ascii.ascii) : bool :=
  let n := Ascii.N_of_ascii c in
  (((48 <=? n) && (n <=? 57)) || ((65 <=? n) && (n <=? 70)) || ((97 <=? n) && (n <=? 102)))%N.

(** [hex.DecodeString] accepts the text. *)
Definition hex_valid (s : string) : bool :=
  Nat.even (String.length s) && forallb is_hex (String.list_ascii_of_string s).

(** [strings.TrimPrefix(s, "0x")] *)
Definition trim_0x (s : string) : string :=
  match s with
  | String.String "0"%char (String.String "x"%char s') => s'
  | _ => s
  end.

(** [address] is the text of [address.Hex()]. *)
Definition CommonAddressHexRepair (address : option string) : string :=
  match address with
  | None => ""
  | Some hex =>
      let str := trim_0x hex in
      let str := if hex_valid str then to_lower str else str in
      if has_prefix "0x" str then str else "0x" +:+ str
  end.

(** * Atomic transactions and blocks of the C chain *)
Record EVMInput := mkEVMInput {
  EVMInput_Address : string;
  EVMInput_AssetID : ID;
  EVMInput_Amount : Z;
  EVMInput_Nonce : Z;
}.

Record EVMOutput := mkEVMOutput {
  EVMOutput_Address : string;
  EVMOutput_AssetID : ID;
  EVMOutput_Amount : Z;
}.

Record UnsignedExportTx := mkUnsignedExportTx {
  Export_BlockchainID : ID;
  Export_DestinationChain : ID;
  Export_Ins : list EVMInput;
  Export_ExportedOutputs : list TransferableOutput;
}.

Record UnsignedImportTx := mkUnsignedImportTx {
  Import_BlockchainID : ID;
  Import_SourceChain : ID;
  Import_ImportedInputs : list TransferableInput;
  Import_Outs : list EVMOutput;
}.

Inductive UnsignedAtomicTx :=
| AtomicExport (tx : UnsignedExportTx)
| AtomicImport (tx : UnsignedImportTx)
| AtomicOther.

Record EvmTx := mkEvmTx {
  EvmTx_ID : ID;
  EvmTx_Unsigned : UnsignedAtomicTx;
  EvmTx_Creds : list Credential;
}.

(** An Ethereum transaction: its hash, receiver, nonce and JSON. *)
Record RawTx := mkRawTx {
  RawTx_Hash : string;
  RawTx_To : option string;
  RawTx_Nonce : Z;
  RawTx_JSON : result string;
}.

Record CBlock := mkCBlock {
  CBlock_Number : Z;
  CBlock_Time : Z;
  CBlock_Nonce : Z;
  CBlock_Hash : string;
  CBlock_ParentHash : string;
  CBlock_ExtraData : string;
  CBlock_Txs : list RawTx;
}.

(** The log of an Ethereum receipt; hashes as their hexadecimal text. *)
Record EthLog := mkEthLog {
  EthLog_BlockHash : string;
  EthLog_TxHash : string;
  EthLog_Index : Z;
  EthLog_BlockNumber : Z;
  EthLog_Topics : list string;
  EthLog_Removed : bool;
}.

Record TransactionTrace := mkTransactionTrace {
  Trace_Hash : string;
  Trace_Idx : Z;
  Trace_Trace : string;
}.

(** [models.CvmTransactionsTxDataTrace], the fields of the trace's JSON. *)
Record TraceModel := mkTraceModel {
  TraceModel_ToAddr : string;
  TraceModel_FromAddr : string;
  TraceModel_CallType : string;
  TraceModel_Type : string;
}.

(** The codec of coreth and JSON. *)
Class CvmCodec := {
  evm_Unmarshal : string → result EvmTx;
  evm_UnmarshalBatch : string → result (list EvmTx);
  evm_Sign : EvmTx → result EvmTx;
  evm_MarshalUnsigned : UnsignedAtomicTx → result string;
  block_Marshal : CBlock → result string;          (* json.Marshal(block) *)
  trace_Unmarshal : string → result TraceModel;    (* json.Unmarshal(trace) *)
}.

Module cvm.
Record Writer := mkWriter {
  networkID : Z;
  axcAssetID : ID;
  axcWriter : axc.Writer;
  ap5Activation : Z;
}.

Section writer.
Context `{!AxiaIds} `{!AxiaMath} `{!AxiaCrypto} `{!Cfg} `{!CvmCodec}.
Context (Propagate : error → string → error).

Definition wrapf (msg : string) (r : error) : error := msg +:+ r.

Definition extractAtomicTxsPreApricotPhase5 (atomicTxBytes : string) : result (list EvmTx) :=
  match evm_Unmarshal atomicTxBytes with
  | Err e => Err (wrapf "failed to unmarshal atomic tx (pre-AP5): " e)
  | Ok atomicTx =>
      match evm_Sign atomicTx with
      | Err e => Err (wrapf "failed to initialize singleton atomic tx due to: " e)
      | Ok tx => Ok [tx]
      end
  end.

Fixpoint sign_all (index : Z) (txs : list EvmTx) : result (list EvmTx) :=
  match txs with
  | [] => Ok []
  | atx :: txs' =>
      match evm_Sign atx with
      | Err e =>
          Err (wrapf ("failed to initialize atomic tx at index " +:+ Z_to_string index +:+ ": ") e)
      | Ok tx => rest ← sign_all (index + 1) txs'; mret (tx :: rest)
      end
  end.

Definition extractAtomicTxsPostApricotPhase5 (atomicTxBytes : string) : result (list EvmTx) :=
  match evm_UnmarshalBatch atomicTxBytes with
  | Err e => Err (wrapf "failed to unmarshal atomic tx (post-AP5): " e)
  | Ok txs => sign_all 0 txs
  end.

(** ** Atomic transactions *)
Definition indexTransaction (w : Writer) (ctx : ConsumerCtx) (id : ID) (typ : Z)
    (blockChainID : ID) (txFee : Z) (unsignedBytes : string) : Prog unit :=
  let avmTxtype :=
    if (typ =? models.AXChainImport)%Z then "atomic_import_tx"
    else if (typ =? models.AXChainExport)%Z then "atomic_export_tx" else "" in
  axc.InsertTransactionBase ctx id (ID_String blockChainID) avmTxtype (Some "")
    (Some unsignedBytes) txFee false (networkID w).

Definition insertAddress (typ : Z) (ctx : ConsumerCtx) (idx : Z) (id : ID) (address : string)
    (assetID : ID) (amount nonce : Z) : Prog unit :=
  let idprefix := ID_Prefix id idx in
  persist (PInsert (ECvmAddresses {|
    CvmAddresses_ID := ID_String idprefix;
    CvmAddresses_Type := typ;
    CvmAddresses_Idx := idx;
    CvmAddresses_TransactionID := ID_String id;
    CvmAddresses_Address := address;
    CvmAddresses_AssetID := ID_String assetID;
    CvmAddresses_Amount := amount;
    CvmAddresses_Nonce := nonce;
    CvmAddresses_CreatedAt := ctx_Time ctx;
  |}) PerformUpdates).

(** [if assetID == w.axcAssetID { total, err = math.Add64(total, amount) }] *)
Definition add_axc (w : Writer) (assetID : ID) (total amt : Z) : result Z :=
  if decide (assetID = axcAssetID w) then Add64 total amt else Ok total.

Definition export_ins (w : Writer) (ctx : ConsumerCtx) (txID : ID) (ins : list EVMInput)
    : Prog (Z * Z) :=
  prog_fold ins (0%Z, 0%Z) (λ i '(icnt, totalin),
    _ ← insertAddress models.AXChainIn ctx icnt txID (EVMInput_Address i) (EVMInput_AssetID i)
          (EVMInput_Amount i) (EVMInput_Nonce i);
    totalin ← lift (add_axc w (EVMInput_AssetID i) totalin (EVMInput_Amount i));
    Ret ((icnt + 1)%Z, totalin)).

Definition indexExportTx (w : Writer) (ctx : ConsumerCtx) (txID : ID) (tx : UnsignedExportTx)
    (blockBytes : string) : Prog unit :=
  '(_, totalin) ← export_ins w ctx txID (Export_Ins tx);
  '(_, totalout) ← axc.outs_loop Propagate (axcWriter w) ctx txID
                     (ID_String (Export_DestinationChain tx)) false
                     (Export_ExportedOutputs tx) (0%Z, 0%Z);
  indexTransaction w ctx txID models.AXChainExport (Export_BlockchainID tx)
    (u64_sub totalin totalout) blockBytes.

Definition import_outs (w : Writer) (ctx : ConsumerCtx) (txID : ID) (outs : list EVMOutput)
    : Prog (Z * Z) :=
  prog_fold outs (0%Z, 0%Z) (λ out '(icnt, totalout),
    _ ← insertAddress models.AXchainOut ctx icnt txID (EVMOutput_Address out)
          (EVMOutput_AssetID out) (EVMOutput_Amount out) 0;
    totalout ← lift (add_axc w (EVMOutput_AssetID out) totalout (EVMOutput_Amount out));
    Ret ((icnt + 1)%Z, totalout)).

Definition indexImportTx (w : Writer) (ctx : ConsumerCtx) (txID : ID) (tx : UnsignedImportTx)
    (creds : list Credential) (blockBytes unsignedBytes : string) : Prog unit :=
  '(_, totalout) ← import_outs w ctx txID (Import_Outs tx);
  '(_, totalin) ← axc.ins_loop (axcWriter w) ctx txID creds unsignedBytes
                    (ID_String (Import_SourceChain tx)) (Import_ImportedInputs tx) (0, 0%Z);
  indexTransaction w ctx txID models.AXChainImport (Import_BlockchainID tx)
    (u64_sub totalin totalout) blockBytes.

(** ** Blocks *)

(** The loop over the atomic transactions: the type and chain of the last one,
    for every row of the block. *)
Definition index_atomic (w : Writer) (ctx : ConsumerCtx) (blockBytes : string)
    (atomicTX : EvmTx) (st : Z * string) : Prog (Z * string) :=
  let txID := EvmTx_ID atomicTX in
  match EvmTx_Unsigned atomicTX with
  | AtomicExport atx =>
      _ ← indexExportTx w ctx txID atx blockBytes;
      Ret (models.AXChainExport, ID_String (Export_BlockchainID atx))
  | AtomicImport atx =>
      unsignedBytes ← lift (evm_MarshalUnsigned (EvmTx_Unsigned atomicTX));
      _ ← indexImportTx w ctx txID atx (EvmTx_Creds atomicTX) blockBytes unsignedBytes;
      Ret (models.AXChainImport, ID_String (Import_BlockchainID atx))
  | AtomicOther => Ret st
  end.

Definition index_rawtx (ctx : ConsumerCtx) (block : CBlock) (rawtx : RawTx) (ipos : Z) : Prog Z :=
  txdata ← lift (RawTx_JSON rawtx);
  _ ← persist (PInsert (ECvmTransactionsTxdata {|
        CvmTransactionsTxdata_Hash := RawTx_Hash rawtx;
        CvmTransactionsTxdata_Block := Z_to_string (CBlock_Number block);
        CvmTransactionsTxdata_Idx := ipos;
        CvmTransactionsTxdata_Rcpt := CommonAddressHexRepair (RawTx_To rawtx);
        CvmTransactionsTxdata_Nonce := RawTx_Nonce rawtx;
        CvmTransactionsTxdata_Serialization := Some txdata;
        CvmTransactionsTxdata_CreatedAt := ctx_Time ctx;
      |}) PerformUpdates);
  Ret (ipos + 1)%Z.

(** [block.TxsBytes = nil; block.Txs = nil] *)
Definition clear_txs (b : CBlock) : CBlock :=
  mkCBlock (CBlock_Number b) (CBlock_Time b) (CBlock_Nonce b) (CBlock_Hash b)
    (CBlock_ParentHash b) (CBlock_ExtraData b) [].

Definition indexBlockInternal (w : Writer) (ctx : ConsumerCtx) (atomicTXs : list EvmTx)
    (blockBytes : string) (block : CBlock) : Prog unit :=
  let txIDs := map (λ tx, ID_String (EvmTx_ID tx)) atomicTXs in
  id ← lift (ids_ToID (ComputeHash256 (Z_to_string (CBlock_Number block))));
  '(typ, blockchainID) ← prog_fold atomicTXs (0%Z, "") (index_atomic w ctx blockBytes);
  _ ← prog_fold (CBlock_Txs block) 0%Z (index_rawtx ctx block);
  let block := clear_txs block in
  blockjson ← lift (block_Marshal block);
  let htime := if (CBlock_Time block =? 0)%Z then 1%Z else CBlock_Time block in
  let tm := (htime * 10 ^ 9)%Z in
  prog_each txIDs (λ txIDString,
    persist (PInsert (ECvmTransactions {|
      CvmTransactions_ID := ID_String id;
      CvmTransactions_TransactionID := txIDString;
      CvmTransactions_Type := typ;
      CvmTransactions_BlockchainID := blockchainID;
      CvmTransactions_Block := Z_to_string (CBlock_Number block);
      CvmTransactions_CreatedAt := ctx_Time ctx;
      CvmTransactions_Serialization := Some blockjson;
      CvmTransactions_TxTime := tm;
      CvmTransactions_Nonce := CBlock_Nonce block;
      CvmTransactions_Hash := CBlock_Hash block;
      CvmTransactions_ParentHash := CBlock_ParentHash block;
    |}) PerformUpdates)).

Definition indexBlock (w : Writer) (ctx : ConsumerCtx) (blockBytes : string) (block : CBlock)
    : Prog unit :=
  atomicTxs ← lift
    (if (0 <? String.length blockBytes) then
       if (CBlock_Time block <? ap5Activation w)%Z
       then extractAtomicTxsPreApricotPhase5 (CBlock_ExtraData block)
       else extractAtomicTxsPostApricotPhase5 (CBlock_ExtraData block)
     else Ok []);
  indexBlockInternal w ctx atomicTxs blockBytes block.

Definition Consume `{SqlEngine D} (clock : nat → Z) (w : Writer) (Timestamp Nanosecond : Z)
    (Body : string) (block : CBlock) : M D unit :=
  consume clock (indexBlock w (NewConsumerContext Timestamp Nanosecond) Body block).

(** ** Logs and traces *)
Definition ConsumeLogs_body (ctx : ConsumerCtx) (Body : string) (txLogs : EthLog) : Prog unit :=
  let firstTopic := match EthLog_Topics txLogs with t :: _ => t | [] => "" end in
  cvmLogs ← lift (CvmLogs_ComputeID {|
    CvmLogs_ID := "";
    CvmLogs_BlockHash := EthLog_BlockHash txLogs;
    CvmLogs_TxHash := EthLog_TxHash txLogs;
    CvmLogs_LogIndex := EthLog_Index txLogs;
    CvmLogs_FirstTopic := firstTopic;
    CvmLogs_Block := Z_to_string (EthLog_BlockNumber txLogs);
    CvmLogs_Removed := EthLog_Removed txLogs;
    CvmLogs_CreatedAt := ctx_Time ctx;
    CvmLogs_Serialization := Some Body;
  |});
  persist (PInsert (ECvmLogs cvmLogs) PerformUpdates).

Definition ConsumeLogs `{SqlEngine D} (clock : nat → Z) (Timestamp Nanosecond : Z)
    (Body : string) (txLogs : EthLog) : M D unit :=
  consume clock (ConsumeLogs_body (NewConsumerContext Timestamp Nanosecond) Body txLogs).

Definition ConsumeTrace_body (ctx : ConsumerCtx) (trace : TransactionTrace) : Prog unit :=
  txTraceModel ← lift (trace_Unmarshal (Trace_Trace trace));
  persist (PInsert (ECvmTransactionsTxdataTrace {|
    CvmTransactionsTxdataTrace_Hash := Trace_Hash trace;
    CvmTransactionsTxdataTrace_Idx := Trace_Idx trace;
    CvmTransactionsTxdataTrace_ToAddr := TraceModel_ToAddr txTraceModel;
    CvmTransactionsTxdataTrace_FromAddr := TraceModel_FromAddr txTraceModel;
    CvmTransactionsTxdataTrace_CallType := TraceModel_CallType txTraceModel;
    CvmTransactionsTxdataTrace_Type := TraceModel_Type txTraceModel;
    CvmTransactionsTxdataTrace_Serialization := Some (Trace_Trace trace);
    CvmTransactionsTxdataTrace_CreatedAt := ctx_Time ctx;
  |}) PerformUpdates).

Definition ConsumeTrace `{SqlEngine D} (clock : nat → Z) (Timestamp Nanosecond : Z)
    (trace : TransactionTrace) : M D unit :=
  consume clock (ConsumeTrace_body (NewConsumerContext Timestamp Nanosecond) trace).
End writer.
End cvm.

(** * Facts *)
Section facts.
Context `{!AxiaIds} `{!AxiaMath} `{!AxiaMathOk} `{!AxiaCrypto} `{!Cfg} `{!CvmCodec}.
Context (Propagate : error → string → error).
Import cvm.

Lemma indexExportTx_strict w ctx txID tx bytes :
  strict (indexExportTx Propagate w ctx txID tx bytes).
Proof.
  unfold indexExportTx, export_ins, insertAddress, axc.outs_loop, indexTransaction.
  solve_strict. all: first [apply InsertTransactionOuts_strict | apply strict_persist].
Qed.

Lemma indexImportTx_strict w ctx txID tx creds bytes ub :
  strict (indexImportTx w ctx txID tx creds bytes ub).
Proof.
  unfold indexImportTx, import_outs, insertAddress, axc.ins_loop, indexTransaction.
  solve_strict. all: first [apply InsertTransactionIns_strict | apply strict_persist].
Qed.

Lemma indexBlockInternal_strict w ctx txs bytes block :
  strict (indexBlockInternal Propagate w ctx txs bytes block).
Proof.
  unfold indexBlockInternal, index_atomic, index_rawtx. solve_strict.
  - apply indexExportTx_strict.
  - apply indexImportTx_strict.
Qed.

Lemma cvm_indexBlock_strict w ctx bytes block : strict (indexBlock Propagate w ctx bytes block).
Proof. apply strict_bind; [apply strict_lift | intros; apply indexBlockInternal_strict]. Qed.

Definition evm_axc (w : Writer) (assetID : ID) (amt : Z) : Z :=
  if decide (assetID = axcAssetID w) then amt else 0.

Lemma cvm_add_axc_ok w assetID total amt s :
  is_u64 total → is_u64 amt → add_axc w assetID total amt = Ok s →
  s = (total + evm_axc w assetID amt)%Z ∧ is_u64 s.
Proof.
  unfold add_axc, evm_axc. intros Ht Ha. case_decide; [by apply Add64_Ok_inv|].
  intros [= <-]. split; [lia|done].
Qed.

(** The address rows of a list of EVM inputs or outputs. *)
Definition address_of (o : pop) : option CvmAddresses :=
  match o with PInsert (ECvmAddresses a) _ => Some a | _ => None end.

Fixpoint export_addresses (ctx : ConsumerCtx) (txID : ID) (idx : Z) (ins : list EVMInput)
    : list CvmAddresses :=
  match ins with
  | [] => []
  | i :: ins' =>
      mkCvmAddresses (ID_String (ID_Prefix txID idx)) models.AXChainIn idx (ID_String txID)
        (EVMInput_Address i) (ID_String (EVMInput_AssetID i)) (EVMInput_Amount i)
        (EVMInput_Nonce i) (ctx_Time ctx) :: export_addresses ctx txID (idx + 1) ins'
  end.

Lemma export_ins_rows w ctx txID ins :
  Forall (λ i, is_u64 (EVMInput_Amount i)) ins →
  wlp (export_ins w ctx txID ins)
    (λ l r, omap main_row l = [] ∧ omap address_of l = export_addresses ctx txID 0 ins ∧
            r.2 = sum_with (λ i, evm_axc w (EVMInput_AssetID i) (EVMInput_Amount i)) ins ∧
            is_u64 r.2).
Proof.
  intros Hi. unfold export_ins.
  match goal with |- wlp (prog_fold _ _ ?f) _ =>
    cut (∀ n t, is_u64 t → wlp (prog_fold ins (n, t) f) (λ l r,
      omap main_row l = [] ∧ omap address_of l = export_addresses ctx txID n ins ∧
      r.2 = (t + sum_with (λ i, evm_axc w (EVMInput_AssetID i) (EVMInput_Amount i)) ins)%Z ∧
      is_u64 r.2)) end.
  { intros Hc. apply Hc. by split. }
  induction Hi as [|i ins Hu Hi IH]; intros n t Ht.
  - apply wlp_ret. simpl. by rewrite Z.add_0_r.
  - apply wlp_bind, wlp_bind, wlp_persist, wlp_bind, wlp_lift.
    intros s (-> & Hs)%cvm_add_axc_ok; [|done|done]. apply wlp_ret.
    eapply wlp_mono; [apply (IH _ _ Hs)|]. intros l r (Hl & Ha & Hr & Hu').
    split; [exact Hl|]. split; [exact (f_equal (cons _) Ha)|]. simpl. split; [lia|done].
Qed.
End facts.

(** ** Exports and blocks *)
Definition cvm_transaction_row `{!AxiaIds} (w : cvm.Writer) (ctx : ConsumerCtx) (txID : ID)
    (txtype : string) (blockchainID : ID) (txfee : Z) (bytes : string) : Transactions := {|
  Transactions_ID := ID_String txID;
  Transactions_ChainID := ID_String blockchainID;
  Transactions_Type := txtype;
  Transactions_Memo := Some "";
  Transactions_CanonicalSerialization :=
    if (MaxSerializationLen <? bytes_len (Some bytes))%Z then Some "" else Some bytes;
  Transactions_Txfee := txfee;
  Transactions_NetworkID := cvm.networkID w;
  Transactions_Genesis := false;
  Transactions_CreatedAt := ctx_Time ctx;
|}.

Section rows.
Context `{!AxiaIds} `{!AxiaMath} `{!AxiaMathOk} `{!AxiaCrypto} `{!Cfg} `{!CvmCodec}.
Context (Propagate : error → string → error).
Import cvm.

Lemma address_of_silent_outs w ctx txID chainID st outs r :
  emits (λ o, address_of o = None) (axc.outs_loop Propagate w ctx txID chainID st outs r).
Proof.
  unfold axc.outs_loop, axc.InsertTransactionOuts, axc.ProcessStateOut, axc.InsertOutput,
    axc.InsertOutput_address, axc.InsertOutputAddress. solve_emits.
Qed.

(** An export: the addresses it spends from, its outputs, and itself with the
    difference of the two totals, modulo 2^64, as its fee. *)
Lemma indexExportTx_rows w ctx txID tx bytes :
  Forall (λ i, is_u64 (EVMInput_Amount i)) (Export_Ins tx) →
  Forall output_ok (Export_ExportedOutputs tx) →
  wlp (indexExportTx Propagate w ctx txID tx bytes)
    (λ l _,
      let totalin := sum_with (λ i, evm_axc w (EVMInput_AssetID i) (EVMInput_Amount i)) (Export_Ins tx) in
      let totalout := sum_with (output_axc (axcWriter w)) (Export_ExportedOutputs tx) in
      is_u64 totalin ∧ is_u64 totalout ∧
      omap address_of l = export_addresses ctx txID 0 (Export_Ins tx) ∧
      omap main_row l =
        outputs_rows ctx txID (ID_String (Export_DestinationChain tx)) false 0
          (Export_ExportedOutputs tx) ++
        [ETransactions (cvm_transaction_row w ctx txID "atomic_export_tx" (Export_BlockchainID tx)
           ((totalin - totalout) mod 2 ^ 64)%Z bytes)]).
Proof.
  intros Hi Ho. unfold indexExportTx. apply wlp_bind.
  eapply wlp_mono; [by apply export_ins_rows|]. intros l1 [i1 t1] (Hm1 & Ha1 & Ht1 & Hu1).
  simpl in Ht1, Hu1. apply wlp_bind. eapply wlp_mono.
  - apply wlp_and; [apply outs_loop_rows; [by split|done]|].
    apply (wlp_silent address_of), address_of_silent_outs.
  - intros l2 [i2 t2] [(Hm2 & Ht2 & Hu2 & _) Ha2]. simpl in Ht2, Hu2. apply wlp_persist.
    rewrite Z.add_0_l in Ht2. subst t1 t2. split; [done|]. split; [done|].
    rewrite !omap_app, Hm1, Hm2, Ha1, Ha2. split; [by rewrite app_nil_r|done].
Qed.

Definition cvm_tx_of (o : pop) : option CvmTransactions :=
  match o with PInsert (ECvmTransactions t) _ => Some t | _ => None end.

Lemma index_atomic_silent w ctx bytes tx st :
  emits (λ o, cvm_tx_of o = None) (index_atomic Propagate w ctx bytes tx st).
Proof.
  unfold index_atomic, indexExportTx, indexImportTx, export_ins, import_outs, insertAddress,
    indexTransaction, axc.InsertTransactionBase, axc.outs_loop, axc.ins_loop,
    axc.InsertTransactionIns, axc.InsertTransactionIns_sig, axc.InsertAddressFromPublicKey,
    axc.InsertTransactionOuts, axc.ProcessStateOut, axc.InsertOutput, axc.InsertOutput_address,
    axc.InsertOutputAddress.
  solve_emits.
Qed.

(** The type and chain of the last export or import. *)
Definition atomic_kind (st : Z * string) (tx : EvmTx) : Z * string :=
  match EvmTx_Unsigned tx with
  | AtomicExport t => (models.AXChainExport, ID_String (Export_BlockchainID t))
  | AtomicImport t => (models.AXChainImport, ID_String (Import_BlockchainID t))
  | AtomicOther => st
  end.

Lemma index_atomic_kind w ctx bytes tx st :
  wlp (index_atomic Propagate w ctx bytes tx st) (λ _ st', st' = atomic_kind st tx).
Proof.
  unfold index_atomic, atomic_kind. destruct (EvmTx_Unsigned tx).
  - apply wlp_bind_last. intros _ l. by apply wlp_ret.
  - apply wlp_bind_last. intros ub l. apply wlp_bind_last. intros _ l'. by apply wlp_ret.
  - by apply wlp_ret.
Qed.

Lemma index_atomics w ctx bytes txs st :
  wlp (prog_fold txs st (index_atomic Propagate w ctx bytes))
    (λ l st', omap cvm_tx_of l = [] ∧ st' = fold_left atomic_kind txs st).
Proof.
  apply wlp_and.
  - apply (wlp_silent cvm_tx_of), emits_fold. intros. apply index_atomic_silent.
  - revert st. induction txs as [|tx txs IH]; intros st; simpl; [by apply wlp_ret|].
    apply wlp_bind. eapply wlp_mono; [apply index_atomic_kind|]. simpl. intros l st' ->.
    eapply wlp_mono; [apply IH|]. done.
Qed.

(** The rows of a block's atomic transactions: all under the same id, the hash of
    the block number, and all with the type and chain of the last one. *)
Lemma indexBlockInternal_rows w ctx txs bytes block :
  wlp (indexBlockInternal Propagate w ctx txs bytes block)
    (λ l _, ∃ id blockjson,
      ids_ToID (ComputeHash256 (Z_to_string (CBlock_Number block))) = Ok id ∧
      block_Marshal (clear_txs block) = Ok blockjson ∧
      omap cvm_tx_of l = map (λ tx, mkCvmTransactions (ID_String id) (ID_String (EvmTx_ID tx))
        (fold_left atomic_kind txs (0%Z, "")).1 (fold_left atomic_kind txs (0%Z, "")).2
        (Z_to_string (CBlock_Number block)) (ctx_Time ctx) (Some blockjson)
        ((if (CBlock_Time block =? 0)%Z then 1 else CBlock_Time block) * 10 ^ 9)
        (CBlock_Nonce block) (CBlock_Hash block) (CBlock_ParentHash block)) txs).
Proof.
  unfold indexBlockInternal. apply wlp_bind, wlp_lift. intros id Hid.
  apply wlp_bind. eapply wlp_mono; [apply index_atomics|]. intros l1 [typ chain] [Hl1 Hk].
  apply wlp_bind. eapply wlp_mono.
  { apply (wlp_silent cvm_tx_of), emits_fold. intros. unfold index_rawtx. solve_emits. }
  intros l2 n Hl2; simpl in Hl2. apply wlp_bind, wlp_lift. intros blockjson Hj.
  unfold prog_each. eapply wlp_mono.
  - rewrite <-(map_id txs) at 1. apply (wp_fold _ _ _ (λ _ _, True) (λ visited l _,
      omap cvm_tx_of l = map (λ txIDString, mkCvmTransactions (ID_String id) txIDString typ chain
        (Z_to_string (CBlock_Number block)) (ctx_Time ctx) (Some blockjson)
        ((if (CBlock_Time block =? 0)%Z then 1 else CBlock_Time block) * 10 ^ 9)
        (CBlock_Nonce block) (CBlock_Hash block) (CBlock_ParentHash block)) visited)); [done|].
    intros visited x rest ops [] _ Hops. simpl. by rewrite omap_app, Hops, map_app.
  - intros l3 [] Hl3; simpl in Hl3. exists id, blockjson. split; [done|]. split; [done|].
    rewrite <-Hk, !omap_app, Hl1, Hl2. simpl. by rewrite Hl3, map_id, map_map.
Qed.
End rows.
