(* ===== verification/WriterOps.v ===== *)
(** The tables that the writers write: none of the pool, of the balances, nor the marks. *)

From S2P Require Import Prelude Errors Sql Axia DbModel Persist Prog Models AxcWriter Writer AvmWriter PvmWriter CvmWriter.

(** * The operations the writers issue *)
Definition of_writer (o : pop) : Prop :=
  pop_table o ≠ TableTxPool ∧ pop_table o ≠ TableNodeIndex ∧ pop_table o ≠ TableKeyValueStore ∧
  pop_table o ≠ TableAccumulateBalancesReceived ∧ pop_table o ≠ TableAccumulateBalancesSent ∧
  pop_table o ≠ TableAccumulateBalancesTransactions.

(** Those of a transaction leave the blocks alone as well. *)
Definition of_tx (o : pop) : Prop := of_writer o ∧ pop_table o ≠ TablePvmBlocks.

Section writers.
Context `{!AxiaIds} `{!AxiaMath} `{!AxiaCrypto} `{!Cfg} (Propagate : error → string → error).
Import axc.

Ltac writer_op := by split_and!.

Lemma InsertOutputAddress_tx ctx outputID address sig txID idx chainID :
emits of_tx (InsertOutputAddress ctx outputID address sig txID idx chainID).
Proof. unfold InsertOutputAddress. solve_emits. all: writer_op. Qed.

Lemma InsertOutput_tx ctx txID idx assetID out ot g p sl chainID a b c d :
emits of_tx (InsertOutput ctx txID idx assetID out ot g p sl chainID a b c d).
Proof.
unfold InsertOutput, InsertOutput_address. solve_emits.
all: first [apply InsertOutputAddress_tx | writer_op].
Qed.

Lemma ProcessStateOut_tx w ctx out txID n assetID amount totalout chainID a b :
emits of_tx (ProcessStateOut Propagate w ctx out txID n assetID amount totalout chainID a b).
Proof. unfold ProcessStateOut. solve_emits. all: apply InsertOutput_tx. Qed.

Lemma outs_loop_tx w ctx txID chainID stake outs st :
emits of_tx (outs_loop Propagate w ctx txID chainID stake outs st).
Proof. unfold outs_loop, InsertTransactionOuts. solve_emits. all: apply ProcessStateOut_tx. Qed.

Lemma ins_loop_tx w ctx txID creds ub chainID ins st :
emits of_tx (ins_loop w ctx txID creds ub chainID ins st).
Proof.
unfold ins_loop, InsertTransactionIns, InsertTransactionIns_sig, InsertAddressFromPublicKey.
solve_emits. all: first [apply InsertOutputAddress_tx | writer_op].
Qed.

Lemma InsertTransactionBase_tx ctx txID chainID typ memo bytes fee g n :
emits of_tx (InsertTransactionBase ctx txID chainID typ memo bytes fee g n).
Proof. apply emits_persist. writer_op. Qed.

Lemma InsertTransaction_tx w ctx txBytes ub base creds typ addIns addOuts addl genesis :
emits of_tx
  (InsertTransaction Propagate w ctx txBytes ub base creds typ addIns addOuts addl genesis).
Proof.
unfold InsertTransaction. solve_emits.
all: first [apply ins_loop_tx | apply outs_loop_tx | apply InsertTransactionBase_tx].
Qed.

Lemma of_tx_writer {A} (p : Prog A) : emits of_tx p → emits of_writer p.
Proof. apply emits_mono. by intros o [? _]. Qed.

(** ** avm *)
Lemma process_outs_writer w ctx txID assetID outs st :
emits of_writer (avm.process_outs Propagate w ctx txID assetID outs st).
Proof. unfold avm.process_outs. solve_emits. all: apply of_tx_writer, ProcessStateOut_tx. Qed.

Lemma count_outs_writer w ctx txID outs : emits of_writer (avm.count_outs Propagate w ctx txID outs).
Proof.
unfold avm.count_outs, InsertTransactionOuts. solve_emits. all: apply of_tx_writer, ProcessStateOut_tx.
Qed.

Lemma avm_insertTx_writer `{!AvmCodec} w ctx txBytes : emits of_writer (avm.insertTx Propagate w ctx txBytes).
Proof.
unfold avm.insertTx, avm.insertTxInternal, avm.insertCreateAssetTx, avm.insertOperationTx. solve_emits.
all: first [apply count_outs_writer | apply process_outs_writer | apply of_tx_writer, InsertTransaction_tx | writer_op].
Qed.

Lemma avm_ConsumeConsensus_writer ctx vertID epoch txs :
emits of_writer (avm.ConsumeConsensus_body ctx vertID epoch txs).
Proof. unfold avm.ConsumeConsensus_body. solve_emits. all: writer_op. Qed.

(** ** pvm *)
Lemma pvm_indexTransaction_tx w ctx blkID tx genesis :
emits of_tx (pvm.indexTransaction Propagate w ctx blkID tx genesis).
Proof.
unfold pvm.indexTransaction, pvm.index_staker, pvm.insertTransactionsRewardsOwners,
  pvm.rewards_address, pvm.rewards_output, pvm.InsertTransactionValidator,
  pvm.InsertTransactionBlock.
solve_emits. all: first [apply InsertTransaction_tx | writer_op].
Qed.

Lemma pvm_indexCommonBlock_writer w ctx blkID typ blk bytes :
emits of_writer (pvm.indexCommonBlock w ctx blkID typ blk bytes).
Proof. apply emits_persist. writer_op. Qed.

Lemma pvm_index_single_writer `{!PvmCodec} w ctx blkID ver typ common tx bytes :
emits of_writer (pvm.index_single Propagate w ctx blkID ver typ common tx bytes).
Proof.
unfold pvm.index_single. destruct (pvm.initialized ver tx).
apply emits_errs_Add. apply Forall_cons. split; [apply emits_lift|].
apply Forall_cons. split; [apply pvm_indexCommonBlock_writer|].
apply Forall_singleton, of_tx_writer, pvm_indexTransaction_tx.
Qed.

Lemma pvm_index_block_txs_writer `{!PvmCodec} w ctx blkID ver txs errs :
emits of_writer (pvm.index_block_txs Propagate w ctx blkID ver txs errs).
Proof.
apply emits_fold. intros tx e. destruct (pvm.initialized ver tx).
apply emits_errs_Add. apply Forall_cons. split; [apply emits_lift|].
apply Forall_singleton, of_tx_writer, pvm_indexTransaction_tx.
Qed.

(** The only row of [pvm_blocks] that a block writes is its own. *)
Definition block_op (w : pvm.Writer) (ctx : ConsumerCtx) (blkID : ID) (pblock : PvmBlock) (bytes : string) (o : pop) : Prop :=
  pop_table o = TablePvmBlocks → ∃ c, block_common pblock = Some c ∧
    o = PInsert (EPvmBlocks (block_row w ctx blkID (recorded_type pblock) c bytes)) PerformUpdates.

Lemma emits_tx_block {A} w ctx blkID pblock bytes (p : Prog A) : emits of_tx p → emits (block_op w ctx blkID pblock bytes) p.
Proof. apply emits_mono. intros o [_ Ho] Ht. by destruct (Ho Ht). Qed.

Lemma indexCommonBlock_block w ctx blkID pblock c bytes : block_common pblock = Some c →
  emits (block_op w ctx blkID pblock bytes) (pvm.indexCommonBlock w ctx blkID (recorded_type pblock) c bytes).
Proof. intros Hc. apply emits_persist. intros _. by exists c. Qed.

Lemma pvm_indexBlock_block `{!PvmCodec} w ctx body pb ver pblock bytes :
  pvm.parse_block Propagate body = Ok (pb, ver, pblock, bytes) →
  emits (block_op w ctx (ComputeHash256 bytes) pblock bytes) (pvm.indexBlock Propagate w ctx body).
Proof.
  intros Hp. unfold pvm.indexBlock. rewrite Hp. cbn [lift mbind Prog_bind]. apply emits_bind.
  { destruct pb; [|done]. by apply emits_persist. }
  assert (∀ e, emits (block_op w ctx (ComputeHash256 bytes) pblock bytes) (errs_Err e)) as He by (by intros []).
  assert (∀ tx errs r, emits (block_op w ctx (ComputeHash256 bytes) pblock bytes)
    (errs_Add [lift r; pvm.indexTransaction Propagate w ctx (ComputeHash256 bytes) tx false] errs)) as Htx.
  { intros tx errs r. apply emits_errs_Add, Forall_cons. split; [apply emits_lift|].
    apply Forall_singleton, emits_tx_block, pvm_indexTransaction_tx. }
  intros _. destruct pblock as [c tx|c txs|c tx|c|c|n]; unfold pvm.index_pblock; try done.
  1,3: unfold pvm.index_single; destruct (pvm.initialized ver tx) as [tx' r]; apply emits_bind; [|done];
    apply emits_errs_Add, Forall_cons; (split; [apply emits_lift|]); apply Forall_cons;
    (split; [|apply Forall_singleton, emits_tx_block, pvm_indexTransaction_tx]);
    first [by apply (indexCommonBlock_block w ctx _ (ProposalBlock c tx))|by apply (indexCommonBlock_block w ctx _ (AtomicBlock c tx))].
  - apply emits_bind; [apply emits_errs_Add, Forall_singleton; by apply (indexCommonBlock_block w ctx _ (StandardBlock c txs))|]. intros e.
    apply emits_bind; [|done]. apply emits_fold. intros tx e'. destruct (pvm.initialized ver tx) as [tx' r]. apply Htx.
  - apply emits_bind; [apply emits_errs_Add, Forall_singleton; by apply (indexCommonBlock_block w ctx _ (AbortBlock c))|done].
  - apply emits_bind; [apply emits_errs_Add, Forall_singleton; by apply (indexCommonBlock_block w ctx _ (CommitBlock c))|done].
Qed.

Lemma pvm_indexBlock_writer `{!PvmCodec} w ctx bytes :
emits of_writer (pvm.indexBlock Propagate w ctx bytes).
Proof.
unfold pvm.indexBlock. apply emits_bind; [apply emits_lift|].
intros [[[pb ver] pblock] bb]. apply emits_bind.
{ destruct pb; [|done]. apply emits_persist. writer_op. }
assert (∀ e, emits of_writer (errs_Err e)) as He by (by intros []).
intros _. destruct pblock; unfold pvm.index_pblock; try done;
  (apply emits_bind;
    [first [apply pvm_index_single_writer
           | apply emits_errs_Add, Forall_singleton, pvm_indexCommonBlock_writer]
    | intros ?; try apply He]).
apply emits_bind; [apply pvm_index_block_txs_writer | intros ?; apply He].
Qed.

(** ** cvm *)
Lemma cvm_indexBlock_writer `{!CvmCodec} w ctx bytes block :
emits of_writer (cvm.indexBlock Propagate w ctx bytes block).
Proof.
unfold cvm.indexBlock, cvm.indexBlockInternal, cvm.index_atomic, cvm.index_rawtx, cvm.indexExportTx,
  cvm.indexImportTx, cvm.export_ins, cvm.import_outs, cvm.insertAddress, cvm.indexTransaction.
solve_emits.
all: first [apply of_tx_writer, ins_loop_tx | apply of_tx_writer, outs_loop_tx | apply of_tx_writer, InsertTransactionBase_tx | writer_op].
Qed.

Lemma cvm_ConsumeLogs_writer ctx body l : emits of_writer (cvm.ConsumeLogs_body ctx body l).
Proof. unfold cvm.ConsumeLogs_body. solve_emits. all: writer_op. Qed.

Lemma cvm_ConsumeTrace_writer `{!CvmCodec} ctx t : emits of_writer (cvm.ConsumeTrace_body ctx t).
Proof. unfold cvm.ConsumeTrace_body. solve_emits. all: writer_op. Qed.
End writers.

