(* ===== verification/Indexing.v ===== *)
(** What the writers guarantee: the rows a transaction, an asset, a block are
    indexed as, the fee, the errors, and the atomicity of a consumed message. *)

From S2P Require Import Prelude Errors Sql MemDb Axia DbModel Persist DbMock Prog Models AxcWriter Writer AvmWriter PvmWriter CvmWriter WriterOps.

(** * Lemmas *)
Section gentle.
Context `{!AxiaIds} `{!AxiaMath} `{!AxiaCrypto} `{!Cfg} (Propagate : error → string → error).
Context (Hno : PerformUpdates = false).
Import axc.

Lemma InsertOutputAddress_gentle ctx outputID address sig txID idx chainID :
  emits gentle (InsertOutputAddress ctx outputID address sig txID idx chainID).
Proof. unfold InsertOutputAddress. rewrite Hno. solve_emits. all: done. Qed.

Lemma InsertOutput_gentle ctx txID idx assetID out ot g p sl chainID a b c d :
  emits gentle (InsertOutput ctx txID idx assetID out ot g p sl chainID a b c d).
Proof.
  unfold InsertOutput, InsertOutput_address. rewrite Hno. solve_emits.
  all: first [apply InsertOutputAddress_gentle | done].
Qed.

Lemma ProcessStateOut_gentle w ctx out txID n assetID amount totalout chainID a b :
  emits gentle (ProcessStateOut Propagate w ctx out txID n assetID amount totalout chainID a b).
Proof. unfold ProcessStateOut. solve_emits. all: apply InsertOutput_gentle. Qed.

Lemma InsertTransaction_gentle w ctx txBytes ub base creds typ addIns addOuts addl genesis :
  emits gentle
    (InsertTransaction Propagate w ctx txBytes ub base creds typ addIns addOuts addl genesis).
Proof.
  unfold InsertTransaction, ins_loop, outs_loop, InsertTransactionIns, InsertTransactionIns_sig,
    InsertAddressFromPublicKey, InsertTransactionOuts, InsertTransactionBase.
  rewrite Hno. solve_emits.
  all: first [apply InsertOutputAddress_gentle | apply ProcessStateOut_gentle | done].
Qed.

Lemma pvm_indexTransaction_gentle w ctx blkID tx genesis :
  emits gentle (pvm.indexTransaction Propagate w ctx blkID tx genesis).
Proof.
  unfold pvm.indexTransaction, pvm.index_staker, pvm.insertTransactionsRewardsOwners,
    pvm.rewards_address, pvm.rewards_output, pvm.InsertTransactionValidator,
    pvm.InsertTransactionBlock.
  rewrite Hno. solve_emits. all: first [apply InsertTransaction_gentle | done].
Qed.

Context `{!PvmCodec}.

Lemma pvm_indexCommonBlock_gentle w ctx blkID typ blk bytes :
  emits gentle (pvm.indexCommonBlock w ctx blkID typ blk bytes).
Proof. unfold pvm.indexCommonBlock. rewrite Hno. by apply emits_persist. Qed.

Lemma pvm_index_single_gentle w ctx blkID ver typ common tx bytes :
  emits gentle (pvm.index_single Propagate w ctx blkID ver typ common tx bytes).
Proof.
  unfold pvm.index_single. destruct (pvm.initialized ver tx).
  apply emits_errs_Add. apply Forall_cons. split; [apply emits_lift|].
  apply Forall_cons. split; [apply pvm_indexCommonBlock_gentle|].
  apply Forall_singleton, pvm_indexTransaction_gentle.
Qed.

Lemma pvm_index_block_txs_gentle w ctx blkID ver txs errs :
  emits gentle (pvm.index_block_txs Propagate w ctx blkID ver txs errs).
Proof.
  apply emits_fold. intros tx e. destruct (pvm.initialized ver tx).
  apply emits_errs_Add. apply Forall_cons. split; [apply emits_lift|].
  apply Forall_singleton, pvm_indexTransaction_gentle.
Qed.

Lemma pvm_indexBlock_gentle w ctx bytes : emits gentle (pvm.indexBlock Propagate w ctx bytes).
Proof.
  unfold pvm.indexBlock. apply emits_bind; [apply emits_lift|].
  intros [[[pb ver] pblock] bb]. apply emits_bind.
  { destruct pb; [|done]. unfold pvm.index_proposer. rewrite Hno. by apply emits_persist. }
  assert (∀ e, emits gentle (errs_Err e)) as He by (by intros []).
  intros _. destruct pblock; unfold pvm.index_pblock; try done;
    (apply emits_bind;
      [first [apply pvm_index_single_gentle
             | apply emits_errs_Add, Forall_singleton, pvm_indexCommonBlock_gentle]
      | intros ?; try apply He]).
  apply emits_bind; [apply pvm_index_block_txs_gentle | intros ?; apply He].
Qed.
End gentle.

Import Toy.

(** A sample transaction: one input of 10 and two outputs of 4 and 5 of the fee
    asset, run against the in-memory store. *)
Module Sample.
#[export] Instance cfg : Cfg := default_cfg.
Definition propagate (e : error) (m : string) : error := m +:+ ": " +:+ e.
Definition clock (n : nat) : Z := Z.of_nat n.
Definition w : axc.Writer := axc.NewWriter "X" "AXC".
Definition ctx : ConsumerCtx := NewConsumerContext 1 5.
Definition owner : OutputOwners := mkOutputOwners 0 1 ["alice"].
Definition out (amt : Z) : TransferableOutput :=
  mkTransferableOutput "AXC" (SECPTransferOutput (mkTransferOutput amt owner)).
Definition inp (amt : Z) : TransferableInput := mkTransferableInput "t0" 0 "AXC" amt.
Definition base : BaseTx := mkBaseTx "t1" 1 [out 4; out 5] [inp 10] None.
Definition insert : Prog unit :=
  axc.InsertTransaction propagate w ctx (Some "tx") "ub" base [Some ["sig"]] 0 None None 0 false.
End Sample.
Import Sample.

(** * Properties *)

(** C5. Indexing a base transaction, against whatever store, either reports an
    error or records, in this order: one redeemed output for each of its inputs
    (imported ones included), one output for each of its outputs at consecutive
    32-bit indexes (exported or staked ones after its own), and the transaction
    itself, whose fee is computed from the true sums of the inputs and outputs
    in the fee asset, which fit 64 bits.  All of these writes succeeded. *)
Theorem transaction_indexed `{!AxiaIds} `{!AxiaMath} `{!AxiaMathOk} `{!AxiaCrypto} `{!Cfg}
    {S : Type} `{Persist S} (Propagate : error → string → error) (clock : nat → Z) (w : axc.Writer)
    (ctx : ConsumerCtx) txBytes ub (base : BaseTx) creds (txType : Z) addIns addOuts (addl : Z)
    (genesis : bool) (s s' : S) n n' :
  let ins := all_inputs (BaseTx_Ins base) addIns in
  let outs := all_outputs (BaseTx_Outs base) addOuts in
  let totalin := sum_with (input_axc w) ins in
  let totalout := sum_with (output_axc w) outs in
  Forall input_ok ins → Forall output_ok outs →
  run clock (axc.InsertTransaction Propagate w ctx txBytes ub base creds txType addIns addOuts
               addl genesis) (s, n) = (s', n', Ok tt) →
  ∃ l, performs l s = (s', Ok tt) ∧ is_u64 totalin ∧ is_u64 totalout ∧
    omap main_row l =
      all_inputs_rows w ctx (BaseTx_ID base) (BaseTx_Ins base) addIns ++
      all_outputs_rows w ctx (BaseTx_ID base) (BaseTx_Outs base) addOuts ++
      [ETransactions (transaction_row w ctx txBytes base txType
                        (axc.fee totalin totalout addl genesis) genesis)].
Proof.
  intros ins outs totalin totalout Hi Ho Hr.
  destruct (run_Ok clock _ _ _ _ _ _ _ _ (InsertTransaction_strict _ _ _ _ _ _ _ _ _ _ _ _)
    (InsertTransaction_rows _ _ _ _ _ _ _ _ _ _ _ _ Hi Ho) Hr) as (l & Hl & ? & ? & _ & Hrows).
  by exists l.
Qed.

Definition sample_run : MockPersist * nat * result unit := run clock insert (NewPersistMock, 0).

Lemma transaction_indexed_witness :
  ∃ l, performs l NewPersistMock = (sample_run.1.1, Ok tt) ∧
    omap main_row l =
      [EOutputsRedeeming (redeeming_row ctx "t1" "X" (inp 10));
       EOutputs (output_row ctx "t1" "X" false false 0 "AXC" (out_Out (out 4)));
       EOutputs (output_row ctx "t1" "X" false false 1 "AXC" (out_Out (out 5)));
       ETransactions (transaction_row w ctx (Some "tx") base 0 1 false)].
Proof.
  destruct (transaction_indexed propagate clock w ctx (Some "tx") "ub" base [Some ["sig"]] 0 None None
    0 false NewPersistMock sample_run.1.1 0 sample_run.1.2) as (l & Hl & _ & _ & Hr).
  - repeat constructor; vm_compute; done.
  - repeat constructor; vm_compute; done.
  - apply run_outcome. vm_compute. reflexivity.
  - exists l. split; [exact Hl|]. rewrite Hr. reflexivity.
Defined.

(** The fee is what the inputs bring beyond the outputs (and beyond the
    outputs counted apart), zero when they bring less and in the genesis, and
    always a uint64.  The sum of the outputs and of those counted apart is not
    checked: when it exceeds 64 bits the fee is computed from the wrapped sum. *)
Theorem fee_value (totalin totalout addl : Z) (genesis : bool) :
  is_u64 totalin → is_u64 totalout → is_u64 addl →
  is_u64 (axc.fee totalin totalout addl genesis) ∧
  axc.fee totalin totalout addl genesis =
    if genesis then 0%Z
    else if (totalout + addl <? 2 ^ 64)%Z then Z.max 0 (totalin - totalout - addl)
    else Z.max 0 (totalin - (totalout + addl - 2 ^ 64)).
Proof.
  intros [Hi1 Hi2] [Ho1 Ho2] [Ha1 Ha2]. unfold axc.fee. destruct genesis; [by split|].
  assert (u64_add totalout addl = if (totalout + addl <? 2 ^ 64)%Z then (totalout + addl)%Z
          else (totalout + addl - 2 ^ 64)%Z) as ->.
  { unfold u64_add, wrap64. destruct (Z.ltb_spec (totalout + addl) (2 ^ 64)).
    - apply Z.mod_small. lia.
    - symmetry. apply (Z.mod_unique _ _ 1); lia. }
  assert (∀ x y : Z, is_u64 x → (0 ≤ y < 2 ^ 64)%Z →
    (if (x <? y)%Z then 0%Z else u64_sub x y) = Z.max 0 (x - y)) as Hs.
  { intros x y Hx Hy. destruct (Z.ltb_spec x y); [lia|]. rewrite u64_sub_nonneg; [lia|done|done|lia]. }
  destruct (Z.ltb_spec (totalout + addl) (2 ^ 64)); rewrite Hs; unfold is_u64; try lia.
Qed.

Lemma fee_value_witness : axc.fee 10 4 5 false = 1%Z ∧ axc.fee 10 (2 ^ 64 - 1) 3 false = 8%Z.
Proof.
  assert (∀ z : Z, (0 <=? z)%Z && (z <? 2 ^ 64)%Z = true → is_u64 z) as Hu.
  { intros z [?%Z.leb_le ?%Z.ltb_lt]%andb_true_iff. by split. }
  split.
  - destruct (fee_value 10 4 5 false) as [_ ->]; [apply Hu; reflexivity..|]. reflexivity.
  - destruct (fee_value 10 (2 ^ 64 - 1) 3 false) as [_ ->]; [apply Hu; reflexivity..|]. reflexivity.
Defined.

(** C30. A transaction whose inputs, or whose outputs, in the fee asset sum to more
    than 64 bits hold, or that has an output of an unknown type, is never indexed:
    whatever the store does, an error is returned. *)
Theorem bad_transaction_rejected `{!AxiaIds} `{!AxiaMath} `{!AxiaMathOk} `{!AxiaCrypto} `{!Cfg}
    {S : Type} `{Persist S} (Propagate : error → string → error) (clock : nat → Z) (w : axc.Writer)
    (ctx : ConsumerCtx) txBytes ub (base : BaseTx) creds (txType : Z) addIns addOuts (addl : Z)
    (genesis : bool) (s : S) n :
  let ins := all_inputs (BaseTx_Ins base) addIns in
  let outs := all_outputs (BaseTx_Outs base) addOuts in
  Forall input_ok ins → Forall output_ok outs →
  (2 ^ 64 ≤ sum_with (input_axc w) ins)%Z ∨ (2 ^ 64 ≤ sum_with (output_axc w) outs)%Z ∨
  Exists (λ o, ¬ state_known (out_Out o)) outs →
  is_ok (run clock (axc.InsertTransaction Propagate w ctx txBytes ub base creds txType addIns
           addOuts addl genesis) (s, n)).2 = false.
Proof.
  intros ins outs Hi Ho Hbad.
  destruct (run clock _ (s, n)) as [[s' n'] [[]|e]] eqn:Hr; [exfalso|done].
  destruct (run_Ok clock _ _ _ _ _ _ _ _ (InsertTransaction_strict _ _ _ _ _ _ _ _ _ _ _ _)
    (InsertTransaction_rows _ _ _ _ _ _ _ _ _ _ _ _ Hi Ho) Hr) as (l & _ & Hin & Hout & Hk & _).
  destruct Hbad as [Hb|[Hb|Hb]].
  - destruct Hin. unfold ins in Hb. lia.
  - destruct Hout. unfold outs in Hb. lia.
  - apply Exists_exists in Hb as (o & Hin' & Hb). rewrite Forall_forall in Hk. by apply Hb, Hk.
Qed.

Definition huge_base : BaseTx := mkBaseTx "t1" 1 [] [inp (2 ^ 63); inp (2 ^ 63)] None.

Lemma bad_transaction_rejected_witness :
  is_ok (run clock (axc.InsertTransaction propagate w ctx None "ub" huge_base [] 0 None None 0 false)
           (NewPersistMock, 0)).2 = false.
Proof.
  apply bad_transaction_rejected.
  - repeat constructor; vm_compute; done.
  - constructor.
  - left. vm_compute. done.
Defined.

(** ** Addresses *)

(** The rows the balances of an address are computed from, for one output: the
    received and spent accumulators, the address of the output and the
    transaction accumulator, among the operations [l]. *)
Definition address_recorded `{!AxiaIds} `{!Cfg} (outputID txID assetID chainID addr : string)
    (l : list pop) : Prop :=
  ∃ acc txs oa,
    PInsert (EOutputAddressAccumulateOut acc) PerformUpdates ∈ l ∧
    PInsert (EOutputAddressAccumulateIn acc) PerformUpdates ∈ l ∧
    PInsert (EOutputAddresses oa) PerformUpdates ∈ l ∧
    PInsert (EOutputTxsAccumulate txs) false ∈ l ∧
    OutputAddressAccumulate_OutputID acc = ID_String outputID ∧
    OutputAddressAccumulate_Address acc = ShortID_String (copy_ShortID addr) ∧
    Ok (OutputAddressAccumulate_ID acc) = hashed_id (OutputAddressAccumulate_idsv acc) ∧
    OutputAddresses_OutputID oa = ID_String outputID ∧
    OutputAddresses_Address oa = ShortID_String (copy_ShortID addr) ∧
    OutputTxsAccumulate_TransactionID txs = ID_String txID ∧
    OutputTxsAccumulate_Address txs = ShortID_String (copy_ShortID addr) ∧
    OutputTxsAccumulate_AssetID txs = ID_String assetID ∧
    OutputTxsAccumulate_ChainID txs = chainID ∧
    Ok (OutputTxsAccumulate_ID txs) = hashed_id (OutputTxsAccumulate_idsv txs).

Lemma address_recorded_app `{!AxiaIds} `{!Cfg} outputID txID assetID chainID addr l l' :
  address_recorded outputID txID assetID chainID addr l →
  address_recorded outputID txID assetID chainID addr (l ++ l').
Proof.
  intros (acc & txs & oa & H1 & H2 & H3 & H4 & Hr). exists acc, txs, oa.
  rewrite !elem_of_app. by do 4 (split; [by left|]).
Qed.

Lemma address_recorded_app_r `{!AxiaIds} `{!Cfg} outputID txID assetID chainID addr l l' :
  address_recorded outputID txID assetID chainID addr l' →
  address_recorded outputID txID assetID chainID addr (l ++ l').
Proof.
  intros (acc & txs & oa & H1 & H2 & H3 & H4 & Hr). exists acc, txs, oa.
  rewrite !elem_of_app. by do 4 (split; [by right|]).
Qed.

Lemma InsertOutput_address_rows `{!AxiaIds} `{!AxiaCrypto} `{!Cfg} ctx outputID txID idx assetID
    chainID addr :
  wlp (axc.InsertOutput_address ctx outputID txID idx assetID chainID addr)
    (λ l _, address_recorded outputID txID assetID chainID addr l).
Proof.
  unfold axc.InsertOutput_address, axc.InsertOutputAddress, OutputAddressAccumulate_ComputeID,
    OutputTxsAccumulate_ComputeID.
  unfold wlp. simpl. intros t1.
  destruct (FormatBech32 _ _) as [b|e]; simpl; [|done]. intros t2 t3.
  match goal with |- context [hashed_id ?i ≫= _] => destruct (hashed_id i) as [id1|e] eqn:E1 end;
    simpl; [|done]. intros t4 t5.
  match goal with |- context [hashed_id ?i ≫= _] => destruct (hashed_id i) as [id2|e] eqn:E2 end;
    simpl; [|done].
  eexists _, _, _. split; [do 2 right; left|]. split; [do 3 right; left|].
  split; [do 4 right; left|]. split; [do 5 right; left|].
  split_and!; try reflexivity; by symmetry.
Qed.

Lemma InsertOutput_after_addresses `{!AxiaIds} `{!AxiaMath} `{!AxiaCrypto} `{!Cfg} ctx txID idx
    assetID (out : TransferOutput) ot g p sl chainID st fr so gu :
  wlp (axc.InsertOutput ctx txID idx assetID out ot g p sl chainID st fr so gu)
    (λ l _, ∃ l0 o, l = l0 ++ [PInsert (EOutputs o) PerformUpdates] ∧
      Outputs_ID o = ID_String (ID_Prefix txID idx) ∧ omap main_row l0 = [] ∧
      Forall (λ addr, address_recorded (ID_Prefix txID idx) txID assetID chainID addr l0)
        (Owners_Addrs (Owners out))).
Proof.
  unfold axc.InsertOutput, prog_each. apply wlp_bind. eapply wlp_mono.
  - apply wlp_and.
    + apply (wp_fold _ _ _ (λ _ _, True) (λ visited l _,
        Forall (λ addr, address_recorded (ID_Prefix txID idx) txID assetID chainID addr l) visited));
        [done|].
      intros visited x rest l [] _ Hl. eapply wlp_mono; [apply InsertOutput_address_rows|].
      intros l' [] Hl'. apply Forall_app. split.
      * eapply Forall_impl; [exact Hl|]. intros a. apply address_recorded_app.
      * apply Forall_singleton. by apply address_recorded_app_r.
    + apply (wlp_silent main_row). apply emits_fold. intros x [].
      unfold axc.InsertOutput_address. solve_emits. apply InsertOutputAddress_silent.
  - intros l [] [Hl Hs]. apply wlp_persist. by eexists l, _.
Qed.

(** An output is recorded only after all its addresses: for each of them the
    rows that the balances are computed from (received, spent and transaction
    accumulators, their ids hashed from their keys) and the address of the output
    have been inserted, successfully, before the row of the output. *)
Theorem output_after_addresses `{!AxiaIds} `{!AxiaMath} `{!AxiaCrypto} `{!Cfg} {S : Type} `{Persist S}
    (clock : nat → Z) ctx txID idx assetID (out : TransferOutput) ot g p sl chainID st fr so gu
    (s s' : S) n n' :
  run clock (axc.InsertOutput ctx txID idx assetID out ot g p sl chainID st fr so gu) (s, n) =
    (s', n', Ok tt) →
  ∃ l o, performs (l ++ [PInsert (EOutputs o) PerformUpdates]) s = (s', Ok tt) ∧
    Outputs_ID o = ID_String (ID_Prefix txID idx) ∧ omap main_row l = [] ∧
    Forall (λ addr, address_recorded (ID_Prefix txID idx) txID assetID chainID addr l)
      (Owners_Addrs (Owners out)).
Proof.
  intros Hr.
  destruct (run_Ok clock _ _ _ _ _ _ _ _ (InsertOutput_strict _ _ _ _ _ _ _ _ _ _ _ _ _ _)
    (InsertOutput_after_addresses _ _ _ _ _ _ _ _ _ _ _ _ _ _) Hr) as (l & Hl & l0 & o & -> & ?).
  by exists l0, o.
Qed.

Definition sample_output_run : MockPersist * nat * result unit :=
  run clock (axc.InsertOutput ctx "t1" 0 "AXC" (mkTransferOutput 4 owner) 7 0 None 0 "X"
               false false false false) (NewPersistMock, 0).

Lemma output_after_addresses_witness :
  ∃ l o, performs (l ++ [PInsert (EOutputs o) false]) NewPersistMock = (sample_output_run.1.1, Ok tt) ∧
    Outputs_ID o = "t1.0" ∧
    address_recorded "t1.0" "t1" "AXC" "X" "alice" l.
Proof.
  destruct (output_after_addresses clock ctx "t1" 0 "AXC" (mkTransferOutput 4 owner) 7 0 None 0 "X"
    false false false false NewPersistMock sample_output_run.1.1 0 sample_output_run.1.2)
    as (l & o & Hl & Ho & _ & Ha).
  - apply run_outcome. vm_compute. reflexivity.
  - exists l, o. split; [exact Hl|]. split; [exact Ho|]. exact (proj1 (Forall_cons_1 _ _ _ Ha)).
Defined.

(** ** Messages consumed in a transaction *)

(** The outcome of running a block twice over the toy engine. *)
Module ToyCodec.
Definition tx : PvmTx := mkPvmTx (UnsignedCreateSubnetTx base) [Some ["sig"]] (Some "tx") "ub".
Definition blk : PvmBlock := StandardBlock (mkCommonBlock "parent" 7) [tx].
#[export] Instance pvm_codec : PvmCodec := {
  block_Parse s := Err "not a proposer block";
  pvm_Unmarshal s := if decide (s = "bad") then Err "cannot unmarshal" else Ok (0%Z, blk);
  pvm_MarshalUnsigned _ _ := Ok "ub";
  pvm_MarshalSigned _ _ := Ok "tx";
  pvm_Initialize _ _ tx := tx;
}.
#[export] Instance cvm_codec : CvmCodec := {
  evm_Unmarshal s := Err "none";
  evm_UnmarshalBatch s := Ok [];
  evm_Sign t := Ok t;
  evm_MarshalUnsigned _ := Ok "";
  block_Marshal _ := Ok "{}";
  trace_Unmarshal _ := Err "none";
}.
#[export] Instance avm_codec : AvmCodec := {
  avm_Unmarshal s :=
    if decide (s = "bad") then Err "cannot unmarshal"
    else Ok (0%Z, mkAvmTx (AvmBaseTx base) [Some ["sig"]] "ub");
  avm_UnmarshalGenesis s := Ok (0%Z, []);
  avm_MarshalUnsigned _ _ := Ok "ub";
  avm_MarshalSigned _ _ := Ok "tx";
  avm_MarshalCreateAsset _ _ := Ok "ub";
  avm_Initialize _ _ tx := tx;
  avm_InitializeCreateAsset _ _ tx := tx;
  vertex_Parse s := Err "none";
}.
End ToyCodec.
Import ToyCodec.

(** C12. Consuming a message of the X chain, of the platform chain or of the C
    chain is all or nothing: when Consume returns an error, whatever was written
    before it, the content of the database is what it was, so that the message
    can be retried; and whatever it returns, the unique keys of all tables hold. *)
Theorem consume_atomic `{!AxiaIds} `{!AxiaMath} `{!AxiaCrypto} `{!Cfg} `{!AvmCodec} `{!PvmCodec}
    `{!CvmCodec} `{SqlEngine D} `{!SqlEngineOk D} (Propagate : error → string → error)
    (clock : nat → Z) (w : axc.Writer) (wc : cvm.Writer) (ts ns : Z) (body : string)
    (block : CBlock) (m : M D unit) (d d' : D) r :
  m ∈ [avm.Consume Propagate clock w ts ns body; pvm.Consume Propagate clock w ts ns body;
       cvm.Consume Propagate clock wc ts ns body block] →
  unique_content (rows d) → m d = (d', r) →
  unique_content (rows d') ∧ (is_ok r = false → rows d ≡ᶜ rows d').
Proof.
  intros Hm Hu Hr.
  assert (∃ p, m = consume clock p) as [p ->].
  { repeat (apply elem_of_cons in Hm as [->|Hm]; [by eexists|]). by apply elem_of_nil in Hm. }
  split.
  - pose proof (consume_unique clock p d Hu) as Hc. by rewrite Hr in Hc.
  - destruct r as [|e]; [done|]. intros _. by eapply consume_err.
Qed.

Lemma consume_atomic_witness :
  rows (faulty_db [None; None; None; Some "connection lost"]) ≡ᶜ
  rows (pvm.Consume propagate clock w 1 5 "block"
          (faulty_db [None; None; None; Some "connection lost"])).1.
Proof.
  eapply (consume_atomic propagate clock w (cvm.mkWriter 1 "AXC" w 0) 1 5 "block"
            (mkCBlock 1 1 1 "" "" "" [])).
  - right. left.
  - apply empty_unique.
  - apply surjective_pairing.
  - vm_compute. reflexivity.
Defined.

(** What indexing a platform block issues, when it succeeds: the row of the block, and of each
    of its transactions; and they are in the database when the transaction is committed. *)
Section platform_block.
Context `{!AxiaIds} `{!AxiaMath} `{!AxiaCrypto} `{!Cfg} `{!PvmCodec} `{SqlEngine D} `{!SqlEngineOk D}.
Context (Propagate : error → string → error) (clock : nat → Z) (w : pvm.Writer).

Definition block_indexed (ctx : ConsumerCtx) (body : string) (l : list pop) : Prop :=
  ∃ pb ver pblock bytes c,
    pvm.parse_block Propagate body = Ok (pb, ver, pblock, bytes) ∧ block_common pblock = Some c ∧
    block_done w ctx (ComputeHash256 bytes) (recorded_type pblock) c bytes l ∧
    Forall (λ tx, tx_done (pvm.initialized ver tx).1 l) (block_txs pblock).

Lemma pvm_indexBlock_indexed ctx body :
  wlp (pvm.indexBlock Propagate w ctx body) (λ l _, block_indexed ctx body l).
Proof.
  unfold pvm.indexBlock. apply wlp_bind, wlp_lift. intros [[[pb ver] pblock] bytes] Hp.
  apply wlp_bind_last. intros _ l0. eapply wlp_mono; [apply index_pblock_done|].
  intros l [] (c & Hc1 & Hb & Ht). exists pb, ver, pblock, bytes, c. rewrite app_nil_l.
  split; [done|]. split; [done|]. split; [by apply within_r; [apply within_block_done|]|].
  eapply Forall_impl; [exact Ht|]. intros tx Htx. by apply within_r; [apply within_tx_done|].
Qed.

Lemma block_lands ts ns body (d d' : D) pb ver pblock bytes c :
  PerformUpdates = false → pvm.Consume Propagate clock w ts ns body d = (d', Ok tt) →
  pvm.parse_block Propagate body = Ok (pb, ver, pblock, bytes) → block_common pblock = Some c →
  let e := EPvmBlocks (block_row w (NewConsumerContext ts ns) (ComputeHash256 bytes) (recorded_type pblock) c bytes) in
  unique_content (rows d) → clashes TablePvmBlocks (the_row e) (rows d TablePvmBlocks) = false →
  rows d' TablePvmBlocks ≡ₚ the_row e :: rows d TablePvmBlocks.
Proof.
  intros Hno Hc Hp Hcm e Hu Hf.
  destruct (consume_lands clock _ _ e d d' Hu (indexBlock_strict _ _ _ _) (pvm_indexBlock_indexed (NewConsumerContext ts ns) body))
    as (l & (pb' & ver' & pblock' & bytes' & c' & Hp' & Hcm' & (o & Ho & ->) & _) & Hl); [|exact Hc|].
  - eapply emits_mono; [|by eapply pvm_indexBlock_block]. intros o2 Hb Hto. destruct (Hb Hto) as (c2 & Hc2 & ->).
    rewrite Hno. assert (c2 = c) as -> by congruence. done.
  - apply Hl; [|exact Hf]. rewrite Hno in Ho. rewrite Hp in Hp'. injection Hp' as <- <- <- <-.
    assert (c' = c) as -> by congruence. done.
Qed.
End platform_block.

(** C9. In normal operation (PerformUpdates off), when consuming a platform block returns
    no error, the block could be parsed and, in the database, its identifier is taken and so is, for each of its
    transactions but the ones that advance the time, that of a transaction or reward:
    no error of any call is lost by the collected errors.  If the identifier of the block
    was free, the table of the blocks has one more row, and it is the row of this block,
    with its parent, height, type and bytes. *)
Theorem pvm_block_stored `{!AxiaIds} `{!AxiaMath} `{!AxiaCrypto} `{!Cfg} `{!PvmCodec}
    `{SqlEngine D} `{!SqlEngineOk D} (Propagate : error → string → error) (clock : nat → Z)
    (w : pvm.Writer) (ts ns : Z) (body : string) (d d' : D) :
  PerformUpdates = false →
  pvm.Consume Propagate clock w ts ns body d = (d', Ok tt) →
  ∃ pb ver pblock bytes c,
    pvm.parse_block Propagate body = Ok (pb, ver, pblock, bytes) ∧ block_common pblock = Some c ∧
    sql_stored d' (EPvmBlocks (block_row w (NewConsumerContext ts ns) (ComputeHash256 bytes)
                                 (recorded_type pblock) c bytes)) ∧
    Forall (λ tx, is_recorded (pvm.initialized ver tx).1 →
      ∃ e, tx_recorded (pvm.initialized ver tx).1 (PInsert e false) ∧ sql_stored d' e)
      (block_txs pblock) ∧
    (let e := EPvmBlocks (block_row w (NewConsumerContext ts ns) (ComputeHash256 bytes) (recorded_type pblock) c bytes) in
     unique_content (rows d) → clashes TablePvmBlocks (the_row e) (rows d TablePvmBlocks) = false →
     rows d' TablePvmBlocks ≡ₚ the_row e :: rows d TablePvmBlocks).
Proof.
  intros Hno Hc.
  destruct (consume_stored clock _ _ _ _ (indexBlock_strict _ _ _ _) (pvm_indexBlock_gentle _ Hno _ _ _)
              (pvm_indexBlock_indexed Propagate w (NewConsumerContext ts ns) body) Hc)
    as (l & (pb & ver & pblock & bytes & c & Hp & Hcm & (o & Ho & ->) & Ht) & Hst).
  exists pb, ver, pblock, bytes, c. split; [done|]. split; [done|]. rewrite Hno in Ho.
  split; [by apply Hst|]. split; [|by eapply block_lands].
  eapply Forall_impl; [exact Ht|]. intros tx Htx Hrec.
  destruct (Htx Hrec) as (o & Hol & Hor).
  assert (∃ e, o = PInsert e false) as [e ->].
  { unfold tx_recorded in Hor. rewrite Hno in Hor.
    destruct (PvmTx_UnsignedTx _); try done; destruct Hor as (? & -> & _); by eexists. }
  exists e. split; [done|]. by apply Hst.
Qed.

Lemma pvm_block_stored_witness :
  ∃ pb ver pblock bytes c,
    pvm.parse_block propagate "block" = Ok (pb, ver, pblock, bytes) ∧ block_common pblock = Some c ∧
    sql_stored (pvm.Consume propagate clock w 1 5 "block" empty_db).1
      (EPvmBlocks (block_row w (NewConsumerContext 1 5) (ComputeHash256 bytes)
                     (recorded_type pblock) c bytes)).
Proof.
  destruct (pvm_block_stored propagate clock w 1 5 "block" empty_db
    (pvm.Consume propagate clock w 1 5 "block" empty_db).1) as (pb & ver & pblock & bytes & c & Hp & Hc & Hs & _ & _).
  - reflexivity.
  - apply run_ok. vm_compute. reflexivity.
  - exists pb, ver, pblock, bytes, c. exact (conj Hp (conj Hc Hs)).
Defined.

(** ** Assets *)

(** Indexing the creation of an asset, when it succeeds, records the asset with
    a current supply equal to the sum of all its spendable initial outputs (which
    fits 64 bits), and records those outputs at the 32-bit indexes that follow the
    transaction's own outputs. *)
Theorem asset_supply `{!AxiaIds} `{!AxiaMath} `{!AxiaMathOk} `{!AxiaCrypto} `{!Cfg} `{!AvmCodec}
    {S : Type} `{Persist S} (Propagate : error → string → error) (clock : nat → Z) (w : avm.Writer)
    (ctx : ConsumerCtx) txBytes ub (tx : CreateAssetTx) creds alias genesis (s s' : S) n n' :
  let base := CreateAsset_Base tx in
  let states := List.concat (CreateAsset_States tx) in
  Forall input_ok (BaseTx_Ins base) → Forall output_ok (BaseTx_Outs base) →
  Forall (λ o, is_u64 (Amt (state_transfer o))) states →
  run clock (avm.insertCreateAssetTx Propagate w ctx txBytes ub tx creds alias genesis) (s, n) =
    (s', n', Ok tt) →
  ∃ l, performs l s = (s', Ok tt) ∧ is_u64 (sum_with state_supply states) ∧
    PInsert (EAssets (mkAssets (ID_String (BaseTx_ID base)) (axc.chainID w)
      (CreateAsset_Name tx) (CreateAsset_Symbol tx) (CreateAsset_Denomination tx) alias
      (sum_with state_supply states) (ctx_Time ctx))) PerformUpdates ∈ l ∧
    (∃ before after, omap main_row l = before ++
       states_rows ctx (BaseTx_ID base) (axc.chainID w) (BaseTx_ID base)
         (wrap32 (Z.of_nat (length (BaseTx_Outs base)))) states ++ after).
Proof.
  intros base states Hi Ho Hs Hr.
  destruct (run_Ok clock _ _ _ _ _ _ _ _ (insertCreateAssetTx_strict _ _ _ _ _ _ _ _ _)
    (insertCreateAssetTx_rows Propagate w ctx txBytes ub tx creds alias genesis Hi Ho Hs) Hr)
    as (l & Hl & Hu & Hrows & l1 & l2 & Hl12).
  exists l. split; [done|]. split; [done|]. split; [rewrite Hl12, elem_of_app; right; left|].
  eexists _, _. exact Hrows.
Qed.

Definition sample_asset : CreateAssetTx :=
  mkCreateAssetTx base "Gold" "GLD" 2
    [[SECPTransferOutput (mkTransferOutput 40 owner); SECPMintOutput owner];
     [SECPTransferOutput (mkTransferOutput 2 owner)]].
Definition sample_asset_run : MockPersist * nat * result unit :=
  run clock (avm.insertCreateAssetTx propagate w ctx None "ub" sample_asset [] "" false)
    (NewPersistMock, 0).

Lemma asset_supply_witness :
  ∃ l, performs l NewPersistMock = (sample_asset_run.1.1, Ok tt) ∧
    PInsert (EAssets (mkAssets "t1" "X" "Gold" "GLD" 2 "" 42 (ctx_Time ctx))) false ∈ l.
Proof.
  destruct (asset_supply propagate clock w ctx None "ub" sample_asset [] "" false NewPersistMock
    sample_asset_run.1.1 0 sample_asset_run.1.2) as (l & Hl & _ & Ha & _).
  - repeat constructor; vm_compute; done.
  - repeat constructor; vm_compute; done.
  - repeat constructor; vm_compute; done.
  - apply run_outcome. vm_compute. reflexivity.
  - exists l. split; [exact Hl|exact Ha].
Defined.

(** ** Staking rewards *)
Definition reward_output_of (o : pop) : option TransactionsRewardsOwnersOutputs :=
  match o with PInsert (ETransactionsRewardsOwnersOutputs r) _ => Some r | _ => None end.
Definition reward_address_of (o : pop) : option (string * Z) :=
  match o with
  | PInsert (ETransactionsRewardsOwnersAddress r) _ =>
      Some (TransactionsRewardsOwnersAddress_Address r, TransactionsRewardsOwnersAddress_OutputIndex r)
  | _ => None
  end.

Fixpoint reward_addresses `{!AxiaIds} (n : nat) (addrs : list string) : list (string * Z) :=
  match addrs with
  | [] => []
  | a :: addrs' =>
      (ShortID_String (copy_ShortID a), wrap32 (Z.of_nat n)) :: reward_addresses (S n) addrs'
  end.

Lemma rewards_addresses_rows `{!AxiaIds} `{!Cfg} base addrs n :
  wlp (prog_fold addrs n (pvm.rewards_address base))
    (λ l _, omap reward_address_of l = reward_addresses n addrs ∧ omap reward_output_of l = []).
Proof.
  revert n. induction addrs as [|a addrs IH]; intros n; simpl.
  - by apply wlp_ret.
  - unfold wlp. simpl. intros t. eapply wp_mono; [apply IH|done|].
    intros l m [Hl Ho]. split; [exact (f_equal (cons _) Hl)|exact Ho].
Qed.

Lemma rewards_owners_rows `{!AxiaIds} `{!Cfg} w ctx owner base stake :
  let outcnt := Z.of_nat (length (BaseTx_Outs base) + length stake) in
  wlp (pvm.insertTransactionsRewardsOwners w ctx (OwnerOutputOwners owner) base stake)
    (λ l _, omap reward_address_of l = reward_addresses 0 (Owners_Addrs owner) ∧
      omap reward_output_of l =
        map (λ i, mkTransactionsRewardsOwnersOutputs (ID_String (ID_Prefix (BaseTx_ID base) i))
                    (ID_String (BaseTx_ID base)) (wrap32 i) (ctx_Time ctx)) [outcnt; (outcnt + 1)%Z]).
Proof.
  intros outcnt. unfold pvm.insertTransactionsRewardsOwners. apply wlp_bind.
  eapply wlp_mono; [apply rewards_addresses_rows|]. intros l m [Hl Ho].
  unfold wlp. simpl. rewrite !omap_app, Hl, Ho. split; [by rewrite app_nil_r|done].
Qed.

(** Registering the owners of a staking reward, when it succeeds, records every
    owner's address with its position and reserves exactly two outputs for the
    reward, at the two positions after the outputs and the stake of the staking
    transaction, which those do not use. *)
Theorem rewards_owners_indexed `{!AxiaIds} `{!Cfg} {S : Type} `{Persist S} (clock : nat → Z)
    (w : pvm.Writer) (ctx : ConsumerCtx) (owner : OutputOwners) (base : BaseTx)
    (stake : list TransferableOutput) (s s' : S) n n' :
  let outcnt := Z.of_nat (length (BaseTx_Outs base) + length stake) in
  run clock (pvm.insertTransactionsRewardsOwners w ctx (OwnerOutputOwners owner) base stake) (s, n) =
    (s', n', Ok tt) →
  ∃ l, performs l s = (s', Ok tt) ∧
    omap reward_address_of l = reward_addresses 0 (Owners_Addrs owner) ∧
    omap reward_output_of l =
      map (λ i, mkTransactionsRewardsOwnersOutputs (ID_String (ID_Prefix (BaseTx_ID base) i))
                  (ID_String (BaseTx_ID base)) (wrap32 i) (ctx_Time ctx)) [outcnt; (outcnt + 1)%Z].
Proof.
  intros outcnt Hr. eapply run_Ok in Hr; [exact Hr| |apply rewards_owners_rows].
  unfold pvm.insertTransactionsRewardsOwners, pvm.rewards_address, pvm.rewards_output. solve_strict.
Qed.

Definition sample_rewards_run : MockPersist * nat * result unit :=
  run clock (pvm.insertTransactionsRewardsOwners w ctx (OwnerOutputOwners owner) base [out 7])
    (NewPersistMock, 0).

Lemma rewards_owners_indexed_witness :
  ∃ l, performs l NewPersistMock = (sample_rewards_run.1.1, Ok tt) ∧
    map TransactionsRewardsOwnersOutputs_OutputIndex (omap reward_output_of l) = [3; 4]%Z.
Proof.
  destruct (rewards_owners_indexed clock w ctx owner base [out 7] NewPersistMock
    sample_rewards_run.1.1 0 sample_rewards_run.1.2) as (l & Hl & _ & Ho).
  - apply run_outcome. vm_compute. reflexivity.
  - exists l. split; [exact Hl|]. rewrite Ho. reflexivity.
Defined.

(** ** The C chain *)

(** Indexing an atomic export, when it succeeds, records the addresses it spends
    from with their positions, its outputs at consecutive indexes, and the
    transaction with fee (inputs - outputs) modulo 2^64: the difference when the
    inputs cover the outputs, and a huge number, not an error, when they do not. *)
Theorem cvm_export_indexed `{!AxiaIds} `{!AxiaMath} `{!AxiaMathOk} `{!AxiaCrypto} `{!Cfg}
    {S : Type} `{Persist S} (Propagate : error → string → error) (clock : nat → Z)
    (w : cvm.Writer) (ctx : ConsumerCtx) (txID : ID) (tx : UnsignedExportTx) (bytes : string)
    (s s' : S) n n' :
  let totalin := sum_with (λ i, evm_axc w (EVMInput_AssetID i) (EVMInput_Amount i)) (Export_Ins tx) in
  let totalout := sum_with (output_axc (cvm.axcWriter w)) (Export_ExportedOutputs tx) in
  Forall (λ i, is_u64 (EVMInput_Amount i)) (Export_Ins tx) →
  Forall output_ok (Export_ExportedOutputs tx) →
  run clock (cvm.indexExportTx Propagate w ctx txID tx bytes) (s, n) = (s', n', Ok tt) →
  ∃ l, performs l s = (s', Ok tt) ∧
    omap address_of l = export_addresses ctx txID 0 (Export_Ins tx) ∧
    omap main_row l =
      outputs_rows ctx txID (ID_String (Export_DestinationChain tx)) false 0
        (Export_ExportedOutputs tx) ++
      [ETransactions (cvm_transaction_row w ctx txID "atomic_export_tx" (Export_BlockchainID tx)
         (if (totalout <=? totalin)%Z then totalin - totalout
          else totalin - totalout + 2 ^ 64)%Z bytes)].
Proof.
  intros totalin totalout Hi Ho Hr.
  destruct (run_Ok clock _ _ _ _ _ _ _ _ (indexExportTx_strict _ _ _ _ _ _)
    (indexExportTx_rows Propagate w ctx txID tx bytes Hi Ho) Hr)
    as (l & Hl & [Hi1 Hi2] & [Ho1 Ho2] & Ha & Hm).
  fold totalin in Hm, Hi1, Hi2. fold totalout in Hm, Ho1, Ho2.
  exists l. split; [done|]. split; [done|]. rewrite Hm. repeat f_equal.
  destruct (Z.leb_spec totalout totalin).
  - apply Z.mod_small. lia.
  - symmetry. apply (Z.mod_unique _ _ (-1)); lia.
Qed.

Definition sample_export : UnsignedExportTx :=
  mkUnsignedExportTx "C" "X" [mkEVMInput "0xa" "AXC" 3 0] [out 5].
Definition wc : cvm.Writer := cvm.mkWriter 1 "AXC" w 0.
Definition sample_export_run : MockPersist * nat * result unit :=
  run clock (cvm.indexExportTx propagate wc ctx "e1" sample_export "blk") (NewPersistMock, 0).

Lemma cvm_export_indexed_witness :
  ∃ l, performs l NewPersistMock = (sample_export_run.1.1, Ok tt) ∧
    omap main_row l =
      [EOutputs (output_row ctx "e1" "X" false false 0 "AXC" (out_Out (out 5)));
       ETransactions (cvm_transaction_row wc ctx "e1" "atomic_export_tx" "C" (2 ^ 64 - 2) "blk")].
Proof.
  destruct (cvm_export_indexed propagate clock wc ctx "e1" sample_export "blk" NewPersistMock
    sample_export_run.1.1 0 sample_export_run.1.2) as (l & Hl & _ & Hm).
  - repeat constructor; vm_compute; done.
  - repeat constructor; vm_compute; done.
  - apply run_outcome. vm_compute. reflexivity.
  - exists l. split; [exact Hl|]. rewrite Hm. reflexivity.
Defined.

(** C31. Indexing a block of the C chain, when it succeeds, issues one row for each
    of its atomic transactions, in order; but all of them under one identifier, the
    hash of the block number, and all with the type and chain of the last export or
    import of the block. *)
Theorem cvm_block_rows `{!AxiaIds} `{!AxiaMath} `{!AxiaCrypto} `{!Cfg} `{!CvmCodec}
    {S : Type} `{Persist S} (Propagate : error → string → error) (clock : nat → Z)
    (w : cvm.Writer) (ctx : ConsumerCtx) (txs : list EvmTx) (bytes : string) (block : CBlock)
    (s s' : S) n n' :
  run clock (cvm.indexBlockInternal Propagate w ctx txs bytes block) (s, n) = (s', n', Ok tt) →
  ∃ l id, performs l s = (s', Ok tt) ∧
    ids_ToID (ComputeHash256 (Z_to_string (CBlock_Number block))) = Ok id ∧
    map CvmTransactions_TransactionID (omap cvm_tx_of l) = map (λ tx, ID_String (EvmTx_ID tx)) txs ∧
    Forall (λ t, CvmTransactions_ID t = ID_String id ∧
                 (CvmTransactions_Type t, CvmTransactions_BlockchainID t) =
                   fold_left atomic_kind txs (0%Z, "")) (omap cvm_tx_of l).
Proof.
  intros Hr.
  destruct (run_Ok clock _ _ _ _ _ _ _ _ 
    (indexBlockInternal_strict _ _ _ _ _ _)
    (indexBlockInternal_rows Propagate w ctx txs bytes block) Hr) as (l & Hl & id & bj & Hid & _ & Hrows).
  exists l, id. split; [done|]. split; [done|]. rewrite Hrows, map_map. split; [done|].
  apply Forall_forall. intros t (tx & -> & _)%list_elem_of_fmap. split; [done|].
  simpl. by destruct (fold_left _ _ _).
Qed.

Definition sample_atomic : list EvmTx := [mkEvmTx "e1" (AtomicExport sample_export) []].
Definition sample_cblock : CBlock := mkCBlock 12 1 0 "h" "p" "x" [].
Definition sample_cblock_run : MockPersist * nat * result unit :=
  run clock (cvm.indexBlockInternal propagate wc ctx sample_atomic "blk" sample_cblock) (NewPersistMock, 0).

Lemma cvm_block_rows_witness :
  ∃ l, performs l NewPersistMock = (sample_cblock_run.1.1, Ok tt) ∧
    map CvmTransactions_TransactionID (omap cvm_tx_of l) = ["e1"].
Proof.
  destruct (cvm_block_rows propagate clock wc ctx sample_atomic "blk" sample_cblock NewPersistMock
    sample_cblock_run.1.1 0 sample_cblock_run.1.2) as (l & id & Hl & _ & Hm & _).
  - apply run_outcome. vm_compute. reflexivity.
  - exists l. split; [exact Hl|exact Hm].
Defined.
