(* ===== verification/Balance.v ===== *)
(** The accumulation of balances: balance/balance_manager.go.

    Rows of the accumulator tables (written by the indexing of outputs) are
    processed once each, in small transactions, into the balance tables. *)

From S2P Require Import Prelude Errors Sql MemDb Axia DbModel Persist.

(** [time.Now()] during a session: the content is not involved. *)
Class SqlClock (D : Type) := { time_Now : M D Z }.
Class SqlClockOk (D : Type) `{!SqlEngine D} `{!SqlClock D} : Prop := {
  time_Now_ok (d : D) : ∃ d' t, time_Now d = (d', Ok t) ∧ rows d ≡ᶜ rows d' ∧ saved d' = saved d;
}.

#[export] Instance mem_clock : SqlClock MemDb := { time_Now d := (d, Ok 0%Z) }.
#[export] Instance mem_clock_ok : SqlClockOk MemDb.
Proof. split. intros d. by exists d, 0%Z. Qed.

Definition RowLimitValue : nat := 5000.
Definition LockSize : nat := 5.
Definition retryProcessing : nat := 3.

Inductive processType := processTypeIn | processTypeOut.

Definition outTable (typ : processType) : string :=
  match typ with
  | processTypeOut => TableOutputAddressAccumulateOut
  | processTypeIn => TableOutputAddressAccumulateIn
  end.

Definition balanceTable (typ : processType) : string :=
  match typ with
  | processTypeOut => TableAccumulateBalancesReceived
  | processTypeIn => TableAccumulateBalancesSent
  end.

(** * Queries *)

(** [... order by created_at asc] : stable. *)
Fixpoint insert_by_created (r : row) (l : list row) : list row :=
  match l with
  | [] => [r]
  | x :: l' =>
      if (as_time (r !! "created_at") <=? as_time (x !! "created_at"))%Z
      then r :: l else x :: insert_by_created r l'
  end.
Definition order_by_created (l : list row) : list row := foldr insert_by_created [] l.

(** The rows [x] of a table with [r.output_id = x.id]. *)
Definition join_id (r : row) (t : list row) : list row :=
  List.filter (λ x, bool_decide (x !! "id" = r !! "output_id" ∧ is_Some (r !! "output_id"))) t.

Definition is_processed (n : Z) (r : row) : bool := bool_decide (r !! "processed" = Some (VNum n)).

(** The two nested selects of [processOutputsPre]. *)
Definition processOutputsPre_query (outputProcessed : bool) (typ : processType) (c : content)
    : list OutputAddressAccumulate :=
  let avail := flat_map (λ r, map (λ _, r) (join_id r (c TableOutputs)))
                 (List.filter (is_processed 0) (c (outTable typ))) in
  let avail :=
    match typ with
    | processTypeOut => avail
    | processTypeIn =>
        if outputProcessed
        then List.filter (λ r, bool_decide (r !! "output_processed" = Some (VNum 1))) avail
        else flat_map (λ r, map (λ _, r) (join_id r (c TableOutputsRedeeming))) avail
    end in
  let limited := take RowLimitValue (order_by_created avail) in
  let loaded := flat_map (λ r, map (λ o, (r, o)) (join_id r (c TableOutputs))) limited in
  let loaded :=
    match typ with
    | processTypeOut => loaded
    | processTypeIn =>
        flat_map (λ ro, map (λ _, ro) (join_id ro.1 (c TableOutputsRedeeming))) loaded
    end in
  map (λ ro, mkOutputAddressAccumulate (col_str ro.1 "id") (col_str ro.1 "output_id")
               (col_str ro.1 "address") 0 0 (col_str ro.2 "transaction_id") 0 zero_time) loaded.

(** [select id ... where processed = 0 and id in (...) for update] *)
Definition locked_ids (tbl : string) (ids : list string) (c : content) : list string :=
  map (λ r, col_str r "id")
    (List.filter (λ r, is_processed 0 r && existsb (λ id, bool_decide (r !! "id" = Some (VStr id))) ids)
       (c tbl)).

(** Group by: one entry for each key, in order of appearance. *)
Definition balance_key : Type := string * string * string.  (* chain, address, asset *)

Fixpoint add_to_group (k : balance_key) (a : Z) (gs : list (balance_key * Z))
    : list (balance_key * Z) :=
  match gs with
  | [] => [(k, a)]
  | (k', s) :: gs' => if decide (k = k') then (k', (s + a)%Z) :: gs' else (k', s) :: add_to_group k a gs'
  end.
Definition group_sum (l : list (balance_key * Z)) : list (balance_key * Z) :=
  fold_left (λ gs ka, add_to_group ka.1 ka.2 gs) l [].

(** The output [output_id] joined with its address [address]. *)
Definition output_amounts (output_id address : string) (c : content) : list (balance_key * Z) :=
  flat_map (λ o,
    map (λ a, (col_str o "chain_id", col_str a "address", col_str o "asset_id", col_num o "amount"))
      (found [CEq "output_id" (VStr output_id); CEq "address" (VStr address)] (c TableOutputAddresses)))
    (found [CEq "id" (VStr output_id)] (c TableOutputs)).

Definition balances_query (output_id address : string) (c : content)
    : list AccumulateBalancesAmount :=
  map (λ '(chain, addr, asset, total),
        mkAccumulateBalancesAmount "" chain asset addr (Z_to_string total) "" zero_time)
    (group_sum (output_amounts output_id address c)).

(** * Processing *)
Section handler.
Context `{SqlEngine D} `{!SqlClock D} `{!AxiaIds}.
(** [rand.Shuffle] *)
Context (shuffle : list OutputAddressAccumulate → list OutputAddressAccumulate).
Context (shuffleTxs : list OutputTxsAccumulate → list OutputTxsAccumulate).

Definition processOutputsPre (outputProcessed : bool) (typ : processType)
    : M D (list OutputAddressAccumulate) :=
  rowdata ← select (processOutputsPre_query outputProcessed typ);
  mret (shuffle rowdata).

(** [select id from t where id = ? for update] and the checks that follow. *)
Definition lock_balance (balancetbl id : string) : M D unit :=
  balancesLocked ← select (λ c, map (λ r, col_str r "id") (found [CEq "id" (VStr id)] (c balancetbl)));
  match balancesLocked with
  | [] => throw "balancesLocked failed"
  | brow :: _ => if decide (brow = id) then mret tt else throw "balancesLocked failed"
  end.

(** [time.Unix(1, 0)] *)
Definition unix_1 : Z := (10 ^ 9)%Z.

Definition insert_balance (typ : processType) (b : AccumulateBalancesAmount) : M D unit :=
  match typ with
  | processTypeOut => InsertAccumulateBalancesReceived b
  | processTypeIn => InsertAccumulateBalancesSent b
  end.

(** The [update ... set utxo_count = utxo_count+1, total_amount = total_amount+...]. *)
Definition add_balance (typ : processType) (b : AccumulateBalancesAmount) (now : Z) : stmt :=
  Update (balanceTable typ)
    [("utxo_count", SetAdd (VNum 1));
     ("total_amount", SetAdd (literal (AccumulateBalancesAmount_TotalAmount b)));
     ("updated_at", SetVal (vtime now))]
    [CEq "id" (VStr (AccumulateBalancesAmount_ID b))].

(** The loop over the balances of a row. *)
Definition process_balance (typ : processType) (rowTransactionID : string)
    (b : AccumulateBalancesAmount) : M D unit :=
  created ← time_Now;
  outputsTxsAccumulate ← lift_result (OutputTxsAccumulate_ComputeID {|
    OutputTxsAccumulate_ID := "";
    OutputTxsAccumulate_ChainID := AccumulateBalancesAmount_ChainID b;
    OutputTxsAccumulate_AssetID := AccumulateBalancesAmount_AssetID b;
    OutputTxsAccumulate_Address := AccumulateBalancesAmount_Address b;
    OutputTxsAccumulate_TransactionID := rowTransactionID;
    OutputTxsAccumulate_Processed := 0;
    OutputTxsAccumulate_CreatedAt := created;
  |});
  _ ← InsertOutputTxsAccumulate outputsTxsAccumulate;
  b ← lift_result (AccumulateBalancesAmount_ComputeID {|
    AccumulateBalancesAmount_ID := AccumulateBalancesAmount_ID b;
    AccumulateBalancesAmount_ChainID := AccumulateBalancesAmount_ChainID b;
    AccumulateBalancesAmount_AssetID := AccumulateBalancesAmount_AssetID b;
    AccumulateBalancesAmount_Address := AccumulateBalancesAmount_Address b;
    AccumulateBalancesAmount_TotalAmount := AccumulateBalancesAmount_TotalAmount b;
    AccumulateBalancesAmount_UtxoCount := AccumulateBalancesAmount_UtxoCount b;
    AccumulateBalancesAmount_UpdatedAt := unix_1;
  |});
  _ ← insert_balance typ b;
  _ ← lock_balance (balanceTable typ) (AccumulateBalancesAmount_ID b);
  now ← time_Now;
  exec (add_balance typ b now).

Definition processOutputsBase (typ : processType) (row : OutputAddressAccumulate) : M D unit :=
  _ ← exec (Update (outTable typ) [("processed", SetVal (VNum 1))]
              [CEq "id" (VStr (OutputAddressAccumulate_ID row))]);
  balances ← select (balances_query (OutputAddressAccumulate_OutputID row)
                                    (OutputAddressAccumulate_Address row));
  match balances with
  | [] => throw "invalid balance"
  | _ => for_each balances (process_balance typ (OutputAddressAccumulate_TransactionID row))
  end.

Definition nil_row : error := "runtime error: invalid memory address or nil pointer dereference".

(** The body of [processOutputsPost] inside its transaction: [false] is the
    return before the commit, when there is nothing left to do. *)
Definition processOutputsPost_body (workRows : gmap string OutputAddressAccumulate)
    (workRowsID : list string) (typ : processType) : M D bool :=
  rowdata ← select (locked_ids (outTable typ) workRowsID);
  match rowdata with
  | [] => mret false
  | _ =>
      _ ← for_each rowdata (λ id,
            match workRows !! id with
            | None => throw nil_row
            | Some row => processOutputsBase typ row
            end);
      mret true
  end.

Definition processOutputsPost (workRows : gmap string OutputAddressAccumulate)
    (workRowsID : list string) (typ : processType) : M D unit :=
  in_tx (processOutputsPost_body workRows workRowsID typ).

(** The loop of [processOutputs] over the available rows: a batch is processed
    when it holds more than [LockSize] rows, and what is left at the end.  [None]
    is a retry loop still running when its fuel is spent. *)
Fixpoint processOutputs_loop (fuel : nat) (typ : processType)
    (trows : gmap string OutputAddressAccumulate) (trowsID : list string)
    (rowdataAvail : list OutputAddressAccumulate) (d : D) : option (D * result unit) :=
  match rowdataAvail with
  | [] =>
      if (0 <? length trowsID)
      then RepeatForLock fuel (processOutputsPost trows trowsID typ) d
      else Some (d, Ok tt)
  | row :: rest =>
      let trows := <[OutputAddressAccumulate_ID row := row]> trows in
      let trowsID := trowsID ++ [OutputAddressAccumulate_ID row] in
      if (LockSize <? length trowsID) then
        match RepeatForLock fuel (processOutputsPost trows trowsID typ) d with
        | None => None
        | Some (d', Err e) => Some (d', Err e)
        | Some (d', Ok _) => processOutputs_loop fuel typ ∅ [] rest d'
        end
      else processOutputs_loop fuel typ trows trowsID rest d
  end.

Definition processOutputs (fuel : nat) (outputProcessed : bool) (typ : processType) (d : D)
    : option (D * result nat) :=
  match processOutputsPre outputProcessed typ d with
  | (d1, Err e) => Some (d1, Err e)
  | (d1, Ok rowdataAvail) =>
      match processOutputs_loop fuel typ ∅ [] rowdataAvail d1 with
      | None => None
      | Some (d2, Err e) => Some (d2, Err e)
      | Some (d2, Ok _) => Some (d2, Ok (length rowdataAvail))
      end
  end.

(** ** Transaction counts *)

(** [processTransactionsPre]: the unprocessed transaction accumulators, oldest
    first. *)
Definition processTransactionsPre_query (c : content) : list OutputTxsAccumulate :=
  map (λ r, mkOutputTxsAccumulate (col_str r "id") (col_str r "chain_id") (col_str r "asset_id")
              (col_str r "address") (col_str r "transaction_id") (col_num r "processed") zero_time)
    (take RowLimitValue
      (order_by_created (List.filter (is_processed 0) (c TableOutputTxsAccumulate)))).

Definition processTransactionsPre : M D (list OutputTxsAccumulate) :=
  rowdata ← select processTransactionsPre_query;
  mret (shuffleTxs rowdata).

Definition add_transaction (b : AccumulateBalancesTransactions) (now : Z) : stmt :=
  Update TableAccumulateBalancesTransactions
    [("transaction_count", SetAdd (VNum 1)); ("updated_at", SetVal (vtime now))]
    [CEq "id" (VStr (AccumulateBalancesTransactions_ID b))].

Definition processTransactionsBase (row : OutputTxsAccumulate) : M D unit :=
  _ ← exec (Update TableOutputTxsAccumulate [("processed", SetVal (VNum 1))]
              [CEq "id" (VStr (OutputTxsAccumulate_ID row))]);
  b ← lift_result (AccumulateBalancesTransactions_ComputeID {|
    AccumulateBalancesTransactions_ID := "";
    AccumulateBalancesTransactions_ChainID := OutputTxsAccumulate_ChainID row;
    AccumulateBalancesTransactions_AssetID := OutputTxsAccumulate_AssetID row;
    AccumulateBalancesTransactions_Address := OutputTxsAccumulate_Address row;
    AccumulateBalancesTransactions_TransactionCount := "";
    AccumulateBalancesTransactions_UpdatedAt := unix_1;
  |});
  _ ← InsertAccumulateBalancesTransactions b;
  _ ← lock_balance TableAccumulateBalancesTransactions (AccumulateBalancesTransactions_ID b);
  now ← time_Now;
  exec (add_transaction b now).

Definition processTransactionsPost_body (workRows : gmap string OutputTxsAccumulate)
    (workRowsID : list string) : M D bool :=
  rowdata ← select (locked_ids TableOutputTxsAccumulate workRowsID);
  match rowdata with
  | [] => mret false
  | _ =>
      _ ← for_each rowdata (λ id,
            match workRows !! id with
            | None => throw nil_row
            | Some row => processTransactionsBase row
            end);
      mret true
  end.

Definition processTransactionsPost (workRows : gmap string OutputTxsAccumulate)
    (workRowsID : list string) : M D unit :=
  in_tx (processTransactionsPost_body workRows workRowsID).

Fixpoint processTransactions_loop (fuel : nat) (trows : gmap string OutputTxsAccumulate)
    (trowsID : list string) (rowdataAvail : list OutputTxsAccumulate) (d : D)
    : option (D * result unit) :=
  match rowdataAvail with
  | [] =>
      if (0 <? length trowsID)
      then RepeatForLock fuel (processTransactionsPost trows trowsID) d
      else Some (d, Ok tt)
  | row :: rest =>
      let trows := <[OutputTxsAccumulate_ID row := row]> trows in
      let trowsID := trowsID ++ [OutputTxsAccumulate_ID row] in
      if (LockSize <? length trowsID) then
        match RepeatForLock fuel (processTransactionsPost trows trowsID) d with
        | None => None
        | Some (d', Err e) => Some (d', Err e)
        | Some (d', Ok _) => processTransactions_loop fuel ∅ [] rest d'
        end
      else processTransactions_loop fuel trows trowsID rest d
  end.

Definition processTransactions (fuel : nat) (d : D) : option (D * result nat) :=
  match processTransactionsPre d with
  | (d1, Err e) => Some (d1, Err e)
  | (d1, Ok rowdataAvail) =>
      match processTransactions_loop fuel ∅ [] rowdataAvail d1 with
      | None => None
      | Some (d2, Err e) => Some (d2, Err e)
      | Some (d2, Ok _) => Some (d2, Ok (length rowdataAvail))
      end
  end.

(** ** The manager's event loop

    [runEvent] of [runProcessing] and [runTicker]: [icnt] as the code has it,
    [turns] bounds the iterations of the Go loop ([None]: still running). *)
Fixpoint runEvent (turns : nat) (f : D → option (D * result nat)) (icnt : nat) (d : D)
    : option (D * result unit) :=
  match turns with
  | O => None
  | S turns' =>
      if (icnt <? retryProcessing) then
        match f d with
        | None => None
        | Some (d', Err err) =>
            if ErrIsLockError err
            then runEvent turns' f (0 + 1) d'       (* icnt = 0; continue *)
            else Some (d', Err err)
        | Some (d', Ok cnt) =>
            if (cnt <? RowLimitValue) then Some (d', Ok tt)   (* break *)
            else runEvent turns' f (0 + 1) d'        (* icnt = 0 *)
        end
      else Some (d, Ok tt)
  end.
End handler.

(** * The manager's triggers

    A manager has two sets of three channels of capacity one; a channel is the
    number of pending events, 0 or 1. *)
Record managerChannels := mkManagerChannels { ch_ins : nat; ch_outs : nat; ch_txs : nat }.
Definition newManagerChannels : managerChannels := mkManagerChannels 0 0 0.

Record Manager := mkManager { enabled : bool; managerChannelsList : list managerChannels }.
Definition NewManager : Manager := mkManager false [].

(** [select { case ch <- struct{}{}: default: }] *)
Definition try_send (ch : nat) : nat := if (ch <? 1) then S ch else ch.

Definition Manager_Exec (a : Manager) : Manager :=
  if negb (enabled a) then a
  else mkManager (enabled a)
         (map (λ c, mkManagerChannels (try_send (ch_ins c)) (try_send (ch_outs c)) (try_send (ch_txs c)))
            (managerChannelsList a)).
