(* ===== verification/BalanceInv.v ===== *)
(** The balances are right: each balance row holds the sum, and the number, of the
    outputs whose accumulator rows have been processed, whatever the interleaving
    of indexing and processing. *)

From S2P Require Import Prelude Errors Sql MemDb Axia DbModel Persist Balance.

(** * Abstract specification *)
Definition has_id (id : string) (r : row) : bool := bool_decide (r !! "id" = Some (VStr id)).

(** What the balance table says of balance [id], in one of its columns. *)
Definition recorded (col tbl id : string) (c : content) : Z :=
  sum_with (λ r, if has_id id r then col_num r col else 0%Z) (c tbl).

Section spec.
Context `{!AxiaIds}.

(** The identifier of a balance: the hash of its key. *)
Definition key_id (k : balance_key) : result string :=
  hashed_id (k.1.1 +:+ ":" +:+ k.2 +:+ ":" +:+ k.1.2).

(** What an accumulator row brings to balance [id], measured by [f]. *)
Definition contribution (f : Z → Z) (id : string) (c : content) (r : row) : Z :=
  sum_with (λ ka, if decide (key_id ka.1 = Ok id) then f ka.2 else 0%Z)
    (output_amounts (col_str r "output_id") (col_str r "address") c).

(** What the processed accumulator rows bring to balance [id]. *)
Definition credit (f : Z → Z) (typ : processType) (id : string) (c : content) : Z :=
  sum_with (λ r, if is_processed 1 r then contribution f id c r else 0%Z) (c (outTable typ)).

Definition amount_of (a : Z) : Z := a.
Definition one_of (a : Z) : Z := 1%Z.

(** The balances are the sums of what has been processed, and a processed row
    had its output and its address. *)
Record balanced (typ : processType) (c : content) : Prop := {
  balanced_amount id :
    recorded "total_amount" (balanceTable typ) id c = credit amount_of typ id c;
  balanced_count id :
    recorded "utxo_count" (balanceTable typ) id c = credit one_of typ id c;
  balanced_present r :
    r ∈ c (outTable typ) → is_processed 1 r = true →
    output_amounts (col_str r "output_id") (col_str r "address") c ≠ [];
}.
End spec.

(** * Rows found by a unique key *)
Lemma matches_key w k (r r' : row) :
  map (λ x, match x with CEq c _ | CNe c _ => c end) w = k →
  Forall (λ x, match x with CEq _ _ => True | CNe _ _ => False end) w →
  matches w r = true → matches w r' = true → project k r = project k r'.
Proof.
  intros <- Hw. induction Hw as [|x w Hx _ IH]; simpl; [done|].
  destruct x as [c v|c v]; [|done]. simpl.
  intros [H1 H2]%andb_true_iff [H3 H4]%andb_true_iff.
  apply bool_decide_eq_true in H1 as [-> _], H3 as [-> _]. f_equal. by apply IH.
Qed.

(** A WHERE clause by unique key finds one row at most. *)
Lemma found_unique t w rs :
  map (λ x, match x with CEq c _ | CNe c _ => c end) w ∈ unique_keys t →
  Forall (λ x, match x with CEq _ _ => True | CNe _ _ => False end) w →
  unique_rows t rs → length (found w rs) ≤ 1.
Proof.
  intros Hk Hw Hu. specialize (Hu _ Hk). unfold found.
  induction rs as [|r rs IH]; simpl; [lia|].
  simpl in Hu. apply NoDup_cons in Hu as [Hni Hu].
  destruct (matches w r) eqn:E; [|by apply IH].
  rewrite filter_none; [done|]. intros r' Hr'. apply not_true_iff_false. intros E'.
  apply Hni. apply list_elem_of_fmap. exists r'. split; [|done].
  by eapply matches_key.
Qed.

Lemma found_unique_perm t w rs rs' :
  map (λ x, match x with CEq c _ | CNe c _ => c end) w ∈ unique_keys t →
  Forall (λ x, match x with CEq _ _ => True | CNe _ _ => False end) w →
  unique_rows t rs → rs ≡ₚ rs' → found w rs' = found w rs.
Proof.
  intros Hk Hw Hu E. pose proof (found_unique t w rs Hk Hw Hu) as Hl.
  pose proof (filter_perm (matches w) _ _ E) as Hp. unfold found in *.
  destruct (List.filter _ rs) as [|x [|]]; simpl in Hl; [|by apply filter_singleton_perm|lia].
  by apply Permutation_nil_l in Hp.
Qed.

(** An insertion does not change what a key finds, once it finds something. *)
Lemma found_inserted t w rs r rs' :
  map (λ x, match x with CEq c _ | CNe c _ => c end) w ∈ unique_keys t →
  Forall (λ x, match x with CEq _ _ => True | CNe _ _ => False end) w →
  unique_rows t rs → clashes t r rs = false → rs' ≡ₚ r :: rs → found w rs ≠ [] →
  found w rs' = found w rs.
Proof.
  intros Hk Hw Hu Hc E Hne.
  rewrite (found_unique_perm t w (r :: rs) rs'); [|done|done|by apply unique_rows_insert|done].
  unfold found in *. simpl. destruct (matches w r) eqn:Em; [|done]. exfalso.
  destruct (List.filter (matches w) rs) as [|x l] eqn:Ef; [done|].
  assert (x ∈ rs ∧ matches w x = true) as [Hx Hm].
  { assert (x ∈ List.filter (matches w) rs) as Hx by (rewrite Ef; left).
    apply list_elem_of_In, filter_In in Hx as [? ?]. by rewrite list_elem_of_In. }
  rewrite clashes_false in Hc. apply (Hc _ x Hk Hx). by eapply matches_key.
Qed.

Lemma filter_map_swap_update {A} (f : A → bool) (g : A → A) (l : list A) :
  (∀ x, f (g x) = f x) → List.filter f (map g l) = map g (List.filter f l).
Proof.
  intros Hfg. induction l as [|x l IH]; simpl; [done|]. rewrite Hfg.
  destruct (f x); simpl; by rewrite IH.
Qed.

(** * The amounts of an output are stable *)
Section amounts.
Lemma output_amounts_eq oid addr c c' :
  unique_content c → c' TableOutputs ≡ₚ c TableOutputs →
  c' TableOutputAddresses ≡ₚ c TableOutputAddresses →
  output_amounts oid addr c' = output_amounts oid addr c.
Proof.
  intros Hu E1 E2. unfold output_amounts.
  rewrite (found_unique_perm TableOutputs _ (c TableOutputs) (c' TableOutputs));
    [|simpl; left|by repeat constructor|apply Hu|done].
  rewrite (found_unique_perm TableOutputAddresses _ (c TableOutputAddresses) (c' TableOutputAddresses));
    [done|simpl; left|by repeat constructor|apply Hu|done].
Qed.

(** One output, one address: at most one amount. *)
Lemma output_amounts_short oid addr c :
  unique_content c → length (output_amounts oid addr c) ≤ 1.
Proof.
  intros Hu. unfold output_amounts.
  pose proof (found_unique TableOutputs [CEq "id" (VStr oid)] (c TableOutputs)
    ltac:(simpl; left) ltac:(by repeat constructor) (Hu _)) as H1.
  pose proof (found_unique TableOutputAddresses
    [CEq "output_id" (VStr oid); CEq "address" (VStr addr)] (c TableOutputAddresses)
    ltac:(simpl; left) ltac:(by repeat constructor) (Hu _)) as H2.
  destruct (found _ (c TableOutputs)) as [|o [|]]; simpl in *; [lia| |lia].
  rewrite app_nil_r, length_map. done.
Qed.

(** The columns an indexing operation may rewrite in table [t]. *)
Definition rewritten (o : pop) (t : string) : list string :=
  if decide (pop_table o = t)
  then match pop_update o with Some (sets, _) => map fst sets | None => [] end
  else [].

(** What a key finds, after an indexing operation: the same rows, up to the
    rewritten columns. *)
Lemma found_effect t w o c c' :
  map (λ x, match x with CEq c _ | CNe c _ => c end) w ∈ unique_keys t →
  Forall (λ x, match x with CEq _ _ => True | CNe _ _ => False end) w →
  unique_content c → gentle o → pop_effect o c c' → found w (c t) ≠ [] →
  ∃ h, found w (c' t) = map h (found w (c t)) ∧
    ∀ a col, col ∉ rewritten o t → (h a : row) !! col = a !! col.
Proof.
  intros Hk Hw Hu Hg (c1 & H1 & H2) Hne. unfold rewritten.
  assert (found w (c1 t) = found w (c t) ∧ unique_content c1) as [E1 Hu1].
  { destruct (pop_pairs o) as [ps|].
    - destruct H1 as [Hi|[_ E]].
      + split; [|by eapply inserted_unique]. destruct Hi as (Hc & Hp & Ho).
        destruct (decide (t = pop_table o)) as [->|Hnt].
        * by eapply found_inserted.
        * apply (found_unique_perm t); [done|done|apply Hu|]. by rewrite (Ho t Hnt).
      + split; [|by rewrite <-E]. by apply (found_unique_perm t).
    - split; [|by rewrite <-H1]. by apply (found_unique_perm t). }
  rewrite <-E1.
  pose proof (gentle_key_preserving o Hg) as Hkp. unfold pop_stmts in Hkp.
  apply Forall_app in Hkp as [_ Hkp].
  destruct (pop_update o) as [[sets w']|].
  - apply Forall_cons in Hkp as [Hkp _]. simpl in Hkp. destruct H2 as [Ht Ho].
    destruct (decide (pop_table o = t)) as [<-|Hnt].
    + exists (update_row sets w'). split.
      * rewrite (found_unique_perm (pop_table o) _ (map (update_row sets w') (c1 (pop_table o))));
          [|done|done|apply sets_no_key_unique; [done|apply Hu1]|by rewrite Ht].
        unfold found. rewrite filter_map_swap_update; [done|].
        intros r. unfold update_row. destruct (matches w' r); [|done].
        apply matches_apply_sets. intros col Hcol Hin.
        unfold sets_no_key in Hkp. rewrite forallb_forall in Hkp.
        specialize (Hkp _ ltac:(by apply list_elem_of_In)). rewrite forallb_forall in Hkp.
        specialize (Hkp col ltac:(by apply list_elem_of_In)).
        apply negb_true_iff, not_true_iff_false in Hkp. apply Hkp, existsb_exists.
        exists col. split; [by apply list_elem_of_In | apply String.eqb_refl].
      * intros a col Hcol. unfold update_row. destruct (matches w' a); [|done].
        by apply lookup_apply_sets_ne.
    + exists (λ a, a). rewrite map_id. split; [|done].
      apply (found_unique_perm t); [done|done|apply Hu1|]. symmetry. by apply Ho.
  - exists (λ a, a). rewrite map_id. split; [|done].
    apply (found_unique_perm t); [done|done|apply Hu1|]. by rewrite (H2 t).
Qed.

Lemma rewritten_outputs o : gentle o → rewritten o TableOutputs = [].
Proof.
  intros Hg. unfold rewritten. destruct o as [e upd| | | | |]; simpl in *; try done.
  subst upd. simpl. by case_decide.
Qed.

Lemma rewritten_addresses o : gentle o → "address" ∉ rewritten o TableOutputAddresses.
Proof.
  intros Hg. unfold rewritten. destruct o as [e upd| | | | |]; simpl in *.
  - subst upd. simpl. case_decide; apply not_elem_of_nil.
  - intros Hin. repeat (apply elem_of_cons in Hin as [|Hin]; [done|]). by apply elem_of_nil in Hin.
  - apply not_elem_of_nil.
  - apply not_elem_of_nil.
  - apply not_elem_of_nil.
  - apply not_elem_of_nil.
Qed.

(** Indexing does not change the amounts of an output that is already there. *)
Lemma output_amounts_effect oid addr o c c' :
  unique_content c → gentle o → pop_effect o c c' → output_amounts oid addr c ≠ [] →
  output_amounts oid addr c' = output_amounts oid addr c.
Proof.
  intros Hu Hg He Hne.
  destruct (found_effect TableOutputs [CEq "id" (VStr oid)] o c c') as (h1 & E1 & Hh1);
    [simpl; left|by repeat constructor|done|done|done| |].
  { intros E. apply Hne. unfold output_amounts. by rewrite E. }
  destruct (found_effect TableOutputAddresses
    [CEq "output_id" (VStr oid); CEq "address" (VStr addr)] o c c') as (h2 & E2 & Hh2);
    [simpl; left|by repeat constructor|done|done|done| |].
  { intros E. apply Hne. unfold output_amounts. rewrite E.
    clear. induction (found _ (c TableOutputs)); done. }
  unfold output_amounts. rewrite E1, E2. rewrite flat_map_concat_map, map_map.
  rewrite flat_map_concat_map. f_equal. apply map_ext. intros out. rewrite map_map.
  apply map_ext. intros a. unfold col_str, col_num.
  rewrite !Hh1, Hh2; [done| |rewrite (rewritten_outputs o Hg); apply not_elem_of_nil..].
  by apply rewritten_addresses.
Qed.
End amounts.

(** * The two sums under the statements of the program *)
Lemma recorded_perm col tbl id c c' : c' tbl ≡ₚ c tbl → recorded col tbl id c' = recorded col tbl id c.
Proof. intros E. unfold recorded. by rewrite E. Qed.

Lemma recorded_insert col tbl id ps c c' :
  insert_or_keep tbl ps c c' → col_num (new_row tbl ps) col = 0%Z →
  recorded col tbl id c' = recorded col tbl id c.
Proof.
  intros [(_ & Ht & _)|[_ E]] Hz; unfold recorded.
  - rewrite Ht. simpl. rewrite Hz. by destruct (has_id _ _).
  - by rewrite (E tbl).
Qed.

Lemma sum_with_map_update (f : row → Z) sets w n rs :
  (∀ r, matches w r = true → f (apply_sets sets r) = (f r + n)%Z) →
  sum_with f (map (update_row sets w) rs) =
  (sum_with f rs + sum_with (λ r, if matches w r then n else 0%Z) rs)%Z.
Proof.
  intros Hf. induction rs as [|r rs IH]; simpl; [done|]. rewrite IH.
  unfold update_row. destruct (matches w r) eqn:E; [rewrite Hf by done|]; lia.
Qed.

Lemma matches_id id r : matches [CEq "id" (VStr id)] r = has_id id r.
Proof.
  unfold matches, has_id. simpl. rewrite andb_true_r. apply bool_decide_ext. split; [by intros [? _]|done].
Qed.

Lemma has_id_eq id id' r : has_id id r = true → has_id id' r = true → id = id'.
Proof. unfold has_id. rewrite !bool_decide_eq_true. congruence. Qed.

(** Exactly one row has a given identifier. *)
Lemma sum_with_id tbl id n rs r :
  ["id"] ∈ unique_keys tbl → unique_rows tbl rs → r ∈ rs → has_id id r = true →
  sum_with (λ r, if matches [CEq "id" (VStr id)] r then n else 0%Z) rs = n.
Proof.
  intros Hk Hu Hr Hid. rewrite (sum_with_unique (project ["id"]) _ rs r).
  - by rewrite matches_id, Hid.
  - by apply Hu.
  - done.
  - intros r' Hr' Hne. rewrite matches_id. destruct (has_id id r') eqn:E; [|done].
    exfalso. apply Hne. unfold project. simpl.
    apply bool_decide_eq_true in E, Hid. congruence.
Qed.

(** Adding [n] to a column of the row [id] adds [n] to what is recorded for it. *)
Lemma recorded_add col tbl id id' n sets c c' r :
  updated tbl sets [CEq "id" (VStr id)] c c' → ["id"] ∈ unique_keys tbl →
  unique_rows tbl (c tbl) → r ∈ c tbl → has_id id r = true → "id" ∉ map fst sets →
  (∀ x, col_num (apply_sets sets x) col = (col_num x col + n)%Z) →
  recorded col tbl id' c' = (recorded col tbl id' c + if decide (id' = id) then n else 0)%Z.
Proof.
  intros [Ht _] Hk Hu Hr Hid Hni Hadd. unfold recorded. rewrite Ht.
  assert (∀ x, has_id id' (apply_sets sets x) = has_id id' x) as Hh.
  { intros x. unfold has_id. by rewrite lookup_apply_sets_ne. }
  destruct (decide (id' = id)) as [->|Hne].
  - rewrite (sum_with_map_update _ _ _ n).
    + f_equal. by eapply sum_with_id.
    + intros x Hm. rewrite matches_id in Hm. by rewrite Hh, Hm, Hadd.
  - rewrite (sum_with_map_update _ _ _ 0).
    + rewrite (sum_with_0 (λ r, if matches _ r then 0%Z else 0%Z)); [lia|].
      intros x _. by destruct (matches _ x).
    + intros x Hm. rewrite matches_id in Hm. rewrite Hh.
      destruct (has_id id' x) eqn:E; [|done]. exfalso. apply Hne. by eapply has_id_eq.
Qed.

Section credit.
Context `{!AxiaIds}.

Lemma contribution_eq f id c c' r :
  output_amounts (col_str r "output_id") (col_str r "address") c' =
  output_amounts (col_str r "output_id") (col_str r "address") c →
  contribution f id c' r = contribution f id c r.
Proof. unfold contribution. by intros ->. Qed.

(** The columns an accumulator row is counted by. *)
Definition same_row (r r' : row) : Prop :=
  is_processed 1 r' = is_processed 1 r ∧ r' !! "output_id" = r !! "output_id" ∧
  r' !! "address" = r !! "address" ∧ r' !! "id" = r !! "id".

Lemma credit_map f typ id c c' (h : row → row) :
  c' (outTable typ) ≡ₚ map h (c (outTable typ)) →
  (∀ r, r ∈ c (outTable typ) → same_row r (h r)) →
  (∀ r, r ∈ c (outTable typ) → is_processed 1 r = true →
    output_amounts (col_str r "output_id") (col_str r "address") c' =
    output_amounts (col_str r "output_id") (col_str r "address") c) →
  credit f typ id c' = credit f typ id c.
Proof.
  intros Ht Hh Ho. unfold credit. rewrite Ht, sum_with_map. apply sum_with_ext.
  intros r Hr. destruct (Hh r Hr) as (E1 & E2 & E3 & _). rewrite E1.
  destruct (is_processed 1 r) eqn:Ep; [|done].
  rewrite <-(contribution_eq f id c c' r) by by apply Ho.
  unfold contribution, col_str. by rewrite E2, E3.
Qed.

(** Processing one row adds its contribution. *)
Definition mark : list (string * setexpr) := [("processed", SetVal (VNum 1))].

Lemma is_processed_mark r : is_processed 1 (apply_sets mark r) = true.
Proof. unfold is_processed. by apply bool_decide_eq_true; simpl; rewrite lookup_insert_eq. Qed.

Lemma is_processed_0_1 r : is_processed 0 r = true → is_processed 1 r = false.
Proof.
  unfold is_processed. rewrite bool_decide_eq_true, bool_decide_eq_false. congruence.
Qed.

Lemma mark_ne r c : c ≠ "processed" → apply_sets mark r !! c = r !! c.
Proof. intros Hc. simpl. by rewrite lookup_insert_ne. Qed.

Lemma credit_mark f typ id' id c c' r :
  updated (outTable typ) mark [CEq "id" (VStr id)] c c' → unique_content c →
  ["id"] ∈ unique_keys (outTable typ) →
  r ∈ c (outTable typ) → has_id id r = true → is_processed 0 r = true →
  (∀ oid addr, output_amounts oid addr c' = output_amounts oid addr c) →
  credit f typ id' c' = (credit f typ id' c + contribution f id' c r)%Z.
Proof.
  intros [Ht _] Hu Hk Hr Hid Hp Ho. unfold credit. rewrite Ht, sum_with_map.
  rewrite (sum_with_ext _ (λ x, ((if is_processed 1 x then contribution f id' c x else 0) +
    (if matches [CEq "id" (VStr id)] x then contribution f id' c r else 0))%Z)).
  - rewrite sum_with_add. f_equal. by eapply sum_with_id.
  - intros x Hx. unfold update_row. destruct (matches _ x) eqn:Em.
    + rewrite matches_id in Em.
      assert (x = r) as ->.
      { eapply (unique_rows_eq (outTable typ) ["id"]); [apply Hu|done|done|done|].
        unfold project. simpl. apply bool_decide_eq_true in Em, Hid. congruence. }
      rewrite is_processed_mark, (is_processed_0_1 r Hp).
      unfold contribution, col_str. by rewrite !mark_ne, Ho.
    + destruct (is_processed 1 x); [|done]. rewrite Z.add_0_r. by apply contribution_eq, Ho.
Qed.
End credit.

(** * Indexing keeps the balances *)
Section indexing.
Context `{!AxiaIds}.

(** A fresh accumulator row is not processed, a fresh balance row is zero. *)
Lemma fresh_accumulator e typ :
  entity_table e = outTable typ →
  is_processed 1 (new_row (entity_table e) (entity_pairs e)) = false.
Proof.
  intros E. unfold is_processed. rewrite lookup_new_row.
  destruct e, typ; try discriminate E; reflexivity.
Qed.

Lemma fresh_balance e typ col :
  entity_table e = balanceTable typ → col ∈ ["total_amount"; "utxo_count"] →
  col_num (new_row (entity_table e) (entity_pairs e)) col = 0%Z.
Proof.
  intros E Hc. unfold col_num. rewrite lookup_new_row.
  repeat (apply elem_of_cons in Hc as [->|Hc]); [..|by apply elem_of_nil in Hc];
    destruct e, typ; try discriminate E; reflexivity.
Qed.

Lemma balanced_same typ c c' :
  c ≡ᶜ c' → unique_content c → balanced typ c → balanced typ c'.
Proof.
  intros E Hu [Ha Hn Hp].
  assert (∀ oid addr, output_amounts oid addr c' = output_amounts oid addr c) as Ho.
  { intros oid addr. apply output_amounts_eq; [done|by rewrite (E _)|by rewrite (E _)]. }
  assert (∀ f id, credit f typ id c' = credit f typ id c) as Hcr.
  { intros f id. eapply (credit_map _ _ _ _ _ (λ r, r)); [by rewrite map_id, (E _)|done|done]. }
  split.
  - intros id. rewrite Hcr, (recorded_perm _ _ _ c); [apply Ha|by rewrite (E _)].
  - intros id. rewrite Hcr, (recorded_perm _ _ _ c); [apply Hn|by rewrite (E _)].
  - intros r Hr Hr1. rewrite Ho. apply Hp; [by rewrite (E _)|done].
Qed.

(** One insertion, in whatever table. *)
Lemma balanced_insert typ e c c' :
  unique_content c → insert_or_keep (entity_table e) (entity_pairs e) c c' →
  balanced typ c → balanced typ c'.
Proof.
  intros Hu Hi [Ha Hn Hp].
  assert (∀ r, r ∈ c (outTable typ) → is_processed 1 r = true →
    output_amounts (col_str r "output_id") (col_str r "address") c' =
    output_amounts (col_str r "output_id") (col_str r "address") c) as Ho.
  { intros r Hr Hr1. eapply (output_amounts_effect _ _ (PInsert e false)); [done|done| |by apply Hp].
    exists c'. split; [exact Hi|simpl; reflexivity]. }
  assert (∀ col id, col ∈ ["total_amount"; "utxo_count"] →
    recorded col (balanceTable typ) id c' = recorded col (balanceTable typ) id c) as Hrec.
  { intros col id Hc. destruct (decide (entity_table e = balanceTable typ)) as [E|Hne].
    - rewrite <-E. eapply recorded_insert; [done|]. by eapply fresh_balance.
    - apply recorded_perm. destruct Hi as [(_ & _ & Hf)|[_ E]]; [by apply Hf|by rewrite (E _)]. }
  assert (∀ f id, credit f typ id c' = credit f typ id c) as Hcr.
  { intros f id. destruct (decide (entity_table e = outTable typ)) as [E|Hne].
    - destruct Hi as [(_ & Ht & _)|[_ Ec]].
      + rewrite E in Ht. unfold credit. rewrite Ht. simpl.
        rewrite <-E, (fresh_accumulator e typ E), E. simpl. apply sum_with_ext.
        intros r Hr. destruct (is_processed 1 r) eqn:Ep; [|done]. by apply contribution_eq, Ho.
      + eapply (credit_map _ _ _ _ _ (λ r, r)); [by rewrite map_id, (Ec _)|done|done].
    - eapply (credit_map _ _ _ _ _ (λ r, r)); [|done|done]. rewrite map_id.
      destruct Hi as [(_ & _ & Hf)|[_ E]]; [by apply Hf|by rewrite (E _)]. }
  split.
  - intros id. rewrite Hrec, Hcr; [apply Ha|left].
  - intros id. rewrite Hrec, Hcr; [apply Hn|right; left].
  - intros r Hr Hr1.
    assert (r ∈ c (outTable typ)) as Hrc.
    { destruct Hi as [(_ & Ht & Hf)|[_ E]]; [|by rewrite (E _)].
      destruct (decide (outTable typ = entity_table e)) as [E|Hne].
      - rewrite E in *. rewrite Ht in Hr. apply elem_of_cons in Hr as [->|Hr]; [|done].
        by rewrite (fresh_accumulator e typ) in Hr1.
      - by rewrite (Hf _ Hne) in Hr. }
    rewrite Ho by done. by apply Hp.
Qed.

(** The updates the indexing makes. *)
Definition indexing_update (o : pop) : Prop :=
  match o with PInsert _ _ => False | _ => True end.

(** An update of the indexing keeps what the accumulators are counted by. *)
Lemma update_accumulators typ o c c' :
  indexing_update o → pop_effect o c c' →
  ∃ h, c' (outTable typ) ≡ₚ map h (c (outTable typ)) ∧ ∀ r, same_row r (h r).
Proof.
  intros Ho He. destruct (decide (pop_table o = outTable typ)) as [E|Hne].
  - destruct o; [done|destruct typ; discriminate E| | |destruct typ; discriminate E..];
      [destruct typ; discriminate E|]. destruct typ; [|discriminate E].
    destruct He as (c1 & H1 & [Ht _]). simpl in H1, Ht.
    eexists. split; [by rewrite Ht, (H1 _)|].
    intros r. unfold update_row. destruct (matches _ r); [|done].
    unfold same_row, is_processed. by rewrite !lookup_apply_sets_ne by
      (simpl; intros Hin; repeat (apply elem_of_cons in Hin as [Hin|Hin]; [discriminate Hin|]);
       by apply elem_of_nil in Hin).
  - exists (λ r, r). split; [|done]. rewrite map_id. by eapply pop_effect_frame.
Qed.

Lemma balanced_update typ o c c' :
  unique_content c → indexing_update o → pop_effect o c c' → balanced typ c → balanced typ c'.
Proof.
  intros Hu Ho He [Ha Hn Hp].
  assert (gentle o) as Hg by (by destruct o).
  assert (∀ r, r ∈ c (outTable typ) → is_processed 1 r = true →
    output_amounts (col_str r "output_id") (col_str r "address") c' =
    output_amounts (col_str r "output_id") (col_str r "address") c) as Hoa.
  { intros r Hr Hr1. eapply output_amounts_effect; [done|done|done|by apply Hp]. }
  assert (pop_table o ≠ balanceTable typ) as Hnb.
  { destruct o, typ; simpl in Ho; try done; intros E; discriminate E. }
  destruct (update_accumulators typ o c c' Ho He) as (h & Hh & Hs).
  assert (∀ f id, credit f typ id c' = credit f typ id c) as Hcr.
  { intros f id. eapply credit_map; [exact Hh|done|done]. }
  split.
  - intros id. rewrite Hcr, (recorded_perm _ _ _ c); [apply Ha|by eapply pop_effect_frame].
  - intros id. rewrite Hcr, (recorded_perm _ _ _ c); [apply Hn|by eapply pop_effect_frame].
  - intros r Hr Hr1. rewrite Hh in Hr. apply list_elem_of_fmap in Hr as (r0 & -> & Hr0).
    destruct (Hs r0) as (E1 & E2 & E3 & _). rewrite E1 in Hr1. unfold col_str. rewrite E2, E3.
    change (output_amounts (col_str r0 "output_id") (col_str r0 "address") c' ≠ []).
    rewrite Hoa by done. by apply Hp.
Qed.

(** Any write operation of the indexing, successful or not. *)
Lemma balanced_perform `{SqlEngine D} `{!SqlEngineOk D} typ o (d d' : D) r :
  unique_content (rows d) → gentle o → perform o d = (d', r) →
  balanced typ (rows d) → balanced typ (rows d').
Proof.
  intros Hu Hg Hr Hb.
  destruct r as [[]|e].
  - apply perform_ok in Hr; [|done]. destruct o as [e upd| | | | |].
    + simpl in Hg. subst upd. destruct Hr as (c1 & H1 & H2). simpl in H1, H2.
      eapply balanced_same; [exact H2| |by eapply balanced_insert].
      destruct H1 as [Hi|[_ E]]; [by eapply inserted_unique|by rewrite <-E].
    + refine (balanced_update _ _ _ _ Hu _ Hr Hb); exact I.
    + refine (balanced_update _ _ _ _ Hu _ Hr Hb); exact I.
    + refine (balanced_update _ _ _ _ Hu _ Hr Hb); exact I.
    + refine (balanced_update _ _ _ _ Hu _ Hr Hb); exact I.
    + refine (balanced_update _ _ _ _ Hu _ Hr Hb); exact I.
  - apply perform_err in Hr as [E|(ps & Hps & Hi)]; [by eapply balanced_same|].
    destruct o; try done. simpl in Hps, Hi. injection Hps as <-. by eapply balanced_insert.
Qed.
End indexing.

(** * Processing *)

(** The transaction accumulators only get new, unprocessed rows. *)
Definition txs_grown (c c' : content) : Prop :=
  ∃ l, c' TableOutputTxsAccumulate ≡ₚ l ++ c TableOutputTxsAccumulate ∧
    ∀ r, r ∈ l → is_processed 1 r = false ∧ has_id (col_str r "id") r = true.

Lemma txs_grown_same c c' :
  c' TableOutputTxsAccumulate ≡ₚ c TableOutputTxsAccumulate → txs_grown c c'.
Proof. intros E. exists []. split; [done|]. intros r Hr. by apply elem_of_nil in Hr. Qed.

Lemma txs_grown_trans c c1 c2 : txs_grown c c1 → txs_grown c1 c2 → txs_grown c c2.
Proof.
  intros (l1 & E1 & H1) (l2 & E2 & H2). exists (l2 ++ l1). split.
  - by rewrite E2, E1, List.app_assoc.
  - intros r [Hr|Hr]%elem_of_app; auto.
Qed.

Lemma txs_grown_insert txs c c' :
  insert_or_keep TableOutputTxsAccumulate (OutputTxsAccumulate_pairs txs) c c' → txs_grown c c'.
Proof.
  intros [(_ & E & _)|[_ E]]; [|by apply txs_grown_same; rewrite (E _)].
  exists [new_row TableOutputTxsAccumulate (OutputTxsAccumulate_pairs txs)].
  split; [exact E|]. intros r ->%list_elem_of_singleton. unfold is_processed, has_id, col_str.
  rewrite !lookup_new_row. split; [done|by apply bool_decide_eq_true].
Qed.

Section processing.
Context `{SqlEngine D} `{!SqlEngineOk D} `{!SqlClock D} `{!SqlClockOk D} `{!AxiaIds}.
Implicit Types d : D.

Lemma now_rows d d' t : time_Now d = (d', Ok t) → rows d ≡ᶜ rows d'.
Proof. intros E. destruct (time_Now_ok d) as (d1 & t1 & E1 & Hr & _).
  rewrite E in E1. injection E1 as -> _. exact Hr.
Qed.

Lemma keeps_saved_now : keeps_saved (D:=D) time_Now.
Proof. intros d. destruct (time_Now_ok d) as (d1 & t1 & E1 & _ & Hs). by rewrite E1. Qed.

Lemma clashes_id t r rs id :
  unique_keys t = [["id"]] → r !! "id" = Some (VStr id) → clashes t r rs = true →
  ∃ r', r' ∈ rs ∧ has_id id r' = true.
Proof.
  unfold clashes. intros -> Hid. simpl. rewrite orb_false_r, existsb_exists.
  intros (r' & Hin & Hb). exists r'. split; [by apply list_elem_of_In|].
  apply bool_decide_eq_true in Hb. unfold project in Hb. simpl in Hb.
  apply bool_decide_eq_true. congruence.
Qed.

Lemma lock_balance_ok tbl id d d' :
  lock_balance tbl id d = (d', Ok tt) → rows d ≡ᶜ rows d'.
Proof.
  unfold lock_balance. intros (l & d1 & H1 & H2)%bind_Ok_inv.
  apply select_ok in H1 as [E _]. destruct l as [|brow l]; [done|].
  case_decide; [|done]. by injection H2 as <-.
Qed.

Lemma added_total total now x :
  col_num (apply_sets [("utxo_count", SetAdd (VNum 1));
    ("total_amount", SetAdd (literal (Z_to_string total)));
    ("updated_at", SetVal (vtime now))] x) "total_amount" = (col_num x "total_amount" + total)%Z.
Proof.
  rewrite literal_of_Z. unfold col_num. cbn [apply_sets fold_left set_column].
  rewrite lookup_insert_ne by done. rewrite lookup_insert_eq. simpl.
  by rewrite lookup_insert_ne by done.
Qed.

Lemma added_count total now x :
  col_num (apply_sets [("utxo_count", SetAdd (VNum 1));
    ("total_amount", SetAdd (literal (Z_to_string total)));
    ("updated_at", SetVal (vtime now))] x) "utxo_count" = (col_num x "utxo_count" + 1)%Z.
Proof.
  rewrite literal_of_Z. unfold col_num. cbn [apply_sets fold_left set_column].
  rewrite !lookup_insert_ne by done. by rewrite lookup_insert_eq.
Qed.

(** The effect of processing one amount [total] of the key [k]. *)
Lemma process_balance_effect typ tid (k : balance_key) total d d' :
  unique_content (rows d) →
  process_balance typ tid
    (mkAccumulateBalancesAmount "" k.1.1 k.2 k.1.2 (Z_to_string total) "" zero_time) d = (d', Ok tt) →
  ∃ id, key_id k = Ok id ∧ unique_content (rows d') ∧
    (∀ id', recorded "total_amount" (balanceTable typ) id' (rows d') =
      (recorded "total_amount" (balanceTable typ) id' (rows d) +
       if decide (id' = id) then total else 0)%Z) ∧
    (∀ id', recorded "utxo_count" (balanceTable typ) id' (rows d') =
      (recorded "utxo_count" (balanceTable typ) id' (rows d) +
       if decide (id' = id) then 1 else 0)%Z) ∧
    txs_grown (rows d) (rows d') ∧
    (∀ t, t ≠ TableOutputTxsAccumulate → t ≠ balanceTable typ → rows d' t ≡ₚ rows d t).
Proof.
  intros Hu. unfold process_balance. intros (t1 & d1 & E1%now_rows & Hr)%bind_Ok_inv.
  apply bind_Ok_inv in Hr as (txs & d2 & E2 & Hr). injection E2 as <- Etxs.
  apply bind_Ok_inv in Hr as ([] & d3 & E3 & Hr).
  apply bind_Ok_inv in Hr as (b & d4 & E4 & Hr). injection E4 as <- Eb.
  apply bind_Ok_inv in Hr as ([] & d5 & E5 & Hr).
  apply bind_Ok_inv in Hr as ([] & d6 & E6%lock_balance_ok & Hr).
  apply bind_Ok_inv in Hr as (now & d7 & E7%now_rows & Hr).
  assert (unique_content (rows d1)) as Hu1 by (by rewrite <-E1).
  pose proof (perform_unique (PInsert (EOutputTxsAccumulate txs) false) d1 Hu1) as Hu3.
  unfold perform in Hu3. cbn [sql_persist insert_entity] in Hu3. rewrite E3 in Hu3. cbn in Hu3.
  apply insert_ignore_dup_ok in E3.
  unfold AccumulateBalancesAmount_ComputeID in Eb. simpl in Eb.
  destruct (hashed_id _) as [id|] eqn:Eid; [|done]. simpl in Eb. injection Eb as <-.
  set (b := mkAccumulateBalancesAmount id k.1.1 k.2 k.1.2 (Z_to_string total) "" unix_1) in *.
  assert (insert_or_keep (balanceTable typ) (AccumulateBalancesReceived_pairs b) (rows d3) (rows d5) ∧
          unique_content (rows d5)) as [Hi Hu5].
  { pose proof (perform_unique (PInsert (match typ with processTypeOut => EAccumulateBalancesReceived b
      | processTypeIn => EAccumulateBalancesSent b end) false) d3 Hu3) as Hp.
    unfold perform in Hp. destruct typ; cbn [sql_persist insert_entity insert_balance] in *;
      rewrite E5 in Hp; (split; [by apply insert_ignore_dup_ok in E5|exact Hp]). }
  destruct (clashes_id (balanceTable typ) (new_row (balanceTable typ) (AccumulateBalancesReceived_pairs b))
    (rows d5 (balanceTable typ)) id) as (r & Hrin & Hrid).
  { by destruct typ. }
  { by rewrite lookup_new_row. }
  { apply (insert_or_keep_clashes _ _ (rows d3)); [by destruct typ|done]. }
  assert (rows d5 ≡ᶜ rows d7) as E57 by (by rewrite E6).
  exists id. split; [done|].
  pose proof (exec_unique (add_balance typ b now) d7) as Hux. rewrite Hr in Hux.
  split; [apply Hux; by rewrite <-E57|].
  assert (∀ col n, col ∈ ["total_amount"; "utxo_count"] →
    (∀ x, col_num (apply_sets [("utxo_count", SetAdd (VNum 1));
       ("total_amount", SetAdd (literal (Z_to_string total)));
       ("updated_at", SetVal (vtime now))] x) col = (col_num x col + n)%Z) →
    ∀ id', recorded col (balanceTable typ) id' (rows d') =
      (recorded col (balanceTable typ) id' (rows d) + if decide (id' = id) then n else 0)%Z) as Hcol.
  { intros col n Hc Hadd id'.
    apply exec_update in Hr as [Hupd _].
    erewrite (recorded_add col (balanceTable typ) id id' n _ (rows d7) (rows d')).
    - f_equal. rewrite (recorded_perm _ _ _ (rows d5)) by (by rewrite (E57 _)).
      rewrite (recorded_insert col (balanceTable typ) id' _ (rows d3) (rows d5) Hi).
      + rewrite (recorded_perm _ _ _ (rows d1)).
        * by rewrite (recorded_perm _ _ _ (rows d)) by by rewrite (E1 _).
        * destruct E3 as [(_ & _ & Hf)|[_ E]]; [|by rewrite (E _)]. apply Hf. by destruct typ.
      + unfold col_num. rewrite lookup_new_row.
        repeat (apply elem_of_cons in Hc as [->|Hc]); [..|by apply elem_of_nil in Hc]; by destruct typ.
    - exact Hupd.
    - destruct typ; left.
    - rewrite E57 in Hu5. apply Hu5.
    - rewrite <-(E57 _). exact Hrin.
    - exact Hrid.
    - simpl. intros Hin. repeat (apply elem_of_cons in Hin as [Hin|Hin]; [discriminate Hin|]).
      by apply elem_of_nil in Hin.
    - exact Hadd. }
  split_and!.
  - apply Hcol; [left|]. intros x. apply added_total.
  - apply Hcol; [right; left|]. intros x. apply added_count.
  - apply exec_update in Hr as [[_ Hf] _]. apply (txs_grown_trans _ (rows d3)).
    + apply (txs_grown_trans _ (rows d1)); [apply txs_grown_same; by rewrite (E1 _)|].
      by eapply txs_grown_insert.
    + apply txs_grown_same. rewrite Hf by (by destruct typ). rewrite <-(E57 _).
      destruct Hi as [(_ & _ & Hf')|[_ E]]; [by apply Hf'; destruct typ|by rewrite (E _)].
  - intros t Ht1 Ht2. apply exec_update in Hr as [[_ Hf] _]. rewrite (Hf t Ht2), <-(E57 t).
    transitivity (rows d3 t).
    + destruct Hi as [(_ & _ & Hf')|[_ E]]; [by apply Hf'|by rewrite (E t)].
    + rewrite (E1 t). destruct E3 as [(_ & _ & Hf')|[_ E]]; [by apply Hf'|by rewrite (E t)].
Qed.
End processing.
