(* ===== verification/BalanceRun.v ===== *)
(** The balance manager as a whole: one processed row, one transaction, and every
    interleaving of indexing and processing. *)

From S2P Require Import Prelude Errors Sql MemDb Axia DbModel Persist Balance BalanceInv.

(** * Frames *)
Section frame.
Context `{!AxiaIds}.

(** The tables a balance and its accumulator rows are read from. *)
Definition balance_tables (typ : processType) : list string :=
  [outTable typ; balanceTable typ; TableOutputs; TableOutputAddresses].

Lemma balanced_frame typ c c' :
  unique_content c → (∀ t, t ∈ balance_tables typ → c' t ≡ₚ c t) →
  balanced typ c → balanced typ c'.
Proof.
  intros Hu Hf [Ha Hn Hp].
  assert (∀ oid addr, output_amounts oid addr c' = output_amounts oid addr c) as Ho.
  { intros oid addr. apply output_amounts_eq; [done|apply Hf; set_solver..]. }
  assert (∀ f id, credit f typ id c' = credit f typ id c) as Hcr.
  { intros f id. eapply (credit_map _ _ _ _ _ (λ r, r)); [|done|done].
    rewrite map_id. apply Hf. set_solver. }
  split.
  - intros id. rewrite Hcr, (recorded_perm _ _ _ c); [apply Ha|apply Hf; set_solver].
  - intros id. rewrite Hcr, (recorded_perm _ _ _ c); [apply Hn|apply Hf; set_solver].
  - intros r Hr Hr1. rewrite Ho. apply Hp; [|done]. rewrite <-(Hf (outTable typ)); [done|set_solver].
Qed.
End frame.

(** * Rows to process *)

(** The row that a reader took out of the accumulator table is still there. *)
Definition tracks (typ : processType) (c : content) (row : OutputAddressAccumulate) : Prop :=
  ∃ r, r ∈ c (outTable typ) ∧ has_id (OutputAddressAccumulate_ID row) r = true ∧
    col_str r "output_id" = OutputAddressAccumulate_OutputID row ∧
    col_str r "address" = OutputAddressAccumulate_Address row.

(** ... and has not been processed. *)
Definition pending (typ : processType) (c : content) (row : OutputAddressAccumulate) : Prop :=
  ∃ r, r ∈ c (outTable typ) ∧ has_id (OutputAddressAccumulate_ID row) r = true ∧
    col_str r "output_id" = OutputAddressAccumulate_OutputID row ∧
    col_str r "address" = OutputAddressAccumulate_Address row ∧ is_processed 0 r = true.

(** The primary keys of the accumulators are strings. *)
Definition string_ids (t : string) (c : content) : Prop :=
  ∀ r, r ∈ c t → has_id (col_str r "id") r = true.

Lemma outTable_key typ : ["id"] ∈ unique_keys (outTable typ).
Proof. destruct typ; left. Qed.

Lemma same_id_row t c id r r' :
  ["id"] ∈ unique_keys t → unique_content c → r ∈ c t → r' ∈ c t →
  has_id id r = true → has_id id r' = true → r = r'.
Proof.
  intros Hk Hu Hr Hr' E E'. eapply (unique_rows_eq t ["id"]);
    [apply Hu|done|done|done|].
  unfold project. simpl. apply bool_decide_eq_true in E, E'. congruence.
Qed.

Lemma group_sum_one ka : group_sum [ka] = [ka].
Proof. by destruct ka. Qed.

(** ** Marking rows as processed *)
Definition any_id (ids : list string) (r : row) : bool := existsb (λ id, has_id id r) ids.

Definition mark_ids (ids : list string) (r : row) : row :=
  if any_id ids r then apply_sets mark r else r.

(** What processing the rows [ids] does outside of the balances. *)
Definition marked (typ : processType) (ids : list string) (c c' : content) : Prop :=
  c' (outTable typ) ≡ₚ map (mark_ids ids) (c (outTable typ)) ∧ txs_grown c c' ∧
  ∀ t, t ≠ outTable typ → t ≠ balanceTable typ → t ≠ TableOutputTxsAccumulate → c' t ≡ₚ c t.

Lemma mark_ids_ne ids r col : col ≠ "processed" → mark_ids ids r !! col = r !! col.
Proof. intros Hc. unfold mark_ids. destruct (any_id ids r); [by apply mark_ne|done]. Qed.

Lemma has_id_mark id ids r : has_id id (mark_ids ids r) = has_id id r.
Proof. unfold has_id. by rewrite mark_ids_ne. Qed.

Lemma any_id_mark ids ids' r : any_id ids (mark_ids ids' r) = any_id ids r.
Proof. unfold any_id. induction ids as [|id ids IH]; simpl; [done|]. by rewrite has_id_mark, IH. Qed.

Lemma mark_ids_nil r : mark_ids [] r = r.
Proof. done. Qed.

Lemma mark_twice r : apply_sets mark (apply_sets mark r) = apply_sets mark r.
Proof. unfold mark. cbn [apply_sets fold_left set_column]. by rewrite insert_insert_eq. Qed.

Lemma mark_ids_app ids ids' r : mark_ids ids' (mark_ids ids r) = mark_ids (ids ++ ids') r.
Proof.
  unfold mark_ids at 1. rewrite any_id_mark. unfold mark_ids.
  replace (any_id (ids ++ ids') r) with (any_id ids r || any_id ids' r)
    by (unfold any_id; by rewrite existsb_app).
  destruct (any_id ids r), (any_id ids' r); simpl; try done. apply mark_twice.
Qed.

Lemma marked_refl typ c c' : c ≡ᶜ c' → marked typ [] c c'.
Proof.
  intros E. split; [|split; [apply txs_grown_same; by rewrite (E _)|intros t _ _ _; by rewrite (E t)]].
  rewrite (map_ext (mark_ids []) (λ r, r)) by done. by rewrite map_id, (E _).
Qed.

Lemma marked_trans typ ids ids' c c1 c2 :
  marked typ ids c c1 → marked typ ids' c1 c2 → marked typ (ids ++ ids') c c2.
Proof.
  intros (H1 & G1 & F1) (H2 & G2 & F2). split_and!.
  - rewrite H2, H1, map_map. by rewrite (map_ext _ _ (mark_ids_app ids ids')).
  - by eapply txs_grown_trans.
  - intros t N1 N2 N3. by rewrite (F2 t), (F1 t).
Qed.

(** Rows the marking concerns or not. *)
Lemma pending_marked typ ids c c' row :
  marked typ ids c c' → OutputAddressAccumulate_ID row ∉ ids → pending typ c row → pending typ c' row.
Proof.
  intros [Hm _] Hni (r & Hr & Hid & Eo & Ea & Hp). exists r.
  assert (mark_ids ids r = r) as Er.
  { unfold mark_ids. destruct (any_id ids r) eqn:E; [|done]. exfalso.
    apply existsb_exists in E as (id & Hin & Hid'). apply Hni.
    by rewrite (has_id_eq _ _ _ Hid Hid'), list_elem_of_In. }
  split_and!; try done. rewrite Hm. apply list_elem_of_fmap. by exists r.
Qed.

Lemma tracks_marked typ typ' ids c c' row :
  marked typ ids c c' → tracks typ' c row → tracks typ' c' row.
Proof.
  intros (Hm & _ & Hf) (r & Hr & Hid & Eo & Ea).
  destruct (decide (outTable typ' = outTable typ)) as [E|Hne].
  - exists (mark_ids ids r). rewrite has_id_mark. unfold col_str. rewrite !mark_ids_ne by done.
    split_and!; try done. rewrite E, Hm. apply list_elem_of_fmap. exists r. by rewrite <-E.
  - exists r. split_and!; try done. rewrite Hf; [done|done|by destruct typ, typ'..].
Qed.

Lemma string_ids_marked typ typ' ids c c' :
  marked typ ids c c' → string_ids (outTable typ') c → string_ids (outTable typ') c'.
Proof.
  intros (Hm & _ & Hf) Hs r Hr. destruct (decide (outTable typ' = outTable typ)) as [E|Hne].
  - rewrite E, Hm in Hr. apply list_elem_of_fmap in Hr as (x & -> & Hx).
    rewrite has_id_mark. unfold col_str. rewrite mark_ids_ne by done. apply Hs. by rewrite E.
  - apply Hs. rewrite <-(Hf (outTable typ')); [done|done|by destruct typ, typ'..].
Qed.

(** ** The rows locked for processing *)
Lemma locked_unprocessed t ids c id r :
  ["id"] ∈ unique_keys t → unique_content c → id ∈ locked_ids t ids c →
  r ∈ c t → has_id id r = true → is_processed 0 r = true.
Proof.
  intros Hk Hu Hin Hr Hid. unfold locked_ids in Hin.
  apply list_elem_of_fmap in Hin as (x & Ex & Hx).
  apply list_elem_of_In, filter_In in Hx as [Hx [Hp Hany]%andb_true_iff].
  apply existsb_exists in Hany as (id' & _ & Hid').
  assert (has_id id x = true) as Hidx.
  { unfold has_id. apply bool_decide_eq_true in Hid'. apply bool_decide_eq_true.
    rewrite Ex. unfold col_str. by rewrite Hid'. }
  apply list_elem_of_In in Hx. by rewrite <-(same_id_row t c id x r Hk Hu Hx Hr Hidx Hid).
Qed.

Lemma locked_nodup t ids c :
  ["id"] ∈ unique_keys t → unique_content c → string_ids t c → NoDup (locked_ids t ids c).
Proof.
  intros Hk Hu Hs. unfold locked_ids. specialize (Hu _ _ Hk).
  specialize (Hs : ∀ r, r ∈ c t → _). revert Hu Hs.
  induction (c t) as [|r rs IH]; simpl; [constructor|].
  intros [Hni Hu]%NoDup_cons Hs. specialize (IH Hu ltac:(intros; apply Hs; by right)).
  destruct (is_processed 0 r && _); [|done]. simpl. constructor; [|done].
  intros (x & Ex & Hx)%list_elem_of_fmap. apply list_elem_of_In, filter_In in Hx as [Hx _].
  apply Hni, list_elem_of_fmap. exists x. apply list_elem_of_In in Hx. split; [|done].
  pose proof (Hs x ltac:(by right)) as H1. pose proof (Hs r ltac:(left)) as H2.
  unfold has_id in *. apply bool_decide_eq_true in H1, H2. unfold project. simpl. congruence.
Qed.

#[global] Instance locked_perm t ids : Proper (content_eq ==> (≡ₚ)) (locked_ids t ids).
Proof. intros c c' E. unfold locked_ids. by rewrite (E t). Qed.

(** Once marked, they are no longer to be locked. *)
Lemma locked_marked t ids c c' :
  string_ids t c → c' t ≡ₚ map (mark_ids (locked_ids t ids c)) (c t) → locked_ids t ids c' = [].
Proof.
  intros Hs E. apply Permutation_nil_r. unfold locked_ids at 1. rewrite E, filter_none; [done|].
  intros x (r & -> & Hr)%list_elem_of_fmap.
  destruct (is_processed 0 (mark_ids _ r)) eqn:Ep; [|done]. simpl.
  apply not_true_iff_false. intros (id & Hin & Hid)%existsb_exists.
  apply bool_decide_eq_true in Hid. rewrite mark_ids_ne in Hid by done.
  assert (is_processed 0 r = true) as Hp0.
  { unfold mark_ids in Ep. destruct (any_id _ r); [|done].
    pose proof (is_processed_0_1 _ Ep) as E1. by rewrite is_processed_mark in E1. }
  assert (any_id (locked_ids t ids c) r = true) as Ha.
  { apply existsb_exists. exists (col_str r "id"). split; [|by apply Hs].
    unfold locked_ids. apply in_map_iff. exists r. split; [done|].
    apply filter_In. split; [by apply list_elem_of_In|].
    rewrite Hp0. simpl. apply existsb_exists. exists id. split; [done|by apply bool_decide_eq_true]. }
  unfold mark_ids in Ep. rewrite Ha in Ep.
  pose proof (is_processed_0_1 _ Ep) as E1. by rewrite is_processed_mark in E1.
Qed.

Section processing.
Context `{SqlEngine D} `{!SqlEngineOk D} `{!SqlClock D} `{!SqlClockOk D} `{!AxiaIds}.
Implicit Types d : D.

(** The query of [processOutputsBase] finds one balance, or none. *)
Lemma balances_query_short oid addr c :
  unique_content c →
  (output_amounts oid addr c = [] ∧ balances_query oid addr c = []) ∨
  (∃ k a, output_amounts oid addr c = [(k, a)] ∧
    balances_query oid addr c =
      [mkAccumulateBalancesAmount "" k.1.1 k.2 k.1.2 (Z_to_string a) "" zero_time]).
Proof.
  intros Hu. pose proof (output_amounts_short oid addr c Hu) as Hl.
  unfold balances_query. destruct (output_amounts oid addr c) as [|[k a] [|]];
    simpl in Hl; [by left| |lia].
  right. exists k, a. split; [done|]. rewrite group_sum_one. by destruct k as [[chain addr'] asset].
Qed.

Lemma processOutputsBase_effect typ row d d' :
  unique_content (rows d) → balanced typ (rows d) → pending typ (rows d) row →
  processOutputsBase typ row d = (d', Ok tt) →
  unique_content (rows d') ∧ balanced typ (rows d') ∧
  marked typ [OutputAddressAccumulate_ID row] (rows d) (rows d').
Proof.
  intros Hu [Ha Hn Hp] (r & Hr & Hid & Eo & Ead & Hp0). unfold processOutputsBase.
  intros ([] & d1 & E1 & Hrest)%bind_Ok_inv.
  apply bind_Ok_inv in Hrest as (bals & d2 & [Er ->]%select_ok & Hrest).
  apply exec_update in E1 as [Hm Hu1].
  assert (unique_content (rows d1)) as Hud1.
  { intros t. destruct (decide (t = outTable typ)) as [->|Ht]; [apply Hu1, Hu|].
    rewrite (proj2 Hm t Ht). apply Hu. }
  assert (∀ oid addr, output_amounts oid addr (rows d1) = output_amounts oid addr (rows d)) as Ho.
  { intros oid addr. apply output_amounts_eq; [done|apply (proj2 Hm); by destruct typ..]. }
  assert (unique_content (rows d2)) as Hud2 by (by rewrite <-Er).
  assert (∀ oid addr, output_amounts oid addr (rows d2) = output_amounts oid addr (rows d1)) as Ho2.
  { intros oid addr. apply output_amounts_eq; [done|by rewrite (Er _)..]. }
  destruct (balances_query_short (OutputAddressAccumulate_OutputID row)
    (OutputAddressAccumulate_Address row) (rows d2) Hud2) as [[_ Eq]|(k & a & Ea & Eq)];
    rewrite Eq in Hrest; [done|].
  cbn [for_each] in Hrest. apply bind_Ok_inv in Hrest as ([] & d3 & Hpb & [= <-]).
  destruct (process_balance_effect _ _ _ _ _ _ Hud2 Hpb) as (id & Eid & Hu3 & Ht & Hc & Hg & Hf).
  assert (∀ t, t ≠ TableOutputTxsAccumulate → t ≠ balanceTable typ → rows d3 t ≡ₚ rows d1 t) as Hf3.
  { intros t H1 H2. by rewrite (Hf t H1 H2), (Er t). }
  assert (∀ oid addr, output_amounts oid addr (rows d3) = output_amounts oid addr (rows d1)) as Ho3.
  { intros oid addr. apply output_amounts_eq; [done|apply Hf3; by destruct typ..]. }
  assert (∀ f id', credit f typ id' (rows d3) =
    (credit f typ id' (rows d) + if decide (id' = id) then f a else 0)%Z) as Hcr.
  { intros f id'. rewrite (credit_map f typ id' (rows d1) (rows d3) (λ r, r));
      [|rewrite map_id; apply Hf3; by destruct typ|done|done].
    rewrite (credit_mark f typ id' _ _ _ r Hm Hu (outTable_key typ) Hr Hid Hp0 Ho). f_equal.
    unfold contribution. rewrite Eo, Ead, <-Ho, <-Ho2, Ea. simpl. rewrite Eid, Z.add_0_r.
    destruct (decide (Ok id = Ok id')) as [?|?], (decide (id' = id)) as [?|?]; congruence. }
  split_and!; [done| |split_and!].
  - assert (∀ col id', recorded col (balanceTable typ) id' (rows d2) =
      recorded col (balanceTable typ) id' (rows d)) as Hrec.
    { intros col id'. apply recorded_perm. rewrite <-(Er _). apply (proj2 Hm). by destruct typ. }
    split.
    + intros id'. by rewrite Ht, Hcr, Hrec, Ha.
    + intros id'. by rewrite Hc, Hcr, Hrec, Hn.
    + intros x Hx Hx1. rewrite Ho3.
      rewrite (Hf3 (outTable typ)), (proj1 Hm) in Hx by (by destruct typ).
      apply list_elem_of_fmap in Hx as (y & -> & Hy). unfold update_row in *.
      destruct (matches _ y) eqn:Em.
      * rewrite matches_id in Em. pose proof (same_id_row _ _ _ y r (outTable_key typ) Hu Hy Hr Em Hid) as ->.
        unfold col_str. rewrite !mark_ne by done. fold (col_str r "output_id").
        fold (col_str r "address"). by rewrite Eo, Ead, <-Ho2, Ea.
      * rewrite Ho. by apply Hp.
  - rewrite (Hf3 (outTable typ)) by (by destruct typ). rewrite (proj1 Hm).
    erewrite map_ext; [reflexivity|]. intros x. unfold mark_ids, update_row, any_id. simpl.
    by rewrite <-matches_id, orb_false_r.
  - apply (txs_grown_trans _ (rows d2)); [|done]. apply txs_grown_same.
    rewrite <-(Er _). apply (proj2 Hm). by destruct typ.
  - intros t H1 H2 H3. rewrite (Hf3 t H3 H2). by apply (proj2 Hm).
Qed.

(** The rows that [processOutputsPost] locks. *)
Lemma locked_pending typ ids c row id :
  unique_content c → id ∈ locked_ids (outTable typ) ids c →
  OutputAddressAccumulate_ID row = id → tracks typ c row → pending typ c row.
Proof.
  intros Hu Hin <- (r & Hr & Hid & Eo & Ea). exists r. split_and!; try done.
  by eapply locked_unprocessed; [apply outTable_key|..].
Qed.

(** The loop over the locked rows. *)
Lemma post_loop_effect typ (workRows : gmap string OutputAddressAccumulate) ids d d' :
  (∀ id row, workRows !! id = Some row → OutputAddressAccumulate_ID row = id) →
  NoDup ids → unique_content (rows d) → balanced typ (rows d) →
  (∀ id row, id ∈ ids → workRows !! id = Some row → pending typ (rows d) row) →
  for_each ids (λ id, match workRows !! id with
                      | None => throw nil_row
                      | Some row => processOutputsBase typ row
                      end) d = (d', Ok tt) →
  unique_content (rows d') ∧ balanced typ (rows d') ∧ marked typ ids (rows d) (rows d').
Proof.
  intros Hids. revert d. induction ids as [|id ids IH]; intros d Hnd Hu Hb Hp Hr.
  - injection Hr as <-. split_and!; [done|done|by apply marked_refl].
  - cbn [for_each] in Hr. apply bind_Ok_inv in Hr as ([] & d1 & H1 & H2).
    apply NoDup_cons in Hnd as [Hni Hnd].
    destruct (workRows !! id) as [row|] eqn:Ew; [|done]. pose proof (Hids _ _ Ew) as Eid.
    destruct (processOutputsBase_effect typ row d d1 Hu Hb) as (Hu1 & Hb1 & Hm1);
      [by apply (Hp id); [left|]|done|].
    destruct (IH d1 Hnd Hu1 Hb1) as (Hu2 & Hb2 & Hm2); [|done|].
    + intros id' row' Hin Ew'. eapply (pending_marked typ _ _ _ _ Hm1).
      * intros [E|Hn]%elem_of_cons; [|by apply elem_of_nil in Hn].
        rewrite (Hids _ _ Ew'), Eid in E. by subst id'.
      * by apply (Hp id'); [right|].
    + split_and!; [done|done|]. rewrite Eid in Hm1. by eapply (marked_trans typ [id]).
Qed.

(** ** Transactions *)
Lemma keeps_saved_lock tbl id : keeps_saved (D:=D) (lock_balance tbl id).
Proof. unfold lock_balance. auto 6 with magellan. Qed.

Lemma keeps_saved_insert_balance typ b : keeps_saved (D:=D) (insert_balance typ b).
Proof.
  intros d. destruct typ.
  - apply (keeps_saved_perform (PInsert (EAccumulateBalancesSent b) false)).
  - apply (keeps_saved_perform (PInsert (EAccumulateBalancesReceived b) false)).
Qed.

Lemma keeps_saved_insert_txs a : keeps_saved (D:=D) (InsertOutputTxsAccumulate a).
Proof. intros d. apply (keeps_saved_perform (PInsert (EOutputTxsAccumulate a) false)). Qed.

Lemma keeps_saved_process_balance typ tid b : keeps_saved (D:=D) (process_balance typ tid b).
Proof.
  unfold process_balance.
  repeat first [apply keeps_saved_insert_txs | apply keeps_saved_insert_balance
    | apply keeps_saved_lock | apply keeps_saved_now | apply keeps_saved_lift
    | apply keeps_saved_exec | apply keeps_saved_bind; [|intros ?]].
Qed.

Lemma keeps_saved_base typ row : keeps_saved (D:=D) (processOutputsBase typ row).
Proof.
  unfold processOutputsBase.
  apply keeps_saved_bind; [apply keeps_saved_exec|intros _].
  apply keeps_saved_bind; [apply keeps_saved_select|intros [|b bs]]; [apply keeps_saved_throw|].
  apply keeps_saved_for_each. intros x. apply keeps_saved_process_balance.
Qed.

Lemma keeps_saved_post workRows ids typ :
  keeps_saved (D:=D) (processOutputsPost_body workRows ids typ).
Proof.
  unfold processOutputsPost_body.
  apply keeps_saved_bind; [apply keeps_saved_select|intros [|b bs]]; [apply keeps_saved_ret|].
  apply keeps_saved_bind; [|intros _; apply keeps_saved_ret].
  apply keeps_saved_for_each. intros x.
  destruct (workRows !! x); [apply keeps_saved_base|apply keeps_saved_throw].
Qed.
End processing.

(** * Soundness of the tables *)
Abbreviation row_pool := (processType → list OutputAddressAccumulate).

Section sound.
Context `{!AxiaIds}.

(** Both balances are right; [pool] is what the readers have in hand. *)
Record sound (pool : row_pool) (c : content) : Prop := {
  sound_unique : unique_content c;
  sound_balanced typ : balanced typ c;
  sound_ids typ : string_ids (outTable typ) c;
  sound_tracks typ row : row ∈ pool typ → tracks typ c row;
}.

Lemma sound_same pool c c' : c ≡ᶜ c' → sound pool c → sound pool c'.
Proof.
  intros E [Hu Hb Hs Ht]. split.
  - by rewrite <-E.
  - intros typ. by eapply balanced_same.
  - intros typ r Hr. apply (Hs typ). by rewrite (E _).
  - intros typ row Hrow. destruct (Ht typ row Hrow) as (r & Hr & Hrest).
    exists r. by rewrite <-(E _).
Qed.

Lemma sound_marked pool typ ids c c' :
  unique_content c' → balanced typ c' → marked typ ids c c' → sound pool c → sound pool c'.
Proof.
  intros Hu' Hb' Hm [Hu Hb Hs Ht]. split.
  - done.
  - intros typ'. destruct (decide (outTable typ' = outTable typ)) as [E|Hne].
    + by assert (typ' = typ) as -> by by destruct typ, typ'.
    + eapply (balanced_frame typ' c); [done| |done].
      intros t Hin. apply (proj2 (proj2 Hm)).
      all: repeat (apply elem_of_cons in Hin as [->|Hin]); [..|by apply elem_of_nil in Hin];
        by destruct typ, typ'.
  - intros typ'. by eapply string_ids_marked.
  - intros typ' row Hrow. eapply tracks_marked; [done|]. by apply Ht.
Qed.

(** A reader takes rows of the table. *)
Lemma sound_read pool pool' c :
  sound pool c → (∀ typ row, row ∈ pool' typ → tracks typ c row) → sound pool' c.
Proof. intros [Hu Hb Hs _] Ht. by split. Qed.

(** ** Indexing *)
Lemma kept_by_update typ o c c' :
  indexing_update o → pop_effect o c c' → ∀ r, r ∈ c (outTable typ) →
  ∃ r', r' ∈ c' (outTable typ) ∧ same_row r r'.
Proof.
  intros Ho He r Hr. destruct (update_accumulators typ o c c' Ho He) as (h & Hh & Hs).
  exists (h r). split; [|done]. rewrite Hh. apply list_elem_of_fmap. by exists r.
Qed.

Lemma tracks_same_row typ c c' row :
  (∀ r, r ∈ c (outTable typ) → ∃ r', r' ∈ c' (outTable typ) ∧ same_row r r') →
  tracks typ c row → tracks typ c' row.
Proof.
  intros Hk (r & Hr & Hid & Eo & Ea). destruct (Hk r Hr) as (r' & Hr' & _ & E1 & E2 & E3).
  exists r'. unfold has_id, col_str. rewrite E1, E2, E3. done.
Qed.

Lemma entity_string_id e typ :
  entity_table e = outTable typ → let r := new_row (entity_table e) (entity_pairs e) in
  has_id (col_str r "id") r = true.
Proof.
  intros E r. unfold has_id, col_str. apply bool_decide_eq_true. subst r. rewrite lookup_new_row.
  destruct e, typ; try discriminate E; reflexivity.
Qed.

Lemma sound_insert pool e c c' :
  insert_or_keep (entity_table e) (entity_pairs e) c c' → sound pool c → sound pool c'.
Proof.
  intros Hi Hsd. destruct Hi as [Hins|[_ E]]; [|by eapply sound_same].
  destruct Hsd as [Hu Hb Hs Ht]. pose proof Hins as (_ & Htab & Hf). split.
  - by eapply inserted_unique.
  - intros typ. eapply (balanced_insert typ e c); [done|by left|done].
  - intros typ r Hr. destruct (decide (outTable typ = entity_table e)) as [E|Hne].
    + rewrite E, Htab in Hr. apply elem_of_cons in Hr as [->|Hr].
      * by apply (entity_string_id e typ).
      * apply (Hs typ). by rewrite E.
    + apply (Hs typ). by rewrite <-(Hf _ Hne).
  - intros typ row Hrow. eapply tracks_same_row; [|by apply Ht]. intros r Hr. exists r.
    split; [|done]. destruct (decide (outTable typ = entity_table e)) as [E|Hne].
    + rewrite E, Htab. right. by rewrite <-E.
    + by rewrite (Hf _ Hne).
Qed.

Lemma sound_update pool o c c' :
  indexing_update o → unique_content c' → pop_effect o c c' → sound pool c → sound pool c'.
Proof.
  intros Ho Hu' He [Hu Hb Hs Ht]. split.
  - done.
  - intros typ. by eapply balanced_update.
  - intros typ r Hr. destruct (update_accumulators typ o c c' Ho He) as (h & Hh & Hsr).
    rewrite Hh in Hr. apply list_elem_of_fmap in Hr as (x & -> & Hx).
    destruct (Hsr x) as (_ & _ & _ & E). unfold has_id, col_str. rewrite E. by apply (Hs typ).
  - intros typ row Hrow. eapply tracks_same_row; [by eapply (kept_by_update typ o)|by apply Ht].
Qed.

Lemma sound_perform `{SqlEngine D} `{!SqlEngineOk D} pool o (d : D) :
  gentle o → sound pool (rows d) → sound pool (rows (perform o d).1).
Proof.
  intros Hg Hs. pose proof (perform_unique o d (sound_unique _ _ Hs)) as Hu'.
  destruct (perform o d) as [d' [[]|e]] eqn:Hr; simpl in *.
  - apply perform_ok in Hr; [|apply Hs]. destruct o as [e upd| | | | |].
    + simpl in Hg. subst upd. destruct Hr as (c1 & H1 & H2). simpl in H1, H2.
      eapply sound_same; [exact H2|]. by eapply sound_insert.
    + by refine (sound_update _ _ _ _ _ Hu' Hr Hs).
    + by refine (sound_update _ _ _ _ _ Hu' Hr Hs).
    + by refine (sound_update _ _ _ _ _ Hu' Hr Hs).
    + by refine (sound_update _ _ _ _ _ Hu' Hr Hs).
    + by refine (sound_update _ _ _ _ _ Hu' Hr Hs).
  - apply perform_err in Hr as [E|(ps & Hps & Hi)]; [by eapply sound_same|].
    destruct o; try done. simpl in Hps, Hi. injection Hps as <-. by eapply sound_insert.
Qed.
End sound.

(** * One transaction of the manager *)
Section post.
Context `{SqlEngine D} `{!SqlEngineOk D} `{!SqlClock D} `{!SqlClockOk D} `{!AxiaIds}.
Implicit Types d : D.

(** The rows a worker holds are rows a reader read, under their identifiers. *)
Definition drawn (pool : row_pool) (typ : processType)
    (workRows : gmap string OutputAddressAccumulate) : Prop :=
  ∀ id row, workRows !! id = Some row → OutputAddressAccumulate_ID row = id ∧ row ∈ pool typ.

Lemma drawn_empty pool typ : drawn pool typ ∅.
Proof. intros id row E. by rewrite lookup_empty in E. Qed.

Lemma drawn_insert pool typ workRows row :
  drawn pool typ workRows → row ∈ pool typ →
  drawn pool typ (<[OutputAddressAccumulate_ID row := row]> workRows).
Proof.
  intros Hd Hr id row' [[<- <-]|[_ E]]%lookup_insert_Some; [done|]. by apply Hd.
Qed.

Lemma processOutputsPost_effect pool workRows ids typ d d' :
  drawn pool typ workRows → sound pool (rows d) →
  processOutputsPost workRows ids typ d = (d', Ok tt) →
  unique_content (rows d') ∧ balanced typ (rows d') ∧
  ∃ ids', ids' ≡ₚ locked_ids (outTable typ) ids (rows d) ∧ marked typ ids' (rows d) (rows d').
Proof.
  intros Hd Hs Hr. unfold processOutputsPost, in_tx in Hr.
  pose proof (begin_rows d) as Hb. pose proof (λ d1, begin_saved d d1) as Hsv.
  destruct (tx_begin d) as [d1 [[]|e1]]; simpl in Hb; [|done].
  destruct (Hsv _ eq_refl) as (c0 & Hc0 & Ec0). clear Hsv.
  pose proof (keeps_saved_post workRows ids typ d1) as Hk.
  destruct (processOutputsPost_body workRows ids typ d1) as [d2 [b|e2]] eqn:Ebody; simpl in Hk; [|done].
  unfold processOutputsPost_body in Ebody.
  apply bind_Ok_inv in Ebody as (l & d3 & [E3 ->]%select_ok & Ebody).
  assert (rows d ≡ᶜ rows d3) as E03 by (by rewrite Hb).
  pose proof (sound_same _ _ _ E03 Hs) as Hs3.
  destruct (locked_ids (outTable typ) ids (rows d3)) as [|id0 l0] eqn:El.
  - injection Ebody as <- <-. injection Hr as <-.
    assert (rows d ≡ᶜ rows (tx_rollback d3)) as E by (rewrite (rollback_rows d3 c0); [by rewrite Ec0|congruence]).
    split_and!; [rewrite <-E; apply Hs|eapply balanced_same; [exact E|apply Hs..]|].
    exists []. split; [|by apply marked_refl]. by rewrite E03, El.
  - rewrite <-El in Ebody. apply bind_Ok_inv in Ebody as ([] & d4 & Hloop & [= <- <-]).
    pose proof (commit_rows d4) as Hc.
    destruct (tx_commit d4) as [d5 [[]|e3]]; [|done]. injection Hr as <-. simpl in Hc.
    destruct (post_loop_effect typ workRows (locked_ids (outTable typ) ids (rows d3)) d3 d4)
      as (Hu4 & Hb4 & Hm4).
    + intros id row E. by apply Hd.
    + apply locked_nodup; [apply outTable_key|apply Hs3|apply Hs3].
    + apply Hs3.
    + apply Hs3.
    + intros id row Hin E. destruct (Hd _ _ E) as [Eid Hp].
      eapply locked_pending; [apply Hs3|exact Hin|done|by apply (sound_tracks _ _ Hs3)].
    + exact Hloop.
    + split_and!; [by rewrite <-Hc|by eapply balanced_same|].
      exists (locked_ids (outTable typ) ids (rows d3)). split; [by rewrite E03|].
      apply (marked_trans typ [] (locked_ids (outTable typ) ids (rows d3)) _ (rows d3)); [by apply marked_refl|].
      simpl. rewrite <-(app_nil_r (locked_ids (outTable typ) ids (rows d3))).
      eapply (marked_trans typ _ [] _ (rows d4)); [done|by apply marked_refl].
Qed.

(** Whatever a worker does, the balances stay right. *)
Lemma processOutputsPost_sound pool workRows ids typ d :
  drawn pool typ workRows → sound pool (rows d) →
  sound pool (rows (processOutputsPost workRows ids typ d).1).
Proof.
  intros Hd Hs. destruct (processOutputsPost workRows ids typ d) as [d' [[]|e]] eqn:E; simpl.
  - destruct (processOutputsPost_effect _ _ _ _ _ _ Hd Hs E) as (Hu & Hb & ids' & _ & Hm).
    by eapply sound_marked.
  - eapply sound_same; [|exact Hs]. eapply in_tx_err; [apply keeps_saved_post|exact E].
Qed.

(** After a success, none of the rows asked for is left to process. *)
Lemma processOutputsPost_done pool workRows ids typ d d' :
  drawn pool typ workRows → sound pool (rows d) →
  processOutputsPost workRows ids typ d = (d', Ok tt) →
  locked_ids (outTable typ) ids (rows d') = [].
Proof.
  intros Hd Hs E.
  destruct (processOutputsPost_effect _ _ _ _ _ _ Hd Hs E) as (Hu & Hb & ids' & Hp & [Hm _]).
  eapply locked_marked; [apply (sound_ids _ _ Hs)|]. rewrite Hm.
  erewrite map_ext; [reflexivity|]. intros r. unfold mark_ids.
  replace (any_id ids' r) with (any_id (locked_ids (outTable typ) ids (rows d)) r); [done|].
  unfold any_id. apply eq_true_iff_eq. rewrite !existsb_exists.
  split; intros (id & Hin & Hid); exists id; (split; [|done]).
  - apply list_elem_of_In in Hin. apply list_elem_of_In. by rewrite Hp.
  - apply list_elem_of_In in Hin. apply list_elem_of_In. by rewrite <-Hp.
Qed.
End post.
