(* ===== verification/BalanceTxs.v ===== *)
(** The transaction counts of the balances: each counter is the number of the
    transaction accumulators processed for its key. *)

From S2P Require Import Prelude Errors Sql MemDb Axia DbModel Persist Balance BalanceInv BalanceRun.

Lemma txs_key : ["id"] ∈ unique_keys TableOutputTxsAccumulate.
Proof. left. Qed.

(** * Abstract specification *)
Section spec.
Context `{!AxiaIds}.

(** Chain, address and asset of a transaction accumulator. *)
Definition tx_key (r : row) : balance_key :=
  (col_str r "chain_id", col_str r "address", col_str r "asset_id").

Definition tx_contribution (id : string) (r : row) : Z :=
  if decide (key_id (tx_key r) = Ok id) then 1%Z else 0%Z.

(** The processed accumulators of a key. *)
Definition tx_credit (id : string) (c : content) : Z :=
  sum_with (λ r, if is_processed 1 r then tx_contribution id r else 0%Z) (c TableOutputTxsAccumulate).

Definition counted (c : content) : Prop :=
  ∀ id, recorded "transaction_count" TableAccumulateBalancesTransactions id c = tx_credit id c.

(** The row a reader holds is in the table, with the same key. *)
Definition tx_tracks (c : content) (row : OutputTxsAccumulate) : Prop :=
  ∃ r, r ∈ c TableOutputTxsAccumulate ∧ has_id (OutputTxsAccumulate_ID row) r = true ∧
    tx_key r = (OutputTxsAccumulate_ChainID row, OutputTxsAccumulate_Address row,
                OutputTxsAccumulate_AssetID row).

Definition tx_pending (c : content) (row : OutputTxsAccumulate) : Prop :=
  ∃ r, r ∈ c TableOutputTxsAccumulate ∧ has_id (OutputTxsAccumulate_ID row) r = true ∧
    tx_key r = (OutputTxsAccumulate_ChainID row, OutputTxsAccumulate_Address row,
                OutputTxsAccumulate_AssetID row) ∧ is_processed 0 r = true.

(** What processing the rows [ids] does outside of the counters. *)
Definition tx_marked (ids : list string) (c c' : content) : Prop :=
  c' TableOutputTxsAccumulate ≡ₚ map (mark_ids ids) (c TableOutputTxsAccumulate) ∧
  ∀ t, t ≠ TableOutputTxsAccumulate → t ≠ TableAccumulateBalancesTransactions → c' t ≡ₚ c t.

Lemma tx_key_mark ids r : tx_key (mark_ids ids r) = tx_key r.
Proof. unfold tx_key, col_str. by rewrite !mark_ids_ne. Qed.

Lemma tx_marked_refl c c' : c ≡ᶜ c' → tx_marked [] c c'.
Proof.
  intros E. split; [|intros t _ _; by rewrite (E t)].
  rewrite (map_ext (mark_ids []) (λ r, r)) by done. by rewrite map_id, (E _).
Qed.

Lemma tx_marked_trans ids ids' c c1 c2 :
  tx_marked ids c c1 → tx_marked ids' c1 c2 → tx_marked (ids ++ ids') c c2.
Proof.
  intros [H1 F1] [H2 F2]. split.
  - rewrite H2, H1, map_map. by rewrite (map_ext _ _ (mark_ids_app ids ids')).
  - intros t N1 N2. by rewrite (F2 t), (F1 t).
Qed.

Lemma tx_pending_marked ids c c' row :
  tx_marked ids c c' → OutputTxsAccumulate_ID row ∉ ids → tx_pending c row → tx_pending c' row.
Proof.
  intros [Hm _] Hni (r & Hr & Hid & Ek & Hp). exists r.
  assert (mark_ids ids r = r) as Er.
  { unfold mark_ids. destruct (any_id ids r) eqn:E; [|done]. exfalso.
    apply existsb_exists in E as (id & Hin & Hid'). apply Hni.
    by rewrite (has_id_eq _ _ _ Hid Hid'), list_elem_of_In. }
  split_and!; try done. rewrite Hm. apply list_elem_of_fmap. by exists r.
Qed.

Lemma tx_tracks_marked ids c c' row : tx_marked ids c c' → tx_tracks c row → tx_tracks c' row.
Proof.
  intros [Hm _] (r & Hr & Hid & Ek). exists (mark_ids ids r).
  rewrite has_id_mark, tx_key_mark. split_and!; try done.
  rewrite Hm. apply list_elem_of_fmap. by exists r.
Qed.

(** Marking one row adds its contribution. *)
Lemma tx_credit_mark id' id c c' r :
  updated TableOutputTxsAccumulate mark [CEq "id" (VStr id)] c c' → unique_content c →
  r ∈ c TableOutputTxsAccumulate → has_id id r = true → is_processed 0 r = true →
  tx_credit id' c' = (tx_credit id' c + tx_contribution id' r)%Z.
Proof.
  intros [Ht _] Hu Hr Hid Hp. unfold tx_credit. rewrite Ht, sum_with_map.
  rewrite (sum_with_ext _ (λ x, ((if is_processed 1 x then tx_contribution id' x else 0) +
    (if matches [CEq "id" (VStr id)] x then tx_contribution id' r else 0))%Z)).
  - rewrite sum_with_add. f_equal. by eapply sum_with_id; [apply txs_key|..].
  - intros x Hx. unfold update_row. destruct (matches _ x) eqn:Em.
    + rewrite matches_id in Em.
      rewrite (same_id_row _ _ _ x r txs_key Hu Hx Hr Em Hid).
      rewrite is_processed_mark, (is_processed_0_1 r Hp).
      unfold tx_contribution, tx_key, col_str. by rewrite !mark_ne.
    + destruct (is_processed 1 x); lia.
Qed.

Lemma added_one now x :
  col_num (apply_sets [("transaction_count", SetAdd (VNum 1)); ("updated_at", SetVal (vtime now))] x)
    "transaction_count" = (col_num x "transaction_count" + 1)%Z.
Proof.
  unfold col_num. cbn [apply_sets fold_left fst snd set_column].
  rewrite lookup_insert_ne by done. by rewrite lookup_insert_eq.
Qed.

Lemma counted_frame c c' :
  c' TableOutputTxsAccumulate ≡ₚ c TableOutputTxsAccumulate →
  c' TableAccumulateBalancesTransactions ≡ₚ c TableAccumulateBalancesTransactions →
  counted c → counted c'.
Proof.
  intros E1 E2 Hc id. rewrite (recorded_perm _ _ _ c) by done. unfold tx_credit. rewrite E1. apply Hc.
Qed.

(** New accumulators are not processed: the counts are unchanged. *)
Lemma counted_grown c c' :
  txs_grown c c' →
  c' TableAccumulateBalancesTransactions ≡ₚ c TableAccumulateBalancesTransactions →
  counted c → counted c'.
Proof.
  intros (l & E1 & Hl) E2 Hc id. rewrite (recorded_perm _ _ _ c) by done. unfold tx_credit.
  rewrite E1, sum_with_app, (sum_with_0 _ l); [apply Hc|].
  intros r Hr. by rewrite (proj1 (Hl r Hr)).
Qed.
End spec.

(** * Processing *)
Section processing.
Context `{SqlEngine D} `{!SqlEngineOk D} `{!SqlClock D} `{!SqlClockOk D} `{!AxiaIds}.
Implicit Types d : D.

Lemma insert_transactions_effect b d d' :
  unique_content (rows d) → InsertAccumulateBalancesTransactions b d = (d', Ok tt) →
  unique_content (rows d') ∧
  insert_or_keep TableAccumulateBalancesTransactions (AccumulateBalancesTransactions_pairs b)
    (rows d) (rows d') ∧
  ∃ r, r ∈ rows d' TableAccumulateBalancesTransactions ∧
    has_id (AccumulateBalancesTransactions_ID b) r = true.
Proof.
  intros Hu E. pose proof (perform_unique (PInsert (EAccumulateBalancesTransactions b) false) d Hu) as Hp.
  unfold perform in Hp. cbn [sql_persist insert_entity] in Hp. rewrite E in Hp.
  apply insert_ignore_dup_ok in E. split_and!; [exact Hp|exact E|].
  apply (clashes_id TableAccumulateBalancesTransactions (new_row TableAccumulateBalancesTransactions
    (AccumulateBalancesTransactions_pairs b))); [done|by rewrite lookup_new_row|].
  by apply (insert_or_keep_clashes _ _ (rows d)).
Qed.

Lemma processTransactionsBase_effect row d d' :
  unique_content (rows d) → counted (rows d) → tx_pending (rows d) row →
  processTransactionsBase row d = (d', Ok tt) →
  unique_content (rows d') ∧ counted (rows d') ∧
  tx_marked [OutputTxsAccumulate_ID row] (rows d) (rows d').
Proof.
  intros Hu Hct (r & Hr & Hid & Ek & Hp0). unfold processTransactionsBase.
  intros ([] & d1 & E1 & Hrest)%bind_Ok_inv.
  apply bind_Ok_inv in Hrest as (b & d2 & E2 & Hrest). injection E2 as <- Eb.
  apply bind_Ok_inv in Hrest as ([] & d3 & E3 & Hrest).
  apply bind_Ok_inv in Hrest as ([] & d4 & E4%lock_balance_ok & Hrest).
  apply bind_Ok_inv in Hrest as (now & d5 & E5%now_rows & Hrest).
  apply exec_update in E1 as [Hm Hu1].
  assert (unique_content (rows d1)) as Hud1.
  { intros t. destruct (decide (t = TableOutputTxsAccumulate)) as [->|Ht]; [apply Hu1, Hu|].
    rewrite (proj2 Hm t Ht). apply Hu. }
  unfold AccumulateBalancesTransactions_ComputeID in Eb. simpl in Eb.
  destruct (hashed_id _) as [id|] eqn:Eid; [|done]. simpl in Eb. injection Eb as <-.
  apply insert_transactions_effect in E3 as (Hu3 & Hi & x & Hx & Hxid); [|done]. simpl in Hxid, Hi.
  assert (rows d3 ≡ᶜ rows d5) as E35 by (by rewrite E4).
  pose proof (exec_unique (add_transaction
    (mkAccumulateBalancesTransactions id (OutputTxsAccumulate_ChainID row)
       (OutputTxsAccumulate_AssetID row) (OutputTxsAccumulate_Address row) "" unix_1) now) d5) as Hux.
  rewrite Hrest in Hux. assert (unique_content (rows d5)) as Hu5 by (by rewrite <-E35).
  apply exec_update in Hrest as [Hupd _]. simpl in Hupd.
  assert (∀ t, t ≠ TableAccumulateBalancesTransactions → rows d' t ≡ₚ rows d1 t) as Hf.
  { intros t Ht. rewrite (proj2 Hupd t Ht), <-(E35 t).
    destruct Hi as [(_ & _ & Hf')|[_ E]]; [by apply Hf'|by rewrite (E t)]. }
  split_and!; [by apply Hux| |split].
  - intros id'. rewrite (recorded_add "transaction_count" _ id id' 1 _ _ _ x Hupd ltac:(left) (Hu5 _));
      [|by rewrite <-(E35 _)|done| |intros y; apply added_one].
    2: { simpl. intros Hin. repeat (apply elem_of_cons in Hin as [Hin|Hin]; [discriminate Hin|]).
         by apply elem_of_nil in Hin. }
    rewrite (recorded_perm _ _ _ (rows d3)) by (by rewrite (E35 _)).
    rewrite (recorded_insert _ _ id' _ _ _ Hi) by (unfold col_num; by rewrite lookup_new_row).
    rewrite (recorded_perm _ _ _ (rows d)) by by apply (proj2 Hm).
    rewrite (Hct id'). transitivity (tx_credit id' (rows d1)).
    + rewrite (tx_credit_mark id' _ _ _ r Hm Hu Hr Hid Hp0). f_equal.
      unfold tx_contribution. rewrite Ek. change (key_id (OutputTxsAccumulate_ChainID row,
        OutputTxsAccumulate_Address row, OutputTxsAccumulate_AssetID row) = Ok id) in Eid.
      rewrite Eid. destruct (decide (Ok id = Ok id')) as [?|?], (decide (id' = id)) as [?|?]; congruence.
    + unfold tx_credit. by rewrite (Hf TableOutputTxsAccumulate).
  - rewrite (Hf TableOutputTxsAccumulate) by done. rewrite (proj1 Hm).
    erewrite map_ext; [reflexivity|]. intros y. unfold mark_ids, update_row, any_id. simpl.
    by rewrite <-matches_id, orb_false_r.
  - intros t H1 H2. rewrite (Hf t H2). by apply (proj2 Hm).
Qed.

Lemma tx_loop_effect (workRows : gmap string OutputTxsAccumulate) ids d d' :
  (∀ id row, workRows !! id = Some row → OutputTxsAccumulate_ID row = id) →
  NoDup ids → unique_content (rows d) → counted (rows d) →
  (∀ id row, id ∈ ids → workRows !! id = Some row → tx_pending (rows d) row) →
  for_each ids (λ id, match workRows !! id with
                      | None => throw nil_row
                      | Some row => processTransactionsBase row
                      end) d = (d', Ok tt) →
  unique_content (rows d') ∧ counted (rows d') ∧ tx_marked ids (rows d) (rows d').
Proof.
  intros Hids. revert d. induction ids as [|id ids IH]; intros d Hnd Hu Hb Hp Hr.
  - injection Hr as <-. split_and!; [done|done|by apply tx_marked_refl].
  - cbn [for_each] in Hr. apply bind_Ok_inv in Hr as ([] & d1 & H1 & H2).
    apply NoDup_cons in Hnd as [Hni Hnd].
    destruct (workRows !! id) as [row|] eqn:Ew; [|done]. pose proof (Hids _ _ Ew) as Eid.
    destruct (processTransactionsBase_effect row d d1 Hu Hb) as (Hu1 & Hb1 & Hm1);
      [by apply (Hp id); [left|]|done|].
    destruct (IH d1 Hnd Hu1 Hb1) as (Hu2 & Hb2 & Hm2); [|done|].
    + intros id' row' Hin Ew'. eapply (tx_pending_marked _ _ _ _ Hm1).
      * intros [E|Hn]%elem_of_cons; [|by apply elem_of_nil in Hn].
        rewrite (Hids _ _ Ew'), Eid in E. by subst id'.
      * by apply (Hp id'); [right|].
    + split_and!; [done|done|]. rewrite Eid in Hm1. by eapply (tx_marked_trans [id]).
Qed.

Lemma keeps_saved_tx_base row : keeps_saved (D:=D) (processTransactionsBase row).
Proof.
  unfold processTransactionsBase.
  apply keeps_saved_bind; [apply keeps_saved_exec|intros _].
  apply keeps_saved_bind; [apply keeps_saved_lift|intros b].
  apply keeps_saved_bind; [|intros _].
  { intros d. apply (keeps_saved_perform (PInsert (EAccumulateBalancesTransactions b) false)). }
  apply keeps_saved_bind; [apply keeps_saved_lock|intros _].
  apply keeps_saved_bind; [apply keeps_saved_now|intros t]. apply keeps_saved_exec.
Qed.

Lemma keeps_saved_tx_post workRows ids :
  keeps_saved (D:=D) (processTransactionsPost_body workRows ids).
Proof.
  unfold processTransactionsPost_body.
  apply keeps_saved_bind; [apply keeps_saved_select|intros [|b bs]]; [apply keeps_saved_ret|].
  apply keeps_saved_bind; [|intros _; apply keeps_saved_ret].
  apply keeps_saved_for_each. intros x.
  destruct (workRows !! x); [apply keeps_saved_tx_base|apply keeps_saved_throw].
Qed.
End processing.
