(* ===== verification/BalanceSystem.v ===== *)
(** The indexer and the balance manager together: every interleaving of their
    transactions keeps the balances and the counts right. *)

From S2P Require Import Prelude Errors Sql MemDb Axia DbModel Persist Prog Writer Balance BalanceInv BalanceRun BalanceTxs.

(** * The invariant *)
Section accounts.
Context `{!AxiaIds}.

(** [sound] for the balances, and the same for the transaction counts;
    [txs] is what the readers of transaction accumulators hold. *)
Record accounts_sound (pool : row_pool) (txs : list OutputTxsAccumulate) (c : content) : Prop := {
  accounts_balances : sound pool c;
  accounts_counted : counted c;
  accounts_ids : string_ids TableOutputTxsAccumulate c;
  accounts_tracks row : row ∈ txs → tx_tracks c row;
}.

Lemma accounts_same pool txs c c' :
  c ≡ᶜ c' → accounts_sound pool txs c → accounts_sound pool txs c'.
Proof.
  intros E [Hs Hc Hi Ht]. split.
  - by eapply sound_same.
  - by eapply (counted_frame c); [rewrite (E _)..|].
  - intros r Hr. apply Hi. by rewrite (E _).
  - intros row Hrow. destruct (Ht row Hrow) as (r & Hr & Hrest). exists r. by rewrite <-(E _).
Qed.

(** A transaction of [processOutputsPost]. *)
Lemma accounts_marked pool txs typ ids c c' :
  unique_content c' → balanced typ c' → marked typ ids c c' →
  accounts_sound pool txs c → accounts_sound pool txs c'.
Proof.
  intros Hu Hb Hm [Hs Hc Hi Ht]. pose proof Hm as (_ & Hg & Hf). split.
  - by eapply sound_marked.
  - eapply counted_grown; [done| |done]. by apply Hf; destruct typ.
  - destruct Hg as (l & El & Hl). intros r Hr. rewrite El in Hr.
    apply elem_of_app in Hr as [Hr|Hr]; [by apply Hl|by apply Hi].
  - intros row Hrow. destruct (Ht row Hrow) as (r & Hr & Hrest). exists r. split; [|done].
    destruct Hg as (l & El & Hl). rewrite El. apply elem_of_app. by right.
Qed.

(** A transaction of [processTransactionsPost]. *)
Lemma sound_frame pool c c' :
  unique_content c' → (∀ typ t, t ∈ balance_tables typ → c' t ≡ₚ c t) → sound pool c → sound pool c'.
Proof.
  intros Hu' Hf [Hu Hb Hs Ht]. split.
  - done.
  - intros typ. by eapply balanced_frame; [..|apply Hb]; [|intros; by apply (Hf typ)].
  - intros typ r Hr. apply (Hs typ). rewrite <-(Hf typ (outTable typ)); [done|left].
  - intros typ row Hrow. destruct (Ht typ row Hrow) as (r & Hr & Hrest). exists r.
    split; [|done]. rewrite (Hf typ (outTable typ)); [done|left].
Qed.

Lemma accounts_tx_marked pool txs ids c c' :
  unique_content c' → counted c' → tx_marked ids c c' →
  accounts_sound pool txs c → accounts_sound pool txs c'.
Proof.
  intros Hu Hb Hm [Hs Hc Hi Ht]. pose proof Hm as [Htab Hf]. split.
  - eapply sound_frame; [done| |done]. intros typ t Hin. apply Hf.
    all: repeat (apply elem_of_cons in Hin as [->|Hin]); [..|by apply elem_of_nil in Hin];
      by destruct typ.
  - done.
  - intros r Hr. rewrite Htab in Hr. apply list_elem_of_fmap in Hr as (x & -> & Hx).
    rewrite has_id_mark. unfold col_str. rewrite mark_ids_ne by done. by apply Hi.
  - intros row Hrow. eapply tx_tracks_marked; [done|]. by apply Ht.
Qed.

(** Indexing. *)
Lemma txs_grown_entity e c c' :
  insert_or_keep (entity_table e) (entity_pairs e) c c' → txs_grown c c'.
Proof.
  intros Hi. destruct (decide (entity_table e = TableOutputTxsAccumulate)) as [E|Hne].
  - destruct e; try discriminate E. by eapply txs_grown_insert.
  - apply txs_grown_same. destruct Hi as [(_ & _ & Hf)|[_ E]]; [by apply Hf|by rewrite (E _)].
Qed.

Lemma accounts_insert pool txs e c c' :
  insert_or_keep (entity_table e) (entity_pairs e) c c' →
  accounts_sound pool txs c → accounts_sound pool txs c'.
Proof.
  intros Hi [Hs Hc Hids Ht].
  destruct (txs_grown_entity e c c' Hi) as (l & El & Hl). split.
  - by eapply sound_insert.
  - intros id. unfold tx_credit. rewrite El, sum_with_app, (sum_with_0 _ l), Z.add_0_l.
    + transitivity (recorded "transaction_count" TableAccumulateBalancesTransactions id c); [|apply Hc].
      destruct (decide (entity_table e = TableAccumulateBalancesTransactions)) as [E|Hne].
      * rewrite <-E. eapply recorded_insert; [done|]. unfold col_num. rewrite lookup_new_row.
        by destruct e; try discriminate E.
      * apply recorded_perm. destruct Hi as [(_ & _ & Hf)|[_ E]]; [by apply Hf|by rewrite (E _)].
    + intros r Hr. by rewrite (proj1 (Hl r Hr)).
  - intros r Hr. rewrite El in Hr. apply elem_of_app in Hr as [Hr|Hr]; [by apply Hl|by apply Hids].
  - intros row Hrow. destruct (Ht row Hrow) as (r & Hr & Hrest). exists r. split; [|done].
    rewrite El. apply elem_of_app. by right.
Qed.

Lemma update_not_txs o :
  indexing_update o → pop_table o ≠ TableOutputTxsAccumulate ∧
    pop_table o ≠ TableAccumulateBalancesTransactions.
Proof. by destruct o. Qed.

Lemma accounts_update pool txs o c c' :
  indexing_update o → unique_content c' → pop_effect o c c' →
  accounts_sound pool txs c → accounts_sound pool txs c'.
Proof.
  intros Ho Hu He [Hs Hc Hids Ht]. destruct (update_not_txs o Ho) as [N1 N2].
  assert (c' TableOutputTxsAccumulate ≡ₚ c TableOutputTxsAccumulate) as E1 by by eapply pop_effect_frame.
  assert (c' TableAccumulateBalancesTransactions ≡ₚ c TableAccumulateBalancesTransactions) as E2
    by by eapply pop_effect_frame.
  split.
  - by eapply sound_update.
  - by eapply (counted_frame c).
  - intros r Hr. rewrite E1 in Hr. by apply Hids.
  - intros row Hrow. destruct (Ht row Hrow) as (r & Hr & Hrest). exists r. by rewrite E1.
Qed.

Lemma accounts_perform `{SqlEngine D} `{!SqlEngineOk D} pool txs o (d : D) :
  gentle o → accounts_sound pool txs (rows d) → accounts_sound pool txs (rows (perform o d).1).
Proof.
  intros Hg Hs. pose proof (sound_unique _ _ (accounts_balances _ _ _ Hs)) as Hu.
  pose proof (perform_unique o d Hu) as Hu'.
  destruct (perform o d) as [d' [[]|e]] eqn:Hr; simpl in *.
  - apply perform_ok in Hr; [|done]. destruct o as [e upd| | | | |].
    1: { simpl in Hg. subst upd. destruct Hr as (c1 & H1 & H2). simpl in H1, H2.
         eapply accounts_same; [exact H2|]. by eapply accounts_insert. }
    all: refine (accounts_update _ _ _ _ _ _ Hu' Hr Hs); exact I.
  - apply perform_err in Hr as [E|(ps & Hps & Hi)]; [by eapply accounts_same|].
    destruct o; try done. simpl in Hps, Hi. injection Hps as <-. by eapply accounts_insert.
Qed.

(** Empty tables are sound. *)
Lemma accounts_empty c :
  (∀ t, c t = []) → accounts_sound (λ _, []) [] c.
Proof.
  intros Hc. assert (unique_content c) as Hu.
  { intros t k _. rewrite Hc. constructor. }
  split; [split|..].
  - done.
  - intros typ. split.
    + intros id. unfold recorded, credit. by rewrite !Hc.
    + intros id. unfold recorded, credit. by rewrite !Hc.
    + intros r Hr. rewrite Hc in Hr. by apply elem_of_nil in Hr.
  - intros typ r Hr. rewrite Hc in Hr. by apply elem_of_nil in Hr.
  - intros typ row Hr. by apply elem_of_nil in Hr.
  - intros id. unfold recorded, tx_credit. by rewrite !Hc.
  - intros r Hr. rewrite Hc in Hr. by apply elem_of_nil in Hr.
  - intros row Hr. by apply elem_of_nil in Hr.
Qed.
End accounts.

(** * The transactions of the manager *)
Section transactions.
Context `{SqlEngine D} `{!SqlEngineOk D} `{!SqlClock D} `{!SqlClockOk D} `{!AxiaIds}.
Implicit Types d : D.

Lemma accounts_processOutputsPost pool txs workRows ids typ d :
  drawn pool typ workRows → accounts_sound pool txs (rows d) →
  accounts_sound pool txs (rows (processOutputsPost workRows ids typ d).1).
Proof.
  intros Hd Hs. pose proof (accounts_balances _ _ _ Hs) as Hsd.
  destruct (processOutputsPost workRows ids typ d) as [d' [[]|e]] eqn:E; simpl.
  - destruct (processOutputsPost_effect _ _ _ _ _ _ Hd Hsd E) as (Hu & Hb & ids' & _ & Hm).
    by eapply accounts_marked.
  - eapply accounts_same; [|exact Hs]. eapply in_tx_err; [apply keeps_saved_post|exact E].
Qed.

Definition tx_drawn (txs : list OutputTxsAccumulate) (workRows : gmap string OutputTxsAccumulate) : Prop :=
  ∀ id row, workRows !! id = Some row → OutputTxsAccumulate_ID row = id ∧ row ∈ txs.

Lemma tx_drawn_empty txs : tx_drawn txs ∅.
Proof. intros id row E. by rewrite lookup_empty in E. Qed.

Lemma tx_drawn_insert txs workRows row :
  tx_drawn txs workRows → row ∈ txs →
  tx_drawn txs (<[OutputTxsAccumulate_ID row := row]> workRows).
Proof. intros Hd Hr id row' [[<- <-]|[_ E]]%lookup_insert_Some; [done|]. by apply Hd. Qed.

Lemma tx_body_effect pool txs workRows ids d d' :
  tx_drawn txs workRows → accounts_sound pool txs (rows d) →
  processTransactionsPost_body workRows ids d = (d', Ok true) →
  accounts_sound pool txs (rows d').
Proof.
  intros Hd Hs Hr. unfold processTransactionsPost_body in Hr.
  apply bind_Ok_inv in Hr as (l & d1 & [E1 ->]%select_ok & Hr).
  pose proof (accounts_same _ _ _ _ E1 Hs) as Hs1.
  pose proof (sound_unique _ _ (accounts_balances _ _ _ Hs1)) as Hu1.
  set (l := locked_ids TableOutputTxsAccumulate ids (rows d1)) in *.
  assert (∃ d2, for_each l (λ id, match workRows !! id with
      | None => throw nil_row | Some row => processTransactionsBase row end) d1 = (d2, Ok tt) ∧ d2 = d')
    as (d2 & Hloop & ->).
  { destruct l as [|id0 l0]; [done|]. apply bind_Ok_inv in Hr as ([] & d2 & Hloop & [= <-]).
    by exists d2. }
  destruct (tx_loop_effect workRows l d1 d') as (Hu2 & Hc2 & Hm2); [|apply locked_nodup|..]; try done.
  - intros id row E. by apply Hd.
  - apply txs_key.
  - apply (accounts_ids _ _ _ Hs1).
  - apply (accounts_counted _ _ _ Hs1).
  - intros id row Hin E. destruct (Hd _ _ E) as [<- Hp].
    destruct (accounts_tracks _ _ _ Hs1 row Hp) as (r & Hrin & Hid & Ek). exists r.
    split_and!; try done. by eapply locked_unprocessed; [apply txs_key|..].
  - by eapply accounts_tx_marked.
Qed.

Lemma accounts_processTransactionsPost pool txs workRows ids d :
  tx_drawn txs workRows → accounts_sound pool txs (rows d) →
  accounts_sound pool txs (rows (processTransactionsPost workRows ids d).1).
Proof.
  intros Hd Hs. destruct (processTransactionsPost workRows ids d) as [d' [[]|e]] eqn:E; simpl.
  - destruct (in_tx_ok _ _ _ (keeps_saved_tx_post workRows ids) E) as [E'|(d1 & d2 & E1 & Hb & E2)].
    + by eapply accounts_same.
    + eapply accounts_same; [exact E2|]. eapply tx_body_effect; [done| |exact Hb].
      by eapply accounts_same.
  - eapply accounts_same; [|exact Hs]. eapply in_tx_err; [apply keeps_saved_tx_post|exact E].
Qed.

(** An indexing transaction. *)
Lemma accounts_consume clock p pool txs d :
  emits gentle p → accounts_sound pool txs (rows d) →
  accounts_sound pool txs (rows (consume clock p d).1).
Proof.
  intros Hg Hs. destruct (consume clock p d) as [d' [[]|e]] eqn:E; simpl.
  - destruct (in_tx_ok _ _ _ (keeps_saved_consume_body clock p) E) as [E'|(d1 & d2 & E1 & Hb & E2)].
    + by eapply accounts_same.
    + eapply accounts_same; [exact E2|]. apply bind_Ok_inv in Hb as ([] & d3 & Hr & [= <-]).
      pose proof (run_store_invariant clock (λ d, accounts_sound pool txs (rows d)) gentle p d1 Hg) as Hi.
      rewrite Hr in Hi. apply Hi; [intros; by apply accounts_perform|by eapply accounts_same].
  - eapply accounts_same; [|exact Hs]. by eapply consume_err.
Qed.
End transactions.

(** * Readers *)
Section readers.
Context `{!AxiaIds}.

Lemma elem_of_insert_by_created r x l : x ∈ insert_by_created r l ↔ x = r ∨ x ∈ l.
Proof.
  induction l as [|y l IH]; simpl.
  - rewrite list_elem_of_singleton. split; [by left|intros [?|Hn]; [done|by apply elem_of_nil in Hn]].
  - destruct (_ <=? _)%Z; rewrite !elem_of_cons; [done|]. rewrite IH. tauto.
Qed.

Lemma elem_of_order_by_created x l : x ∈ order_by_created l ↔ x ∈ l.
Proof.
  induction l as [|y l IH]; simpl; [done|].
  by rewrite elem_of_insert_by_created, IH, elem_of_cons.
Qed.

Lemma elem_of_take_order x n l : x ∈ take n (order_by_created l) → x ∈ l.
Proof.
  intros Hx. apply elem_of_order_by_created. rewrite <-(take_drop n (order_by_created l)).
  apply elem_of_app. by left.
Qed.

Lemma elem_of_join {A} (f : row → list A) (l : list row) x :
  x ∈ flat_map (λ r, map (λ _, r) (f r)) l → x ∈ l.
Proof.
  intros Hx. apply list_elem_of_In, in_flat_map in Hx as (r & Hr & Hx).
  apply in_map_iff in Hx as (_ & <- & _). by apply list_elem_of_In.
Qed.

Lemma elem_of_filter_bool {A} (f : A → bool) (l : list A) x : x ∈ List.filter f l → x ∈ l ∧ f x = true.
Proof. intros [? ?]%list_elem_of_In%filter_In. split; [by apply list_elem_of_In|done]. Qed.

(** The rows [processOutputsPre] reads are rows of the accumulator table. *)
Lemma processOutputsPre_tracks flag typ c row :
  string_ids (outTable typ) c → row ∈ processOutputsPre_query flag typ c → tracks typ c row.
Proof.
  intros Hs Hin. unfold processOutputsPre_query in Hin.
  apply list_elem_of_fmap in Hin as ([r o] & -> & Hin).
  assert (r ∈ c (outTable typ)) as Hr.
  { assert (∃ l, (r, o) ∈ flat_map (λ r, map (λ o, (r, o)) (join_id r (c TableOutputs)))
        (take RowLimitValue (order_by_created l)) ∧ ∀ x, x ∈ l → x ∈ c (outTable typ)) as (l & Hl & Hsub).
    { destruct typ.
      - eexists. split.
        + apply list_elem_of_In, in_flat_map in Hin as (ro & Hro & Hin).
          apply in_map_iff in Hin as (_ & -> & _). apply list_elem_of_In. exact Hro.
        + intros x Hx. destruct flag.
          * apply elem_of_filter_bool in Hx as [Hx _]. apply elem_of_join in Hx.
            by apply elem_of_filter_bool in Hx as [Hx _].
          * apply elem_of_join in Hx. apply elem_of_join in Hx.
            by apply elem_of_filter_bool in Hx as [Hx _].
      - eexists. split; [exact Hin|]. intros x Hx. apply elem_of_join in Hx.
        by apply elem_of_filter_bool in Hx as [Hx _]. }
    apply list_elem_of_In, in_flat_map in Hl as (x & Hx & Hl).
    apply in_map_iff in Hl as (y & [= -> ->] & _). apply list_elem_of_In in Hx.
    apply elem_of_take_order in Hx. by apply Hsub. }
  exists r. by split_and!; [|apply Hs| |].
Qed.

Lemma processTransactionsPre_tracks c row :
  string_ids TableOutputTxsAccumulate c → row ∈ processTransactionsPre_query c → tx_tracks c row.
Proof.
  intros Hs Hin. unfold processTransactionsPre_query in Hin.
  apply list_elem_of_fmap in Hin as (r & -> & Hin). apply elem_of_take_order in Hin.
  apply elem_of_filter_bool in Hin as [Hr _]. exists r. by split_and!; [|apply Hs|].
Qed.
End readers.

(** * Interleavings *)
Section system.
Context `{SqlEngine D} `{!SqlEngineOk D} `{!SqlClock D} `{!SqlClockOk D} `{!AxiaIds}.
Context (shuffle : list OutputAddressAccumulate → list OutputAddressAccumulate).
Context (shuffleTxs : list OutputTxsAccumulate → list OutputTxsAccumulate).
(** [rand.Shuffle] permutes. *)
Context (shuffle_perm : ∀ l, shuffle l ≡ₚ l) (shuffleTxs_perm : ∀ l, shuffleTxs l ≡ₚ l).

(** The database, and the rows the workers have read and not forgotten. *)
Record world := mkWorld { w_db : D; w_rows : row_pool; w_txs : list OutputTxsAccumulate }.

Definition add_rows (pool : row_pool) (typ : processType) (l : list OutputAddressAccumulate) : row_pool :=
  λ typ', match typ, typ' with
          | processTypeIn, processTypeIn | processTypeOut, processTypeOut => l ++ pool typ'
          | _, _ => pool typ'
          end.

Lemma add_rows_more pool typ l typ' row : row ∈ pool typ' → row ∈ add_rows pool typ l typ'.
Proof. intros Hrow. destruct typ, typ'; simpl; try done; apply elem_of_app; by right. Qed.

Lemma add_rows_in pool typ l row : row ∈ l → row ∈ add_rows pool typ l typ.
Proof. intros Hrow. destruct typ; simpl; apply elem_of_app; by left. Qed.

(** Any worker may take the next step; a worker may read rows, sleep, and
    process them long after another one has. *)
Inductive manager_step : world → world → Prop :=
| step_read flag typ w d l : processOutputsPre shuffle flag typ (w_db w) = (d, Ok l) →
    manager_step w (mkWorld d (add_rows (w_rows w) typ l) (w_txs w))
| step_read_failed flag typ w d e : processOutputsPre shuffle flag typ (w_db w) = (d, Err e) →
    manager_step w (mkWorld d (w_rows w) (w_txs w))
| step_process typ workRows ids w : drawn (w_rows w) typ workRows →
    manager_step w (mkWorld (processOutputsPost workRows ids typ (w_db w)).1 (w_rows w) (w_txs w))
| step_read_txs w d l : processTransactionsPre shuffleTxs (w_db w) = (d, Ok l) →
    manager_step w (mkWorld d (w_rows w) (l ++ w_txs w))
| step_read_txs_failed w d e : processTransactionsPre shuffleTxs (w_db w) = (d, Err e) →
    manager_step w (mkWorld d (w_rows w) (w_txs w))
| step_process_txs workRows ids w : tx_drawn (w_txs w) workRows →
    manager_step w (mkWorld (processTransactionsPost workRows ids (w_db w)).1 (w_rows w) (w_txs w)).

(** With the writes of the indexing in between, alone or in a transaction. *)
Inductive step : world → world → Prop :=
| step_write o w : gentle o →
    step w (mkWorld (perform o (w_db w)).1 (w_rows w) (w_txs w))
| step_consume clock p w : emits gentle p →
    step w (mkWorld (consume clock p (w_db w)).1 (w_rows w) (w_txs w))
| step_manager w w' : manager_step w w' → step w w'.

Definition world_sound (w : world) : Prop := accounts_sound (w_rows w) (w_txs w) (rows (w_db w)).

Lemma accounts_add_rows pool txs typ l c :
  (∀ row, row ∈ l → tracks typ c row) → accounts_sound pool txs c →
  accounts_sound (add_rows pool typ l) txs c.
Proof.
  intros Hl [Hs Hc Hi Ht]. split; [|done..]. eapply sound_read; [exact Hs|].
  intros typ' row Hrow. pose proof (sound_tracks _ _ Hs typ' row) as Hk.
  destruct typ, typ'; simpl in Hrow; auto; apply elem_of_app in Hrow as [Hrow|Hrow]; auto.
Qed.

Lemma accounts_add_txs pool txs l c :
  (∀ row, row ∈ l → tx_tracks c row) → accounts_sound pool txs c →
  accounts_sound pool (l ++ txs) c.
Proof.
  intros Hl [Hs Hc Hi Ht]. split; [done..|]. intros row [Hrow|Hrow]%elem_of_app; auto.
Qed.

Lemma select_perm_rows {A} (q : content → A) (f : A → A) (d d' : D) r :
  (select q ≫= λ l, mret (f l)) d = (d', r) →
  rows d ≡ᶜ rows d' ∧ ∀ a, r = Ok a → a = f (q (rows d')).
Proof.
  rewrite bind_run. pose proof (select_rows q d) as Hr.
  destruct (select q d) as [d1 [a|e]] eqn:E; simpl in *; intros [= <- <-]; (split; [done|]).
  - intros a' [= <-]. apply select_ok in E as [_ ->]. done.
  - done.
Qed.

(** Every step keeps the accounts. *)
Lemma step_sound w w' : step w w' → world_sound w → world_sound w'.
Proof.
  unfold world_sound. intros Hst Hs. destruct Hst as [o w Ho|clock p w Hp|w w' Hm]; simpl;
    [by apply accounts_perform|by apply accounts_consume|]. destruct Hm; simpl.
  - apply select_perm_rows in H1 as [E Hl]. specialize (Hl _ eq_refl) as ->.
    pose proof (accounts_same _ _ _ _ E Hs) as Hs'. apply accounts_add_rows; [|done].
    intros row Hrow. rewrite shuffle_perm in Hrow.
    eapply processOutputsPre_tracks; [|exact Hrow]. apply (accounts_balances _ _ _ Hs').
  - apply select_perm_rows in H1 as [E _]. by eapply accounts_same.
  - by apply accounts_processOutputsPost.
  - apply select_perm_rows in H1 as [E Hl]. specialize (Hl _ eq_refl) as ->.
    pose proof (accounts_same _ _ _ _ E Hs) as Hs'. apply accounts_add_txs; [|done].
    intros row Hrow. rewrite shuffleTxs_perm in Hrow.
    eapply processTransactionsPre_tracks; [|exact Hrow]. apply (accounts_ids _ _ _ Hs').
  - apply select_perm_rows in H1 as [E _]. by eapply accounts_same.
  - by apply accounts_processTransactionsPost.
Qed.

Lemma steps_sound w w' : rtc step w w' → world_sound w → world_sound w'.
Proof. induction 1 as [|w w1 w' Hst _ IH]; [done|]. intros Hs. by eapply IH, step_sound. Qed.
End system.

(** * The loops are made of these steps *)
Section loops.
Context `{SqlEngine D} `{!SqlEngineOk D} `{!SqlClock D} `{!SqlClockOk D} `{!AxiaIds}.
Context (shuffle : list OutputAddressAccumulate → list OutputAddressAccumulate).
Context (shuffleTxs : list OutputTxsAccumulate → list OutputTxsAccumulate).
Implicit Types d : D.

Abbreviation steps := (rtc (step (D:=D) shuffle shuffleTxs)).

Lemma repeat_steps fuel typ workRows ids pool txs d d' r :
  drawn pool typ workRows →
  RepeatForLock fuel (processOutputsPost workRows ids typ) d = Some (d', r) →
  steps (mkWorld d pool txs) (mkWorld d' pool txs).
Proof.
  intros Hd Hr. eapply (RepeatForLock_invariant _ (λ s, steps (mkWorld d pool txs) (mkWorld s pool txs)));
    [|reflexivity|exact Hr].
  intros s Hs. eapply rtc_r; [exact Hs|].
  exact (step_manager _ _ _ _ (step_process shuffle shuffleTxs typ workRows ids (mkWorld s pool txs) Hd)).
Qed.

Lemma loop_steps fuel typ pool txs rest :
  (∀ row, row ∈ rest → row ∈ pool typ) → ∀ trows ids d d' r,
  drawn pool typ trows →
  processOutputs_loop fuel typ trows ids rest d = Some (d', r) →
  steps (mkWorld d pool txs) (mkWorld d' pool txs).
Proof.
  induction rest as [|row rest IH]; intros Hrest trows ids d d' r Hd Hr; simpl in Hr.
  - case_match; [by eapply repeat_steps|]. by injection Hr as <- _.
  - assert (drawn pool typ (<[OutputAddressAccumulate_ID row:=row]> trows)) as Hd'
      by (apply drawn_insert; [done|apply Hrest; left]).
    specialize (IH ltac:(intros; apply Hrest; by right)).
    destruct (LockSize <? _); [|by eapply IH].
    destruct (RepeatForLock _ _ d) as [[d1 [[]|e]]|] eqn:E; [| |done].
    + etrans; [by eapply repeat_steps|]. eapply IH; [apply drawn_empty|done].
    + injection Hr as <- _. by eapply repeat_steps.
Qed.

(** [processOutputs] is a sequence of steps of the system. *)
Lemma processOutputs_steps fuel flag typ pool txs d d' r :
  processOutputs shuffle fuel flag typ d = Some (d', r) →
  ∃ pool', (∀ typ' row, row ∈ pool typ' → row ∈ pool' typ') ∧
    steps (mkWorld d pool txs) (mkWorld d' pool' txs).
Proof.
  unfold processOutputs.
  destruct (processOutputsPre shuffle flag typ d) as [d1 [l|e]] eqn:E1.
  - destruct (processOutputs_loop fuel typ ∅ [] l d1) as [[d2 r2]|] eqn:E2; [|done].
    intros Hr. assert (d2 = d') as -> by (by destruct r2; injection Hr).
    exists (add_rows pool typ l). split; [apply add_rows_more|]. eapply rtc_l.
    + exact (step_manager _ _ _ _ (step_read shuffle shuffleTxs flag typ (mkWorld d pool txs) d1 l E1)).
    + simpl. eapply loop_steps; [|apply drawn_empty|exact E2].
      intros row Hrow. destruct typ; simpl; apply elem_of_app; by left.
  - intros [= <- _]. exists pool. split; [done|]. apply rtc_once.
    exact (step_manager _ _ _ _ (step_read_failed shuffle shuffleTxs flag typ (mkWorld d pool txs) d1 e E1)).
Qed.

Lemma repeat_tx_steps fuel workRows ids pool txs d d' r :
  tx_drawn txs workRows →
  RepeatForLock fuel (processTransactionsPost workRows ids) d = Some (d', r) →
  steps (mkWorld d pool txs) (mkWorld d' pool txs).
Proof.
  intros Hd Hr. eapply (RepeatForLock_invariant _ (λ s, steps (mkWorld d pool txs) (mkWorld s pool txs)));
    [|reflexivity|exact Hr].
  intros s Hs. eapply rtc_r; [exact Hs|].
  exact (step_manager _ _ _ _ (step_process_txs shuffle shuffleTxs workRows ids (mkWorld s pool txs) Hd)).
Qed.

Lemma tx_loop_steps fuel pool txs rest :
  (∀ row, row ∈ rest → row ∈ txs) → ∀ trows ids d d' r,
  tx_drawn txs trows →
  processTransactions_loop fuel trows ids rest d = Some (d', r) →
  steps (mkWorld d pool txs) (mkWorld d' pool txs).
Proof.
  induction rest as [|row rest IH]; intros Hrest trows ids d d' r Hd Hr; simpl in Hr.
  - case_match; [by eapply repeat_tx_steps|]. by injection Hr as <- _.
  - assert (tx_drawn txs (<[OutputTxsAccumulate_ID row:=row]> trows)) as Hd'
      by (apply tx_drawn_insert; [done|apply Hrest; left]).
    specialize (IH ltac:(intros; apply Hrest; by right)).
    destruct (LockSize <? _); [|by eapply IH].
    destruct (RepeatForLock _ _ d) as [[d1 [[]|e]]|] eqn:E; [| |done].
    + etrans; [by eapply repeat_tx_steps|]. eapply IH; [apply tx_drawn_empty|done].
    + injection Hr as <- _. by eapply repeat_tx_steps.
Qed.

Lemma processTransactions_steps fuel pool txs d d' r :
  processTransactions shuffleTxs fuel d = Some (d', r) →
  ∃ txs', steps (mkWorld d pool txs) (mkWorld d' pool txs').
Proof.
  unfold processTransactions.
  destruct (processTransactionsPre shuffleTxs d) as [d1 [l|e]] eqn:E1.
  - destruct (processTransactions_loop fuel ∅ [] l d1) as [[d2 r2]|] eqn:E2; [|done].
    intros Hr. assert (d2 = d') as -> by (by destruct r2; injection Hr).
    exists (l ++ txs). eapply rtc_l.
    + exact (step_manager _ _ _ _ (step_read_txs shuffle shuffleTxs (mkWorld d pool txs) d1 l E1)).
    + simpl. eapply tx_loop_steps; [|apply tx_drawn_empty|exact E2].
      intros row Hrow. simpl. apply elem_of_app; by left.
  - intros [= <- _]. exists txs. apply rtc_once.
    exact (step_manager _ _ _ _ (step_read_txs_failed shuffle shuffleTxs (mkWorld d pool txs) d1 e E1)).
Qed.
End loops.
