(* ===== verification/BalanceLive.v ===== *)
(** Progress of the balance manager: the retry loops end when the database stops
    reporting locks, and what a pass has read is processed when it ends. *)

From S2P Require Import Prelude Errors Sql MemDb Axia DbModel Persist Balance BalanceInv BalanceRun.

(** * Faults run out

    Each error of the database that reports a lock, or anything but a duplicate
    entry, uses up a fault:    the lock errors of concurrent transactions are finitely many. *)
Class SqlEngineFair (D : Type) `{!SqlEngine D} `{!SqlClock D} := {
  fault_count : D → nat;
  fair_exec st d :
    fault_count (exec st d).1 ≤ fault_count d ∧
    ∀ e, (exec st d).2 = Err e → ErrIsDuplicateEntryError e = false ∨ ErrIsLockError e = true →
      fault_count (exec st d).1 < fault_count d;
  fair_poll d :
    fault_count (poll d).1 ≤ fault_count d ∧
    ∀ e, (poll d).2 = Err e → fault_count (poll d).1 < fault_count d;
  fair_begin d :
    fault_count (tx_begin d).1 ≤ fault_count d ∧
    ∀ e, (tx_begin d).2 = Err e → fault_count (tx_begin d).1 < fault_count d;
  fair_commit d :
    fault_count (tx_commit d).1 ≤ fault_count d ∧
    ∀ e, (tx_commit d).2 = Err e → fault_count (tx_commit d).1 < fault_count d;
  fair_rollback d : fault_count (tx_rollback d) ≤ fault_count d;
  fair_now d : fault_count (time_Now d).1 ≤ fault_count d ∧ is_ok (time_Now d).2 = true;
}.

(** A fault of the in-memory engine is an element of its list. *)
Definition due (f : option error) : nat := match f with Some _ => 1 | None => 0 end.
Definition faults_left (d : MemDb) : nat := sum_list_with due (faults d).

Lemma next_fault_left d :
  faults_left (next_fault d).1 ≤ faults_left d ∧
  ∀ e, (next_fault d).2 = Some e → faults_left (next_fault d).1 < faults_left d.
Proof.
  unfold faults_left, next_fault. destruct (faults d) as [|[e|] fs] eqn:E; simpl; rewrite ?E; simpl.
  - split; [lia|done].
  - split; [lia|]. intros; lia.
  - split; [lia|done].
Qed.

Lemma unless_fault_left (m : M MemDb unit) d :
  (∀ d, faults_left (m d).1 = faults_left d) →
  faults_left (unless_fault m d).1 ≤ faults_left d ∧
  ∀ e, (unless_fault m d).2 = Err e → (∀ d', (m d').2 = Err e → False) →
    faults_left (unless_fault m d).1 < faults_left d.
Proof.
  intros Hm. unfold unless_fault. pose proof (next_fault_left d) as [Hle Hlt].
  destruct (next_fault d) as [d' [e|]]; simpl in *.
  - split; [done|]. intros _ _ _. by eapply Hlt.
  - rewrite Hm. split; [done|]. intros e He Hno. destruct (Hno _ He).
Qed.

#[export] Instance mem_fair : SqlEngineFair MemDb.
Proof.
  refine {| fault_count := faults_left |}; simpl; intros.
  - destruct (unless_fault_left (mem_run st) d) as [Hle Hlt].
    { intros d0. destruct st; simpl; by case_match. }
    split; [done|]. intros e He Hd. apply (Hlt e He). intros d' Hd'.
    destruct st; simpl in Hd'; case_match; simplify_eq/=; vm_compute in Hd; by destruct Hd.
  - destruct (unless_fault_left (mret tt) d) as [Hle Hlt]; [done|]. split; [done|].
    intros e He. by apply (Hlt e He).
  - destruct (unless_fault_left (λ d, (mkMemDb (tables d) (Some (tables d)) (faults d), Ok tt)) d)
      as [Hle Hlt]; [done|]. split; [done|]. intros e He. by apply (Hlt e He).
  - destruct (unless_fault_left (λ d, (mkMemDb (tables d) None (faults d), Ok tt)) d)
      as [Hle Hlt]; [done|]. split; [done|]. intros e He. by apply (Hlt e He).
  - by destruct (snapshot d).
  - done.
Defined.

(** * Computations that retry only because of faults *)
Section fair.
Context `{SqlEngine D} `{!SqlClock D} `{!SqlEngineFair D} `{!AxiaIds} `{!AxiaIdsOk}.
Implicit Types d : D.

Definition fair {A} (m : M D A) : Prop := ∀ d,
  fault_count (m d).1 ≤ fault_count d ∧
  ∀ e, (m d).2 = Err e → ErrIsLockError e = true → fault_count (m d).1 < fault_count d.

Lemma fair_ret {A} (a : A) : fair (mret a).
Proof. intros d. by split. Qed.
Lemma fair_throw {A} e : ErrIsLockError e = false → fair (throw (A:=A) e).
Proof. intros He d. split; [done|]. intros e' [= <-]. by rewrite He. Qed.
Lemma fair_bind {A B} (m : M D A) (f : A → M D B) : fair m → (∀ a, fair (f a)) → fair (m ≫= f).
Proof.
  intros Hm Hf d. rewrite bind_run. destruct (Hm d) as [Hle Hlt].
  destruct (m d) as [d1 [a|e]]; simpl in *.
  - destruct (Hf a d1) as [Hle1 Hlt1]. split; [lia|]. intros e He Hl. specialize (Hlt1 e He Hl). lia.
  - split; [done|]. intros e' [= <-] Hl. by apply (Hlt e).
Qed.
Lemma fair_exec_plain st : fair (exec st).
Proof.
  intros d. destruct (fair_exec st d) as [Hle Hlt]. split; [done|].
  intros e He Hl. apply (Hlt e He). by right.
Qed.
Lemma fair_exec_ignore_dup st tag : fair (exec_ignore_dup st tag).
Proof.
  intros d. unfold exec_ignore_dup, attempt. rewrite bind_run. destruct (fair_exec st d) as [Hle Hlt].
  destruct (exec st d) as [d1 [[]|e]]; simpl in *; [by split|].
  destruct (ErrIsDuplicateEntryError e) eqn:E; simpl; [by split|].
  split; [done|]. intros _ _ _. apply (Hlt e eq_refl). by left.
Qed.
Lemma fair_select {A} (q : content → A) : fair (select q).
Proof.
  unfold select. apply fair_bind; [|intros _ d; by split].
  intros d. destruct (fair_poll d) as [Hle Hlt]. split; [done|]. intros e He _. by apply (Hlt e).
Qed.
Lemma fair_time_Now : fair time_Now.
Proof.
  intros d. destruct (fair_now d) as [Hle Hok]. split; [done|]. intros e He. by rewrite He in Hok.
Qed.
Lemma fair_for_each {A} (l : list A) (f : A → M D unit) : (∀ x, fair (f x)) → fair (for_each l f).
Proof. intros Hf. induction l; simpl; [apply fair_ret|by apply fair_bind]. Qed.

(** A transaction. *)
Lemma fair_in_tx body : fair body → fair (in_tx body).
Proof.
  intros Hb d. unfold in_tx. destruct (fair_begin d) as [L1 S1].
  destruct (tx_begin d) as [d1 [[]|e1]]; simpl in *; [|split; [done|intros; by apply (S1 e1)]].
  destruct (Hb d1) as [L2 S2]. destruct (body d1) as [d2 [[]|e2]]; simpl in *.
  - destruct (fair_commit d2) as [L3 S3]. pose proof (fair_rollback (tx_commit d2).1).
    destruct (tx_commit d2) as [d3 [[]|e3]]; simpl in *; (split; [lia|]); [done|].
    intros e _ _. specialize (S3 _ eq_refl). lia.
  - pose proof (fair_rollback d2). split; [lia|done].
  - pose proof (fair_rollback d2). split; [lia|].
    intros e [= <-] Hl. specialize (S2 _ eq_refl Hl). lia.
Qed.

Lemma hashed_id_total s : ∃ id, hashed_id s = Ok id.
Proof. unfold hashed_id. rewrite ToID_hash. by eexists. Qed.

Lemma fair_lift_ok {A} (r : result A) : is_ok r = true → fair (lift_result r).
Proof. intros Hr d. destruct r; [by split|done]. Qed.
Lemma fair_lock_balance tbl id : fair (lock_balance tbl id).
Proof.
  unfold lock_balance. apply fair_bind; [apply fair_select|intros [|brow l]]; [by apply fair_throw|].
  destruct (decide _); [apply fair_ret|by apply fair_throw].
Qed.

Lemma fair_process_balance typ tid b : fair (process_balance typ tid b).
Proof.
  unfold process_balance. apply fair_bind; [apply fair_time_Now|intros now].
  apply fair_bind; [|intros txs].
  { apply fair_lift_ok. unfold OutputTxsAccumulate_ComputeID.
    by destruct (hashed_id_total (OutputTxsAccumulate_idsv (mkOutputTxsAccumulate ""
      (AccumulateBalancesAmount_ChainID b) (AccumulateBalancesAmount_AssetID b)
      (AccumulateBalancesAmount_Address b) tid 0 now))) as [id ->]. }
  apply fair_bind; [apply fair_exec_ignore_dup|intros _].
  apply fair_bind; [|intros b'].
  { apply fair_lift_ok. unfold AccumulateBalancesAmount_ComputeID. unfold hashed_id. by rewrite ToID_hash. }
  apply fair_bind; [destruct typ; apply fair_exec_ignore_dup|intros _].
  apply fair_bind; [apply fair_lock_balance|intros _].
  apply fair_bind; [apply fair_time_Now|intros now']. apply fair_exec_plain.
Qed.

Lemma fair_processOutputsBase typ row : fair (processOutputsBase typ row).
Proof.
  unfold processOutputsBase. apply fair_bind; [apply fair_exec_plain|intros _].
  apply fair_bind; [apply fair_select|intros [|b bs]]; [by apply fair_throw|].
  apply fair_for_each. intros x. apply fair_process_balance.
Qed.

Lemma fair_processOutputsPost workRows ids typ : fair (processOutputsPost workRows ids typ).
Proof.
  apply fair_in_tx. unfold processOutputsPost_body.
  apply fair_bind; [apply fair_select|intros [|b bs]]; [apply fair_ret|].
  apply fair_bind; [|intros _; apply fair_ret]. apply fair_for_each. intros x.
  destruct (workRows !! x); [apply fair_processOutputsBase|by apply fair_throw].
Qed.

Lemma fair_processTransactionsBase row : fair (processTransactionsBase row).
Proof.
  unfold processTransactionsBase. apply fair_bind; [apply fair_exec_plain|intros _].
  apply fair_bind; [|intros b'].
  { apply fair_lift_ok. unfold AccumulateBalancesTransactions_ComputeID, hashed_id. by rewrite ToID_hash. }
  apply fair_bind; [apply fair_exec_ignore_dup|intros _].
  apply fair_bind; [apply fair_lock_balance|intros _].
  apply fair_bind; [apply fair_time_Now|intros now']. apply fair_exec_plain.
Qed.

Lemma fair_processTransactionsPost workRows ids : fair (processTransactionsPost workRows ids).
Proof.
  apply fair_in_tx. unfold processTransactionsPost_body.
  apply fair_bind; [apply fair_select|intros [|b bs]]; [apply fair_ret|].
  apply fair_bind; [|intros _; apply fair_ret]. apply fair_for_each. intros x.
  destruct (workRows !! x); [apply fair_processTransactionsBase|by apply fair_throw].
Qed.

(** ** The retry loop ends, with no more faults left than before *)
Lemma repeat_fair (f : M D unit) fuel d :
  fair f → fault_count d < fuel →
  ∃ d' r, RepeatForLock fuel f d = Some (d', r) ∧ fault_count d' ≤ fault_count d.
Proof.
  intros Hf Hlt. destruct (RepeatForLock_terminates f fault_count fuel d) as [[d' r] Hr]; [|done|].
  - intros s0 s1 e E Hl. destruct (Hf s0) as [_ Hd]. rewrite E in Hd. by apply (Hd e).
  - exists d', r. split; [done|].
    apply (RepeatForLock_invariant f (λ s, fault_count s ≤ fault_count d) fuel d d' r); [|done|done].
    intros s0 Hs. pose proof (proj1 (Hf s0)). lia.
Qed.

Lemma loop_terminates fuel typ rest : ∀ trows ids d,
  fault_count d < fuel → is_Some (processOutputs_loop fuel typ trows ids rest d).
Proof.
  induction rest as [|row rest IH]; intros trows ids d Hlt; simpl.
  - destruct (0 <? _); [|by eexists].
    destruct (repeat_fair _ fuel d (fair_processOutputsPost trows ids typ) Hlt) as (d' & r & -> & _).
    by eexists.
  - destruct (LockSize <? _); [|by apply IH].
    edestruct (repeat_fair _ fuel d (fair_processOutputsPost
      (<[OutputAddressAccumulate_ID row:=row]> trows) (ids ++ [OutputAddressAccumulate_ID row]) typ) Hlt)
      as (d' & [[]|e] & -> & Hle); [|by eexists].
    apply IH. lia.
Qed.

Lemma tx_loop_terminates fuel rest : ∀ trows ids d,
  fault_count d < fuel → is_Some (processTransactions_loop fuel trows ids rest d).
Proof.
  induction rest as [|row rest IH]; intros trows ids d Hlt; simpl.
  - destruct (0 <? _); [|by eexists].
    destruct (repeat_fair _ fuel d (fair_processTransactionsPost trows ids) Hlt) as (d' & r & -> & _).
    by eexists.
  - destruct (LockSize <? _); [|by apply IH].
    edestruct (repeat_fair _ fuel d (fair_processTransactionsPost
      (<[OutputTxsAccumulate_ID row:=row]> trows) (ids ++ [OutputTxsAccumulate_ID row])) Hlt)
      as (d' & [[]|e] & -> & Hle); [|by eexists].
    apply IH. lia.
Qed.
End fair.

(** * What a pass reads is processed when it ends *)
Section progress.
Context `{SqlEngine D} `{!SqlEngineOk D} `{!SqlClock D} `{!SqlClockOk D} `{!AxiaIds}.
Implicit Types d : D.

(** Row [id] is not waiting to be processed. *)
Definition done_row (typ : processType) (id : string) (c : content) : Prop :=
  ∀ r, r ∈ c (outTable typ) → has_id id r = true → is_processed 0 r = false.

Lemma done_same typ id c c' : c ≡ᶜ c' → done_row typ id c → done_row typ id c'.
Proof. intros E Hd r Hr. apply Hd. by rewrite (E _). Qed.

Lemma done_marked typ ids id c c' : marked typ ids c c' → done_row typ id c → done_row typ id c'.
Proof.
  intros [Hm _] Hd r Hr Hid. rewrite Hm in Hr. apply list_elem_of_fmap in Hr as (x & -> & Hx).
  rewrite has_id_mark in Hid. specialize (Hd x Hx Hid). unfold mark_ids.
  destruct (any_id ids x); [|done].
  destruct (is_processed 0 (apply_sets mark x)) eqn:E; [|done].
  apply is_processed_0_1 in E. by rewrite is_processed_mark in E.
Qed.

Lemma locked_done typ ids id c :
  locked_ids (outTable typ) ids c = [] → id ∈ ids → done_row typ id c.
Proof.
  unfold locked_ids. intros E%map_eq_nil Hin r Hr Hid.
  destruct (is_processed 0 r) eqn:Ep; [|done]. exfalso.
  assert (r ∈ ([] : list row)) as Hn; [|by apply elem_of_nil in Hn].
  rewrite <-E. apply list_elem_of_In, filter_In. split; [by apply list_elem_of_In|].
  rewrite Ep. simpl. apply existsb_exists. exists id. split; [by apply list_elem_of_In|done].
Qed.

(** A batch keeps what is done, and a successful one does its own rows. *)
Lemma post_done pool workRows ids typ d :
  drawn pool typ workRows → sound pool (rows d) → ∀ id,
  done_row typ id (rows d) → done_row typ id (rows (processOutputsPost workRows ids typ d).1).
Proof.
  intros Hd Hs id Hdone. destruct (processOutputsPost workRows ids typ d) as [d' [[]|e]] eqn:E; simpl.
  - destruct (processOutputsPost_effect _ _ _ _ _ _ Hd Hs E) as (_ & _ & ids' & _ & Hm).
    by eapply done_marked.
  - eapply done_same; [|exact Hdone]. eapply in_tx_err; [apply keeps_saved_post|exact E].
Qed.

Lemma repeat_done pool fuel workRows ids typ d d' r :
  drawn pool typ workRows → sound pool (rows d) →
  RepeatForLock fuel (processOutputsPost workRows ids typ) d = Some (d', r) →
  sound pool (rows d') ∧ (∀ id, done_row typ id (rows d) → done_row typ id (rows d')) ∧
  (r = Ok tt → ∀ id, id ∈ ids → done_row typ id (rows d')).
Proof.
  intros Hd. revert d. induction fuel as [|n IH]; intros d Hs Hr; [done|]. simpl in Hr.
  pose proof (processOutputsPost_sound _ _ ids typ d Hd Hs) as Hs1.
  pose proof (post_done _ _ ids typ d Hd Hs) as Hd1.
  pose proof (λ d2, processOutputsPost_done pool workRows ids typ d d2 Hd Hs) as Hdone.
  destruct (processOutputsPost workRows ids typ d) as [d1 [[]|e]]; simpl in *.
  - injection Hr as <- <-. split_and!; [done|done|]. intros _ id Hin.
    eapply locked_done; [|exact Hin]. by eapply Hdone.
  - destruct (ErrIsLockError e).
    + destruct (IH d1 Hs1 Hr) as (Hs2 & Hd2 & Hok). split_and!; auto.
    + injection Hr as <- <-. by split_and!.
Qed.

Lemma loop_done pool fuel typ rest :
  (∀ row, row ∈ rest → row ∈ pool typ) → ∀ trows ids d d',
  drawn pool typ trows → sound pool (rows d) →
  processOutputs_loop fuel typ trows ids rest d = Some (d', Ok tt) →
  (∀ id, done_row typ id (rows d) → done_row typ id (rows d')) ∧
  ∀ id, id ∈ ids ++ map OutputAddressAccumulate_ID rest → done_row typ id (rows d').
Proof.
  induction rest as [|row rest IH]; intros Hrest trows ids d d' Hd Hs Hr; simpl in Hr.
  - rewrite app_nil_r. destruct (0 <? length ids) eqn:E0.
    + destruct (repeat_done _ _ _ _ _ _ _ _ Hd Hs Hr) as (_ & Hk & Hok). auto.
    + injection Hr as <-. split; [done|]. apply Nat.ltb_ge in E0.
      destruct ids; simpl in E0; [|lia]. intros id Hin. by apply elem_of_nil in Hin.
  - assert (drawn pool typ (<[OutputAddressAccumulate_ID row:=row]> trows)) as Hd'
      by (apply drawn_insert; [done|apply Hrest; left]).
    specialize (IH ltac:(intros; apply Hrest; by right)).
    replace (ids ++ map OutputAddressAccumulate_ID (row :: rest))
      with ((ids ++ [OutputAddressAccumulate_ID row]) ++ map OutputAddressAccumulate_ID rest)
      by (rewrite <-List.app_assoc; done).
    destruct (LockSize <? _); [|by apply (IH _ _ _ _ Hd' Hs Hr)].
    destruct (RepeatForLock _ _ d) as [[d1 [[]|e]]|] eqn:E; [|done|done].
    destruct (repeat_done _ _ _ _ _ _ _ _ Hd' Hs E) as (Hs1 & Hk & Hok).
    destruct (IH _ _ _ _ (drawn_empty pool typ) Hs1 Hr) as [Hk2 Hrows]. split; [auto|].
    intros id [Hin|Hin]%elem_of_app; [by apply Hk2, Hok|]. by apply Hrows.
Qed.
End progress.
