(* ===== verification/Accounting.v ===== *)
(** What the balance manager guarantees: right balances under every interleaving,
    complete passes, atomic batches, termination. *)

From S2P Require Import Prelude Errors Sql MemDb Axia DbModel Persist Prog Writer Balance BalanceInv BalanceRun BalanceTxs BalanceSystem BalanceLive.

(** * A sample ledger *)
Module Ledger.
#[export] Existing Instance Toy.ids.
#[export] Existing Instance Toy.ids_ok.
Definition out1 : Outputs :=
  mkOutputs "o1" "X" "t1" 0 7 "AXC" 40 0 1 0 None 0 false false false false 1.
Definition addr1 : OutputAddresses := mkOutputAddresses "o1" "alice" None 1 1.
Definition acc1 : OutputAddressAccumulate :=
  mkOutputAddressAccumulate "a1" "o1" "alice" 0 0 "t1" 0 1.
Definition indexed : list pop :=
  [PInsert (EOutputs out1) false; PInsert (EOutputAddresses addr1) false;
   PInsert (EOutputAddressAccumulateOut acc1) false].

(** The database after indexing the output; [fs] are the faults to come. *)
Definition db (fs : list (option error)) : MemDb :=
  let d := (for_each indexed (λ o, perform o) empty_db).1 in
  mkMemDb (tables d) None fs.

(** The row a reader gets, and the work of a batch. *)
Definition read_row : OutputAddressAccumulate :=
  mkOutputAddressAccumulate "a1" "o1" "alice" 0 0 "t1" 0 zero_time.
Definition work : gmap string OutputAddressAccumulate := {["a1" := read_row]}.
Definition same {A} (l : list A) : list A := l.

Lemma empty_accounts : accounts_sound (λ _, []) [] (rows empty_db).
Proof. apply accounts_empty. intros t. simpl. unfold table_of. by rewrite lookup_empty. Qed.

Lemma db_accounts fs : accounts_sound (λ _, []) [] (rows (db fs)).
Proof.
  change (rows (db fs)) with (rows (for_each indexed (λ o, perform o) empty_db).1).
  apply (for_each_invariant (λ d, accounts_sound (λ _, []) [] (rows d))); [|apply empty_accounts].
  intros d o Hin Hd. apply accounts_perform; [|done].
  repeat (apply elem_of_cons in Hin as [->|Hin]); [done..|by apply elem_of_nil in Hin].
Qed.

(** A deadlock reported on the third call to the database. *)
Definition deadlock : list (option error) := [None; None; Some DeadlockDBErrorMessage].
Definition the_id : string := "#X:AXC:alice".
End Ledger.
Import Ledger.

(** * Properties *)
Section reachability.
Context `{SqlEngine D} `{!SqlEngineOk D} `{!SqlClock D} `{!SqlClockOk D} `{!AxiaIds}.
Context (shuffle : list OutputAddressAccumulate → list OutputAddressAccumulate).
Context (shuffleTxs : list OutputTxsAccumulate → list OutputTxsAccumulate).

(** C1. From any sound state (the empty tables are one), after any interleaving
    of indexing transactions, of reads of the accumulators, and of processing
    batches by any number of workers holding rows read at any earlier time, each
    balance received or sent is exactly the sum of the amounts of the outputs whose
    accumulator rows are processed, its UTXO count is their number, and each
    transaction count is the number of processed transaction accumulators of its
    key: no output is counted twice, none that is marked is missed. *)
Theorem accounts_reachable (w w' : world (D:=D)) :
  (∀ l, shuffle l ≡ₚ l) → (∀ l, shuffleTxs l ≡ₚ l) →
  world_sound w → rtc (step shuffle shuffleTxs) w w' →
  (∀ typ id,
    recorded "total_amount" (balanceTable typ) id (rows (w_db w')) =
      credit amount_of typ id (rows (w_db w')) ∧
    recorded "utxo_count" (balanceTable typ) id (rows (w_db w')) =
      credit one_of typ id (rows (w_db w'))) ∧
  ∀ id, recorded "transaction_count" TableAccumulateBalancesTransactions id (rows (w_db w')) =
    tx_credit id (rows (w_db w')).
Proof.
  intros Hp Hpt Hw Hsteps.
  pose proof (steps_sound shuffle shuffleTxs Hp Hpt _ _ Hsteps Hw) as Hs.
  split; [intros typ id; split|].
  - apply (sound_balanced _ _ (accounts_balances _ _ _ Hs)).
  - apply (sound_balanced _ _ (accounts_balances _ _ _ Hs)).
  - apply (accounts_counted _ _ _ Hs).
Qed.

(** C7. A pass of [processOutputs] that succeeds has processed every accumulator
    row its query had read (the rows it counts in its result), whatever lock
    errors its batches met on the way, and it leaves the accounts sound. *)
Theorem pass_complete pool txs fuel flag typ (d d' : D) n :
  (∀ l, shuffle l ≡ₚ l) → accounts_sound pool txs (rows d) →
  processOutputs shuffle fuel flag typ d = Some (d', Ok n) →
  accounts_sound pool txs (rows d') ∧
  ∃ c l, c ≡ᶜ rows d ∧ l ≡ₚ processOutputsPre_query flag typ c ∧ length l = n ∧
    ∀ row, row ∈ l → done_row typ (OutputAddressAccumulate_ID row) (rows d').
Proof.
  intros Hperm Hs Hr. split.
  - destruct (processOutputs_steps shuffle (λ l, l) fuel flag typ pool txs d d' (Ok n) Hr)
      as (pool' & Hmore & Hst).
    apply (steps_sound shuffle (λ l, l) Hperm (λ l, reflexivity l)) in Hst; [|exact Hs].
    destruct Hst as [Hs' Hc Hi Ht]. split; [|done..]. eapply sound_read; [exact Hs'|].
    intros typ' row Hrow. apply (sound_tracks _ _ Hs'). by apply Hmore.
  - unfold processOutputs in Hr.
    destruct (processOutputsPre shuffle flag typ d) as [d1 [l|e]] eqn:E1; [|done].
    destruct (processOutputs_loop fuel typ ∅ [] l d1) as [[d2 [[]|e]]|] eqn:E2; [|done..].
    injection Hr as <- <-. apply select_perm_rows in E1 as [E El]. specialize (El l eq_refl).
    exists (rows d1), l. split_and!; [by rewrite E|by rewrite El, Hperm|done|].
    assert (sound (add_rows pool typ l) (rows d1)) as Hs1.
    { eapply accounts_balances, accounts_add_rows; [|by eapply accounts_same].
      intros row Hrow. eapply processOutputsPre_tracks; [|rewrite El, Hperm in Hrow; exact Hrow].
      eapply (sound_ids pool). eapply accounts_balances. by eapply accounts_same. }
    destruct (loop_done _ _ _ _ (add_rows_in pool typ l) _ _ _ _ (drawn_empty _ _) Hs1 E2)
      as [_ Hdone].
    intros row Hrow. apply Hdone. simpl. by apply list_elem_of_fmap_2.
Qed.

(** A batch of [processOutputsPost] or [processTransactionsPost] that reports an error has no
    effect on the tables: neither the mark of a row nor its balance is written
    without the other. *)
Theorem batch_atomic (workRows : gmap string OutputAddressAccumulate) ids typ
    (workTxs : gmap string OutputTxsAccumulate) (d d' : D) e :
  processOutputsPost workRows ids typ d = (d', Err e) ∨
  processTransactionsPost workTxs ids d = (d', Err e) →
  rows d ≡ᶜ rows d'.
Proof.
  intros [Hr|Hr]; eapply in_tx_err; [|exact Hr| |exact Hr];
    [apply keeps_saved_post|apply keeps_saved_tx_post].
Qed.
End reachability.

Section termination.
Context `{SqlEngine D} `{!SqlClock D} `{!SqlEngineFair D} `{!AxiaIds} `{!AxiaIdsOk}.
Context (shuffle : list OutputAddressAccumulate → list OutputAddressAccumulate).
Context (shuffleTxs : list OutputTxsAccumulate → list OutputTxsAccumulate).

(** C15. The retry loops of a pass end: with [n] faults of the database to come,
    [n + 1] calls of each batch are enough for [processOutputs] and
    [processTransactions] to return, whatever the tables and the rows read. *)
Theorem pass_terminates flag typ (d : D) :
  is_Some (processOutputs shuffle (S (fault_count d)) flag typ d) ∧
  is_Some (processTransactions shuffleTxs (S (fault_count d)) d).
Proof.
  split.
  - unfold processOutputs.
    assert (fair (processOutputsPre shuffle flag typ)) as Hf
      by (apply fair_bind; [apply fair_select|intros l; apply fair_ret]).
    pose proof (proj1 (Hf d)) as Hle.
    destruct (processOutputsPre shuffle flag typ d) as [d1 [l|e]]; [|by eexists]. simpl in Hle.
    destruct (loop_terminates (S (fault_count d)) typ l ∅ [] d1) as [[d2 [[]|e]] ->];
      [lia|by eexists..].
  - unfold processTransactions.
    assert (fair (processTransactionsPre shuffleTxs)) as Hf
      by (apply fair_bind; [apply fair_select|intros l; apply fair_ret]).
    pose proof (proj1 (Hf d)) as Hle.
    destruct (processTransactionsPre shuffleTxs d) as [d1 [l|e]]; [|by eexists]. simpl in Hle.
    destruct (tx_loop_terminates (S (fault_count d)) l ∅ [] d1) as [[d2 [[]|e]] ->];
      [lia|by eexists..].
Qed.
End termination.

Section events.
Context {D : Type}.

(** The loop that handles an event of the manager (a trigger or a tick)
    reports success only after a pass that read fewer rows than [RowLimitValue]:
    however many full passes and lock errors come before, [retryProcessing] does
    not cut them short. *)
Theorem event_drains turns (f : D → option (D * result nat)) icnt (d d' : D) :
  icnt < retryProcessing → runEvent turns f icnt d = Some (d', Ok tt) →
  ∃ d0 n, f d0 = Some (d', Ok n) ∧ n < RowLimitValue.
Proof.
  revert icnt d. induction turns as [|turns IH]; intros icnt d Hlt Hr; [done|].
  cbn [runEvent] in Hr. apply Nat.ltb_lt in Hlt. rewrite Hlt in Hr.
  destruct (f d) as [[d1 [n|e]]|] eqn:Ef; [| |done].
  - destruct (n <? RowLimitValue) eqn:En.
    + injection Hr as <-. exists d, n. by apply Nat.ltb_lt in En.
    + eapply (IH 1); [|exact Hr]. unfold retryProcessing. lia.
  - destruct (ErrIsLockError e); [|done]. eapply (IH 1); [|exact Hr]. unfold retryProcessing. lia.
Qed.

(** [Exec] asks each loop of an enabled manager for one more run and never
    blocks: with every channel of capacity one holding at most one event, each
    holds exactly one afterwards, so a second [Exec] before the loops wake up
    changes nothing. *)
Theorem exec_coalesces a :
  enabled a = true →
  Forall (λ c, ch_ins c ≤ 1 ∧ ch_outs c ≤ 1 ∧ ch_txs c ≤ 1) (managerChannelsList a) →
  Forall (λ c, ch_ins c = 1 ∧ ch_outs c = 1 ∧ ch_txs c = 1) (managerChannelsList (Manager_Exec a)) ∧
  length (managerChannelsList (Manager_Exec a)) = length (managerChannelsList a) ∧
  Manager_Exec (Manager_Exec a) = Manager_Exec a.
Proof.
  intros He Hc. unfold Manager_Exec. rewrite He. simpl. split_and!.
  - apply Forall_map. eapply Forall_impl; [exact Hc|]. intros c (H1 & H2 & H3). simpl.
    unfold try_send. repeat case_match; simpl; rewrite ?Nat.ltb_lt, ?Nat.ltb_ge in *; lia.
  - apply length_map.
  - f_equal. rewrite map_map. apply map_ext. intros c. simpl. unfold try_send.
    f_equal; repeat case_match; try done; rewrite ?Nat.ltb_lt, ?Nat.ltb_ge in *; lia.
Qed.
End events.

(** * Witnesses *)
Lemma accounts_reachable_witness :
  ∃ d : MemDb,
    recorded "total_amount" TableAccumulateBalancesReceived the_id (rows d) = 40%Z ∧
    recorded "total_amount" TableAccumulateBalancesReceived the_id (rows d) =
      credit amount_of processTypeOut the_id (rows d).
Proof.
  set (d1 := (processOutputsPre same true processTypeOut (db [])).1).
  set (d2 := (processOutputsPost work ["a1"] processTypeOut d1).1).
  set (d3 := (processOutputsPost work ["a1"] processTypeOut d2).1).
  exists d3. split; [vm_compute; reflexivity|].
  pose (w := mkWorld (db []) (λ _, []) []).
  destruct (accounts_reachable same same w
    (mkWorld d3 (add_rows (λ _, []) processTypeOut [read_row]) [])) as [Hb _].
  - intros l; reflexivity.
  - intros l; reflexivity.
  - exact (db_accounts []).
  - assert (drawn (add_rows (λ _, []) processTypeOut [read_row]) processTypeOut work) as Hd.
    { apply (drawn_insert _ _ ∅); [apply drawn_empty|left]. }
    eapply rtc_l; [exact (step_manager _ _ _ _ (step_read same same true processTypeOut w d1 [read_row] eq_refl))|].
    eapply rtc_l; [exact (step_manager _ _ _ _ (step_process same same processTypeOut work ["a1"] (mkWorld d1 _ _) Hd))|].
    eapply rtc_l; [exact (step_manager _ _ _ _ (step_process same same processTypeOut work ["a1"] (mkWorld d2 _ _) Hd))|].
    apply rtc_refl.
  - apply (Hb processTypeOut the_id).
Defined.

Definition sample_pass : option (MemDb * result nat) :=
  processOutputs same 4 true processTypeOut (db deadlock).

Lemma pass_complete_witness :
  ∃ d' : MemDb, sample_pass = Some (d', Ok 1) ∧
    accounts_sound (λ _, []) [] (rows d') ∧
    ∃ l, length l = 1 ∧ ∀ row, row ∈ l → done_row processTypeOut (OutputAddressAccumulate_ID row) (rows d').
Proof.
  pose (d' := match sample_pass with Some (d, _) => d | None => empty_db end).
  exists d'. assert (sample_pass = Some (d', Ok 1)) as Hr by (vm_compute; reflexivity).
  split; [exact Hr|].
  destruct (pass_complete same (λ _, []) [] 4 true processTypeOut (db deadlock) d' 1) as (Hs & c & l & E & El & Hl & Hdone).
  - intros l; reflexivity.
  - exact (db_accounts deadlock).
  - exact Hr.
  - split; [exact Hs|]. exists l. split; [exact Hl|exact Hdone].
Defined.

Definition failed_batch : MemDb * result unit :=
  processOutputsPost work ["a1"] processTypeOut (db [None; None; None; None; Some "lost connection"]).

Lemma batch_atomic_witness :
  failed_batch.2 = Err "lost connection (output_txs_accumulate)" ∧
  rows (db [None; None; None; None; Some "lost connection"]) ≡ᶜ rows failed_batch.1.
Proof.
  split; [vm_compute; reflexivity|].
  apply (batch_atomic work ["a1"] processTypeOut ∅ _ _ "lost connection (output_txs_accumulate)"). left.
  vm_compute. reflexivity.
Defined.

Lemma event_drains_witness :
  ∃ d0 n, (λ d : nat, match d with
                      | 0 => Some (0, Ok 12)
                      | S d' => Some (d', Ok RowLimitValue)
                      end) d0 = Some (0, Ok n) ∧ n < RowLimitValue.
Proof.
  apply (event_drains 10 _ 0 5 0); [unfold retryProcessing; lia|].
  vm_compute. reflexivity.
Defined.

Lemma exec_coalesces_witness :
  Manager_Exec (Manager_Exec (mkManager true [newManagerChannels; newManagerChannels])) =
  Manager_Exec (mkManager true [newManagerChannels; newManagerChannels]).
Proof.
  apply (exec_coalesces (mkManager true [newManagerChannels; newManagerChannels])); [reflexivity|].
  repeat constructor.
Defined.

Lemma pass_terminates_witness :
  is_Some (processOutputs same 2 true processTypeOut (db deadlock)) ∧
  is_Some (processTransactions same 2 (db deadlock)).
Proof. exact (pass_terminates same same true processTypeOut (db deadlock)). Defined.
