(* ===== verification/Utils.v ===== *)
(** The utilities: the bounded list of seen keys (utils/indexedlist.go), the cache
    with expiry (utils/ttlmapcache.go, utils/cache.go), the counters
    (utils/counterid.go), the retry delay (utils/retry_sleeper.go), the job queue
    (utils/worker.go) and the printing of token amounts (models/primitives.go). *)

From S2P Require Import Prelude.

(** * The bounded list of keys

    The front of [entryList] is its head.  The map and the list change together
    under one lock, so an operation is a function of the state. *)
Section indexed_list.
Context {K V : Type} `{Countable K}.

Record indexedList := mkIndexedList {
entryMap : gmap K V;
entryList : list K;
MaxSize : nat;
}.

Definition NewIndexedList (maxSize : Z) : indexedList :=
let maxSize := if (maxSize <=? 1)%Z then 1%Z else maxSize in
mkIndexedList ∅ [] (Z.to_nat maxSize).

Definition exists_ (c : indexedList) (key : K) : bool := bool_decide (is_Some (entryMap c !! key)).

(** [for c.entryList.Len() > c.MaxSize { remove the back }]; the length is fuel enough. *)
Fixpoint evict (fuel : nat) (c : indexedList) : indexedList :=
match fuel with
| O => c
| S fuel' =>
    if (MaxSize c <? length (entryList c)) then
      match last (entryList c) with
      | None => c
      | Some e => evict fuel' (mkIndexedList (delete e (entryMap c)) (removelast (entryList c)) (MaxSize c))
      end
    else c
end.

Definition PushFront (c : indexedList) (key : K) (val : V) : indexedList :=
if exists_ c key then c
else
  let c := mkIndexedList (<[key := val]> (entryMap c)) (key :: entryList c) (MaxSize c) in
  evict (length (entryList c)) c.

Definition Exists (c : indexedList) (key : K) : bool := exists_ c key.
End indexed_list.
Arguments indexedList K V {_ _}.

(** * The cache with expiry

    256 buckets chosen by the first byte of the SHA-256 of the key, each with its
    own lock.  Times are nanoseconds; [now] is what [time.Now()] returned. *)
Record item := mkItem { item_value : string; item_expire : Z; item_last : Z }.

Definition expired (i : item) (now : Z) : bool := (item_expire i <? now)%Z.

Definition LCache := list (gmap string item).

Definition NewTTLMap : LCache := replicate 256 ∅.

Section ttl.
(** The first byte of [sha256.Sum256]. *)
Context (chksum0 : string → nat).

Definition bucket_of (m : LCache) (k : string) : gmap string item := default ∅ (m !! chksum0 k).

Definition LCache_Put (m : LCache) (k v : string) (ttl now : Z) : LCache :=
let bm := bucket_of m k in
let it := match bm !! k with
          | Some it => it
          | None => mkItem v 0 0
          end in
<[chksum0 k := <[k := mkItem (item_value it) (now + ttl) now]> bm]> m.

Definition LCache_Get (m : LCache) (k : string) (now : Z) : option string :=
match bucket_of m k !! k with
| Some it => if expired it now then None else Some (item_value it)
| None => None
end.
End ttl.

(** One tick of [expire] over a bucket: the expired keys are listed under the read
    lock, at [now]; then each is dropped under the write lock if it is still
    expired, at [later].  Other operations can come in between. *)
Definition expire_scan (now : Z) (bm : gmap string item) : list string :=
  map fst (filter (λ kv, expired kv.2 now = true) (map_to_list bm)).

Definition expire_drop (later : Z) (bm : gmap string item) (k : string) : gmap string item :=
  match bm !! k with
  | Some it => if expired it later then delete k bm else bm
  | None => bm
  end.

Definition expire_bucket (now later : Z) (bm : gmap string item) : gmap string item :=
  fold_left (expire_drop later) (expire_scan now bm) bm.

(** One tick over all the buckets, each with its own times. *)
Definition expire_tick (times : list (Z * Z)) (m : LCache) : LCache :=
  zip_with (λ t bm, expire_bucket t.1 t.2 bm) times m.

(** * utils/cache.go over it *)
Definition ErrNotCached : string := "not found".
Definition NewCache : LCache := NewTTLMap.
Definition Cache_Get (chksum0 : string → nat) (key : string) (now : Z) (c : LCache) : result string :=
  match LCache_Get chksum0 c key now with Some v => Ok v | None => Err ErrNotCached end.
Definition Cache_Set (chksum0 : string → nat) (key bytes : string) (ttl now : Z) (c : LCache) : LCache * result unit :=
  (LCache_Put chksum0 c key bytes ttl now, Ok tt).

(** [CacheKey] and [KeyFromParts]. *)
Definition CacheSeparator : string := "|".
Definition KeyFromParts (parts : list string) : string := String.concat CacheSeparator parts.
Definition CacheKey (networkID : Z) (parts : list string) : string :=
  KeyFromParts (Z_to_string networkID :: parts).

(** * Counters

    A counter is an [int64] updated atomically; a key is created at zero under the
    write lock. *)
Definition int64 (z : Z) : Z := ((z + 2 ^ 63) mod 2 ^ 64 - 2 ^ 63)%Z.

Definition CounterID := gmap string Z.
Definition NewCounterID : CounterID := ∅.
Definition CounterID_Add (c : CounterID) (v : string) (delta : Z) : CounterID :=
  match c !! v with
  | Some counter => <[v := int64 (counter + delta)]> c
  | None => <[v := int64 (0 + delta)]> c
  end.
Definition CounterID_Inc (c : CounterID) (v : string) : CounterID := CounterID_Add c v 1.
Definition CounterID_Clone (c : CounterID) : gmap string Z := filter (λ kv, kv.2 ≠ 0%Z) c.

(** * The retry delay *)
Record RetrySleeper := mkRetrySleeper {
  counter : Z;             (* uint64 *)
  retries : Z;
  sleepTime : Z;
  sleepDuration : Z;
  sleepDurationMax : Z;
}.

Definition NewRetrySleeper (retries sleepDuration sleepDurationMax : Z) : RetrySleeper :=
  mkRetrySleeper 0 retries 0 sleepDuration sleepDurationMax.

(** The new state and the time slept. *)
Definition RetrySleeper_Inc (r : RetrySleeper) : RetrySleeper * Z :=
  let counter := wrap64 (counter r + 1) in
  if (retries r <? counter)%Z then
    let sleepTime := if (sleepTime r <? sleepDuration r)%Z
                     then (sleepTime r + sleepDuration r)%Z else sleepTime r in
    (mkRetrySleeper counter (retries r) sleepTime (sleepDuration r) (sleepDurationMax r), sleepTime)
  else (mkRetrySleeper counter (retries r) (sleepTime r) (sleepDuration r) (sleepDurationMax r), 0%Z).

(** * The job queue: a channel of capacity [queueSize] *)
Record worker (J : Type) := mkWorker { jobCh : list J; queueSize : nat }.
Arguments mkWorker {J}.
Arguments jobCh {J}.
Arguments queueSize {J}.

(** [TryEnque]: dropped when the channel is full. *)
Definition TryEnque {J} (w : worker J) (job : J) : worker J :=
  if (length (jobCh w) <? queueSize w) then mkWorker (jobCh w ++ [job]) (queueSize w) else w.
(** [Enque] blocks while the channel is full. *)
Definition Enque {J} (w : worker J) (job : J) : option (worker J) :=
  if (length (jobCh w) <? queueSize w) then Some (mkWorker (jobCh w ++ [job]) (queueSize w)) else None.
(** A goroutine takes the next job. *)
Definition take_job {J} (w : worker J) : option (J * worker J) :=
  match jobCh w with
  | [] => None
  | j :: js => Some (j, mkWorker js (queueSize w))
  end.
Definition JobCnt {J} (w : worker J) : Z := Z.of_nat (length (jobCh w)).
Definition IsFinished {J} (w : worker J) : bool := (JobCnt w =? 0)%Z.

(** * Token amounts *)

(** [strconv.Itoa(int(i))] of a [uint64]. *)
Definition TokenAmountForUint64 (i : Z) : string := Z_to_string (int64 i).
