(* ===== verification/UtilsFacts.v ===== *)
(** What the utilities guarantee: the bounded list forgets the oldest key, the
    cache never serves an expired entry, counters add up, the retry delay is
    constant, amounts below 2^63 print exactly. *)

From S2P Require Import Prelude Utils.

(** * The bounded list *)

(** Reference: the last [n] new keys, most recent first. *)
Definition push_recent {K} `{EqDecision K} (n : nat) (l : list K) (k : K) : list K :=
  if decide (k ∈ l) then l else take n (k :: l).

Section indexed_list.
Context {K V : Type} `{Countable K}.
Implicit Types c : indexedList K V.

(** The map has the keys of the list, once each. *)
Record list_ok c : Prop := {
list_ok_dom k : is_Some (entryMap c !! k) ↔ k ∈ entryList c;
list_ok_nodup : NoDup (entryList c);
list_ok_size : 1 ≤ MaxSize c;
list_ok_length : length (entryList c) ≤ MaxSize c;
}.

Lemma new_list_ok n : list_ok (NewIndexedList (K:=K) (V:=V) n).
Proof.
split; simpl.
- intros k. rewrite lookup_empty. split; [by intros []|by intros ?%elem_of_nil].
- constructor.
- destruct (n <=? 1)%Z eqn:E; [done|]. apply Z.leb_gt in E. lia.
- lia.
Qed.

(** One eviction is enough, as the list grows by one. *)
Lemma evict_fits fuel c : length (entryList c) ≤ MaxSize c → evict fuel c = c.
Proof.
intros Hl. destruct fuel; simpl; [done|].
assert ((MaxSize c <? length (entryList c)) = false) as -> by (apply Nat.ltb_ge; lia). done.
Qed.

Lemma exists_iff c k : list_ok c → exists_ c k = true ↔ k ∈ entryList c.
Proof. intros Hc. unfold exists_. rewrite bool_decide_eq_true. apply Hc. Qed.

(** A list one too long loses its back. *)
Lemma evict_one fuel (m : gmap K V) (l : list K) e n :
length l = n → evict (S fuel) (mkIndexedList m (l ++ [e]) n) = mkIndexedList (delete e m) l n.
Proof.
intros Hl. cbn [evict entryList MaxSize entryMap]. rewrite length_app. simpl length.
assert ((n <? length l + 1) = true) as -> by (apply Nat.ltb_lt; lia).
rewrite last_snoc, List.removelast_last. apply evict_fits. simpl. lia.
Qed.

Lemma PushFront_ok c k v :
list_ok c → list_ok (PushFront c k v) ∧ MaxSize (PushFront c k v) = MaxSize c ∧
entryList (PushFront c k v) = push_recent (MaxSize c) (entryList c) k.
Proof.
intros Hc. unfold PushFront, push_recent.
destruct (exists_ c k) eqn:Ex.
- apply exists_iff in Ex; [|done]. by rewrite decide_True.
- assert (k ∉ entryList c) as Hk.
  { rewrite <-(exists_iff c k Hc). by rewrite Ex. }
  rewrite decide_False by done. destruct Hc as [Hdom Hnd Hs Hlen].
  destruct c as [m l n]. cbn [entryList MaxSize entryMap] in *.
  destruct (decide (length l = n)) as [Efull|Hne].
  + destruct (exists_last (l:=k :: l)) as (l' & e & E); [done|].
    assert (length l' = n) as Hl'.
    { apply (f_equal length) in E. rewrite length_app in E. simpl in E. lia. }
    assert (take n (k :: l) = l') as Etake by (rewrite E, take_app_le, take_ge by lia; done).
    rewrite Etake. rewrite E. cbn [length]. rewrite length_app. simpl length.
    rewrite Nat.add_1_r, evict_one by done. cbn [entryList MaxSize].
    assert (NoDup (l' ++ [e])) as Hnd' by (rewrite <-E; by constructor).
    apply NoDup_app in Hnd' as (Hnl & Hel & _).
    split; [|done]. split; simpl; [|done|done|lia].
    intros x. assert (x ∈ k :: l ↔ x ∈ l' ++ [e]) as Hx by by rewrite E.
    rewrite elem_of_cons, elem_of_app, list_elem_of_singleton in Hx.
    destruct (decide (x = e)) as [->|Hxe].
    * rewrite lookup_delete_eq. split; [by intros []|]. intros He.
      exfalso. apply (Hel e He). by apply list_elem_of_singleton.
    * rewrite lookup_delete_ne by done. destruct (decide (x = k)) as [->|Hxk].
      -- rewrite lookup_insert_eq. split; [|by eexists]. intros _.
         destruct Hx as [Hx _]. destruct Hx as [?|?]; [by left|done|done].
      -- rewrite lookup_insert_ne, Hdom by done. split.
         ++ intros Hxl. destruct (proj1 Hx (or_intror Hxl)); done.
         ++ intros Hxl. by destruct (proj2 Hx (or_introl Hxl)).
  + rewrite evict_fits by (simpl; lia). cbn [entryList MaxSize].
    rewrite take_ge by (simpl; lia). split; [|done]. split; simpl.
    * intros x. rewrite elem_of_cons, <-Hdom. destruct (decide (x = k)) as [->|Hxk].
      -- rewrite lookup_insert_eq. split; [by left|by eexists].
      -- rewrite lookup_insert_ne by done. split; [by right|by intros [?|?]].
    * by constructor.
    * done.
    * lia.
Qed.

Lemma pushes_ok c ks : list_ok c →
let c' := fold_left (λ c kv, PushFront c kv.1 kv.2) ks c in
list_ok c' ∧ MaxSize c' = MaxSize c ∧
entryList c' = fold_left (push_recent (MaxSize c)) (map fst ks) (entryList c).
Proof.
revert c. induction ks as [|[k v] ks IH]; intros c Hc; simpl; [done|].
destruct (PushFront_ok c k v Hc) as (Hc1 & En & El).
destruct (IH _ Hc1) as (Hc2 & En2 & El2). split_and!; [done|congruence|].
by rewrite El2, En, El.
Qed.
End indexed_list.

(** * The cache *)
Section ttl.
Context (chksum0 : string → nat).

Lemma bucket_of_insert (m : LCache) i b k :
i < length m →
bucket_of chksum0 (<[i := b]> m) k = if decide (chksum0 k = i) then b else bucket_of chksum0 m k.
Proof.
intros Hlt. unfold bucket_of, LCache in *. case_decide as E.
- by rewrite E, list_lookup_insert_eq.
- by rewrite list_lookup_insert_ne.
Qed.

Lemma bucket_of_put m k k' v ttl now :
chksum0 k < length m →
bucket_of chksum0 (LCache_Put chksum0 m k v ttl now) k' !! k' =
  if decide (k' = k) then
    Some (mkItem (match bucket_of chksum0 m k !! k with Some it => item_value it | None => v end)
            (now + ttl) now)
  else bucket_of chksum0 m k' !! k'.
Proof.
intros Hlt. unfold LCache_Put. rewrite bucket_of_insert by done.
destruct (decide (k' = k)) as [->|Hne].
- rewrite decide_True by done. rewrite lookup_insert_eq. by destruct (bucket_of chksum0 m k !! k).
- case_decide as E; [|done]. rewrite lookup_insert_ne by done. unfold bucket_of. by rewrite E.
Qed.

(** Dropping an expired key is not seen by a later [Get]. *)
Lemma expire_drop_get later t bm k k' :
(later ≤ t)%Z →
match expire_drop later bm k !! k' with
| Some it => if expired it t then None else Some (item_value it)
| None => None
end =
match bm !! k' with
| Some it => if expired it t then None else Some (item_value it)
| None => None
end.
Proof.
intros Hle. unfold expire_drop. destruct (bm !! k) as [it|] eqn:E; [|done].
destruct (expired it later) eqn:El; [|done].
destruct (decide (k' = k)) as [->|Hne].
- rewrite lookup_delete_eq, E. unfold expired in *.
  assert ((item_expire it <? t)%Z = true) as -> by (apply Z.ltb_lt in El; apply Z.ltb_lt; lia). done.
- by rewrite lookup_delete_ne.
Qed.

Lemma expire_bucket_get now later t bm k :
(later ≤ t)%Z →
match expire_bucket now later bm !! k with
| Some it => if expired it t then None else Some (item_value it)
| None => None
end =
match bm !! k with
| Some it => if expired it t then None else Some (item_value it)
| None => None
end.
Proof.
intros Hle. unfold expire_bucket. generalize (expire_scan now bm) as l. intros l. revert bm.
induction l as [|x l IH]; intros bm; simpl; [done|]. by rewrite IH, expire_drop_get.
Qed.

(** A tick takes from the cache nothing that a later [Get] would have found. *)
Lemma expire_tick_get times (m : LCache) k t :
length times = length m → (∀ x, x ∈ times → (x.2 ≤ t)%Z) →
LCache_Get chksum0 (expire_tick times m) k t = LCache_Get chksum0 m k t.
Proof.
intros Hl Ht. unfold LCache_Get, bucket_of, expire_tick. unfold LCache in *. rewrite lookup_zip_with.
destruct (m !! chksum0 k) as [bm|] eqn:Em; cbn; [|by destruct (times !! _)].
destruct (lookup_lt_is_Some_2 times (chksum0 k)) as [x Hx].
{ rewrite Hl. by eapply lookup_lt_Some. }
rewrite Hx. cbn. apply expire_bucket_get. apply Ht. by eapply list_elem_of_lookup_2.
Qed.

(** What the cache answers after a tick is what it would have answered without. *)
Lemma Cache_Get_tick times (c : LCache) k t :
length times = length c → (∀ x, x ∈ times → (x.2 ≤ t)%Z) →
Cache_Get chksum0 k t (expire_tick times c) = Cache_Get chksum0 k t c.
Proof. intros Hl Ht. unfold Cache_Get. by rewrite expire_tick_get. Qed.
End ttl.

(** * Counters *)
Lemma int64_add a b : int64 (int64 a + b) = int64 (a + b).
Proof.
  unfold int64. f_equal. replace ((a + 2 ^ 63) mod 2 ^ 64 - 2 ^ 63 + b + 2 ^ 63)%Z
    with ((a + 2 ^ 63) mod 2 ^ 64 + b)%Z by lia.
  rewrite Zplus_mod_idemp_l. f_equal. lia.
Qed.

Lemma int64_small z : (- 2 ^ 63 ≤ z < 2 ^ 63)%Z → int64 z = z.
Proof. intros Hz. unfold int64. rewrite Z.mod_small by lia. lia. Qed.

Definition counter_value (c : CounterID) (v : string) : Z := default 0%Z (c !! v).

Lemma counter_add c v v' delta :
  (∀ x, int64 (counter_value c x) = counter_value c x) →
  counter_value (CounterID_Add c v delta) v' =
  int64 (counter_value c v' + if decide (v' = v) then delta else 0).
Proof.
  intros Hc. unfold CounterID_Add, counter_value, CounterID in *. destruct (decide (v' = v)) as [->|Hne].
  - destruct (c !! v); rewrite lookup_insert_eq; done.
  - rewrite Z.add_0_r. specialize (Hc v'). rewrite Hc.
    destruct (c !! v); by rewrite lookup_insert_ne.
Qed.

Lemma int64_idemp z : int64 (int64 z) = int64 z.
Proof. pose proof (int64_add z 0) as E. by rewrite !Z.add_0_r in E. Qed.

Lemma counter_wrapped c v delta :
  (∀ x, int64 (counter_value c x) = counter_value c x) →
  ∀ x, int64 (counter_value (CounterID_Add c v delta) x) = counter_value (CounterID_Add c v delta) x.
Proof. intros Hc x. rewrite counter_add by done. apply int64_idemp. Qed.

Lemma counter_adds c l v :
  (∀ x, int64 (counter_value c x) = counter_value c x) →
  counter_value (fold_left (λ c vd, CounterID_Add c vd.1 vd.2) l c) v =
  int64 (counter_value c v + sum_with (λ vd, if decide (v = vd.1) then vd.2 else 0%Z) l).
Proof.
  revert c. induction l as [|[x d] l IH]; intros c Hc; simpl.
  - by rewrite Z.add_0_r, Hc.
  - rewrite IH by by apply counter_wrapped. rewrite counter_add by done.
    rewrite int64_add. f_equal. lia.
Qed.

(** * The retry delay *)
Definition sleeping (retries sleepDuration sleepDurationMax : Z) (m : nat) : RetrySleeper :=
  mkRetrySleeper (Z.of_nat m) retries (if (retries <? Z.of_nat m)%Z then sleepDuration else 0)
    sleepDuration sleepDurationMax.

Lemma inc_step rt sd sm m :
  (0 < sd)%Z → (Z.of_nat m < 2 ^ 64 - 1)%Z →
  RetrySleeper_Inc (sleeping rt sd sm m) =
    (sleeping rt sd sm (S m), if (Z.of_nat m <? rt)%Z then 0%Z else sd).
Proof.
  intros Hs Hm. unfold RetrySleeper_Inc, sleeping. cbn [counter retries sleepTime sleepDuration sleepDurationMax].
  rewrite wrap64_small by (unfold is_u64; lia). rewrite Nat2Z.inj_succ. unfold Z.succ.
  destruct (rt <? Z.of_nat m + 1)%Z eqn:E1; destruct (Z.of_nat m <? rt)%Z eqn:E2;
    destruct (rt <? Z.of_nat m)%Z eqn:E3; rewrite ?Z.ltb_lt, ?Z.ltb_ge in *; try lia.
  - by rewrite Z.ltb_irrefl.
  - assert ((0 <? sd)%Z = true) as -> by (by apply Z.ltb_lt). done.
  - done.
Qed.

Lemma iter_inc rt sd sm m :
  (0 ≤ rt)%Z → (0 < sd)%Z → (Z.of_nat m < 2 ^ 64 - 1)%Z →
  Nat.iter m (λ r, (RetrySleeper_Inc r).1) (NewRetrySleeper rt sd sm) = sleeping rt sd sm m.
Proof.
  intros Hr Hs. induction m as [|m IH]; intros Hm; simpl.
  - unfold sleeping. change (Z.of_nat 0) with 0%Z.
    assert ((rt <? 0)%Z = false) as -> by (by apply Z.ltb_ge). done.
  - rewrite IH by lia. by rewrite inc_step by lia.
Qed.

(** * Properties *)

(** C35. The list of seen keys is the list of the most recent new ones: after any
    pushes on a fresh list, it holds exactly what keeping the last [maxSize] keys
    pushed while absent gives, most recent first, at most [max 1 maxSize] of them
    and each once, and [Exists] answers for exactly these keys. *)
Theorem indexed_list_recent {K V : Type} `{Countable K} (maxSize : Z) (pushes : list (K * V)) :
  let c := fold_left (λ c kv, PushFront c kv.1 kv.2) pushes (NewIndexedList maxSize) in
  let n := Z.to_nat (Z.max 1 maxSize) in
  entryList c = fold_left (push_recent n) (map fst pushes) [] ∧
  NoDup (entryList c) ∧ length (entryList c) ≤ n ∧
  ∀ k, Exists c k = true ↔ k ∈ entryList c.
Proof.
  intros c n. pose proof (pushes_ok (NewIndexedList maxSize) pushes (new_list_ok maxSize)) as (Hc & En & El).
  fold c in Hc, En, El.
  assert (MaxSize (NewIndexedList (K:=K) (V:=V) maxSize) = n) as E.
  { unfold n. simpl. destruct (maxSize <=? 1)%Z eqn:E; [apply Z.leb_le in E|apply Z.leb_gt in E]; lia. }
  rewrite E in *. split_and!.
  - exact El.
  - apply Hc.
  - rewrite <-En. apply Hc.
  - intros k. by apply exists_iff.
Qed.

(** The cache never answers with an expired entry, and until it expires an
    entry answers with the value of the first [Put] since the key was last dropped:
    a later [Put] of a present key only renews the expiry.  Other keys are not
    affected, and neither are answers by the ticks that drop expired entries. *)
Theorem cache_answers (chksum0 : string → nat) (m : LCache) (k k' v : string) (ttl now t : Z)
    (now1 later : Z) i :
  chksum0 k < length m →
  LCache_Get chksum0 (LCache_Put chksum0 m k v ttl now) k' t =
    (if decide (k' = k) then
       if (now + ttl <? t)%Z then None
       else Some (match bucket_of chksum0 m k !! k with Some it => item_value it | None => v end)
     else LCache_Get chksum0 m k' t) ∧
  ((later ≤ t)%Z →
   LCache_Get chksum0 (alter (expire_bucket now1 later) i m) k' t = LCache_Get chksum0 m k' t).
Proof.
  intros Hlt. split.
  - unfold LCache_Get. rewrite bucket_of_put by done. by case_decide.
  - intros Hle. unfold LCache_Get.
    assert (bucket_of chksum0 (alter (expire_bucket now1 later) i m) k' =
            if decide (chksum0 k' = i) then expire_bucket now1 later (bucket_of chksum0 m k')
            else bucket_of chksum0 m k') as ->.
    { unfold bucket_of, LCache in *. case_decide as E.
      - rewrite E, list_lookup_alter_eq. by destruct (m !! i).
      - by rewrite list_lookup_alter_ne. }
    case_decide; [by apply expire_bucket_get|done].
Qed.

(** Whatever the order and the grouping of the concurrent additions, a counter
    is the 64-bit signed sum of the deltas added to it, and a snapshot has exactly
    the counters that are not zero. *)
Theorem counters_sum (adds : list (string * Z)) (v : string) :
  let c := fold_left (λ c vd, CounterID_Add c vd.1 vd.2) adds NewCounterID in
  let total := int64 (sum_with (λ vd, if decide (v = vd.1) then vd.2 else 0%Z) adds) in
  CounterID_Clone c !! v = if decide (total = 0%Z) then None else Some total.
Proof.
  intros c total. assert (counter_value c v = total) as E.
  { unfold c, total. rewrite counter_adds; [done|]. intros x. unfold counter_value, NewCounterID, CounterID.
    by rewrite lookup_empty. }
  unfold CounterID_Clone. unfold counter_value, CounterID in *.
  rewrite map_lookup_filter. destruct (c !! v) as [z|] eqn:Ec; simpl in *.
  - subst z. case_decide as Ez.
    + by rewrite option_guard_False by (intros Hn; by apply Hn).
    + by rewrite option_guard_True.
  - by rewrite <-E, decide_True.
Qed.

(** C0. A retry sleeps for nothing during the first [retries] attempts, and for
    exactly [sleepDuration] at each later one: the delay never grows and
    [sleepDurationMax] is not used. *)
Theorem retry_delay (retries sleepDuration sleepDurationMax : Z) (n : nat) :
  (0 ≤ retries)%Z → (0 < sleepDuration)%Z → (Z.of_nat n < 2 ^ 64 - 1)%Z →
  let r := Nat.iter n (λ r, (RetrySleeper_Inc r).1) (NewRetrySleeper retries sleepDuration sleepDurationMax) in
  (RetrySleeper_Inc r).2 = if (Z.of_nat n <? retries)%Z then 0%Z else sleepDuration.
Proof.
  intros Hr Hs Hn r.
  unfold r. rewrite iter_inc by done. by rewrite inc_step by lia.
Qed.

(** A token amount below 2^63 prints as its decimal text; above, the
    conversion through [int] prints the negative number 2^64 below it. *)
Theorem token_amount_text (i : Z) :
  is_u64 i →
  Z_of_string (TokenAmountForUint64 i) = Some (if (i <? 2 ^ 63)%Z then i else (i - 2 ^ 64)%Z).
Proof.
  intros [Hi1 Hi2]. unfold TokenAmountForUint64. rewrite Z_of_to_string. f_equal.
  destruct (i <? 2 ^ 63)%Z eqn:E; [apply Z.ltb_lt in E; apply int64_small; lia|].
  apply Z.ltb_ge in E. unfold int64.
  replace (i + 2 ^ 63)%Z with (i - 2 ^ 63 + 1 * 2 ^ 64)%Z by lia.
  rewrite Z_mod_plus_full, Z.mod_small by lia. lia.
Qed.

(** * Witnesses *)
Lemma cache_answers_witness :
  LCache_Get String.length (LCache_Put String.length (LCache_Put String.length NewTTLMap "k" "old" 5 0)
    "k" "new" 5 3) "k" 7 = Some "old".
Proof.
  rewrite (proj1 (cache_answers String.length (LCache_Put String.length NewTTLMap "k" "old" 5 0)
    "k" "k" "new" 5 3 7 0 0 0 ltac:(vm_compute; lia))).
  vm_compute. reflexivity.
Defined.

Lemma token_amount_text_witness : Z_of_string (TokenAmountForUint64 (2 ^ 63)) = Some (- 2 ^ 63)%Z.
Proof. apply (token_amount_text (2 ^ 63)). split; [discriminate|reflexivity]. Defined.

Lemma retry_delay_witness :
  (RetrySleeper_Inc (Nat.iter 4 (λ r, (RetrySleeper_Inc r).1) (NewRetrySleeper 1 100 1000))).2 = 100%Z.
Proof. apply (retry_delay 1 100 1000 4); [discriminate|reflexivity..]. Defined.
