(* ===== verification/WorkerPool.v ===== *)
(** The pool of goroutines behind a job queue: utils/worker.go, with its threads and the
    end of [Finish].

    A step is what one goroutine does alone: a client that gives a job, a worker that takes
    one, has processed it, or sees that [doneCh] is closed, the caller of [Finish].  The
    processor itself is the client's: its call is in the hands of its worker until it
    returns. *)

From S2P Require Import Prelude Utils.

Inductive thread (J : Type) := Waiting | Working (job : J) | Exited.
Arguments Waiting {J}.
Arguments Working {J} job.
Arguments Exited {J}.

(** [Finish] : not called, between its tests, in [Close] after [close(w.doneCh)], returned. *)
Inductive finisher := NotCalled | Polling | Closing | Returned.

(** The queue, the workers, whether [doneCh] is closed; and two histories: the jobs that were
    taken from the channel and those whose processor has returned, in order. *)
Record pool (J : Type) := mkPool {
  p_worker : worker J;
  p_threads : list (thread J);
  p_doneCh : bool;
  p_finisher : finisher;
  p_taken : list J;
  p_processed : list J;
}.
Arguments mkPool {J}.
Arguments p_worker {J}.
Arguments p_threads {J}.
Arguments p_doneCh {J}.
Arguments p_finisher {J}.
Arguments p_taken {J}.
Arguments p_processed {J}.

Section pool.
Context {J : Type}.
Implicit Types s : pool J.

Definition NewWorker (queueSize queueCnt : nat) : pool J :=
mkPool (mkWorker [] queueSize) (replicate queueCnt Waiting) false NotCalled [] [].

(** The steps; a job given to an unbuffered channel goes from hand to hand. *)
Inductive event :=
| EEnque (job : J) | ETryEnque (job : J) | EHandoff (n : nat) (job : J)
| ETake (n : nat) | EProcessed (n : nat) | EDone (n : nat)
| EFinish | EPoll | EReturn.

Definition with_worker w s : pool J := mkPool w (p_threads s) (p_doneCh s) (p_finisher s) (p_taken s) (p_processed s).
Definition with_finisher f s : pool J := mkPool (p_worker s) (p_threads s) (p_doneCh s) f (p_taken s) (p_processed s).

(** A worker has received a job. *)
Definition received n job w s : pool J :=
mkPool w (<[n := Working job]> (p_threads s)) (p_doneCh s) (p_finisher s) (p_taken s ++ [job]) (p_processed s).

Definition is_waiting (t : thread J) : bool := match t with Waiting => true | _ => false end.
Definition is_exited (t : thread J) : bool := match t with Exited => true | _ => false end.

(** [None] : the goroutine cannot go on. *)
Definition step (e : event) s : option (pool J) :=
match e with
| EEnque job => w ← Enque (p_worker s) job; Some (with_worker w s)
| ETryEnque job => Some (with_worker (TryEnque (p_worker s) job) s)
| EHandoff n job =>
    match p_threads s !! n with
    | Some Waiting => if queueSize (p_worker s) =? 0 then Some (received n job (p_worker s) s) else None
    | _ => None
    end
| ETake n =>
    match p_threads s !! n with
    | Some Waiting => '(job, w) ← take_job (p_worker s); Some (received n job w s)
    | _ => None
    end
| EProcessed n =>
    match p_threads s !! n with
    | Some (Working job) => Some (mkPool (p_worker s) (<[n := Waiting]> (p_threads s)) (p_doneCh s) (p_finisher s)
                                    (p_taken s) (p_processed s ++ [job]))
    | _ => None
    end
| EDone n =>
    match p_threads s !! n with
    | Some Waiting => if p_doneCh s
                      then Some (mkPool (p_worker s) (<[n := Exited]> (p_threads s)) (p_doneCh s) (p_finisher s)
                                   (p_taken s) (p_processed s))
                      else None
    | _ => None
    end
| EFinish => match p_finisher s with NotCalled => Some (with_finisher Polling s) | _ => None end
| EPoll =>
    match p_finisher s with
    | Polling => Some (if IsFinished (p_worker s)
                       then mkPool (p_worker s) (p_threads s) true Closing (p_taken s) (p_processed s)
                       else s)                                   (* it sleeps *)
    | _ => None
    end
| EReturn =>
    match p_finisher s with
    | Closing => if forallb is_exited (p_threads s) then Some (with_finisher Returned s) else None
    | _ => None
    end
end.

Fixpoint run (es : list event) s : option (pool J) :=
match es with
| [] => Some s
| e :: es => s' ← step e s; run es s'
end.

(** The jobs that were given: those taken, and those in the channel. *)
Definition given s : list J := p_taken s ++ jobCh (p_worker s).

Definition hand (t : thread J) : list J := match t with Working job => [job] | _ => [] end.
Definition in_hand s : list J := flat_map hand (p_threads s).

(** * The invariant *)

Record pool_ok (queueCnt : nat) s : Prop := {
ok_taken : p_taken s ≡ₚ p_processed s ++ in_hand s;
ok_doneCh : p_doneCh s = match p_finisher s with Closing | Returned => true | _ => false end;
ok_exited : Exited ∈ p_threads s → p_doneCh s = true;
ok_returned : p_finisher s = Returned → Forall (λ t, t = Exited) (p_threads s);
ok_threads : length (p_threads s) = queueCnt;
ok_queue : length (jobCh (p_worker s)) ≤ queueSize (p_worker s);
}.

Lemma hand_insert (l : list (thread J)) n t t' : l !! n = Some t →
flat_map hand (<[n := t']> l) ++ hand t ≡ₚ flat_map hand l ++ hand t'.
Proof.
revert n. induction l as [|x l IH]; intros [|n] E; cbn in *; [done..| |].
- injection E as ->. rewrite (Permutation_app_comm (hand t' ++ _)), (Permutation_app_comm (hand t ++ _)), !(assoc_L (++)).
by rewrite (Permutation_app_comm (hand t)).
- rewrite <-!(assoc_L (++)). by rewrite (IH n E).
Qed.

(** What is in hand after a worker has changed. *)
Lemma hand_takes l n (job : J) : l !! n = Some Waiting → flat_map hand (<[n := Working job]> l) ≡ₚ flat_map hand l ++ [job].
Proof. intros E. pose proof (hand_insert l n _ (Working job) E) as H. cbn in H. by rewrite app_nil_r in H. Qed.
Lemma hand_gives l n (job : J) : l !! n = Some (Working job) → flat_map hand (<[n := Waiting]> l) ++ [job] ≡ₚ flat_map hand l.
Proof. intros E. pose proof (hand_insert l n _ Waiting E) as H. cbn in H. by rewrite app_nil_r in H. Qed.
Lemma hand_exits l n : l !! n = Some (@Waiting J) → flat_map hand (<[n := Exited]> l) ≡ₚ flat_map hand l.
Proof. intros E. pose proof (hand_insert l n _ Exited E) as H. cbn in H. by rewrite !app_nil_r in H. Qed.

Lemma new_worker_ok queueSize queueCnt : pool_ok queueCnt (NewWorker queueSize queueCnt).
Proof.
split; cbn.
- unfold in_hand. cbn. induction queueCnt; [done|]. by cbn.
- done.
- intros H. apply elem_of_replicate in H as [H _]. done.
- done.
- by rewrite length_replicate.
- lia.
Qed.

Lemma exited_insert (l : list (thread J)) n t : t ≠ Exited → Exited ∈ <[n := t]> l → Exited ∈ l.
Proof.
intros Ht H. apply list_elem_of_lookup in H as [i Hi]. apply list_elem_of_lookup. exists i.
destruct (decide (i = n)) as [->|]; [|by rewrite list_lookup_insert_ne in Hi].
apply list_lookup_insert_Some in Hi as [(_ & E & _)|[? _]]; done.
Qed.

(** Of a worker that is there after another one has changed, not to exit. *)
Lemma others_exited (l : list (thread J)) n t t' : l !! n = Some t → t ≠ Exited →
Forall (λ t, t = Exited) l → Forall (λ t, t = Exited) (<[n := t']> l).
Proof. intros E Ht Hl. rewrite Forall_lookup in Hl. by apply Hl in E. Qed.

Lemma step_ok k e s s' : pool_ok k s → step e s = Some s' → pool_ok k s'.
Proof.
intros [Ht Hd He Hr Hk Hq] E. destruct e as [job|job|n job|n|n|n| | |]; cbn in E.
- unfold Enque in E. destruct (Nat.ltb_spec (length (jobCh (p_worker s))) (queueSize (p_worker s))); [|done].
  injection E as <-. split; cbn; [done..|]. rewrite length_app. cbn. lia.
- injection E as <-. split; cbn; [done..|]. unfold TryEnque.
  destruct (Nat.ltb_spec (length (jobCh (p_worker s))) (queueSize (p_worker s))); [|done]. cbn. rewrite length_app. cbn. lia.
- destruct (p_threads s !! n) as [[| |]|] eqn:En; try done. destruct (_ =? _); [|done]. injection E as <-.
  split; cbn; [|done| |intros Hf; eapply others_exited; [exact En|discriminate|by apply Hr]|by rewrite length_insert|done].
  + unfold in_hand. cbn. rewrite hand_takes by done. by rewrite Ht, (assoc_L (++)).
  + intros H. apply He. by eapply exited_insert; [|exact H].
- destruct (p_threads s !! n) as [[| |]|] eqn:En; try done. unfold take_job in E.
  destruct (jobCh (p_worker s)) as [|j js] eqn:Ej; [done|]. injection E as <-.
  split; cbn; [|done| |intros Hf; eapply others_exited; [exact En|discriminate|by apply Hr]|by rewrite length_insert|cbn in Hq; lia].
  + unfold in_hand. cbn. rewrite hand_takes by done. by rewrite Ht, (assoc_L (++)).
  + intros H. apply He. by eapply exited_insert; [|exact H].
- destruct (p_threads s !! n) as [[|job|]|] eqn:En; try done. injection E as <-.
  split; cbn; [|done| |intros Hf; eapply others_exited; [exact En|discriminate|by apply Hr]|by rewrite length_insert|done].
  + unfold in_hand in *. cbn. rewrite Ht, <-(hand_gives _ _ _ En), <-(assoc_L (++)).
    by rewrite (Permutation_app_comm [job]).
  + intros H. apply He. by eapply exited_insert; [|exact H].
- destruct (p_threads s !! n) as [[| |]|] eqn:En; try done. destruct (p_doneCh s) eqn:Ed; [|done]. injection E as <-.
  split; cbn; [|done|done|intros Hf; eapply others_exited; [exact En|discriminate|by apply Hr]|by rewrite length_insert|done].
  unfold in_hand in *. cbn. by rewrite hand_exits.
- destruct (p_finisher s); try done. injection E as <-. by split.
- destruct (p_finisher s) eqn:Ef; try done. injection E as <-. destruct (IsFinished _); [|by split; rewrite ?Ef].
  by split.
- destruct (p_finisher s) eqn:Ef; try done. destruct (forallb is_exited (p_threads s)) eqn:Eb; [|done].
  injection E as <-. split; cbn; try done. intros _. rewrite forallb_forall in Eb. apply Forall_forall.
  intros t Hin. apply list_elem_of_In in Hin. apply Eb in Hin. by destruct t.
Qed.

Lemma pool_run_ok k es s s' : pool_ok k s → run es s = Some s' → pool_ok k s'.
Proof.
revert s. induction es as [|e es IH]; intros s Hok E; cbn in E; [by injection E as <-|].
destruct (step e s) as [s1|] eqn:E1; [|done]. cbn in E. eapply IH; [|exact E]. by eapply step_ok.
Qed.

(** * The histories only grow *)
Lemma step_grows k e s s' : pool_ok k s → step e s = Some s' → (∃ l, p_taken s' = p_taken s ++ l) ∧ ∃ l, given s' = given s ++ l.
Proof.
assert (∀ l : list J, ∃ l', l = l ++ l') as Hnil by (intros l; exists []; by rewrite app_nil_r).
intros Hok E. destruct e as [job|job|n job|n|n|n| | |]; cbn in E.
- unfold Enque in E. destruct (_ <? _); [|done]. injection E as <-. split; [apply Hnil|]. exists [job].
  unfold given. cbn. by rewrite (assoc_L (++)).
- injection E as <-. split; [apply Hnil|]. unfold given, TryEnque.
  destruct (Nat.ltb_spec (length (jobCh (p_worker s))) (queueSize (p_worker s))); cbn; [|apply Hnil].
  exists [job]. by rewrite (assoc_L (++)).
- destruct (p_threads s !! n) as [[| |]|]; try done. destruct (Nat.eqb_spec (queueSize (p_worker s)) 0) as [Eq|]; [|done].
  injection E as <-. split; [by eexists|]. exists [job]. unfold given. cbn.
  pose proof (ok_queue _ _ Hok) as Hl. rewrite Eq in Hl. destruct (jobCh (p_worker s)); [|cbn in Hl; lia]. by rewrite !app_nil_r.
- destruct (p_threads s !! n) as [[| |]|]; try done. unfold take_job in E.
  destruct (jobCh (p_worker s)) as [|j js] eqn:Ej; [done|]. injection E as <-. split; [by eexists|].
  exists []. unfold given. cbn. by rewrite Ej, app_nil_r, <-(assoc_L (++)).
- destruct (p_threads s !! n) as [[| |]|]; try done. injection E as <-. split; apply Hnil.
- destruct (p_threads s !! n) as [[| |]|]; try done. destruct (p_doneCh s); [|done]. injection E as <-. split; apply Hnil.
- destruct (p_finisher s); try done. injection E as <-. split; apply Hnil.
- destruct (p_finisher s); try done. injection E as <-. destruct (IsFinished _); split; apply Hnil.
- destruct (p_finisher s); try done. destruct (forallb _ _); [|done]. injection E as <-. split; apply Hnil.
Qed.

Lemma run_grows k es s s' : pool_ok k s → run es s = Some s' →
(∃ l, p_taken s' = p_taken s ++ l) ∧ ∃ l, given s' = given s ++ l.
Proof.
revert s. induction es as [|e es IH]; intros s Hok E; cbn in E.
{ injection E as <-. split; exists []; by rewrite app_nil_r. }
destruct (step e s) as [s1|] eqn:E1; [|done]. cbn in E.
destruct (step_grows _ _ _ _ Hok E1) as [[l1 H1] [l2 H2]]. destruct (IH s1) as [[l3 H3] [l4 H4]]; [by eapply step_ok|done|].
split; [exists (l1 ++ l3); by rewrite H3, H1, (assoc_L (++))|exists (l2 ++ l4); by rewrite H4, H2, (assoc_L (++))].
Qed.

(** * The end *)

(** What is left to do, when no job is given any more. *)
Definition weight (t : thread J) : nat := match t with Working _ => 2 | Waiting => 1 | Exited => 0 end.
Definition phase (f : finisher) : nat := match f with NotCalled => 3 | Polling => 2 | Closing => 1 | Returned => 0 end.
Definition left_to_do s : nat :=
2 * length (jobCh (p_worker s)) + sum_list_with weight (p_threads s) + phase (p_finisher s).
Definition gives (e : event) : bool := match e with EEnque _ | ETryEnque _ | EHandoff _ _ => true | _ => false end.

Lemma weight_insert (l : list (thread J)) n t t' : l !! n = Some t →
sum_list_with weight (<[n := t']> l) + weight t = sum_list_with weight l + weight t'.
Proof.
revert n. induction l as [|x l IH]; intros [|n] E; [done..| |].
- injection E as ->. change (weight t' + sum_list_with weight l + weight t = weight t + sum_list_with weight l + weight t'). lia.
- specialize (IH n E).
  change (weight x + sum_list_with weight (<[n := t']> l) + weight t = weight x + sum_list_with weight l + weight t'). lia.
Qed.

(** A step that gives no job brings the end nearer, but the test that fails. *)
Lemma step_nearer e s s' : step e s = Some s' → gives e = false → s' = s ∨ left_to_do s' < left_to_do s.
Proof.
intros E Hg. destruct e as [job|job|n job|n|n|n| | |]; try done; cbn in E; unfold left_to_do.
- destruct (p_threads s !! n) as [[| |]|] eqn:En; try done. unfold take_job in E.
  destruct (jobCh (p_worker s)) as [|j js] eqn:Ej; [done|]. injection E as <-. right.
  cbn [received with_finisher p_worker p_threads p_finisher jobCh length].
  pose proof (weight_insert _ _ _ (Working j) En) as H. cbn [weight] in H. lia.
- destruct (p_threads s !! n) as [[|job|]|] eqn:En; try done. injection E as <-. right.
  cbn [received with_finisher p_worker p_threads p_finisher jobCh length].
  pose proof (weight_insert _ _ _ Waiting En) as H. cbn [weight] in H. lia.
- destruct (p_threads s !! n) as [[| |]|] eqn:En; try done. destruct (p_doneCh s); [|done]. injection E as <-. right.
  cbn [received with_finisher p_worker p_threads p_finisher jobCh length].
  pose proof (weight_insert _ _ _ Exited En) as H. cbn [weight] in H. lia.
- destruct (p_finisher s) eqn:Ef; try done. injection E as <-. right. cbn. lia.
- destruct (p_finisher s) eqn:Ef; try done. injection E as <-. destruct (IsFinished _); [right; cbn; lia|by left].
- destruct (p_finisher s) eqn:Ef; try done. destruct (forallb _ _); [|done]. injection E as <-. right. cbn. lia.
Qed.

(** Who can go on: a worker with a job; before the end, one that waits, or the test of
[Finish]; after [close(w.doneCh)], one that waits, or [Finish] itself. *)
Lemma some_step k s : pool_ok k s → 0 < k → p_finisher s ≠ NotCalled → p_finisher s ≠ Returned →
∃ e s', gives e = false ∧ step e s = Some s' ∧ s' ≠ s.
Proof.
intros Hok Hk Hn Hr.
assert (∀ n t t', p_threads s !! n = Some t → t' ≠ t → <[n := t']> (p_threads s) ≠ p_threads s) as Hne.
{ intros n t t' En Ht Hl. apply Ht. assert (p_threads s !! n = Some t') as E; [|congruence].
  rewrite <-Hl. apply list_lookup_insert_eq. by eapply lookup_lt_Some. }
destruct (decide (List.Exists (λ t, hand t ≠ []) (p_threads s))) as [Hw|Hw].
{ apply Exists_exists in Hw as (t & Hin & Ht). apply list_elem_of_lookup in Hin as [n En]. destruct t as [|job|]; try done.
  exists (EProcessed n). cbn. rewrite En. eexists. split_and!; [done|done|]. intros Hs.
  apply (f_equal p_threads) in Hs. by eapply Hne in Hs. }
assert (Forall (λ t, t = Waiting ∨ t = Exited) (p_threads s)) as Hall.
{ apply Forall_forall. intros t Hin. destruct t as [|job|]; [by left| |by right]. destruct Hw. apply Exists_exists.
  by exists (Working job). }
destruct (p_finisher s) eqn:Ef; try done.
- destruct (jobCh (p_worker s)) as [|job js] eqn:Ej.
  + exists EPoll. cbn. rewrite Ef. unfold IsFinished, JobCnt. rewrite Ej. cbn. eexists. split_and!; [done|done|].
    intros Hs. apply (f_equal p_finisher) in Hs. rewrite Ef in Hs. discriminate.
  + destruct (lookup_lt_is_Some_2 (p_threads s) 0) as [t Et]; [by rewrite (ok_threads _ _ Hok)|].
    rewrite Forall_lookup in Hall. destruct (Hall _ _ Et) as [->| ->].
    2: { apply list_elem_of_lookup_2 in Et. apply (ok_exited _ _ Hok) in Et. rewrite (ok_doneCh _ _ Hok), Ef in Et. done. }
    exists (ETake 0). cbn. rewrite Et. unfold take_job. rewrite Ej. cbn. eexists. split_and!; [done|done|].
    intros Hs. apply (f_equal p_threads) in Hs. by eapply Hne in Hs.
- destruct (forallb is_exited (p_threads s)) eqn:Eb.
  + exists EReturn. cbn. rewrite Ef, Eb. eexists. split_and!; [done|done|].
    intros Hs. apply (f_equal p_finisher) in Hs. cbn in Hs. congruence.
  + apply not_true_iff_false in Eb. assert (List.Exists (λ t, t = Waiting) (p_threads s)) as Hx.
    { destruct (decide (List.Exists (λ t, is_waiting t = true) (p_threads s))) as [Hx|Hx].
      - eapply Exists_impl; [exact Hx|]. by intros [].
      - destruct Eb. apply forallb_forall. intros t Hin. apply list_elem_of_In in Hin. rewrite Forall_forall in Hall.
        destruct (Hall t Hin) as [->| ->]; [|done]. destruct Hx. apply Exists_exists. by exists Waiting. }
    apply Exists_exists in Hx as (t & Hin & ->). apply list_elem_of_lookup in Hin as [n En].
    exists (EDone n). cbn. rewrite En, (ok_doneCh _ _ Hok), Ef. eexists. split_and!; [done|done|].
    intros Hs. apply (f_equal p_threads) in Hs. by eapply Hne in Hs.
Qed.
Lemma run_app es es' s : run (es ++ es') s = s' ← run es s; run es' s'.
Proof. revert s. induction es as [|e es IH]; intros s; [done|]. cbn. destruct (step e s); [apply IH|done]. Qed.

(** The test that ends the loop of [Finish]. *)
Lemma poll_passed s s' : step EPoll s = Some s' → p_finisher s' = Closing → p_taken s' = given s ∧ p_doneCh s' = true.
Proof.
intros E Hc. cbn in E. destruct (p_finisher s) eqn:Ef; try done. injection E as <-.
destruct (IsFinished (p_worker s)) eqn:Ei; [|congruence]. unfold given, IsFinished, JobCnt in *. cbn.
apply Z.eqb_eq in Ei. destruct (jobCh (p_worker s)); [by rewrite app_nil_r|done].
Qed.

(** C34. [Finish] drains the pool.  Whatever the clients, the workers and the caller of [Finish] do
in between: when [Finish] returns, no job is in the hands of a worker, and the jobs that were
processed, each once, are all those given before the test that ended its loop, and those of
the later ones that were taken, a first part of them; the others are left in the channel.
And it does return, if there is a worker and no job is given any more: from every state there
is a step that brings the end nearer, and every other step but the test that fails, after
which [Finish] sleeps, brings it nearer too. *)
Theorem finish_drains queueSize queueCnt es s : run es (NewWorker queueSize queueCnt) = Some s →
(∀ es0 s0 s1 es1, es = es0 ++ EPoll :: es1 → run es0 (NewWorker queueSize queueCnt) = Some s0 →
   step EPoll s0 = Some s1 → p_finisher s1 = Closing → p_finisher s = Returned →
   in_hand s = [] ∧ ∃ later, given s = given s0 ++ later ++ jobCh (p_worker s) ∧ p_processed s ≡ₚ given s0 ++ later) ∧
(0 < queueCnt → p_finisher s ≠ NotCalled →
   (p_finisher s ≠ Returned → ∃ e s', gives e = false ∧ step e s = Some s' ∧ left_to_do s' < left_to_do s) ∧
   ∀ e s', gives e = false → step e s = Some s' → s' = s ∨ left_to_do s' < left_to_do s).
Proof.
intros E. pose proof (pool_run_ok _ _ _ _ (new_worker_ok queueSize queueCnt) E) as Hok. split.
- intros es0 s0 s1 es1 -> E0 E1 Hc Hr. pose proof (pool_run_ok _ _ _ _ (new_worker_ok queueSize queueCnt) E0) as Hok0.
  rewrite run_app, E0 in E. cbn [option_bind mbind run] in E. rewrite E1 in E. cbn [option_bind mbind] in E.
  assert (pool_ok queueCnt s1) as Hok1 by (by eapply step_ok).
  destruct (poll_passed _ _ E1 Hc) as [Ht Hg]. destruct (run_grows _ _ _ _ Hok1 E) as [[later Hl] _].
  assert (in_hand s = []) as Hh.
  { unfold in_hand. pose proof (ok_returned _ _ Hok Hr) as Hx. induction Hx as [|t l -> _ IH]; [done|exact IH]. }
  split; [done|]. exists later. split.
  + unfold given at 1. by rewrite Hl, Ht, (assoc_L (++)).
  + rewrite <-Ht, <-Hl. symmetry. rewrite (ok_taken _ _ Hok), Hh. by rewrite app_nil_r.
- intros Hk Hn. split; [|intros; by eapply step_nearer].
  intros Hr. destruct (some_step _ _ Hok Hk Hn Hr) as (e & s' & Hg & Es & Hne). exists e, s'.
  destruct (step_nearer _ _ _ Es Hg) as [?|?]; done.
Qed.
End pool.

(** The workers of a test: three jobs, two workers, one place in the queue. *)
Module PoolSample.
Definition steps : list (event (J:=nat)) :=
  [EEnque 1; ETake 0; EEnque 2; ETryEnque 3; ETake 1; EFinish; EProcessed 1; EPoll; EDone 1; EProcessed 0; EDone 0; EReturn].
Definition ended : pool nat := default (NewWorker 0 0) (run steps (NewWorker 1 2)).

(** The third job found the queue full. *)
Example ended_ok : p_finisher ended = Returned ∧ p_processed ended = [2; 1] ∧ given ended = [1; 2].
Proof. split_and!; reflexivity. Qed.

(** A job that is given after the test stays in the channel. *)
Example given_late : (λ s, (p_processed s, jobCh (p_worker s))) <$> run [EFinish; EPoll; EEnque 1; EDone 0; EReturn] (NewWorker 1 1) =
  Some ([], [1]).
Proof. reflexivity. Qed.

(** Without a worker, the job stays there, and [Finish] tests for ever. *)
Example no_worker : ∃ s, run [EEnque 1; EFinish] (NewWorker 1 0) = Some s ∧ step EPoll s = Some s.
Proof. eexists. split; reflexivity. Qed.
End PoolSample.

Lemma finish_drains_witness : ∃ later : list nat,
  given PoolSample.ended = [1; 2] ++ later ++ [] ∧ p_processed PoolSample.ended ≡ₚ [1; 2] ++ later.
Proof.
  destruct (finish_drains 1 2 PoolSample.steps PoolSample.ended) as [Hs _]; [reflexivity|].
  destruct (Hs (take 7 PoolSample.steps) (default (NewWorker 0 0) (run (take 7 PoolSample.steps) (NewWorker 1 2)))
    (default (NewWorker 0 0) (run (take 8 PoolSample.steps) (NewWorker 1 2))) (drop 8 PoolSample.steps))
    as (_ & later & Hg & Hp); [reflexivity..|].
  exists later. exact (conj Hg Hp).
Defined.
