(* ===== verification/Stream.v ===== *)
(** Streaming: the producers that copy the node's containers and blocks into the
    transaction pool (stream/producer_chain.go, stream/producer_axchain.go), and
    the consumers that index it (stream/consumer_db.go, stream/processor.go,
    stream/consumers/indexer.go). *)

From S2P Require Import Prelude Errors Sql MemDb Axia DbModel Persist Utils Models.

(** * stream/stream.go, stream/processor.go *)
Definition EventTypeConsensus : string := "consensus".
Definition EventTypeDecisions : string := "decisions".

Record Message := mkMessage {
  Message_id : string;
  Message_chainID : string;
  Message_body : option string;
  Message_timestamp : Z;
  Message_nanosecond : Z;
}.

Definition GetTopicName (networkID : Z) (chainID eventType : string) : string :=
  Z_to_string networkID +:+ "-" +:+ chainID +:+ "-" +:+ eventType.

Definition ErrNoMessage : error := "no message".

(** [strings.TrimPrefix(msg, "\n")] until nothing changes, then [TrimSuffix]: the
    message is the list of its characters. *)
Definition newline : Ascii.ascii := Ascii.ascii_of_nat 10.

Fixpoint trim_front (msg : list Ascii.ascii) : list Ascii.ascii :=
  match msg with
  | c :: msg' => if decide (c = newline) then trim_front msg' else msg
  | [] => []
  end.
Definition TrimNL (msg : string) : string :=
  let msg := trim_front (String.list_ascii_of_string msg) in
  String.string_of_list_ascii (reverse (trim_front (reverse msg))).

(** * The local queue

    A job of the queue [LocalTxPool] of capacity [MaxTxPoolSize]; a job read by the
    iterator shares a cell for the errors of its batch. *)
Definition MaxSizedList : Z := 20000.
Definition MaxTxPoolSize : nat := Z.to_nat 10000.

Record LocalTxPoolJob := mkLocalTxPoolJob { job_TxPool : TxPool; job_Errs : option nat }.

(** [Enqueue]: dropped when the queue is full; the iterator will find the row. *)
Definition Enqueue (queue : worker LocalTxPoolJob) (pool : TxPool) : worker LocalTxPoolJob :=
  TryEnque queue (mkLocalTxPoolJob pool None).

(** * stream/producer_chain.go *)
Definition MaxTxRead : Z := 500.

Inductive IndexedChain := IndexXChain | IndexCoreChain | IndexAXChain.

Definition IndexedChain_String (t : IndexedChain) : string :=
  match t with IndexXChain => "Swap" | IndexCoreChain => "Core" | IndexAXChain => "AX" end.

Definition IndexNotReady (err : error) : bool :=
  (has_prefix "start index" err && contains "last accepted index" err) ||
  has_prefix "received status code '404'" err.

Definition ChainNotReady (err : error) : bool :=
  has_prefix "no containers have been accepted" err || has_prefix "received status code '404'" err.

(** A container of the node's index (third-party record). *)
Record Container := mkContainer {
  Container_ID : ID;
  Container_Bytes : string;
  Container_Timestamp : Z;
}.

Section producer.
Context `{SqlEngine D} `{!Dbr} `{!AxiaIds} `{!Cfg}.

Record producerChainContainer := mkProducerChainContainer {
networkID : Z;
nodeinstance : string;
topic : string;
chainID : string;
indexerChain : IndexedChain;
}.

(** The database, the local queue, and the index in memory ([p.nodeIndex.Idx]). *)
Record producer_state := mkProducerState {
p_db : D;
p_queue : worker LocalTxPoolJob;
p_idx : Z;
}.

Definition lift_db {A} (m : M D A) : M producer_state A := λ s,
let '(d, r) := m (p_db s) in (mkProducerState d (p_queue s) (p_idx s), r).

Definition insertNodeIndex (nodeIndex : NodeIndex) : M D unit :=
InsertNodeIndex nodeIndex PerformUpdates.
Definition updateNodeIndex (nodeIndex : NodeIndex) : M D unit := UpdateNodeIndex nodeIndex.

Definition getIndex (p : producerChainContainer) : M producer_state unit :=
q ← lift_db (QueryNodeIndex (mkNodeIndex (nodeinstance p) (topic p) 0));
match q with
| (_, Some err) => throw err
| (nodeIndex, None) => modify (λ s, mkProducerState (p_db s) (p_queue s) (NodeIndex_Idx nodeIndex))
end.

(** [newContainer], after the connection is open. *)
Definition newContainer (p : producerChainContainer) : M producer_state unit :=
_ ← lift_db (insertNodeIndex (mkNodeIndex (nodeinstance p) (topic p) 0));
getIndex p.

(** The row of a container in the pool. *)
Definition container_txPool (p : producerChainContainer) (container : Container) : result TxPool :=
id ← match indexerChain p with
     | IndexAXChain => Ok (Container_ID container)
     | _ => ids_ToID (ComputeHash256 (Container_Bytes container))
     end;
TxPool_ComputeID {|
  TxPool_ID := "";
  TxPool_NetworkID := networkID p;
  TxPool_ChainID := chainID p;
  TxPool_MsgKey := ID_String id;
  TxPool_Serialization := Some (Container_Bytes container);
  TxPool_Processed := 0;
  TxPool_Topic := topic p;
  TxPool_CreatedAt := (Container_Timestamp container * 10 ^ 9)%Z;
|}.

Definition UpdateTxPool (txPool : TxPool) : M producer_state unit :=
_ ← lift_db (InsertTxPool txPool);
modify (λ s, mkProducerState (p_db s) (Enqueue (p_queue s) txPool) (p_idx s)).

Definition process_container (p : producerChainContainer) (container : Container) : M producer_state unit :=
txPool ← lift_result (container_txPool p container);
UpdateTxPool txPool.

(** [fetch] is [nodeIndexer.GetContainerRange]: from a start index, a number of
  containers at most. *)
Definition ProcessNextMessage (fetch : Z → Z → result (list Container)) (p : producerChainContainer)
  : M producer_state unit :=
idx ← gets p_idx;
match fetch idx MaxTxRead with
| Err err => if IndexNotReady err then mret tt else throw err
| Ok containers =>
    if (length containers =? 0) then throw ErrNoMessage
    else
      _ ← for_each containers (process_container p);
      let Idx := u64_add idx (Z.of_nat (length containers)) in
      _ ← lift_db (updateNodeIndex (mkNodeIndex (nodeinstance p) (topic p) Idx));
      modify (λ s, mkProducerState (p_db s) (p_queue s) Idx)
end.

(** How the processor loop answers an error of [ProcessNextMessage]: [None] goes on. *)
Definition processNextMessage_error (err : error) : option error :=
if decide (err = "context deadline exceeded") then None
else if decide (err = ErrNoMessage) then None
else if decide (err = "EOF") then Some "EOF"
else if ChainNotReady err then None else Some err.
End producer.
Arguments producer_state D : clear implicits.

(** * stream/consumer_db.go *)
Section consumer.
Context {S : Type}.

(** The retry of [Consume]: as long as the error is a lock error, sleeping in
  between; the time slept is returned. *)
Fixpoint consume_retry (fuel : nat) (persistConsume : M S unit) (rsleep : RetrySleeper) (slept : Z) (s : S)
  : option (S * result unit * Z) :=
match fuel with
| O => None
| Datatypes.S fuel' =>
    match persistConsume s with
    | (s', Ok _) => Some (s', Ok tt, slept)
    | (s', Err e) =>
        if ErrIsLockError e
        then let '(rsleep', t) := RetrySleeper_Inc rsleep in
             consume_retry fuel' persistConsume rsleep' (slept + t) s'
        else Some (s', Err e, slept)
    end
end.

(** [utils.NewRetrySleeper(1, 100*time.Millisecond, time.Second)] *)
Definition consume_sleeper : RetrySleeper := NewRetrySleeper 1 (100 * 10 ^ 6) (10 ^ 9).

(** [persistConsume]: by event type. *)
Definition persistConsume (eventType : string) (Consume ConsumeConsensus : Message → M S unit)
  (msg : Message) : M S unit :=
if decide (eventType = EventTypeDecisions) then Consume msg
else if decide (eventType = EventTypeConsensus) then ConsumeConsensus msg
else throw ("invalid eventType " +:+ eventType).

(** The message of a row of the pool. *)
Definition process_message (chainID : string) (row : TxPool) : Message :=
mkMessage (TxPool_MsgKey row) chainID (TxPool_Serialization row)
  (TxPool_CreatedAt row / 10 ^ 9) (TxPool_CreatedAt row mod 10 ^ 9).

(** [Process] on a row of the pool, for the writer whose two methods are given;
  [None] while it is still retrying. *)
Definition consumerDB_Process (fuel : nat) (eventType chainID : string)
  (Consume ConsumeConsensus : Message → M S unit) (row : TxPool) (s : S) : option (S * result unit) :=
match consume_retry fuel (persistConsume eventType Consume ConsumeConsensus (process_message chainID row))
        consume_sleeper 0 s with
| Some (s', r, _) => Some (s', r)
| None => None
end.
End consumer.

(** * stream/consumers/indexer.go *)
Definition MaximumRecordsRead : nat := Z.to_nat 10000.

Section indexer.
Context `{SqlEngine D} `{!Dbr} `{!AxiaAtomic}.

Record indexer_state := mkIndexerState {
i_db : D;
i_seen : indexedList string string;   (* sc.IndexedList *)
i_errs : Cells;
}.

(** [Process] of the processor of a topic; [None] when it does not return. *)
Definition ProcessorDB : Type := TxPool → D → option (D * result unit).

Definition set_processed (v : TxPool) : TxPool :=
mkTxPool (TxPool_ID v) (TxPool_NetworkID v) (TxPool_ChainID v) (TxPool_MsgKey v)
  (TxPool_Serialization v) 1 (TxPool_Topic v) (TxPool_CreatedAt v).

(** [if txd.Errs != nil { txd.Errs.SetValue(err) }] *)
Definition report (errs : option nat) (e : error) (m : Cells) : Cells :=
match errs with Some c => SetValue c e m | None => m end.

(** The job is not skipped, and its processor. *)
Definition job_processor (fsm : gmap string ProcessorDB) (seen : indexedList string string)
  (errs : Cells) (txd : LocalTxPoolJob) : option ProcessorDB :=
if Exists seen (TxPool_ID (job_TxPool txd)) then None
else if bool_decide (is_Some (c ← job_Errs txd; GetValue c errs)) then None
else fsm !! TxPool_Topic (job_TxPool txd).

(** [c.updateTxPollStatus] and what follows, after [Process] returned no error. *)
Definition mark_processed (txd : LocalTxPoolJob) (s : indexer_state) : indexer_state :=
let tx := set_processed (job_TxPool txd) in
match UpdateTxPoolStatus tx (i_db s) with
| (d, Err e) => mkIndexerState d (i_seen s) (report (job_Errs txd) e (i_errs s))
| (d, Ok _) => mkIndexerState d (PushFront (i_seen s) (TxPool_ID tx) (TxPool_ID tx)) (i_errs s)
end.

(** One job taken by [handleTxPool]. *)
Definition handleTxPool_job (fsm : gmap string ProcessorDB) (txd : LocalTxPoolJob) (s : indexer_state)
  : option indexer_state :=
match job_processor fsm (i_seen s) (i_errs s) txd with
| None => Some s
| Some p =>
    match p (job_TxPool txd) (i_db s) with
    | None => None
    | Some (d, Err e) => Some (mkIndexerState d (i_seen s) (report (job_Errs txd) e (i_errs s)))
    | Some (d, Ok _) => Some (mark_processed txd (mkIndexerState d (i_seen s) (i_errs s)))
    end
end.

(** The topics of the processors: a topic has one processor. *)
Fixpoint register_topics (f : ProcessorDB) (topics : list string)
  (st : gmap string ProcessorDB * list string) : result (gmap string ProcessorDB * list string) :=
match topics with
| [] => Ok st
| topic :: rest =>
    let '(fsm, topicNames) := st in
    match fsm !! topic with
    | Some _ => Err ("duplicate topic " +:+ topic)
    | None => register_topics f rest (<[topic := f]> fsm, topicNames ++ [topic])
    end
end.

Fixpoint register_all (factories : list (ProcessorDB * list string))
  (st : gmap string ProcessorDB * list string) : result (gmap string ProcessorDB * list string) :=
match factories with
| [] => Ok st
| (f, topics) :: rest =>
    match register_topics f topics st with
    | Err e => Err e
    | Ok st' => register_all rest st'
    end
end.

(** The rows the iterator reads: unprocessed, of a known topic, oldest first. *)
Fixpoint insert_oldest (r : row) (l : list row) : list row :=
match l with
| [] => [r]
| x :: l' =>
    if (as_time (r !! "created_at") <=? as_time (x !! "created_at"))%Z
    then r :: l else x :: insert_oldest r l'
end.

Definition wanted (topicNames : list string) (r : row) : bool :=
matches [CEq "processed" (VNum 0)] r &&
existsb (λ t, matches [CEq "topic" (VStr t)] r) topicNames.

Definition unprocessed_query (topicNames : list string) (c : content) : list TxPool :=
map (λ r, load_TxPool (restrict TxPool_columns r))
  (foldr insert_oldest [] (List.filter (wanted topicNames) (c TableTxPool))).

(** The state of the loop of [iterateTxPool]: the rows not yet read, the cell of
  its errors, and the number of jobs sent. *)
Record iteration := mkIteration {
it_rows : list TxPool;
it_errs : nat;
readMessages : nat;
}.

(** One turn of the loop: [None] leaves it, otherwise a job may be sent. *)
Definition iterate_row (seen : indexedList string string) (errs : Cells) (it : iteration)
  : option (iteration * option LocalTxPoolJob) :=
match it_rows it with
| [] => None
| txp :: rest =>
    if bool_decide (is_Some (GetValue (it_errs it) errs)) then None
    else if MaximumRecordsRead <? readMessages it then None
    else if Exists seen (TxPool_ID txp)
         then Some (mkIteration rest (it_errs it) (readMessages it), None)
         else Some (mkIteration rest (it_errs it) (S (readMessages it)),
                    Some (mkLocalTxPoolJob txp (Some (it_errs it))))
end.
End indexer.
Arguments indexer_state D {_}.
