(* ===== verification/StreamAx.v ===== *)
(** Streaming of the AX chain: the producer that reads its blocks
    (stream/producer_axchain.go, with [New] of modelsc/cblock.go), and the
    consumer of its three topics (stream/consumer_axchain_db.go). *)

From S2P Require Import Prelude Errors Sql MemDb Axia DbModel Persist Utils Models Prog AxcWriter CvmWriter Stream.

(** * modelsc/cblock.go

    What the program reads of a [types.Block] (third-party). *)
Record EthBlock := mkEthBlock {
  EthBlock_Number : Z;
  EthBlock_Time : Z;
  EthBlock_Nonce : Z;
  EthBlock_Hash : string;
  EthBlock_ParentHash : string;
  EthBlock_ExtData : option string;
  EthBlock_Transactions : list RawTx;
}.

(** The uncles and the version of a block are not used by the indexer. *)
Definition modelsc_New (bl : EthBlock) : CBlock := {|
  CBlock_Number := EthBlock_Number bl;
  CBlock_Time := EthBlock_Time bl;
  CBlock_Nonce := EthBlock_Nonce bl;
  CBlock_Hash := EthBlock_Hash bl;
  CBlock_ParentHash := EthBlock_ParentHash bl;
  CBlock_ExtraData := default "" (EthBlock_ExtData bl);
  CBlock_Txs := EthBlock_Transactions bl;
|}.

Record BlockContainer := mkBlockContainer {
  BC_Block : EthBlock;
  BC_Traces : list TransactionTrace;
  BC_Logs : list EthLog;
}.

(** The JSON of the pool's rows, both ways. *)
Class AxJson := {
  json_trace : TransactionTrace → result string;
  json_log : EthLog → result string;
  json_block : CBlock → result string;
  unjson_trace : string → result TransactionTrace;
  unjson_log : string → result EthLog;
  unjson_cblock : string → result (CBlock * list string);      (* with its TxsBytes *)
  unjson_tx : string → result RawTx;
}.

(** [block.Txs = append(block.Txs, tr)], for each. *)
Definition append_txs (b : CBlock) (txs : list RawTx) : CBlock :=
  mkCBlock (CBlock_Number b) (CBlock_Time b) (CBlock_Nonce b) (CBlock_Hash b) (CBlock_ParentHash b)
    (CBlock_ExtraData b) (CBlock_Txs b ++ txs).

Definition cblock_Unmarshal `{!AxJson} (data : string) : result CBlock :=
  '(block, txs) ← modelsc_Unmarshal unjson_cblock unjson_tx data; Ok (append_txs block txs).

(** * stream/producer_axchain.go *)
Record ProducerAXChain := mkProducerAXChain {
  ax_networkID : Z;
  ax_chainID : string;
}.
Definition ax_topic (p : ProducerAXChain) : string :=
  Z_to_string (ax_networkID p) +:+ "-" +:+ ax_chainID p +:+ "-axchain".
Definition ax_topicTrc (p : ProducerAXChain) : string :=
  Z_to_string (ax_networkID p) +:+ "-" +:+ ax_chainID p +:+ "-axchain-trc".
Definition ax_topicLogs (p : ProducerAXChain) : string :=
  Z_to_string (ax_networkID p) +:+ "-" +:+ ax_chainID p +:+ "-axchain-logs".

(** An answer of the tests made at every turn of a loop: [IsStopped] and the errors
    of [errs] and [catchupErrs]. *)
Inductive verdict := Go | Stopped | Failed (e : error).

Section axchain.
Context `{SqlEngine D} `{!AxiaIds}.

(** The greatest block number stored (-1 when there is none) and their number. *)
Definition stored_blocks (c : content) : list Z := map (λ r, col_num r "block") (c TableCvmBlocks).

Definition getBlock : M D (Z * Z) :=
select (λ c, (fold_left Z.max (stored_blocks c) (-1)%Z, Z.of_nat (length (stored_blocks c)))).

(** [runProcessor] starts a catch-up to [block + 1] when blocks are missing. *)
Definition needs_catchup (block blockCount : Z) : option Z :=
let pblockp1 := (block + 1)%Z in
if (blockCount <? pblockp1)%Z then Some pblockp1 else None.

Section loops.
(** [check n] : the [n]-th test. *)
Context (check : nat → verdict).

(** The inner loop of [catchupBlock], of [n] turns from [startBlock]: the missing
blocks are sent to [msgChan]; whether it was left early. *)
Fixpoint catchup_range (n : nat) (tick : nat) (blockMap : gset Z) (startBlock : Z) : list Z * nat * bool :=
match n with
| O => ([], tick, false)
| S n' =>
  match check tick with
  | Go =>
      let '(sent, tick', halted) := catchup_range n' (S tick) blockMap (startBlock + 1) in
      (if bool_decide (startBlock ∈ blockMap) then sent else startBlock :: sent, tick', halted)
  | _ => ([], tick, true)
  end
end.

(** [select block where block >= startBlock and block < endBlock] *)
Definition blocks_between (startBlock endBlock : Z) (c : content) : gset Z :=
list_to_set (List.filter (λ b, (startBlock <=? b)%Z && (b <? endBlock)%Z) (stored_blocks c)).

(** The outer loop, by ranges of 100000; a failed query stops it.  A loop that is
left because the producer is stopped is not taken up again. *)
Fixpoint catchupBlock (fuel : nat) (tick : nat) (catchupBlock_ startBlock endBlock : Z) (d : D)
: option (D * list Z) :=
if (endBlock <? catchupBlock_)%Z then
match fuel with
| O => None
| S fuel' =>
    match check tick with
    | Go =>
        let endBlock := (startBlock + 100000)%Z in
        let endBlock := if (catchupBlock_ <=? endBlock)%Z then catchupBlock_ else endBlock in
        match select (blocks_between startBlock endBlock) d with
        | (d', Err _) => Some (d', [])
        | (d', Ok blockMap) =>
            let '(sent, tick', halted) :=
              catchup_range (Z.to_nat (endBlock - startBlock)) (S tick) blockMap startBlock in
            if halted then Some (d', sent)
            else
              match catchupBlock fuel' tick' catchupBlock_ endBlock endBlock d' with
              | None => None
              | Some (d'', sent') => Some (d'', sent ++ sent')
              end
        end
    | _ => Some (d, [])
    end
end
else Some (d, []).

(** The loop of [ProcessNextMessage], of [n] turns: the blocks sent to [msgChan],
and the new [p.block]. *)
Fixpoint send_next (n : nat) (tick : nat) (block : Z) : list Z * Z * result unit :=
match n with
| O => ([], block, Ok tt)
| S n' =>
  match check tick with
  | Stopped => ([], block, Ok tt)
  | Failed e => ([], block, Err e)
  | Go => let '(sent, b, r) := send_next n' (S tick) (block + 1) in ((block + 1)%Z :: sent, b, r)
  end
end.

(** [latest] is the answer of the node, [errs] the error of a worker once the
channel is empty. *)
Definition ax_ProcessNextMessage (latest : result Z) (errs : option error) (block : Z)
: list Z * Z * result unit :=
match latest with
| Err e => ([], block, Err e)
| Ok lblocknext =>
  if (lblocknext <=? block)%Z then ([], block, Err ErrNoMessage)
  else
    let '(sent, b, r) := send_next (Z.to_nat (lblocknext - block)) 0 block in
    match r, errs with
    | Ok _, Some e => (sent, b, Err e)
    | _, _ => (sent, b, r)
    end
end.
End loops.

Definition updateBlock (blockNumber updateTime : Z) : M D unit :=
InsertCvmBlocks (mkCvmBlocks (Z_to_string blockNumber) updateTime).

(** [strings.HasSuffix] *)
Definition has_suffix (suffix s : string) : bool :=
bool_decide (String.substring (String.length s - String.length suffix) (String.length suffix) s = suffix) &&
(String.length suffix <=? String.length s).

Definition AXChainNotReady (err : error) : bool :=
has_prefix "404 Not Found" err || has_prefix "503 Service Unavailable" err ||
has_suffix "connect: connection refused" err || has_suffix "read: connection reset by peer" err.

(** How [runProcessor] answers an error of [ProcessNextMessage]: [None] goes on. *)
Definition ax_processNextMessage_error (catchupErrs : option error) (r : result unit) : option error :=
match catchupErrs, r with
| Some e, _ => Some e
| None, Ok _ => None
| None, Err err =>
    if decide (err = "context deadline exceeded") then None
    else if decide (err = ErrNoMessage) then None
    else if decide (err = "EOF") then Some "EOF"
    else if AXChainNotReady err then None else Some err
end.

Context `{!AxJson} (p : ProducerAXChain).

(** A row of the pool, for the text its message key is hashed from. *)
Definition ax_txPool (idsv topic body : string) (time : Z) : result TxPool :=
id ← ids_ToID (ComputeHash256 idsv);
TxPool_ComputeID {|
  TxPool_ID := "";
  TxPool_NetworkID := ax_networkID p;
  TxPool_ChainID := ax_chainID p;
  TxPool_MsgKey := ID_String id;
  TxPool_Serialization := Some body;
  TxPool_Processed := 0;
  TxPool_Topic := topic;
  TxPool_CreatedAt := time;
|}.

Definition trace_txPool (time : Z) (t : TransactionTrace) : result TxPool :=
bits ← json_trace t;
ax_txPool (Trace_Hash t +:+ ":" +:+ Z_to_string (Trace_Idx t)) (ax_topicTrc p) bits time.

Definition log_txPool (time : Z) (l : EthLog) : result TxPool :=
bits ← json_log l;
ax_txPool (EthLog_BlockHash l +:+ ":" +:+ EthLog_TxHash l +:+ ":" +:+ Z_to_string (EthLog_Index l))
  (ax_topicLogs p) bits time.

Definition block_txPool (time : Z) (b : CBlock) : result TxPool :=
bits ← json_block b;
ax_txPool (Z_to_string (CBlock_Number b)) (ax_topic p) bits time.

Definition put_row (tp : result TxPool) : M (producer_state D) unit :=
txPool ← lift_result tp;
UpdateTxPool txPool.

(** The traces, the logs, then the block. *)
Definition processWork (bc : BlockContainer) (time : Z) : M (producer_state D) unit :=
let cblk := modelsc_New (BC_Block bc) in
_ ← for_each (BC_Traces bc) (λ t, put_row (trace_txPool time t));
_ ← for_each (BC_Logs bc) (λ l, put_row (log_txPool time l));
put_row (block_txPool time cblk).

(** What a worker of [blockProcessor] does with a block number: the answer of its
  node is recorded, and the block after it.  The error goes to the cell of the
  work, unless the cell has one already. *)
Definition index_block (readBlock : Z → result BlockContainer) (time blockNumber : Z)
  : M (producer_state D) unit :=
bc ← lift_result (readBlock blockNumber);
_ ← processWork bc time;
lift_db (updateBlock blockNumber time).

Definition blockProcessor_work `{!AxiaAtomic} (readBlock : Z → result BlockContainer) (time : Z)
  (work : nat * Z) (s : producer_state D * Cells) : producer_state D * Cells :=
let '(errs, blockNumber) := work in
let '(ps, cells) := s in
match GetValue errs cells with
| Some _ => s
| None =>
    match index_block readBlock time blockNumber ps with
    | (ps', Err e) => (ps', SetValue errs e cells)
    | (ps', Ok _) => (ps', cells)
    end
end.
End axchain.

(** * stream/consumer_axchain_db.go *)
Section consumer.
Context `{SqlEngine D} `{!AxiaIds} `{!AxiaMath} `{!AxiaCrypto} `{!Cfg} `{!CvmCodec} `{!AxJson}.
Context (Propagate : error → string → error) (clock : nat → Z) (fuel : nat).
Context (p : ProducerAXChain) (w : cvm.Writer).

(** The retry that ends [Consume], [ConsumeTrace] and [ConsumeLogs]. *)
Definition ax_retry (persistConsume : M D unit) (d : D) : option (D * result unit) :=
match consume_retry fuel persistConsume consume_sleeper 0 d with
| Some (d', r, _) => Some (d', r)
| None => None
end.

Definition ax_Consume (msg : Message) (d : D) : option (D * result unit) :=
match cblock_Unmarshal (default "" (Message_body msg)) with
| Err e => Some (d, Err e)
| Ok block =>
    ax_retry (cvm.Consume Propagate clock w (Message_timestamp msg) (Message_nanosecond msg)
      (CBlock_ExtraData block) block) d
end.

Definition ax_ConsumeTrace (msg : Message) (d : D) : option (D * result unit) :=
match unjson_trace (default "" (Message_body msg)) with
| Err e => Some (d, Err e)
| Ok transactionTrace =>
    ax_retry (cvm.ConsumeTrace clock (Message_timestamp msg) (Message_nanosecond msg)
      transactionTrace) d
end.

Definition ax_ConsumeLogs (msg : Message) (d : D) : option (D * result unit) :=
match unjson_log (default "" (Message_body msg)) with
| Err e => Some (d, Err e)
| Ok txLogs =>
    ax_retry (cvm.ConsumeLogs clock (Message_timestamp msg) (Message_nanosecond msg)
      (default "" (Message_body msg)) txLogs) d
end.

(** [Process]: by the topic of the row. *)
Definition consumerAXChainDB_Process (row : TxPool) (d : D) : option (D * result unit) :=
let msg := process_message (ax_chainID p) row in
if decide (TxPool_Topic row = ax_topic p) then ax_Consume msg d
else if decide (TxPool_Topic row = ax_topicTrc p) then ax_ConsumeTrace msg d
else if decide (TxPool_Topic row = ax_topicLogs p) then ax_ConsumeLogs msg d
else Some (d, Ok tt).
End consumer.
