(* ===== verification/Pool.v ===== *)
(** The transaction pool as a shared structure: what the statements of the
    producers and of the workers do to the rows of [tx_pool] and [node_index]. *)

From S2P Require Import Prelude Errors Sql Axia DbModel Persist Persistence Utils Models Stream.

(** * The rows of the pool *)
Definition row_id (r : row) (id : string) : Prop := r !! "id" = Some (VStr id).
Definition row_processed (r : row) : Prop := r !! "processed" = Some (VNum 1).

Definition has_row (rs : list row) (id : string) : Prop := ∃ r, r ∈ rs ∧ row_id r id.
Definition all_processed (rs : list row) (id : string) : Prop :=
  has_row rs id ∧ ∀ r, r ∈ rs → row_id r id → row_processed r.

Record pool_ok (fin : list string) (rs : list row) : Prop := {
  pool_unique : unique_rows TableTxPool rs;
  pool_row r : r ∈ rs → ∃ id, row_id r id ∧ (row_processed r → id ∈ fin);
}.

(** Rows are never lost, nor what is processed. *)
Record advances (rs rs' : list row) : Prop := {
  advances_has id : has_row rs id → has_row rs' id;
  advances_processed id : all_processed rs id → all_processed rs' id;
}.

#[global] Instance has_row_proper : Proper ((≡ₚ) ==> (=) ==> iff) has_row.
Proof. intros l l' E ? id ->. unfold has_row. by setoid_rewrite E. Qed.
#[global] Instance all_processed_proper : Proper ((≡ₚ) ==> (=) ==> iff) all_processed.
Proof. intros l l' E ? id ->. unfold all_processed. by setoid_rewrite E. Qed.
#[global] Instance pool_ok_proper fin : Proper ((≡ₚ) ==> iff) (pool_ok fin).
Proof.
  intros l l' E. split; intros [Hu Hr]; split;
    first [by rewrite <-E | by rewrite E | intros r; rewrite <-E; apply Hr | intros r; rewrite E; apply Hr].
Qed.

#[global] Instance advances_preorder : PreOrder advances.
Proof.
  split.
  - intros l. by split.
  - intros l1 l2 l3 [H1 H2] [H3 H4]. split; intros; auto.
Qed.

Lemma advances_perm rs rs' : rs ≡ₚ rs' → advances rs rs'.
Proof. intros E. split; intros id; by rewrite E. Qed.

#[global] Instance advances_proper : Proper ((≡ₚ) ==> (≡ₚ) ==> iff) advances.
Proof.
  intros l1 l1' E1 l2 l2' E2. split; intros Ha.
  - transitivity l1; [by apply advances_perm|]. transitivity l2; [done|by apply advances_perm].
  - transitivity l1'; [by apply advances_perm|]. transitivity l2'; [done|by apply advances_perm].
Qed.

Lemma pool_ok_mono fin fin' rs : fin ⊆ fin' → pool_ok fin rs → pool_ok fin' rs.
Proof.
  intros Hf [Hu Hr]. split; [done|]. intros r Hin. destruct (Hr r Hin) as (id & Hid & Hp).
  exists id. auto.
Qed.

Lemma row_id_eq r id id' : row_id r id → row_id r id' → id = id'.
Proof. unfold row_id. congruence. Qed.

Lemma txpool_keys : unique_keys TableTxPool = [["id"]].
Proof. reflexivity. Qed.

(** ** Inserting a row that is not processed *)
Lemma new_txpool_id tp : row_id (new_row TableTxPool (TxPool_pairs tp)) (TxPool_ID tp).
Proof. unfold row_id. by rewrite lookup_new_row. Qed.

Lemma new_txpool_processed tp :
  new_row TableTxPool (TxPool_pairs tp) !! "processed" = Some (VNum (TxPool_Processed tp)).
Proof. by rewrite lookup_new_row. Qed.

Lemma clashes_txpool tp rs :
  clashes TableTxPool (new_row TableTxPool (TxPool_pairs tp)) rs = true ↔ has_row rs (TxPool_ID tp).
Proof.
  unfold clashes. rewrite txpool_keys, existsb_exists. split.
  - intros (k & [<-|[]] & (r & Hr & E%bool_decide_eq_true)%existsb_exists).
    exists r. split; [by apply list_elem_of_In|]. unfold project in E. simpl in E.
    injection E as E. unfold row_id. rewrite <-E. apply new_txpool_id.
  - intros (r & Hr & Hid). exists ["id"]. split; [by left|]. apply existsb_exists.
    exists r. split; [by apply list_elem_of_In|]. apply bool_decide_eq_true.
    unfold project. simpl. f_equal. rewrite Hid. apply new_txpool_id.
Qed.

Lemma pool_insert fin tp c c' :
  TxPool_Processed tp = 0%Z → insert_or_keep TableTxPool (TxPool_pairs tp) c c' →
  pool_ok fin (c TableTxPool) →
  pool_ok fin (c' TableTxPool) ∧ advances (c TableTxPool) (c' TableTxPool) ∧
  has_row (c' TableTxPool) (TxPool_ID tp).
Proof.
  intros H0 [(Hc & Ht & _)|[Hc E]] [Hu Hr].
  - split_and!.
    + rewrite Ht. split; [by apply unique_rows_insert|]. intros r [ ->|Hin]%elem_of_cons; [|by apply Hr].
      exists (TxPool_ID tp). split; [apply new_txpool_id|]. unfold row_processed.
      rewrite new_txpool_processed, H0. by intros [=].
    + assert (∀ id, has_row (c TableTxPool) id → has_row (c' TableTxPool) id) as Hm.
      { intros id (r & Hin & Hid). rewrite Ht. exists r. split; [by right|done]. }
      split; [done|]. intros id [Hh Hp]. split; [by apply Hm|].
      intros r. rewrite Ht. intros [->|Hin]%elem_of_cons; [|by apply Hp].
      intros Hid. pose proof (row_id_eq _ _ _ Hid (new_txpool_id tp)) as ->.
      apply clashes_txpool in Hh. congruence.
    + exists (new_row TableTxPool (TxPool_pairs tp)). rewrite Ht. split; [left|apply new_txpool_id].
  - rewrite <-(E TableTxPool). split_and!; [by split|done|by apply clashes_txpool].
Qed.

(** ** Marking a row *)
Lemma update_status_row tp r id :
  TxPool_Processed tp = 1%Z → row_id r id →
  let r' := update_row [("processed", SetVal (VNum (TxPool_Processed tp)))] (TxPool_where tp) r in
  row_id r' id ∧ (row_processed r' ↔ row_processed r ∨ id = TxPool_ID tp).
Proof.
  intros H1 Hid. unfold update_row, matches, TxPool_where, row_id, row_processed in *. simpl.
  rewrite Hid, H1. destruct (bool_decide _) eqn:E; simpl.
  - apply bool_decide_eq_true in E as [Eid _]. injection Eid as ->.
    rewrite lookup_insert_ne, lookup_insert_eq by done. split; [done|].
    split; [by right|done].
  - apply bool_decide_eq_false in E. split; [done|]. split; [by left|].
    intros [Hp| ->]; [done|]. by destruct E.
Qed.

Lemma pool_update fin tp c c' :
  TxPool_Processed tp = 1%Z → TxPool_ID tp ∈ fin →
  updated TableTxPool [("processed", SetVal (VNum (TxPool_Processed tp)))] (TxPool_where tp) c c' →
  pool_ok fin (c TableTxPool) →
  pool_ok fin (c' TableTxPool) ∧ advances (c TableTxPool) (c' TableTxPool) ∧
  (has_row (c TableTxPool) (TxPool_ID tp) → all_processed (c' TableTxPool) (TxPool_ID tp)).
Proof.
  intros H1 Hin [Ht _] [Hu Hr]. set (upd := update_row _ _) in Ht.
  assert (∀ r, r ∈ c TableTxPool → ∃ id, row_id r id ∧ row_id (upd r) id ∧
    (row_processed (upd r) ↔ row_processed r ∨ id = TxPool_ID tp) ∧ (row_processed r → id ∈ fin)) as Hrow.
  { intros r Hr'. destruct (Hr r Hr') as (id & Hid & Hp). exists id.
    destruct (update_status_row tp r id H1 Hid). auto. }
  assert (∀ id, has_row (c TableTxPool) id → has_row (c' TableTxPool) id) as Hm.
  { intros id (r & Hin' & Hid). destruct (Hrow r Hin') as (id' & Hid' & Hu' & _).
    rewrite Ht. exists (upd r). split; [by apply list_elem_of_fmap_2|].
    by rewrite (row_id_eq _ _ _ Hid Hid'). }
  split_and!.
  - rewrite Ht. split; [by apply sets_no_key_unique|].
    intros r' (r & -> & Hin')%list_elem_of_fmap. destruct (Hrow r Hin') as (id & _ & Hid & Hp & Hf).
    exists id. split; [done|]. rewrite Hp. intros [?| ->]; auto.
  - split; [done|]. intros id [Hh Hp]. split; [by apply Hm|].
    intros r'. rewrite Ht. intros (r & -> & Hin')%list_elem_of_fmap Hid'.
    destruct (Hrow r Hin') as (id' & Hid & Hidu & Hpr & _).
    pose proof (row_id_eq _ _ _ Hid' Hidu) as ->. apply Hpr. left. by apply Hp.
  - intros Hh. split; [by apply Hm|]. intros r'. rewrite Ht.
    intros (r & -> & Hin')%list_elem_of_fmap Hid'.
    destruct (Hrow r Hin') as (id' & Hid & Hidu & Hpr & _).
    apply Hpr. right. by apply (row_id_eq (upd r)).
Qed.

(** * The rows of the node index *)
Definition my_index (p : producerChainContainer) (r : row) : bool :=
  matches (NodeIndex_where (mkNodeIndex (nodeinstance p) (topic p) 0)) r.

(** The index a producer finds for its topic satisfies [P]. *)
Definition index_ok (p : producerChainContainer) (P : Z → Prop) (rs : list row) : Prop :=
  ∀ r, r ∈ rs → my_index p r = true → P (col_num r "idx").

#[global] Instance index_ok_proper p P : Proper ((≡ₚ) ==> iff) (index_ok p P).
Proof. intros l l' E. unfold index_ok. by setoid_rewrite E. Qed.

Lemma index_ok_mono p (P Q : Z → Prop) rs :
  (∀ z, P z → Q z) → index_ok p P rs → index_ok p Q rs.
Proof. intros HPQ Hi r Hr Hm. by apply HPQ, Hi. Qed.

Lemma my_index_true p r :
  my_index p r = true ↔
  r !! "instance" = Some (VStr (nodeinstance p)) ∧ r !! "topic" = Some (VStr (topic p)).
Proof.
  unfold my_index, matches, NodeIndex_where. simpl.
  rewrite !andb_true_iff, !bool_decide_eq_true. split; [by intros ([? _] & [? _] & _)|by intros [? ?]].
Qed.

(** [v] is the index of this producer only if [P] holds of what it writes. *)
Definition index_allowed (p : producerChainContainer) (P : Z → Prop) (v : NodeIndex) : Prop :=
  NodeIndex_Instance v = nodeinstance p → NodeIndex_Topic v = topic p → P (NodeIndex_Idx v).

Lemma index_insert p P v c c' :
  index_allowed p P v → insert_or_keep TableNodeIndex (NodeIndex_pairs v) c c' →
  index_ok p P (c TableNodeIndex) → index_ok p P (c' TableNodeIndex).
Proof.
  intros Hv [(_ & Ht & _)|[_ E]] Hi; [|by rewrite <-(E TableNodeIndex)].
  rewrite Ht. intros r [ ->|Hr]%elem_of_cons Hm; [|by apply Hi].
  apply my_index_true in Hm as [Hin Hto]. rewrite lookup_new_row in Hin, Hto.
  unfold col_num. rewrite lookup_new_row. simpl in *.
  apply Hv; congruence.
Qed.

Lemma index_update p P v c c' :
  index_allowed p P v →
  updated TableNodeIndex [("idx", SetVal (VNum (NodeIndex_Idx v)))] (NodeIndex_where v) c c' →
  index_ok p P (c TableNodeIndex) → index_ok p P (c' TableNodeIndex).
Proof.
  intros Hv [Ht _] Hi. rewrite Ht. intros r' (r & -> & Hr)%list_elem_of_fmap Hm.
  unfold update_row in *. destruct (matches (NodeIndex_where v) r) eqn:Ev; [|by apply Hi].
  simpl in *. unfold col_num. rewrite lookup_insert_eq. simpl.
  apply my_index_true in Hm as [Hin Hto]. rewrite !lookup_insert_ne in Hin, Hto by done.
  unfold matches, NodeIndex_where in Ev. simpl in Ev.
  rewrite !andb_true_iff, !bool_decide_eq_true in Ev. destruct Ev as ([Ei _] & [Et _] & _).
  apply Hv; congruence.
Qed.

(** * What an operation of the persistence layer does to both tables *)
Definition allowed (p : producerChainContainer) (fin : list string) (P : Z → Prop) (o : pop) : Prop :=
  match o with
  | PInsert (ETxPool tp) _ => TxPool_Processed tp = 0%Z
  | PUpdateTxPoolStatus tp => TxPool_Processed tp = 1%Z ∧ TxPool_ID tp ∈ fin
  | PInsert (ENodeIndex v) _ | PUpdateNodeIndex v => index_allowed p P v
  | _ => True
  end.

(** The rows of the two tables are in order. *)
Record tables_ok (p : producerChainContainer) (fin : list string) (P : Z → Prop) (c : content) : Prop := {
  tables_unique : unique_content c;
  tables_pool : pool_ok fin (c TableTxPool);
  tables_index : index_ok p P (c TableNodeIndex);
}.

#[global] Instance tables_ok_proper p fin P : Proper (content_eq ==> iff) (tables_ok p fin P).
Proof.
  intros c c' E. split; intros [Hu Hp Hi]; split;
    first [by rewrite <-E | by rewrite E | by rewrite <-(E _) | by rewrite (E _)].
Qed.

(** The statements such an operation executes. *)
Definition stmt_allowed (p : producerChainContainer) (fin : list string) (P : Z → Prop) (st : stmt) : Prop :=
  match st with
  | Insert t ps =>
      (t = TableTxPool → ∃ tp, ps = TxPool_pairs tp ∧ TxPool_Processed tp = 0%Z) ∧
      (t = TableNodeIndex → ∃ v, ps = NodeIndex_pairs v ∧ index_allowed p P v)
  | Update t sets w =>
      (t = TableTxPool → ∃ tp, sets = [("processed", SetVal (VNum (TxPool_Processed tp)))] ∧
         w = TxPool_where tp ∧ TxPool_Processed tp = 1%Z ∧ TxPool_ID tp ∈ fin) ∧
      (t = TableNodeIndex → ∃ v, sets = [("idx", SetVal (VNum (NodeIndex_Idx v)))] ∧
         w = NodeIndex_where v ∧ index_allowed p P v)
  end.

Lemma allowed_stmts p fin P o : allowed p fin P o → Forall (stmt_allowed p fin P) (pop_stmts o).
Proof.
  intros Ho. destruct o as [e upd| | | | |].
  - destruct e, upd; repeat constructor; try (intros; discriminate); intros _; eauto.
  - repeat constructor; intros; discriminate.
  - repeat constructor; intros; discriminate.
  - repeat constructor; intros; discriminate.
  - destruct Ho. repeat constructor; [eauto|intros; discriminate].
  - repeat constructor; [intros; discriminate|eauto].
Qed.

Section tables.
Context `{SqlEngine D} `{!SqlEngineOk D} (p : producerChainContainer).
Implicit Types d : D.

(** Everything stays in order, and the pool advances from [c0]. *)
Definition advanced (c0 : content) fin P d : Prop :=
tables_ok p fin P (rows d) ∧ advances (c0 TableTxPool) (rows d TableTxPool).

Lemma advanced_refl fin P d : tables_ok p fin P (rows d) → advanced (rows d) fin P d.
Proof. by split. Qed.

Lemma advanced_rows c0 fin P d d' : rows d ≡ᶜ rows d' → advanced c0 fin P d → advanced c0 fin P d'.
Proof.
intros E [Ht Ha]. split; [by rewrite <-E|]. by rewrite <-(E TableTxPool).
Qed.

Lemma exec_advanced c0 fin P st d :
stmt_allowed p fin P st → advanced c0 fin P d → advanced c0 fin P (exec st d).1.
Proof.
intros Hst Hd. pose proof (exec_unique st d (tables_unique _ _ _ _ (proj1 Hd))) as Hu.
destruct Hd as [[Hu0 Hp Hi] Ha].
destruct (exec st d) as [d' [[]|x]] eqn:E, st as [t ps|t sets w]; simpl in *.
- apply exec_insert in E as Hins. destruct Hins as (_ & _ & Hf).
  assert (insert_or_keep t ps (rows d) (rows d')) as Hk by (left; by apply exec_insert).
  destruct Hst as [Ht Hn].
  assert (pool_ok fin (rows d' TableTxPool) ∧ advances (rows d TableTxPool) (rows d' TableTxPool)) as [Hp' Ha'].
  { destruct (decide (TableTxPool = t)) as [<-|Hne]; [|by rewrite (Hf _ Hne)].
    destruct (Ht eq_refl) as (tp & -> & H0). destruct (pool_insert fin tp _ _ H0 Hk Hp) as (? & ? & _). done. }
  split; [split; [done|done|]|by transitivity (rows d TableTxPool)].
  destruct (decide (TableNodeIndex = t)) as [<-|Hne]; [|by rewrite (Hf _ Hne)].
  destruct (Hn eq_refl) as (v & -> & Hv). by eapply index_insert.
- apply exec_update in E as [Hup _]. pose proof Hup as [_ Hf]. destruct Hst as [Ht Hn].
  assert (pool_ok fin (rows d' TableTxPool) ∧ advances (rows d TableTxPool) (rows d' TableTxPool)) as [Hp' Ha'].
  { destruct (decide (TableTxPool = t)) as [<-|Hne]; [|by rewrite (Hf _ Hne)].
    destruct (Ht eq_refl) as (tp & -> & -> & H1 & Hin).
    destruct (pool_update fin tp _ _ H1 Hin Hup Hp) as (? & ? & _). done. }
  split; [split; [done|done|]|by transitivity (rows d TableTxPool)].
  destruct (decide (TableNodeIndex = t)) as [<-|Hne]; [|by rewrite (Hf _ Hne)].
  destruct (Hn eq_refl) as (v & -> & -> & Hv). by eapply index_update.
- apply exec_insert_err in E as [E _]. by apply (advanced_rows _ _ _ d).
- apply exec_update_err in E as [E _]. by apply (advanced_rows _ _ _ d).
Qed.

Lemma perform_advanced c0 fin P o d :
allowed p fin P o → advanced c0 fin P d → advanced c0 fin P (perform o d).1.
Proof.
intros Ho. apply (perform_invariant (advanced c0 fin P) (stmt_allowed p fin P)).
- intros st d0. apply exec_advanced.
- by apply allowed_stmts.
Qed.

Lemma advanced_mono c0 fin fin' (P Q : Z → Prop) d :
fin ⊆ fin' → (∀ z, P z → Q z) → advanced c0 fin P d → advanced c0 fin' Q d.
Proof.
intros Hf HPQ [[Hu Hp Hi] Ha]. split; [split; [done| |]|done].
- by eapply pool_ok_mono.
- by eapply index_ok_mono.
Qed.

(** What success adds. *)
Lemma InsertTxPool_has tp d d' :
InsertTxPool tp d = (d', Ok tt) → has_row (rows d' TableTxPool) (TxPool_ID tp).
Proof.
intros E. apply insert_ignore_dup_ok in E. apply clashes_txpool.
by eapply insert_or_keep_clashes.
Qed.

Lemma UpdateTxPoolStatus_done fin tp d d' :
unique_content (rows d) → pool_ok fin (rows d TableTxPool) →
TxPool_Processed tp = 1%Z → TxPool_ID tp ∈ fin →
UpdateTxPoolStatus tp d = (d', Ok tt) → has_row (rows d TableTxPool) (TxPool_ID tp) →
all_processed (rows d' TableTxPool) (TxPool_ID tp).
Proof.
intros Hu Hp H1 Hin E. apply update_ignore_dup_ok in E; [|reflexivity|apply Hu].
by destruct (pool_update fin tp _ _ H1 Hin E Hp) as (_ & _ & ?).
Qed.
End tables.
