(* ===== verification/PoolSystem.v ===== *)
(** The transaction pool at work: a transition system of a producer of containers,
    the iterator of the pool, the workers of [handleTxPool], and every other
    writer of the database, with the invariant of its reachable states. *)

From S2P Require Import Prelude Errors Sql Axia DbModel Persist Persistence Utils Models Stream Pool.

Section system.
Context `{SqlEngine D} `{!SqlEngineOk D} `{!Dbr} `{!DbrOk} `{!AxiaIds} `{!Cfg}
`{!AxiaAtomic} `{!AxiaAtomicOk}.

(** The producer, the history of containers its node has accepted and will accept,
  and the processors. *)
Context (p : producerChainContainer) (accepted : Z → Container).
Context (fsm : gmap string (ProcessorDB (D:=D))) (topicNames : list string).
Implicit Types d : D.

(** The node answers with consecutive containers of that history. *)
Definition faithful (fetch : Z → Z → result (list Container)) : Prop :=
∀ start n cs, fetch start n = Ok cs → ∀ i c, cs !! i = Some c → c = accepted (start + Z.of_nat i).

(** A processor leaves the pool and the indexes alone. *)
Definition framed (pr : ProcessorDB (D:=D)) : Prop := ∀ tx d d' r,
pr tx d = Some (d', r) → unique_content (rows d) →
unique_content (rows d') ∧ rows d' TableTxPool ≡ₚ rows d TableTxPool ∧
rows d' TableNodeIndex ≡ₚ rows d TableNodeIndex.

(** The rest of the program: other tables, other producers. *)
Definition foreign (o : pop) : Prop := allowed p [] (λ _, False) o.

Record world := mkWorld {
w_db : D;
w_queue : worker LocalTxPoolJob;
w_idx : Z;                                 (* p.nodeIndex.Idx *)
w_seen : indexedList string string;
w_errs : Cells;
w_running : list (LocalTxPoolJob * bool);  (* in the hands of a worker; Process returned *)
w_iter : option iteration;
w_cell : nat;                              (* the cell of the last iteration *)
w_read : list string;                      (* the ids it has gone through *)
w_done : list string;                      (* the ids Process has succeeded on *)
}.

Definition set_producer (w : world) (s : producer_state D) : world :=
mkWorld (p_db s) (p_queue s) (p_idx s) (w_seen w) (w_errs w) (w_running w) (w_iter w)
  (w_cell w) (w_read w) (w_done w).
Definition producer_of (w : world) : producer_state D := mkProducerState (w_db w) (w_queue w) (w_idx w).

Definition set_db (w : world) (d : D) : world := set_producer w (mkProducerState d (w_queue w) (w_idx w)).

Definition job_id (txd : LocalTxPoolJob) : string := TxPool_ID (job_TxPool txd).

(** The jobs on their way: queued, or in the hands of a worker. *)
Definition in_flight (w : world) (txd : LocalTxPoolJob) : Prop :=
txd ∈ jobCh (w_queue w) ∨ txd ∈ map fst (w_running w).

Inductive step : world → world → Prop :=
(* the producer starts, or starts again after an error *)
| step_new w s r :
  newContainer p (producer_of w) = (s, r) → step w (set_producer w s)
(* the producer asks its node for containers *)
| step_next w fetch s r :
  faithful fetch → ProcessNextMessage fetch p (producer_of w) = (s, r) →
  step w (set_producer w s)
(* another producer puts a row in the pool *)
| step_pool w tp s r :
  TxPool_Processed tp = 0%Z → UpdateTxPool tp (producer_of w) = (s, r) →
  step w (set_producer w s)
(* anything else is written *)
| step_foreign w o : foreign o → step w (set_db w (perform o (w_db w)).1)
(* a worker takes a job, and drops it or keeps it *)
| step_take w txd q :
  take_job (w_queue w) = Some (txd, q) →
  step w (mkWorld (w_db w) q (w_idx w) (w_seen w) (w_errs w)
    (match job_processor fsm (w_seen w) (w_errs w) txd with
     | Some _ => (txd, false) :: w_running w
     | None => w_running w
     end) (w_iter w) (w_cell w) (w_read w) (w_done w))
(* a worker runs Process *)
| step_process w l1 txd l2 pr d r :
  w_running w = l1 ++ (txd, false) :: l2 →
  fsm !! TxPool_Topic (job_TxPool txd) = Some pr → pr (job_TxPool txd) (w_db w) = Some (d, r) →
  step w (mkWorld d (w_queue w) (w_idx w) (w_seen w)
    (match r with Ok _ => w_errs w | Err e => report (job_Errs txd) e (w_errs w) end)
    (match r with Ok _ => l1 ++ (txd, true) :: l2 | Err _ => l1 ++ l2 end)
    (w_iter w) (w_cell w) (w_read w)
    (match r with Ok _ => job_id txd :: w_done w | Err _ => w_done w end))
(* a worker records that Process succeeded *)
| step_mark w l1 txd l2 s :
  w_running w = l1 ++ (txd, true) :: l2 →
  mark_processed txd (mkIndexerState (w_db w) (w_seen w) (w_errs w)) = s →
  step w (mkWorld (i_db s) (w_queue w) (w_idx w) (i_seen s) (i_errs s) (l1 ++ l2)
    (w_iter w) (w_cell w) (w_read w) (w_done w))
(* the iterator begins to read the pool, with a new cell *)
| step_open w cell d r :
  w_iter w = None → GetValue cell (w_errs w) = None →
  (∀ txd, in_flight w txd → job_Errs txd ≠ Some cell) →
  select (unprocessed_query topicNames) (w_db w) = (d, r) →
  step w (mkWorld d (w_queue w) (w_idx w) (w_seen w) (w_errs w) (w_running w)
    (match r with Ok txs => Some (mkIteration txs cell 0) | Err _ => None end)
    cell [] (w_done w))
(* the iterator skips a row *)
| step_skip w it it' :
  w_iter w = Some it → iterate_row (w_seen w) (w_errs w) it = Some (it', None) →
  step w (mkWorld (w_db w) (w_queue w) (w_idx w) (w_seen w) (w_errs w) (w_running w)
    (Some it') (w_cell w)
    (w_read w ++ map TxPool_ID (take 1 (it_rows it))) (w_done w))
(* the iterator sends a row, when the queue has room *)
| step_send w it it' txd q :
  w_iter w = Some it → iterate_row (w_seen w) (w_errs w) it = Some (it', Some txd) →
  Enque (w_queue w) txd = Some q →
  step w (mkWorld (w_db w) q (w_idx w) (w_seen w) (w_errs w) (w_running w)
    (Some it') (w_cell w)
    (w_read w ++ map TxPool_ID (take 1 (it_rows it))) (w_done w))
(* the iterator leaves its loop *)
| step_close w it :
  w_iter w = Some it → iterate_row (w_seen w) (w_errs w) it = None →
  step w (mkWorld (w_db w) (w_queue w) (w_idx w) (w_seen w) (w_errs w) (w_running w)
    None (w_cell w) (w_read w) (w_done w))
(* the process stops and starts again: only the database is left *)
| step_restart w cells :
  step w (mkWorld (w_db w) (mkWorker [] MaxTxPoolSize) 0 (NewIndexedList MaxSizedList) cells []
    None 0 [] (w_done w)).

Definition steps : world → world → Prop := rtc step.

(** A container is in the pool. *)
Definition container_stored (rs : list row) (i : Z) : Prop :=
∃ tp, container_txPool p (accepted i) = Ok tp ∧ has_row rs (TxPool_ID tp).

(** All the containers below [n] are. *)
Definition covered (rs : list row) (n : Z) : Prop :=
(0 ≤ n)%Z ∧ ∀ i, (0 ≤ i < n)%Z → container_stored rs i.

(** What happened to a row the iterator has gone through. *)
Definition accounted (w : world) (id : string) : Prop :=
all_processed (rows (w_db w) TableTxPool) id ∨
(∃ txd, in_flight w txd ∧ job_id txd = id ∧ job_Errs txd = Some (w_cell w)) ∨
is_Some (GetValue (w_cell w) (w_errs w)).

Record pool_inv (w : world) : Prop := {
inv_tables : tables_ok p (w_done w) (covered (rows (w_db w) TableTxPool)) (rows (w_db w));
inv_idx : covered (rows (w_db w) TableTxPool) (w_idx w);
inv_jobs txd : in_flight w txd → has_row (rows (w_db w) TableTxPool) (job_id txd);
inv_iter it txp : w_iter w = Some it → txp ∈ it_rows it →
  has_row (rows (w_db w) TableTxPool) (TxPool_ID txp) ∧ is_Some (fsm !! TxPool_Topic txp);
inv_topics txd : in_flight w txd → is_Some (job_Errs txd) →
  is_Some (fsm !! TxPool_Topic (job_TxPool txd));
inv_finished txd : (txd, true) ∈ w_running w → job_id txd ∈ w_done w;
inv_seen id : Exists (w_seen w) id = true → all_processed (rows (w_db w) TableTxPool) id;
inv_cell it : w_iter w = Some it → it_errs it = w_cell w;
inv_read id : id ∈ w_read w → accounted w id;
}.

(** ** What is in the pool stays *)
Lemma covered_mono rs rs' n : advances rs rs' → covered rs n → covered rs' n.
Proof.
intros Ha [Hn Hc]. split; [done|]. intros i Hi. destruct (Hc i Hi) as (tp & Ht & Hr).
exists tp. split; [done|]. by apply Ha.
Qed.

Lemma covered_zero rs : covered rs 0.
Proof. split; [done|lia]. Qed.

Lemma covered_le rs m n : (0 ≤ m ≤ n)%Z → covered rs n → covered rs m.
Proof. intros Hmn [_ Hc]. split; [lia|]. intros i Hi. apply Hc. lia. Qed.

Definition sound_db (fin : list string) d : Prop :=
tables_ok p fin (covered (rows d TableTxPool)) (rows d).

Lemma perform_sound fin o d :
allowed p fin (covered (rows d TableTxPool)) o → sound_db fin d →
sound_db fin (perform o d).1 ∧ advances (rows d TableTxPool) (rows (perform o d).1 TableTxPool).
Proof.
intros Ho Hd. destruct (perform_advanced p (rows d) fin _ o d Ho (advanced_refl _ _ _ _ Hd)) as [[Hu Hp Hi] Ha].
split; [split; [done|done|]|done]. eapply index_ok_mono; [|exact Hi].
intros z. by apply covered_mono.
Qed.

Lemma sound_db_rows fin d d' : rows d ≡ᶜ rows d' → sound_db fin d → sound_db fin d'.
Proof.
intros E [Hu Hp Hi]. split; [by rewrite <-E|by rewrite <-(E TableTxPool)|].
rewrite <-(E TableNodeIndex). eapply index_ok_mono; [|exact Hi]. intros z.
apply covered_mono, advances_perm, E.
Qed.

(** ** The producer *)

(** The queue [q] has the jobs of [q0], and new ones for rows of the pool. *)
Definition queue_grows (q0 q : worker LocalTxPoolJob) (rs : list row) : Prop :=
(∀ txd, txd ∈ jobCh q0 → txd ∈ jobCh q) ∧
∀ txd, txd ∈ jobCh q → txd ∈ jobCh q0 ∨ (has_row rs (job_id txd) ∧ job_Errs txd = None).

Record producer_ok (fin : list string) (q0 : worker LocalTxPoolJob) (rs0 : list row)
  (s : producer_state D) : Prop := {
producer_sound : sound_db fin (p_db s);
producer_advances : advances rs0 (rows (p_db s) TableTxPool);
producer_idx : covered (rows (p_db s) TableTxPool) (p_idx s);
producer_queue : queue_grows q0 (p_queue s) (rows (p_db s) TableTxPool);
}.

Lemma queue_grows_mono q0 q rs rs' : advances rs rs' → queue_grows q0 q rs → queue_grows q0 q rs'.
Proof.
intros Ha [Hq1 Hq2]. split; [done|]. intros txd Ht. destruct (Hq2 txd Ht) as [?|[? ?]]; [by left|].
right. split; [by apply Ha|done].
Qed.

Lemma queue_grows_refl q rs : queue_grows q q rs.
Proof. split; auto. Qed.

Section producing.
Context (fin : list string) (q0 : worker LocalTxPoolJob) (rs0 : list row).
Abbreviation ok := (producer_ok fin q0 rs0).

Lemma producer_perform o s :
allowed p fin (covered (rows (p_db s) TableTxPool)) o → ok s → ok (lift_db (perform o) s).1.
Proof.
intros Ho [Hs Ha Hi Hq]. destruct (perform_sound fin o (p_db s) Ho Hs) as [Hs' Ha'].
unfold lift_db. destruct (perform o (p_db s)) as [d r]; simpl in *. split; simpl.
- done.
- by transitivity (rows (p_db s) TableTxPool).
- by eapply covered_mono.
- by eapply queue_grows_mono.
Qed.

Lemma producer_set_idx s idx : covered (rows (p_db s) TableTxPool) idx → ok s →
ok (mkProducerState (p_db s) (p_queue s) idx).
Proof. intros Hi [Hs Ha _ Hq]. by split. Qed.

Lemma producer_rows s d : rows (p_db s) ≡ᶜ rows d → ok s → ok (mkProducerState d (p_queue s) (p_idx s)).
Proof.
intros E [Hs Ha Hi Hq]. pose proof (advances_perm _ _ (E TableTxPool)) as Hp. split; simpl.
- by eapply sound_db_rows.
- by transitivity (rows (p_db s) TableTxPool).
- by eapply covered_mono.
- by eapply queue_grows_mono.
Qed.

(** The index read back is one the table holds. *)
Lemma query_index_covered d d' q :
sound_db fin d → QueryNodeIndex (mkNodeIndex (nodeinstance p) (topic p) 0) d = (d', Ok (q, None)) →
covered (rows d' TableTxPool) (NodeIndex_Idx q).
Proof.
intros Hs Hq. apply query_load_answer in Hq as [E Hq].
pose proof (sound_db_rows fin d d' E Hs) as [_ _ Hi].
destruct Hq as [(e & _ & [=])|Hq].
destruct (load_one _ _ _ _) as [r|] eqn:El; [|done]. injection Hq as ->.
unfold load_one in El. destruct (found _ _) as [|r0 rs] eqn:Ef; [done|]. injection El as <-.
assert (r0 ∈ rows d' TableNodeIndex ∧ my_index p r0 = true) as [Hr Hm].
{ rewrite list_elem_of_In. pose proof (in_eq r0 rs) as Hin. rewrite <-Ef in Hin.
by apply filter_In in Hin. }
specialize (Hi r0 Hr Hm). unfold load_NodeIndex. simpl.
rewrite (NameMapping_ok "Idx" "idx" eq_refl), lookup_restrict. exact Hi.
Qed.

Lemma getIndex_ok s : ok s → ok (getIndex p s).1.
Proof.
intros Hs. unfold getIndex. rewrite bind_run. unfold lift_db.
destruct (QueryNodeIndex _ (p_db s)) as [d [[v [e|]]|e]] eqn:E; cbn.
- apply query_load_answer in E as [Er _]. by apply (producer_rows s d).
- pose proof (query_index_covered _ _ _ (producer_sound _ _ _ _ Hs) E) as Hi.
apply query_load_answer in E as [Er _].
by apply (producer_set_idx (mkProducerState d (p_queue s) (p_idx s))), producer_rows.
- exfalso. unfold QueryNodeIndex, query_load, attempt in E. rewrite bind_run in E.
by destruct (query_one _ _ _ (p_db s)).
Qed.

Lemma newContainer_ok s : ok s → ok (newContainer p s).1.
Proof.
intros Hs. unfold newContainer. rewrite bind_run.
pose proof (producer_perform (PInsert (ENodeIndex (mkNodeIndex (nodeinstance p) (topic p) 0)) PerformUpdates) s) as Hp.
cbn [perform sql_persist insert_entity] in Hp. unfold insertNodeIndex.
destruct (lift_db _ s) as [s1 [[]|e]]; simpl in *; [apply getIndex_ok|]; apply Hp; try done;
intros _ _; apply covered_zero.
Qed.

Lemma UpdateTxPool_ok tp s : TxPool_Processed tp = 0%Z → ok s → ok (UpdateTxPool tp s).1 ∧
∀ s', UpdateTxPool tp s = (s', Ok tt) → has_row (rows (p_db s') TableTxPool) (TxPool_ID tp).
Proof.
intros Htp Hs. unfold UpdateTxPool. rewrite bind_run.
pose proof (producer_perform (PInsert (ETxPool tp) false) s Htp Hs) as Hp.
cbn [perform sql_persist insert_entity] in Hp. unfold lift_db in *.
destruct (InsertTxPool tp (p_db s)) as [d [[]|e]] eqn:E; [|by split].
apply InsertTxPool_has in E. cbn in *. split; [|by intros s' [= <-]].
destruct Hp as [Hs' Ha Hi [Hq1 Hq2]]. split; try done. simpl in *. unfold Enqueue, TryEnque.
case_match; simpl; [|done]. split; simpl.
- intros txd Ht. apply elem_of_app. left. by apply Hq1.
- intros txd [Ht| ->%list_elem_of_singleton]%elem_of_app; [by apply Hq2|]. by right.
Qed.

End producing.

Lemma container_txPool_unprocessed c tp : container_txPool p c = Ok tp → TxPool_Processed tp = 0%Z.
Proof.
unfold container_txPool, TxPool_ComputeID, mbind, result_bind, mret, result_ret. intros E.
repeat case_match; by simplify_eq.
Qed.

(** The rows of the containers a loop has gone through are in the pool. *)
Lemma process_containers_ok fin q0 rs0 cs s : producer_ok fin q0 rs0 s →
producer_ok fin q0 rs0 (for_each cs (process_container p) s).1 ∧
∀ s', for_each cs (process_container p) s = (s', Ok tt) → ∀ c, c ∈ cs →
  ∃ tp, container_txPool p c = Ok tp ∧ has_row (rows (p_db s') TableTxPool) (TxPool_ID tp).
Proof.
revert s rs0. induction cs as [|c cs IH]; intros s rs0 Hs.
{ split; [done|]. intros s' _ c Hc. by apply elem_of_nil in Hc. }
simpl. rewrite bind_run. unfold process_container at 1 3. rewrite !bind_run. unfold lift_result.
destruct (container_txPool p c) as [tp|e] eqn:Ec; [|by split].
destruct (UpdateTxPool_ok fin q0 rs0 tp s) as [Hs1 Hh]; [by eapply container_txPool_unprocessed|done|].
destruct (UpdateTxPool tp s) as [s1 [[]|e]]; simpl in *; [|by split].
specialize (Hh s1 eq_refl). split; [by apply IH|].
intros s' Er c' [ ->|Hc]%elem_of_cons.
- exists tp. split; [done|].
  destruct (IH s1 (rows (p_db s1) TableTxPool)) as [[_ Ha _ _] _].
  { destruct Hs1. by split. }
  rewrite Er in Ha. by apply Ha.
- destruct (IH s1 rs0 Hs1) as [_ Hall]. by apply (Hall s').
Qed.

Lemma covered_app rs n cs idx :
covered rs n → (∀ i c, cs !! i = Some c → c = accepted (n + Z.of_nat i)) →
(∀ c, c ∈ cs → ∃ tp, container_txPool p c = Ok tp ∧ has_row rs (TxPool_ID tp)) →
(0 ≤ idx ≤ n + Z.of_nat (length cs))%Z → covered rs idx.
Proof.
intros [Hn Hc] Hcs Hin Hi. split; [lia|]. intros i Hlt.
destruct (decide (i < n)%Z) as [Hl|Hl]; [apply Hc; lia|].
destruct (lookup_lt_is_Some_2 cs (Z.to_nat (i - n))) as [c Hlk]; [lia|].
destruct (Hin c) as (tp & Ht & Hr); [by eapply list_elem_of_lookup_2|].
exists tp. split; [|done]. rewrite <-Ht. f_equal. symmetry. rewrite (Hcs _ _ Hlk). f_equal. lia.
Qed.

Lemma u64_add_le a b : (0 ≤ a)%Z → (0 ≤ b)%Z → (0 ≤ u64_add a b ≤ a + b)%Z.
Proof.
intros. unfold u64_add, wrap64. split; [by apply Z.mod_pos_bound|]. apply Z.mod_le; [lia|done].
Qed.

Lemma ProcessNextMessage_ok fin q0 rs0 fetch s : faithful fetch → producer_ok fin q0 rs0 s →
producer_ok fin q0 rs0 (ProcessNextMessage fetch p s).1.
Proof.
intros Hf Hs. unfold ProcessNextMessage, gets. rewrite bind_run.
destruct (fetch (p_idx s) MaxTxRead) as [cs|e] eqn:Ef; [|by destruct (IndexNotReady e)].
destruct (length cs =? 0); [done|]. rewrite bind_run.
destruct (process_containers_ok fin q0 rs0 cs s Hs) as [Hs1 Hin].
assert (p_idx (for_each cs (process_container p) s).1 = p_idx s) as Hidx.
{ apply (for_each_invariant (λ s1, p_idx s1 = p_idx s)); [|done]. intros c s1 _ <-.
  unfold process_container, UpdateTxPool, lift_result, lift_db. rewrite bind_run.
  destruct (container_txPool p c) as [tp|]; [|done]. rewrite bind_run.
  by destruct (InsertTxPool tp (p_db s1)) as [d [[]|]]. }
destruct (for_each cs _ s) as [s1 [[]|e]]; simpl in *; [|done]. specialize (Hin s1 eq_refl).
assert (covered (rows (p_db s1) TableTxPool) (u64_add (p_idx s) (Z.of_nat (length cs)))) as Hc.
{ pose proof (producer_idx _ _ _ _ Hs1) as Hi. rewrite Hidx in Hi.
  eapply (covered_app _ _ cs); [exact Hi|by apply (Hf _ _ _ Ef)|done|].
  apply u64_add_le; [apply Hi|lia]. }
rewrite bind_run. unfold updateNodeIndex.
set (v := mkNodeIndex (nodeinstance p) (topic p) _).
pose proof (producer_perform fin q0 rs0 (PUpdateNodeIndex v) s1 (λ _ _, Hc) Hs1) as Hs2.
destruct (perform_sound fin (PUpdateNodeIndex v) (p_db s1) (λ _ _, Hc) (producer_sound _ _ _ _ Hs1)) as [_ Ha].
cbn [perform sql_persist] in Hs2, Ha. unfold lift_db in *.
destruct (UpdateNodeIndex v (p_db s1)) as [d [[]|e]]; [|done].
cbn in *. by apply (producer_set_idx fin q0 rs0 (mkProducerState d (p_queue s1) (p_idx s1))),
  Hs2; eapply covered_mono.
Qed.

(** ** The invariant *)
Lemma inv_producer_ok w : pool_inv w →
producer_ok (w_done w) (w_queue w) (rows (w_db w) TableTxPool) (producer_of w).
Proof. intros [Ht Hi _ _ _ _ _ _ _]. split; [done|done|done|apply queue_grows_refl]. Qed.

Lemma inv_producer w s : pool_inv w →
producer_ok (w_done w) (w_queue w) (rows (w_db w) TableTxPool) s → pool_inv (set_producer w s).
Proof.
intros Hw [Hs Ha Hi [Hq1 Hq2]].
assert (∀ txd, in_flight (set_producer w s) txd → in_flight w txd ∨
  (has_row (rows (p_db s) TableTxPool) (job_id txd) ∧ job_Errs txd = None)) as Hfl.
{ intros txd [Ht|Ht]; [|left; by right]. destruct (Hq2 txd Ht); [left; by left|by right]. }
split; simpl.
- exact Hs.
- exact Hi.
- intros txd [Ht|[? _]]%Hfl; [|done]. by apply Ha, (inv_jobs w Hw).
- intros it txp Hit Hin. destruct (inv_iter w Hw it txp Hit Hin). split; [by apply Ha|done].
- intros txd [Ht|[_ ->]]%Hfl Hsome; [|by destruct Hsome]. by apply (inv_topics w Hw).
- apply (inv_finished w Hw).
- intros id Hid. by apply Ha, (inv_seen w Hw).
- apply (inv_cell w Hw).
- intros id Hid. destruct (inv_read w Hw id Hid) as [Hp|[(txd & Hf & Hj & Hc)|Hg]].
  + left. by apply Ha.
  + right. left. exists txd. split; [|done]. destruct Hf as [Hf|Hf]; [left; by apply Hq1|by right].
  + by do 2 right.
Qed.

Lemma step_foreign_inv w o : foreign o → pool_inv w → pool_inv (set_db w (perform o (w_db w)).1).
Proof.
intros Ho Hw. apply (inv_producer w (mkProducerState _ _ _) Hw).
destruct (inv_producer_ok w Hw) as [Hs _ Hi Hq].
assert (allowed p (w_done w) (covered (rows (w_db w) TableTxPool)) o) as Ho'.
{ destruct o as [e u| | | |v|v]; simpl in *; try done.
  - destruct e; simpl in *; try done. intros H1' H2'. by destruct (Ho H1' H2').
  - destruct Ho as [_ Ho]. by apply elem_of_nil in Ho.
  - intros H1' H2'. by destruct (Ho H1' H2'). }
destruct (perform_sound _ o (w_db w) Ho' Hs) as [Hs' Ha]. split; simpl.
- done.
- done.
- by eapply covered_mono.
- by eapply queue_grows_mono.
Qed.

(** The invariant only looks at the in-flight jobs, not at where they are. *)
Lemma accounted_step w w' id :
advances (rows (w_db w) TableTxPool) (rows (w_db w') TableTxPool) → w_cell w' = w_cell w →
(is_Some (GetValue (w_cell w) (w_errs w)) → is_Some (GetValue (w_cell w) (w_errs w'))) →
(∀ txd, in_flight w txd → job_Errs txd = Some (w_cell w) → job_id txd = id →
   in_flight w' txd ∨ all_processed (rows (w_db w') TableTxPool) id ∨
   is_Some (GetValue (w_cell w) (w_errs w'))) →
accounted w id → accounted w' id.
Proof.
intros Ha Hc Hg Hf [Hp|[(txd & Hfl & Hid & Hj)|Hs]].
- left. by apply Ha.
- destruct (Hf txd Hfl Hj Hid) as [?|[?|?]].
  + right. left. exists txd. by rewrite Hc.
  + by left.
  + do 2 right. by rewrite Hc.
- do 2 right. rewrite Hc. by apply Hg.
Qed.

Lemma report_grows errs e m c : is_Some (GetValue c m) → is_Some (GetValue c (report errs e m)).
Proof.
intros Hs. destruct errs as [c'|]; simpl; [|done]. destruct (decide (c = c')) as [->|Hne].
- rewrite GetValue_set. by eexists.
- by rewrite GetValue_set_ne.
Qed.

Lemma report_value c e m : is_Some (GetValue c (report (Some c) e m)).
Proof. simpl. rewrite GetValue_set. by eexists. Qed.

(** A step of a worker or of the iterator. *)
Lemma inv_local w w' :
pool_inv w → sound_db (w_done w') (w_db w') →
advances (rows (w_db w) TableTxPool) (rows (w_db w') TableTxPool) → w_idx w' = w_idx w →
(∀ txd, in_flight w' txd → in_flight w txd ∨ (has_row (rows (w_db w) TableTxPool) (job_id txd) ∧
   is_Some (fsm !! TxPool_Topic (job_TxPool txd)))) →
(∀ txd, (txd, true) ∈ w_running w' → job_id txd ∈ w_done w') →
(∀ id, Exists (w_seen w') id = true →
   Exists (w_seen w) id = true ∨ all_processed (rows (w_db w') TableTxPool) id) →
(∀ it', w_iter w' = Some it' → ∃ it, w_iter w = Some it ∧ it_rows it' ⊆ it_rows it ∧
   it_errs it' = it_errs it) → w_cell w' = w_cell w →
(∀ id, id ∈ w_read w' → accounted w' id) → pool_inv w'.
Proof.
intros Hw Hs Ha Hidx Hfl Hfin Hseen Hit Hcell Hread. split.
- exact Hs.
- rewrite Hidx. eapply covered_mono; [done|apply (inv_idx w Hw)].
- intros txd [Ht|[Hr _]]%Hfl; apply Ha; [by apply (inv_jobs w Hw)|done].
- intros it' txp (it & Hi & Hsub & _)%Hit Hin.
  destruct (inv_iter w Hw it txp Hi (Hsub _ Hin)). split; [by apply Ha|done].
- intros txd [Ht|[_ ?]]%Hfl; [by apply (inv_topics w Hw)|done].
- exact Hfin.
- intros id [Hid|Hp]%Hseen; [|done]. by apply Ha, (inv_seen w Hw).
- intros it' (it & Hi & _ & He)%Hit. rewrite He, Hcell. by apply (inv_cell w Hw).
- exact Hread.
Qed.

Lemma take_in_flight w txd q : take_job (w_queue w) = Some (txd, q) →
in_flight w txd ∧ ∀ t, t ∈ jobCh (w_queue w) ↔ t = txd ∨ t ∈ jobCh q.
Proof.
unfold take_job. destruct (jobCh (w_queue w)) as [|j js] eqn:E; [done|].
intros [= -> <-]. split; [left; rewrite E; left|]. intros t. rewrite elem_of_cons. done.
Qed.

(** A job that is dropped needs no work: its row is processed, or its batch failed. *)
Lemma job_dropped w txd : pool_inv w → in_flight w txd →
job_processor fsm (w_seen w) (w_errs w) txd = None → job_Errs txd = Some (w_cell w) →
all_processed (rows (w_db w) TableTxPool) (job_id txd) ∨ is_Some (GetValue (w_cell w) (w_errs w)).
Proof.
intros Hw Hf Hj He. unfold job_processor in Hj.
destruct (Exists _ _) eqn:Ex; [left; by apply (inv_seen w Hw)|].
destruct (bool_decide _) eqn:Eb; [right|].
- apply bool_decide_eq_true in Eb. by rewrite He in Eb.
- destruct (inv_topics w Hw txd Hf) as [pr Hpr]; [rewrite He; by eexists|]. congruence.
Qed.

Lemma step_take_inv w txd q : pool_inv w → take_job (w_queue w) = Some (txd, q) →
pool_inv (mkWorld (w_db w) q (w_idx w) (w_seen w) (w_errs w)
    (match job_processor fsm (w_seen w) (w_errs w) txd with
     | Some _ => (txd, false) :: w_running w
     | None => w_running w
     end) (w_iter w) (w_cell w) (w_read w) (w_done w)).
Proof.
intros Hw Ht. destruct (take_in_flight w txd q Ht) as [Hfl Hq].
apply (inv_local w); simpl; try done; try by apply Hw.
- intros t [Hin|Hin]; left; simpl in Hin; [left; apply Hq; by right|].
  destruct (job_processor _ _ _ _); [|by right].
  simpl in Hin. apply elem_of_cons in Hin as [->|Hin]; [done|by right].
- intros t Hin. apply (inv_finished w Hw). destruct (job_processor _ _ _ _); [|done].
  by apply elem_of_cons in Hin as [[=]|Hin].
- by left.
- intros it Hi. by exists it.
- intros id Hid. apply (accounted_step w); simpl; try done; [|by apply (inv_read w Hw)].
  intros t [Hin|Hin] He Hid'.
  + apply Hq in Hin as [->|Hin]; [|left; by left].
    destruct (job_processor _ _ _ _) eqn:Ej; [left; right; left|right].
    subst id. by apply job_dropped.
  + left. right. simpl. destruct (job_processor _ _ _ _); [by right|done].
Qed.

Lemma step_process_inv w l1 txd l2 pr d r :
(∀ t pr, fsm !! t = Some pr → framed pr) → pool_inv w →
w_running w = l1 ++ (txd, false) :: l2 →
fsm !! TxPool_Topic (job_TxPool txd) = Some pr → pr (job_TxPool txd) (w_db w) = Some (d, r) →
pool_inv (mkWorld d (w_queue w) (w_idx w) (w_seen w)
    (match r with Ok _ => w_errs w | Err e => report (job_Errs txd) e (w_errs w) end)
    (match r with Ok _ => l1 ++ (txd, true) :: l2 | Err _ => l1 ++ l2 end)
    (w_iter w) (w_cell w) (w_read w)
    (match r with Ok _ => job_id txd :: w_done w | Err _ => w_done w end)).
Proof.
intros Hfr Hw Hr Hpr Hrun.
destruct (Hfr _ _ Hpr _ _ _ _ Hrun (tables_unique _ _ _ _ (inv_tables w Hw))) as (Hu & Hp & Hn).
assert (advances (rows (w_db w) TableTxPool) (rows d TableTxPool)) as Ha.
{ apply advances_perm. by rewrite Hp. }
apply (inv_local w); simpl; try done.
- destruct (inv_tables w Hw) as [_ Hpo Hi]. split; [done| |].
  + rewrite Hp. eapply pool_ok_mono; [|exact Hpo]. destruct r; set_solver.
  + rewrite Hn. eapply index_ok_mono; [|exact Hi]. intros z. by apply covered_mono.
- intros t [Hin|Hin]; left; [by left|]. right. simpl in Hin. rewrite Hr, fmap_app. simpl.
  destruct r; simpl in Hin; rewrite fmap_app in Hin; set_solver.
- intros t Hin. assert ((t, true) ∈ w_running w ∨ (t = txd ∧ is_ok r = true)) as [Hold|[-> Hok]].
  { rewrite Hr. destruct r; set_solver. }
  + pose proof (inv_finished w Hw t Hold). destruct r; [by right|done].
  + destruct r; [by left|done].
- by left.
- intros it Hi. by exists it.
- intros id Hid. apply (accounted_step w); simpl; try done; [| |by apply (inv_read w Hw)].
  + destruct r; [done|]. apply report_grows.
  + intros t [Hin|Hin] He Hid'; [left; by left|].
    rewrite Hr, fmap_app in Hin. simpl in Hin. destruct r as [[]|e].
    * left. right. simpl. rewrite fmap_app. exact Hin.
    * apply elem_of_app in Hin as [Hin|[ ->|Hin]%elem_of_cons].
      -- left. right. simpl. rewrite fmap_app. apply elem_of_app. by left.
      -- do 2 right. rewrite He. apply report_value.
      -- left. right. simpl. rewrite fmap_app. apply elem_of_app. by right.
Qed.

(** A row that is marked is processed, and stays in the list of seen keys. *)
Lemma evict_lookup {K V} `{Countable K} fuel (c : indexedList K V) k :
is_Some (entryMap (evict fuel c) !! k) → is_Some (entryMap c !! k).
Proof.
revert c. induction fuel as [|n IH]; intros c; [done|]. simpl.
destruct (_ <? _); [|done]. destruct (last _) as [e|]; [|done].
intros Hs%IH. simpl in Hs. destruct (decide (k = e)) as [->|Hne].
- rewrite lookup_delete_eq in Hs. by destruct Hs.
- by rewrite lookup_delete_ne in Hs.
Qed.

Lemma Exists_PushFront (c : indexedList string string) k v k' :
Exists (PushFront c k v) k' = true → k' = k ∨ Exists c k' = true.
Proof.
unfold Exists, PushFront, exists_. destruct (bool_decide (is_Some (entryMap c !! k))); [by right|].
intros Hs%bool_decide_eq_true. apply evict_lookup in Hs. simpl in Hs.
destruct (decide (k' = k)) as [->|Hne]; [by left|]. right. rewrite lookup_insert_ne in Hs by done.
by apply bool_decide_eq_true.
Qed.

Lemma step_mark_inv w l1 txd l2 s : pool_inv w → w_running w = l1 ++ (txd, true) :: l2 →
mark_processed txd (mkIndexerState (w_db w) (w_seen w) (w_errs w)) = s →
pool_inv (mkWorld (i_db s) (w_queue w) (w_idx w) (i_seen s) (i_errs s) (l1 ++ l2)
    (w_iter w) (w_cell w) (w_read w) (w_done w)).
Proof.
intros Hw Hr <-. set (tx := set_processed (job_TxPool txd)).
assert ((txd, true) ∈ w_running w) as Hrun by (rewrite Hr; set_solver).
pose proof (inv_finished w Hw txd Hrun) as Hdone.
assert (in_flight w txd) as Hfl by (right; rewrite Hr, fmap_app; set_solver).
assert (allowed p (w_done w) (covered (rows (w_db w) TableTxPool)) (PUpdateTxPoolStatus tx)) as Ho by done.
destruct (perform_sound _ _ _ Ho (inv_tables w Hw)) as [Hs Ha].
cbn [perform sql_persist] in Hs, Ha. unfold mark_processed. fold tx. cbn [i_db i_seen i_errs].
destruct (inv_tables w Hw) as [Hu Hp _].
pose proof (λ d E, UpdateTxPoolStatus_done (w_done w) tx (w_db w) d Hu Hp eq_refl Hdone E
                     (inv_jobs w Hw txd Hfl)) as Hall.
assert (∀ t, in_flight w t → t = txd ∨ (t ∈ jobCh (w_queue w) ∨ t ∈ map fst (l1 ++ l2))) as Hsplit.
{ intros t [Hin|Hin]; [right; by left|]. rewrite Hr, fmap_app in Hin. rewrite fmap_app. set_solver. }
destruct (UpdateTxPoolStatus tx (w_db w)) as [d [[]|e]]; simpl in *.
- specialize (Hall d eq_refl). apply (inv_local w); simpl; try done.
  + intros t [Hin|Hin]; left; [by left|]. right. rewrite Hr, fmap_app.
    simpl in Hin. rewrite fmap_app in Hin. set_solver.
  + intros t Hin. apply (inv_finished w Hw). rewrite Hr. set_solver.
  + intros id [ ->|Hid]%Exists_PushFront; [by right|by left].
  + intros it Hi. by exists it.
  + intros id Hid. apply (accounted_step w); simpl; try done; [|by apply (inv_read w Hw)].
    intros t [ ->|Hin]%Hsplit He Hid'; [right; left; by subst id|by left].
- apply (inv_local w); simpl; try done.
  + intros t [Hin|Hin]; left; [by left|]. right. rewrite Hr, fmap_app.
    simpl in Hin. rewrite fmap_app in Hin. set_solver.
  + intros t Hin. apply (inv_finished w Hw). rewrite Hr. set_solver.
  + by left.
  + intros it Hi. by exists it.
  + intros id Hid. apply (accounted_step w); simpl; try done; [apply report_grows| |by apply (inv_read w Hw)].
    intros t [ ->|Hin]%Hsplit He Hid'; [|by left]. do 2 right. rewrite He. apply report_value.
Qed.

(** ** The iterator *)
Lemma insert_oldest_perm r l : insert_oldest r l ≡ₚ r :: l.
Proof.
induction l as [|x l IH]; simpl; [done|]. case_match; [done|]. rewrite IH. apply perm_swap.
Qed.

Lemma unprocessed_in c tx : tx ∈ unprocessed_query topicNames c →
∃ r, r ∈ c TableTxPool ∧ tx = load_TxPool (restrict TxPool_columns r) ∧
  r !! "processed" = Some (VNum 0) ∧ ∃ t, t ∈ topicNames ∧ r !! "topic" = Some (VStr t).
Proof.
unfold unprocessed_query. intros (r & -> & Hr)%list_elem_of_fmap.
assert (∀ l, foldr insert_oldest [] l ≡ₚ l) as Hperm.
{ induction l as [|x l IH]; simpl; [done|]. by rewrite insert_oldest_perm, IH. }
rewrite Hperm, list_elem_of_In, filter_In, <-list_elem_of_In in Hr. destruct Hr as [Hr Hw].
unfold wanted in Hw. apply andb_true_iff in Hw as [Hp Ht].
apply existsb_exists in Ht as (t & Ht & Htop). unfold matches in Hp, Htop. simpl in Hp, Htop.
rewrite andb_true_r in Hp, Htop. apply bool_decide_eq_true in Hp as [Hp _], Htop as [Htop _].
exists r. split_and!; [done|done|done|]. exists t. split; [by apply list_elem_of_In|done].
Qed.

Lemma load_TxPool_id r id : row_id r id → TxPool_ID (load_TxPool (restrict TxPool_columns r)) = id.
Proof.
intros Hid. unfold load_TxPool. simpl.
by rewrite (NameMapping_ok "ID" "id" eq_refl), lookup_restrict, Hid.
Qed.

Lemma load_TxPool_topic r t : r !! "topic" = Some (VStr t) →
TxPool_Topic (load_TxPool (restrict TxPool_columns r)) = t.
Proof.
intros Ht. unfold load_TxPool. simpl.
by rewrite (NameMapping_ok "Topic" "topic" eq_refl), lookup_restrict, Ht.
Qed.

Lemma step_open_inv w cell d r :
(∀ t, t ∈ topicNames → is_Some (fsm !! t)) → pool_inv w →
GetValue cell (w_errs w) = None → (∀ txd, in_flight w txd → job_Errs txd ≠ Some cell) →
select (unprocessed_query topicNames) (w_db w) = (d, r) →
pool_inv (mkWorld d (w_queue w) (w_idx w) (w_seen w) (w_errs w) (w_running w)
    (match r with Ok txs => Some (mkIteration txs cell 0) | Err _ => None end)
    cell [] (w_done w)).
Proof.
intros Htop Hw _ _ Hsel. pose proof (select_rows (unprocessed_query topicNames) (w_db w)) as E.
rewrite Hsel in E. simpl in E. pose proof (advances_perm _ _ (E TableTxPool)) as Ha.
pose proof (sound_db_rows _ _ _ E (inv_tables w Hw)) as Hs. split; simpl.
- exact Hs.
- eapply covered_mono; [exact Ha|apply (inv_idx w Hw)].
- intros txd Hf. by apply Ha, (inv_jobs w Hw).
- intros it txp Hit Hin. destruct r as [txs|]; [|done]. injection Hit as <-. simpl in Hin.
  apply select_ok in Hsel as [_ ->]. apply unprocessed_in in Hin as (r & Hr & -> & _ & t & Ht & Hrt).
  rewrite (load_TxPool_topic r t Hrt). split; [|by apply Htop].
  destruct (pool_row _ _ (tables_pool _ _ _ _ Hs) r Hr) as (id & Hid & _).
  rewrite (load_TxPool_id r id Hid). by exists r.
- apply (inv_topics w Hw).
- apply (inv_finished w Hw).
- intros id Hid. by apply Ha, (inv_seen w Hw).
- intros it Hit. destruct r; [|done]. by injection Hit as <-.
- intros id Hid. by apply elem_of_nil in Hid.
Qed.

(** A turn of the loop that goes on has dealt with the first row. *)
Lemma iterate_row_some seen errs it it' o : iterate_row seen errs it = Some (it', o) →
∃ txp, it_rows it = txp :: it_rows it' ∧ it_errs it' = it_errs it ∧
  match o with
  | None => Exists seen (TxPool_ID txp) = true
  | Some txd => txd = mkLocalTxPoolJob txp (Some (it_errs it))
  end.
Proof.
unfold iterate_row. destruct it as [[|txp rest] c n]; simpl; [done|].
repeat case_match; intros; simplify_eq; by exists txp.
Qed.

Lemma step_skip_inv w it it' : pool_inv w → w_iter w = Some it →
iterate_row (w_seen w) (w_errs w) it = Some (it', None) →
pool_inv (mkWorld (w_db w) (w_queue w) (w_idx w) (w_seen w) (w_errs w) (w_running w)
    (Some it') (w_cell w) (w_read w ++ map TxPool_ID (take 1 (it_rows it))) (w_done w)).
Proof.
intros Hw Hit Hrow. apply iterate_row_some in Hrow as (txp & Er & Ec & Hseen).
apply (inv_local w); simpl; try done; try by apply Hw.
- by left.
- by left.
- intros it0 [= <-]. exists it. rewrite Er. split_and!; [done|set_solver|done].
- rewrite Er. simpl. intros id [Hid|Hid%list_elem_of_singleton]%elem_of_app.
  + apply (accounted_step w); simpl; try done; [by left|by apply (inv_read w Hw)].
  + subst id. left. by apply (inv_seen w Hw).
Qed.

Lemma step_send_inv w it it' txd q : pool_inv w → w_iter w = Some it →
iterate_row (w_seen w) (w_errs w) it = Some (it', Some txd) → Enque (w_queue w) txd = Some q →
pool_inv (mkWorld (w_db w) q (w_idx w) (w_seen w) (w_errs w) (w_running w)
    (Some it') (w_cell w) (w_read w ++ map TxPool_ID (take 1 (it_rows it))) (w_done w)).
Proof.
intros Hw Hit Hrow Hq. apply iterate_row_some in Hrow as (txp & Er & Ec & ->).
assert (jobCh q = jobCh (w_queue w) ++ [mkLocalTxPoolJob txp (Some (it_errs it))]) as Eq.
{ unfold Enque in Hq. destruct (_ <? _); [|done]. by injection Hq as <-. }
destruct (inv_iter w Hw it txp Hit) as [Hhas Htop]; [rewrite Er; left|].
apply (inv_local w); simpl; try done; try by apply Hw.
- intros t [Hin|Hin]; [|left; by right]. simpl in Hin. rewrite Eq in Hin.
  apply elem_of_app in Hin as [Hin| ->%list_elem_of_singleton]; [left; by left|by right].
- by left.
- intros it0 [= <-]. exists it. rewrite Er. split_and!; [done|set_solver|done].
- rewrite Er. simpl. intros id [Hid|Hid%list_elem_of_singleton]%elem_of_app.
  + apply (accounted_step w); simpl; try done; [|by apply (inv_read w Hw)].
    intros t [Hin|Hin] _ _; left; [left; simpl; rewrite Eq; set_solver|by right].
  + subst id. right. left. exists (mkLocalTxPoolJob txp (Some (it_errs it))). simpl.
    split_and!; [left; simpl; rewrite Eq; set_solver|done|by rewrite (inv_cell w Hw it Hit)].
Qed.

Lemma step_close_inv w : pool_inv w →
pool_inv (mkWorld (w_db w) (w_queue w) (w_idx w) (w_seen w) (w_errs w) (w_running w)
    None (w_cell w) (w_read w) (w_done w)).
Proof.
intros Hw. apply (inv_local w); simpl; try done; try by apply Hw.
all: by left.
Qed.

Lemma step_restart_inv w cells : pool_inv w →
pool_inv (mkWorld (w_db w) (mkWorker [] MaxTxPoolSize) 0 (NewIndexedList MaxSizedList) cells []
    None 0 [] (w_done w)).
Proof.
intros Hw. assert (∀ txd, txd ∈ [] ∨ txd ∈ map fst ([] : list (LocalTxPoolJob * bool)) → False) as Hno.
{ intros txd [Hin|Hin]; by apply elem_of_nil in Hin. }
split; simpl; try done.
- apply (inv_tables w Hw).
- apply covered_zero.
- intros txd Hf. by destruct (Hno txd).
- intros txd Hf. by destruct (Hno txd).
- intros txd Hin. by apply elem_of_nil in Hin.
- intros id Hin. by apply elem_of_nil in Hin.
Qed.

Context (Hframed : ∀ t pr, fsm !! t = Some pr → framed pr).
Context (Htopics : ∀ t, t ∈ topicNames → is_Some (fsm !! t)).

Lemma step_inv w w' : step w w' → pool_inv w → pool_inv w'.
Proof.
intros Hst Hw. destruct Hst as [w s r E|w fetch s r Hf E|w tp s r Htp E|w o Ho|w txd q Hq
  |w l1 txd l2 pr d r Hr Hpr E|w l1 txd l2 s Hr E|w cell d r _ Hc Hfl E|w it it' Hi E
  |w it it' txd q Hi E Hq|w it Hi E|w cells].
- apply inv_producer; [done|]. pose proof (newContainer_ok _ _ _ _ (inv_producer_ok w Hw)) as Hok.
  by rewrite E in Hok.
- apply inv_producer; [done|].
  pose proof (ProcessNextMessage_ok _ _ _ fetch _ Hf (inv_producer_ok w Hw)) as Hok. by rewrite E in Hok.
- apply inv_producer; [done|].
  destruct (UpdateTxPool_ok _ _ _ tp _ Htp (inv_producer_ok w Hw)) as [Hok _]. by rewrite E in Hok.
- by apply step_foreign_inv.
- by apply step_take_inv.
- by eapply step_process_inv.
- by eapply step_mark_inv.
- by apply step_open_inv.
- by eapply step_skip_inv.
- by eapply step_send_inv.
- by apply step_close_inv.
- by apply step_restart_inv.
Qed.

Lemma steps_inv w w' : steps w w' → pool_inv w → pool_inv w'.
Proof. induction 1 as [|w1 w2 w3 Hst _ IH]; [done|]. intros Hw. by apply IH, (step_inv w1). Qed.

(** ** A whole job

  One worker takes the next job and sees it through: [handleTxPool]. *)
Definition run_job (w : world) : option world :=
match take_job (w_queue w) with
| None => None
| Some (txd, q) =>
    s ← handleTxPool_job fsm txd (mkIndexerState (w_db w) (w_seen w) (w_errs w));
    let succeeded := match job_processor fsm (w_seen w) (w_errs w) txd with
                     | None => false
                     | Some pr => match pr (job_TxPool txd) (w_db w) with
                                  | Some (_, Ok _) => true
                                  | _ => false
                                  end
                     end in
    Some (mkWorld (i_db s) q (w_idx w) (i_seen s) (i_errs s) (w_running w) (w_iter w) (w_cell w)
      (w_read w) (if succeeded then job_id txd :: w_done w else w_done w))
end.

Lemma job_processor_fsm seen errs txd pr : job_processor fsm seen errs txd = Some pr →
fsm !! TxPool_Topic (job_TxPool txd) = Some pr.
Proof. unfold job_processor. by repeat case_match. Qed.

Lemma run_job_steps w w' : run_job w = Some w' → steps w w'.
Proof.
unfold run_job. destruct (take_job (w_queue w)) as [[txd q]|] eqn:Eq; [|done].
unfold handleTxPool_job. cbn [i_db i_seen i_errs].
destruct (job_processor fsm (w_seen w) (w_errs w) txd) as [pr|] eqn:Ej.
- pose proof (job_processor_fsm _ _ _ _ Ej) as Hpr.
  destruct (pr (job_TxPool txd) (w_db w)) as [[d [[]|e]]|] eqn:Er; [| |done];
    unfold mbind, option_bind; intros [= <-].
  + pose proof (step_take w txd q Eq) as S1. rewrite Ej in S1.
    eapply rtc_l; [exact S1|]. eapply rtc_l;
      [exact (step_process (mkWorld (w_db w) q (w_idx w) (w_seen w) (w_errs w) ((txd, false) :: w_running w)
         (w_iter w) (w_cell w) (w_read w) (w_done w)) [] txd (w_running w) pr d (Ok tt) eq_refl Hpr Er)|].
    apply rtc_once. exact (step_mark (mkWorld d q (w_idx w) (w_seen w) (w_errs w) ((txd, true) :: w_running w)
      (w_iter w) (w_cell w) (w_read w) (job_id txd :: w_done w)) [] txd (w_running w) _ eq_refl eq_refl).
  + pose proof (step_take w txd q Eq) as S1. rewrite Ej in S1.
    eapply rtc_l; [exact S1|]. apply rtc_once.
    exact (step_process (mkWorld (w_db w) q (w_idx w) (w_seen w) (w_errs w) ((txd, false) :: w_running w)
      (w_iter w) (w_cell w) (w_read w) (w_done w)) [] txd (w_running w) pr d (Err e) eq_refl Hpr Er).
- simpl. intros [= <-]. pose proof (step_take w txd q Eq) as Hst. rewrite Ej in Hst.
  by apply rtc_once.
Qed.
End system.
