(* ===== verification/Processors.v ===== *)
(** The processors of the pool: the writers behind [consumerDB.Process] and
    [consumerAXChainDB.Process], and the fact that they leave the pool and the
    node indexes alone. *)

From S2P Require Import Prelude Errors Sql Axia DbModel Persist Prog Models AxcWriter Writer AvmWriter PvmWriter CvmWriter WriterOps Utils Stream StreamAx Pool PoolSystem.

(** * Frames *)
Definition stmt_table (st : stmt) : string := match st with Insert t _ | Update t _ _ => t end.

Section frames.
Context `{SqlEngine D} `{!SqlEngineOk D}.
Implicit Types d : D.

Lemma exec_frame st d t : stmt_table st ≠ t → rows (exec st d).1 t ≡ₚ rows d t.
Proof.
intros Hne. destruct (exec st d) as [d' [[]|e]] eqn:E, st as [t' ps|t' sets w]; simpl in *.
- apply exec_insert in E as (_ & _ & Hf). by apply Hf.
- apply exec_update in E as [[_ Hf] _]. by apply Hf.
- apply exec_insert_err in E as [E _]. by rewrite (E t).
- apply exec_update_err in E as [E _]. by rewrite (E t).
Qed.

Lemma pop_stmts_table o : Forall (λ st, stmt_table st = pop_table o) (pop_stmts o).
Proof.
unfold pop_stmts. apply Forall_app. split.
- destruct (pop_pairs o); by repeat constructor.
- destruct (pop_update o) as [[]|]; by repeat constructor.
Qed.

(** What a computation of a writer does not touch. *)
Definition frames (m : M D unit) : Prop := ∀ d, unique_content (rows d) →
unique_content (rows (m d).1) ∧
rows (m d).1 TableTxPool ≡ₚ rows d TableTxPool ∧ rows (m d).1 TableNodeIndex ≡ₚ rows d TableNodeIndex.

Lemma perform_frame o d t : t ≠ pop_table o → rows (perform o d).1 t ≡ₚ rows d t.
Proof.
intros Hne. apply (perform_invariant (λ d', rows d' t ≡ₚ rows d t) (λ st, stmt_table st = pop_table o));
  [|apply pop_stmts_table|done].
intros st d0 Hst <-. apply exec_frame. by rewrite Hst.
Qed.

Lemma run_store_frames clock (pg : Prog unit) : emits of_writer pg → frames (run_store clock pg).
Proof.
intros Hp d Hu.
apply (run_store_invariant clock (λ d', unique_content (rows d') ∧
  rows d' TableTxPool ≡ₚ rows d TableTxPool ∧ rows d' TableNodeIndex ≡ₚ rows d TableNodeIndex) of_writer pg d);
  [done| |done].
intros o d0 (Ht & Hn & _) (Hu0 & E1 & E2). split_and!.
- by apply perform_unique.
- rewrite <-E1. by apply perform_frame.
- rewrite <-E2. by apply perform_frame.
Qed.

Lemma consume_frames clock (pg : Prog unit) : emits of_writer pg → frames (consume clock pg).
Proof.
intros Hp d Hu. split; [by apply consume_unique|].
destruct (consume clock pg d) as [d' [[]|e]] eqn:E; simpl.
- destruct (in_tx_ok _ _ _ (keeps_saved_consume_body clock pg) E) as [Ed|(d1 & d2 & E1 & Hb & E2)].
  + by rewrite <-!(Ed _).
  + apply bind_Ok_inv in Hb as ([] & d3 & Hr & [= <-]).
    destruct (run_store_frames clock pg Hp d1) as (_ & F1 & F2); [by rewrite <-E1|].
    rewrite Hr in F1, F2. simpl in F1, F2.
    rewrite <-!(E2 _), F1, F2, !(E1 _). done.
- apply consume_err in E. by rewrite <-!(E _).
Qed.

Lemma frames_throw e : frames (throw e).
Proof. by intros d Hu. Qed.

Lemma frames_lift {A} (r : result A) (f : A → M D unit) :
(∀ a, frames (f a)) → frames (lift_result r ≫= f).
Proof.
intros Hf d Hu. rewrite bind_run. unfold lift_result. destruct r; [by apply Hf|done].
Qed.

Lemma persistConsume_frames typ (C CC : Message → M D unit) msg :
(∀ m, frames (C m)) → (∀ m, frames (CC m)) → frames (persistConsume typ C CC msg).
Proof.
intros HC HCC. unfold persistConsume. repeat case_decide; [done|done|apply frames_throw].
Qed.

Lemma consume_retry_frames fuel m rs slept d d' r t : frames m →
consume_retry fuel m rs slept d = Some (d', r, t) → unique_content (rows d) →
unique_content (rows d') ∧ rows d' TableTxPool ≡ₚ rows d TableTxPool ∧
rows d' TableNodeIndex ≡ₚ rows d TableNodeIndex.
Proof.
intros Hm. revert rs slept d. induction fuel as [|n IH]; intros rs slept d Hr Hu; [done|].
simpl in Hr. pose proof (Hm d Hu) as (Hu1 & E1 & E2).
destruct (m d) as [d1 [[]|e]]; simpl in *; [by simplify_eq|].
destruct (ErrIsLockError e); [|by simplify_eq].
destruct (RetrySleeper_Inc rs) as [rs' sl]. destruct (IH _ _ _ Hr Hu1) as (Hu2 & F1 & F2).
by rewrite F1, F2.
Qed.

Lemma consumerDB_framed fuel typ chain C CC :
(∀ m, frames (C m)) → (∀ m, frames (CC m)) → framed (consumerDB_Process fuel typ chain C CC).
Proof.
intros HC HCC tx d d' r Hr Hu. unfold consumerDB_Process in Hr.
destruct (consume_retry _ _ _ _ _) as [[[d1 r1] t]|] eqn:E; [|done]. simplify_eq.
by apply (consume_retry_frames _ _ _ _ _ _ _ _ (persistConsume_frames _ _ _ _ HC HCC) E).
Qed.

Lemma ax_retry_framed fuel m d d' r : frames m → ax_retry fuel m d = Some (d', r) →
unique_content (rows d) → unique_content (rows d') ∧
rows d' TableTxPool ≡ₚ rows d TableTxPool ∧ rows d' TableNodeIndex ≡ₚ rows d TableNodeIndex.
Proof.
intros Hm Hr Hu. unfold ax_retry in Hr.
destruct (consume_retry _ _ _ _ _) as [[[d1 r1] t]|] eqn:E; [|done]. simplify_eq.
by eapply consume_retry_frames.
Qed.
End frames.

(** * The processors of the program *)
Section processors.
Context `{SqlEngine D} `{!AxiaIds} `{!AxiaMath} `{!AxiaCrypto} `{!Cfg}.
Context (Propagate : error → string → error) (clock : nat → Z) (fuel : nat).

Definition message_body (msg : Message) : string := default "" (Message_body msg).

Definition avm_Processor `{!AvmCodec} (w : axc.Writer) (eventType : string) : ProcessorDB :=
consumerDB_Process fuel eventType (axc.chainID w)
  (λ msg, avm.Consume Propagate clock w (Message_timestamp msg) (Message_nanosecond msg) (message_body msg))
  (λ msg, avm.ConsumeConsensus clock (Message_timestamp msg) (Message_nanosecond msg) (message_body msg)).

(** [ConsumeConsensus] of the pvm writer does nothing. *)
Definition pvm_Processor `{!PvmCodec} (w : axc.Writer) (eventType : string) : ProcessorDB :=
consumerDB_Process fuel eventType (axc.chainID w)
  (λ msg, pvm.Consume Propagate clock w (Message_timestamp msg) (Message_nanosecond msg) (message_body msg))
  (λ _, mret tt).

Context `{!SqlEngineOk D}.

Lemma avm_Processor_framed `{!AvmCodec} w typ : framed (avm_Processor w typ).
Proof.
apply consumerDB_framed; intros msg.
- apply consume_frames, avm_insertTx_writer.
- apply frames_lift. intros [[v e] txs]. apply consume_frames, avm_ConsumeConsensus_writer.
Qed.

Lemma pvm_Processor_framed `{!PvmCodec} w typ : framed (pvm_Processor w typ).
Proof.
apply consumerDB_framed; intros msg; [apply consume_frames, pvm_indexBlock_writer|by intros d Hu].
Qed.

Lemma ax_Processor_framed `{!CvmCodec} `{!AxJson} p w :
framed (consumerAXChainDB_Process Propagate clock fuel p w).
Proof.
intros tx d d' r Hr Hu. unfold consumerAXChainDB_Process, ax_Consume, ax_ConsumeTrace, ax_ConsumeLogs in Hr.
repeat case_decide; repeat case_match; simplify_eq; try done;
  (eapply ax_retry_framed; [|exact Hr|done]; apply consume_frames);
  [apply cvm_indexBlock_writer|apply cvm_ConsumeTrace_writer|apply cvm_ConsumeLogs_writer].
Qed.
End processors.
