(* ===== verification/BalanceKeys.v ===== *)
(** The rows of the balances carry the key their identifier is the hash of, whatever the
    interleaving of the writers and of the balance manager. *)

From S2P Require Import Prelude Errors Sql MemDb Axia DbModel Persist Prog Writer Balance BalanceInv BalanceRun BalanceTxs BalanceSystem WriterOps Processors.

Definition balance_tables : list string :=
  [TableAccumulateBalancesReceived; TableAccumulateBalancesSent; TableAccumulateBalancesTransactions].

(** * What a computation keeps *)
Section keeps.
Context `{SqlEngine D} `{!SqlEngineOk D} (P : content → Prop) (P_same : ∀ c c', c ≡ᶜ c' → P c → P c').

Definition keeps {A} (m : M D A) : Prop := ∀ d, P (rows d) → P (rows (m d).1).

Lemma keeps_ret {A} (a : A) : keeps (mret a).
Proof. by intros d. Qed.
Lemma keeps_throw {A} e : keeps (throw (A:=A) e).
Proof. by intros d. Qed.
Lemma keeps_select {A} (q : content → A) : keeps (select q).
Proof. intros d. apply P_same, select_rows. Qed.
Lemma keeps_bind {A B} (m : M D A) (f : A → M D B) : keeps m → (∀ a, keeps (f a)) → keeps (m ≫= f).
Proof.
intros Hm Hf d Hd. rewrite bind_run. pose proof (Hm d Hd) as Hd'. destruct (m d) as [d' [a|e]]; [|done].
by apply Hf.
Qed.
Lemma keeps_lift_bind {A B} (r : result A) (f : A → M D B) :
(∀ a, r = Ok a → keeps (f a)) → keeps (lift_result r ≫= f).
Proof. intros Hf d Hd. rewrite bind_run. destruct r as [a|e]; simpl; [by apply Hf|done]. Qed.
Lemma keeps_for_each {A} (l : list A) (f : A → M D unit) : (∀ x, keeps (f x)) → keeps (for_each l f).
Proof. intros Hf d. apply (for_each_invariant (λ d, P (rows d))). intros x s _. apply Hf. Qed.
Lemma keeps_now `{!SqlClock D} `{!SqlClockOk D} : keeps time_Now.
Proof. intros d. destruct (time_Now_ok d) as (d' & t & -> & E & _). by apply P_same. Qed.
Lemma keeps_in_tx body : keeps_saved body → keeps body → keeps (in_tx body).
Proof.
intros Hs Hb d Hd. destruct (in_tx body d) as [d' [[]|e]] eqn:E; simpl.
- destruct (in_tx_ok _ _ _ Hs E) as [Ed|(d1 & d2 & E1 & E2 & E3)]; [by eapply P_same|].
  eapply P_same; [exact E3|]. pose proof (Hb d1 (P_same _ _ E1 Hd)) as H2. by rewrite E2 in H2.
- eapply P_same; [|exact Hd]. by eapply in_tx_err.
Qed.
End keeps.

(** * The invariant *)
Section keyed.
Context `{!AxiaIds}.

Definition key_columns : list string := ["id"; "chain_id"; "asset_id"; "address"].

Definition keyed_row (r : row) : Prop := ∃ id, r !! "id" = Some (VStr id) ∧ key_id (tx_key r) = Ok id.

Definition keyed (c : content) : Prop := ∀ t r, t ∈ balance_tables → r ∈ c t → keyed_row r.

(** A statement that puts keyed rows into the balances, or keeps their keys. *)
Definition keyed_stmt (st : stmt) : Prop :=
match st with
| Insert t ps => t ∈ balance_tables → keyed_row (new_row t ps)
| Update t sets w => t ∈ balance_tables → ∀ c, c ∈ key_columns → c ∉ map fst sets
end.

Lemma keyed_same c c' : c ≡ᶜ c' → keyed c → keyed c'.
Proof. intros E Hc t r Ht Hr. apply (Hc t); [done|]. by rewrite (E t). Qed.

Lemma keyed_update_row sets w r :
(∀ c, c ∈ key_columns → c ∉ map fst sets) → keyed_row r → keyed_row (update_row sets w r).
Proof.
intros Hc (id & Hid & Hk). unfold update_row. destruct (matches w r); [|by exists id]. exists id.
assert (∀ c, c ∈ key_columns → apply_sets sets r !! c = r !! c) as El.
{ intros c Hin. by apply lookup_apply_sets_ne, Hc. }
unfold tx_key, col_str. rewrite !El by (apply list_elem_of_In; simpl; tauto). done.
Qed.

Lemma exec_keyed `{SqlEngine D} `{!SqlEngineOk D} st (d : D) :
keyed_stmt st → keyed (rows d) → keyed (rows (exec st d).1).
Proof.
intros Hst Hd. destruct (exec st d) as [d' [[]|e]] eqn:E; simpl.
- destruct st as [t ps|t sets w]; simpl in Hst.
  + apply exec_insert in E as (_ & Et & Eo). intros t' r Ht Hr.
    destruct (decide (t' = t)) as [->|Hne]; [|rewrite (Eo t' Hne) in Hr; by eapply Hd].
    rewrite Et in Hr. apply elem_of_cons in Hr as [->|Hr]; [by apply Hst|by eapply Hd].
  + apply exec_update in E as [[Et Eo] _]. intros t' r Ht Hr.
    destruct (decide (t' = t)) as [->|Hne]; [|rewrite (Eo t' Hne) in Hr; by eapply Hd].
    rewrite Et in Hr. apply list_elem_of_fmap in Hr as (r0 & -> & Hr). apply keyed_update_row; [by apply Hst|].
    by eapply Hd.
- eapply keyed_same; [|exact Hd]. by destruct st; [apply exec_insert_err in E as [? _]|apply exec_update_err in E as [? _]].
Qed.

Section operations.
Context `{SqlEngine D} `{!SqlEngineOk D}.

Lemma exec_keeps_keyed st : keyed_stmt st → keeps (D:=D) keyed (exec st).
Proof. intros Hst d. by apply exec_keyed. Qed.

Lemma perform_keyed o : Forall keyed_stmt (pop_stmts o) → keeps (D:=D) keyed (perform o).
Proof.
intros Ho d. apply (perform_invariant (λ d, keyed (rows d)) keyed_stmt); [|done].
intros st d' Hst. by apply exec_keyed.
Qed.

Lemma perform_other_keyed o : pop_table o ∉ balance_tables → keeps (D:=D) keyed (perform o).
Proof.
intros Hno. apply perform_keyed. eapply Forall_impl; [apply pop_stmts_table|].
intros [t ps|t sets w] Ht; simpl in *; subst; done.
Qed.

Lemma of_writer_other o : of_writer o → pop_table o ∉ balance_tables.
Proof. intros (_ & _ & _ & H1 & H2 & H3). apply not_elem_of_cons; split; [done|]; apply not_elem_of_cons; split; [done|]; by apply not_elem_of_cons; split; [|apply not_elem_of_nil]. Qed.
(** ** The balance manager *)
Context `{!SqlClock D} `{!SqlClockOk D}.

Lemma balance_row_keyed t chain asset addr id rest :
t ∈ balance_tables → key_id (chain, addr, asset) = Ok id →
keyed_row (new_row t ([("id", VStr id); ("chain_id", VStr chain); ("asset_id", VStr asset); ("address", VStr addr)] ++ rest)).
Proof.
intros Ht Hk. exists id. unfold tx_key, col_str. rewrite !lookup_new_row. by split.
Qed.

Lemma amount_computed b b' : AccumulateBalancesAmount_ComputeID b = Ok b' →
key_id (AccumulateBalancesAmount_ChainID b', AccumulateBalancesAmount_Address b', AccumulateBalancesAmount_AssetID b') =
Ok (AccumulateBalancesAmount_ID b').
Proof. unfold AccumulateBalancesAmount_ComputeID. destruct (hashed_id _) as [id|] eqn:E; [|done]. by intros [= <-]. Qed.

Lemma transactions_computed b b' : AccumulateBalancesTransactions_ComputeID b = Ok b' →
key_id (AccumulateBalancesTransactions_ChainID b', AccumulateBalancesTransactions_Address b',
AccumulateBalancesTransactions_AssetID b') = Ok (AccumulateBalancesTransactions_ID b').
Proof. unfold AccumulateBalancesTransactions_ComputeID. destruct (hashed_id _) as [id|] eqn:E; [|done]. by intros [= <-]. Qed.

Lemma insert_balance_keyed typ b :
key_id (AccumulateBalancesAmount_ChainID b, AccumulateBalancesAmount_Address b, AccumulateBalancesAmount_AssetID b) =
Ok (AccumulateBalancesAmount_ID b) →
keeps (D:=D) keyed (insert_balance typ b).
Proof.
intros Hk. assert (∀ t, t ∈ balance_tables → keyed_stmt (Insert t (AccumulateBalancesReceived_pairs b))) as Hst.
{ intros t Ht _. by apply (balance_row_keyed t _ _ _ _ [("updated_at", vtime (AccumulateBalancesAmount_UpdatedAt b))]). }
destruct typ; unfold insert_balance.
- apply (perform_keyed (PInsert (EAccumulateBalancesSent b) false)). repeat constructor. apply Hst. right. left.
- apply (perform_keyed (PInsert (EAccumulateBalancesReceived b) false)). repeat constructor. apply Hst. left.
Qed.

Lemma insert_transactions_keyed b :
key_id (AccumulateBalancesTransactions_ChainID b, AccumulateBalancesTransactions_Address b,
AccumulateBalancesTransactions_AssetID b) = Ok (AccumulateBalancesTransactions_ID b) →
keeps (D:=D) keyed (InsertAccumulateBalancesTransactions b).
Proof.
intros Hk. apply (perform_keyed (PInsert (EAccumulateBalancesTransactions b) false)). repeat constructor. intros Ht.
by apply (balance_row_keyed _ _ _ _ _ [("updated_at", vtime (AccumulateBalancesTransactions_UpdatedAt b))]).
Qed.

Lemma lock_balance_keyed t id : keeps (D:=D) keyed (lock_balance t id).
Proof.
unfold lock_balance. apply keeps_bind; [apply (keeps_select _ keyed_same)|intros [|b l]; [apply keeps_throw|]].
destruct (decide _); [apply keeps_ret|apply keeps_throw].
Qed.

(** An update that leaves the columns of the key. *)
Lemma update_keyed t sets w :
forallb (λ c, negb (existsb (String.eqb c) (map fst sets))) key_columns = true →
keeps (D:=D) keyed (exec (Update t sets w)).
Proof.
intros Hf. apply exec_keeps_keyed. intros _ c Hc Hin. rewrite forallb_forall in Hf.
apply list_elem_of_In in Hc. specialize (Hf c Hc). apply negb_true_iff in Hf.
assert (existsb (String.eqb c) (map fst sets) = true) as Ht; [|congruence].
apply existsb_exists. exists c. split; [by apply list_elem_of_In|apply String.eqb_refl].
Qed.

Lemma process_balance_keyed typ tid b : keeps (D:=D) keyed (process_balance typ tid b).
Proof.
unfold process_balance. apply keeps_bind; [apply (keeps_now _ keyed_same)|intros created].
apply keeps_lift_bind. intros txs _. apply keeps_bind.
{ apply (perform_other_keyed (PInsert (EOutputTxsAccumulate txs) false)).
intros Hin. by repeat (apply elem_of_cons in Hin as [Hin|Hin]; [discriminate Hin|]); apply elem_of_nil in Hin. }
intros _. apply keeps_lift_bind. intros b' Hb%amount_computed.
apply keeps_bind; [by apply insert_balance_keyed|intros _].
apply keeps_bind; [apply lock_balance_keyed|intros _].
apply keeps_bind; [apply (keeps_now _ keyed_same)|intros now]. by apply update_keyed.
Qed.

Lemma processOutputsPost_keyed workRows ids typ : keeps (D:=D) keyed (processOutputsPost workRows ids typ).
Proof.
apply (keeps_in_tx _ keyed_same); [apply keeps_saved_post|]. unfold processOutputsPost_body.
apply keeps_bind; [apply (keeps_select _ keyed_same)|intros [|x l]; [apply keeps_ret|]].
apply keeps_bind; [|intros _; apply keeps_ret]. apply keeps_for_each. intros id.
destruct (workRows !! id) as [row|]; [|apply keeps_throw]. unfold processOutputsBase.
apply keeps_bind; [by apply update_keyed|intros _].
apply keeps_bind; [apply (keeps_select _ keyed_same)|intros [|b bs]; [apply keeps_throw|]].
apply keeps_for_each. intros b'. apply process_balance_keyed.
Qed.

Lemma processTransactionsPost_keyed workRows ids : keeps (D:=D) keyed (processTransactionsPost workRows ids).
Proof.
apply (keeps_in_tx _ keyed_same); [apply keeps_saved_tx_post|]. unfold processTransactionsPost_body.
apply keeps_bind; [apply (keeps_select _ keyed_same)|intros [|x l]; [apply keeps_ret|]].
apply keeps_bind; [|intros _; apply keeps_ret]. apply keeps_for_each. intros id.
destruct (workRows !! id) as [row|]; [|apply keeps_throw]. unfold processTransactionsBase.
apply keeps_bind; [by apply update_keyed|intros _].
apply keeps_lift_bind. intros b Hb%transactions_computed.
apply keeps_bind; [by apply insert_transactions_keyed|intros _].
apply keeps_bind; [apply lock_balance_keyed|intros _].
apply keeps_bind; [apply (keeps_now _ keyed_same)|intros now]. by apply update_keyed.
Qed.

(** ** The writers *)
Lemma consume_keyed clock (p : Prog unit) : emits of_writer p → keeps (D:=D) keyed (consume clock p).
Proof.
intros Hp. apply (keeps_in_tx _ keyed_same); [apply keeps_saved_consume_body|].
apply keeps_bind; [|intros _; apply keeps_ret]. intros d.
apply (run_store_invariant clock (λ d, keyed (rows d)) of_writer p d Hp).
intros o d' Ho. by apply perform_other_keyed, of_writer_other.
Qed.
End operations.
End keyed.

(** * The system of the writers and of the balance manager *)
Section system.
Context `{SqlEngine D} `{!SqlEngineOk D} `{!SqlClock D} `{!SqlClockOk D} `{!AxiaIds}.
Context (shuffle : list OutputAddressAccumulate → list OutputAddressAccumulate).
Context (shuffleTxs : list OutputTxsAccumulate → list OutputTxsAccumulate).

Inductive accounting_step : world (D:=D) → world → Prop :=
| accounting_consume clock p w : emits gentle p → emits of_writer p →
  accounting_step w (mkWorld (consume clock p (w_db w)).1 (w_rows w) (w_txs w))
| accounting_manager w w' : manager_step shuffle shuffleTxs w w' → accounting_step w w'.

Lemma accounting_steps w w' : rtc accounting_step w w' → rtc (step shuffle shuffleTxs) w w'.
Proof.
induction 1 as [|w w1 w' Hst _ IH]; [done|]. eapply rtc_l; [|exact IH].
destruct Hst as [clock p w Hg _|w w1 Hm]; [by apply step_consume|by apply step_manager].
Qed.

Lemma accounting_keyed w w' : rtc accounting_step w w' → keyed (rows (w_db w)) → keyed (rows (w_db w')).
Proof.
induction 1 as [|w w1 w' Hst _ IH]; [done|]. intros Hk. apply IH.
destruct Hst as [clock p w _ Hp|w w1 Hm]; [by apply consume_keyed|].
destruct Hm; simpl; try (by apply processOutputsPost_keyed); try (by apply processTransactionsPost_keyed).
all: by match goal with Hr : _ = _ |- _ => apply select_perm_rows in Hr as [E _]; eapply keyed_same end.
Qed.
End system.
