(* ===== verification/Streaming.v ===== *)
(** What the transaction pool guarantees: no container below the index of its
    producer is lost, an iteration without error has processed all it read, only
    processed rows are marked, and the facts of the loops around it. *)

From S2P Require Import Prelude Errors Sql MemDb Axia DbModel Persist Persistence Prog Models AxcWriter Writer AvmWriter PvmWriter CvmWriter Indexing Utils UtilsFacts Stream StreamAx Pool PoolSystem WriterOps Processors.

(** * Lemmas *)
Section lemmas.
Context `{SqlEngine D} `{!SqlEngineOk D} `{!Dbr} `{!DbrOk} `{!AxiaIds} `{!Cfg}
`{!AxiaAtomic} `{!AxiaAtomicOk}.
Implicit Types d : D.

(** A database no container of the producer has been written to. *)
Definition fresh (p : producerChainContainer) d : Prop :=
unique_content (rows d) ∧ rows d TableTxPool = [] ∧
∀ r, r ∈ rows d TableNodeIndex → my_index p r = false.

(** The process starts. *)
Definition started d cells : world (D:=D) :=
mkWorld d (mkWorker [] MaxTxPoolSize) 0 (NewIndexedList MaxSizedList) cells [] None 0 [] [].

Lemma started_inv p accepted fsm d cells : fresh p d → pool_inv p accepted fsm (started d cells).
Proof.
intros (Hu & Ht & Hn).
assert (∀ txd, txd ∈ [] ∨ txd ∈ map fst ([] : list (LocalTxPoolJob * bool)) → False) as Hno.
{ intros txd [Hin|Hin]; by apply elem_of_nil in Hin. }
split; simpl; try done.
- split; [done| |].
  + rewrite Ht. split; [intros k _; constructor|]. intros r Hr. by apply elem_of_nil in Hr.
  + intros r Hr Hm. by rewrite Hn in Hm.
- apply covered_zero.
- intros txd Hf. by destruct (Hno txd).
- intros txd Hf. by destruct (Hno txd).
- intros txd Hin. by apply elem_of_nil in Hin.
- intros id Hin. by apply elem_of_nil in Hin.
Qed.

Lemma all_processed_done fin rs id : pool_ok fin rs → all_processed rs id → id ∈ fin.
Proof.
intros [_ Hr] [(r & Hin & Hid) Hp]. destruct (Hr r Hin) as (id' & Hid' & Hf).
rewrite (row_id_eq _ _ _ Hid Hid'). by apply Hf, Hp.
Qed.

(** The containers below the index of the producer are in the pool. *)
Lemma inv_delivers p accepted fsm w : pool_inv (D:=D) p accepted fsm w →
  ∀ r i, r ∈ rows (w_db w) TableNodeIndex → my_index p r = true → (0 ≤ i < col_num r "idx")%Z →
  ∃ tp r', container_txPool p (accepted i) = Ok tp ∧ r' ∈ rows (w_db w) TableTxPool ∧
    row_id r' (TxPool_ID tp) ∧ (row_processed r' → TxPool_ID tp ∈ w_done w).
Proof.
  intros Hw r i Hr Hm Hi. destruct (tables_index _ _ _ _ (inv_tables _ _ _ _ Hw) r Hr Hm) as [_ Hc].
  destruct (Hc i Hi) as (tp & Ht & r' & Hr' & Hid). exists tp, r'. split_and!; [done..|].
  intros Hp. destruct (pool_row _ _ (tables_pool _ _ _ _ (inv_tables _ _ _ _ Hw)) r' Hr') as (id & Hid' & Hf).
  rewrite (row_id_eq _ _ _ Hid Hid'). by apply Hf.
Qed.
End lemmas.

(** * Properties *)

(** C3. No container is lost between the node and the database.  Whatever the order
    of the steps of the producer, of the workers, of the iterator and of every
    other writer, and whatever statements fail or processes restart in between,
    each container below the index recorded for the producer's topic has its row in
    the transaction pool; and if that row is marked as processed, then a processor
    has returned without error on it. *)
Theorem containers_delivered `{SqlEngine D} `{!SqlEngineOk D} `{!Dbr} `{!DbrOk} `{!AxiaIds} `{!Cfg}
    `{!AxiaAtomic} `{!AxiaAtomicOk} (p : producerChainContainer) (accepted : Z → Container)
    (fsm : gmap string ProcessorDB) (topicNames : list string) (d : D) cells w :
  (∀ t pr, fsm !! t = Some pr → framed pr) → (∀ t, t ∈ topicNames → is_Some (fsm !! t)) →
  fresh p d → steps p accepted fsm topicNames (started d cells) w →
  ∀ r i, r ∈ rows (w_db w) TableNodeIndex → my_index p r = true → (0 ≤ i < col_num r "idx")%Z →
  ∃ tp r', container_txPool p (accepted i) = Ok tp ∧ r' ∈ rows (w_db w) TableTxPool ∧
    row_id r' (TxPool_ID tp) ∧ (row_processed r' → TxPool_ID tp ∈ w_done w).
Proof.
  intros Hfr Htop Hd Hst. apply (inv_delivers p accepted fsm).
  exact (steps_inv p accepted fsm topicNames Hfr Htop _ _ Hst (started_inv _ _ _ d cells Hd)).
Qed.

(** C8. An iteration of the pool that reports no error has done its work: in every
    reachable state, if the cell of the last iteration holds no error and none of
    its jobs is left in the queue or in the hands of a worker, then every row the
    iterator has gone through is marked as processed, and a processor has returned
    without error on it. *)
Theorem iteration_complete `{SqlEngine D} `{!SqlEngineOk D} `{!Dbr} `{!DbrOk} `{!AxiaIds} `{!Cfg}
    `{!AxiaAtomic} `{!AxiaAtomicOk} (p : producerChainContainer) (accepted : Z → Container)
    (fsm : gmap string ProcessorDB) (topicNames : list string) (d : D) cells w :
  (∀ t pr, fsm !! t = Some pr → framed pr) → (∀ t, t ∈ topicNames → is_Some (fsm !! t)) →
  fresh p d → steps p accepted fsm topicNames (started d cells) w →
  GetValue (w_cell w) (w_errs w) = None →
  (∀ txd, in_flight w txd → job_Errs txd ≠ Some (w_cell w)) →
  ∀ id, id ∈ w_read w → all_processed (rows (w_db w) TableTxPool) id ∧ id ∈ w_done w.
Proof.
  intros Hfr Htop Hd Hst Hc Hno id Hid.
  pose proof (steps_inv p accepted fsm topicNames Hfr Htop _ _ Hst (started_inv _ _ _ d cells Hd)) as Hw.
  assert (all_processed (rows (w_db w) TableTxPool) id) as Hp.
  { destruct (inv_read _ _ _ _ Hw id Hid) as [Hp|[(txd & Hf & _ & He)|Hs]]; [done| |].
    - by destruct (Hno txd Hf).
    - rewrite Hc in Hs. by destruct Hs. }
  split; [done|]. by eapply all_processed_done; [apply (inv_tables _ _ _ _ Hw)|].
Qed.

(** ** A sample: two platform blocks, from the node to the pvm writer *)
Module Pipeline.
Import Toy ToyDbr Sample ToyCodec.

Definition p : producerChainContainer :=
mkProducerChainContainer 1 "node" (GetTopicName 1 "P" EventTypeDecisions) "P" IndexCoreChain.
Definition accepted (i : Z) : Container :=
mkContainer ("c" +:+ Z_to_string i) ("block" +:+ Z_to_string i) i.
(** The node has accepted two containers so far. *)
Definition fetch (start n : Z) : result (list Container) :=
Ok (map (λ k, accepted (start + Z.of_nat k)) (seq 0 (Z.to_nat (2 - start)))).

Lemma fetch_faithful : faithful accepted fetch.
Proof.
intros start n cs [= <-] i c Hi. apply list_lookup_fmap_Some in Hi as (k & -> & Hk).
apply lookup_seq in Hk as [-> _]. done.
Qed.

Definition fsm : gmap string (ProcessorDB (D:=MemDb)) :=
{[ topic p := pvm_Processor propagate clock 3 w EventTypeDecisions ]}.
Definition topicNames : list string := [topic p].

Lemma fsm_framed t pr : fsm !! t = Some pr → framed pr.
Proof. unfold fsm. intros [_ <-]%lookup_singleton_Some. apply pvm_Processor_framed, _. Qed.
Lemma fsm_topics t : t ∈ topicNames → is_Some (fsm !! t).
Proof. intros ->%list_elem_of_singleton. unfold fsm. eexists. apply lookup_singleton_eq. Qed.
Lemma db_fresh : fresh p empty_db.
Proof. split; [apply empty_unique|]. split; [done|]. intros r Hr. by apply elem_of_nil in Hr. Qed.

Definition start_producer (v : world (D:=MemDb)) : world := set_producer v (newContainer p (producer_of v)).1.
Definition poll_node (v : world (D:=MemDb)) : world := set_producer v (ProcessNextMessage fetch p (producer_of v)).1.
Definition work (v : world (D:=MemDb)) : world := default v (run_job fsm v).
Definition restart (v : world (D:=MemDb)) : world :=
mkWorld (w_db v) (mkWorker [] MaxTxPoolSize) 0 (NewIndexedList MaxSizedList) ∅ [] None 0 [] (w_done v).
Definition open_pool (cell : nat) (v : world (D:=MemDb)) : world :=
let '(d, r) := select (unprocessed_query topicNames) (w_db v) in
mkWorld d (w_queue v) (w_idx v) (w_seen v) (w_errs v) (w_running v)
  (match r with Ok txs => Some (mkIteration txs cell 0) | Err _ => None end) cell [] (w_done v).
Definition send_row (v : world (D:=MemDb)) : world :=
match w_iter v with
| Some it =>
    match iterate_row (w_seen v) (w_errs v) it with
    | Some (it', Some txd) =>
        match Enque (w_queue v) txd with
        | Some q => mkWorld (w_db v) q (w_idx v) (w_seen v) (w_errs v) (w_running v) (Some it') (w_cell v)
                      (w_read v ++ map TxPool_ID (take 1 (it_rows it))) (w_done v)
        | None => v
        end
    | _ => v
    end
| None => v
end.

Abbreviation reach := (steps p accepted fsm topicNames).

Lemma start_producer_steps v : reach v (start_producer v).
Proof. apply rtc_once. eapply step_new. apply surjective_pairing. Qed.
Lemma poll_node_steps v : reach v (poll_node v).
Proof. apply rtc_once. eapply step_next; [apply fetch_faithful|]. apply surjective_pairing. Qed.
Lemma work_steps v : reach v (work v).
Proof. unfold work. destruct (run_job fsm v) eqn:E; [by apply run_job_steps|apply rtc_refl]. Qed.
Lemma restart_steps v : reach v (restart v).
Proof. apply rtc_once, step_restart. Qed.
Lemma send_row_steps v : reach v (send_row v).
Proof.
unfold send_row. destruct (w_iter v) as [it|] eqn:Ei; [|apply rtc_refl].
destruct (iterate_row _ _ it) as [[it' [txd|]]|] eqn:Er; [|apply rtc_refl..].
destruct (Enque (w_queue v) txd) as [q|] eqn:Eq; [|apply rtc_refl].
apply rtc_once. by eapply step_send.
Qed.
Lemma open_pool_steps v cell : w_iter v = None → w_running v = [] → jobCh (w_queue v) = [] →
GetValue cell (w_errs v) = None → reach v (open_pool cell v).
Proof.
intros Hi Hr Hq Hc. unfold open_pool. destruct (select _ (w_db v)) as [d r] eqn:E.
apply rtc_once. eapply step_open; [done|done| |done].
intros txd [Hin|Hin]; [rewrite Hq in Hin|rewrite Hr in Hin]; by apply elem_of_nil in Hin.
Qed.

(** The first block has been processed; the second waits. *)
Definition half_way : world := work (poll_node (start_producer (started empty_db ∅))).
(** The process stopped before any job was taken, started again, and the pool
  brought both blocks back. *)
Definition recovered : world :=
work (work (send_row (send_row (open_pool 0 (restart (poll_node (start_producer (started empty_db ∅)))))))).

Lemma half_way_reached : reach (started empty_db ∅) half_way.
Proof.
etrans; [apply start_producer_steps|].
etrans; [apply poll_node_steps|]. apply work_steps.
Qed.
Lemma recovered_reached : reach (started empty_db ∅) recovered.
Proof.
etrans; [apply start_producer_steps|].
etrans; [apply poll_node_steps|].
etrans; [apply restart_steps|].
etrans; [apply (open_pool_steps _ 0); vm_compute; reflexivity|].
etrans; [apply send_row_steps|].
etrans; [apply send_row_steps|].
etrans; [apply work_steps|]. apply work_steps.
Qed.
End Pipeline.

Import Toy ToyDbr Sample ToyCodec.

Lemma containers_delivered_witness :
  ∃ tp r', container_txPool Pipeline.p (Pipeline.accepted 1) = Ok tp ∧
    r' ∈ rows (w_db Pipeline.half_way) TableTxPool ∧ row_id r' (TxPool_ID tp) ∧
    (row_processed r' → TxPool_ID tp ∈ w_done Pipeline.half_way).
Proof.
  eapply (containers_delivered Pipeline.p Pipeline.accepted Pipeline.fsm Pipeline.topicNames empty_db ∅
    Pipeline.half_way Pipeline.fsm_framed Pipeline.fsm_topics Pipeline.db_fresh Pipeline.half_way_reached
    (default ∅ (head (rows (w_db Pipeline.half_way) TableNodeIndex)))).
  - by_decide.
  - vm_compute. reflexivity.
  - vm_compute. split; [discriminate|reflexivity].
Defined.

Lemma iteration_complete_witness :
  length (w_read Pipeline.recovered) = 2 ∧
  ∀ id, id ∈ w_read Pipeline.recovered → id ∈ w_done Pipeline.recovered.
Proof.
  split; [vm_compute; reflexivity|]. intros id Hid.
  apply (iteration_complete Pipeline.p Pipeline.accepted Pipeline.fsm Pipeline.topicNames empty_db ∅
    Pipeline.recovered Pipeline.fsm_framed Pipeline.fsm_topics Pipeline.db_fresh Pipeline.recovered_reached).
  - vm_compute. reflexivity.
  - intros txd [Hin|Hin]; vm_compute in Hin; by apply elem_of_nil in Hin.
  - exact Hid.
Defined.
