(* ===== verification/StreamAxFacts.v ===== *)
(** The blocks of the AX chain: none is skipped, each is recorded after all that
    belongs to it, and each row goes to the handler of its topic. *)

From S2P Require Import Prelude Errors Sql MemDb Axia DbModel Persist Persistence Prog Models AxcWriter Writer CvmWriter Indexing Utils Stream StreamAx Pool PoolSystem Processors.

(** * The blocks that are sent *)
Definition missing (start stop : Z) (c : content) : list Z :=
  filter (λ b, b ∉ stored_blocks c) (seqZ start (stop - start)).

Lemma filter_ext_in {A} (P Q : A → Prop) `{∀ x, Decision (P x)} `{∀ x, Decision (Q x)} (l : list A) :
  (∀ x, x ∈ l → P x ↔ Q x) → filter P l = filter Q l.
Proof.
  induction l as [|x l IH]; intros Hpq; [done|]. rewrite !filter_cons.
  rewrite IH by (intros y Hy; apply Hpq; by right).
  pose proof (Hpq x ltac:(left)). repeat case_decide; tauto.
Qed.

Lemma missing_proper start stop c c' : c ≡ᶜ c' → missing start stop c = missing start stop c'.
Proof.
  intros E. unfold missing. apply list_filter_iff. intros b. unfold stored_blocks.
  by rewrite (E TableCvmBlocks).
Qed.

Lemma seqZ_split a b c : (a ≤ b ≤ c)%Z → seqZ a (c - a) = seqZ a (b - a) ++ seqZ b (c - b).
Proof.
  intros Hb. replace (c - a)%Z with ((b - a) + (c - b))%Z by lia.
  rewrite seqZ_app by lia. by replace (a + (b - a))%Z with b by lia.
Qed.

Lemma missing_split a b c t : (a ≤ b ≤ c)%Z → missing a c t = missing a b t ++ missing b c t.
Proof. intros Hb. unfold missing. by rewrite (seqZ_split a b c Hb), filter_app. Qed.

(** The tests never stop the loops. *)
Definition undisturbed (n : nat) : verdict := Go.

Lemma catchup_range_go n tick m s :
  catchup_range undisturbed n tick m s =
    (filter (λ b, b ∉ m) (seqZ s (Z.of_nat n)), tick + n, false).
Proof.
  revert tick s. induction n as [|n IH]; intros tick s; [by rewrite Nat.add_0_r|].
  cbn [catchup_range undisturbed]. rewrite IH. rewrite (seqZ_cons s) by lia.
  replace (Z.pred (Z.of_nat (S n))) with (Z.of_nat n) by lia.
  replace (Z.succ s) with (s + 1)%Z by lia. rewrite filter_cons, Nat.add_succ_r. simpl.
  repeat case_decide; case_bool_decide; done.
Qed.

Lemma send_next_go n tick b :
  send_next undisturbed n tick b = (seqZ (b + 1) (Z.of_nat n), (b + Z.of_nat n)%Z, Ok tt).
Proof.
  revert tick b. induction n as [|n IH]; intros tick b; [by rewrite Z.add_0_r|].
  cbn [send_next undisturbed]. rewrite IH, (seqZ_cons (b + 1)) by lia.
  replace (Z.pred (Z.of_nat (S n))) with (Z.of_nat n) by lia.
  replace (Z.succ (b + 1)) with (b + 1 + 1)%Z by lia. do 2 f_equal. lia.
Qed.

Section catchup.
Context `{SqlEngine D} `{!SqlEngineOk D}.
Implicit Types d : D.

(** From now on, queries do not fail. *)
Definition answers d : Prop := ∀ n, (poll (Nat.iter n (λ d, (poll d).1) d)).2 = Ok tt.

Lemma select_answers {A} (q : content → A) d : answers d →
∃ d', select q d = (d', Ok (q (rows d'))) ∧ rows d ≡ᶜ rows d' ∧ answers d'.
Proof.
intros Ha. unfold select. rewrite bind_run. pose proof (Ha 0) as Hd. pose proof (poll_rows d) as Hr.
assert (answers (poll d).1) as Ha' by (intros n; rewrite <-(Nat.iter_succ_r n _ (λ d, (poll d).1)); apply (Ha (S n))).
simpl in Hd. destruct (poll d) as [d' r]. simpl in *. subst r. by exists d'.
Qed.

Lemma select_answers_Ok {A} (q : content → A) d d' a : answers d → select q d = (d', Ok a) → answers d'.
Proof.
intros Ha Hs. destruct (select_answers q d Ha) as (d1 & E & _ & Ha'). rewrite Hs in E. by simplify_eq.
Qed.

Lemma catchup_sends fuel tick c s d : answers d → (0 ≤ s)%Z → (c - s ≤ Z.of_nat fuel * 100000)%Z →
∃ d', catchupBlock undisturbed fuel tick c s s d = Some (d', missing s c (rows d)) ∧ rows d ≡ᶜ rows d'.
Proof.
revert tick s d. induction fuel as [|fuel IH]; intros tick s d Ha Hs Hf; simpl.
{ assert ((s <? c)%Z = false) as -> by (apply Z.ltb_ge; lia). exists d. split; [|done].
  unfold missing. by rewrite seqZ_nil by lia. }
destruct (Z.ltb_spec s c) as [Hlt|Hge].
2:{ exists d. split; [|done]. unfold missing. by rewrite seqZ_nil by lia. }
set (e := if (c <=? s + 100000)%Z then c else (s + 100000)%Z).
assert (s ≤ e ≤ c ∧ c - e ≤ Z.of_nat fuel * 100000 ∧ s < e)%Z as (He & Hf' & Hse).
{ unfold e. destruct (Z.leb_spec c (s + 100000)); lia. }
unfold undisturbed at 1. fold undisturbed.
destruct (select_answers (blocks_between s e) d Ha) as (d1 & -> & E1 & Ha1).
change (λ _ : nat, Go) with undisturbed. rewrite catchup_range_go.
destruct (IH (S tick + Z.to_nat (e - s)) e d1) as (d2 & -> & E2); [done|lia|done|].
exists d2. split; [|by rewrite E1]. do 2 f_equal.
rewrite (missing_split s e c) by lia. rewrite <-(missing_proper e c _ _ E1). f_equal.
rewrite Z2Nat.id by lia. rewrite (missing_proper s e _ _ E1). unfold missing.
apply filter_ext_in. intros b Hb%elem_of_seqZ. unfold blocks_between.
rewrite elem_of_list_to_set, list_elem_of_In, filter_In, <-list_elem_of_In, andb_true_iff, Z.leb_le, Z.ltb_lt.
split; [intros Hn Hin; apply Hn; split; [done|lia]|intros Hn [Hin _]; done].
Qed.
End catchup.

(** * The greatest block and the count *)
Lemma fold_max_spec l a : let m := fold_left Z.max l a in
  (a ≤ m)%Z ∧ (∀ x, x ∈ l → (x ≤ m)%Z) ∧ (m = a ∨ m ∈ l).
Proof.
  revert a. induction l as [|x l IH]; intros a; simpl.
  - split_and!; [lia| |by left]. intros x Hx. by apply elem_of_nil in Hx.
  - destruct (IH (Z.max a x)) as (H1 & H2 & H3). split_and!; [lia| |].
    + intros y [ ->|Hy]%elem_of_cons; [lia|by apply H2].
    + destruct H3 as [->|Hin]; [|right; by right].
      destruct (Z.max_spec a x) as [[? ->]|[? ->]]; [right; left|by left].
Qed.

(** Distinct naturals below a bound that is their number are all of them. *)
Lemma pigeonhole l n : NoDup l → (∀ x, x ∈ l → (0 ≤ x < n)%Z) → (n ≤ Z.of_nat (length l))%Z →
  ∀ x, (0 ≤ x < n)%Z → x ∈ l.
Proof.
  intros Hnd Hb Hlen x Hx.
  assert (l ≡ₚ seqZ 0 n) as E.
  { apply submseteq_length_Permutation.
    - apply NoDup_submseteq; [done|]. intros y Hy. apply elem_of_seqZ. specialize (Hb y Hy). lia.
    - rewrite length_seqZ. lia. }
  rewrite E. apply elem_of_seqZ. lia.
Qed.

(** The rows of the blocks: a number each. *)
Definition numbered (c : content) : Prop :=
  ∀ r, r ∈ c TableCvmBlocks → ∃ n, r !! "block" = Some (VNum n) ∧ (0 ≤ n)%Z.

Definition numbered_check (c : content) : bool :=
  forallb (λ r, match r !! "block" with Some (VNum n) => (0 <=? n)%Z | _ => false end) (c TableCvmBlocks).

Lemma numbered_check_ok c : numbered_check c = true → numbered c.
Proof.
  unfold numbered_check. rewrite forallb_forall. intros Hc r Hr%list_elem_of_In%Hc.
  destruct (r !! "block") as [[]|]; try done. eexists. split; [done|]. by apply Z.leb_le.
Qed.

Lemma stored_blocks_nodup c : unique_content c → numbered c → NoDup (stored_blocks c).
Proof.
  intros Hu Hn. specialize (Hu TableCvmBlocks ["block"] ltac:(left)). unfold numbered, stored_blocks in *.
  induction (c TableCvmBlocks) as [|r rs IH]; [constructor|]. simpl in *.
  apply NoDup_cons in Hu as [Hni Hnd]. constructor; [|apply IH; [done|]; intros r' Hr'; apply Hn; by right].
  intros (r' & E & Hr')%list_elem_of_fmap. apply Hni.
  destruct (Hn r ltac:(left)) as (n & En & _), (Hn r' ltac:(by right)) as (n' & En' & _).
  unfold col_num in E. rewrite En, En' in E. simpl in E. subst n'.
  apply list_elem_of_fmap. exists r'. split; [|done]. unfold project. simpl. by rewrite En, En'.
Qed.

Lemma no_catchup_missing c block : unique_content c → numbered c →
  block = fold_left Z.max (stored_blocks c) (-1)%Z →
  needs_catchup block (Z.of_nat (length (stored_blocks c))) = None → missing 0 (block + 1) c = [].
Proof.
  intros Hu Hn -> Hc. unfold needs_catchup in Hc.
  destruct (Z.ltb_spec (Z.of_nat (length (stored_blocks c))) (fold_left Z.max (stored_blocks c) (-1) + 1)%Z) as [|Hle];
    [done|].
  pose proof (fold_max_spec (stored_blocks c) (-1)%Z) as (_ & Hmax & _).
  unfold missing. rewrite (filter_ext_in _ (λ _, False)).
  - induction (seqZ _ _) as [|x l IH]; [done|]. by rewrite filter_cons_False by tauto.
  - intros b Hb%elem_of_seqZ. split; [|done]. intros Hni. apply Hni.
    apply (pigeonhole _ (fold_left Z.max (stored_blocks c) (-1) + 1)%Z); [by apply stored_blocks_nodup| |done|lia].
    intros x Hx. specialize (Hmax x Hx). split; [|lia].
    unfold stored_blocks in Hx. apply list_elem_of_fmap in Hx as (r & -> & Hr).
    destruct (Hn r Hr) as (n & En & H0). unfold col_num. by rewrite En.
Qed.

(** * Properties *)

(** C13. No block of the AX chain is skipped: when a producer starts, and neither its
    loops nor its queries are disturbed, the blocks sent to the workers - by the
    catch-up, if the count of the stored blocks shows that some are missing, then by
    the first round of the main loop - are exactly the blocks up to the node's latest
    that are not stored yet, in ascending order, each once.  Ranges of 100000 bound
    the turns of the catch-up. *)
Theorem ax_blocks_all_sent `{SqlEngine D} `{!SqlEngineOk D} (fuel : nat) (latest : Z) (d d1 : D) block count :
  answers d → unique_content (rows d) → numbered (rows d) →
  getBlock d = (d1, Ok (block, count)) → (block ≤ latest)%Z →
  (block + 1 ≤ Z.of_nat fuel * 100000)%Z →
  let '(new, block', r) := ax_ProcessNextMessage undisturbed (Ok latest) None block in
  ∃ d2 sent,
    match needs_catchup block count with
    | None => Some (d1, [])
    | Some catchup => catchupBlock undisturbed fuel 0 catchup 0 0 d1
    end = Some (d2, sent) ∧ rows d ≡ᶜ rows d2 ∧
    sent ++ new = missing 0 (latest + 1) (rows d) ∧ block' = latest.
Proof.
  intros Ha Hu Hn Hg Hl Hf. apply (select_answers_Ok _ _ _ _ Ha) in Hg as Ha1. apply select_ok in Hg as [E1 Hq]. injection Hq as Hb Hc.
  pose proof (fold_max_spec (stored_blocks (rows d1)) (-1)%Z) as (Hb1 & Hmax & _). rewrite <-Hb in Hb1, Hmax.
  assert (∃ d2, match needs_catchup block count with
    | None => Some (d1, [])
    | Some catchup => catchupBlock undisturbed fuel 0 catchup 0 0 d1
    end = Some (d2, missing 0 (block + 1) (rows d1)) ∧ rows d1 ≡ᶜ rows d2) as (d2 & Hcatch & E2).
  { destruct (needs_catchup block count) as [c|] eqn:En.
    - assert (c = block + 1)%Z as -> by (unfold needs_catchup in En; by case_match; simplify_eq).
      by apply catchup_sends; [done|lia|lia].
    - exists d1. rewrite (no_catchup_missing (rows d1) block); [done| | |done|by rewrite <-Hc].
      + by rewrite <-E1.
      + intros r. rewrite <-(E1 TableCvmBlocks). apply Hn. }
  assert (missing (block + 1) (latest + 1) (rows d1) = seqZ (block + 1) (latest - block)) as Hnew.
  { unfold missing. replace (latest + 1 - (block + 1))%Z with (latest - block)%Z by lia.
    rewrite (filter_ext_in _ (λ _, True)).
    - induction (seqZ _ _) as [|x l IH]; [done|]. rewrite filter_cons_True by done. by f_equal.
    - intros b Hbr%elem_of_seqZ. split; [done|]. intros _ Hin. specialize (Hmax b Hin). lia. }
  assert (missing 0 (latest + 1) (rows d) = missing 0 (block + 1) (rows d1) ++ seqZ (block + 1) (latest - block)) as Hall.
  { by rewrite (missing_proper 0 _ _ _ E1), (missing_split 0 (block + 1)), Hnew by lia. }
  unfold ax_ProcessNextMessage. destruct (Z.leb_spec latest block) as [Hle|Hgt].
  - exists d2, (missing 0 (block + 1) (rows d1)). split_and!; [done|by rewrite E1| |lia].
    rewrite Hall, seqZ_nil by lia. done.
  - rewrite send_next_go. exists d2, (missing 0 (block + 1) (rows d1)). split_and!; [done|by rewrite E1| |lia].
    rewrite Hall, Z2Nat.id by lia. done.
Qed.

(** A round of the main loop takes [p.block] to the node's latest block whatever
    becomes of the blocks it sent.  When a worker reports that the chain is not
    ready, the processor goes on, and the next round sends only later blocks: the
    blocks of the failed round come back only with the catch-up of the next start. *)
Theorem ax_not_ready_goes_on (latest next block : Z) (e : error) :
  (block < latest)%Z → (latest ≤ next)%Z → AXChainNotReady e = true →
  let '(sent, block', r) := ax_ProcessNextMessage undisturbed (Ok latest) (Some e) block in
  sent = seqZ (block + 1) (latest - block) ∧ block' = latest ∧ r = Err e ∧
  ax_processNextMessage_error None r = None ∧
  (ax_ProcessNextMessage undisturbed (Ok next) None block').1.1 = seqZ (latest + 1) (next - latest).
Proof.
  intros Hb Hn He. unfold ax_ProcessNextMessage at 1.
  destruct (Z.leb_spec latest block) as [|_]; [lia|]. rewrite send_next_go, Z2Nat.id by lia.
  replace (block + (latest - block))%Z with latest by lia. split_and!; [done|done|done| |].
  - unfold ax_processNextMessage_error. case_decide; [done|]. case_decide; [done|].
    case_decide; [by subst e; vm_compute in He|]. by rewrite He.
  - unfold ax_ProcessNextMessage. destruct (Z.leb_spec next latest); [by rewrite seqZ_nil by lia|].
    by rewrite send_next_go, Z2Nat.id by lia.
Qed.

(** * A block is recorded last *)
Section recorded.
Context `{SqlEngine D} `{!SqlEngineOk D} `{!AxiaIds} `{!AxJson} (p : ProducerAXChain).
Implicit Types (d : D) (s : producer_state D).

Definition in_pool (rs : list row) (row_of : Z → result TxPool) : Prop :=
∃ time tp, row_of time = Ok tp ∧ has_row rs (TxPool_ID tp).

(** All that belongs to a block is in the pool. *)
Record block_in_pool (rs : list row) (bc : BlockContainer) : Prop := {
traces_in t : t ∈ BC_Traces bc → in_pool rs (λ time, trace_txPool p time t);
logs_in l : l ∈ BC_Logs bc → in_pool rs (λ time, log_txPool p time l);
block_in : in_pool rs (λ time, block_txPool p time (modelsc_New (BC_Block bc)));
}.

Definition row_block (r : row) (n : Z) : Prop := r !! "block" = Some (VNum n).

(** [chain n] is what the node answers for block [n]. *)
Context (chain : Z → BlockContainer).

Definition recorded_ok (c : content) : Prop :=
∀ r n, r ∈ c TableCvmBlocks → row_block r n → block_in_pool (c TableTxPool) (chain n).

(** The steps: a worker indexes a block, whatever comes of it; another row is put
  in the pool; another operation writes some other table or the pool; a processor
  leaves both tables alone. *)
Inductive ax_step : producer_state D → producer_state D → Prop :=
| ax_index n time readBlock s s' r :
  (∀ n bc, readBlock n = Ok bc → bc = chain n) →
  index_block p readBlock time n s = (s', r) → ax_step s s'
| ax_pool tp s s' r : UpdateTxPool tp s = (s', r) → ax_step s s'
| ax_perform o s : gentle o → pop_table o ≠ TableCvmBlocks →
  ax_step s (mkProducerState (perform o (p_db s)).1 (p_queue s) (p_idx s))
| ax_processor d q s :
  rows d TableTxPool ≡ₚ rows (p_db s) TableTxPool →
  rows d TableCvmBlocks ≡ₚ rows (p_db s) TableCvmBlocks →
  ax_step s (mkProducerState d q (p_idx s)).

Lemma in_pool_mono rs rs' f : (∀ id, has_row rs id → has_row rs' id) → in_pool rs f → in_pool rs' f.
Proof. intros Hm (time & tp & E & Hr). exists time, tp. auto. Qed.

Lemma block_in_pool_mono rs rs' bc :
(∀ id, has_row rs id → has_row rs' id) → block_in_pool rs bc → block_in_pool rs' bc.
Proof. intros Hm [Ht Hl Hb]. split; intros; eapply in_pool_mono; eauto. Qed.

Lemma recorded_ok_mono c c' : (∀ id, has_row (c TableTxPool) id → has_row (c' TableTxPool) id) →
c' TableCvmBlocks ≡ₚ c TableCvmBlocks → recorded_ok c → recorded_ok c'.
Proof. intros Hm E Hc r n. rewrite E. intros Hr Hn. by eapply block_in_pool_mono; [|eapply Hc]. Qed.

(** Gentle operations keep the rows of the pool. *)
Lemma perform_has o d id : gentle o → has_row (rows d TableTxPool) id →
has_row (rows (perform o d).1 TableTxPool) id.
Proof.
intros Ho. set (tp := mkTxPool id 0 "" "" None 0 "" 0).
change id with (TxPool_ID tp). rewrite <-!clashes_txpool.
exact (stored_kept (PersistOk:=sql_persist_ok) o (ETxPool tp) d Ho).
Qed.

(** What putting rows in the pool does. *)
Definition adds s s' : Prop :=
(∀ id, has_row (rows (p_db s) TableTxPool) id → has_row (rows (p_db s') TableTxPool) id) ∧
rows (p_db s') TableCvmBlocks ≡ₚ rows (p_db s) TableCvmBlocks.

#[local] Instance adds_preorder : PreOrder adds.
Proof.
split; [by intros s|]. intros s1 s2 s3 [Hm1 E1] [Hm2 E2]. split; [auto|by rewrite E2].
Qed.

Lemma UpdateTxPool_adds tp s : adds s (UpdateTxPool tp s).1 ∧
∀ s', UpdateTxPool tp s = (s', Ok tt) → has_row (rows (p_db s') TableTxPool) (TxPool_ID tp).
Proof.
unfold UpdateTxPool, lift_db. rewrite bind_run.
pose proof (λ id, perform_has (PInsert (ETxPool tp) false) (p_db s) id eq_refl) as Hm.
pose proof (perform_frame (PInsert (ETxPool tp) false) (p_db s) TableCvmBlocks ltac:(done)) as Hf.
cbn [perform sql_persist insert_entity] in Hm, Hf.
destruct (InsertTxPool tp (p_db s)) as [d [[]|e]] eqn:E; [|by split].
apply InsertTxPool_has in E. cbn in *. split; [done|]. by intros s' [= <-].
Qed.

Lemma put_row_adds tp s : adds s (put_row tp s).1 ∧
∀ s', put_row tp s = (s', Ok tt) → ∃ v, tp = Ok v ∧ has_row (rows (p_db s') TableTxPool) (TxPool_ID v).
Proof.
unfold put_row, lift_result. rewrite bind_run. destruct tp as [v|e]; [|by split].
destruct (UpdateTxPool_adds v s) as [Ha Hh]. split; [done|]. intros s' E. exists v. auto.
Qed.

Lemma put_rows_adds {A} (l : list A) (f : A → result TxPool) s :
adds s (for_each l (λ x, put_row (f x)) s).1 ∧
∀ s', for_each l (λ x, put_row (f x)) s = (s', Ok tt) → ∀ x, x ∈ l →
  ∃ v, f x = Ok v ∧ has_row (rows (p_db s') TableTxPool) (TxPool_ID v).
Proof.
revert s. induction l as [|x l IH]; intros s.
{ split; [done|]. intros s' _ x Hx. by apply elem_of_nil in Hx. }
simpl. rewrite bind_run. destruct (put_row_adds (f x) s) as [Ha Hh].
destruct (put_row (f x) s) as [s1 [[]|e]]; simpl in *; [|by split].
destruct (IH s1) as [Ha1 Hh1]. split; [by transitivity s1|].
intros s' E y [ ->|Hy]%elem_of_cons; [|by apply (Hh1 s')].
destruct (Hh s1 eq_refl) as (v & Ev & Hv). exists v. split; [done|]. rewrite E in Ha1. by apply Ha1.
Qed.

Lemma processWork_adds bc time s : adds s (processWork p bc time s).1 ∧
∀ s', processWork p bc time s = (s', Ok tt) → block_in_pool (rows (p_db s') TableTxPool) bc.
Proof.
unfold processWork. rewrite bind_run.
destruct (put_rows_adds (BC_Traces bc) (trace_txPool p time) s) as [A1 H1'].
destruct (for_each (BC_Traces bc) _ s) as [s1 [[]|e]]; simpl in A1; [|by split].
rewrite bind_run. destruct (put_rows_adds (BC_Logs bc) (log_txPool p time) s1) as [A2 H2'].
destruct (for_each (BC_Logs bc) _ s1) as [s2 [[]|e]]; simpl in A2; [|split; [by transitivity s1|done]].
destruct (put_row_adds (block_txPool p time (modelsc_New (BC_Block bc))) s2) as [A3 H3'].
destruct (put_row _ s2) as [s3 r]; simpl in *.
split; [by transitivity s1; [|transitivity s2]|]. intros s' [= -> ->]. split.
- intros t Ht. destruct (H1' s1 eq_refl t Ht) as (v & Ev & Hv). exists time, v. split; [done|].
  by apply A3, A2.
- intros l Hl. destruct (H2' s2 eq_refl l Hl) as (v & Ev & Hv). exists time, v. split; [done|]. by apply A3.
- destruct (H3' s' eq_refl) as (v & Ev & Hv). by exists time, v.
Qed.

Lemma index_block_recorded readBlock time n s s' r :
(∀ n bc, readBlock n = Ok bc → bc = chain n) → index_block p readBlock time n s = (s', r) →
recorded_ok (rows (p_db s)) → recorded_ok (rows (p_db s')).
Proof.
intros Hrd Hi Hs. unfold index_block, lift_result in Hi. rewrite bind_run in Hi.
destruct (readBlock n) as [bc|e] eqn:Er; [|by simplify_eq]. apply Hrd in Er as ->.
rewrite bind_run in Hi. destruct (processWork_adds (chain n) time s) as [[Hm E] Hb].
destruct (processWork p (chain n) time s) as [s1 [[]|e]]; simpl in *;
  [|simplify_eq; by eapply recorded_ok_mono].
specialize (Hb s1 eq_refl). assert (recorded_ok (rows (p_db s1))) as Hs1 by (by eapply recorded_ok_mono).
unfold lift_db in Hi. destruct (updateBlock n time (p_db s1)) as [d [[]|e]] eqn:Eu; injection Hi as <- <-; simpl.
- apply insert_ignore_dup_ok in Eu as [(_ & Ht & Ho)|[_ E']].
  + intros r0 m. rewrite Ht. intros Hr Hm'. assert (rows d TableTxPool ≡ₚ rows (p_db s1) TableTxPool) as Ep by by apply Ho.
    apply (block_in_pool_mono (rows (p_db s1) TableTxPool)); [intros id; by rewrite Ep|].
    apply elem_of_cons in Hr as [->|Hr]; [|by apply (Hs1 r0)].
    unfold row_block in Hm'. rewrite lookup_new_row in Hm'. simpl in Hm'.
    rewrite literal_of_Z in Hm'. by injection Hm' as <-.
  + apply (recorded_ok_mono (rows (p_db s1))); [intros id; by rewrite (E' TableTxPool)|by rewrite (E' TableCvmBlocks)|done].
- apply insert_ignore_dup_err in Eu as E'.
  apply (recorded_ok_mono (rows (p_db s1))); [intros id; by rewrite (E' TableTxPool)|by rewrite (E' TableCvmBlocks)|done].
Qed.

Lemma ax_step_recorded s s' : ax_step s s' → recorded_ok (rows (p_db s)) → recorded_ok (rows (p_db s')).
Proof.
intros [n time rb s0 s1 r Hrd Hi|tp s0 s1 r E|o s0 Ho Ht|d q s0 E1 E2] Hs; simpl.
- by eapply index_block_recorded.
- destruct (UpdateTxPool_adds tp s0) as [[Hm Ef] _]. rewrite E in Hm, Ef. by eapply recorded_ok_mono.
- eapply recorded_ok_mono; [|by apply perform_frame|exact Hs]. intros id. by apply perform_has.
- eapply recorded_ok_mono; [|exact E2|exact Hs]. intros id. by rewrite E1.
Qed.
End recorded.

(** C14. A block of the AX chain is recorded after all that belongs to it: in every
    state reached from an empty table of blocks, by workers that index blocks and
    may fail at any statement, by other producers, writers and processors, each
    number in the table of blocks is that of a block whose traces, logs and body
    all have their rows in the transaction pool - so the catch-up, which trusts
    that table, leaves nothing out. *)
Theorem ax_block_recorded_last `{SqlEngine D} `{!SqlEngineOk D} `{!AxiaIds} `{!AxJson}
    (p : ProducerAXChain) (chain : Z → BlockContainer) (s s' : producer_state D) :
  rows (p_db s) TableCvmBlocks = [] → rtc (ax_step p chain) s s' →
  ∀ r n, r ∈ rows (p_db s') TableCvmBlocks → row_block r n →
    block_in_pool p (rows (p_db s') TableTxPool) (chain n).
Proof.
  intros He Hst. assert (recorded_ok p chain (rows (p_db s))) as Hs.
  { intros r n. rewrite He. by intros ?%elem_of_nil. }
  clear He. induction Hst as [s|s1 s2 s3 Hst _ IH]; [exact Hs|]. by apply IH, (ax_step_recorded _ _ s1).
Qed.

(** * The rows reach their handlers *)
Lemma length_app_string (a b : string) : String.length (a +:+ b) = String.length a + String.length b.
Proof. induction a as [|c a IH]; simpl; [done|]. by rewrite <-IH. Qed.

Lemma ax_topics_distinct p :
  ax_topicTrc p ≠ ax_topic p ∧ ax_topicLogs p ≠ ax_topic p ∧ ax_topicLogs p ≠ ax_topicTrc p.
Proof.
  unfold ax_topic, ax_topicTrc, ax_topicLogs.
  split_and!; intros E; apply (f_equal String.length) in E; rewrite !length_app_string in E; simpl in E; lia.
Qed.

Lemma ax_txPool_fields `{!AxiaIds} p idsv topic body time tp : ax_txPool p idsv topic body time = Ok tp →
  TxPool_Topic tp = topic ∧ TxPool_Serialization tp = Some body ∧ TxPool_CreatedAt tp = time ∧ TxPool_Processed tp = 0%Z.
Proof.
  unfold ax_txPool, TxPool_ComputeID, mbind, result_bind, mret, result_ret. intros E.
  repeat case_match; by simplify_eq.
Qed.

(** What the producer of the AX chain puts in the pool for a block: the block, each of its
    traces and each of its logs. *)
Inductive ax_item := AxBlock (b : CBlock) | AxTrace (t : TransactionTrace) | AxLog (l : EthLog).

Section items.
Context `{SqlEngine D} `{!Dbr} `{!AxiaIds} `{!AxiaMath} `{!AxiaCrypto} `{!Cfg} `{!CvmCodec} `{!AxJson}.

Definition item_txPool (p : ProducerAXChain) (time : Z) (it : ax_item) : result TxPool :=
  match it with
  | AxBlock b => block_txPool p time b
  | AxTrace t => trace_txPool p time t
  | AxLog l => log_txPool p time l
  end.

Definition item_text (it : ax_item) : result string :=
  match it with AxBlock b => json_block b | AxTrace t => json_trace t | AxLog l => json_log l end.

Definition item_topic (p : ProducerAXChain) (it : ax_item) : string :=
  match it with AxBlock _ => ax_topic p | AxTrace _ => ax_topicTrc p | AxLog _ => ax_topicLogs p end.

(** What becomes of the text of an item: the error of its decoding, or the method of the
    cvm writer for such an item, on what the text decodes to. *)
Definition item_handled Propagate clock fuel (w : cvm.Writer) (it : ax_item) (text : string) (time : Z) (d : D)
    : option (D * result unit) :=
  let ts := (time / 10 ^ 9)%Z in
  let ns := (time mod 10 ^ 9)%Z in
  match it with
  | AxBlock _ =>
      match cblock_Unmarshal text with
      | Err e => Some (d, Err e)
      | Ok b => ax_retry fuel (cvm.Consume Propagate clock w ts ns (CBlock_ExtraData b) b) d
      end
  | AxTrace _ =>
      match unjson_trace text with
      | Err e => Some (d, Err e)
      | Ok t => ax_retry fuel (cvm.ConsumeTrace clock ts ns t) d
      end
  | AxLog _ =>
      match unjson_log text with
      | Err e => Some (d, Err e)
      | Ok l => ax_retry fuel (cvm.ConsumeLogs clock ts ns text l) d
      end
  end.

Lemma item_txPool_fields p time it tp :
  item_txPool p time it = Ok tp →
  ∃ text, item_text it = Ok text ∧ TxPool_Topic tp = item_topic p it ∧ TxPool_Serialization tp = Some text ∧
    TxPool_CreatedAt tp = time ∧ TxPool_Processed tp = 0%Z.
Proof.
  destruct it as [b|t|l]; simpl; unfold block_txPool, trace_txPool, log_txPool.
  - destruct (json_block b) as [body|] eqn:Ej; [|done]. intros E. exists body. split; [done|].
    by apply ax_txPool_fields in E.
  - destruct (json_trace t) as [body|] eqn:Ej; [|done]. intros E. exists body. split; [done|].
    by apply ax_txPool_fields in E.
  - destruct (json_log l) as [body|] eqn:Ej; [|done]. intros E. exists body. split; [done|].
    by apply ax_txPool_fields in E.
Qed.

(** A row is handled as its topic, its text and its time say. *)
Lemma item_row_handled Propagate clock fuel p w it text (row : TxPool) (d : D) :
  TxPool_Topic row = item_topic p it → TxPool_Serialization row = Some text →
  consumerAXChainDB_Process Propagate clock fuel p w row d =
  item_handled Propagate clock fuel w it text (TxPool_CreatedAt row) d.
Proof.
  intros Et Es. destruct (ax_topics_distinct p) as (Hd1 & Hd2 & Hd3).
  unfold consumerAXChainDB_Process, ax_Consume, ax_ConsumeTrace, ax_ConsumeLogs, process_message.
  cbn [Message_body Message_timestamp Message_nanosecond]. rewrite Es. destruct it; simpl in Et |- *.
  - by rewrite decide_True.
  - by rewrite decide_False, decide_True by congruence.
  - by rewrite !decide_False, decide_True by congruence.
Qed.

Lemma wanted_read topics r (c : content) :
  r ∈ c TableTxPool → wanted topics r = true →
  load_TxPool (restrict TxPool_columns r) ∈ unprocessed_query topics c.
Proof.
  intros Hr Hw. unfold unprocessed_query. apply list_elem_of_fmap. exists r. split; [done|].
  assert (∀ l, foldr insert_oldest [] l ≡ₚ l) as Hperm.
  { induction l as [|x l IH]; simpl; [done|]. rewrite <-IH at 2.
    generalize (foldr insert_oldest [] l). intros k. clear. induction k as [|y k IHk]; simpl; [done|].
    case_match; [done|]. rewrite IHk. apply perm_swap. }
  rewrite Hperm, list_elem_of_In, filter_In, <-list_elem_of_In. done.
Qed.
End items.

(** C32. What the producer of the AX chain puts in the pool reaches the writer.  When a
    block, a trace or a log is put under a key that the pool does not have, the table has a
    row of its text, made by the JSON of third-party code.  As long as that row is there as
    it was written, every query of the unprocessed rows for its topic finds it, and the
    consumer that is given what the query reads hands the text's decoding to the method of
    the cvm writer for blocks, for traces or for logs, at the time the producer gave it,
    cut to the microseconds of the column; a text that is not understood is that error.
    The copy in the queue of the process, if the queue has room, is handled in the same way
    at the exact time. *)
Theorem ax_rows_routed `{SqlEngine D} `{!SqlEngineOk D} `{!Dbr} `{!DbrOk} `{!AxiaIds} `{!AxiaMath} `{!AxiaCrypto}
    `{!Cfg} `{!CvmCodec} `{!AxJson} (Propagate : error → string → error) (clock : nat → Z) (fuel : nat)
    (p : ProducerAXChain) (w : cvm.Writer) (time : Z) (it : ax_item) (tp : TxPool) (s s' : producer_state D) :
  item_txPool p time it = Ok tp →
  clashes TableTxPool (new_row TableTxPool (TxPool_pairs tp)) (rows (p_db s) TableTxPool) = false →
  put_row (item_txPool p time it) s = (s', Ok tt) →
  ∃ text r, item_text it = Ok text ∧ r ∈ rows (p_db s') TableTxPool ∧
    (∀ topics c, item_topic p it ∈ topics → r ∈ c TableTxPool →
       load_TxPool (restrict TxPool_columns r) ∈ unprocessed_query topics c) ∧
    (∀ d, consumerAXChainDB_Process Propagate clock fuel p w (load_TxPool (restrict TxPool_columns r)) d =
          item_handled Propagate clock fuel w it text (trunc_micro time) d) ∧
    p_queue s' = Enqueue (p_queue s) tp ∧
    (∀ d, consumerAXChainDB_Process Propagate clock fuel p w tp d =
          item_handled Propagate clock fuel w it text time d).
Proof.
  intros Etp Hfree E. destruct (item_txPool_fields _ _ _ _ Etp) as (text & Ht & Htop & Hser & Htime & Hproc).
  rewrite Etp in E. unfold put_row, lift_result in E. rewrite bind_run in E. cbn in E.
  unfold UpdateTxPool, lift_db in E. rewrite bind_run in E.
  destruct (InsertTxPool tp (p_db s)) as [d1 [[]|e]] eqn:Ei; [|done]. cbn in E. injection E as <-.
  apply insert_ignore_dup_ok in Ei as [(_ & Hrows & _)|[Hc _]]; [|congruence].
  set (r := new_row TableTxPool (TxPool_pairs tp)) in *.
  assert (load_TxPool (restrict TxPool_columns r) = mkTxPool (TxPool_ID tp) (TxPool_NetworkID tp) (TxPool_ChainID tp)
    (TxPool_MsgKey tp) (TxPool_Serialization tp) (TxPool_Processed tp) (TxPool_Topic tp) (trunc_micro (TxPool_CreatedAt tp))) as El.
  { exact (f_equal (λ e, match e with ETxPool v => v | _ => tp end) (load_persisted (ETxPool tp))). }
  exists text, r. split_and!; [done|cbn; rewrite Hrows; left| | |done|].
  - intros topics c Hin Hr. apply wanted_read; [done|]. unfold wanted. rewrite andb_true_iff, existsb_exists.
    split; [unfold matches; simpl; rewrite andb_true_r; apply bool_decide_eq_true; unfold r; rewrite lookup_new_row; cbn; by rewrite Hproc|].
    exists (item_topic p it). split; [by apply list_elem_of_In|]. unfold matches. simpl. rewrite andb_true_r.
    apply bool_decide_eq_true. unfold r. rewrite lookup_new_row. cbn. by rewrite Htop.
  - intros d. rewrite El, (item_row_handled _ _ _ _ _ it text); [by rewrite <-Htime|done|done].
  - intros d. rewrite (item_row_handled _ _ _ _ _ it text); [by rewrite Htime|done|done].
Qed.

(** * Witnesses *)
Module AxSample.
Import Toy Sample ToyCodec.

#[export] Instance rawtx_eq_dec : EqDecision RawTx.
Proof. solve_decision. Defined.
#[export] Instance cblock_eq_dec : EqDecision CBlock.
Proof. solve_decision. Defined.
#[export] Instance trace_eq_dec : EqDecision TransactionTrace.
Proof. solve_decision. Defined.
#[export] Instance log_eq_dec : EqDecision EthLog.
Proof. solve_decision. Defined.

Definition p : ProducerAXChain := mkProducerAXChain 1 "C".
Definition trace : TransactionTrace := mkTransactionTrace "0xaa" 0 "{}".
Definition log : EthLog := mkEthLog "0xbb" "0xaa" 0 0 ["0xcc"] false.
Definition block : EthBlock := mkEthBlock 0 10 1 "0xbb" "0x00" None [].
Definition bc : BlockContainer := mkBlockContainer block [trace] [log].
Definition wc : cvm.Writer := cvm.mkWriter 1 "AXC" w 0.

(** A JSON that knows one block, one trace and one log. *)
#[export] Instance json : AxJson := {
json_trace t := if decide (t = trace) then Ok "trace" else Err "unknown";
json_log l := if decide (l = log) then Ok "log" else Err "unknown";
json_block b := if decide (b = modelsc_New block) then Ok "block" else Err "unknown";
unjson_trace _ := Ok trace;
unjson_log _ := Ok log;
unjson_cblock _ := Ok (modelsc_New block, []);
unjson_tx _ := Err "unknown";
}.
(** Blocks 0 and 2 are stored, the node is at block 4. *)
Definition db : MemDb := (updateBlock 2 5 (updateBlock 0 5 empty_db).1).1.
Lemma db_answers : answers db.
Proof.
assert (∀ n, Nat.iter n (λ d : MemDb, (poll d).1) db = db) as E.
{ induction n as [|n IH]; [done|]. rewrite Nat.iter_succ, IH. reflexivity. }
intros n. by rewrite E.
Qed.

Definition start : producer_state MemDb := mkProducerState empty_db (mkWorker [] MaxTxPoolSize) 0.
Definition indexed : producer_state MemDb := (index_block p (λ _, Ok bc) 7 0 start).1.
End AxSample.
Import Toy Sample ToyCodec AxSample.

Lemma ax_blocks_all_sent_witness :
  let '(new, block', r) := ax_ProcessNextMessage undisturbed (Ok 4%Z) None 2 in
  ∃ d2 sent, catchupBlock undisturbed 1 0 3 0 0 db = Some (d2, sent) ∧ rows db ≡ᶜ rows d2 ∧
    sent ++ new = [1; 3; 4]%Z ∧ block' = 4%Z.
Proof.
  assert ([1; 3; 4]%Z = missing 0 (4 + 1) (rows db)) as -> by (vm_compute; reflexivity).
  apply (ax_blocks_all_sent 1 4 db db 2 2).
  - apply db_answers.
  - apply unique_db_ok. vm_compute. reflexivity.
  - apply numbered_check_ok. vm_compute. reflexivity.
  - vm_compute. reflexivity.
  - discriminate.
  - discriminate.
Defined.

Lemma ax_block_recorded_last_witness :
  block_in_pool p (rows (p_db indexed) TableTxPool) bc.
Proof.
  apply (ax_block_recorded_last p (λ _, bc) start indexed) with
    (r := default ∅ (head (rows (p_db indexed) TableCvmBlocks))) (n := 0%Z).
  - reflexivity.
  - apply rtc_once. eapply (ax_index p (λ _, bc) 0 7 (λ _, Ok bc)); [|apply surjective_pairing].
    intros n b Hb. injection Hb as <-. reflexivity.
  - by_decide.
  - vm_compute. reflexivity.
Defined.

Definition log_row : TxPool :=
  match log_txPool p 7654 log with Ok tp => tp | Err _ => mkTxPool "" 0 "" "" None 0 "" 0 end.
Definition logged : producer_state MemDb := (put_row (log_txPool p 7654 log) start).1.

(** The log that was put 7654 nanoseconds after the epoch is handled at 7000. *)
Lemma ax_rows_routed_witness :
  ∃ r, r ∈ rows (p_db logged) TableTxPool ∧
    ∀ d : MemDb, consumerAXChainDB_Process propagate clock 2 p wc (load_TxPool (H:=ToyDbr.dbr) (restrict TxPool_columns r)) d =
      ax_retry 2 (cvm.ConsumeLogs clock 0 7000 "log" log) d.
Proof.
  destruct (ax_rows_routed (H0:=ToyDbr.dbr) (H1:=ToyDbr.dbr_ok) propagate clock 2 p wc 7654 (AxLog log) log_row start logged)
    as (text & r & Ht & Hr & _ & Hd & _).
  - vm_compute. reflexivity.
  - vm_compute. reflexivity.
  - apply run_ok. vm_compute. reflexivity.
  - assert (text = "log") as -> by (vm_compute in Ht; by injection Ht as <-).
    exists r. split; [exact Hr|exact Hd].
Defined.
