(* ===== verification/NodeClient.v ===== *)
(** modelsc/cblock.go: the client of the C chain's node, which the producer of the AX
    chain reads the height and the blocks with.

    The node is a state [St] that every request can change; a request fails by itself or
    because the time of the whole read is over. *)

From S2P Require Import Prelude Axia CvmWriter StreamAx.

(** A call of a trace, with the calls it makes; a nil pointer is [None]. *)
#[warnings="-register-all"] Inductive Call := mkCall {
  Call_Type : string;
  Call_From : string;
  Call_To : string;
  Call_Value : option Z;
  Call_GasUsed : option Z;
  Call_Revert : bool;
  Call_Error : string;
  Call_Calls : list (option Call);
}.

(** The requests of the client (third-party), and [json.Marshal] on a call. *)
Class EthNode (St : Type) := {
  rpc_BlockNumber : M St Z;
  rpc_BlockByNumber : Z → M St EthBlock;
  debug_traceTransaction : string → M St Call;
  rpc_FilterLogs : string → M St (list EthLog);         (* the logs of a block, by its hash *)
  json_Call : option Call → result string;
}.

Section client.
Context `{EthNode St}.

Definition Latest : M St Z := rpc_BlockNumber.

(** The hash of a transaction, with its prefix. *)
Definition trace_hash (tx : RawTx) : string :=
let txh := RawTx_Hash tx in if has_prefix "0x" txh then txh else "0x" +:+ txh.

(** The loop over the calls of a transaction; [ipos] is the position of the next one. *)
Fixpoint call_traces (txh : string) (ipos : Z) (calls : list (option Call)) : result (list TransactionTrace) :=
match calls with
| [] => Ok []
| c :: calls' =>
    traceBits ← json_Call c;
    rest ← call_traces txh (ipos + 1) calls';
    Ok (mkTransactionTrace txh (wrap32 ipos) traceBits :: rest)
end.

(** The loop over the transactions. *)
Fixpoint tx_traces (txs : list RawTx) : M St (list TransactionTrace) :=
match txs with
| [] => mret []
| tx :: txs' =>
    let txh := trace_hash tx in
    results ← debug_traceTransaction txh;
    traces ← lift_result (call_traces txh 0 (Call_Calls results));
    rest ← tx_traces txs';
    mret (traces ++ rest)
end.

Definition ReadBlock (blockNumber : Z) : M St BlockContainer :=
bl ← rpc_BlockByNumber blockNumber;
txTraces ← tx_traces (EthBlock_Transactions bl);
fls ← rpc_FilterLogs (EthBlock_Hash bl);
mret (mkBlockContainer bl txTraces fls).
End client.

(** * Facts *)
Section facts.
Context `{EthNode St}.

(** The traces of a transaction: its calls in order, numbered from zero. *)
Definition numbered (txh : string) (ipos : Z) (calls : list (option Call)) (traces : list TransactionTrace) : Prop :=
∀ i, match calls !! i, traces !! i with
     | Some c, Some t => Trace_Hash t = txh ∧ Trace_Idx t = wrap32 (ipos + Z.of_nat i) ∧ json_Call c = Ok (Trace_Trace t)
     | None, None => True
     | _, _ => False
     end.

Lemma call_traces_numbered txh ipos calls traces :
call_traces txh ipos calls = Ok traces → numbered txh ipos calls traces.
Proof.
revert ipos traces. induction calls as [|c calls IH]; intros ipos traces E i; simpl in E.
- by injection E as <-.
- destruct (json_Call c) as [b|] eqn:Eb; [|done]. cbn in E.
  destruct (call_traces txh (ipos + 1) calls) as [rest|] eqn:Er; [|done]. injection E as <-.
  destruct i as [|i]; [by rewrite Z.add_0_r|]. cbn. pose proof (IH _ _ Er i) as Hi.
  replace (ipos + Z.of_nat (S i))%Z with (ipos + 1 + Z.of_nat i)%Z by lia. exact Hi.
Qed.

(** The traces of the transactions, one after the other. *)
Lemma tx_traces_ok txs (s s' : St) traces : tx_traces txs s = (s', Ok traces) →
∃ l, traces = concat l ∧ Forall2 (λ tx ts, ∃ results s1 s2,
  debug_traceTransaction (trace_hash tx) s1 = (s2, Ok results) ∧ numbered (trace_hash tx) 0 (Call_Calls results) ts) txs l.
Proof.
revert s traces. induction txs as [|tx txs IH]; intros s traces E; simpl in E.
- injection E as <- <-. by exists [].
- apply bind_Ok_inv in E as (results & s1 & E1 & E). apply bind_Ok_inv in E as (ts & s2 & E2 & E).
  injection E2 as <- E2. apply bind_Ok_inv in E as (rest & s3 & E3 & [= <- <-]).
  apply IH in E3 as (l & -> & Hl). exists (ts :: l). split; [done|]. constructor; [|done].
  exists results, s, s1. split; [done|]. by apply call_traces_numbered.
Qed.

(** The place of a trace among the rows: a hash and a number. *)
Definition trace_key (t : TransactionTrace) : string * Z := (Trace_Hash t, Trace_Idx t).

Lemma numbered_keys txh calls ts : numbered txh 0 calls ts → (Z.of_nat (length calls) ≤ 2 ^ 32)%Z →
NoDup (map trace_key ts).
Proof.
intros Hn Hlen. assert (∀ i t, ts !! i = Some t → Trace_Idx t = Z.of_nat i) as Hi.
{ intros i t Ht. pose proof (Hn i) as Hi. rewrite Ht in Hi. destruct (calls !! i) as [c|] eqn:Ec; [|done].
  destruct Hi as (_ & -> & _). apply lookup_lt_Some in Ec. apply Z.mod_small. lia. }
apply NoDup_alt. intros i j k Ei Ej. rewrite list_lookup_fmap in Ei, Ej.
destruct (ts !! i) as [t|] eqn:Et; [|done]. destruct (ts !! j) as [t'|] eqn:Et'; [|done].
injection Ei as <-. injection Ej as _ E. apply Hi in Et, Et'. lia.
Qed.

Lemma numbered_hash txh calls ts t : numbered txh 0 calls ts → t ∈ ts → Trace_Hash t = txh.
Proof.
intros Hn (i & Hi)%list_elem_of_lookup. specialize (Hn i). rewrite Hi in Hn.
destruct (calls !! i); [by destruct Hn|done].
Qed.

Lemma numbered_length txh calls ts : numbered txh 0 calls ts → length calls = length ts.
Proof.
intros Hn. assert (∀ i, is_Some (calls !! i) ↔ is_Some (ts !! i)) as Hs.
{ intros i. specialize (Hn i). by destruct (calls !! i), (ts !! i). }
destruct (Nat.lt_trichotomy (length calls) (length ts)) as [Hlt|[?|Hlt]]; [|done|];
  apply lookup_lt_is_Some in Hlt as Hc; apply Hs, lookup_lt_is_Some in Hc; lia.
Qed.

(** What [tx_traces_ok] says of each transaction. *)
Definition traced (tx : RawTx) (ts : list TransactionTrace) : Prop := ∃ results (s1 s2 : St),
debug_traceTransaction (trace_hash tx) s1 = (s2, Ok results) ∧ numbered (trace_hash tx) 0 (Call_Calls results) ts.

Lemma traced_hash txs l t : Forall2 traced txs l → t ∈ concat l → Trace_Hash t ∈ map trace_hash txs.
Proof.
induction 1 as [|tx ts txs l (results & s1 & s2 & _ & Hn) _ IH]; cbn; [by intros ?%elem_of_nil|].
intros [Ht|Ht]%elem_of_app; [|right; by apply IH]. rewrite (numbered_hash _ _ _ _ Hn Ht). left.
Qed.

Lemma traced_keys txs l : Forall2 traced txs l → NoDup (map trace_hash txs) →
Forall (λ ts, (Z.of_nat (length ts) ≤ 2 ^ 32)%Z) l → NoDup (map trace_key (concat l)).
Proof.
induction 1 as [|tx ts txs l (results & s1 & s2 & _ & Hn) Hl IH]; [intros; constructor|].
intros [Hni Hnd]%NoDup_cons [Hts Hlen]%Forall_cons. cbn. rewrite map_app. apply NoDup_app. split_and!; [| |by apply IH].
- eapply numbered_keys; [exact Hn|]. by rewrite (numbered_length _ _ _ Hn).
- intros k (t & -> & Ht)%list_elem_of_fmap (t' & [= Et' _] & Ht')%list_elem_of_fmap. apply Hni.
  rewrite <-(numbered_hash _ _ _ _ Hn Ht), Et'. by eapply traced_hash.
Qed.

(** C38. A block that is read is whole: it is the node's, with the logs of its hash, and with
  the traces of every call of its transactions, each under a place of its own as long as
  the transactions have distinct hashes and not more calls than an index can number. *)
Theorem block_read (n : Z) (s s' : St) bc : ReadBlock n s = (s', Ok bc) →
∃ l s1 s2, rpc_BlockByNumber n s = (s1, Ok (BC_Block bc)) ∧
  rpc_FilterLogs (EthBlock_Hash (BC_Block bc)) s2 = (s', Ok (BC_Logs bc)) ∧
  BC_Traces bc = concat l ∧ Forall2 traced (EthBlock_Transactions (BC_Block bc)) l ∧
  (NoDup (map trace_hash (EthBlock_Transactions (BC_Block bc))) →
   Forall (λ ts, (Z.of_nat (length ts) ≤ 2 ^ 32)%Z) l → NoDup (map trace_key (BC_Traces bc))).
Proof.
intros E. unfold ReadBlock in E. apply bind_Ok_inv in E as (bl & s1 & E1 & E).
apply bind_Ok_inv in E as (traces & s2 & E2 & E). apply bind_Ok_inv in E as (fls & s3 & E3 & [= <- <-]).
apply tx_traces_ok in E2 as (l & -> & Hl). exists l, s1, s2. split_and!; try done. by apply traced_keys.
Qed.
End facts.

(** * A node with one block *)
Module NodeSample.
Definition tx (h : string) : RawTx := mkRawTx h None 0 (Ok "").
Definition block : EthBlock := mkEthBlock 7 0 0 "h7" "h6" None [tx "0xa"; tx "b"].
Definition called (type : string) (calls : list (option Call)) : Call :=
  mkCall type "" "" None None false "" calls.
#[export] Instance node : EthNode nat := {|
rpc_BlockNumber s := (S s, Ok 7%Z);
rpc_BlockByNumber n s := (S s, if (n =? 7)%Z then Ok block else Err "not found");
debug_traceTransaction h s := (S s, Ok (called "CALL" [Some (called "CALL" []); Some (called "CREATE" [])]));
rpc_FilterLogs h s := (S s, Ok [mkEthLog h "0xa" 0 7 [] false]);
json_Call c := Ok (match c with Some c => Call_Type c | None => "null" end) |}.
Abbreviation run := (ReadBlock 7 0).
Definition container : BlockContainer := match run.2 with Ok bc => bc | Err _ => mkBlockContainer block [] [] end.
Example four_traces : map trace_key (BC_Traces container) = [("0xa", 0); ("0xa", 1); ("0xb", 0); ("0xb", 1)]%Z.
Proof. vm_compute. reflexivity. Qed.
End NodeSample.
Import NodeSample.

Lemma block_read_witness : run.1 = 4 ∧ ∃ l, BC_Traces container = concat l ∧ Forall2 traced [tx "0xa"; tx "b"] l.
Proof.
  split; [vm_compute; reflexivity|].
  destruct (block_read 7 0 (run.1) container) as (l & s1 & s2 & _ & _ & Hl & Ht & _); [vm_compute; reflexivity|].
  exists l. exact (conj Hl Ht).
Defined.
