(* ===== verification/StreamFacts.v ===== *)
(** The loops and the routing of the streaming part: registration of topics, retries,
    the order of the pool, the jobs of the workers, the blocks of the AX chain. *)

From S2P Require Import Prelude Errors Sql MemDb Axia DbModel Persist Persistence Prog Models AxcWriter Writer AvmWriter PvmWriter CvmWriter Indexing Utils UtilsFacts Stream StreamAx Pool PoolSystem Processors Streaming StreamAxFacts.

(** * Registration of topics *)
Section topics.
Context {D : Type}.
Implicit Types fsm : gmap string (ProcessorDB (D:=D)).

(** The names are the topics that have a processor. *)
Definition registered (st : gmap string (ProcessorDB (D:=D)) * list string) : Prop :=
NoDup st.2 ∧ ∀ t, t ∈ st.2 ↔ is_Some (st.1 !! t).

Lemma registered_snoc fsm names t f : registered (fsm, names) → fsm !! t = None →
registered (<[t := f]> fsm, names ++ [t]).
Proof.
intros [Hnd Hdom] Ht. simpl in *. assert (t ∉ names) as Hni by (intros [g Hg]%Hdom; congruence).
split; simpl.
- apply NoDup_app. split_and!; [done| |apply NoDup_singleton].
  intros x Hx ->%list_elem_of_singleton. done.
- intros x. rewrite elem_of_app, list_elem_of_singleton. destruct (decide (x = t)) as [->|Hne].
  + rewrite lookup_insert_eq. split; [by eexists|by right].
  + rewrite lookup_insert_ne, Hdom by done. split; [by intros [?|?]|by left].
Qed.

Lemma register_topics_spec f ts st : registered st →
match register_topics f ts st with
| Ok st' => registered st' ∧ st'.2 = st.2 ++ ts ∧ (∀ t, t ∈ ts → st'.1 !! t = Some f) ∧
            (∀ t, t ∈ st.2 → st'.1 !! t = st.1 !! t)
| Err _ => ¬ NoDup (st.2 ++ ts)
end.
Proof.
revert st. induction ts as [|t ts IH]; intros [fsm names] Hst; simpl in *.
{ rewrite app_nil_r. split_and!; try done. intros t Ht. by apply elem_of_nil in Ht. }
destruct Hst as [Hnd Hdom]. simpl in *. destruct (fsm !! t) as [g|] eqn:Et.
{ intros (_ & Hd & _)%NoDup_app. apply (Hd t); [apply Hdom; by eexists|left]. }
specialize (IH _ (registered_snoc fsm names t f (conj Hnd Hdom) Et)). simpl in IH.
destruct (register_topics f ts _) as [st'|e]; rewrite <-app_assoc in IH; simpl in IH; [|done].
destruct IH as (Hr & Hn & Hf & Hk). split_and!; [done|done| |].
- intros x [ ->|Hx]%elem_of_cons; [|by apply Hf].
  rewrite Hk by (apply elem_of_app; right; left). apply lookup_insert_eq.
- intros x Hx. rewrite Hk by (apply elem_of_app; by left). apply lookup_insert_ne.
  intros ->. apply Hdom in Hx as [g Hg]. congruence.
Qed.

Lemma register_all_spec fs st : registered st →
match register_all fs st with
| Ok st' => registered st' ∧ st'.2 = st.2 ++ concat (map snd fs) ∧
            (∀ f ts t, (f, ts) ∈ fs → t ∈ ts → st'.1 !! t = Some f) ∧
            (∀ t, t ∈ st.2 → st'.1 !! t = st.1 !! t)
| Err _ => ¬ NoDup (st.2 ++ concat (map snd fs))
end.
Proof.
revert st. induction fs as [|[f ts] fs IH]; intros st Hst; simpl.
- rewrite app_nil_r. split_and!; try done. intros f ts t Hin. by apply elem_of_nil in Hin.
- pose proof (register_topics_spec f ts st Hst) as Hs.
  destruct (register_topics f ts st) as [st1|e].
  + destruct Hs as (Hr & Hn & Hf & Hk). specialize (IH st1 Hr). rewrite Hn, <-app_assoc in IH.
    destruct (register_all fs st1) as [st'|e]; [|done].
    destruct IH as (Hr' & Hn' & Hf' & Hk'). split_and!; [done|done| |].
    * intros f' ts' t [[= -> ->]|Hin]%elem_of_cons Ht; [|by eapply Hf'].
      rewrite Hk' by (apply elem_of_app; by right). by apply Hf.
    * intros t Ht. rewrite Hk' by (apply elem_of_app; by left). by apply Hk.
  + rewrite app_assoc. intros (Hnd & _)%NoDup_app. done.
Qed.
End topics.

Lemma registered_empty {D} : registered (∅ : gmap string (ProcessorDB (D:=D)), []).
Proof.
  split; [constructor|]. intros t. simpl. rewrite lookup_empty.
  split; [by intros ?%elem_of_nil|by intros []].
Qed.

(** The processors are registered exactly when no topic is claimed twice; then
    each topic goes to the processor that claimed it, and the topics the iterator
    asks the pool for are exactly those that have a processor. *)
Theorem topics_registered {D} (factories : list (ProcessorDB (D:=D) * list string)) :
  let claimed := concat (map snd factories) in
  match register_all factories (∅, []) with
  | Ok (fsm, topicNames) =>
      NoDup claimed ∧ topicNames = claimed ∧ (∀ t, t ∈ topicNames ↔ is_Some (fsm !! t)) ∧
      ∀ f topics t, (f, topics) ∈ factories → t ∈ topics → fsm !! t = Some f
  | Err _ => ¬ NoDup claimed
  end.
Proof.
  intros claimed. pose proof (register_all_spec factories (∅, []) registered_empty) as Hs.
  destruct (register_all factories _) as [[fsm names]|e]; [|done].
  destruct Hs as ([Hnd Hdom] & Hn & Hf & _). simpl in *. subst names. done.
Qed.

(** * Retries *)
Section retry.
Context {S : Type} (m : M S unit).

Lemma consume_retry_S fuel rs slept s :
consume_retry (Datatypes.S fuel) m rs slept s =
match m s with
| (s', Ok _) => Some (s', Ok tt, slept)
| (s', Err e) =>
    if ErrIsLockError e
    then consume_retry fuel m (RetrySleeper_Inc rs).1 (slept + (RetrySleeper_Inc rs).2) s'
    else Some (s', Err e, slept)
end.
Proof. simpl. by destruct (RetrySleeper_Inc rs). Qed.

(** After [n] lock errors, the first other answer is the result. *)
Lemma consume_retry_steps n k (run : nat → S) rs slept s' r :
(∀ i, i < n → ∃ e, m (run i) = (run (i + 1), Err e) ∧ ErrIsLockError e = true) →
m (run n) = (s', r) → (∀ e, r = Err e → ErrIsLockError e = false) →
consume_retry (Datatypes.S n + k) m rs slept (run 0) =
  Some (s', r, (slept + sum_with (λ i, (RetrySleeper_Inc (Nat.iter i (λ r, (RetrySleeper_Inc r).1) rs)).2)
                          (seq 0 n))%Z).
Proof.
revert run rs slept. induction n as [|n IH]; intros run rs slept Hlock Hend Hr.
- rewrite consume_retry_S, Hend, Z.add_0_r. destruct r as [[]|e]; [done|]. by rewrite (Hr e eq_refl).
- destruct (Hlock 0 ltac:(lia)) as (e & E & El).
  change (Datatypes.S (Datatypes.S n) + k) with (Datatypes.S (Datatypes.S n + k)).
  rewrite consume_retry_S, E, El, (IH (λ i, run (i + 1))).
  + do 2 f_equal. change (seq 0 (Datatypes.S n)) with (0 :: seq 1 n). simpl sum_with.
    rewrite <-Z.add_assoc. do 2 f_equal. rewrite <-seq_shift, sum_with_map.
    apply sum_with_ext. intros i _. by rewrite Nat.iter_succ_r.
  + intros i Hi. apply Hlock. lia.
  + rewrite <-Hend. f_equal. f_equal. lia.
  + done.
Qed.
End retry.

(** C36. A consumer retries a message as long as the database reports a lock, and
    reports anything else at once: after [n] lock errors in a row, the first other
    answer is the result, and the time slept in between is a tenth of a second for
    each retry but the first. *)
Theorem lock_errors_retried {S : Type} (persistConsume : M S unit) (run : nat → S) (n fuel : nat) s' r :
  (∀ i, i < n → ∃ e, persistConsume (run i) = (run (i + 1), Err e) ∧ ErrIsLockError e = true) →
  persistConsume (run n) = (s', r) → (∀ e, r = Err e → ErrIsLockError e = false) →
  n < fuel → (Z.of_nat n < 2 ^ 64 - 1)%Z →
  consume_retry fuel persistConsume consume_sleeper 0 (run 0) =
    Some (s', r, (Z.of_nat (n - 1) * (100 * 10 ^ 6))%Z).
Proof.
  intros Hlock Hend Hr Hf Hn. replace fuel with (Datatypes.S n + (fuel - Datatypes.S n)) by lia.
  rewrite (consume_retry_steps _ n _ run _ _ s' r Hlock Hend Hr), Z.add_0_l. do 2 f_equal.
  transitivity (sum_with (λ i, if (Z.of_nat i <? 1)%Z then 0%Z else (100 * 10 ^ 6)%Z) (seq 0 n)).
  - apply sum_with_ext. intros i [_ Hi]%elem_of_seq. unfold consume_sleeper.
    rewrite iter_inc by lia. by rewrite inc_step by lia.
  - clear. destruct n as [|n]; [done|]. change (seq 0 (Datatypes.S n)) with (0 :: seq 1 n).
    replace (Datatypes.S n - 1) with n by lia. cbn [sum_with]. rewrite <-seq_shift, sum_with_map.
    rewrite (sum_with_ext _ (λ _, (100 * 10 ^ 6)%Z)) by (intros i _; destruct (Z.ltb_spec (Z.of_nat (Datatypes.S i)) 1); lia).
    induction n as [|n IH]; [done|]. change (seq 0 (Datatypes.S n)) with (0 :: seq 1 n).
    cbn [sum_with]. rewrite <-seq_shift, sum_with_map. lia.
Qed.

(** * Text *)
Lemma trim_front_spec l : ∃ n, l = replicate n newline ++ trim_front l ∧ head (trim_front l) ≠ Some newline.
Proof.
  induction l as [|c l (n & E & Hh)]; [by exists 0|]. simpl. case_decide as Hc.
  - subst c. exists (S n). simpl. by rewrite <-E.
  - exists 0. split; [done|]. simpl. congruence.
Qed.

Lemma replicate_reverse {A} n (x : A) : reverse (replicate n x) = replicate n x.
Proof.
  induction n as [|n IH]; [done|]. simpl. rewrite reverse_cons, IH.
  clear. induction n; simpl; [done|]. by f_equal.
Qed.

(** C0. [TrimNL] removes the newlines at both ends of a text, all of them, and
    nothing else. *)
Theorem newlines_trimmed (msg : string) :
  let cs := String.list_ascii_of_string msg in
  let trimmed := String.list_ascii_of_string (TrimNL msg) in
  (∃ n m, cs = replicate n newline ++ trimmed ++ replicate m newline) ∧
  head trimmed ≠ Some newline ∧ last trimmed ≠ Some newline.
Proof.
  intros cs trimmed. unfold trimmed, TrimNL. rewrite String.list_ascii_of_string_of_list_ascii. fold cs.
  destruct (trim_front_spec cs) as (n & E & Hh).
  destruct (trim_front_spec (reverse (trim_front cs))) as (m & E' & Hh').
  set (l := trim_front (reverse (trim_front cs))) in *.
  assert (trim_front cs = reverse l ++ replicate m newline) as Ec.
  { rewrite <-(reverse_involutive (trim_front cs)), E', reverse_app, replicate_reverse. done. }
  split_and!.
  - exists n, m. by rewrite E at 1; rewrite Ec.
  - rewrite Ec in Hh. intros Hl. apply Hh. destruct (reverse l); [done|]. exact Hl.
  - rewrite last_reverse. exact Hh'.
Qed.

(** * The order of the pool *)
Section order.
Context `{!Dbr} `{!DbrOk}.

Definition older (r r' : row) : Prop := (as_time (r !! "created_at") ≤ as_time (r' !! "created_at"))%Z.

Lemma insert_oldest_sorted r l : Sorted older l → Sorted older (insert_oldest r l).
Proof.
intros Hs. induction Hs as [|x l Hs IH Hx]; simpl; [by repeat constructor|].
destruct (Z.leb_spec (as_time (r !! "created_at")) (as_time (x !! "created_at"))).
- repeat constructor; done.
- constructor; [done|]. destruct l as [|y l]; simpl in *; [constructor; unfold older; lia|].
  inversion Hx; subst. case_match; constructor; [unfold older; lia|done].
Qed.

Lemma load_TxPool_created r :
TxPool_CreatedAt (load_TxPool (restrict TxPool_columns r)) = as_time (r !! "created_at").
Proof.
unfold load_TxPool. simpl. by rewrite (NameMapping_ok "CreatedAt" "created_at" eq_refl), lookup_restrict.
Qed.

Lemma wanted_iff topicNames r : wanted topicNames r = true ↔
r !! "processed" = Some (VNum 0) ∧ ∃ t, t ∈ topicNames ∧ r !! "topic" = Some (VStr t).
Proof.
unfold wanted, matches. simpl. rewrite andb_true_r, andb_true_iff, bool_decide_eq_true, existsb_exists. split.
- intros [[Hp _] (t & Ht & Hb)]. split; [done|]. rewrite andb_true_r in Hb.
  apply bool_decide_eq_true in Hb as [Hb _]. exists t. split; [by apply list_elem_of_In|done].
- intros [Hp (t & Ht & Hb)]. split; [done|]. exists t. split; [by apply list_elem_of_In|].
  rewrite andb_true_r. by apply bool_decide_eq_true.
Qed.
End order.

(** The iterator reads the rows of the pool that are not processed and whose
    topic has a processor, each once, and no other, the oldest first. *)
Theorem pool_read_in_order `{!Dbr} `{!DbrOk} (topicNames : list string) (c : content) :
  let read := unprocessed_query topicNames c in
  read ≡ₚ map (λ r, load_TxPool (restrict TxPool_columns r))
            (List.filter (wanted topicNames) (c TableTxPool)) ∧
  (∀ tx, tx ∈ read ↔ ∃ r, r ∈ c TableTxPool ∧ tx = load_TxPool (restrict TxPool_columns r) ∧
    r !! "processed" = Some (VNum 0) ∧ ∃ t, t ∈ topicNames ∧ r !! "topic" = Some (VStr t)) ∧
  Sorted (λ x y, (TxPool_CreatedAt x ≤ TxPool_CreatedAt y)%Z) read.
Proof.
  intros read.
  assert (∀ l, foldr insert_oldest [] l ≡ₚ l) as Hperm.
  { induction l as [|x l IH]; simpl; [done|]. by rewrite insert_oldest_perm, IH. }
  split_and!.
  - unfold read, unprocessed_query. by rewrite Hperm.
  - intros tx. split; [apply unprocessed_in|]. intros (r & Hr & -> & Hw).
    unfold read, unprocessed_query. apply (list_elem_of_fmap_2 (λ r, load_TxPool (restrict TxPool_columns r))).
    rewrite Hperm, list_elem_of_In.
    apply filter_In. split; [by apply list_elem_of_In|]. by apply wanted_iff.
  - unfold read, unprocessed_query.
    assert (Sorted older (foldr insert_oldest [] (List.filter (wanted topicNames) (c TableTxPool)))) as Hs.
    { induction (List.filter _ _) as [|r l IH]; simpl; [constructor|]. by apply insert_oldest_sorted. }
    induction Hs as [|r l _ IH Hr]; simpl; constructor; [done|].
    inversion Hr; subst; simpl; constructor. unfold older in *. by rewrite !load_TxPool_created.
Qed.

(** * The jobs of the workers *)

(** C33. A job that is not skipped ends in one of two ways, if it ends.  Either the
    processor has returned no error, every row of the pool with the job's id is
    marked as processed, the id is in the list of seen keys, and no error is
    recorded; or the rows of the pool are as they were, the list of seen keys too,
    and the cell of the job's batch, if it has one, holds an error. *)
Theorem job_marks_processed `{SqlEngine D} `{!SqlEngineOk D} `{!AxiaAtomic} `{!AxiaAtomicOk}
    (fsm : gmap string ProcessorDB) (pr : ProcessorDB) (txd : LocalTxPoolJob) (s s' : indexer_state D) fin :
  framed pr → unique_content (rows (i_db s)) → pool_ok fin (rows (i_db s) TableTxPool) →
  has_row (rows (i_db s) TableTxPool) (job_id txd) → list_ok (i_seen s) →
  job_processor fsm (i_seen s) (i_errs s) txd = Some pr → handleTxPool_job fsm txd s = Some s' →
  ((∃ d, pr (job_TxPool txd) (i_db s) = Some (d, Ok tt)) ∧
   all_processed (rows (i_db s') TableTxPool) (job_id txd) ∧
   Exists (i_seen s') (job_id txd) = true ∧ i_errs s' = i_errs s) ∨
  (rows (i_db s') TableTxPool ≡ₚ rows (i_db s) TableTxPool ∧ i_seen s' = i_seen s ∧
   ∀ c, job_Errs txd = Some c → is_Some (GetValue c (i_errs s'))).
Proof.
  intros Hf Hu Hp Hh Hl Hj Hrun. unfold handleTxPool_job in Hrun. rewrite Hj in Hrun.
  destruct (pr (job_TxPool txd) (i_db s)) as [[d r]|] eqn:Er; [|done].
  destruct (Hf _ _ _ _ Er Hu) as (Hu' & E1 & _). destruct r as [[]|e]; injection Hrun as <-.
  - set (tx := set_processed (job_TxPool txd)). unfold mark_processed. fold tx. cbn [i_db i_seen i_errs].
    assert (pool_ok (job_id txd :: fin) (rows d TableTxPool)) as Hp'.
    { rewrite E1. eapply pool_ok_mono; [|exact Hp]. intros id Hid. by right. }
    destruct (UpdateTxPoolStatus tx d) as [d1 [[]|e]] eqn:Eu.
    + left. split; [by eexists|]. split; [|split; [|done]].
      * apply (UpdateTxPoolStatus_done (job_id txd :: fin) tx d d1); [done|done|done|left|done|by rewrite E1].
      * change (Exists (PushFront (i_seen s) (TxPool_ID tx) (TxPool_ID tx)) (TxPool_ID tx) = true).
        destruct (PushFront_ok (i_seen s) (TxPool_ID tx) (TxPool_ID tx) Hl) as (Hl' & _ & Ee).
        unfold Exists. apply exists_iff; [done|]. rewrite Ee. unfold push_recent. case_decide; [done|].
        destruct Hl as [_ _ Hs _]. destruct (MaxSize (i_seen s)); [lia|]. simpl. left.
    + right. cbn. split; [|split; [done|]].
      * apply update_ignore_dup_err in Eu. by rewrite <-(Eu TableTxPool).
      * intros c ->. apply report_value.
  - right. cbn. split; [done|]. split; [done|]. intros c ->. apply report_value.
Qed.

(** The processors of the program - the writers of the X chain and of the
    platform chain, on both kinds of events, and the consumer of the AX chain with
    its three topics - leave the transaction pool and the node indexes as they are,
    and keep the unique keys of all tables, whatever they return. *)
Theorem processors_leave_pool `{SqlEngine D} `{!SqlEngineOk D} `{!AxiaIds} `{!AxiaMath} `{!AxiaCrypto}
    `{!Cfg} `{!AvmCodec} `{!PvmCodec} `{!CvmCodec} `{!AxJson} (Propagate : error → string → error)
    (clock : nat → Z) (fuel : nat) (w : axc.Writer) (wc : cvm.Writer) (p : ProducerAXChain)
    (eventType : string) (pr : ProcessorDB) (tx : TxPool) (d d' : D) r :
  pr ∈ [avm_Processor Propagate clock fuel w eventType; pvm_Processor Propagate clock fuel w eventType;
        consumerAXChainDB_Process Propagate clock fuel p wc] →
  pr tx d = Some (d', r) → unique_content (rows d) →
  unique_content (rows d') ∧ rows d' TableTxPool ≡ₚ rows d TableTxPool ∧
  rows d' TableNodeIndex ≡ₚ rows d TableNodeIndex.
Proof.
  intros Hpr Hr Hu. assert (framed pr) as Hf; [|by apply (Hf tx d d' r)].
  repeat (apply elem_of_cons in Hpr as [->|Hpr]).
  - apply avm_Processor_framed, _.
  - apply pvm_Processor_framed, _.
  - apply ax_Processor_framed, _.
  - by apply elem_of_nil in Hpr.
Qed.

(** * Witnesses *)
Import Toy ToyDbr Sample ToyCodec.

(** A store that reports a deadlock twice. *)
Definition locked (n : nat) : nat * result unit :=
  if n <? 2 then (n + 1, Err ("Error 1213: " +:+ DeadlockDBErrorMessage)) else (n, Ok tt).

Lemma lock_errors_retried_witness :
  consume_retry 5 locked consume_sleeper 0 0 = Some (2, Ok tt, (1 * (100 * 10 ^ 6))%Z).
Proof.
  apply (lock_errors_retried locked (λ i, i) 2 5 2 (Ok tt)).
  - intros i Hi. exists ("Error 1213: " +:+ DeadlockDBErrorMessage).
    destruct i as [|[|i]]; [split; reflexivity..|lia].
  - reflexivity.
  - discriminate.
  - lia.
  - reflexivity.
Defined.

Lemma pool_read_in_order_witness :
  Sorted (λ x y, (TxPool_CreatedAt x ≤ TxPool_CreatedAt y)%Z)
    (unprocessed_query Pipeline.topicNames (rows (w_db Pipeline.half_way))).
Proof. apply (pool_read_in_order Pipeline.topicNames (rows (w_db Pipeline.half_way))). Defined.

(** The first job of the sample of Streaming.v. *)
Definition first_world : world := Pipeline.poll_node (Pipeline.start_producer (started empty_db ∅)).
Definition first_job : LocalTxPoolJob :=
  default (mkLocalTxPoolJob (mkTxPool "" 0 "" "" None 0 "" 0) None) (head (jobCh (w_queue first_world))).
Definition first_state : indexer_state MemDb :=
  mkIndexerState (w_db first_world) (w_seen first_world) (w_errs first_world).

Lemma first_world_inv : pool_inv Pipeline.p Pipeline.accepted Pipeline.fsm first_world.
Proof.
  eapply (steps_inv _ _ _ Pipeline.topicNames); [apply Pipeline.fsm_framed|apply Pipeline.fsm_topics| |].
  - etrans; [apply Pipeline.start_producer_steps|apply Pipeline.poll_node_steps].
  - apply started_inv, Pipeline.db_fresh.
Qed.

Definition after_first : indexer_state MemDb :=
  default first_state (handleTxPool_job Pipeline.fsm first_job first_state).

Lemma first_processor :
  job_processor Pipeline.fsm (i_seen first_state) (i_errs first_state) first_job =
    Some (pvm_Processor propagate clock 3 w EventTypeDecisions).
Proof.
  unfold job_processor.
  assert (Exists (i_seen first_state) (TxPool_ID (job_TxPool first_job)) = false) as -> by (vm_compute; reflexivity).
  assert (job_Errs first_job = None) as -> by (vm_compute; reflexivity).
  assert (TxPool_Topic (job_TxPool first_job) = topic Pipeline.p) as -> by (vm_compute; reflexivity).
  apply lookup_singleton_eq.
Qed.

Lemma job_marks_processed_witness :
  all_processed (rows (i_db after_first) TableTxPool) (job_id first_job) ∨
  i_seen after_first = i_seen first_state.
Proof.
  destruct (job_marks_processed Pipeline.fsm (pvm_Processor propagate clock 3 w EventTypeDecisions) first_job
    first_state after_first []) as [(_ & Hp & _)|(_ & Hs & _)].
  - apply pvm_Processor_framed, _.
  - apply (inv_tables _ _ _ _ first_world_inv).
  - apply (inv_tables _ _ _ _ first_world_inv).
  - apply (inv_jobs _ _ _ _ first_world_inv). left. vm_compute. left.
  - apply new_list_ok.
  - apply first_processor.
  - apply some_default. vm_compute. reflexivity.
  - left. exact Hp.
  - right. exact Hs.
Defined.

#[local] Existing Instance AxSample.json.
Definition first_processed : MemDb * result unit :=
  default (empty_db, Ok tt)
    (pvm_Processor propagate clock 3 w EventTypeDecisions (job_TxPool first_job) (w_db first_world)).

Lemma first_processed_ok :
  pvm_Processor propagate clock 3 w EventTypeDecisions (job_TxPool first_job) (w_db first_world) =
    Some (first_processed.1, first_processed.2).
Proof. rewrite <-surjective_pairing. apply some_default. vm_compute. reflexivity. Qed.

Lemma processors_leave_pool_witness :
  unique_content (rows first_processed.1) ∧
  rows first_processed.1 TableTxPool ≡ₚ rows (w_db first_world) TableTxPool ∧
  rows first_processed.1 TableNodeIndex ≡ₚ rows (w_db first_world) TableNodeIndex.
Proof.
  refine (processors_leave_pool propagate clock 3 w (cvm.mkWriter 1 "AXC" w 0) (mkProducerAXChain 1 "C")
    EventTypeDecisions (pvm_Processor propagate clock 3 w EventTypeDecisions) (job_TxPool first_job)
    (w_db first_world) first_processed.1 first_processed.2 _ first_processed_ok _).
  - right. left.
  - apply (inv_tables _ _ _ _ first_world_inv).
Defined.
