(* ===== verification/GoText.v ===== *)
(** What the readers use of Go's standard library: numbers read from text
    ([strconv], [big.Int.SetString]), text put together ([strings]), durations
    ([time.ParseDuration], [Duration.Seconds]) and the float64 arithmetic under
    them, which is the IEEE 754 arithmetic of [SpecFloat].

    The quoting of a string in an error text and the reading of an RFC 3339 date
    are left to the class [GoText]: nothing here depends on their grammar. *)

From S2P Require Import Prelude Sql.
From Stdlib Require Import SpecFloat Ascii.

Class GoText := {
  Quote : string → string;                   (* strconv.Quote *)
  time_Parse : string → result Z;            (* time.Parse(time.RFC3339, s) *)
}.

(** * strconv *)
Inductive num_error := ErrSyntax | ErrRange.

Definition num_error_text (e : num_error) : string :=
  match e with ErrSyntax => "invalid syntax" | ErrRange => "value out of range" end.

(** [*strconv.NumError]'s text. *)
Definition NumError `{!GoText} (fn s : string) (e : num_error) : error :=
  "strconv." +:+ fn +:+ ": parsing " +:+ Quote s +:+ ": " +:+ num_error_text e.

Definition digit_of (c : Ascii.ascii) : option Z :=
  let n := Z.of_N (Ascii.N_of_ascii c) in
  if ((48 <=? n) && (n <=? 57))%Z then Some (n - 48)%Z else None.

(** The loop of [strconv.ParseUint] in base 10, up to [maxVal]. *)
Fixpoint parse_digits (maxVal n : Z) (s : string) : num_error + Z :=
  match s with
  | EmptyString => inr n
  | String.String c s' =>
      match digit_of c with
      | None => inl ErrSyntax
      | Some d =>
          let n1 := (n * 10 + d)%Z in
          if (maxVal <? n1)%Z then inl ErrRange else parse_digits maxVal n1 s'
      end
  end.

Definition parse_uint (bits : Z) (s : string) : num_error + Z :=
  match s with
  | EmptyString => inl ErrSyntax
  | _ => parse_digits (2 ^ bits - 1) 0 s
  end.

(** A sign, or none, and what follows. *)
Definition split_sign (s : string) : bool * string :=
  match s with
  | String.String c s' =>
      if Ascii.eqb c "-"%char then (true, s')
      else if Ascii.eqb c "+"%char then (false, s') else (false, s)
  | EmptyString => (false, s)
  end.

(** [strconv.ParseInt(s, 10, 64)] *)
Definition parse_int (s : string) : num_error + Z :=
  let '(neg, t) := split_sign s in
  match parse_uint 64 t with
  | inl e => inl e
  | inr un =>
      if neg then (if (2 ^ 63 <? un)%Z then inl ErrRange else inr (- un)%Z)
      else (if (2 ^ 63 <=? un)%Z then inl ErrRange else inr un)
  end.

Section strconv.
Context `{!GoText}.

Definition Atoi (s : string) : result Z :=
  match parse_int s with
  | inl e => Err (NumError "Atoi" s e)
  | inr n => Ok n
  end.

Definition ParseUint (s : string) (bits : Z) : result Z :=
  match parse_uint bits s with
  | inl e => Err (NumError "ParseUint" s e)
  | inr n => Ok n
  end.

Definition ParseBool (s : string) : result bool :=
  if decide (s ∈ ["1"; "t"; "T"; "true"; "TRUE"; "True"]) then Ok true
  else if decide (s ∈ ["0"; "f"; "F"; "false"; "FALSE"; "False"]) then Ok false
  else Err (NumError "ParseBool" s ErrSyntax).
End strconv.

(** [%v] of a bool. *)
Definition bool_text (b : bool) : string := if b then "true" else "false".

(** [big.NewInt(0).SetString(s, 10)] *)
Fixpoint read_digits (n : Z) (s : string) : option Z :=
  match s with
  | EmptyString => Some n
  | String.String c s' => d ← digit_of c; read_digits (n * 10 + d) s'
  end.

Definition big_SetString (s : string) : option Z :=
  let '(neg, t) := split_sign s in
  match t with
  | EmptyString => None
  | _ => n ← read_digits 0 t; Some (if neg then - n else n)%Z
  end.

(** * strings *)
Definition TrimPrefix (s prefix : string) : string :=
  if has_prefix prefix s
  then String.substring (String.length prefix) (String.length s - String.length prefix) s
  else s.

Definition Join (l : list string) (sep : string) : string := String.concat sep l.

(** * time *)
Definition Nanosecond : Z := 1.
Definition Second : Z := (10 ^ 9)%Z.
Definition Minute : Z := (60 * Second)%Z.
Definition Hour : Z := (60 * Minute)%Z.

(** [t.Round(d)] and [t.Truncate(d)], from the zero time. *)
Definition time_Truncate (t d : Z) : Z := (t - (t - zero_time) mod d)%Z.
Definition time_Round (t d : Z) : Z :=
  let r := ((t - zero_time) mod d)%Z in
  if (r + r <? d)%Z then (t - r)%Z else (t + (d - r))%Z.

Definition time_Unix (t : Z) : Z := (t / Second)%Z.
Definition IsZero (t : Z) : bool := (t =? zero_time)%Z.

(** [t.Sub(u)], saturated to the 64 bits of a [Duration]. *)
Definition time_Sub (t u : Z) : Z := Z.max (- 2 ^ 63) (Z.min (2 ^ 63 - 1) (t - u)).

(** * float64 *)
Definition float64 (z : Z) : spec_float := binary_normalize 53 1024 z 0 false.
Definition fdiv (x y : spec_float) : spec_float := SFdiv 53 1024 x y.
Definition fmul (x y : spec_float) : spec_float := SFmul 53 1024 x y.
Definition fadd (x y : spec_float) : spec_float := SFadd 53 1024 x y.

(** The quotient of a finite float by a power of two, rounded towards zero. *)
Definition fabs_trunc (m : positive) (e : Z) : Z :=
  if (0 <=? e)%Z then (Zpos m * 2 ^ e)%Z else (Zpos m / 2 ^ (- e))%Z.

(** [int64(x)] and [int(math.Ceil(x))], where the value fits. *)
Definition ftrunc (x : spec_float) : Z :=
  match x with
  | S754_finite s m e => if s then (- fabs_trunc m e)%Z else fabs_trunc m e
  | _ => 0%Z
  end.
Definition fceil (x : spec_float) : Z :=
  match x with
  | S754_finite true m e => (- fabs_trunc m e)%Z
  | S754_finite false m e =>
      let q := fabs_trunc m e in
      if (e <? 0)%Z && negb (Zpos m mod 2 ^ (- e) =? 0)%Z then (q + 1)%Z else q
  | _ => 0%Z
  end.

(** [Duration.Seconds()] *)
Definition Duration_Seconds (d : Z) : spec_float :=
  fadd (float64 (Z.quot d Second)) (fdiv (float64 (Z.rem d Second)) (float64 (10 ^ 9))).

(** * [time.ParseDuration] *)
Definition unit_of (u : string) : option Z :=
  if decide (u = "ns") then Some Nanosecond
  else if decide (u ∈ ["us"; "µs"; "μs"]) then Some (10 ^ 3)%Z
  else if decide (u = "ms") then Some (10 ^ 6)%Z
  else if decide (u = "s") then Some Second
  else if decide (u = "m") then Some Minute
  else if decide (u = "h") then Some Hour
  else None.

(** [leadingInt] : the digits at the front; [None] on overflow. *)
Fixpoint leadingInt (x : Z) (s : string) : option (Z * string) :=
  match s with
  | EmptyString => Some (x, s)
  | String.String c s' =>
      match digit_of c with
      | None => Some (x, s)
      | Some d =>
          if (2 ^ 63 / 10 <? x)%Z then None
          else let y := (x * 10 + d)%Z in
               if (2 ^ 63 <? y)%Z then None else leadingInt y s'
      end
  end.

(** [leadingFraction] : the digits after the point, and their scale. *)
Fixpoint leadingFraction (x scale : Z) (overflow : bool) (s : string) : Z * Z * string :=
  match s with
  | EmptyString => (x, scale, s)
  | String.String c s' =>
      match digit_of c with
      | None => (x, scale, s)
      | Some d =>
          let y := (x * 10 + d)%Z in
          if overflow || ((2 ^ 63 - 1) / 10 <? x)%Z || (2 ^ 63 <? y)%Z
          then leadingFraction x scale true s'
          else leadingFraction y (scale * 10) overflow s'
      end
  end.

Definition is_unit_char (c : Ascii.ascii) : bool :=
  negb (Ascii.eqb c "."%char) && negb (bool_decide (is_Some (digit_of c))).

Fixpoint span_unit (s : string) : string * string :=
  match s with
  | EmptyString => (EmptyString, s)
  | String.String c s' =>
      if is_unit_char c
      then let '(u, rest) := span_unit s' in (String.String c u, rest)
      else (EmptyString, s)
  end.

(** A number at the front: its integral part, its fraction and the scale of it;
    [None] when there is none. *)
Definition duration_number (s : string) : option (Z * Z * Z * string) :=
  '(v, s1) ← leadingInt 0 s;
  let pre := negb (String.eqb s s1) in
  match s1 with
  | String.String c s2 =>
      if Ascii.eqb c "."%char then
        let '(f, scale, s3) := leadingFraction 0 1 false s2 in
        if pre || negb (String.eqb s2 s3) then Some (v, f, scale, s3) else None
      else if pre then Some (v, 0%Z, 1%Z, s1) else None
  | EmptyString => if pre then Some (v, 0%Z, 1%Z, s1) else None
  end.

Section duration.
Context `{!GoText}.

Definition invalid_duration (orig : string) : error := "time: invalid duration " +:+ Quote orig.

(** The terms, each a number and its unit, added to [d]. *)
Fixpoint duration_terms (fuel : nat) (orig s : string) (d : Z) : result Z :=
  match s with
  | EmptyString => Ok d
  | _ =>
      match fuel with
      | O => Err (invalid_duration orig)
      | S fuel' =>
          match duration_number s with
          | None => Err (invalid_duration orig)
          | Some (v, f, scale, s') =>
              match span_unit s' with
              | (EmptyString, _) => Err ("time: missing unit in duration " +:+ Quote orig)
              | (u, rest) =>
                  match unit_of u with
                  | None => Err ("time: unknown unit " +:+ Quote u +:+ " in duration " +:+ Quote orig)
                  | Some unit =>
                      if (2 ^ 63 / unit <? v)%Z then Err (invalid_duration orig)
                      else
                        let frac := ftrunc (fmul (float64 f) (fdiv (float64 unit) (float64 scale))) in
                        let v := (v * unit + (if (0 <? f)%Z then frac else 0))%Z in
                        if (2 ^ 63 <? v)%Z || (2 ^ 63 <? d + v)%Z then Err (invalid_duration orig)
                        else duration_terms fuel' orig rest (d + v)
                  end
              end
          end
      end
  end.

Definition ParseDuration (orig : string) : result Z :=
  let '(neg, s) := split_sign orig in
  match s with
  | EmptyString => Err (invalid_duration orig)
  | _ =>
      if String.eqb s "0" then Ok 0%Z
      else
        match duration_terms (String.length s) orig s 0 with
        | Err e => Err e
        | Ok d =>
            if neg then Ok (- d)%Z
            else if (2 ^ 63 - 1 <? d)%Z then Err (invalid_duration orig) else Ok d
        end
  end.
End duration.

(** * Facts *)

Lemma read_digits_cons c s n d :
  digit_of c = Some d → read_digits n (String.String c s) = read_digits (n * 10 + d) s.
Proof. intros Hd. simpl. by rewrite Hd. Qed.

(** Reading back the decimal text of a number. *)
Lemma read_digits_acc (u : Decimal.uint) (acc : positive) :
  read_digits (Zpos acc) (DecimalString.NilEmpty.string_of_uint u) = Some (Zpos (Pos.of_uint_acc u acc)).
Proof.
  revert acc. induction u; intros acc; [done|..];
    simpl DecimalString.NilEmpty.string_of_uint; simpl Pos.of_uint_acc;
    erewrite read_digits_cons by reflexivity; rewrite <-IHu; f_equal; cbn [N_of_ascii N_of_digits]; simpl Z.of_N; lia.
Qed.

Lemma read_digits_uint (u : Decimal.uint) :
  read_digits 0 (DecimalString.NilEmpty.string_of_uint u) = Some (Z.of_N (Pos.of_uint u)).
Proof.
  induction u; [done|..]; simpl DecimalString.NilEmpty.string_of_uint; simpl Pos.of_uint;
    erewrite read_digits_cons by reflexivity;
    match goal with |- read_digits ?n _ = _ => let v := eval vm_compute in n in change n with v end;
    [done|..]; by rewrite read_digits_acc.
Qed.

Lemma digit_of_range c d : digit_of c = Some d → (0 ≤ d ≤ 9)%Z.
Proof.
  unfold digit_of. destruct (_ && _) eqn:E; [|done]. intros [= <-].
  apply andb_true_iff in E as [?%Z.leb_le ?%Z.leb_le]. lia.
Qed.

Lemma read_digits_mono n s r : (0 ≤ n)%Z → read_digits n s = Some r → (n ≤ r)%Z.
Proof.
  revert n. induction s as [|c s IH]; intros n Hn; simpl; [by intros [= <-]|].
  destruct (digit_of c) as [d|] eqn:Hd; simpl; [|done]. apply digit_of_range in Hd.
  intros Hr. apply IH in Hr; lia.
Qed.

Lemma parse_digits_read maxVal n s r :
  (0 ≤ n)%Z → read_digits n s = Some r → (r ≤ maxVal)%Z → parse_digits maxVal n s = inr r.
Proof.
  revert n. induction s as [|c s IH]; intros n Hn; simpl; [by intros [= <-]|].
  destruct (digit_of c) as [d|] eqn:Hd; simpl; [|done]. apply digit_of_range in Hd.
  intros Hr Hmax. assert (n * 10 + d ≤ r)%Z by (eapply read_digits_mono; [lia|exact Hr]).
  destruct (Z.ltb_spec maxVal (n * 10 + d)) as [?|?]; [lia|]. apply IH; [lia|done|done].
Qed.

(** The decimal text of a number: a sign, and digits that read as its magnitude. *)
Lemma Z_to_string_shape z :
  ∃ t, t ≠ "" ∧ read_digits 0 t = Some (Z.abs z) ∧
    split_sign (Z_to_string z) = (bool_decide (z < 0)%Z, t).
Proof.
  assert (∀ p : positive, ∃ t, t ≠ "" ∧ read_digits 0 t = Some (Zpos p) ∧
    DecimalString.NilZero.string_of_uint (Pos.to_uint p) = t ∧ split_sign t = (false, t)) as Hpos.
  { intros p. pose proof (DecimalPos.Unsigned.to_uint_nonnil p) as Hnn.
    exists (DecimalString.NilZero.string_of_uint (Pos.to_uint p)).
    assert (DecimalString.NilZero.string_of_uint (Pos.to_uint p) =
            DecimalString.NilEmpty.string_of_uint (Pos.to_uint p)) as ->.
    { by destruct (Pos.to_uint p). }
    rewrite read_digits_uint, DecimalPos.Unsigned.of_to.
    split_and!; [|done|done|]; by destruct (Pos.to_uint p). }
  destruct z as [|p|p].
  - exists "0". by split_and!.
  - destruct (Hpos p) as (t & ? & ? & Ht & Hs). exists t. split_and!; try done.
    unfold Z_to_string. simpl. by rewrite Ht.
  - destruct (Hpos p) as (t & ? & ? & Ht & Hs). exists t. split_and!; try done.
    unfold Z_to_string. simpl. by rewrite Ht.
Qed.

Lemma parse_int_to_string z : (- 2 ^ 63 ≤ z < 2 ^ 63)%Z → parse_int (Z_to_string z) = inr z.
Proof.
  intros Hz. destruct (Z_to_string_shape z) as (t & Ht & Hr & Hs).
  unfold parse_int. rewrite Hs. unfold parse_uint.
  assert (parse_digits (2 ^ 64 - 1) 0 t = inr (Z.abs z)) as Hp.
  { apply parse_digits_read; [lia|done|]. lia. }
  destruct t as [|c t]; [done|]. rewrite Hp. case_bool_decide.
  - destruct (Z.ltb_spec (2 ^ 63) (Z.abs z)); [lia|]. f_equal. lia.
  - destruct (Z.leb_spec (2 ^ 63) (Z.abs z)); [lia|]. f_equal. lia.
Qed.

Lemma Atoi_to_string `{!GoText} z : (- 2 ^ 63 ≤ z < 2 ^ 63)%Z → Atoi (Z_to_string z) = Ok z.
Proof. intros Hz. unfold Atoi. by rewrite parse_int_to_string. Qed.

Lemma parse_uint_bounds bits s n : parse_uint bits s = inr n → (0 ≤ n < 2 ^ bits)%Z.
Proof.
  assert (∀ maxVal n s r, (0 ≤ n ≤ maxVal)%Z → parse_digits maxVal n s = inr r → (0 ≤ r ≤ maxVal)%Z) as Hb.
  { intros maxVal m t. revert m. induction t as [|c t IH]; intros m r Hm; simpl; [by intros [= <-]|].
    destruct (digit_of c) as [d|] eqn:Hd; [|done]. apply digit_of_range in Hd.
    destruct (Z.ltb_spec maxVal (m * 10 + d)); [done|]. apply IH. lia. }
  unfold parse_uint. destruct s as [|c s]; [done|]. intros Hp.
  destruct (decide (0 ≤ 2 ^ bits - 1)%Z) as [Hle|Hgt].
  - specialize (Hb _ _ _ _ (conj (Z.le_refl 0) Hle) Hp). lia.
  - simpl in Hp. destruct (digit_of c) as [d|] eqn:Hd; [|done]. apply digit_of_range in Hd.
    destruct (Z.ltb_spec (2 ^ bits - 1) (0 * 10 + d)); [done|lia].
Qed.

Lemma Atoi_bounds `{!GoText} s n : Atoi s = Ok n → (- 2 ^ 63 ≤ n < 2 ^ 63)%Z.
Proof.
  unfold Atoi, parse_int. destruct (split_sign s) as [neg t].
  destruct (parse_uint 64 t) as [?|un] eqn:Hp; [done|]. apply parse_uint_bounds in Hp.
  destruct neg; [destruct (Z.ltb_spec (2 ^ 63) un)|destruct (Z.leb_spec (2 ^ 63) un)];
    try done; intros [= <-]; lia.
Qed.

Lemma parse_digits_inv maxVal n s r : parse_digits maxVal n s = inr r → read_digits n s = Some r.
Proof.
  revert n. induction s as [|c s IH]; intros n; simpl; [by intros [= <-]|].
  destruct (digit_of c) as [d|]; [|done]. destruct (_ <? _)%Z; [done|]. apply IH.
Qed.

(** Whatever the number, its text is read back as it, or not at all. *)
Lemma Atoi_to_string_inv `{!GoText} z n : Atoi (Z_to_string z) = Ok n → n = z.
Proof.
  destruct (Z_to_string_shape z) as (t & Ht & Hr & Hs).
  unfold Atoi, parse_int. rewrite Hs. unfold parse_uint. destruct t as [|c t]; [done|].
  destruct (parse_digits _ 0 _) as [?|un] eqn:Hp; [done|]. apply parse_digits_inv in Hp.
  rewrite Hr in Hp. simplify_eq.
  case_bool_decide.
  - destruct (2 ^ 63 <? Z.abs z)%Z; [done|]. intros [= <-]. lia.
  - destruct (2 ^ 63 <=? Z.abs z)%Z; [done|]. intros [= <-]. lia.
Qed.

(** * Texts joined by a bar *)
Lemma append_assoc (a b c : string) : (a +:+ b) +:+ c = a +:+ b +:+ c.
Proof.
  induction a as [|x a IH]; [done|].
  change (String.String x ((a +:+ b) +:+ c) = String.String x (a +:+ b +:+ c)). by rewrite IH.
Qed.

Definition no_bar (s : string) : Prop := "|"%char ∉ String.list_ascii_of_string s.

Lemma no_bar_cons c s : no_bar (String.String c s) ↔ c ≠ "|"%char ∧ no_bar s.
Proof. unfold no_bar. simpl. rewrite not_elem_of_cons. naive_solver. Qed.

Lemma no_bar_app s t : no_bar s → no_bar t → no_bar (s +:+ t).
Proof.
  induction s as [|c s IH]; [done|]. change (String.String c s +:+ t) with (String.String c (s +:+ t)).
  rewrite !no_bar_cons. naive_solver.
Qed.

Lemma bar_split a b x y :
  no_bar a → no_bar b → a +:+ "|" +:+ x = b +:+ "|" +:+ y → a = b ∧ x = y.
Proof.
  revert b. induction a as [|c a IH]; intros [|d b] Ha Hb Heq.
  - by injection Heq.
  - injection Heq as Hd _. apply no_bar_cons in Hb as [? _]. congruence.
  - injection Heq as Hd _. apply no_bar_cons in Ha as [? _]. congruence.
  - injection Heq as Hd Heq. apply no_bar_cons in Ha as [_ Ha]. apply no_bar_cons in Hb as [_ Hb].
    destruct (IH b Ha Hb Heq) as [-> ->]. by subst.
Qed.

Lemma no_bar_split a b x : no_bar a → a ≠ b +:+ "|" +:+ x.
Proof.
  revert b. induction a as [|c a IH]; intros [|d b] Ha Heq; try discriminate.
  - injection Heq as -> _. by apply no_bar_cons in Ha as [? _].
  - injection Heq as _ Heq. apply no_bar_cons in Ha as [_ Ha]. by apply (IH b Ha).
Qed.

Lemma join_cons a l : l ≠ [] → Join (a :: l) "|" = a +:+ "|" +:+ Join l "|".
Proof. by destruct l. Qed.

Lemma join_inj l k :
  Forall no_bar l → Forall no_bar k → l ≠ [] → k ≠ [] → Join l "|" = Join k "|" → l = k.
Proof.
  intros Hl. revert k. induction Hl as [|a l Ha Hl IH]; intros k Hk ? ?; [done|].
  destruct Hk as [|b k Hb Hk]; [done|].
  destruct (decide (l = [])) as [->|Hln], (decide (k = [])) as [->|Hkn].
  - simpl. by intros ->.
  - rewrite (join_cons b k) by done. simpl. intros Heq. by apply no_bar_split in Heq.
  - rewrite (join_cons a l) by done. simpl. intros Heq. symmetry in Heq. by apply no_bar_split in Heq.
  - rewrite (join_cons a l), (join_cons b k) by done. intros Heq.
    apply bar_split in Heq as [-> Heq]; [|done|done]. f_equal. by apply IH.
Qed.

Lemma join_app l k : l ≠ [] → k ≠ [] → Join (l ++ k) "|" = Join l "|" +:+ "|" +:+ Join k "|".
Proof.
  intros Hl Hk. induction l as [|a l IH]; [done|]. destruct l as [|b l].
  - simpl app. by rewrite join_cons.
  - change ((a :: b :: l) ++ k) with (a :: ((b :: l) ++ k)).
    rewrite (join_cons a ((b :: l) ++ k)), (join_cons a (b :: l)), IH by done.
    by rewrite append_assoc.
Qed.

(** A part that is itself joined is the parts it is made of. *)
Lemma join_flatten l k m : k ≠ [] → Join (l ++ Join k "|" :: m) "|" = Join (l ++ k ++ m) "|".
Proof.
  intros Hk. assert (Join (Join k "|" :: m) "|" = Join (k ++ m) "|") as Hm.
  { destruct (decide (m = [])) as [->|Hne]; [by rewrite app_nil_r|].
    by rewrite join_cons, join_app. }
  destruct (decide (l = [])) as [->|Hl]; [done|].
  rewrite !join_app by (try done; by destruct k). by rewrite Hm.
Qed.

Lemma no_bar_forallb s :
  forallb (λ c, negb (Ascii.eqb c "|"%char)) (String.list_ascii_of_string s) = true → no_bar s.
Proof.
  intros Hf Hin. apply list_elem_of_In in Hin. rewrite forallb_forall in Hf. by apply Hf in Hin.
Qed.

Lemma no_bar_Z z : no_bar (Z_to_string z).
Proof.
  assert (∀ u, no_bar (DecimalString.NilEmpty.string_of_uint u)) as Hu.
  { intros u. induction u; simpl; [by apply no_bar_forallb|..]; by apply no_bar_cons. }
  assert (∀ u, no_bar (DecimalString.NilZero.string_of_uint u)) as Hz.
  { intros u. destruct u; [by apply no_bar_forallb|..]; apply (Hu _). }
  unfold Z_to_string. destruct (Z.to_int z); simpl; [apply Hz|]. by apply no_bar_cons.
Qed.

(** Rounding to the second. *)
Lemma time_Round_second t : (time_Round t Second mod Second = 0)%Z.
Proof.
  unfold time_Round, Second, zero_time.
  remember ((t - -62135596800 * 10 ^ 9) mod 10 ^ 9)%Z as r eqn:Hr.
  assert (∃ k, t = (k * 10 ^ 9 + r)%Z) as [k Hk].
  { exists ((t - -62135596800 * 10 ^ 9) / 10 ^ 9 - 62135596800)%Z.
    pose proof (Z.div_mod (t - -62135596800 * 10 ^ 9) (10 ^ 9) ltac:(lia)). lia. }
  clear Hr. subst t.
  destruct (_ <? _)%Z.
  - replace (k * 10 ^ 9 + r - r)%Z with (k * 10 ^ 9)%Z by lia. by apply Z.mod_mul.
  - replace (k * 10 ^ 9 + r + (10 ^ 9 - r))%Z with ((k + 1) * 10 ^ 9)%Z by lia. by apply Z.mod_mul.
Qed.

Lemma time_Round_exact t : (t mod Second = 0)%Z → time_Round t Second = t.
Proof.
  intros Ht. unfold time_Round.
  assert ((t - zero_time) mod Second = 0)%Z as ->.
  { unfold zero_time, Second in *. replace (t - -62135596800 * 10 ^ 9)%Z
      with (t + 62135596800 * 10 ^ 9)%Z by lia. by rewrite Z.mod_add by lia. }
  simpl. lia.
Qed.

(** * net/url: [URL.Query], as Go 1.17 (Dockerfile) reads the query of a URL

    The parts between ampersands; a part with a semicolon, an empty part, and a part that
    does not decode are left out. *)
Definition hex_value (c : Ascii.ascii) : option N :=
  let n := Ascii.N_of_ascii c in
  if ((48 <=? n) && (n <=? 57))%N then Some (n - 48)%N
  else if ((97 <=? n) && (n <=? 102))%N then Some (n - 87)%N
  else if ((65 <=? n) && (n <=? 70))%N then Some (n - 55)%N
  else None.

Fixpoint QueryUnescape (s : string) : option string :=
  match s with
  | EmptyString => Some EmptyString
  | String.String c s1 =>
      if Ascii.eqb c "%"%char then
        match s1 with
        | String.String a (String.String b s2) =>
            match hex_value a, hex_value b with
            | Some x, Some y => String.String (Ascii.ascii_of_N (16 * x + y)) <$> QueryUnescape s2
            | _, _ => None
            end
        | _ => None
        end
      else String.String (if Ascii.eqb c "+"%char then " "%char else c) <$> QueryUnescape s1
  end.

(** The text before the first separator, and after it. *)
Fixpoint Cut (sep : Ascii.ascii) (s : string) : string * option string :=
  match s with
  | EmptyString => (EmptyString, None)
  | String.String c s' =>
      if Ascii.eqb c sep then (EmptyString, Some s')
      else let '(a, b) := Cut sep s' in (String.String c a, b)
  end.

Fixpoint Split (sep : Ascii.ascii) (s : string) : list string :=
  match s with
  | EmptyString => [EmptyString]
  | String.String c s' =>
      if Ascii.eqb c sep then EmptyString :: Split sep s'
      else match Split sep s' with
           | x :: l => String.String c x :: l
           | [] => [String.String c EmptyString]
           end
  end.

Fixpoint has_char (c : Ascii.ascii) (s : string) : bool :=
  match s with EmptyString => false | String.String x s' => Ascii.eqb x c || has_char c s' end.

Definition query_pair (part : string) : option (string * string) :=
  if has_char ";"%char part || String.eqb part EmptyString then None
  else
    let '(k, v) := Cut "="%char part in
    k' ← QueryUnescape k; v' ← QueryUnescape (default EmptyString v); Some (k', v').

Definition add_value (m : gmap string (list string)) (kv : string * string) : gmap string (list string) :=
  <[kv.1 := default [] (m !! kv.1) ++ [kv.2]]> m.

Definition URL_Query (query : string) : gmap string (list string) :=
  fold_left (λ m part, match query_pair part with Some kv => add_value m kv | None => m end)
    (Split "&"%char query) ∅.

(** A text that stands for itself, as a value or as a key. *)
Definition url_plain (s : string) : bool :=
  negb (has_char "&"%char s || has_char ";"%char s || has_char "%"%char s || has_char "+"%char s).
Definition key_plain (s : string) : bool := url_plain s && negb (has_char "="%char s).

Lemma string_app_nil (a : string) : a +:+ EmptyString = a.
Proof.
  induction a as [|x a IH]; [done|]. change (String.String x (a +:+ EmptyString) = String.String x a). by rewrite IH.
Qed.

Lemma has_char_app c a b : has_char c (a +:+ b) = has_char c a || has_char c b.
Proof.
  induction a as [|x a IH]; [done|].
  change (Ascii.eqb x c || has_char c (a +:+ b) = (Ascii.eqb x c || has_char c a) || has_char c b).
  by rewrite IH, orb_assoc.
Qed.

Lemma QueryUnescape_plain s : has_char "%"%char s = false → has_char "+"%char s = false → QueryUnescape s = Some s.
Proof.
  induction s as [|c s IH]; [done|]. cbn [has_char]. rewrite !orb_false_iff. intros [Hp Hs] [Hq Ht].
  cbn [QueryUnescape]. rewrite Hp, Hq, IH by done. done.
Qed.

Lemma Cut_app sep a b : has_char sep a = false → Cut sep (a +:+ String.String sep b) = (a, Some b).
Proof.
  induction a as [|x a IH]; intros Ha.
  - change (Cut sep (String.String sep b) = (EmptyString, Some b)). cbn [Cut]. by rewrite Ascii.eqb_refl.
  - cbn [has_char] in Ha. apply orb_false_iff in Ha as [Hx Ha].
    change (Cut sep (String.String x (a +:+ String.String sep b)) = (String.String x a, Some b)).
    cbn [Cut]. by rewrite Hx, IH.
Qed.

Lemma Split_app sep a b : has_char sep a = false → Split sep (a +:+ String.String sep b) = a :: Split sep b.
Proof.
  induction a as [|x a IH]; intros Ha.
  - change (Split sep (String.String sep b) = EmptyString :: Split sep b). cbn [Split]. by rewrite Ascii.eqb_refl.
  - cbn [has_char] in Ha. apply orb_false_iff in Ha as [Hx Ha].
    change (Split sep (String.String x (a +:+ String.String sep b)) = String.String x a :: Split sep b).
    cbn [Split]. by rewrite Hx, IH.
Qed.

Lemma Split_whole sep a : has_char sep a = false → Split sep a = [a].
Proof.
  induction a as [|x a IH]; [done|]. cbn [has_char]. intros [Hx Ha]%orb_false_iff. cbn [Split]. by rewrite Hx, IH.
Qed.

(** The query that is written from pairs of plain texts is read as them. *)
Definition pair_text (kv : string * string) : string := kv.1 +:+ "=" +:+ kv.2.
Definition plain_pair (kv : string * string) : Prop := key_plain kv.1 = true ∧ url_plain kv.2 = true.

Lemma url_plain_chars s :
  url_plain s = true →
  has_char "&"%char s = false ∧ has_char ";"%char s = false ∧ has_char "%"%char s = false ∧ has_char "+"%char s = false.
Proof. unfold url_plain. rewrite negb_true_iff, !orb_false_iff. tauto. Qed.

Lemma pair_text_no_char c kv :
  has_char c kv.1 = false → has_char c kv.2 = false → c ≠ "="%char → has_char c (pair_text kv) = false.
Proof.
  intros H1 H2 Hc. unfold pair_text. rewrite !has_char_app, H1, H2. cbn [has_char orb]. rewrite !orb_false_r.
  apply Ascii.eqb_neq. by intros <-.
Qed.

Lemma query_pair_text kv : plain_pair kv → query_pair (pair_text kv) = Some kv.
Proof.
  intros [[Hk Heq]%andb_true_iff Hv]. apply negb_true_iff in Heq.
  apply url_plain_chars in Hk as (Hk1 & Hk2 & Hk3 & Hk4), Hv as (Hv1 & Hv2 & Hv3 & Hv4).
  unfold query_pair. rewrite pair_text_no_char by done. cbn [orb].
  assert (String.eqb (pair_text kv) EmptyString = false) as ->.
  { apply String.eqb_neq. unfold pair_text. by destruct kv as [[|? ?] ?]. }
  assert (Cut "="%char (pair_text kv) = (kv.1, Some kv.2)) as -> by (by apply Cut_app).
  cbn [default]. rewrite !QueryUnescape_plain by done. by destruct kv.
Qed.

Lemma URL_Query_pairs kv l :
  Forall plain_pair (kv :: l) →
  URL_Query (fold_left (λ next kv, next +:+ "&" +:+ pair_text kv) l (pair_text kv)) = fold_left add_value (kv :: l) ∅.
Proof.
  intros Hl. unfold URL_Query.
  assert (∀ l kv m, Forall plain_pair (kv :: l) →
    fold_left (λ m part, match query_pair part with Some kv => add_value m kv | None => m end)
      (Split "&"%char (pair_text kv +:+ foldr (λ kv t, "&" +:+ pair_text kv +:+ t) EmptyString l)) m =
    fold_left add_value (kv :: l) m) as Hf.
  { clear. induction l as [|kv' l IH]; intros kv m Hl; apply Forall_cons in Hl as [Hkv Hl].
    - assert (has_char "&"%char (pair_text kv) = false) as Hamp.
      { destruct Hkv as [[Hk _]%andb_true_iff Hv]. apply url_plain_chars in Hk as (? & _), Hv as (? & _).
        by apply pair_text_no_char. }
      cbn [foldr]. rewrite string_app_nil, Split_whole by done. cbn [fold_left]. by rewrite query_pair_text.
    - assert (has_char "&"%char (pair_text kv) = false) as Hamp.
      { destruct Hkv as [[Hk _]%andb_true_iff Hv]. apply url_plain_chars in Hk as (? & _), Hv as (? & _).
        by apply pair_text_no_char. }
      cbn [foldr]. change ("&" +:+ ?x) with (String.String "&"%char x).
      rewrite Split_app by done. cbn [fold_left]. rewrite query_pair_text by done. by apply IH. }
  rewrite <-(Hf l kv ∅ Hl). do 2 f_equal. clear. generalize (pair_text kv) as s.
  induction l as [|kv' l IH]; intros s; cbn [fold_left foldr]; [by rewrite string_app_nil|].
  rewrite IH. exact (append_assoc s ("&" +:+ pair_text kv') _).
Qed.

(** The values of a key are those of its pairs, in their order. *)
Lemma add_values_lookup l (m : gmap string (list string)) k :
  default [] (fold_left add_value l m !! k) =
  default [] (m !! k) ++ map snd (List.filter (λ kv, String.eqb kv.1 k) l).
Proof.
  revert m. induction l as [|[k' v] l IH]; intros m; cbn [fold_left map List.filter fst]; [by rewrite app_nil_r|].
  rewrite IH. unfold add_value. cbn [fst snd]. destruct (String.eqb_spec k' k) as [->|Hne].
  - rewrite lookup_insert_eq. simpl. by rewrite <-app_assoc.
  - by rewrite lookup_insert_ne.
Qed.
