(* ===== verification/Params.v ===== *)
(** services/indexes/params: the parameters of the HTTP requests.  How they are
    read from the values of a URL (query.go, params.go, collections.go), the keys
    under which the answers are cached, and the clauses they add to a query.
    Paths are those of services/indexes/params/ when no directory is given. *)

From S2P Require Import Prelude Errors Sql DbModel Axia GoText.

(** [formatting] and [ids]: the texts of an address. *)
Class AxiaFormatting := {
  ParseBech32 : string → result (string * string);    (* the prefix and the bytes *)
  ShortFromString : string → result ShortID;
  ToShortID : string → result ShortID;
}.

(** [url.Values] *)
Abbreviation Values := (gmap string (list string)) (only parsing).
Definition values_of (q : Values) (key : string) : list string := default [] (q !! key).

(** * params.go: names and constants *)
Definition KeyID := "id".
Definition KeyChainID := "chainID".
Definition KeyAddress := "address".
Definition KeyToAddress := "toAddress".
Definition KeyFromAddress := "fromAddress".
Definition KeyBlockStart := "blockStart".
Definition KeyBlockEnd := "blockEnd".
Definition KeyHash := "hash".
Definition KeyAlias := "alias".
Definition KeyAssetID := "assetID".
Definition KeySearchQuery := "query".
Definition KeySortBy := "sort".
Definition KeyLimit := "limit".
Definition KeyOffset := "offset".
Definition KeySpent := "spent".
Definition KeyStartTime := "startTime".
Definition KeyEndTime := "endTime".
Definition KeyIntervalSize := "intervalSize".
Definition KeyDisableCount := "disableCount".
Definition KeyDisableGenesis := "disableGenesis".
Definition KeyOutputOutputType := "outputOutputType".
Definition KeyOutputGroupID := "outputGroupId".

Definition PaginationMaxLimit : Z := 5000.
Definition PaginationDefaultOffset : Z := 0.

Definition IntervalNames : list (string * Z) := [
  ("minute", Minute); ("hour", (60 * Minute)%Z); ("day", (1440 * Minute)%Z);
  ("week", (7 * (1440 * Minute))%Z); ("month", (30 * (1440 * Minute))%Z);
  ("year", (365 * (1440 * Minute))%Z); ("all", 0%Z)].

Definition TransactionRoundDuration : Z := Second.

(** [CacheKey(name, val)], for the text of [val]. *)
Definition params_CacheKey (name val : string) : string := name +:+ "=" +:+ val.

(** * query.go *)
Section query.
Context `{!GoText} `{!AxiaIds} `{!AxiaFormatting}.

Definition GetQueryInt (q : Values) (key : string) (defaultVal : Z) : result Z :=
  match values_of q key with s :: _ => Atoi s | [] => Ok defaultVal end.

Definition GetQueryBool (q : Values) (key : string) (defaultVal : bool) : result bool :=
  match values_of q key with s :: _ => ParseBool s | [] => Ok defaultVal end.

Definition GetQueryString (q : Values) (key defaultVal : string) : string :=
  match values_of q key with s :: _ => s | [] => defaultVal end.

(** Whether the time is given, and the time. *)
Definition GetQueryTime (q : Values) (key : string) : result (bool * Z) :=
  match values_of q key with
  | [] => Ok (false, zero_time)
  | s :: _ =>
      match Atoi s with
      | Ok timestamp => Ok (true, (timestamp * Second)%Z)
      | Err _ => t ← time_Parse s; Ok (true, t)
      end
  end.

Definition GetQueryID (q : Values) (key : string) : result (option ID) :=
  let idStr := GetQueryString q key "" in
  if String.eqb idStr "" then Ok None else id ← ids_FromString idStr; Ok (Some id).

Definition GetQueryInterval (q : Values) (key : string) : result Z :=
  match values_of q key with
  | [] => Ok 0%Z
  | s :: _ =>
      match list_to_map (M := gmap string Z) IntervalNames !! s with
      | Some interval => Ok interval
      | None => ParseDuration s
      end
  end.

Definition addressPrefixes : list string := ["Swap"; "Core"; "AX"].

Definition trim_prefix_of (addrStr prefix : string) : string :=
  TrimPrefix (TrimPrefix addrStr (prefix +:+ "-")) (to_lower prefix +:+ "-").

Definition AddressFromString (addrStr : string) : result ShortID :=
  let addrStr := fold_left trim_prefix_of addressPrefixes addrStr in
  match ParseBech32 addrStr with
  | Err _ => ShortFromString addrStr
  | Ok (_, addrBytes) => ToShortID addrBytes
  end.

Definition GetQueryAddress (q : Values) (key : string) : result (option ShortID) :=
  let addrStr := GetQueryString q key "" in
  if String.eqb addrStr "" then Ok None else addr ← AddressFromString addrStr; Ok (Some addr).
End query.

(** * params.go: ListParams *)
Record ListParams := mkListParams {
  LP_Values : Values;
  LP_ID : option ID;
  LP_Query : string;
  LP_Limit : Z;
  LP_Offset : Z;
  LP_DisableCounting : bool;
  LP_StartTimeProvided : bool;
  LP_EndTimeProvided : bool;
  LP_StartTime : Z;
  LP_EndTime : Z;
}.

(** [Where] clauses as the code writes them: a column, an operator, its arguments. *)
Inductive clause :=
| WEq (c : string) (v : string)              (* c = ? *)
| WEqs (c : string) (vs : list string)       (* c = ?, with a slice *)
| WIn (c : string) (vs : list string)        (* c in ? *)
| WInNums (c : string) (vs : list Z)         (* c in ? *)
| WGe (c : string) (t : Z)                   (* c >= ? *)
| WLt (c : string) (t : Z)                   (* c < ? *)
| WNull (c : string)                         (* c IS NULL *)
| WNotNull (c : string)                      (* c IS NOT NULL *)
| WLikes (cs : list string) (prefix : string). (* c LIKE prefix%, for one of the columns *)

(** What the code adds to a [dbr.SelectBuilder]. *)
Record SelectBuilder := mkSelectBuilder {
  LimitCount : option Z;
  OffsetCount : option Z;
  WhereCond : list clause;
  LeftJoins : list (string * string);
}.

Definition add_where (c : clause) (b : SelectBuilder) : SelectBuilder :=
  mkSelectBuilder (LimitCount b) (OffsetCount b) (WhereCond b ++ [c]) (LeftJoins b).
Definition set_limit (n : Z) (b : SelectBuilder) : SelectBuilder :=
  mkSelectBuilder (Some n) (OffsetCount b) (WhereCond b) (LeftJoins b).
Definition set_offset (n : Z) (b : SelectBuilder) : SelectBuilder :=
  mkSelectBuilder (LimitCount b) (Some n) (WhereCond b) (LeftJoins b).
Definition add_join (t on : string) (b : SelectBuilder) : SelectBuilder :=
  mkSelectBuilder (LimitCount b) (OffsetCount b) (WhereCond b) (LeftJoins b ++ [(t, on)]).
Definition when (c : bool) (f : SelectBuilder → SelectBuilder) (b : SelectBuilder) : SelectBuilder :=
  if c then f b else b.

Section listparams.
Context `{!GoText} `{!AxiaIds} `{!AxiaFormatting}.

(** [now] is [time.Now().UTC()]. *)
Definition forValues (now version : Z) (q : Values) (allowOffset : bool) : result ListParams :=
  limit ← GetQueryInt q KeyLimit PaginationMaxLimit;
  let limit := if (limit <? 0)%Z then 0%Z else limit in
  let limit := if (PaginationMaxLimit <? limit)%Z then PaginationMaxLimit else limit in
  offset ← GetQueryInt q KeyOffset PaginationDefaultOffset;
  let offset := if (offset <? 0)%Z then 0%Z else offset in
  if negb allowOffset && (0 <? offset)%Z then Err "offset deprecated"
  else
    id ← GetQueryID q KeyID;
    '(startProvided, startTime) ← GetQueryTime q KeyStartTime;
    '(endProvided, endTime) ← GetQueryTime q KeyEndTime;
    let endTime := if IsZero endTime then now else endTime in
    disableCount ← GetQueryBool q KeyDisableCount false;
    Ok {|
      LP_Values := q;
      LP_ID := id;
      LP_Query := GetQueryString q KeySearchQuery "";
      LP_Limit := limit;
      LP_Offset := offset;
      LP_DisableCounting := (2 <=? version)%Z || disableCount;
      LP_StartTimeProvided := startProvided;
      LP_EndTimeProvided := endProvided;
      LP_StartTime := time_Round startTime TransactionRoundDuration;
      LP_EndTime := time_Round endTime TransactionRoundDuration;
    |}.

Definition ListParams_ForValues (now version : Z) (q : Values) : result ListParams :=
  forValues now version q false.
Definition ListParams_ForValuesAllowOffset (now version : Z) (q : Values) : result ListParams :=
  forValues now version q true.

Definition id_key (key : string) (id : option ID) : list string :=
  match id with Some i => [params_CacheKey key (ID_String i)] | None => [] end.

Definition ListParams_CacheKey (p : ListParams) : list string :=
  id_key KeyID (LP_ID p) ++ [
    params_CacheKey KeyLimit (Z_to_string (LP_Limit p));
    params_CacheKey KeyOffset (Z_to_string (LP_Offset p));
    params_CacheKey KeyStartTime (Z_to_string (time_Unix (LP_StartTime p)));
    params_CacheKey KeyEndTime (Z_to_string (time_Unix (LP_EndTime p)));
    params_CacheKey KeySearchQuery (LP_Query p);
    params_CacheKey KeyDisableCount (bool_text (LP_DisableCounting p))].

Definition ListParams_ApplyPk (p : ListParams) (listTable primaryKey : string) (pk : bool)
    (b : SelectBuilder) : SelectBuilder :=
  let b := when (negb (LP_Limit p =? 0)%Z) (set_limit (LP_Limit p)) b in
  let b := when (negb (LP_Offset p =? 0)%Z) (set_offset (LP_Offset p)) b in
  if pk then
    let b := match LP_ID p with
             | Some id => set_limit 1 (add_where (WEq (listTable +:+ "." +:+ primaryKey) (ID_String id)) b)
             | None => b
             end in
    when (negb (String.eqb (LP_Query p) ""))
      (add_where (WLikes [listTable +:+ "." +:+ primaryKey] (LP_Query p))) b
  else b.

Definition ListParams_Apply (p : ListParams) (listTable : string) (b : SelectBuilder) : SelectBuilder :=
  ListParams_ApplyPk p listTable "id" true b.
End listparams.

(** * collections.go *)
Inductive TransactionSort := TransactionSortTimestampAsc | TransactionSortTimestampDesc.
#[global] Instance TransactionSort_eq_dec : EqDecision TransactionSort.
Proof. solve_decision. Defined.
Definition TransactionSortDefault := TransactionSortTimestampAsc.
Definition TransactionSortTimestampAscStr := "timestamp-asc".
Definition TransactionSortTimestampDescStr := "timestamp-desc".

Definition toTransactionSort (s : string) : TransactionSort :=
  if String.eqb s TransactionSortTimestampAscStr then TransactionSortTimestampAsc
  else if String.eqb s TransactionSortTimestampDescStr then TransactionSortTimestampDesc
  else TransactionSortDefault.

Definition TransactionSort_String (t : TransactionSort) : string :=
  match t with
  | TransactionSortTimestampDesc => TransactionSortTimestampDescStr
  | _ => TransactionSortTimestampAscStr
  end.

(** The sort asked for: the first one given. *)
Definition query_sort (q : Values) : TransactionSort :=
  match values_of q KeySortBy with s :: _ => toTransactionSort s | [] => TransactionSortDefault end.

Record TxfeeAggregateParams := mkTxfeeAggregateParams {
  TF_ListParams : ListParams;
  TF_IntervalSize : Z;
  TF_ChainIDs : list string;
}.

Record AggregateParams := mkAggregateParams {
  AG_ListParams : ListParams;
  AG_ChainIDs : list string;
  AG_AssetID : option ID;
  AG_IntervalSize : Z;
}.

Record ListTransactionsParams := mkListTransactionsParams {
  LT_ListParams : ListParams;
  LT_ChainIDs : list string;
  LT_Addresses : list ShortID;
  LT_AssetID : option ID;
  LT_OutputOutputTypes : list Z;
  LT_OutputGroupIDs : list Z;
  LT_DisableGenesis : bool;
  LT_Sort : TransactionSort;
}.

Record ListCTransactionsParams := mkListCTransactionsParams {
  LC_ListParams : ListParams;
  LC_CAddresses : list string;
  LC_CAddressesTo : list string;
  LC_CAddressesFrom : list string;
  LC_Hashes : list string;
  LC_Sort : TransactionSort;
  LC_BlockStart : option Z;
  LC_BlockEnd : option Z;
}.

Record ListAssetsParams := mkListAssetsParams {
  LS_ListParams : ListParams;
  LS_Alias : string;
  LS_PathParamID : string;
}.

Record ListAddressesParams := mkListAddressesParams {
  LA_ListParams : ListParams;
  LA_ChainIDs : list string;
  LA_Address : option ShortID;
}.

Record AddressChainsParams := mkAddressChainsParams {
  AC_ListParams : ListParams;
  AC_Addresses : list ShortID;
}.

Record ListOutputsParams := mkListOutputsParams {
  LO_ListParams : ListParams;
  LO_ChainIDs : list string;
  LO_Addresses : list ShortID;
  LO_Spent : option bool;
}.

Record ListBlocksParams := mkListBlocksParams { LB_ListParams : ListParams }.

Record TxDataParam := mkTxDataParam { TD_ListParams : ListParams; TD_ID : string }.

(** [if !strings.HasPrefix(s, "0x") { s = "0x" + s }] *)
Definition with_0x (s : string) : string := if has_prefix "0x" s then s else "0x" +:+ s.

Section collections.
Context `{!GoText} `{!AxiaIds} `{!AxiaFormatting}.

(** The loop over [q[key]]: the last number that can be read, if any. *)
Definition last_number (strs : list string) : option Z :=
  fold_left (λ acc s, match big_SetString s with Some n => Some n | None => acc end) strs None.

Definition TxfeeAggregateParams_ForValues (now version : Z) (q : Values) : result TxfeeAggregateParams :=
  lp ← ListParams_ForValues now version q;
  intervalSize ← GetQueryInterval q KeyIntervalSize;
  Ok (mkTxfeeAggregateParams lp intervalSize (values_of q KeyChainID)).

Definition AggregateParams_ForValues (now version : Z) (q : Values) : result AggregateParams :=
  lp ← ListParams_ForValues now version q;
  assetID ← GetQueryID q KeyAssetID;
  intervalSize ← GetQueryInterval q KeyIntervalSize;
  Ok (mkAggregateParams lp (values_of q KeyChainID) assetID intervalSize).

Definition ListTransactionsParams_ForValues (now version : Z) (q : Values)
    : result ListTransactionsParams :=
  lp ← ListParams_ForValuesAllowOffset now version q;
  assetID ← GetQueryID q KeyAssetID;
  outputOutputTypes ← mapM (λ s, ParseUint s 32) (values_of q KeyOutputOutputType);
  outputGroupIDs ← mapM (λ s, ParseUint s 64) (values_of q KeyOutputGroupID);
  addresses ← mapM AddressFromString (values_of q KeyAddress);
  disableGenesis ← GetQueryBool q KeyDisableGenesis false;
  Ok {|
    LT_ListParams := lp;
    LT_ChainIDs := values_of q KeyChainID;
    LT_Addresses := addresses;
    LT_AssetID := assetID;
    LT_OutputOutputTypes := outputOutputTypes;
    LT_OutputGroupIDs := outputGroupIDs;
    LT_DisableGenesis := disableGenesis;
    LT_Sort := query_sort q;
  |}.

Definition ListCTransactionsParams_ForValues (now version : Z) (q : Values)
    : result ListCTransactionsParams :=
  lp ← ListParams_ForValues now version q;
  Ok {|
    LC_ListParams := lp;
    LC_CAddresses := map (λ s, to_lower (with_0x s)) (values_of q KeyAddress);
    LC_CAddressesTo := map (λ s, to_lower (with_0x s)) (values_of q KeyToAddress);
    LC_CAddressesFrom := map (λ s, to_lower (with_0x s)) (values_of q KeyFromAddress);
    LC_Hashes := map with_0x (values_of q KeyHash);
    LC_Sort := query_sort q;
    LC_BlockStart := last_number (values_of q KeyBlockStart);
    LC_BlockEnd := last_number (values_of q KeyBlockEnd);
  |}.

Definition ListAssetsParams_ForValues (now version : Z) (q : Values) : result ListAssetsParams :=
  lp ← ListParams_ForValues now version q;
  Ok (mkListAssetsParams lp (GetQueryString q KeyAlias "") "").

Definition ListAddressesParams_ForValues (now version : Z) (q : Values) : result ListAddressesParams :=
  lp ← ListParams_ForValues now version q;
  address ← GetQueryAddress q KeyAddress;
  match address with
  | None =>
      if String.eqb (LP_Query lp) "" then Ok (mkListAddressesParams lp (values_of q KeyChainID) None)
      else
        addr ← AddressFromString (LP_Query lp);
        Ok (mkListAddressesParams lp (values_of q KeyChainID) (Some addr))
  | Some addr => Ok (mkListAddressesParams lp (values_of q KeyChainID) (Some addr))
  end.

Definition AddressChainsParams_ForValues (now version : Z) (q : Values) : result AddressChainsParams :=
  lp ← ListParams_ForValues now version q;
  addresses ← mapM AddressFromString (values_of q KeyAddress);
  Ok (mkAddressChainsParams lp addresses).

(** [None] : the index out of range of [spentStrs[0]], for a key without values. *)
Definition query_spent (q : Values) : option (result (option bool)) :=
  match q !! KeySpent with
  | None => Some (Ok None)
  | Some [] => None
  | Some (s :: _) => Some (b ← ParseBool s; Ok (Some b))
  end.

Definition ListOutputsParams_ForValues (now version : Z) (q : Values)
    : option (result ListOutputsParams) :=
  match ListParams_ForValues now version q with
  | Err e => Some (Err e)
  | Ok lp =>
      match mapM AddressFromString (values_of q KeyAddress) with
      | Err e => Some (Err e)
      | Ok addresses =>
          match query_spent q with
          | None => None
          | Some r =>
              Some (spent ← r; Ok (mkListOutputsParams lp (values_of q KeyChainID) addresses spent))
          end
      end
  end.

Definition ListBlocksParams_ForValues (now version : Z) (q : Values) : result ListBlocksParams :=
  lp ← ListParams_ForValues now version q; Ok (mkListBlocksParams lp).

Definition TxDataParam_ForValues (now version : Z) (q : Values) : result TxDataParam :=
  lp ← ListParams_ForValues now version q; Ok (mkTxDataParam lp "").

(** ** Cache keys *)
Definition chains_key (chainIDs : list string) : string := params_CacheKey KeyChainID (Join chainIDs "|").

Definition interval_key (intervalSize : Z) : string :=
  params_CacheKey KeyIntervalSize (Z_to_string (ftrunc (Duration_Seconds intervalSize))).

Definition address_keys (addresses : list ShortID) : list string :=
  map (λ a, params_CacheKey KeyAddress (ShortID_String a)) addresses.

Definition TxfeeAggregateParams_CacheKey (p : TxfeeAggregateParams) : list string :=
  ListParams_CacheKey (TF_ListParams p) ++ [interval_key (TF_IntervalSize p); chains_key (TF_ChainIDs p)].

Definition AggregateParams_CacheKey (p : AggregateParams) : list string :=
  ListParams_CacheKey (AG_ListParams p) ++ id_key KeyAssetID (AG_AssetID p) ++
  [interval_key (AG_IntervalSize p); chains_key (AG_ChainIDs p)].

Definition ListTransactionsParams_CacheKey (p : ListTransactionsParams) : list string :=
  ListParams_CacheKey (LT_ListParams p) ++
  [params_CacheKey KeySortBy (TransactionSort_String (LT_Sort p))] ++
  id_key KeyAssetID (LT_AssetID p) ++ address_keys (LT_Addresses p) ++
  [chains_key (LT_ChainIDs p); params_CacheKey KeyDisableGenesis (bool_text (LT_DisableGenesis p))].

Definition ListCTransactionsParams_CacheKey (p : ListCTransactionsParams) : list string :=
  ListParams_CacheKey (LC_ListParams p) ++
  [params_CacheKey KeySortBy (TransactionSort_String (LC_Sort p))] ++
  map (params_CacheKey KeyAddress) (LC_CAddresses p).

Definition ListAssetsParams_CacheKey (p : ListAssetsParams) : list string :=
  ListParams_CacheKey (LS_ListParams p) ++
  [params_CacheKey KeyAlias (LS_Alias p); params_CacheKey "PathParamID" (LS_PathParamID p)].

Definition ListAddressesParams_CacheKey (p : ListAddressesParams) : list string :=
  ListParams_CacheKey (LA_ListParams p) ++
  match LA_Address p with Some a => [params_CacheKey KeyAddress (ShortID_String a)] | None => [] end ++
  [chains_key (LA_ChainIDs p)].

Definition AddressChainsParams_CacheKey (p : AddressChainsParams) : list string :=
  ListParams_CacheKey (AC_ListParams p) ++ address_keys (AC_Addresses p).

Definition ListOutputsParams_CacheKey (p : ListOutputsParams) : list string :=
  ListParams_CacheKey (LO_ListParams p) ++ [chains_key (LO_ChainIDs p)] ++
  address_keys (LO_Addresses p) ++
  match LO_Spent p with Some b => [params_CacheKey KeySpent (bool_text b)] | None => [] end.

Definition ListBlocksParams_CacheKey (p : ListBlocksParams) : list string :=
  ListParams_CacheKey (LB_ListParams p).
Definition TxDataParam_CacheKey (p : TxDataParam) : list string :=
  ListParams_CacheKey (TD_ListParams p).

(** ** Clauses *)
Definition TxfeeAggregateParams_Apply (p : TxfeeAggregateParams) (b : SelectBuilder) : SelectBuilder := b.

Definition AggregateParams_Apply (p : AggregateParams) (b : SelectBuilder) : SelectBuilder :=
  let b := add_where (WGe "avm_outputs.created_at" (LP_StartTime (AG_ListParams p))) b in
  let b := add_where (WLt "avm_outputs.created_at" (LP_EndTime (AG_ListParams p))) b in
  let b := match AG_AssetID p with
           | Some i => add_where (WEq "avm_outputs.asset_id" (ID_String i)) b
           | None => b
           end in
  when (0 <? length (AG_ChainIDs p)) (add_where (WEqs "avm_outputs.chain_id" (AG_ChainIDs p))) b.

Definition ListCTransactionsParams_Apply (p : ListCTransactionsParams) (b : SelectBuilder) : SelectBuilder :=
  ListParams_ApplyPk (LC_ListParams p) TableCvmTransactionsTxdata "hash" false b.

(** [p.ListParams] with its [Query] cleared. *)
Definition without_query (p : ListParams) : ListParams :=
  mkListParams (LP_Values p) (LP_ID p) "" (LP_Limit p) (LP_Offset p) (LP_DisableCounting p)
    (LP_StartTimeProvided p) (LP_EndTimeProvided p) (LP_StartTime p) (LP_EndTime p).

Definition ListAssetsParams_Apply (p : ListAssetsParams) (b : SelectBuilder) : SelectBuilder :=
  let b := ListParams_Apply (without_query (LS_ListParams p)) "avm_assets" b in
  let b := when (negb (String.eqb (LP_Query (LS_ListParams p)) ""))
             (add_where (WLikes ["avm_assets.alias"; "avm_assets.name"; "avm_assets.symbol"]
                           (LP_Query (LS_ListParams p)))) b in
  when (negb (String.eqb (LS_Alias p) "")) (add_where (WEq "avm_assets.alias" (LS_Alias p))) b.

Definition ListAddressesParams_Apply (p : ListAddressesParams) (accumulateReader : bool)
    (b : SelectBuilder) : SelectBuilder :=
  let t := if accumulateReader then "accumulate_balances_received" else "avm_output_addresses" in
  let b := ListParams_ApplyPk (LA_ListParams p) "avm_output_addresses" "output_id" accumulateReader b in
  let chain := if accumulateReader then "accumulate_balances_received.chain_id" else "avm_outputs.chain_id" in
  let b := when (negb (length (LA_ChainIDs p) =? 0)) (add_where (WIn chain (LA_ChainIDs p))) b in
  match LA_Address p with
  | Some a => add_where (WEq (t +:+ ".address") (ShortID_String a)) b
  | None => b
  end.

Definition AddressChainsParams_Apply (p : AddressChainsParams) (b : SelectBuilder) : SelectBuilder :=
  let b := ListParams_Apply (AC_ListParams p) "address_chain" b in
  when (negb (length (AC_Addresses p) =? 0))
    (add_where (WIn "address_chain.address" (map ShortID_String (AC_Addresses p)))) b.

Definition ListOutputsParams_Apply (p : ListOutputsParams) (b : SelectBuilder) : SelectBuilder :=
  let lp := LO_ListParams p in
  let b := ListParams_Apply lp "avm_outputs" b in
  let b := match LO_Spent p with
           | Some true => add_where (WNotNull "avm_outputs_redeeming.redeeming_transaction_id") b
           | Some false => add_where (WNull "avm_outputs_redeeming.redeeming_transaction_id") b
           | None => b
           end in
  let b := when (negb (length (LO_Addresses p) =? 0))
             (λ b, add_where (WIn "avm_output_addresses.address" (map ShortID_String (LO_Addresses p)))
                     (add_join "avm_output_addresses" "avm_outputs.id = avm_output_addresses.output_id" b)) b in
  let b := when (0 <? length (LO_ChainIDs p)) (add_where (WEqs "avm_outputs.chain_id" (LO_ChainIDs p))) b in
  let b := when (LP_StartTimeProvided lp && negb (IsZero (LP_StartTime lp)))
             (add_where (WGe "avm_outputs.created_at" (LP_StartTime lp))) b in
  when (LP_EndTimeProvided lp && negb (IsZero (LP_EndTime lp)))
    (add_where (WLt "avm_outputs.created_at" (LP_EndTime lp))) b.

Definition ListBlocksParams_Apply (p : ListBlocksParams) (b : SelectBuilder) : SelectBuilder :=
  ListParams_Apply (LB_ListParams p) "pvm_blocks" b.

(** [ForValueChainID] : the chain of the request comes first, once. *)
Definition ForValueChainID (chainID : option ID) (chainIDs : list string) : list string :=
  match chainID with
  | None => chainIDs
  | Some i =>
      let cnew := ID_String i in
      if existsb (String.eqb cnew) chainIDs then chainIDs else cnew :: chainIDs
  end.
End collections.
