(* ===== verification/ParamsFacts.v ===== *)
(** What the parameters of a request guarantee once they are accepted, and what
    the key of an answer of the transactions list says of them. *)

From S2P Require Import Prelude Errors Sql Axia Utils GoText Params.

Section limits.
Context `{!GoText} `{!AxiaIds} `{!AxiaFormatting}.

(** The steps of [forValues] when it accepts. *)
Lemma forValues_inv now version q allow p :
  forValues now version q allow = Ok p →
  ∃ limit offset startTime endTime disableCount,
    GetQueryInt q KeyLimit PaginationMaxLimit = Ok limit ∧
    GetQueryInt q KeyOffset PaginationDefaultOffset = Ok offset ∧
    (negb allow && (0 <? Z.max 0 offset)%Z) = false ∧
    LP_Limit p = Z.max 0 (Z.min PaginationMaxLimit limit) ∧
    LP_Offset p = Z.max 0 offset ∧
    LP_StartTime p = time_Round startTime TransactionRoundDuration ∧
    LP_EndTime p = time_Round endTime TransactionRoundDuration ∧
    LP_DisableCounting p = (2 <=? version)%Z || disableCount ∧ LP_Values p = q.
Proof.
  unfold forValues. unfold mbind, result_bind.
  destruct (GetQueryInt q KeyLimit _) as [limit|]; [|done].
  destruct (GetQueryInt q KeyOffset _) as [offset|]; [|done].
  assert ((if (offset <? 0)%Z then 0%Z else offset) = Z.max 0 offset) as ->.
  { destruct (Z.ltb_spec offset 0); lia. }
  destruct (_ && _) eqn:Hoff; [done|].
  destruct (GetQueryID q KeyID) as [?|]; [|done].
  destruct (GetQueryTime q KeyStartTime) as [[? st]|]; [|done].
  destruct (GetQueryTime q KeyEndTime) as [[? et]|]; [|done].
  destruct (GetQueryBool _ _ _) as [dc|]; [|done]. intros [= <-]. simpl.
  exists limit, offset, st, (if IsZero et then now else et), dc. split_and!; try done.
  unfold PaginationMaxLimit. destruct (Z.ltb_spec limit 0), (Z.ltb_spec 5000 limit); simpl;
    try (destruct (Z.ltb_spec 5000 0)); lia.
Qed.

(** The [LIMIT] of a query, from the parameters alone. *)
Lemma ApplyPk_limit p t k pk b :
  LimitCount (ListParams_ApplyPk p t k pk b) =
    if pk && bool_decide (is_Some (LP_ID p)) then Some 1%Z
    else if (LP_Limit p =? 0)%Z then LimitCount b else Some (LP_Limit p).
Proof.
  unfold ListParams_ApplyPk, when.
  destruct pk, (LP_ID p), (LP_Query p =? "")%string, (LP_Limit p =? 0)%Z, (LP_Offset p =? 0)%Z; done.
Qed.

(** C28. The parameters of an accepted request are within their bounds: the limit is
    the one asked for cut to [0, 5000] (5000 when none is given), the offset is not
    negative and is zero for every list but the transactions, the times are whole
    seconds, and version 2 never counts.  The query built from them has a limit of at
    most 5000 rows, with one exception: a request with a limit of 0 or less (and no
    id) has no limit at all. *)
Theorem limits_bounded now version q allow p t k pk b :
  forValues now version q allow = Ok p →
  LimitCount b = None →
  (0 ≤ LP_Limit p ≤ 5000)%Z ∧ (0 ≤ LP_Offset p)%Z ∧ (allow = false → LP_Offset p = 0%Z) ∧
  (LP_StartTime p mod Second = 0)%Z ∧ (LP_EndTime p mod Second = 0)%Z ∧
  ((2 ≤ version)%Z → LP_DisableCounting p = true) ∧
  (∀ n rest, q !! KeyLimit = Some (Z_to_string n :: rest) → LP_Limit p = Z.max 0 (Z.min 5000 n)) ∧
  (q !! KeyLimit = None → LP_Limit p = 5000%Z) ∧
  match LimitCount (ListParams_ApplyPk p t k pk b) with
  | Some n => (1 ≤ n ≤ 5000)%Z
  | None => LP_Limit p = 0%Z
  end.
Proof.
  intros Hp Hb.
  destruct (forValues_inv _ _ _ _ _ Hp) as
    (limit & offset & st & et & dc & Hl & Ho & Hoff & El & Eo & Est & Eet & Edc & _).
  assert (0 ≤ LP_Limit p ≤ 5000)%Z as Hlim by (rewrite El; unfold PaginationMaxLimit; lia).
  split_and!; try done; try lia.
  - intros ->. rewrite Eo in *. destruct (Z.ltb_spec 0 (Z.max 0 offset)); [done|lia].
  - rewrite Est. apply time_Round_second.
  - rewrite Eet. apply time_Round_second.
  - intros Hv. rewrite Edc. apply Z.leb_le in Hv as ->. done.
  - intros n rest Hq. unfold GetQueryInt, values_of in Hl. rewrite Hq in Hl. simpl in Hl.
    apply Atoi_to_string_inv in Hl as ->. by rewrite El.
  - intros Hq. unfold GetQueryInt, values_of in Hl. rewrite Hq in Hl. simpl in Hl.
    injection Hl as <-. by rewrite El.
  - rewrite ApplyPk_limit, Hb. destruct (pk && _); [lia|].
    destruct (Z.eqb_spec (LP_Limit p) 0); [done|]. lia.
Qed.
End limits.

(** A toy instance of the texts that are not modelled. *)
Module ToyText.
#[export] Instance text : GoText := {
  Quote s := "'" +:+ s +:+ "'";
  time_Parse s := Err ("parsing time " +:+ s);
}.
#[export] Instance formatting : AxiaFormatting := {
  ParseBech32 s := Err "no separator";
  ShortFromString s := Ok s;
  ToShortID s := Ok s;
}.
End ToyText.

(** A request with a negative limit: no limit. *)
Import Toy ToyText.
Module LimitSample.
Definition q : gmap string (list string) := {[ KeyLimit := ["-3"] ]}.
Definition p : ListParams :=
  mkListParams q None "" 0 0 true false false zero_time (1700000000 * Second).
Definition b : SelectBuilder := mkSelectBuilder None None [] [].
End LimitSample.

Lemma limits_bounded_witness :
  forValues (1700000000 * Second) 2 LimitSample.q false = Ok LimitSample.p ∧
  LimitCount (ListParams_ApplyPk LimitSample.p "avm_outputs" "id" true LimitSample.b) = None ∧
  LP_Limit LimitSample.p = 0%Z.
Proof.
  assert (forValues (1700000000 * Second) 2 LimitSample.q false = Ok LimitSample.p) as Hp
    by (vm_compute; reflexivity).
  split; [exact Hp|]. split; [reflexivity|].
  apply (limits_bounded (1700000000 * Second) 2 LimitSample.q false LimitSample.p "avm_outputs" "id" true
           LimitSample.b Hp eq_refl).
Defined.
