(* ===== verification/Api.v ===== *)
(** api: the HTTP handlers (v2.go), the cache of their answers (context.go) and
    the reading of the body of a POST request (utils.go).

    The router and the text of an error answer are outside of the model: a handler
    gets the version and the chain of its route, the values of the URL and the
    value of [:id] in the path, and gives the code and the body of its answer.  The
    reader is the interface [AxcReader]: what each handler asks of it, with the
    JSON text of the answer. *)

From S2P Require Import Prelude Errors Sql Axia Utils GoText Params.

Record SearchParams := mkSearchParams { SP_ListParams : ListParams }.
Definition SearchParams_CacheKey `{!AxiaIds} (p : SearchParams) : list string :=
  ListParams_CacheKey (SP_ListParams p).

(** The methods of [axc.Reader] the handlers call, followed by [json.Marshal]. *)
Class AxcReader (D : Type) := {
  rd_Search : SearchParams → ID → M D string;
  rd_TxfeeAggregate : TxfeeAggregateParams → M D string;
  rd_Aggregate : AggregateParams → M D string;
  rd_ListTransactions : ListTransactionsParams → ID → M D string;
  rd_GetTransaction : ID → ID → M D string;
  rd_ListCTransactions : ListCTransactionsParams → M D string;
  rd_ListAddresses : ListAddressesParams → M D string;
  rd_GetAddress : ListAddressesParams → M D string;
  rd_AddressChains : AddressChainsParams → M D string;
  rd_ListOutputs : ListOutputsParams → M D string;
  rd_GetOutput : ID → M D string;
  rd_ListAssets : ListAssetsParams → M D string;
  rd_GetAsset : ListAssetsParams → string → M D string;
  rd_ListBlocks : ListBlocksParams → M D string;
  rd_GetBlock : ID → M D string;
  rd_ATxDATA : TxDataParam → M D string;
  rd_PTxDATA : TxDataParam → M D string;
  rd_CTxDATA : TxDataParam → M D string;
  rd_ETxDATA : TxDataParam → M D string;
  rd_RawTransaction : ID → M D string;
}.

(** * context.go *)
Definition ErrCacheableFnFailed : error := "failed to load resource".

Inductive Response :=
| Json (body : string)                       (* WriteJSON, 200 *)
| ErrorResponse (code : Z) (message : string). (* WriteErr *)

Record CacheJob := mkCacheJob { CacheJob_Key : string; CacheJob_Body : string; CacheJob_TTL : Z }.

Record Cacheable (D : Type) := mkCacheable {
  Cacheable_Key : list string;
  Cacheable_TTL : Z;
  CacheableFn : M D string;
}.
Arguments mkCacheable {D}.
Arguments Cacheable_Key {D}.
Arguments Cacheable_TTL {D}.
Arguments CacheableFn {D}.

(** utils/delay_cache.go *)
Definition WorkerQueueSize : nat := 10.

(** The database, the cache and the queue of the delayed writes to it. *)
Record api_state (D : Type) := mkApiState {
  a_db : D;
  a_cache : LCache;
  a_queue : worker CacheJob;
}.
Arguments mkApiState {D}.
Arguments a_db {D}.
Arguments a_cache {D}.
Arguments a_queue {D}.

Definition cacheKeyForID (name id : string) : list string := ["axc"; name; params_CacheKey "id" id].
Definition cacheKeyForParams (name : string) (key : list string) : list string := ["axc"; name] ++ key.

Section context.
Context {D : Type} (chksum0 : string → nat) (networkID : Z).

Definition WriteCacheable (cacheable : Cacheable D) (now : Z) (s : api_state D)
    : api_state D * Response :=
  let key := CacheKey networkID (Cacheable_Key cacheable) in
  match LCache_Get chksum0 (a_cache s) key now with
  | Some resp => (s, Json resp)
  | None =>
      match CacheableFn cacheable (a_db s) with
      | (d, Err _) => (mkApiState d (a_cache s) (a_queue s), ErrorResponse 500 ErrCacheableFnFailed)
      | (d, Ok resp) =>
          (mkApiState d (a_cache s)
             (TryEnque (a_queue s) (mkCacheJob key resp (Cacheable_TTL cacheable))), Json resp)
      end
  end.

(** [DelayCache.Processor] : the next job of the queue. *)
Definition Processor (now : Z) (s : api_state D) : api_state D :=
  match take_job (a_queue s) with
  | None => s
  | Some (j, q) =>
      mkApiState (a_db s)
        (LCache_Put chksum0 (a_cache s) (CacheJob_Key j) (CacheJob_Body j) (CacheJob_TTL j) now) q
  end.

(** The answer of a handler: an error of its parameters is answered at once. *)
Definition respond (r : result (Cacheable D)) (now : Z) (s : api_state D) : api_state D * Response :=
  match r with
  | Err e => (s, ErrorResponse 400 e)
  | Ok cacheable => WriteCacheable cacheable now s
  end.

(** A handler that does not use the cache. *)
Definition respond_direct (r : result (M D string)) (s : api_state D) : api_state D * Response :=
  match r with
  | Err e => (s, ErrorResponse 400 e)
  | Ok m =>
      match m (a_db s) with
      | (d, Err e) => (mkApiState d (a_cache s) (a_queue s), ErrorResponse 400 e)
      | (d, Ok b) => (mkApiState d (a_cache s) (a_queue s), Json b)
      end
  end.
End context.

(** * utils.go *)

(** [ParseGetJSON] : [body] is what is read of the body, [None] without a body, and
    [Unmarshal] reads an object of lists of texts. *)
Definition mergeValues (a b : Values) : Values := union_with (λ v w, Some (v ++ w)) a b.

Definition ParseGetJSON (Unmarshal : string → result Values) (query : Values)
    (body : option (result string)) : result Values :=
  match body with
  | None => Ok query
  | Some (Err e) => Err e
  | Some (Ok s) =>
      if (0 <? String.length s) then qdata ← Unmarshal s; Ok (mergeValues qdata query)
      else Ok query
  end.

(** * v2.go *)
Definition DefaultOffsetLimit : Z := 10000.

Record V2Context := mkV2Context {
  c_networkID : Z;
  c_axcAssetID : ID;
  c_version : Z;
  c_chainID : option ID;
}.

Section handlers.
Context {D : Type} `{!AxcReader D} `{!GoText} `{!AxiaIds} `{!AxiaFormatting}.
Context (c : V2Context) (now : Z).

Definition Search (q : Values) : result (Cacheable D) :=
  lp ← ListParams_ForValues now (c_version c) q;
  let p := mkSearchParams lp in
  Ok (mkCacheable (cacheKeyForParams "search" (SearchParams_CacheKey p)) 0 (rd_Search p (c_axcAssetID c))).

Definition TxfeeAggregate (q : Values) : result (Cacheable D) :=
  p ← TxfeeAggregateParams_ForValues now (c_version c) q;
  let p := mkTxfeeAggregateParams (TF_ListParams p) (TF_IntervalSize p)
             (ForValueChainID (c_chainID c) (TF_ChainIDs p)) in
  Ok (mkCacheable (cacheKeyForParams "aggregate_txfee" (TxfeeAggregateParams_CacheKey p)) 0
        (rd_TxfeeAggregate p)).

Definition Aggregate (q : Values) : result (Cacheable D) :=
  p ← AggregateParams_ForValues now (c_version c) q;
  let p := mkAggregateParams (AG_ListParams p) (ForValueChainID (c_chainID c) (AG_ChainIDs p))
             (AG_AssetID p) (AG_IntervalSize p) in
  Ok (mkCacheable (cacheKeyForParams "aggregate" (AggregateParams_CacheKey p)) 0 (rd_Aggregate p)).

(** [p.ChainIDs = params.ForValueChainID(c.chainID, p.ChainIDs)] *)
Definition transactions_of_chain (p : ListTransactionsParams) : ListTransactionsParams := {|
  LT_ListParams := LT_ListParams p;
  LT_ChainIDs := ForValueChainID (c_chainID c) (LT_ChainIDs p);
  LT_Addresses := LT_Addresses p;
  LT_AssetID := LT_AssetID p;
  LT_OutputOutputTypes := LT_OutputOutputTypes p;
  LT_OutputGroupIDs := LT_OutputGroupIDs p;
  LT_DisableGenesis := LT_DisableGenesis p;
  LT_Sort := LT_Sort p;
|}.

Definition ListTransactions (q : Values) : result (Cacheable D) :=
  p ← ListTransactionsParams_ForValues now (c_version c) q;
  let p := transactions_of_chain p in
  if (DefaultOffsetLimit <? LP_Offset (LT_ListParams p))%Z then Err "invalid offset"
  else Ok (mkCacheable (cacheKeyForParams "list_transactions" (ListTransactionsParams_CacheKey p))
             (5 * Second) (rd_ListTransactions p (c_axcAssetID c))).

Definition ListTransactionsPost (Unmarshal : string → result Values) (query : Values)
    (body : option (result string)) : result (Cacheable D) :=
  q ← ParseGetJSON Unmarshal query body;
  ListTransactions q.

Definition GetTransaction (path_id : string) : result (Cacheable D) :=
  id ← ids_FromString path_id;
  Ok (mkCacheable (cacheKeyForID "get_transaction" path_id) (5 * Second)
        (rd_GetTransaction id (c_axcAssetID c))).

Definition ListCTransactions (q : Values) : result (Cacheable D) :=
  p ← ListCTransactionsParams_ForValues now (c_version c) q;
  if (DefaultOffsetLimit <? LP_Offset (LC_ListParams p))%Z then Err "invalid offset"
  else Ok (mkCacheable (cacheKeyForParams "list_ctransactions" (ListCTransactionsParams_CacheKey p))
             (5 * Second) (rd_ListCTransactions p)).

(** [p.ListParams.DisableCounting = true] *)
Definition without_counting (p : ListParams) : ListParams :=
  mkListParams (LP_Values p) (LP_ID p) (LP_Query p) (LP_Limit p) (LP_Offset p) true
    (LP_StartTimeProvided p) (LP_EndTimeProvided p) (LP_StartTime p) (LP_EndTime p).

Definition ListAddresses (q : Values) : result (Cacheable D) :=
  p ← ListAddressesParams_ForValues now (c_version c) q;
  let p := mkListAddressesParams (without_counting (LA_ListParams p))
             (ForValueChainID (c_chainID c) (LA_ChainIDs p)) (LA_Address p) in
  Ok (mkCacheable (cacheKeyForParams "list_addresses" (ListAddressesParams_CacheKey p)) (5 * Second)
        (rd_ListAddresses p)).

Definition GetAddress (q : Values) (path_id : string) : result (Cacheable D) :=
  p ← ListAddressesParams_ForValues now (c_version c) q;
  id ← AddressFromString path_id;
  let p := mkListAddressesParams (without_counting (LA_ListParams p))
             (ForValueChainID (c_chainID c) (LA_ChainIDs p)) (Some id) in
  Ok (mkCacheable (cacheKeyForParams "get_address" (ListAddressesParams_CacheKey p)) Second
        (rd_GetAddress p)).

Definition AddressChains (q : Values) : result (Cacheable D) :=
  p ← AddressChainsParams_ForValues now (c_version c) q;
  Ok (mkCacheable (cacheKeyForParams "address_chains" (AddressChainsParams_CacheKey p)) (5 * Second)
        (rd_AddressChains p)).

Definition AddressChainsPost (Unmarshal : string → result Values) (query : Values)
    (body : option (result string)) : result (Cacheable D) :=
  q ← ParseGetJSON Unmarshal query body;
  AddressChains q.

(** [None] : [ForValues] panics. *)
Definition ListOutputs (q : Values) : option (result (Cacheable D)) :=
  r ← ListOutputsParams_ForValues now (c_version c) q;
  Some (p ← r;
    let p := mkListOutputsParams (LO_ListParams p) (ForValueChainID (c_chainID c) (LO_ChainIDs p))
               (LO_Addresses p) (LO_Spent p) in
    Ok (mkCacheable (cacheKeyForParams "list_outputs" (ListOutputsParams_CacheKey p)) (5 * Second)
          (rd_ListOutputs p))).

Definition GetOutput (path_id : string) : result (Cacheable D) :=
  id ← ids_FromString path_id;
  Ok (mkCacheable (cacheKeyForID "get_output" path_id) 0 (rd_GetOutput id)).

Definition ListAssets (q : Values) : result (Cacheable D) :=
  p ← ListAssetsParams_ForValues now (c_version c) q;
  Ok (mkCacheable (cacheKeyForParams "list_assets" (ListAssetsParams_CacheKey p)) 0 (rd_ListAssets p)).

Definition GetAsset (q : Values) (path_id : string) : result (Cacheable D) :=
  p ← ListAssetsParams_ForValues now (c_version c) q;
  let p := mkListAssetsParams (LS_ListParams p) (LS_Alias p) path_id in
  Ok (mkCacheable (cacheKeyForParams "get_asset" (ListAssetsParams_CacheKey p)) 0 (rd_GetAsset p path_id)).

Definition ListBlocks (q : Values) : result (Cacheable D) :=
  p ← ListBlocksParams_ForValues now (c_version c) q;
  Ok (mkCacheable (cacheKeyForParams "list_blocks" (ListBlocksParams_CacheKey p)) (5 * Second)
        (rd_ListBlocks p)).

Definition GetBlock (path_id : string) : result (Cacheable D) :=
  id ← ids_FromString path_id;
  Ok (mkCacheable (cacheKeyForID "get_block" path_id) 0 (rd_GetBlock id)).

Definition ATxData (q : Values) (path_id : string) : result (M D string) :=
  p ← TxDataParam_ForValues now (c_version c) q; Ok (rd_ATxDATA (mkTxDataParam (TD_ListParams p) path_id)).
Definition PTxData (q : Values) (path_id : string) : result (M D string) :=
  p ← TxDataParam_ForValues now (c_version c) q; Ok (rd_PTxDATA (mkTxDataParam (TD_ListParams p) path_id)).
Definition CTxData (q : Values) (path_id : string) : result (M D string) :=
  p ← TxDataParam_ForValues now (c_version c) q; Ok (rd_CTxDATA (mkTxDataParam (TD_ListParams p) path_id)).
Definition ETxData (q : Values) (path_id : string) : result (M D string) :=
  p ← TxDataParam_ForValues now (c_version c) q; Ok (rd_ETxDATA (mkTxDataParam (TD_ListParams p) path_id)).

Definition RawTransaction (path_id : string) : result (M D string) :=
  id ← ids_FromString path_id; Ok (rd_RawTransaction id).
End handlers.
