(* ===== verification/ApiFacts.v ===== *)
(** What the handlers answer: the key of an answer of the transactions list, and
    where a cached answer comes from. *)

From S2P Require Import Prelude Errors Sql Axia Utils UtilsFacts GoText Params ParamsFacts Api.
From Stdlib Require Import Ascii.

(** The texts of ids, in base 58: they hold no bar. *)
Class AxiaTextOk `{!AxiaIds} : Prop := {
  ShortID_String_inj :: Inj (=) (=) ShortID_String;
  ID_no_bar i : no_bar (ID_String i);
  ShortID_no_bar a : no_bar (ShortID_String a);
}.

(** * The key of the transactions list *)
Lemma key_inj name v w : params_CacheKey name v = params_CacheKey name w → v = w.
Proof.
  unfold params_CacheKey. induction name as [|c name IH]; [by intros [=]|].
  intros [= Heq]. by apply IH.
Qed.

Lemma key_no_bar name v : no_bar name → no_bar v → no_bar (params_CacheKey name v).
Proof. intros. apply no_bar_app; [done|]. apply no_bar_app; [by apply no_bar_forallb|done]. Qed.

Section key.
Context `{!GoText} `{!AxiaIds} `{!AxiaIdsOk} `{!AxiaTextOk}.
Implicit Types p : ListTransactionsParams.

(** The texts of a request that are put in the key as they are. *)
Definition plain_texts p : Prop :=
  no_bar (LP_Query (LT_ListParams p)) ∧ Forall (λ c, no_bar c ∧ c ≠ "") (LT_ChainIDs p).

Definition list_view (p : ListParams) :=
  (LP_ID p, LP_Limit p, LP_Offset p, time_Unix (LP_StartTime p), time_Unix (LP_EndTime p), LP_Query p,
   LP_DisableCounting p).

(** What the key says of a request. *)
Definition transactions_view p :=
  (list_view (LT_ListParams p), LT_Sort p, LT_AssetID p, LT_Addresses p, LT_ChainIDs p, LT_DisableGenesis p).

Definition transactions_key_text networkID p : string :=
  CacheKey networkID (cacheKeyForParams "list_transactions" (ListTransactionsParams_CacheKey p)).

Definition chain_parts (cs : list string) : list string :=
  match cs with
  | [] => [params_CacheKey KeyChainID ""]
  | c :: cs' => params_CacheKey KeyChainID c :: cs'
  end.

Lemma chains_key_parts cs : chains_key cs = Join (chain_parts cs) "|".
Proof.
  unfold chains_key, params_CacheKey. destruct cs as [|c cs]; [done|].
  unfold chain_parts. destruct (decide (cs = [])) as [->|Hne]; [done|].
  rewrite !join_cons by done. unfold params_CacheKey. by rewrite !append_assoc.
Qed.

Definition front_parts networkID p : list string :=
  [Z_to_string networkID; "axc"; "list_transactions"] ++ ListParams_CacheKey (LT_ListParams p) ++
  [params_CacheKey KeySortBy (TransactionSort_String (LT_Sort p))] ++
  id_key KeyAssetID (LT_AssetID p) ++ address_keys (LT_Addresses p).

Definition key_parts networkID p : list string :=
  front_parts networkID p ++ chain_parts (LT_ChainIDs p) ++
  [params_CacheKey KeyDisableGenesis (bool_text (LT_DisableGenesis p))].

Lemma key_text_parts networkID p : transactions_key_text networkID p = Join (key_parts networkID p) "|".
Proof.
  unfold transactions_key_text, key_parts. rewrite <-join_flatten by (by destruct (LT_ChainIDs p)).
  rewrite <-chains_key_parts. unfold CacheKey, KeyFromParts, Join, front_parts, cacheKeyForParams,
    ListTransactionsParams_CacheKey, CacheSeparator.
  f_equal. rewrite <-!app_assoc. done.
Qed.

Lemma id_key_no_bar key i : no_bar key → Forall no_bar (id_key key i).
Proof. intros Hk. destruct i; simpl; [|done]. constructor; [|done]. apply key_no_bar; [done|apply ID_no_bar]. Qed.

Lemma bool_text_no_bar b : no_bar (bool_text b).
Proof. destruct b; by apply no_bar_forallb. Qed.

Lemma key_parts_no_bar networkID p : plain_texts p → Forall no_bar (key_parts networkID p).
Proof.
  intros [Hq Hc]. unfold key_parts, front_parts, ListParams_CacheKey.
  repeat (apply Forall_app; split); repeat constructor;
    try (apply key_no_bar; [by apply no_bar_forallb|]); try apply no_bar_Z; try apply bool_text_no_bar;
    try (by apply no_bar_forallb); try done.
  - by apply id_key_no_bar, no_bar_forallb.
  - destruct (LT_Sort p); by apply no_bar_forallb.
  - by apply id_key_no_bar, no_bar_forallb.
  - unfold address_keys. apply Forall_fmap, Forall_true. intros a. simpl.
    apply key_no_bar; [by apply no_bar_forallb|apply ShortID_no_bar].
  - destruct (LT_ChainIDs p) as [|c cs]; simpl.
    + repeat constructor. apply key_no_bar; by apply no_bar_forallb.
    + apply Forall_cons in Hc as [[Hc _] Hcs]. constructor.
      * apply key_no_bar; [by apply no_bar_forallb|done].
      * eapply Forall_impl; [exact Hcs|]. by intros ? [? _].
Qed.

Lemma cons_inv {A} (x y : A) l l' : x :: l = y :: l' → x = y ∧ l = l'.
Proof. by intros [= -> ->]. Qed.

Lemma id_key_inj key i i' x y l l' :
  (∀ v, params_CacheKey key v ≠ x) → (∀ v, params_CacheKey key v ≠ y) →
  id_key key i ++ x :: l = id_key key i' ++ y :: l' → i = i' ∧ x = y ∧ l = l'.
Proof.
  intros Hx Hy. destruct i as [i|], i' as [i'|]; simpl; intros Heq.
  - apply cons_inv in Heq as [Hk [-> ->]%cons_inv]. apply key_inj, (inj ID_String) in Hk as ->. done.
  - injection Heq as Hk _. by apply Hy in Hk.
  - injection Heq as Hk _. symmetry in Hk. by apply Hx in Hk.
  - by injection Heq as -> ->.
Qed.

Lemma bool_text_inj b b' : bool_text b = bool_text b' → b = b'.
Proof. by destruct b, b'. Qed.

Lemma sort_text_inj t t' : TransactionSort_String t = TransactionSort_String t' → t = t'.
Proof. by destruct t, t'. Qed.

Lemma list_key_inj lp lp' l l' :
  ListParams_CacheKey lp ++ l = ListParams_CacheKey lp' ++ l' → list_view lp = list_view lp' ∧ l = l'.
Proof.
  unfold ListParams_CacheKey. rewrite <-!app_assoc. intros Heq.
  apply id_key_inj in Heq as (Hid & E1 & Heq); [|done|done].
  simpl in Heq.
  apply cons_inv in Heq as [E2 [E3 [E4 [E5 [E6 ->]%cons_inv]%cons_inv]%cons_inv]%cons_inv].
  split; [|done].
  apply key_inj in E1, E2, E3, E4, E5, E6. apply (inj Z_to_string) in E1, E2, E3, E4.
  apply bool_text_inj in E6. unfold list_view. by rewrite Hid, E1, E2, E3, E4, E5, E6.
Qed.

Lemma chain_parts_inj cs cs' :
  Forall (λ c, c ≠ "") cs → Forall (λ c, c ≠ "") cs' → chain_parts cs = chain_parts cs' → cs = cs'.
Proof.
  intros Hc Hc'. destruct cs as [|c cs], cs' as [|c' cs']; simpl; [done|..]; intros Heq.
  - apply cons_inv in Heq as [Hk%key_inj _]. apply Forall_cons in Hc' as [Hc' _]. by destruct Hc'.
  - apply cons_inv in Heq as [Hk%key_inj _]. apply Forall_cons in Hc as [Hc _]. by destruct Hc.
  - by apply cons_inv in Heq as [->%key_inj ->].
Qed.

Lemma address_keys_inj a a' cs cs' :
  address_keys a ++ chain_parts cs = address_keys a' ++ chain_parts cs' →
  a = a' ∧ chain_parts cs = chain_parts cs'.
Proof.
  revert a'. induction a as [|x a IH]; intros [|y a'] Heq; [done|..].
  - exfalso. by destruct cs.
  - exfalso. by destruct cs'.
  - apply cons_inv in Heq as [Hk%key_inj Heq]. apply (inj ShortID_String) in Hk as ->.
    by apply IH in Heq as [-> ->].
Qed.

Lemma key_parts_inj networkID p p' :
  plain_texts p → plain_texts p' → key_parts networkID p = key_parts networkID p' →
  transactions_view p = transactions_view p'.
Proof.
  intros [_ Hc] [_ Hc']. unfold key_parts, front_parts. rewrite !app_assoc. intros Heq.
  apply app_inj_2 in Heq as [Heq Hlast]; [|done]. apply cons_inv in Hlast as [Hdg%key_inj%bool_text_inj _].
  rewrite <-!app_assoc in Heq. apply app_inv_head in Heq.
  apply list_key_inj in Heq as [Hlp Heq]. apply cons_inv in Heq as [Hsort%key_inj%sort_text_inj Heq].
  assert (LT_AssetID p = LT_AssetID p' ∧ LT_Addresses p = LT_Addresses p' ∧
          chain_parts (LT_ChainIDs p) = chain_parts (LT_ChainIDs p')) as (Ha & Has & Hcs).
  { assert (∀ a cs, ∃ x l, address_keys a ++ chain_parts cs = x :: l ∧
      ∀ v, params_CacheKey KeyAssetID v ≠ x) as Hhd.
    { intros [|a as_] cs; [destruct cs|]; by eexists _, _. }
    destruct (Hhd (LT_Addresses p) (LT_ChainIDs p)) as (x & l & E & Hx).
    destruct (Hhd (LT_Addresses p') (LT_ChainIDs p')) as (y & l' & E' & Hy).
    rewrite E, E' in Heq. apply id_key_inj in Heq as (-> & -> & ->); [|done|done].
    split; [done|]. apply address_keys_inj. by rewrite E, E'. }
  apply chain_parts_inj in Hcs;
    [|by eapply Forall_impl; [exact Hc|intros ? [_ ?]]|by eapply Forall_impl; [exact Hc'|intros ? [_ ?]]].
  unfold transactions_view. by rewrite Hlp, Hsort, Ha, Has, Hcs, Hdg.
Qed.

Lemma view_key_text networkID p p' :
  transactions_view p = transactions_view p' → transactions_key_text networkID p = transactions_key_text networkID p'.
Proof.
  unfold transactions_view, list_view. intros Hv. injection Hv as E1 E2 E3 E4 E5 E6 E7 E8 E9 E10 E11 E12.
  unfold transactions_key_text, ListTransactionsParams_CacheKey, ListParams_CacheKey.
  by rewrite E1, E2, E3, E4, E5, E6, E7, E8, E9, E10, E11, E12.
Qed.

Definition with_ChainIDs (cs : list string) p : ListTransactionsParams := {|
  LT_ListParams := LT_ListParams p;
  LT_ChainIDs := cs;
  LT_Addresses := LT_Addresses p;
  LT_AssetID := LT_AssetID p;
  LT_OutputOutputTypes := LT_OutputOutputTypes p;
  LT_OutputGroupIDs := LT_OutputGroupIDs p;
  LT_DisableGenesis := LT_DisableGenesis p;
  LT_Sort := LT_Sort p;
|}.

(** C25. Two requests for the transactions share their cached answer when they
    agree on the id, the limit and offset, the seconds of the times, the query, the
    counting, the sort, the asset, the addresses, the chains and the genesis flag, and only
    then, if their search text and their chain ids hold no bar and no chain id is empty.
    The output types and the output groups are not in the key although they filter the
    transactions: requests that only differ in them are answered alike.  The chain ids are
    in the key as they are in the request, with bars between them: with bars in them,
    requests for different chains share an answer, as those for the chain A|B and for the
    chains A and B do. *)
Theorem transactions_key networkID p p' :
  (transactions_view p = transactions_view p' →
   transactions_key_text networkID p = transactions_key_text networkID p') ∧
  (plain_texts p → plain_texts p' →
   transactions_key_text networkID p = transactions_key_text networkID p' →
   transactions_view p = transactions_view p') ∧
  ∀ cs cs', Join cs "|" = Join cs' "|" →
    transactions_key_text networkID (with_ChainIDs cs p) = transactions_key_text networkID (with_ChainIDs cs' p).
Proof.
  split_and!; [apply view_key_text| |].
  - intros Hp Hp'. rewrite !key_text_parts. intros Heq.
    apply join_inj in Heq; [by eapply key_parts_inj|by apply key_parts_no_bar|by apply key_parts_no_bar|done|done].
  - intros cs cs' Hj. unfold transactions_key_text, ListTransactionsParams_CacheKey, chains_key.
    cbn [LT_ListParams LT_Sort LT_AssetID LT_Addresses LT_ChainIDs LT_DisableGenesis with_ChainIDs]. by rewrite Hj.
Qed.
End key.

(** * Where an answer comes from *)
Section serving.
Context {D : Type} (chksum0 : string → nat) (Hchk : ∀ k, chksum0 k < 256) (networkID : Z).
Implicit Types s : api_state D.

(** What a request computes: the body under its key, unless the cache answers. *)
Definition computed (c : Cacheable D) (now : Z) s : list (string * string) :=
  let key := CacheKey networkID (Cacheable_Key c) in
  match LCache_Get chksum0 (a_cache s) key now with
  | Some _ => []
  | None => match CacheableFn c (a_db s) with (_, Ok b) => [(key, b)] | _ => [] end
  end.

(** The server, with all the answers computed so far: a request, a delayed write to
    the cache, a tick of the expiry of a bucket, and the indexer writing to the
    database. *)
Inductive api_step : api_state D * list (string * string) → api_state D * list (string * string) → Prop :=
| api_request c now s s' r log :
    WriteCacheable chksum0 networkID c now s = (s', r) → api_step (s, log) (s', log ++ computed c now s)
| api_delayed now s log : api_step (s, log) (Processor chksum0 now s, log)
| api_expire i now later s log :
    api_step (s, log) (mkApiState (a_db s) (alter (expire_bucket now later) i (a_cache s)) (a_queue s), log)
| api_database d s log : api_step (s, log) (mkApiState d (a_cache s) (a_queue s), log).

Definition api_start (d : D) : api_state D * list (string * string) :=
  (mkApiState d NewTTLMap (mkWorker [] WorkerQueueSize), []).

Record cache_inv (w : api_state D * list (string * string)) : Prop := {
  ci_length : length (a_cache w.1) = 256;
  ci_items k it : bucket_of chksum0 (a_cache w.1) k !! k = Some it → (k, item_value it) ∈ w.2;
  ci_jobs j : j ∈ jobCh (a_queue w.1) → (CacheJob_Key j, CacheJob_Body j) ∈ w.2;
  ci_queue : length (jobCh (a_queue w.1)) ≤ WorkerQueueSize ∧ queueSize (a_queue w.1) = WorkerQueueSize;
}.

Lemma cache_inv_start d : cache_inv (api_start d).
Proof.
  split; cbn -[NewTTLMap]; [done| |by intros j ?%elem_of_nil|unfold WorkerQueueSize; lia].
  intros k it. unfold bucket_of.
  assert (NewTTLMap !! chksum0 k = Some ∅) as -> by (apply lookup_replicate_2, Hchk). done.
Qed.

Lemma expire_bucket_lookup now later bm k it :
  expire_bucket now later bm !! k = Some it → bm !! k = Some it.
Proof.
  unfold expire_bucket. generalize (expire_scan now bm) as l. intros l. revert bm.
  induction l as [|x l IH]; intros bm; simpl; [done|]. intros Hk%IH. revert Hk.
  unfold expire_drop. destruct (bm !! x) as [i|]; [|done]. destruct (expired i later); [|done].
  by intros [_ ?]%lookup_delete_Some.
Qed.

Lemma cache_inv_request c now s s' r log :
  WriteCacheable chksum0 networkID c now s = (s', r) → cache_inv (s, log) →
  cache_inv (s', log ++ computed c now s).
Proof.
  intros Hw [Hlen Hit Hjob [Hq1 Hq2]]. simpl in *. revert Hw. unfold WriteCacheable, computed.
  destruct (LCache_Get _ _ _ _) as [resp|].
  { intros [= <- <-]. rewrite app_nil_r. by split. }
  destruct (CacheableFn c (a_db s)) as [d [b|e]]; intros [= <- <-]; [|rewrite app_nil_r; by split].
  split; simpl; [done| | |].
  - intros k it Hk. apply elem_of_app. left. by apply Hit.
  - intros j. unfold TryEnque. case_match; simpl; rewrite ?elem_of_app, ?list_elem_of_singleton.
    + intros [Hj| ->]; [left; by apply Hjob|by right].
    + intros Hj. left. by apply Hjob.
  - unfold TryEnque. destruct (length _ <? queueSize _) eqn:E; simpl; [|done].
    apply Nat.ltb_lt in E. rewrite length_app. simpl. lia.
Qed.

Lemma cache_inv_step w w' : api_step w w' → cache_inv w → cache_inv w'.
Proof.
  intros Hs Hinv. destruct Hs as [c now s s' r log Hw|now s log|i now later s log|d s log].
  - by eapply cache_inv_request.
  - destruct Hinv as [Hlen Hit Hjob [Hq1 Hq2]]. unfold Processor, take_job. simpl in *.
    destruct (jobCh (a_queue s)) as [|j js] eqn:Ej; [split; simpl; try rewrite Ej; done|].
    split; simpl.
    + unfold LCache_Put. rewrite <-Hlen. apply length_insert.
    + intros k it. rewrite bucket_of_put by (rewrite Hlen; apply Hchk). case_decide as E; [|by apply Hit].
      subst k. intros [= <-]. simpl. destruct (bucket_of _ _ _ !! _) as [it|] eqn:Eb; [by apply Hit|].
      apply Hjob. by left.
    + intros j' Hj. apply Hjob. by right.
    + simpl in Hq1. lia.
  - destruct Hinv as [Hlen Hit Hjob Hq]. split; simpl in *; try done.
    { rewrite <-Hlen. apply length_alter. }
    intros k it Hk. apply Hit. revert Hk. unfold bucket_of, LCache in *.
    destruct (decide (chksum0 k = i)) as [<-|Hne]; [|by rewrite list_lookup_alter_ne].
    rewrite list_lookup_alter_eq. destruct (_ !! chksum0 k); simpl; [|done].
    apply expire_bucket_lookup.
  - by destruct Hinv.
Qed.

Lemma cache_inv_steps w w' : rtc api_step w w' → cache_inv w → cache_inv w'.
Proof. induction 1; [done|]. eauto using cache_inv_step. Qed.

(** C26. Whatever the requests, the delayed writes, the expiries and the changes of
    the database, an answer with code 200 is one that was computed for the very key of
    the request, now or before; an answer that cannot be computed has code 500 and
    leaves the cache and the queue as they are; and the queue of delayed writes never
    holds more than its 10 jobs. *)
Theorem served_was_computed d s log c now s' r :
  rtc api_step (api_start d) (s, log) →
  WriteCacheable chksum0 networkID c now s = (s', r) →
  length (jobCh (a_queue s')) ≤ WorkerQueueSize ∧
  match r with
  | Json body => (CacheKey networkID (Cacheable_Key c), body) ∈ log ++ computed c now s
  | ErrorResponse code _ => code = 500%Z ∧ a_cache s' = a_cache s ∧ a_queue s' = a_queue s
  end.
Proof.
  intros Hr Hw.
  assert (cache_inv (s, log)) as Hinv.
  { eapply cache_inv_steps; [exact Hr|apply cache_inv_start]. }
  split; [apply (ci_queue _ (cache_inv_request _ _ _ _ _ _ Hw Hinv))|].
  revert Hw. unfold WriteCacheable, computed. destruct (LCache_Get _ _ _ _) as [resp|] eqn:Hg.
  - intros [= <- <-]. rewrite app_nil_r. revert Hg. unfold LCache_Get.
    destruct (bucket_of _ _ _ !! _) as [it|] eqn:Hit; [|done]. destruct (expired it now); [done|].
    intros [= <-]. by apply (ci_items _ Hinv).
  - destruct (CacheableFn c (a_db s)) as [d' [b|e]]; intros [= <- <-]; [|done].
    apply elem_of_app. right. by left.
Qed.

(** Once an answer has been computed and the delayed write has put it in the
    cache, the same request is answered from the cache for the time to live that
    follows, without asking the reader and whatever the database becomes.  The answer
    is the one computed if the key was not in the cache; but if an expired entry of the
    key had not been dropped yet, it is the old answer that is served again. *)
Theorem answers_repeat c now now' t s body d :
  length (a_cache s) = 256 → jobCh (a_queue s) = [] → 0 < queueSize (a_queue s) →
  let key := CacheKey networkID (Cacheable_Key c) in
  LCache_Get chksum0 (a_cache s) key now = None →
  (CacheableFn c (a_db s)).2 = Ok body →
  (t ≤ now' + Cacheable_TTL c)%Z →
  let s1 := (WriteCacheable chksum0 networkID c now s).1 in
  let s2 := Processor chksum0 now' s1 in
  let s3 := mkApiState d (a_cache s2) (a_queue s2) in
  (WriteCacheable chksum0 networkID c now s).2 = Json body ∧
  WriteCacheable chksum0 networkID c t s3 =
    (s3, Json (match bucket_of chksum0 (a_cache s) key !! key with
               | Some it => item_value it
               | None => body
               end)).
Proof.
  intros Hlen Hjobs Hsize key Hmiss Hfn Ht.
  assert (WriteCacheable chksum0 networkID c now s =
    (mkApiState (CacheableFn c (a_db s)).1 (a_cache s)
       (mkWorker [mkCacheJob key body (Cacheable_TTL c)] (queueSize (a_queue s))), Json body)) as Hw.
  { unfold WriteCacheable. fold key. rewrite Hmiss.
    destruct (CacheableFn c (a_db s)) as [d1 [b|e]]; simpl in Hfn; [|done]. injection Hfn as ->.
    unfold TryEnque. rewrite Hjobs. simpl. apply Nat.ltb_lt in Hsize. by rewrite Hsize. }
  cbv zeta. rewrite Hw. split; [done|]. unfold Processor, take_job. simpl. unfold WriteCacheable. fold key.
  simpl. unfold LCache_Get. rewrite bucket_of_put by (rewrite Hlen; apply Hchk). rewrite decide_True by done.
  unfold expired. simpl. destruct (Z.ltb_spec (now' + Cacheable_TTL c) t); [lia|done].
Qed.
End serving.

(** * Witnesses *)

(** Ids printed as the bits of their bytes. *)
Module BitText.
Definition bit (b : bool) : Ascii.ascii := if b then "1"%char else "0"%char.
Fixpoint bits (s : string) : string :=
  match s with
  | EmptyString => EmptyString
  | String.String (Ascii.Ascii a b c d e f g h) s' =>
      String.String (bit a) (String.String (bit b) (String.String (bit c) (String.String (bit d)
        (String.String (bit e) (String.String (bit f) (String.String (bit g) (String.String (bit h)
          (bits s'))))))))
  end.

Lemma bit_inj a b : bit a = bit b → a = b.
Proof. by destruct a, b. Qed.

#[export] Instance bits_inj : Inj (=) (=) bits.
Proof.
  intros s. induction s as [|[a b c d e f g h] s IH]; intros [|[a' b' c' d' e' f' g' h'] t] Heq; try done.
  cbn in Heq. injection Heq as H1 H2 H3 H4 H5 H6 H7 H8 Ht.
  apply bit_inj in H1, H2, H3, H4, H5, H6, H7, H8. by rewrite H1, H2, H3, H4, H5, H6, H7, H8, (IH _ Ht).
Qed.

Lemma bit_no_bar b s : no_bar s → no_bar (String.String (bit b) s).
Proof. intros Hs. apply no_bar_cons. split; [by destruct b|done]. Qed.

Lemma bits_no_bar s : no_bar (bits s).
Proof.
  induction s as [|[] s IH]; [by apply no_bar_forallb|]. cbn [bits]. by repeat apply bit_no_bar.
Qed.

#[export] Instance ids : AxiaIds := {
  ID_String := bits;
  ID_Prefix i n := i +:+ Z_to_string n;
  ids_FromString s := Ok s;
  ids_ToID s := Ok s;
  ShortID_String := bits;
  ComputeHash256 s := s;
}.
#[export] Instance ids_ok : AxiaIdsOk.
Proof. split; [done|apply bits_inj]. Qed.
#[export] Instance text_ok : AxiaTextOk.
Proof. split; [apply bits_inj|apply bits_no_bar|apply bits_no_bar]. Qed.

(** Two requests that differ in the output groups only. *)
Definition request (groups : list Z) : ListTransactionsParams := {|
  LT_ListParams := mkListParams ∅ None "abc" 25 0 true false false zero_time 0;
  LT_ChainIDs := ["X"];
  LT_Addresses := ["a"];
  LT_AssetID := Some "i";
  LT_OutputOutputTypes := [];
  LT_OutputGroupIDs := groups;
  LT_DisableGenesis := false;
  LT_Sort := TransactionSortTimestampDesc;
|}.
Lemma request_plain groups : plain_texts (request groups).
Proof. split; [by apply no_bar_forallb|]. repeat constructor; [by apply no_bar_forallb|done]. Qed.
End BitText.

Import BitText ParamsFacts.ToyText.

Lemma transactions_key_witness :
  transactions_key_text 1 (BitText.request []) = transactions_key_text 1 (BitText.request [7%Z]) ∧
  transactions_key_text 1 (with_ChainIDs ["A|B"] (BitText.request [])) =
  transactions_key_text 1 (with_ChainIDs ["A"; "B"] (BitText.request [])).
Proof.
  destruct (transactions_key 1 (BitText.request []) (BitText.request [7%Z])) as (Hsame & _ & Hbar).
  split; [by apply Hsame|by apply Hbar].
Defined.

(** One bucket, and answers that read a counter. *)
Module CacheSample.
Definition chksum0 : string → nat := λ _, 7.
Lemma chksum0_lt k : chksum0 k < 256.
Proof. unfold chksum0. lia. Qed.
Definition c : Cacheable Z := mkCacheable ["axc"; "get_transaction"; "id=1"] 5 (λ n, (n, Ok (Z_to_string n))).
Definition key : string := CacheKey 1 (Cacheable_Key c).
(** An entry that expired at 10 and has not been dropped. *)
Definition stale : api_state Z :=
  mkApiState 42%Z (LCache_Put chksum0 NewTTLMap key "old" 5 5) (mkWorker [] WorkerQueueSize).
End CacheSample.

Lemma served_was_computed_witness :
  (CacheSample.key, "3") ∈ ([] : list (string * string)) ++
    computed CacheSample.chksum0 1 CacheSample.c 0 (api_start 3%Z).1.
Proof.
  apply (served_was_computed CacheSample.chksum0 CacheSample.chksum0_lt 1 3%Z (api_start 3%Z).1 []
           CacheSample.c 0 (WriteCacheable CacheSample.chksum0 1 CacheSample.c 0 (api_start 3%Z).1).1
           (Json "3") (rtc_refl _ _)).
  vm_compute. reflexivity.
Defined.

Lemma answers_repeat_witness :
  (WriteCacheable CacheSample.chksum0 1 CacheSample.c 11 CacheSample.stale).2 = Json "42" ∧
  (WriteCacheable CacheSample.chksum0 1 CacheSample.c 14
     (Processor CacheSample.chksum0 12
        (WriteCacheable CacheSample.chksum0 1 CacheSample.c 11 CacheSample.stale).1)).2 = Json "old".
Proof.
  destruct (answers_repeat CacheSample.chksum0 CacheSample.chksum0_lt 1 CacheSample.c 11 12 14
              CacheSample.stale "42" 42%Z) as [H1 H2].
  - vm_compute. reflexivity.
  - reflexivity.
  - vm_compute. lia.
  - vm_compute. reflexivity.
  - reflexivity.
  - vm_compute. discriminate.
  - split; [exact H1|exact (f_equal snd H2)].
Defined.
