(* ===== verification/Query.v ===== *)
(** The SELECT statements of the readers: what joins, orders, groups and counts
    give on the rows of the tables.  Rows that compare equal come in the order of
    the table. *)

From S2P Require Import Prelude Errors Sql.

(** [c1 = c2] between columns: NULL is equal to nothing. *)
Definition same_col (r1 : row) (c1 : string) (r2 : row) (c2 : string) : bool :=
  match r1 !! c1 with
  | Some v => bool_decide (r2 !! c2 = Some v ∧ v ≠ VNull)
  | None => false
  end.

Definition is_null (r : row) (c : string) : bool :=
  match r !! c with None | Some VNull => true | Some _ => false end.

Definition inner_join (on : row → bool) (t : list row) : list row := List.filter on t.

(** [LEFT JOIN t ON ...] : a row of NULLs when none matches. *)
Definition left_join (on : row → bool) (t : list row) : list row :=
  match List.filter on t with [] => [∅] | l => l end.

(** [ORDER BY] : a stable insertion sort. *)
Section order.
Context {A : Type} (le : A → A → bool).

Fixpoint insert_by (x : A) (l : list A) : list A :=
  match l with
  | [] => [x]
  | y :: l' => if le x y then x :: l else y :: insert_by x l'
  end.
Definition order_by (l : list A) : list A := foldr insert_by [] l.

Lemma insert_by_perm x l : insert_by x l ≡ₚ x :: l.
Proof.
  induction l as [|y l IH]; simpl; [done|]. destruct (le x y); [done|]. rewrite IH. apply Permutation_swap.
Qed.

Lemma order_by_perm l : order_by l ≡ₚ l.
Proof. induction l as [|x l IH]; simpl; [done|]. by rewrite insert_by_perm, IH. Qed.

Lemma order_by_length l : length (order_by l) = length l.
Proof. by rewrite order_by_perm. Qed.

(** In the order asked for, when it is total and transitive. *)
Lemma order_by_sorted l :
  (∀ x y, le x y = true ∨ le y x = true) → (∀ x y z, le x y = true → le y z = true → le x z = true) →
  StronglySorted (λ x y, le x y = true) (order_by l).
Proof.
  intros Htot Htr. induction l as [|x l IH]; simpl; [constructor|].
  induction (order_by l) as [|y k IHk]; simpl; [by repeat constructor|].
  apply StronglySorted_inv in IH as [Hk Hy]. destruct (le x y) eqn:E.
  - constructor; [by constructor|]. constructor; [done|].
    eapply Forall_impl; [exact Hy|]. intros z Hz. by eapply Htr.
  - constructor; [by apply IHk|]. rewrite insert_by_perm. constructor; [|done].
    destruct (Htot x y); congruence.
Qed.
End order.

(** [LIMIT n], with no limit for 0, and [OFFSET n] (which MySQL only takes with a
    limit). *)
Definition limit_rows {A} (n : Z) (l : list A) : list A := if (n =? 0)%Z then l else take (Z.to_nat n) l.
Definition offset_rows {A} (n : Z) (l : list A) : list A := if (n =? 0)%Z then l else drop (Z.to_nat n) l.

(** [COALESCE(SUM(c), 0)], [COUNT(c)] and [COUNT(DISTINCT(c))]. *)
Definition sum_col (c : string) (l : list row) : Z := sum_with (λ r, col_num r c) l.
Definition count_col (c : string) (l : list row) : Z :=
  Z.of_nat (length (List.filter (λ r, negb (is_null r c)) l)).
Definition count_distinct (c : string) (l : list row) : Z :=
  Z.of_nat (length (remove_dups (map (λ r, r !! c) (List.filter (λ r, negb (is_null r c)) l)))).

(** [GROUP BY] an integer expression, in ascending order of it. *)
Definition groups_of {A} (key : A → Z) (l : list A) : list Z := order_by Z.leb (remove_dups (map key l)).
Definition group {A} (key : A → Z) (l : list A) (k : Z) : list A := List.filter (λ x, (key x =? k)%Z) l.

Lemma groups_of_NoDup {A} (key : A → Z) l : NoDup (groups_of key l).
Proof. unfold groups_of. rewrite order_by_perm. apply NoDup_remove_dups. Qed.

Lemma elem_of_groups_of {A} (key : A → Z) l k : k ∈ groups_of key l ↔ ∃ x, x ∈ l ∧ key x = k.
Proof.
  unfold groups_of. rewrite order_by_perm, elem_of_remove_dups.
  change (map key l) with (key <$> l). rewrite list_elem_of_fmap. naive_solver.
Qed.

Lemma groups_of_sorted {A} (key : A → Z) l : StronglySorted Z.lt (groups_of key l).
Proof.
  pose proof (groups_of_NoDup key l) as Hnd. unfold groups_of in *.
  assert (StronglySorted (λ x y, Z.leb x y = true) (order_by Z.leb (remove_dups (map key l)))) as Hs.
  { apply order_by_sorted; [intros x y; lia|intros x y z; lia]. }
  induction Hs as [|x k Hk IH Hx]; [constructor|]. apply NoDup_cons in Hnd as [Hni Hnd].
  constructor; [by apply IH|]. rewrite Forall_forall in *. intros y Hy.
  specialize (Hx y Hy). assert (x ≠ y) by (by intros ->). lia.
Qed.

Lemma group_nil {A} (key : A → Z) l k : (∀ x, x ∈ l → key x ≠ k) → group key l k = [].
Proof.
  unfold group. induction l as [|x l IH]; intros H; simpl; [done|].
  destruct (Z.eqb_spec (key x) k) as [E|_]; [by destruct (H x ltac:(left))|].
  apply IH. intros y Hy. apply H. by right.
Qed.

Lemma elem_of_group {A} (key : A → Z) l k x : x ∈ group key l k ↔ x ∈ l ∧ key x = k.
Proof.
  unfold group. rewrite !list_elem_of_In, filter_In, Z.eqb_eq. done.
Qed.

Lemma group_nonempty {A} (key : A → Z) l k : k ∈ groups_of key l ↔ group key l k ≠ [].
Proof.
  rewrite elem_of_groups_of. split.
  - intros (x & Hx & Hk) E. eapply elem_of_nil. rewrite <-E. by apply elem_of_group.
  - intros Hne. destruct (group key l k) as [|x g] eqn:E; [done|]. exists x.
    apply elem_of_group. rewrite E. by left.
Qed.
