(* ===== verification/ReaderAggregates.v ===== *)
(** services/indexes/axc/reader.go: the histograms of the outputs and of the fees
    ([Aggregate], [TxfeeAggregate]), over the SQL tables. *)

From S2P Require Import Prelude Errors Sql DbModel Axia GoText Params Query.

Definition MaxAggregateIntervalCount : Z := 20000.
Definition ErrAggregateIntervalCountTooLarge : error := "requesting too many intervals".
Definition ErrFailedToParseStringAsBigInt : error := "failed to parse string to big.Int".

(** * models/axc.go *)
Record Aggregates := mkAggregates {
  Agg_Idx : Z;
  Agg_StartTime : Z;
  Agg_EndTime : Z;
  Agg_TransactionVolume : string;
  Agg_TransactionCount : Z;
  Agg_AddressCount : Z;
  Agg_OutputCount : Z;
  Agg_AssetCount : Z;
}.
Record AggregatesHistogram := mkAggregatesHistogram {
  AH_Aggregates : Aggregates;
  AH_IntervalSize : Z;
  AH_Intervals : list Aggregates;
  AH_StartTime : Z;
  AH_EndTime : Z;
}.
Record TxfeeAggregates := mkTxfeeAggregates {
  Fee_Idx : Z;
  Fee_StartTime : Z;
  Fee_EndTime : Z;
  Fee_Txfee : string;
}.
Record TxfeeAggregatesHistogram := mkTxfeeAggregatesHistogram {
  FH_TxfeeAggregates : TxfeeAggregates;
  FH_IntervalSize : Z;
  FH_Intervals : list TxfeeAggregates;
  FH_StartTime : Z;
  FH_EndTime : Z;
}.

(** * The intervals *)
Definition interval_seconds (intervalSize : Z) : Z := ftrunc (Duration_Seconds intervalSize).

(** How many intervals are asked for: none for a size under a second. *)
Definition interval_count (startTime endTime intervalSize : Z) : result Z :=
  if (interval_seconds intervalSize =? 0)%Z then Ok 0%Z
  else
    let n := fceil (fdiv (Duration_Seconds (time_Sub endTime startTime)) (Duration_Seconds intervalSize)) in
    if (MaxAggregateIntervalCount <? n)%Z then Err ErrAggregateIntervalCountTooLarge
    else Ok (if (n <? 1)%Z then 1%Z else n).

Definition timesForInterval (startTime intervalSeconds intervalIdx : Z) : Z * Z :=
  let startTS := (time_Unix startTime + intervalIdx * intervalSeconds)%Z in
  ((startTS * Second)%Z, ((startTS + intervalSeconds - 1) * Second)%Z).

(** [FLOOR((UNIX_TIMESTAMP(created_at) - start) / seconds)] *)
Definition interval_idx (startTime intervalSeconds : Z) (r : row) : Z :=
  ((as_time (r !! "created_at") - time_Unix startTime * Second) / (intervalSeconds * Second))%Z.

Section intervals.
(** The record of an interval: [models.Aggregates] or [models.TxfeeAggregates], and
    the overall counts [T]. *)
Context {A T : Type} (idx : A → Z) (blank : Z → A) (set_times : Z * Z → A → A)
  (times : Z → Z * Z) (accumulate : T → A → result T).

(** [padTo] : the missing intervals, up to an index. *)
Fixpoint pad (n : nat) (slice : list A) : list A :=
  match n with
  | O => slice
  | S n' =>
      let i := Z.of_nat (length slice) in
      pad n' (slice ++ [set_times (times i) (blank i)])
  end.
Definition padTo (slice : list A) (to : Z) : list A := pad (Z.to_nat (to - Z.of_nat (length slice))) slice.

(** The loop over the rows of the query. *)
Fixpoint collect_intervals (intervals : list A) (slice : list A) (total : T) : result (list A * T) :=
  match intervals with
  | [] => Ok (slice, total)
  | interval :: rest =>
      let slice := padTo slice (idx interval) in
      let interval := set_times (times (idx interval)) interval in
      match accumulate total interval with
      | Err e => Err e
      | Ok total => collect_intervals rest (slice ++ [interval]) total
      end
  end.
End intervals.

Section aggregates.
Context `{SqlEngine D} `{!GoText} `{!AxiaIds}.

(** [chain_id IN ?], when chains are given. *)
Definition of_chains (chainIDs : list string) (r : row) : bool :=
  (length chainIDs =? 0) || existsb (λ c, matches [CEq "chain_id" (VStr c)] r) chainIDs.

Definition created_between (startTime endTime : Z) (r : row) : bool :=
  let t := as_time (r !! "created_at") in (startTime <=? t)%Z && (t <? endTime)%Z.

(** [COALESCE(UNIX_TIMESTAMP(MIN(created_at)), 0)], cut to the second. *)
Definition first_time (chainIDs : list string) (c : content) : Z :=
  match map (λ r, as_time (r !! "created_at")) (List.filter (of_chains chainIDs) (c TableTransactions)) with
  | [] => 0%Z
  | t :: ts => (time_Unix (fold_left Z.min ts t) * Second)%Z
  end.

Definition getFirstTransactionTime (chainIDs : list string) : M D Z := select (first_time chainIDs).

(** ** Aggregate *)
Definition Agg_blank (i : Z) : Aggregates := mkAggregates i zero_time zero_time "" 0 0 0 0.
Definition Agg_set_times (t : Z * Z) (a : Aggregates) : Aggregates :=
  mkAggregates (Agg_Idx a) t.1 t.2 (Agg_TransactionVolume a) (Agg_TransactionCount a) (Agg_AddressCount a)
    (Agg_OutputCount a) (Agg_AssetCount a).

Definition aggregate_where (p : AggregateParams) (startTime : Z) (r : row) : bool :=
  created_between startTime (LP_EndTime (AG_ListParams p)) r &&
  of_chains (AG_ChainIDs p) r &&
  match AG_AssetID p with Some i => matches [CEq "asset_id" (VStr (ID_String i))] r | None => true end.

(** The joined rows: an output and one of its addresses, or none. *)
Definition aggregate_rows (p : AggregateParams) (startTime : Z) (c : content) : list (row * row) :=
  flat_map (λ o, map (λ a, (o, a)) (left_join (λ a, same_col a "output_id" o "id") (c TableOutputAddresses)))
    (List.filter (aggregate_where p startTime) (c TableOutputs)).

Definition aggregate_columns (i : Z) (l : list (row * row)) : Aggregates := {|
  Agg_Idx := i;
  Agg_StartTime := zero_time;
  Agg_EndTime := zero_time;
  Agg_TransactionVolume := Z_to_string (sum_col "amount" (map fst l));
  Agg_TransactionCount := count_distinct "transaction_id" (map fst l);
  Agg_AddressCount := count_distinct "address" (map snd l);
  Agg_OutputCount := count_col "id" (map fst l);
  Agg_AssetCount := count_distinct "asset_id" (map fst l);
|}.

Definition aggregate_query (p : AggregateParams) (startTime n : Z) (c : content) : list Aggregates :=
  let l := aggregate_rows p startTime c in
  if (0 <? n)%Z then
    let key x := interval_idx startTime (interval_seconds (AG_IntervalSize p)) x.1 in
    map (λ i, aggregate_columns i (group key l i)) (limit_rows n (groups_of key l))
  else [aggregate_columns 0 l].

(** The overall counts: the volume, and the [uint64] counters. *)
Definition Agg_accumulate (total : Z * Aggregates) (a : Aggregates) : result (Z * Aggregates) :=
  let '(totalVolume, t) := total in
  match big_SetString (Agg_TransactionVolume a) with
  | None => Err ErrFailedToParseStringAsBigInt
  | Some v =>
      Ok ((totalVolume + v)%Z,
          mkAggregates (Agg_Idx t) (Agg_StartTime t) (Agg_EndTime t) (Agg_TransactionVolume t)
            (u64_add (Agg_TransactionCount t) (Agg_TransactionCount a))
            (u64_add (Agg_AddressCount t) (Agg_AddressCount a))
            (u64_add (Agg_OutputCount t) (Agg_OutputCount a))
            (u64_add (Agg_AssetCount t) (Agg_AssetCount a)))
  end.

Definition Agg_set_volume (v : string) (a : Aggregates) : Aggregates :=
  mkAggregates (Agg_Idx a) (Agg_StartTime a) (Agg_EndTime a) v (Agg_TransactionCount a)
    (Agg_AddressCount a) (Agg_OutputCount a) (Agg_AssetCount a).

(** What [Aggregate] makes of the rows of its query. *)
Definition aggregate_histogram (startTime endTime intervalSize n : Z) (intervals : list Aggregates)
    : result AggregatesHistogram :=
  if (n =? 0)%Z then
    match intervals with
    | i :: _ => Ok (mkAggregatesHistogram (Agg_set_times (startTime, endTime) i) 0 [] startTime endTime)
    | [] => Ok (mkAggregatesHistogram (Agg_blank 0) 0 [] startTime endTime)
    end
  else
    let times := timesForInterval startTime (interval_seconds intervalSize) in
    match collect_intervals Agg_Idx Agg_blank Agg_set_times times Agg_accumulate intervals []
            (0%Z, Agg_set_times (startTime, endTime) (Agg_blank 0)) with
    | Err e => Err e
    | Ok (slice, (totalVolume, total)) =>
        Ok {|
          AH_Aggregates := Agg_set_volume (Z_to_string totalVolume) total;
          AH_IntervalSize := intervalSize;
          AH_Intervals := padTo Agg_blank Agg_set_times times slice n;
          AH_StartTime := startTime;
          AH_EndTime := endTime;
        |}
    end.

Definition Aggregate (p : AggregateParams) : M D AggregatesHistogram :=
  let lp := AG_ListParams p in
  startTime ← if IsZero (LP_StartTime lp) then getFirstTransactionTime (AG_ChainIDs p)
              else mret (LP_StartTime lp);
  n ← lift_result (interval_count startTime (LP_EndTime lp) (AG_IntervalSize p));
  intervals ← select (aggregate_query p startTime n);
  lift_result (aggregate_histogram startTime (LP_EndTime lp) (AG_IntervalSize p) n intervals).

(** ** TxfeeAggregate *)
Definition Fee_blank (i : Z) : TxfeeAggregates := mkTxfeeAggregates i zero_time zero_time "".
Definition Fee_set_times (t : Z * Z) (a : TxfeeAggregates) : TxfeeAggregates :=
  mkTxfeeAggregates (Fee_Idx a) t.1 t.2 (Fee_Txfee a).

Definition txfee_where (p : TxfeeAggregateParams) (startTime : Z) (r : row) : bool :=
  created_between startTime (LP_EndTime (TF_ListParams p)) r && of_chains (TF_ChainIDs p) r.

Definition txfee_query (p : TxfeeAggregateParams) (startTime n : Z) (c : content) : list TxfeeAggregates :=
  let l := List.filter (txfee_where p startTime) (c TableTransactions) in
  let columns i l := mkTxfeeAggregates i zero_time zero_time (Z_to_string (sum_col "txfee" l)) in
  if (0 <? n)%Z then
    let key := interval_idx startTime (interval_seconds (TF_IntervalSize p)) in
    map (λ i, columns i (group key l i)) (limit_rows n (groups_of key l))
  else [columns 0%Z l].

Definition Fee_accumulate (totalVolume : Z) (a : TxfeeAggregates) : result Z :=
  match big_SetString (Fee_Txfee a) with
  | None => Err ErrFailedToParseStringAsBigInt
  | Some v => Ok (totalVolume + v)%Z
  end.

Definition txfee_histogram (startTime endTime intervalSize n : Z) (intervals : list TxfeeAggregates)
    : result TxfeeAggregatesHistogram :=
  if (n =? 0)%Z then
    match intervals with
    | i :: _ => Ok (mkTxfeeAggregatesHistogram (Fee_set_times (startTime, endTime) i) 0 [] startTime endTime)
    | [] => Ok (mkTxfeeAggregatesHistogram (Fee_blank 0) 0 [] startTime endTime)
    end
  else
    let times := timesForInterval startTime (interval_seconds intervalSize) in
    match collect_intervals Fee_Idx Fee_blank Fee_set_times times Fee_accumulate intervals [] 0%Z with
    | Err e => Err e
    | Ok (slice, totalVolume) =>
        Ok {|
          FH_TxfeeAggregates := mkTxfeeAggregates 0 startTime endTime (Z_to_string totalVolume);
          FH_IntervalSize := intervalSize;
          FH_Intervals := padTo Fee_blank Fee_set_times times slice n;
          FH_StartTime := startTime;
          FH_EndTime := endTime;
        |}
    end.

Definition TxfeeAggregate (p : TxfeeAggregateParams) : M D TxfeeAggregatesHistogram :=
  let lp := TF_ListParams p in
  startTime ← if IsZero (LP_StartTime lp) then getFirstTransactionTime (TF_ChainIDs p)
              else mret (LP_StartTime lp);
  n ← lift_result (interval_count startTime (LP_EndTime lp) (TF_IntervalSize p));
  intervals ← select (txfee_query p startTime n);
  lift_result (txfee_histogram startTime (LP_EndTime lp) (TF_IntervalSize p) n intervals).
End aggregates.
