(* ===== verification/ReaderFacts.v ===== *)
(** The histograms of the reader against their meaning: one record for each
    interval, with what the tables hold for it. *)

From S2P Require Import Prelude Errors Sql MemDb DbModel Axia GoText Params ParamsFacts Query ReaderAggregates.
From Stdlib Require Import SpecFloat.

(** * The loop over the intervals *)
Section intervals.
Context {A T : Type} (idx : A → Z) (blank : Z → A) (set_times : Z * Z → A → A)
  (times : Z → Z * Z) (accumulate : T → A → result T).

(** [g] is the slice to build. *)
Context (g : Z → A).
Definition filled (m : Z) : list A := map g (seqZ 0 m).
Definition missing_from (m to : Z) : Prop := ∀ i, (m ≤ i < to)%Z → g i = set_times (times i) (blank i).

Lemma filled_length m : (0 ≤ m)%Z → Z.of_nat (length (filled m)) = m.
Proof. intros ?. unfold filled. rewrite length_map, length_seqZ. lia. Qed.

Lemma filled_snoc m : (0 ≤ m)%Z → filled (m + 1) = filled m ++ [g m].
Proof. intros ?. unfold filled. rewrite seqZ_app by lia. rewrite map_app. done. Qed.

Lemma pad_filled k m :
  (0 ≤ m)%Z → missing_from m (m + Z.of_nat k) → pad blank set_times times k (filled m) = filled (m + Z.of_nat k).
Proof.
  revert m. induction k as [|k IH]; intros m Hm Hmiss; simpl; [by rewrite Z.add_0_r|].
  rewrite filled_length by done. rewrite <-Hmiss by lia. rewrite <-filled_snoc by done.
  rewrite IH; [|lia|]; [f_equal; lia|]. intros i Hi. apply Hmiss. lia.
Qed.

Lemma padTo_filled m to :
  (0 ≤ m)%Z → missing_from m to → padTo blank set_times times (filled m) to = filled (Z.max m to).
Proof.
  intros Hm Hmiss. unfold padTo. rewrite filled_length by done. rewrite pad_filled; [f_equal; lia|done|].
  intros i Hi. apply Hmiss. lia.
Qed.

Lemma collect_filled intervals m n total slice' total' :
  (0 ≤ m ≤ n)%Z →
  StronglySorted Z.lt (map idx intervals) →
  (∀ x, x ∈ intervals → (m ≤ idx x < n)%Z ∧ g (idx x) = set_times (times (idx x)) x) →
  (∀ i, (m ≤ i < n)%Z → i ∉ map idx intervals → g i = set_times (times i) (blank i)) →
  collect_intervals idx blank set_times times accumulate intervals (filled m) total = Ok (slice', total') →
  ∃ m', (m ≤ m' ≤ n)%Z ∧ slice' = filled m' ∧ missing_from m' n.
Proof.
  revert m total. induction intervals as [|x l IH]; intros m total Hm Hs Hg Hb; simpl.
  { intros [= <- <-]. exists m. split_and!; [lia|lia|done|]. intros i Hi. apply Hb; [done|]. by intros ?%elem_of_nil. }
  simpl in Hs. apply StronglySorted_inv in Hs as [Hs Hx]. rewrite Forall_forall in Hx.
  destruct (Hg x ltac:(left)) as [Hxm Hgx].
  rewrite padTo_filled; [|lia|]; cycle 1.
  { intros i Hi. apply Hb; [lia|]. simpl. rewrite not_elem_of_cons. split; [lia|].
    intros Hin. apply Hx in Hin. lia. }
  destruct (accumulate total _) as [tot|e]; [|done].
  rewrite <-Hgx. replace (Z.max m (idx x)) with (idx x) by lia. rewrite <-filled_snoc by lia. intros Hc.
  destruct (IH (idx x + 1)%Z tot) as (m' & Hm' & -> & Hmiss); [lia|done| | |done|].
  - intros y Hy. destruct (Hg y ltac:(by right)) as [Hym Hgy]. split; [|done].
    assert (idx x < idx y)%Z; [|lia]. apply Hx. by apply list_elem_of_fmap_2.
  - intros i Hi Hni. apply Hb; [lia|]. simpl. rewrite not_elem_of_cons. split; [lia|done].
  - exists m'. split_and!; [lia|lia|done|done].
Qed.

(** The counts add up the intervals in order. *)
Lemma collect_total intervals slice total slice' total' :
  collect_intervals idx blank set_times times accumulate intervals slice total = Ok (slice', total') →
  foldl (λ t x, t ≫= λ t, accumulate t (set_times (times (idx x)) x)) (Ok total) intervals = Ok total'.
Proof.
  revert slice total. induction intervals as [|x l IH]; intros slice total; simpl; [by intros [= _ ->]|].
  destruct (accumulate total _) as [tot|e] eqn:E; [|done]. intros Hc%IH. rewrite <-Hc. by f_equal.
Qed.
End intervals.

(** * The division of whole seconds

    [float64 n / float64 k], rounded up: the rounding of the division to 53 bits does
    not change the number of intervals. *)
Section division.
#[local] Open Scope Z_scope.

Lemma digits_spec p : 2 ^ (Zpos (digits2_pos p) - 1) ≤ Zpos p < 2 ^ Zpos (digits2_pos p).
Proof.
  induction p as [p IH|p IH|]; cbn [digits2_pos]; [..|done].
  all: rewrite Pos2Z.inj_succ; replace (Z.succ (Zpos (digits2_pos p)) - 1) with (Z.succ (Zpos (digits2_pos p) - 1)) by lia;
    rewrite !Z.pow_succ_r by lia; lia.
Qed.

(** [mrs] is the value [N / Q]: its floor, and where it is in the unit above. *)
Definition represents (mrs : shr_record) (N Q : Z) : Prop :=
  0 ≤ shr_m mrs ∧ shr_m mrs * Q ≤ N < (shr_m mrs + 1) * Q ∧
  match loc_of_shr_record mrs with
  | loc_Exact => N = shr_m mrs * Q
  | loc_Inexact c => N ≠ shr_m mrs * Q ∧ c = (2 * (N - shr_m mrs * Q) ?= Q)
  end.

Lemma represents_shr_1 mrs N Q : 0 < Q → represents mrs N Q → represents (shr_1 mrs) N (2 * Q).
Proof.
  intros HQ (Hm & Hb & Hl). destruct mrs as [m r s]. cbn [shr_m] in *. unfold shr_1.
  assert (r || s = true ↔ N ≠ m * Q) as Hrs.
  { destruct r, s; cbn in Hl |- *; intuition congruence. }
  destruct m as [|[p|p|]|p]; try lia; (split; [cbn; lia|]); (split; [cbn [shr_m]; lia|]);
    cbn [shr_m loc_of_shr_record]; destruct (r || s);
    try (assert (N ≠ _) as Hn by (by apply Hrs)); 
    try (assert (¬ N ≠ _) as Hn by (rewrite <-Hrs; done));
    first [split; [lia|symmetry; first [apply Z.compare_lt_iff; lia|apply Z.compare_eq_iff; lia|apply Z.compare_gt_iff; lia]] | lia].
Qed.

Lemma represents_shr n mrs N Q :
  0 < Q → represents mrs N Q → represents (iter_pos shr_1 n mrs) N (2 ^ Zpos n * Q).
Proof.
  revert mrs Q. induction n as [n IH|n IH|]; intros mrs Q HQ Hr; cbn [iter_pos].
  - replace (2 ^ Zpos n~1 * Q) with (2 ^ Zpos n * (2 ^ Zpos n * (2 * Q)))
      by (rewrite (Pos2Z.inj_xI n), Z.pow_add_r, Z.pow_twice_r by lia; lia).
    apply IH; [lia|]. apply IH; [lia|]. by apply represents_shr_1.
  - replace (2 ^ Zpos n~0 * Q) with (2 ^ Zpos n * (2 ^ Zpos n * Q))
      by (rewrite (Pos2Z.inj_xO n), Z.pow_twice_r; lia).
    apply IH; [lia|]. by apply IH.
  - change (2 ^ 1) with 2. by apply represents_shr_1.
Qed.

(** Rounding to the nearest: up by one at most, and only what is not exact. *)
Lemma round_up mrs N Q :
  0 < Q → represents mrs N Q →
  let m := round_nearest_even (shr_m mrs) (loc_of_shr_record mrs) in
  (m = N / Q ∨ m = N / Q + 1) ∧ (m - 1) * Q < N ∧ (m * Q ≤ N ∨ N mod Q ≠ 0).
Proof.
  intros HQ (Hm & Hb & Hl). assert (N / Q = shr_m mrs) as -> by (symmetry; apply (Z.div_unique_pos _ _ _ (N - shr_m mrs * Q)); lia).
  assert (N mod Q = N - shr_m mrs * Q) as -> by (symmetry; apply (Z.mod_unique_pos _ _ (shr_m mrs)); lia).
  unfold round_nearest_even. destruct (loc_of_shr_record mrs) as [|[]]; try destruct (Z.even _); split_and!; lia.
Qed.

Lemma fexp_max e : fexp 53 1024 e = Z.max (e - 53) (-1074).
Proof. done. Qed.

(** The shift to 53 bits. *)
Lemma shr_fexp_spec m e l N Q :
  0 < Q → 0 < m → represents (shr_record_of_loc m l) N Q → -1074 ≤ e →
  ∃ mrs n, shr_fexp 53 1024 m e l = (mrs, e + n) ∧ 0 ≤ n ∧ represents mrs N (2 ^ n * Q) ∧ shr_m mrs < 2 ^ 53 ∧
    (n = 0 ∨ 2 ^ (n + 52) ≤ m).
Proof.
  intros HQ Hm Hr He. destruct m as [|p|]; [lia| |lia]. unfold shr_fexp. cbn [Zdigits2]. rewrite fexp_max.
  destruct (digits_spec p) as [Hd1 Hd2]. set (d := Zpos (digits2_pos p)) in *.
  assert (shr_m (shr_record_of_loc (Zpos p) l) = Zpos p) as Hsm by (by destruct l as [|[]]).
  destruct (Z.max (d + e - 53) (-1074) - e) as [|n|n] eqn:En; cbn [shr].
  - exists (shr_record_of_loc (Zpos p) l), 0. rewrite Z.add_0_r, Z.mul_1_l, Hsm. split_and!; [done|lia|done| |by left].
    apply (Z.lt_le_trans _ _ _ Hd2), Z.pow_le_mono_r; lia.
  - exists (iter_pos shr_1 n (shr_record_of_loc (Zpos p) l)), (Zpos n).
    pose proof (represents_shr n _ _ _ HQ Hr) as Hr'. split_and!; [done|lia|done| |].
    + destruct Hr' as (_ & [Hb _] & _). destruct Hr as (_ & [_ Hb'] & _). rewrite Hsm in Hb'.
      assert (Zpos p < 2 ^ (53 + Zpos n)) as Hp.
      { apply (Z.lt_le_trans _ _ _ Hd2), Z.pow_le_mono_r; lia. }
      rewrite Z.pow_add_r in Hp by lia.
      set (x := shr_m (iter_pos shr_1 n _)) in *.
      destruct (Z.lt_ge_cases x (2 ^ 53)) as [|Hge]; [done|]. exfalso.
      assert (2 ^ 53 * (2 ^ Zpos n * Q) ≤ x * (2 ^ Zpos n * Q)) by (apply Z.mul_le_mono_nonneg_r; lia).
      assert ((Zpos p + 1) * Q ≤ 2 ^ 53 * 2 ^ Zpos n * Q) by (apply Z.mul_le_mono_nonneg_r; lia). lia.
    + right. transitivity (2 ^ (d - 1)); [apply Z.pow_le_mono_r; lia|done].
  - exists (shr_record_of_loc (Zpos p) l), 0. rewrite Z.add_0_r, Z.mul_1_l, Hsm. split_and!; [done|lia|done| |by left].
    apply (Z.lt_le_trans _ _ _ Hd2), Z.pow_le_mono_r; lia.
Qed.

Lemma represents_exact m : 0 ≤ m → represents (shr_record_of_loc m loc_Exact) m 1.
Proof. intros Hm. unfold represents. cbn. lia. Qed.

(** The rounding of [N / Q], at the exponent [e]: a float of the rounded floor. *)
Lemma round_aux_spec m e l N Q :
  0 < Q → 0 < m < 2 ^ 200 → represents (shr_record_of_loc m l) N Q → -1074 ≤ e ≤ 0 →
  ∃ n p e' m',
    binary_round_aux 53 1024 false m e l = S754_finite false p e' ∧ 0 ≤ n ∧ (n = 0 ∨ 2 ^ (n + 52) ≤ m) ∧
    (e' = e + n ∧ m' = Zpos p ∨ e' = e + n + 1 ∧ m' = 2 * Zpos p) ∧
    (m' - 1) * (2 ^ n * Q) < N ∧ (m' = N / (2 ^ n * Q) ∨ m' = N / (2 ^ n * Q) + 1) ∧
    (m' * (2 ^ n * Q) ≤ N ∨ N mod (2 ^ n * Q) ≠ 0).
Proof.
  intros HQ Hm Hr He. unfold binary_round_aux.
  destruct (shr_fexp_spec m e l N Q HQ ltac:(lia) Hr ltac:(lia)) as (mrs & n & -> & Hn & Hr' & H53 & Hbig).
  assert (0 < 2 ^ n * Q) as HQ' by (apply Z.mul_pos_pos; [by apply Z.pow_pos_nonneg|done]).
  destruct (round_up mrs N _ HQ' Hr') as (Hfl & Hup & Hex).
  assert (0 < shr_m mrs) as Hpos.
  { destruct (Z.lt_ge_cases 0 (shr_m mrs)) as [|Hle]; [done|]. destruct Hr' as (? & [_ Hlt] & _).
    assert (shr_m mrs = 0) as E0 by lia. rewrite E0 in Hlt. exfalso.
    destruct Hr as (_ & [Hge _] & _).
    assert (shr_m (shr_record_of_loc m l) = m) as Em by (by destruct l as [|[]]). rewrite Em in Hge.
    assert (m * Q < 2 ^ n * Q) as Hmq by lia. assert (m < 2 ^ n) as Hmn by (by apply Z.mul_lt_mono_pos_r in Hmq).
    destruct Hbig as [->|Hbig]; [simpl in Hmn; lia|].
    assert (2 ^ n ≤ 2 ^ (n + 52)) by (apply Z.pow_le_mono_r; lia). lia. }
  assert (n ≤ 148) as Hn148.
  { destruct Hbig as [->|Hbig]; [lia|]. destruct (Z.le_gt_cases n 148) as [|Hgt]; [done|].
    assert (2 ^ 200 ≤ 2 ^ (n + 52)) by (apply Z.pow_le_mono_r; lia). lia. }
  assert (N / (2 ^ n * Q) = shr_m mrs) as Efl.
  { destruct Hr' as (? & ? & _). symmetry. apply (Z.div_unique_pos _ _ _ (N - shr_m mrs * (2 ^ n * Q))); lia. }
  set (m1 := round_nearest_even (shr_m mrs) (loc_of_shr_record mrs)) in *.
  destruct (shr_fexp_spec m1 (e + n) loc_Exact m1 1 ltac:(lia) ltac:(lia)
    (represents_exact m1 ltac:(lia)) ltac:(lia)) as (mrs2 & n2 & -> & Hn2 & Hr2 & H53' & Hbig2).
  assert (shr_m mrs2 = m1 ∧ n2 = 0 ∨ 2 * shr_m mrs2 = m1 ∧ n2 = 1) as Hcase.
  { destruct Hbig2 as [->|Hbig2]; destruct Hr2 as (? & Hb2 & _); [left; simpl in Hb2; lia|].
    assert (n2 ≤ 1) as Hle1.
    { destruct (Z.le_gt_cases n2 1) as [|Hgt]; [done|].
      assert (2 ^ 54 ≤ 2 ^ (n2 + 52)) by (apply Z.pow_le_mono_r; lia). lia. }
    assert (n2 = 0 ∨ n2 = 1) as [-> | ->] by lia; [left; simpl in Hb2; lia|right].
    change (2 ^ (1 + 52)) with (2 ^ 53) in Hbig2. assert (m1 = 2 ^ 53) as E1 by lia. rewrite E1 in Hb2 |- *.
    change (2 ^ 1 * 1) with 2 in Hb2. lia. }
  destruct (shr_m mrs2) as [|p|p] eqn:Ep; [lia| |lia].
  assert ((e + n + n2 <=? 1024 - 53) = true) as -> by (apply Z.leb_le; lia).
  exists n, p, (e + n + n2), m1. split_and!; try done. destruct Hcase as [[? ->]|[? ->]]; [left|right]; lia.
Qed.

Lemma iter_xO d p : Zpos (Pos.iter xO p d) = Zpos p * 2 ^ Zpos d.
Proof.
  induction d as [|d IH] using Pos.peano_ind; [cbn; lia|].
  rewrite Pos.iter_succ, Pos2Z.inj_xO, IH, Pos2Z.inj_succ, Z.pow_succ_r by lia. lia.
Qed.

Lemma digits_unique p d : 0 < d → 2 ^ (d - 1) ≤ Zpos p < 2 ^ d → Zpos (digits2_pos p) = d.
Proof.
  intros Hd [H1 H2]. destruct (digits_spec p) as [H3 H4].
  assert (d - 1 < Zpos (digits2_pos p)) by (apply (Z.pow_lt_mono_r_iff 2); lia).
  assert (Zpos (digits2_pos p) - 1 < d) by (apply (Z.pow_lt_mono_r_iff 2); lia). lia.
Qed.

(** A whole number of 53 bits is a float. *)
Lemma float64_whole D :
  0 < D < 2 ^ 53 →
  ∃ m d, float64 D = S754_finite false m (d - 53) ∧ 1 ≤ d ≤ 53 ∧ Zpos m = D * 2 ^ (53 - d) ∧
    Zpos (digits2_pos m) = 53 ∧ 2 ^ (d - 1) ≤ D < 2 ^ d.
Proof.
  intros HD. destruct D as [|p|]; [lia| |lia]. unfold float64, binary_normalize, binary_round.
  destruct (digits_spec p) as [Hd1 Hd2]. set (d := Zpos (digits2_pos p)) in *.
  assert (1 ≤ d) by (subst d; lia).
  assert (d ≤ 53).
  { assert (d - 1 < 53); [|lia]. apply (Z.pow_lt_mono_r_iff 2); lia. }
  rewrite fexp_max. replace (Z.max (d + 0 - 53) (-1074)) with (d - 53) by lia.
  unfold shl_align. rewrite Z.sub_0_r.
  assert (∃ m, (match d - 53 with Zneg k => (Pos.iter xO p k, d - 53) | _ => (p, 0) end) = (m, d - 53) ∧
    Zpos m = Zpos p * 2 ^ (53 - d)) as (m & -> & Em).
  { destruct (d - 53) as [|k|k] eqn:Ek; [|lia|].
    - exists p. split; [done|]. replace (53 - d) with 0 by lia. lia.
    - exists (Pos.iter xO p k). split; [done|]. rewrite iter_xO. by replace (53 - d) with (Zpos k) by lia. }
  assert (Zpos (digits2_pos m) = 53) as Edm.
  { apply digits_unique; [lia|]. rewrite Em. change (53 - 1) with 52.
    replace (2 ^ 52) with (2 ^ (d - 1) * 2 ^ (53 - d)) by (rewrite <-Z.pow_add_r by lia; f_equal; lia).
    replace (2 ^ 53) with (2 ^ d * 2 ^ (53 - d)) by (rewrite <-Z.pow_add_r by lia; f_equal; lia).
    split; [apply Z.mul_le_mono_nonneg_r; [by apply Z.pow_nonneg|done]|
            apply Z.mul_lt_mono_pos_r; [apply Z.pow_pos_nonneg; lia|done]]. }
  exists m, d. split_and!; try done.
  unfold binary_round_aux, shr_fexp. cbn [Zdigits2]. rewrite Edm, fexp_max.
  replace (Z.max (53 + (d - 53) - 53) (-1074) - (d - 53)) with 0 by lia. cbn [shr shr_record_of_loc shr_m loc_of_shr_record round_nearest_even Zdigits2].
  rewrite Edm, fexp_max. replace (Z.max (53 + (d - 53) - 53) (-1074) - (d - 53)) with 0 by lia.
  cbn [shr shr_m shr_record_of_loc]. by replace (d - 53 <=? 1024 - 53) with true by (symmetry; apply Z.leb_le; lia).
Qed.

(** The remainder of the division, as a place in the unit. *)
Lemma new_location_spec q r k : 0 < k → 0 ≤ q → 0 ≤ r < k →
  represents (shr_record_of_loc q (new_location k r)) (q * k + r) k.
Proof.
  intros Hk Hq Hr. unfold new_location, new_location_even, new_location_odd.
  assert (∀ c, (2 * r ?= k) = c → r ≠ 0 → represents (shr_record_of_loc q (loc_Inexact c)) (q * k + r) k) as Hc.
  { intros c Ec Hr0. unfold represents. replace (shr_m (shr_record_of_loc q (loc_Inexact c))) with q by (by destruct c).
    replace (loc_of_shr_record _) with (loc_Inexact c) by (by destruct c).
    split; [done|]. split; [lia|]. split; [lia|]. rewrite <-Ec. f_equal. lia. }
  destruct (Z.even k) eqn:Ek; (destruct (Z.eqb_spec r 0) as [->|Hr0]; [unfold represents; cbn; lia|]); [by apply Hc|].
  assert (2 * r ≠ k) as Hne by (intros <-; rewrite Z.even_mul in Ek; done).
  apply Hc; [|done]. destruct (Z.compare_spec (2 * r + 1) k) as [E|E|E];
    [apply Z.compare_lt_iff; lia|apply Z.compare_lt_iff; lia|apply Z.compare_gt_iff; lia].
Qed.

Lemma fceil_spec p e c :
  e ≤ 0 → (c - 1) * 2 ^ (- e) < Zpos p ≤ c * 2 ^ (- e) → fceil (S754_finite false p e) = c.
Proof.
  intros He Hc. unfold fceil, fabs_trunc. destruct (Z.leb_spec 0 e).
  - assert (e = 0) as -> by lia. change (2 ^ (- 0)) with 1 in Hc. change (2 ^ 0) with 1. simpl. lia.
  - rewrite (proj2 (Z.ltb_lt e 0)) by done. cbn [andb].
    assert (0 < 2 ^ (- e)) as Hp by (apply Z.pow_pos_nonneg; lia).
    pose proof (Z.div_mod (Zpos p) (2 ^ (- e)) ltac:(lia)) as Ed.
    pose proof (Z.mod_pos_bound (Zpos p) (2 ^ (- e)) Hp) as Hm.
    set (x := Zpos p / 2 ^ (- e)) in *. set (y := Zpos p mod 2 ^ (- e)) in *.
    destruct (Z.eqb_spec y 0) as [Hy|Hy]; cbn [negb]; nia.
Qed.

Lemma ceil_division D k :
  0 < D < 2 ^ 52 → 0 < k < 2 ^ 52 → fceil (fdiv (float64 D) (float64 k)) = (D + k - 1) / k.
Proof.
  intros HD Hk.
  destruct (float64_whole D ltac:(lia)) as (m1 & d1 & -> & Hd1 & Em1 & Eg1 & _).
  destruct (float64_whole k ltac:(lia)) as (m2 & d2 & -> & Hd2 & Em2 & Eg2 & _ & Hk2).
  unfold fdiv, SFdiv, SFdiv_core_binary. cbn [Zdigits2]. rewrite Eg1, Eg2, fexp_max.
  replace (Z.min _ _) with (d1 - d2 - 53) by lia.
  replace (d1 - 53 - (d2 - 53) - (d1 - d2 - 53)) with 53 by lia. cbv beta iota zeta.
  rewrite Z.shiftl_mul_pow2 by lia.
  change (Z.div_eucl ?a ?b) with (Z.div_eucl a b).
  destruct (Z.div_eucl (Zpos m1 * 2 ^ 53) (Zpos m2)) as [q r] eqn:Eqr.
  pose proof (Z_div_mod (Zpos m1 * 2 ^ 53) (Zpos m2) ltac:(lia)) as Hqr. rewrite Eqr in Hqr. destruct Hqr as [EN Hr].
  assert (Zpos m1 < 2 ^ 53) as Hm1 by (pose proof (digits_spec m1) as [_ H1]; by rewrite Eg1 in H1).
  assert (Zpos m2 < 2 ^ 53) as Hm2 by (pose proof (digits_spec m2) as [_ H1]; by rewrite Eg2 in H1).
  assert (0 < q < 2 ^ 200) as Hq.
  { split; [|].
    - destruct (Z.lt_ge_cases 0 q) as [|Hle]; [done|]. assert (Zpos m2 * q ≤ 0) by (apply Z.mul_nonneg_nonpos; lia). lia.
    - assert (1 * q ≤ Zpos m2 * q ∨ q < 0).
      { destruct (Z.lt_ge_cases q 0); [by right|left]. apply Z.mul_le_mono_nonneg_r; [assumption|apply Pos.le_1_l]. }
      assert (Zpos m1 * 2 ^ 53 < 2 ^ 53 * 2 ^ 53) by (by apply Z.mul_lt_mono_pos_r).
      assert (2 ^ 53 * 2 ^ 53 < 2 ^ 200) by done. assert (0 < 2 ^ 200) by done.
      generalize dependent (2 ^ 200). intros. lia. }
  assert (represents (shr_record_of_loc q (new_location (Zpos m2) r)) (Zpos m1 * 2 ^ 53) (Zpos m2)) as Hrep.
  { replace (Zpos m1 * 2 ^ 53) with (q * Zpos m2 + r) by lia. apply new_location_spec; lia. }
  change (xorb false false) with false.
  destruct (round_aux_spec q (d1 - d2 - 53) _ (Zpos m1 * 2 ^ 53) (Zpos m2) ltac:(lia) Hq Hrep ltac:(lia))
    as (n & p & e' & m' & -> & Hn & Hbig & Hm' & Hup & Hfl & _).
  set (N := Zpos m1 * 2 ^ 53) in *.
  (* the quotient, without fractions *)
  assert (N * k = D * Zpos m2 * 2 ^ (53 + d2 - d1)) as EN1.
  { subst N. rewrite Em1, Em2.
    replace (D * 2 ^ (53 - d1) * 2 ^ 53 * k) with (D * k * (2 ^ (53 - d1) * 2 ^ 53)) by lia.
    replace (D * (k * 2 ^ (53 - d2)) * 2 ^ (53 + d2 - d1)) with (D * k * (2 ^ (53 - d2) * 2 ^ (53 + d2 - d1))) by lia.
    rewrite <-!Z.pow_add_r by lia. do 2 f_equal. lia. }
  assert (0 < 2 ^ n) as Hpn by (by apply Z.pow_pos_nonneg).
  (* the exponent *)
  assert (n < 53 + d2 - d1 ∧ k ≤ 2 ^ (53 + d2 - d1 - n)) as [Hj Hkj].
  { destruct Hbig as [->|Hbig].
    - split; [lia|]. rewrite Z.sub_0_r. transitivity (2 ^ d2); [lia|]. apply Z.pow_le_mono_r; lia.
    - assert (2 ^ (n + 52) * Zpos m2 ≤ N) as H1.
      { transitivity (q * Zpos m2); [apply Z.mul_le_mono_nonneg_r; lia|lia]. }
      assert (2 ^ (n + 52) * k ≤ D * 2 ^ (53 + d2 - d1)) as H2.
      { apply (Z.mul_le_mono_pos_r _ _ (Zpos m2)); [lia|].
        replace (D * 2 ^ (53 + d2 - d1) * Zpos m2) with (N * k) by lia.
        replace (2 ^ (n + 52) * k * Zpos m2) with (2 ^ (n + 52) * Zpos m2 * k) by lia.
        apply Z.mul_le_mono_nonneg_r; lia. }
      rewrite Z.pow_add_r in H2 by lia.
      assert (2 ^ 52 * (2 ^ n * k) < 2 ^ 52 * 2 ^ (53 + d2 - d1)) as H3.
      { apply (Z.le_lt_trans _ (D * 2 ^ (53 + d2 - d1))); [lia|]. apply Z.mul_lt_mono_pos_r; [apply Z.pow_pos_nonneg; lia|lia]. }
      apply Z.mul_lt_mono_pos_l in H3; [|done].
      assert (n < 53 + d2 - d1) as Hlt.
      { apply (Z.pow_lt_mono_r_iff 2); [lia|lia|]. apply (Z.le_lt_trans _ (2 ^ n * k)); [|done].
        rewrite <-(Z.mul_1_r (2 ^ n)) at 1. apply Z.mul_le_mono_nonneg_l; lia. }
      split; [done|]. apply (Z.mul_le_mono_pos_l _ _ (2 ^ n)); [done|]. rewrite <-Z.pow_add_r by lia.
      replace (n + (53 + d2 - d1 - n)) with (53 + d2 - d1) by lia. lia. }
  set (j := 53 + d2 - d1 - n) in *. set (c := (D + k - 1) / k).
  assert ((c - 1) * k < D ≤ c * k) as Hc.
  { pose proof (Z.div_mod (D + k - 1) k ltac:(lia)) as E1. pose proof (Z.mod_pos_bound (D + k - 1) k ltac:(lia)) as E2.
    fold c in E1. lia. }
  assert (0 < 2 ^ j) as Hpj by (apply Z.pow_pos_nonneg; lia).
  set (R := 2 ^ n * Zpos m2) in *. assert (0 < R) as HR by (apply Z.mul_pos_pos; lia).
  assert (N * k = D * 2 ^ j * R) as EN2.
  { rewrite EN1. subst R. replace (53 + d2 - d1) with (j + n) by lia. rewrite Z.pow_add_r by lia. lia. }
  assert ((c - 1) * 2 ^ j < m' ≤ c * 2 ^ j) as Hmc.
  { split.
    - assert (((c - 1) * 2 ^ j + 1) * R ≤ N) as H1.
      { apply (Z.mul_le_mono_pos_r _ _ k); [lia|]. rewrite EN2.
        transitivity (((c - 1) * k + 1) * (2 ^ j * R)).
        - replace (((c - 1) * 2 ^ j + 1) * R * k) with ((c - 1) * k * (2 ^ j * R) + k * R) by lia.
          replace (((c - 1) * k + 1) * (2 ^ j * R)) with ((c - 1) * k * (2 ^ j * R) + 2 ^ j * R) by lia.
          assert (k * R ≤ 2 ^ j * R) by (apply Z.mul_le_mono_nonneg_r; lia). lia.
        - rewrite <-(Z.mul_assoc D). apply Z.mul_le_mono_nonneg_r; [|lia]. apply Z.mul_nonneg_nonneg; lia. }
      assert ((c - 1) * 2 ^ j + 1 ≤ N / R); [|lia]. apply Z.div_le_lower_bound; lia.
    - assert ((m' - 1) * R < c * 2 ^ j * R) as H1.
      { apply (Z.lt_le_trans _ N); [lia|]. apply (Z.mul_le_mono_pos_r _ _ k); [lia|]. rewrite EN2.
        replace (c * 2 ^ j * R * k) with (c * k * (2 ^ j * R)) by lia. rewrite <-(Z.mul_assoc D).
        apply Z.mul_le_mono_nonneg_r; [apply Z.mul_nonneg_nonneg; lia|lia]. }
      apply Z.mul_lt_mono_pos_r in H1; lia. }
  destruct Hm' as [[-> ->]|[-> ->]].
  - apply fceil_spec; [lia|]. by replace (- (d1 - d2 - 53 + n)) with j by lia.
  - apply fceil_spec; [lia|]. replace (- (d1 - d2 - 53 + n + 1)) with (j - 1) by lia.
    replace (2 ^ j) with (2 * 2 ^ (j - 1)) in Hmc; [lia|]. rewrite <-Z.pow_succ_r by lia. f_equal. lia.
Qed.
End division.

Lemma Duration_Seconds_whole n : (0 ≤ n)%Z → Duration_Seconds (n * Second) = float64 n.
Proof.
  intros Hn. unfold Duration_Seconds. rewrite Z.quot_mul, Z.rem_mul by done.
  change (fdiv (float64 0) (float64 (10 ^ 9))) with (S754_zero false). unfold fadd, SFadd.
  destruct (float64 n) as [[]|[]| |] eqn:E; try done.
  (* a negative zero is not a whole number of seconds *)
  destruct n as [|p|p]; [done| |lia]. exfalso. revert E. unfold float64, binary_normalize, binary_round, binary_round_aux.
  repeat case_match; done.
Qed.

Lemma interval_seconds_whole k : (0 < k < 2 ^ 53)%Z → interval_seconds (k * Second) = k.
Proof.
  intros Hk. unfold interval_seconds. rewrite Duration_Seconds_whole by lia.
  destruct (float64_whole k Hk) as (m & d & -> & Hd & Em & _). unfold ftrunc, fabs_trunc.
  destruct (Z.leb_spec 0 (d - 53)).
  - replace (d - 53)%Z with 0%Z by lia. rewrite Em. replace (53 - d)%Z with 0%Z by lia. lia.
  - rewrite Em. replace (- (d - 53))%Z with (53 - d)%Z by lia. apply Z.div_mul. apply Z.pow_nonzero; lia.
Qed.

(** A range that ends before it starts has no interval of its own. *)
Lemma fceil_negative m e l : (fceil (binary_round_aux 53 1024 true m e l) ≤ 0)%Z.
Proof.
  unfold binary_round_aux. repeat case_match; cbn [fceil]; try lia.
  assert (∀ p e, (0 ≤ fabs_trunc p e)%Z) as Hf; [|pose proof (Hf p z0); lia].
  intros p' e'. unfold fabs_trunc. destruct (Z.leb_spec 0 e'); [apply Z.mul_nonneg_nonneg; [lia|by apply Z.pow_nonneg]|].
  apply Z.div_pos; [lia|]. apply Z.pow_pos_nonneg; lia.
Qed.

Lemma negative_division a k : (0 < a)%Z → (0 < k < 2 ^ 53)%Z → (fceil (fdiv (Duration_Seconds (- a * Second)) (float64 k)) ≤ 0)%Z.
Proof.
  intros Ha Hk. destruct (float64_whole k Hk) as (m2 & d2 & -> & _).
  unfold Duration_Seconds. rewrite Z.quot_mul, Z.rem_mul by done.
  change (fdiv (float64 0) (float64 (10 ^ 9))) with (S754_zero false).
  destruct a as [|p|p]; [lia| |lia]. change (- Zpos p)%Z with (Zneg p). unfold float64, binary_normalize, binary_round.
  destruct (shl_align _ _ _) as [mz ez]. unfold binary_round_aux at 1.
  repeat case_match; unfold fadd, SFadd, fdiv, SFdiv; cbn [fceil]; try lia.
  destruct (SFdiv_core_binary _ _ _ _ _ _) as [[q e0] l0]. apply fceil_negative.
Qed.

(** The number of intervals of whole seconds in a range of whole seconds. *)
Lemma interval_count_whole startTime endTime k :
  (startTime mod Second = 0)%Z → (endTime mod Second = 0)%Z →
  (- 2 ^ 63 ≤ endTime - startTime < 2 ^ 63)%Z → (0 < k)%Z → (k * Second < 2 ^ 63)%Z →
  let n := Z.max 1 ((endTime - startTime + k * Second - 1) / (k * Second)) in
  interval_count startTime endTime (k * Second) =
  if (MaxAggregateIntervalCount <? n)%Z then Err ErrAggregateIntervalCountTooLarge else Ok n.
Proof.
  intros Hs He Hr Hk Hk2 n. unfold interval_count.
  assert (Second = 1000000000)%Z as ES by done.
  assert (k < 2 ^ 52)%Z as Hk3 by lia. rewrite interval_seconds_whole by lia.
  destruct (Z.eqb_spec k 0); [lia|].
  assert (∃ D, (endTime - startTime = D * Second)%Z) as [D ED].
  { exists (endTime / Second - startTime / Second)%Z.
    pose proof (Z.div_mod endTime Second ltac:(done)). pose proof (Z.div_mod startTime Second ltac:(done)). lia. }
  unfold time_Sub. replace (Z.max _ _) with (D * Second)%Z by lia.
  rewrite (Duration_Seconds_whole k) by lia.
  assert (n = Z.max 1 ((D + k - 1) / k)) as En.
  { unfold n. f_equal. rewrite ED.
    assert (k * ((D + k - 1) / k) ≤ D + k - 1 < k * ((D + k - 1) / k) + k)%Z as Hq.
    { pose proof (Z.div_mod (D + k - 1) k ltac:(lia)). pose proof (Z.mod_pos_bound (D + k - 1) k ltac:(lia)). lia. }
    set (c := ((D + k - 1) / k)%Z) in *. symmetry.
    apply (Z.div_unique_pos _ _ _ (D * Second + k * Second - 1 - k * Second * c)). 
    - replace (k * Second * c)%Z with (k * c * Second)%Z by lia. split; lia.
    - lia. }
  destruct (Z.lt_trichotomy D 0) as [Hneg|[->|Hpos]].
  - pose proof (negative_division (- D) k ltac:(lia) ltac:(lia)) as Hc. rewrite Z.opp_involutive in Hc.
    assert (n = 1%Z) as ->.
    { rewrite En. assert ((D + k - 1) / k < 1)%Z by (apply Z.div_lt_upper_bound; lia). lia. }
    change (MaxAggregateIntervalCount <? 1)%Z with false.
    set (x := fceil _) in *. unfold MaxAggregateIntervalCount.
    rewrite (proj2 (Z.ltb_ge 20000 x)), (proj2 (Z.ltb_lt x 1)) by lia. done.
  - assert (n = 1%Z) as ->.
    { rewrite En. assert ((0 + k - 1) / k < 1)%Z by (apply Z.div_lt_upper_bound; lia). lia. }
    destruct (float64_whole k ltac:(lia)) as (m2 & d2 & -> & _). by vm_compute.
  - rewrite (Duration_Seconds_whole D), ceil_division by lia.
    assert (1 ≤ (D + k - 1) / k)%Z by (apply Z.div_le_lower_bound; lia).
    assert (n = (D + k - 1) / k)%Z as <- by lia.
    rewrite (proj2 (Z.ltb_ge n 1)) by lia. done.
Qed.

(** * Sums over groups *)
Lemma sum_groups {A} (f : A → Z) (key : A → Z) (l : list A) (ks : list Z) :
  NoDup ks → (∀ x, x ∈ l → key x ∈ ks) →
  sum_with f l = sum_with (λ k, sum_with f (group key l k)) ks.
Proof.
  intros Hnd. induction l as [|x l IH]; intros Hin; simpl.
  { rewrite sum_with_0; [done|]. done. }
  rewrite IH by (intros y Hy; apply Hin; by right).
  rewrite (sum_with_ext (λ k, sum_with f (group key (x :: l) k))
    (λ k, ((if (key x =? k)%Z then f x else 0) + sum_with f (group key l k))%Z)).
  2: { intros k _. unfold group. simpl. by destruct (key x =? k)%Z. }
  rewrite sum_with_add. f_equal. symmetry.
  rewrite (sum_with_unique (λ k, k) _ ks (key x)); [by rewrite Z.eqb_refl| |by apply Hin; left|].
  - by rewrite map_id.
  - intros k _ Hk. destruct (Z.eqb_spec (key x) k); congruence.
Qed.

Lemma big_SetString_to_string z : big_SetString (Z_to_string z) = Some z.
Proof.
  destruct (Z_to_string_shape z) as (t & Ht & Hr & Hs). unfold big_SetString. rewrite Hs.
  destruct t as [|c t]; [done|]. rewrite Hr. simpl. case_bool_decide; f_equal; lia.
Qed.

(** At most [n] groups, when the keys are among [0 .. n-1]. *)
Lemma limit_groups {A} (key : A → Z) (l : list A) n :
  (0 < n)%Z → (∀ x, x ∈ l → (0 ≤ key x < n)%Z) → limit_rows n (groups_of key l) = groups_of key l.
Proof.
  intros Hn Hk. unfold limit_rows. destruct (Z.eqb_spec n 0); [lia|].
  apply take_ge. replace (Z.to_nat n) with (length (seqZ 0 n)) by (rewrite length_seqZ; lia).
  apply submseteq_length, NoDup_submseteq; [apply groups_of_NoDup|].
  intros k (x & Hx & <-)%elem_of_groups_of. apply elem_of_seqZ. specialize (Hk x Hx). lia.
Qed.

(** * Aggregate *)
Section aggregate.
Context `{SqlEngine D} `{!SqlEngineOk D} `{!GoText} `{!AxiaIds}.

(** The interval of a joined row. *)
Definition row_interval (p : AggregateParams) (startTime : Z) (x : row * row) : Z :=
  interval_idx startTime (interval_seconds (AG_IntervalSize p)) x.1.

(** The record of an interval: what its rows add up to, or nothing but its times. *)
Definition interval_of (p : AggregateParams) (startTime : Z) (l : list (row * row)) (i : Z) : Aggregates :=
  Agg_set_times (timesForInterval startTime (interval_seconds (AG_IntervalSize p)) i)
    (match group (row_interval p startTime) l i with
     | [] => Agg_blank i
     | li => aggregate_columns i li
     end).

Lemma aggregate_rows_between p startTime c x :
  x ∈ aggregate_rows p startTime c →
  (startTime ≤ as_time (x.1 !! "created_at") < LP_EndTime (AG_ListParams p))%Z.
Proof.
  unfold aggregate_rows. rewrite list_elem_of_In, in_flat_map. intros (o & Ho & Hx).
  apply in_map_iff in Hx as (a & <- & _). apply filter_In in Ho as [_ Hw]. simpl.
  unfold aggregate_where, created_between in Hw.
  rewrite !andb_true_iff in Hw. destruct Hw as [[[?%Z.leb_le ?%Z.ltb_lt] _] _]. done.
Qed.

(** The interval of a row that the range covers. *)
Lemma interval_idx_range startTime sec n r :
  (startTime mod Second = 0)%Z → (0 < sec)%Z →
  (startTime ≤ as_time (r !! "created_at") < startTime + n * sec * Second)%Z →
  (0 ≤ interval_idx startTime sec r < n)%Z.
Proof.
  intros Hst Hsec Hr. unfold interval_idx, time_Unix.
  replace (startTime / Second * Second)%Z with startTime
    by (pose proof (Z.div_mod startTime Second ltac:(done)); lia).
  assert (0 < sec * Second)%Z by (unfold Second; lia).
  split; [apply Z.div_pos; lia|]. apply Z.div_lt_upper_bound; lia.
Qed.

Lemma interval_count_pos startTime endTime size n :
  interval_count startTime endTime size = Ok n → (interval_seconds size ≠ 0)%Z → (0 < n)%Z.
Proof.
  unfold interval_count. destruct (Z.eqb_spec (interval_seconds size) 0); [done|].
  generalize (fceil (fdiv (Duration_Seconds (time_Sub endTime startTime)) (Duration_Seconds size))) as m.
  intros m. destruct (_ <? m)%Z; [done|]. destruct (Z.ltb_spec m 1); intros [= <-] _; lia.
Qed.

(** The sum of a counter over the intervals, as [uint64]. *)
Definition sums (count : Aggregates → Z) (l : list Aggregates) (x : Z) : Z :=
  foldl (λ t a, u64_add t (count a)) x l.

Lemma Agg_fold_totals times (col : Z → Aggregates) (vol : Z → Z) ks v t v' t' :
  (∀ k, Agg_TransactionVolume (col k) = Z_to_string (vol k)) →
  foldl (λ t x, t ≫= λ t, Agg_accumulate t (Agg_set_times (times (Agg_Idx x)) x)) (Ok (v, t)) (map col ks)
    = Ok (v', t') →
  v' = (v + sum_with vol ks)%Z ∧
  Agg_Idx t' = Agg_Idx t ∧ Agg_StartTime t' = Agg_StartTime t ∧ Agg_EndTime t' = Agg_EndTime t ∧
  Agg_TransactionCount t' = sums Agg_TransactionCount (map col ks) (Agg_TransactionCount t) ∧
  Agg_AddressCount t' = sums Agg_AddressCount (map col ks) (Agg_AddressCount t) ∧
  Agg_OutputCount t' = sums Agg_OutputCount (map col ks) (Agg_OutputCount t) ∧
  Agg_AssetCount t' = sums Agg_AssetCount (map col ks) (Agg_AssetCount t).
Proof.
  intros Hv. revert v t. induction ks as [|k ks IH]; intros v t; cbn [map foldl sum_with sums].
  { intros [= -> ->]. by rewrite Z.add_0_r. }
  assert (Agg_accumulate (v, t) (Agg_set_times (times (Agg_Idx (col k))) (col k)) =
    Ok ((v + vol k)%Z, mkAggregates (Agg_Idx t) (Agg_StartTime t) (Agg_EndTime t) (Agg_TransactionVolume t)
      (u64_add (Agg_TransactionCount t) (Agg_TransactionCount (col k)))
      (u64_add (Agg_AddressCount t) (Agg_AddressCount (col k)))
      (u64_add (Agg_OutputCount t) (Agg_OutputCount (col k))) (u64_add (Agg_AssetCount t) (Agg_AssetCount (col k))))) as E.
  { unfold Agg_accumulate. simpl. by rewrite Hv, big_SetString_to_string. }
  intros Hf. change (Ok (v, t) ≫= ?f) with (f (v, t)) in Hf. cbn beta in Hf. rewrite E in Hf.
  apply IH in Hf as (-> & Ht). split; [lia|apply Ht].
Qed.

(** The time of the first transaction does not depend on the order of the rows. *)
Lemma fold_min_spec (l : list Z) x :
  (∀ y, y ∈ x :: l → (fold_left Z.min l x ≤ y)%Z) ∧ fold_left Z.min l x ∈ x :: l.
Proof.
  revert x. induction l as [|z l IH]; intros x; simpl; [split; [intros y ->%list_elem_of_singleton; lia|left]|].
  destruct (IH (Z.min x z)) as [Hm1 Hm2]. split.
  - intros y Hy. apply elem_of_cons in Hy as [->|[->|Hy]%elem_of_cons].
    + pose proof (Hm1 (Z.min x z) ltac:(left)). lia.
    + pose proof (Hm1 (Z.min x z) ltac:(left)). lia.
    + apply Hm1. by right.
  - apply elem_of_cons in Hm2 as [E|Hin]; [|by do 2 right]. rewrite E.
    destruct (Z.min_spec x z) as [[_ ->]|[_ ->]]; [left|right; left].
Qed.

#[global] Instance first_time_proper ch : Proper (content_eq ==> (=)) (first_time ch).
Proof.
  intros c c' E. unfold first_time.
  assert (map (λ r, as_time (r !! "created_at")) (List.filter (of_chains ch) (c TableTransactions)) ≡ₚ
          map (λ r, as_time (r !! "created_at")) (List.filter (of_chains ch) (c' TableTransactions))) as Hp
    by (by rewrite (E TableTransactions)).
  destruct (map _ (List.filter _ (c _))) as [|t ts]; destruct (map _ (List.filter _ (c' _))) as [|t' ts']; try done.
  - by apply Permutation_nil_l in Hp.
  - by apply Permutation_nil_r in Hp.
  - destruct (fold_min_spec ts t) as [Hm1 Hm2], (fold_min_spec ts' t') as [Hm3 Hm4].
    do 2 f_equal. rewrite Hp in Hm2. rewrite <-Hp in Hm4. specialize (Hm1 _ Hm4). specialize (Hm3 _ Hm2). lia.
Qed.

Lemma first_time_whole ch c : (first_time ch c mod Second = 0)%Z.
Proof. unfold first_time. destruct (map _ _); [done|]. by apply Z.mod_mul. Qed.

(** The counters of the whole: the sums of those of the intervals, as [uint64]. *)
Lemma sum_wrap64 (col : Aggregates → Z) (l : list Aggregates) x :
  foldl (λ t a, u64_add t (col a)) (wrap64 x) l = wrap64 (x + sum_with col l).
Proof.
  revert x. induction l as [|a l IH]; intros x; simpl; [by rewrite Z.add_0_r|].
  assert (u64_add (wrap64 x) (col a) = wrap64 (x + col a)) as -> by (unfold u64_add, wrap64; by rewrite Zplus_mod_idemp_l).
  rewrite IH. f_equal. lia.
Qed.

(** An interval without rows adds nothing. *)
Lemma sum_intervals (l : list (row * row)) (key : row * row → Z) (f : Z → Z) n :
  (∀ x, x ∈ l → (0 ≤ key x < n)%Z) → (∀ i, group key l i = [] → f i = 0%Z) →
  sum_with f (seqZ 0 n) = sum_with f (groups_of key l).
Proof.
  intros Hk Hf. assert (groups_of key l ⊆+ seqZ 0 n) as [k Hp]%submseteq_Permutation.
  { apply NoDup_submseteq; [apply groups_of_NoDup|]. intros i (x & Hx & <-)%elem_of_groups_of.
    apply elem_of_seqZ. specialize (Hk x Hx). lia. }
  rewrite Hp, sum_with_app, (sum_with_0 f k); [lia|]. intros i Hi. apply Hf.
  apply group_nil. intros x Hx Hxi. assert (NoDup (seqZ 0 n)) as Hnd by apply NoDup_seqZ.
  rewrite Hp, NoDup_app in Hnd. destruct Hnd as (_ & Hd & _). apply (Hd i); [|done].
  apply elem_of_groups_of. by exists x.
Qed.

(** The record of the whole range: its volume, and the sums of the counters of the
    intervals, in 64 bits. *)
Definition whole (startTime endTime volume : Z) (l : list Aggregates) : Aggregates :=
  mkAggregates 0 startTime endTime (Z_to_string volume) (wrap64 (sum_with Agg_TransactionCount l))
    (wrap64 (sum_with Agg_AddressCount l)) (wrap64 (sum_with Agg_OutputCount l)) (wrap64 (sum_with Agg_AssetCount l)).

(** The loop over the groups of the rows [l], each in one of the [n] intervals. *)
Lemma collected_intervals p startTime endTime n (l : list (row * row)) slice tv tot :
  let sec := interval_seconds (AG_IntervalSize p) in
  (0 < n)%Z → (∀ x, x ∈ l → (0 ≤ row_interval p startTime x < n)%Z) →
  collect_intervals Agg_Idx Agg_blank Agg_set_times (timesForInterval startTime sec) Agg_accumulate
    (map (λ i, aggregate_columns i (group (row_interval p startTime) l i)) (groups_of (row_interval p startTime) l))
    [] (0%Z, Agg_set_times (startTime, endTime) (Agg_blank 0)) = Ok (slice, (tv, tot)) →
  padTo Agg_blank Agg_set_times (timesForInterval startTime sec) slice n = map (interval_of p startTime l) (seqZ 0 n) ∧
  Agg_set_volume (Z_to_string tv) tot =
    whole startTime endTime (sum_col "amount" (map fst l)) (map (interval_of p startTime l) (seqZ 0 n)).
Proof.
  intros sec Hpos Hin Hc. set (col i := aggregate_columns i (group (row_interval p startTime) l i)) in Hc.
  assert (map Agg_Idx (map col (groups_of (row_interval p startTime) l)) =
          groups_of (row_interval p startTime) l) as Hidx.
  { rewrite map_map. apply map_id. }
  destruct (collect_filled Agg_Idx Agg_blank Agg_set_times (timesForInterval startTime sec) Agg_accumulate
    (interval_of p startTime l) (map col (groups_of (row_interval p startTime) l)) 0 n
    (0%Z, Agg_set_times (startTime, endTime) (Agg_blank 0)) slice (tv, tot))
    as (m' & Hm' & -> & Hmiss); [lia| | | |exact Hc|].
  { rewrite Hidx. apply groups_of_sorted. }
  { intros x Hx. apply list_elem_of_fmap in Hx as (i & -> & Hi). simpl. split.
    - apply elem_of_groups_of in Hi as (x & Hx & <-). by apply Hin.
    - apply group_nonempty in Hi. unfold interval_of, col.
      by destruct (group (row_interval p startTime) l i). }
  { intros i Hi. rewrite Hidx. intros Hni. unfold interval_of.
    destruct (group (row_interval p startTime) l i) eqn:E; [done|]. destruct Hni.
    apply group_nonempty. by rewrite E. }
  rewrite (padTo_filled Agg_blank Agg_set_times (timesForInterval startTime sec) (interval_of p startTime l));
    [|lia|done].
  split; [by rewrite Z.max_r by lia|].
  pose proof (collect_total _ _ _ _ _ _ _ _ _ _ Hc) as Htot.
  eapply (Agg_fold_totals (timesForInterval startTime sec) col
      (λ k, sum_col "amount" (map fst (group (row_interval p startTime) l k)))) in Htot
    as (-> & Ei & Es & Ee & E1 & E2 & E3 & E4); [|done].
  assert (∀ count : Aggregates → Z, (∀ i, count (Agg_blank i) = 0%Z) → (∀ t a, count (Agg_set_times t a) = count a) →
    sums count (map col (groups_of (row_interval p startTime) l)) 0 =
    wrap64 (sum_with count (map (interval_of p startTime l) (seqZ 0 n)))) as Hsum.
  { intros count Hb Ht. unfold sums. change 0%Z with (wrap64 0). rewrite sum_wrap64. f_equal. rewrite Z.add_0_l, !sum_with_map.
    rewrite (sum_intervals l (row_interval p startTime)); [|done|].
    - apply sum_with_ext. intros i Hi. unfold interval_of. rewrite Ht. apply group_nonempty in Hi. unfold col.
      by destruct (group (row_interval p startTime) l i).
    - intros i Hi. unfold interval_of. by rewrite Ht, Hi. }
  unfold whole. rewrite <-!Hsum by done. destruct tot. simpl in *. subst. unfold Agg_set_volume. simpl. f_equal.
  unfold sum_col. rewrite sum_with_map.
  rewrite (sum_groups _ (row_interval p startTime) l (groups_of (row_interval p startTime) l));
    [|apply groups_of_NoDup|intros x Hx; apply elem_of_groups_of; by exists x].
  f_equal. apply sum_with_ext. intros k _. by rewrite sum_with_map.
Qed.

(** * What a histogram counts *)

(** The outputs created in [from, to) in one of the chains, if some are named, and in the
    asset, if one is; each with each of its addresses, or alone when it has none. *)
Definition counted (from to : Z) (chainIDs : list string) (asset : option string) (c : content) : list (row * row) :=
  flat_map
    (λ o, match List.filter (λ a, same_col a "output_id" o "id") (c TableOutputAddresses) with
          | [] => [(o, ∅)]
          | l => map (pair o) l
          end)
    (List.filter
       (λ o, bool_decide (from ≤ as_time (o !! "created_at") < to)%Z &&
             bool_decide (chainIDs = [] ∨ List.Exists (λ k, o !! "chain_id" = Some (VStr k)) chainIDs) &&
             match asset with Some a => bool_decide (o !! "asset_id" = Some (VStr a)) | None => true end)
       (c TableOutputs)).

(** The record of such rows: the volume, and the numbers of transactions, of addresses,
    of rows of outputs and of assets. *)
Definition totals (i from to : Z) (l : list (row * row)) : Aggregates :=
  mkAggregates i from to (Z_to_string (sum_col "amount" (map fst l))) (count_distinct "transaction_id" (map fst l))
    (count_distinct "address" (map snd l)) (count_col "id" (map fst l)) (count_distinct "asset_id" (map fst l)).

(** The record of an interval of [size]: its times, to the second before the next one, and
    what the rows created in it add up to, if there are any. *)
Definition interval_record (startTime size : Z) (l : list (row * row)) (i : Z) : Aggregates :=
  let from := (startTime + i * size)%Z in
  let to := (startTime + (i + 1) * size)%Z in
  match List.filter (λ x, bool_decide (from ≤ as_time (x.1 !! "created_at") < to)%Z) l with
  | [] => mkAggregates i from (to - Second) "" 0 0 0 0
  | li => totals i from (to - Second) li
  end.

Lemma aggregate_rows_counted `{!AxiaIds} p startTime c :
  aggregate_rows p startTime c =
  counted startTime (LP_EndTime (AG_ListParams p)) (AG_ChainIDs p) (ID_String <$> AG_AssetID p) c.
Proof.
  unfold aggregate_rows, counted, left_join.
  erewrite (filter_ext (aggregate_where p startTime)).
  - apply flat_map_ext. intros o. by destruct (List.filter _ (c TableOutputAddresses)).
  - intros o. unfold aggregate_where, created_between, of_chains. apply eq_true_iff_eq.
    rewrite !andb_true_iff, orb_true_iff, existsb_exists, !bool_decide_eq_true, Z.leb_le, Z.ltb_lt, Nat.eqb_eq.
    assert (∀ k v, matches [CEq k (VStr v)] o = true ↔ o !! k = Some (VStr v)) as Hm.
    { intros k v. unfold matches. simpl. rewrite andb_true_r, bool_decide_eq_true. naive_solver. }
    setoid_rewrite Hm. rewrite List.Exists_exists.
    assert (length (AG_ChainIDs p) = 0 ↔ AG_ChainIDs p = []) as -> by (by destruct (AG_ChainIDs p)).
    destruct (AG_AssetID p) as [a|]; [|done]. change (ID_String <$> Some a) with (Some (ID_String a)). cbv iota.
    by rewrite Hm, bool_decide_eq_true.
Qed.

Lemma interval_record_of p startTime k l i :
  (startTime mod Second = 0)%Z → AG_IntervalSize p = (k * Second)%Z → (0 < k < 2 ^ 53)%Z →
  interval_of p startTime l i = interval_record startTime (k * Second) l i.
Proof.
  intros Hs Hp Hk. unfold interval_of, interval_record, row_interval, group.
  rewrite Hp, interval_seconds_whole by done.
  assert (timesForInterval startTime k i = (startTime + i * (k * Second), startTime + (i + 1) * (k * Second) - Second)%Z) as ->.
  { unfold timesForInterval, time_Unix. pose proof (Z.div_mod startTime Second ltac:(done)). f_equal; lia. }
  erewrite (filter_ext _ (λ x, bool_decide (startTime + i * (k * Second) ≤ as_time (x.1 !! "created_at") <
    startTime + (i + 1) * (k * Second))%Z)); [by case_match|].
  intros [o a]. simpl. apply eq_true_iff_eq. rewrite Z.eqb_eq, bool_decide_eq_true. unfold interval_idx, time_Unix.
  replace (startTime / Second * Second)%Z with startTime by (pose proof (Z.div_mod startTime Second ltac:(done)); lia).
  assert (Second = 1000000000)%Z as ES by done.
  assert (0 < k * Second)%Z as Hks by lia. set (y := (as_time (o !! "created_at") - startTime)%Z) in *.
  pose proof (Z.div_mod y (k * Second) ltac:(lia)) as E1. pose proof (Z.mod_pos_bound y (k * Second) Hks) as E2.
  split.
  - intros <-. subst y. lia.
  - intros Hb. symmetry. apply (Z.div_unique_pos _ _ _ (y - k * Second * i)); [|lia].
    replace (k * Second * i)%Z with (i * (k * Second))%Z by lia. subst y. lia.
Qed.

(** [interval_count] and the rest of [Aggregate], from the start time. *)
Lemma aggregate_run p d d' h :
  Aggregate p d = (d', Ok h) →
  let startTime := if IsZero (LP_StartTime (AG_ListParams p)) then first_time (AG_ChainIDs p) (rows d)
                   else LP_StartTime (AG_ListParams p) in
  let endTime := LP_EndTime (AG_ListParams p) in
  ∃ n, interval_count startTime endTime (AG_IntervalSize p) = Ok n ∧ rows d' ≡ᶜ rows d ∧
    aggregate_histogram startTime endTime (AG_IntervalSize p) n (aggregate_query p startTime n (rows d')) = Ok h.
Proof.
  intros E startTime endTime. unfold Aggregate in E. apply bind_Ok_inv in E as (s0 & d0 & E0 & E).
  assert (s0 = startTime ∧ rows d0 ≡ᶜ rows d) as [-> R0].
  { subst startTime. destruct (IsZero _).
    - unfold getFirstTransactionTime in E0. apply select_ok in E0 as [R ->]. split; [by rewrite R|done].
    - by injection E0 as <- <-. }
  apply bind_Ok_inv in E as (n & d1 & E1 & E). unfold lift_result in E1. injection E1 as <- En.
  apply bind_Ok_inv in E as (ivs & d2 & E2 & E). apply select_ok in E2 as [R2 ->].
  unfold lift_result in E. injection E as <- Eh. exists n. split_and!; [done|by rewrite <-R2|done].
Qed.

(** C23. A histogram over whole seconds: start and end are whole seconds, as those of every
    accepted request are (C28), the intervals a positive whole number of them, the range
    shorter than the 292 years of a Duration; without a start it begins with the first
    transaction of the chains.  The histogram holds one record for each of its n intervals,
    n being the size of the range by theirs, rounded up, from 1 to 20000: in order, with no
    gap, the record of interval [i] starts [i] interval lengths after the start, ends a second
    before the next one starts, and counts exactly the joined rows created in between, none
    if empty.  The intervals cover the range: every joined row is in one, so the overall
    volume is the sum over all of the rows, and the overall counters are the sums of those of
    the intervals, in 64 bits.  The rows are the outputs of the chains and the asset asked
    for, created in the range, joined with their addresses: the amount of an output counts
    once for each of its addresses. *)
Theorem aggregate_intervals p k d d' h :
  let startTime := if IsZero (LP_StartTime (AG_ListParams p)) then first_time (AG_ChainIDs p) (rows d)
                   else LP_StartTime (AG_ListParams p) in
  let endTime := LP_EndTime (AG_ListParams p) in
  (LP_StartTime (AG_ListParams p) mod Second = 0)%Z → (endTime mod Second = 0)%Z →
  (- 2 ^ 63 ≤ endTime - startTime < 2 ^ 63)%Z →
  AG_IntervalSize p = (k * Second)%Z → (0 < k)%Z → (k * Second < 2 ^ 63)%Z →
  Aggregate p d = (d', Ok h) →
  let n := Z.max 1 ((endTime - startTime + k * Second - 1) / (k * Second)) in
  let l := counted startTime endTime (AG_ChainIDs p) (ID_String <$> AG_AssetID p) (rows d') in
  rows d' ≡ᶜ rows d ∧ (n ≤ 20000)%Z ∧
  AH_StartTime h = startTime ∧ AH_EndTime h = endTime ∧ AH_IntervalSize h = (k * Second)%Z ∧
  AH_Intervals h = map (interval_record startTime (k * Second) l) (seqZ 0 n) ∧
  (∀ x, x ∈ l → (startTime ≤ as_time (x.1 !! "created_at") < startTime + n * (k * Second))%Z) ∧
  AH_Aggregates h = whole startTime endTime (sum_col "amount" (map fst l)) (AH_Intervals h).
Proof.
  intros startTime endTime Hs He Hr Hk Hpos Hk2 E n l.
  assert (startTime mod Second = 0)%Z as Hst.
  { unfold startTime. destruct (IsZero _); [apply first_time_whole|done]. }
  assert (Second = 1000000000)%Z as ES by done.
  assert (0 < k < 2 ^ 53)%Z as Hk3 by lia.
  apply aggregate_run in E as (m & Em & R & Hh). fold startTime endTime in Em, Hh.
  rewrite Hk, interval_count_whole in Em by done. fold n in Em.
  destruct (Z.ltb_spec MaxAggregateIntervalCount n) as [|Hmax]; [done|]. injection Em as <-.
  assert (1 ≤ n)%Z as Hn by (unfold n; lia).
  assert (∀ x, x ∈ l → (startTime ≤ as_time (x.1 !! "created_at") < startTime + n * (k * Second))%Z) as Hcov.
  { intros x Hx. unfold l, endTime in Hx. rewrite <-aggregate_rows_counted in Hx. apply aggregate_rows_between in Hx.
    fold endTime in Hx. assert (endTime ≤ startTime + n * (k * Second))%Z; [|lia].
    assert (0 < k * Second)%Z as Hks by lia.
    pose proof (Z.div_mod (endTime - startTime + k * Second - 1) (k * Second) ltac:(lia)) as E1.
    pose proof (Z.mod_pos_bound (endTime - startTime + k * Second - 1) (k * Second) Hks) as E2.
    set (q := ((endTime - startTime + k * Second - 1) / (k * Second))%Z) in *.
    transitivity (startTime + q * (k * Second))%Z; [lia|].
    apply Z.add_le_mono_l, Z.mul_le_mono_nonneg_r; [lia|unfold n; fold q; lia]. }
  assert (∀ x, x ∈ l → (0 ≤ row_interval p startTime x < n)%Z) as Hin.
  { intros x Hx%Hcov. unfold row_interval. rewrite Hk, interval_seconds_whole by done.
    apply interval_idx_range; [done|lia|]. lia. }
  unfold aggregate_query in Hh. rewrite aggregate_rows_counted in Hh. fold endTime l in Hh.
  rewrite (proj2 (Z.ltb_lt 0 n)) in Hh by lia.
  change (λ x : row * row, interval_idx startTime (interval_seconds (AG_IntervalSize p)) x.1)
    with (row_interval p startTime) in Hh.
  rewrite limit_groups in Hh by (done || lia).
  unfold aggregate_histogram in Hh. rewrite (proj2 (Z.eqb_neq n 0)) in Hh by lia.
  destruct (collect_intervals _ _ _ _ _ _ _ _) as [[slice [tv tot]]|e] eqn:Hc; [|done].
  injection Hh as <-. cbn [AH_Intervals AH_StartTime AH_EndTime AH_IntervalSize AH_Aggregates].
  destruct (collected_intervals p startTime endTime n l slice tv tot ltac:(lia) Hin Hc) as (Hsl & Htot).
  assert (map (interval_of p startTime l) (seqZ 0 n) = map (interval_record startTime (k * Second) l) (seqZ 0 n)) as Hrec.
  { apply map_ext. intros i. by apply interval_record_of. }
  split_and!; [done|done|done|done|done|by rewrite Hsl|done|]. by rewrite Htot, Hsl.
Qed.
End aggregate.

(** * Witnesses *)
Import Toy ParamsFacts.ToyText.

(** Two outputs of one asset; the first has two addresses. *)
Module AggSample.
Definition start : Z := (1600000000 * Second)%Z.
Definition out (id : string) (amount t : Z) : Outputs :=
  mkOutputs id "X" ("tx" +:+ id) 0 7 "axc" amount 0 1 0 None 0 false false false false t.
Definition addr (id a : string) : OutputAddresses := mkOutputAddresses id a None start start.
Definition db : MemDb :=
  let d := (InsertOutputs (out "1" 10 (start + Second)) true empty_db).1 in
  let d := (InsertOutputs (out "2" 5 (start + 12 * Second)) true d).1 in
  let d := (InsertOutputAddresses (addr "1" "a") true d).1 in
  (InsertOutputAddresses (addr "1" "b") true d).1.
Definition p : AggregateParams := {|
  AG_ListParams := mkListParams ∅ None "" 5000 0 true true true start (start + 15 * Second);
  AG_ChainIDs := ["X"];
  AG_AssetID := Some "axc";
  AG_IntervalSize := (5 * Second)%Z;
|}.
Definition answer : MemDb * result AggregatesHistogram := Aggregate p db.
Definition histogram : AggregatesHistogram :=
  match answer.2 with
  | Ok h => h
  | Err _ => mkAggregatesHistogram (Agg_blank 0) 0 [] 0 0
  end.
End AggSample.

Lemma aggregate_intervals_witness :
  AH_Intervals AggSample.histogram =
    map (interval_record AggSample.start (5 * Second)
           (counted AggSample.start (AggSample.start + 15 * Second) ["X"] (Some "axc") (rows AggSample.answer.1)))
      (seqZ 0 3) ∧
  map Agg_TransactionVolume (AH_Intervals AggSample.histogram) = ["20"; ""; "5"] ∧
  Agg_TransactionVolume (AH_Aggregates AggSample.histogram) = "25".
Proof.
  assert (Aggregate AggSample.p AggSample.db = (AggSample.answer.1, Ok AggSample.histogram)) as Hrun
    by (vm_compute; reflexivity).
  destruct (aggregate_intervals AggSample.p 5 AggSample.db AggSample.answer.1 AggSample.histogram)
    as (_ & _ & _ & _ & _ & H1 & _); [reflexivity|reflexivity|vm_compute; split; congruence|reflexivity|reflexivity|
      reflexivity|exact Hrun|].
  split; [exact H1|]. split; vm_compute; reflexivity.
Defined.
