(* ===== verification/ReaderModels.v ===== *)
(** models/axc.go, models/collections.go: the answers of the reader.  The fields
    that no code of the reader sets ([Score], [ReusedAddressTotals], ...) are left
    out.  A [StringID], an [Address] and a [TokenAmount] are texts. *)

From S2P Require Import Prelude Errors Sql.

Record PvmProposerModel := mkPvmProposerModel {
  Proposer_ID : string;
  Proposer_ParentID : string;
  Proposer_CoreChainHeight : Z;
  Proposer_Proposer : string;
  Proposer_TimeStamp : Z;
}.

Record Output := mkOutput {
  Output_ID : string;
  Output_TransactionID : string;
  Output_OutputIndex : Z;
  Output_AssetID : string;
  Output_Stake : bool;
  Output_Frozen : bool;
  Output_Stakeableout : bool;
  Output_Genesisutxo : bool;
  Output_OutputType : Z;
  Output_Amount : string;
  Output_Locktime : Z;
  Output_StakeLocktime : Z;
  Output_Threshold : Z;
  Output_Addresses : list string;
  Output_CAddresses : list string;
  Output_CreatedAt : Z;
  Output_RedeemingTransactionID : string;
  Output_ChainID : string;
  Output_InChainID : string;
  Output_OutChainID : string;
  Output_GroupID : Z;
  Output_Payload : option string;
  Output_Block : string;
  Output_Nonce : Z;
  Output_RewardUtxo : bool;
}.

Record InputCredentials := mkInputCredentials {
  Creds_Address : string;
  Creds_PublicKey : option string;
  Creds_Signature : option string;
}.

Record Input := mkInput { Input_Output : Output; Input_Creds : list InputCredentials }.

Record OutputAddress := mkOutputAddress {
  OutputAddress_OutputID : string;
  OutputAddress_Address : string;
  OutputAddress_Signature : option string;
  OutputAddress_PublicKey : option string;
}.

Record Transaction := mkTransaction {
  Tx_ID : string;
  Tx_ChainID : string;
  Tx_Type : string;
  Tx_Inputs : list Input;
  Tx_Outputs : list Output;
  Tx_Memo : option string;
  Tx_InputTotals : gmap string string;
  Tx_OutputTotals : gmap string string;
  Tx_CreatedAt : Z;
  Tx_Txfee : Z;
  Tx_Genesis : bool;
  Tx_Rewarded : bool;
  Tx_RewardedTime : option Z;
  Tx_Epoch : Z;
  Tx_VertexID : string;
  Tx_ValidatorNodeID : string;
  Tx_ValidatorStart : Z;
  Tx_ValidatorEnd : Z;
  Tx_TxBlockID : string;
  Tx_Proposer : option PvmProposerModel;
}.

Record AssetInfo := mkAssetInfo {
  AssetInfo_AssetID : string;
  AssetInfo_TransactionCount : Z;
  AssetInfo_UTXOCount : Z;
  AssetInfo_Balance : string;
  AssetInfo_TotalReceived : string;
  AssetInfo_TotalSent : string;
}.

Record AddressInfo := mkAddressInfo {
  AddressInfo_ChainID : string;
  AddressInfo_Address : string;
  AddressInfo_PublicKey : option string;
  AddressInfo_Assets : gmap string AssetInfo;
}.

Record CvmOutput := mkCvmOutput {
  CvmOutput_Type : Z;
  CvmOutput_TransactionType : Z;
  CvmOutput_Idx : Z;
  CvmOutput_Amount : string;
  CvmOutput_Nonce : Z;
  CvmOutput_ID : string;
  CvmOutput_TransactionID : string;
  CvmOutput_Address : string;
  CvmOutput_AssetID : string;
  CvmOutput_CreatedAt : Z;
  CvmOutput_ChainID : string;
  CvmOutput_Block : string;
}.

Record TransactionList := mkTransactionList {
  TL_Count : option Z;
  TL_Transactions : list Transaction;
  TL_StartTime : Z;
  TL_EndTime : Z;
  TL_Next : option string;
}.
