(* ===== verification/ReaderTxs.v ===== *)
(** services/indexes/axc/reader_list_txs.go: the list of the transactions and
    the link to the next page; reader_aggregate_processor.go: the cached lists. *)

From S2P Require Import Prelude Errors Sql DbModel Axia Models GoText Params Query ReaderModels.

(** [LIKE] with its wildcards, as the database compares texts. *)
Class SqlText := { like : string → string → bool }.   (* pattern, text *)

(** [c IN ?] for texts and for numbers. *)
Definition in_texts (c : string) (vs : list string) (r : row) : bool :=
  existsb (λ v, matches [CEq c (VStr v)] r) vs.
Definition in_nums (c : string) (vs : list Z) (r : row) : bool :=
  existsb (λ v, matches [CEq c (VNum v)] r) vs.

(** * reader_aggregate_processor.go *)
Record ReaderAggregateTxList := mkReaderAggregateTxList {
  Txs : option (list Transaction);
  TxsMap : option (gmap string Transaction);
  TxsByChain : option (gmap string (list Transaction));
}.

Definition empty_tx_list : ReaderAggregateTxList := mkReaderAggregateTxList None None None.

Definition IsProcessed (t : ReaderAggregateTxList) : bool := bool_decide (is_Some (Txs t)).
(** [First] : [None] is a panic, [Some None] a nil pointer. *)
Definition TxList_First (t : ReaderAggregateTxList) : option (option Transaction) :=
  match Txs t with Some [] => None | Some (tx :: _) => Some (Some tx) | None => Some None end.

Definition TxList_Get (t : ReaderAggregateTxList) (tx : string) : option Transaction :=
  m ← TxsMap t; m !! tx.

(** The loop of [Set]: the map by id, and the lists by chain. *)
Definition by_chain_add (m : gmap string (list Transaction)) (tx : Transaction)
    : gmap string (list Transaction) :=
  <[Tx_ChainID tx := default [] (m !! Tx_ChainID tx) ++ [tx]]> m.
Definition TxList_Set (txs : option (list Transaction)) : ReaderAggregateTxList :=
  match txs with
  | None => empty_tx_list
  | Some l =>
      mkReaderAggregateTxList (Some l) (Some (fold_left (λ m tx, <[Tx_ID tx := tx]> m) l ∅))
        (Some (fold_left by_chain_add l ∅))
  end.

Definition FindTxs (t : ReaderAggregateTxList) (chainIDs : list string) (limit : Z)
    : option (list Transaction) :=
  match chainIDs with
  | [chainID] =>
      m ← TxsByChain t;
      l ← m !! chainID;
      if (limit <=? Z.of_nat (length l))%Z then Some (take (Z.to_nat limit) l) else None
  | [] =>
      l ← Txs t;
      if (limit <=? Z.of_nat (length l))%Z then Some (take (Z.to_nat limit) l) else None
  | _ => None
  end.

(** * The transactions of the tables *)

(** [transactionQuery] : a transaction with its epoch, validator and block. *)
Definition load_models_Transaction (r e v b : row) : Transaction := {|
  Tx_ID := col_str r "id";
  Tx_ChainID := col_str r "chain_id";
  Tx_Type := col_str r "type";
  Tx_Inputs := [];
  Tx_Outputs := [];
  Tx_Memo := as_bytes (r !! "memo");
  Tx_InputTotals := ∅;
  Tx_OutputTotals := ∅;
  Tx_CreatedAt := as_time (r !! "created_at");
  Tx_Txfee := col_num r "txfee";
  Tx_Genesis := as_bool (r !! "genesis");
  Tx_Rewarded := false;
  Tx_RewardedTime := None;
  Tx_Epoch := col_num e "epoch";
  Tx_VertexID := col_str e "vertex_id";
  Tx_ValidatorNodeID := col_str v "node_id";
  Tx_ValidatorStart := col_num v "start";
  Tx_ValidatorEnd := col_num v "end";
  Tx_TxBlockID := col_str b "tx_block_id";
  Tx_Proposer := None;
|}.

Definition join_transaction (c : content) (r : row) : list Transaction :=
  flat_map (λ e,
    flat_map (λ v,
      map (λ b, load_models_Transaction r e v b)
        (left_join (λ b, same_col b "id" r "id") (c TableTransactionsBlock)))
      (left_join (λ v, same_col v "id" r "id") (c TableTransactionsValidator)))
    (left_join (λ e, same_col e "id" r "id") (c TableTransactionsEpochs)).

(** [applySort] : by time, then by chain. *)
Definition tx_asc (x y : Transaction) : bool :=
  (Tx_CreatedAt x <? Tx_CreatedAt y)%Z ||
  ((Tx_CreatedAt x =? Tx_CreatedAt y)%Z && String.leb (Tx_ChainID x) (Tx_ChainID y)).
Definition tx_order (sort : TransactionSort) (x y : Transaction) : bool :=
  match sort with
  | TransactionSortTimestampDesc => tx_asc y x
  | TransactionSortTimestampAsc => tx_asc x y
  end.

Definition applySort (p : ListTransactionsParams) (l : list Transaction) : list Transaction :=
  if String.eqb (LP_Query (LT_ListParams p)) "" then order_by (tx_order (LT_Sort p)) l else l.

Section list_txs.
Context `{!AxiaIds} `{!SqlText}.

(** ** listTxsQuery *)
Definition assetCheck (p : ListTransactionsParams) (assetID : ID) (o : row) : bool :=
matches [CEq "asset_id" (VStr (ID_String assetID))] o &&
((length (LT_OutputOutputTypes p) =? 0) || in_nums "output_type" (LT_OutputOutputTypes p) o) &&
((length (LT_OutputGroupIDs p) =? 0) || in_nums "group_id" (LT_OutputGroupIDs p) o).

(** [created_at >= start and created_at < end], for the times that are given. *)
Definition in_period (lp : ListParams) (r : row) : bool :=
(negb (LP_StartTimeProvided lp && negb (IsZero (LP_StartTime lp))) ||
   (LP_StartTime lp <=? as_time (r !! "created_at"))%Z) &&
(negb (LP_EndTimeProvided lp && negb (IsZero (LP_EndTime lp))) ||
   (as_time (r !! "created_at") <? LP_EndTime lp)%Z).

(** The transactions that create or redeem an output of one of the addresses. *)
Definition address_txs (p : ListTransactionsParams) (c : content) : list (option value) :=
let addrs := map ShortID_String (LT_Addresses p) in
let of_address (o : row) :=
  existsb (λ a, same_col a "output_id" o "id" && in_texts "address" addrs a) (c TableOutputAddresses) in
map (λ o, o !! "transaction_id")
  (List.filter (λ o, of_address o &&
     match LT_AssetID p with Some i => assetCheck p i o | None => true end) (c TableOutputs)) ++
map (λ o, o !! "redeeming_transaction_id")
  (List.filter (λ o, negb (is_null o "redeeming_transaction_id") && of_address o)
     (c TableOutputsRedeeming)).

Definition listTxs_where (p : ListTransactionsParams) (c : content) (r : row) : bool :=
let lp := LT_ListParams p in
match LP_ID lp with Some i => matches [CEq "id" (VStr (ID_String i))] r | None => true end &&
(String.eqb (LP_Query lp) "" || like (LP_Query lp +:+ "%") (col_str r "id")) &&
in_period lp r &&
((length (LT_ChainIDs p) =? 0) || in_texts "chain_id" (LT_ChainIDs p) r) &&
((length (LT_Addresses p) =? 0) || existsb (λ v, bool_decide (v = r !! "id")) (address_txs p c)).

(** The outputs joined for an asset without addresses: one row for each. *)
Definition asset_rows (p : ListTransactionsParams) (c : content) (r : row) : list row :=
match LT_AssetID p with
| Some i => if (length (LT_Addresses p) =? 0)
            then List.filter (λ o, same_col o "transaction_id" r "id" && assetCheck p i o) (c TableOutputs)
            else [∅]
| None => [∅]
end.

(** The transactions that answer the query, with their multiplicity. *)
Definition listTxsQuery (p : ListTransactionsParams) (c : content) : list Transaction :=
flat_map (λ r, flat_map (λ _, join_transaction c r) (asset_rows p c r))
  (List.filter (listTxs_where p c) (c TableTransactions)).

(** ** The cached lists *)
Context (IsAggregateCache : bool) (txAsc txDesc : ReaderAggregateTxList).

Definition listTxFromCache (p : ListTransactionsParams) : option Transaction :=
if negb IsAggregateCache then None
else if negb (bool_decide (LP_Values (LT_ListParams p) = ∅)) then None
else
  match LP_ID (LT_ListParams p) with
  | None => None
  | Some i =>
      match TxList_Get txDesc (ID_String i) with
      | Some tx => Some tx
      | None => TxList_Get txAsc (ID_String i)
      end
  end.

Definition cacheable_keys : list string := [KeySortBy; KeyLimit; KeyOffset; KeyDisableCount; KeyChainID].

Definition listTxsFromCache (p : ListTransactionsParams) : option (list Transaction) :=
let lp := LT_ListParams p in
if negb IsAggregateCache || (LP_Limit lp =? 0)%Z || negb (LP_Offset lp =? 0)%Z then None
else
  let l := match LT_Sort p with TransactionSortTimestampDesc => txDesc | _ => txAsc end in
  if negb (IsProcessed l) then None
  else if negb (forallb (λ kv : string * list string, bool_decide (kv.1 ∈ cacheable_keys))
                  (map_to_list (LP_Values lp))) then None
  else FindTxs l (LT_ChainIDs p) (LP_Limit lp).

(** ** listTxs *)

(** The page: its ids, then the transactions with these ids. *)
Definition txs_page (p : ListTransactionsParams) (c : content) : list Transaction :=
let lp := LT_ListParams p in
let ids := map Tx_ID (limit_rows (LP_Limit lp) (offset_rows (LP_Offset lp)
             (applySort p (listTxsQuery p c)))) in
applySort p (List.filter (λ tx, bool_decide (Tx_ID tx ∈ ids)) (flat_map (join_transaction c) (c TableTransactions))).

(** The loop over the rows of an asset: a transaction comes once for each of its
  outputs, and the offset and the limit count transactions. *)
Fixpoint scan_txs (offset limit : Z) (l : list Transaction) (txs : list Transaction)
  (txsm txsmoffset : gset string) : list Transaction :=
match l with
| [] => txs
| tx :: l' =>
    if (0 <? offset)%Z && (Z.of_nat (size txsmoffset) <? offset)%Z
    then scan_txs offset limit l' txs txsm ({[Tx_ID tx]} ∪ txsmoffset)
    else if decide (Tx_ID tx ∈ txsmoffset) then scan_txs offset limit l' txs txsm txsmoffset
    else
      let '(txs, txsm) := if decide (Tx_ID tx ∈ txsm) then (txs, txsm)
                          else (txs ++ [tx], {[Tx_ID tx]} ∪ txsm) in
      if (0 <? limit)%Z && (limit <=? Z.of_nat (size txsm))%Z then txs
      else scan_txs offset limit l' txs txsm txsmoffset
end.

Definition asset_limit : nat := Z.to_nat 100000.

(** The transactions of the answer, and whether they are dressed already. *)
Definition listTxs `{SqlEngine D} (p : ListTransactionsParams) : M D (list Transaction * bool) :=
match (match LP_ID (LT_ListParams p) with Some _ => listTxFromCache p | None => None end) with
| Some tx => mret ([tx], true)
| None =>
    if (0 <? length (LT_Addresses p)) || bool_decide (LT_AssetID p = None) then
      match listTxsFromCache p with
      | Some txs => mret (txs, true)
      | None => txs ← select (txs_page p); mret (txs, false)
      end
    else
      txs ← select (λ c, scan_txs (LP_Offset (LT_ListParams p)) (LP_Limit (LT_ListParams p))
                           (take asset_limit (applySort p (listTxsQuery p c))) [] ∅ ∅);
      mret (txs, false)
end.
End list_txs.

(** * The next page *)

(** [transactionProcessNext] : the link from the last transaction of a full page.
    The values of the request come in the order Go goes through a map. *)
Definition next_value (p : ListTransactionsParams) (next : string) (kv : string * list string) : string :=
  let '(k, vs) := kv in
  let add next v := next +:+ "&" +:+ k +:+ "=" +:+ v in
  if decide (k = KeyLimit) then next +:+ "&" +:+ KeyLimit +:+ "=" +:+ Z_to_string (LP_Limit (LT_ListParams p))
  else if decide (k = KeyStartTime) then
    match LT_Sort p with TransactionSortTimestampDesc => fold_left add vs next | _ => next end
  else if decide (k = KeyEndTime) then
    match LT_Sort p with TransactionSortTimestampAsc => fold_left add vs next | _ => next end
  else if decide (k = KeyOffset) then next
  else if decide (k = KeySortBy) then next
  else fold_left add vs next.

(** The time the next page starts or ends at. *)
Definition next_time (sort : TransactionSort) (lasttxCreated : Z) : string * Z :=
  match sort with
  | TransactionSortTimestampAsc => (KeyStartTime, time_Unix (lasttxCreated + Second))
  | TransactionSortTimestampDesc => (KeyEndTime, time_Unix lasttxCreated)
  end.

Definition transactionProcessNext (txs : list Transaction) (p : ListTransactionsParams) : option string :=
  if (length txs =? 0) || (Z.of_nat (length txs) <? LP_Limit (LT_ListParams p))%Z then None
  else
    lasttx ← last txs;
    let '(key, t) := next_time (LT_Sort p) (Tx_CreatedAt lasttx) in
    let next := key +:+ "=" +:+ Z_to_string t in
    let next := fold_left (next_value p) (map_to_list (LP_Values (LT_ListParams p))) next in
    Some (next +:+ "&" +:+ KeySortBy +:+ "=" +:+ TransactionSort_String (LT_Sort p)).
