(* ===== verification/ReaderDress.v ===== *)
(** services/indexes/axc/reader_list_txs.go: the inputs, outputs and totals the
    transactions of an answer are dressed with, and the answer itself;
    reader_aggregate_processor.go: the first transactions kept in memory.

    The code goes through Go maps, in an unspecified order: the lists built here
    have the order of the finite maps of the library. *)

From S2P Require Import Prelude Errors Sql DbModel Axia Models Utils GoText Params Query ReaderModels ReaderTxs.

(** * The records of the answer *)
Record compositeRecord := mkCompositeRecord { cr_Output : Output; cr_OutputAddress : OutputAddress }.

Record rewardsTypeModel := mkRewardsTypeModel { RT_Txid : string; RT_Type : Z; RT_CreatedAt : Z }.

Definition newPvmProposerModel (pvmProposer : PvmProposer) : PvmProposerModel := {|
  Proposer_ID := PvmProposer_ID pvmProposer;
  Proposer_ParentID := PvmProposer_ParentID pvmProposer;
  Proposer_CoreChainHeight := PvmProposer_CoreChainHeight pvmProposer;
  Proposer_Proposer := PvmProposer_Proposer pvmProposer;
  Proposer_TimeStamp := PvmProposer_TimeStamp pvmProposer;
|}.

(** * The queries *)

(** [resolveProposers] : the last proposer of each block. *)
Definition proposers_of `{!Dbr} (blockIds : list string) (c : content) : gmap string PvmProposerModel :=
  fold_left (λ m r, <[col_str r "blk_id" := newPvmProposerModel (load_PvmProposer r)]> m)
    (List.filter (in_texts "blk_id" blockIds) (c TablePvmProposer)) ∅.
Definition resolveProposers `{!Dbr} `{SqlEngine D} (properIds : list string) : M D (gmap string PvmProposerModel) :=
  if (length properIds =? 0) then mret ∅ else select (proposers_of properIds).

(** [resolveRewarded] : the blocks that committed or aborted the block of a reward. *)
Definition rewarded_rows (txIDs : list string) (c : content) : list rewardsTypeModel :=
  flat_map (λ r,
    map (λ b, mkRewardsTypeModel (col_str r "txid") (col_num b "type") (as_time (b !! "created_at")))
      (List.filter (in_nums "type" [models.BlockTypeAbort; models.BlockTypeCommit])
         (left_join (λ b, same_col r "block_id" b "parent_id") (c TablePvmBlocks))))
    (List.filter (in_texts "txid" txIDs) (c TableRewards)).
Definition rewarded_of (txIDs : list string) (c : content) : gmap string rewardsTypeModel :=
  fold_left (λ m r, <[RT_Txid r := r]> m) (rewarded_rows txIDs c) ∅.
Definition resolveRewarded `{SqlEngine D} (txIDs : list string) : M D (gmap string rewardsTypeModel) :=
  select (rewarded_of txIDs).

(** [selectOutputs] : the columns of an output [o], of its redemption [q] and of
    one of its addresses [a]; [d] is the address, [w] the reward the output is of.
    With [redeem], the row comes from the redemption. *)
Definition select_columns (redeem : bool) (o q a w d : row) : compositeRecord :=
  let tbl := if redeem then q else o in
  {| cr_Output := {|
       Output_ID := col_str tbl "id";
       Output_TransactionID := if redeem then col_str q "intx" else col_str o "transaction_id";
       Output_OutputIndex := col_num tbl "output_index";
       Output_AssetID := col_str tbl "asset_id";
       Output_Stake := as_bool (o !! "stake");
       Output_Frozen := as_bool (o !! "frozen");
       Output_Stakeableout := as_bool (o !! "stakeableout");
       Output_Genesisutxo := as_bool (o !! "genesisutxo");
       Output_OutputType := col_num o "output_type";
       Output_Amount := as_str (tbl !! "amount");
       Output_Locktime := col_num o "locktime";
       Output_StakeLocktime := col_num o "stake_locktime";
       Output_Threshold := col_num o "threshold";
       Output_Addresses := [];
       Output_CAddresses := [];
       Output_CreatedAt := as_time (tbl !! "created_at");
       Output_RedeemingTransactionID := col_str q "redeeming_transaction_id";
       Output_ChainID := col_str tbl "chain_id";
       Output_InChainID := col_str q "chain_id";
       Output_OutChainID := col_str o "chain_id";
       Output_GroupID := col_num o "group_id";
       Output_Payload := Some (default "" (as_bytes (o !! "payload")));
       Output_Block := "";
       Output_Nonce := 0;
       Output_RewardUtxo := negb (is_null w "id");
     |};
     cr_OutputAddress := {|
       OutputAddress_OutputID := col_str a "output_id";
       OutputAddress_Address := col_str a "address";
       OutputAddress_Signature := as_bytes (a !! "redeeming_signature");
       OutputAddress_PublicKey := as_bytes (d !! "public_key");
     |} |}.

(** The last three joins of [selectOutputs]. *)
Definition join_addresses (redeem : bool) (c : content) (o q : row) : list compositeRecord :=
  let tbl := if redeem then q else o in
  flat_map (λ a,
    flat_map (λ w,
      map (λ d, select_columns redeem o q a w d)
        (left_join (λ d, same_col d "address" a "address") (c TableAddresses)))
      (left_join (λ w, same_col tbl "id" w "id") (c TableTransactionsRewardsOwnersOutputs)))
    (left_join (λ a, same_col tbl "id" a "output_id") (c TableOutputAddresses)).

(** [collectInsAndOuts] : the outputs of the transactions and those they redeem. *)
Definition union_ids (txIDs : list string) (c : content) : list (option value) :=
  map (λ o, o !! "id") (List.filter (in_texts "transaction_id" txIDs) (c TableOutputs)) ++
  map (λ q, q !! "id") (List.filter (in_texts "redeeming_transaction_id" txIDs) (c TableOutputsRedeeming)).
Definition stored_outputs (txIDs : list string) (c : content) : list compositeRecord :=
  flat_map (λ o,
    flat_map (λ q, join_addresses false c o q)
      (left_join (λ q, same_col o "id" q "id") (c TableOutputsRedeeming)))
    (List.filter (λ o, negb (is_null o "id") && existsb (λ i, bool_decide (i = o !! "id")) (union_ids txIDs c))
       (c TableOutputs)).

(** The redeemed outputs that are not stored yet. *)
Definition unseen_outputs (txIDs : list string) (c : content) : list compositeRecord :=
  flat_map (λ q,
    flat_map (λ o, join_addresses true c o q)
      (left_join (λ o, same_col q "id" o "id") (c TableOutputs)))
    (List.filter (λ q, in_texts "redeeming_transaction_id" txIDs q &&
                       negb (existsb (λ o, same_col o "id" q "id") (c TableOutputs)))
       (c TableOutputsRedeeming)).

Definition collectInsAndOuts `{SqlEngine D} (txIDs : list string) : M D (list compositeRecord) :=
  outputs ← select (stored_outputs txIDs);
  outputs2 ← select (unseen_outputs txIDs);
  mret (outputs ++ outputs2).

(** [mapOutput] *)
Definition mapOutput (a : CvmOutput) : Output := {|
  Output_ID := CvmOutput_ID a;
  Output_TransactionID := CvmOutput_TransactionID a;
  Output_OutputIndex := CvmOutput_Idx a;
  Output_AssetID := CvmOutput_AssetID a;
  Output_Stake := false;
  Output_Frozen := false;
  Output_Stakeableout := false;
  Output_Genesisutxo := false;
  Output_OutputType :=
    if (CvmOutput_TransactionType a =? models.AXChainExport)%Z then models.OutputTypesAtomicExportTx
    else if (CvmOutput_TransactionType a =? models.AXChainImport)%Z then models.OutputTypesAtomicImportTx
    else 0;
  Output_Amount := CvmOutput_Amount a;
  Output_Locktime := 0;
  Output_StakeLocktime := 0;
  Output_Threshold := 0;
  Output_Addresses := [];
  Output_CAddresses := [CvmOutput_Address a];
  Output_CreatedAt := CvmOutput_CreatedAt a;
  Output_RedeemingTransactionID := "";
  Output_ChainID := CvmOutput_ChainID a;
  Output_InChainID := "";
  Output_OutChainID := "";
  Output_GroupID := 0;
  Output_Payload := None;
  Output_Block := CvmOutput_Block a;
  Output_Nonce := CvmOutput_Nonce a;
  Output_RewardUtxo := false;
|}.

(** [collectCvmTransactions] *)
Definition cvm_columns (a t : row) : CvmOutput := {|
  CvmOutput_Type := col_num a "type";
  CvmOutput_TransactionType := col_num t "type";
  CvmOutput_Idx := col_num a "idx";
  CvmOutput_Amount := as_str (a !! "amount");
  CvmOutput_Nonce := col_num a "nonce";
  CvmOutput_ID := col_str a "id";
  CvmOutput_TransactionID := col_str a "transaction_id";
  CvmOutput_Address := col_str a "address";
  CvmOutput_AssetID := col_str a "asset_id";
  CvmOutput_CreatedAt := as_time (a !! "created_at");
  CvmOutput_ChainID := col_str t "blockchain_id";
  CvmOutput_Block := col_str t "block";
|}.
Definition cvm_rows (txIDs : list string) (c : content) : list CvmOutput :=
  flat_map (λ a,
    map (cvm_columns a)
      (inner_join (λ t, same_col a "transaction_id" t "transaction_id") (c TableCvmTransactions)))
    (List.filter (in_texts "transaction_id" txIDs) (c TableCvmAddresses)).

Definition cvm_by_tx (ty : Z) (l : list CvmOutput) : gmap string (list Output) :=
  fold_left (λ m a,
    let outs := default [] (m !! CvmOutput_TransactionID a) in
    <[CvmOutput_TransactionID a :=
        if (CvmOutput_Type a =? ty)%Z then outs ++ [mapOutput a] else outs]> m) l ∅.

Definition collectCvmTransactions `{SqlEngine D} (txIDs : list string)
    : M D (gmap string (list Output) * gmap string (list Output)) :=
  l ← select (cvm_rows txIDs);
  mret (cvm_by_tx models.AXChainIn l, cvm_by_tx models.AXchainOut l).

(** * dressTransactions *)
Record dress_maps := mkDressMaps {
  outputAddrs : gmap string (gset string);
  inputsMap : gmap string (gmap string Input);
  outputsMap : gmap string (gmap string Output);
  inputTotalsMap : gmap string (gmap string Z);
  outputTotalsMap : gmap string (gmap string Z);
}.
Definition no_maps : dress_maps := mkDressMaps ∅ ∅ ∅ ∅ ∅.

(** [m[k1][k2] = f(m[k1][k2])], with [m[k1]] made when it is missing. *)
Definition put2 {A} (k1 k2 : string) (f : option A → A) (m : gmap string (gmap string A))
    : gmap string (gmap string A) :=
  let m1 := default ∅ (m !! k1) in <[k1 := <[k2 := f (m1 !! k2)]> m1]> m.

(** [addToBigIntMap] *)
Definition addToBigIntMap (amt : Z) (prevAmt : option Z) : Z := (amt + default 0 prevAmt)%Z.

Definition collect_output (m : dress_maps) (output : compositeRecord) : result dress_maps :=
  let out := cr_Output output in
  let addr := OutputAddress_Address (cr_OutputAddress output) in
  match big_SetString (Output_Amount out) with
  | None => Err "invalid amount"
  | Some bigAmt =>
      Ok {|
        outputAddrs := <[Output_ID out := {[addr]} ∪ default ∅ (outputAddrs m !! Output_ID out)]> (outputAddrs m);
        inputsMap := put2 (Output_RedeemingTransactionID out) (Output_ID out) (λ _, mkInput out []) (inputsMap m);
        outputsMap := put2 (Output_TransactionID out) (Output_ID out) (λ _, out) (outputsMap m);
        inputTotalsMap :=
          put2 (Output_RedeemingTransactionID out) (Output_AssetID out) (addToBigIntMap bigAmt) (inputTotalsMap m);
        outputTotalsMap :=
          put2 (Output_TransactionID out) (Output_AssetID out) (addToBigIntMap bigAmt) (outputTotalsMap m);
      |}
  end.

Fixpoint collect_outputs (m : dress_maps) (outputs : list compositeRecord) : result dress_maps :=
  match outputs with
  | [] => Ok m
  | output :: rest => m' ← collect_output m output; collect_outputs m' rest
  end.

(** The addresses of an output, without the blank one of a join that matched none. *)
Definition addresses_of (m : dress_maps) (id : string) : list string :=
  List.filter (λ a, negb (String.eqb a "")) (elements (default ∅ (outputAddrs m !! id))).

Definition with_Addresses (addrs : list string) (o : Output) : Output := {|
  Output_ID := Output_ID o;
  Output_TransactionID := Output_TransactionID o;
  Output_OutputIndex := Output_OutputIndex o;
  Output_AssetID := Output_AssetID o;
  Output_Stake := Output_Stake o;
  Output_Frozen := Output_Frozen o;
  Output_Stakeableout := Output_Stakeableout o;
  Output_Genesisutxo := Output_Genesisutxo o;
  Output_OutputType := Output_OutputType o;
  Output_Amount := Output_Amount o;
  Output_Locktime := Output_Locktime o;
  Output_StakeLocktime := Output_StakeLocktime o;
  Output_Threshold := Output_Threshold o;
  Output_Addresses := addrs;
  Output_CAddresses := Output_CAddresses o;
  Output_CreatedAt := Output_CreatedAt o;
  Output_RedeemingTransactionID := Output_RedeemingTransactionID o;
  Output_ChainID := Output_ChainID o;
  Output_InChainID := Output_InChainID o;
  Output_OutChainID := Output_OutChainID o;
  Output_GroupID := Output_GroupID o;
  Output_Payload := Output_Payload o;
  Output_Block := Output_Block o;
  Output_Nonce := Output_Nonce o;
  Output_RewardUtxo := Output_RewardUtxo o;
|}.

Definition address_output (m : dress_maps) (o : Output) : Output := with_Addresses (addresses_of m (Output_ID o)) o.
Definition address_input (m : dress_maps) (i : Input) : Input :=
  mkInput (address_output m (Input_Output i)) (Input_Creds i).

Definition add_cred (out : OutputAddress) (i : Input) : Input :=
  mkInput (Input_Output i)
    (Input_Creds i ++ [mkInputCredentials (OutputAddress_Address out) (OutputAddress_PublicKey out)
                         (OutputAddress_Signature out)]).

(** The credentials of an address that signed go to the input of its output. *)
Definition sign_input (m : gmap string (gmap string Input)) (r : compositeRecord)
    : gmap string (gmap string Input) :=
  let out := cr_OutputAddress r in
  if String.eqb (default "" (OutputAddress_Signature out)) "" then m
  else alter (λ t : gmap string Input, alter (add_cred out) (OutputAddress_OutputID out) t)
         (Output_RedeemingTransactionID (cr_Output r)) m.

(** The addresses and the credentials of every output that was collected. *)
Definition collect_addresses (m : dress_maps) (outputs : list compositeRecord) : dress_maps := {|
  outputAddrs := outputAddrs m;
  inputsMap := fold_left sign_input outputs ((λ t : gmap string Input, address_input m <$> t) <$> inputsMap m);
  outputsMap := (λ t : gmap string Output, address_output m <$> t) <$> outputsMap m;
  inputTotalsMap := inputTotalsMap m;
  outputTotalsMap := outputTotalsMap m;
|}.

Definition with_Memo (memo : option string) (tx : Transaction) : Transaction := {|
  Tx_ID := Tx_ID tx;
  Tx_ChainID := Tx_ChainID tx;
  Tx_Type := Tx_Type tx;
  Tx_Inputs := Tx_Inputs tx;
  Tx_Outputs := Tx_Outputs tx;
  Tx_Memo := memo;
  Tx_InputTotals := Tx_InputTotals tx;
  Tx_OutputTotals := Tx_OutputTotals tx;
  Tx_CreatedAt := Tx_CreatedAt tx;
  Tx_Txfee := Tx_Txfee tx;
  Tx_Genesis := Tx_Genesis tx;
  Tx_Rewarded := Tx_Rewarded tx;
  Tx_RewardedTime := Tx_RewardedTime tx;
  Tx_Epoch := Tx_Epoch tx;
  Tx_VertexID := Tx_VertexID tx;
  Tx_ValidatorNodeID := Tx_ValidatorNodeID tx;
  Tx_ValidatorStart := Tx_ValidatorStart tx;
  Tx_ValidatorEnd := Tx_ValidatorEnd tx;
  Tx_TxBlockID := Tx_TxBlockID tx;
  Tx_Proposer := Tx_Proposer tx;
|}.

Definition with_Proposer (proposer : option PvmProposerModel) (tx : Transaction) : Transaction := {|
  Tx_ID := Tx_ID tx;
  Tx_ChainID := Tx_ChainID tx;
  Tx_Type := Tx_Type tx;
  Tx_Inputs := Tx_Inputs tx;
  Tx_Outputs := Tx_Outputs tx;
  Tx_Memo := Tx_Memo tx;
  Tx_InputTotals := Tx_InputTotals tx;
  Tx_OutputTotals := Tx_OutputTotals tx;
  Tx_CreatedAt := Tx_CreatedAt tx;
  Tx_Txfee := Tx_Txfee tx;
  Tx_Genesis := Tx_Genesis tx;
  Tx_Rewarded := Tx_Rewarded tx;
  Tx_RewardedTime := Tx_RewardedTime tx;
  Tx_Epoch := Tx_Epoch tx;
  Tx_VertexID := Tx_VertexID tx;
  Tx_ValidatorNodeID := Tx_ValidatorNodeID tx;
  Tx_ValidatorStart := Tx_ValidatorStart tx;
  Tx_ValidatorEnd := Tx_ValidatorEnd tx;
  Tx_TxBlockID := Tx_TxBlockID tx;
  Tx_Proposer := proposer;
|}.

Definition set_proposer (m : gmap string PvmProposerModel) (tx : Transaction) : Transaction :=
  match m !! Tx_TxBlockID tx with Some proposer => with_Proposer (Some proposer) tx | None => tx end.

(** The values of a Go map. *)
Definition values {A} (m : option (gmap string A)) : list A := map snd (map_to_list (default ∅ m)).

(** [models.AssetTokenCounts] *)
Definition totals_text (m : option (gmap string Z)) : gmap string string := Z_to_string <$> default ∅ m.

Section dress.
Context `{!AxiaIds} `{!Dbr}.

(** A transaction of [dressTransactionsTx]. *)
Definition dress_tx (disableGenesis : bool) (txID : option ID) (axcAssetID : ID) (m : dress_maps)
  (rewardsTypesMap : gmap string rewardsTypeModel) (cvmins cvmouts : gmap string (list Output))
  (tx : Transaction) : Transaction :=
if disableGenesis && bool_decide (txID = None) && String.eqb (Tx_ID tx) (ID_String axcAssetID) then tx
else {|
  Tx_ID := Tx_ID tx;
  Tx_ChainID := Tx_ChainID tx;
  Tx_Type := Tx_Type tx;
  Tx_Inputs := Tx_Inputs tx ++ values (inputsMap m !! Tx_ID tx) ++
    map (λ o, mkInput o []) (default [] (cvmins !! Tx_ID tx));
  Tx_Outputs := Tx_Outputs tx ++ values (outputsMap m !! Tx_ID tx) ++ default [] (cvmouts !! Tx_ID tx);
  Tx_Memo := Tx_Memo tx;
  Tx_InputTotals := totals_text (inputTotalsMap m !! Tx_ID tx);
  Tx_OutputTotals := totals_text (outputTotalsMap m !! Tx_ID tx);
  Tx_CreatedAt := Tx_CreatedAt tx;
  Tx_Txfee := Tx_Txfee tx;
  Tx_Genesis := Tx_Genesis tx;
  Tx_Rewarded :=
    match rewardsTypesMap !! Tx_ID tx with
    | Some rewardsType => (RT_Type rewardsType =? models.BlockTypeCommit)%Z
    | None => Tx_Rewarded tx
    end;
  Tx_RewardedTime :=
    match rewardsTypesMap !! Tx_ID tx with
    | Some rewardsType => Some (RT_CreatedAt rewardsType)
    | None => Tx_RewardedTime tx
    end;
  Tx_Epoch := Tx_Epoch tx;
  Tx_VertexID := Tx_VertexID tx;
  Tx_ValidatorNodeID := Tx_ValidatorNodeID tx;
  Tx_ValidatorStart := Tx_ValidatorStart tx;
  Tx_ValidatorEnd := Tx_ValidatorEnd tx;
  Tx_TxBlockID := Tx_TxBlockID tx;
  Tx_Proposer := Tx_Proposer tx;
|}.

Definition dressTransactionsTx (disableGenesis : bool) (txID : option ID) (axcAssetID : ID) (m : dress_maps)
  (rewardsTypesMap : gmap string rewardsTypeModel) (cvmins cvmouts : gmap string (list Output))
  (txs : list Transaction) : list Transaction :=
map (dress_tx disableGenesis txID axcAssetID m rewardsTypesMap cvmins cvmouts) txs.

(** What is made of the answers of the queries. *)
Definition dressed_maps (outputs : list compositeRecord) : result dress_maps :=
m ← collect_outputs no_maps outputs; Ok (collect_addresses m outputs).

(** The blocks of the transactions, each once. *)
Definition block_ids (txs : list Transaction) : list string :=
fold_left (λ l tx, if String.eqb (Tx_TxBlockID tx) "" || existsb (String.eqb (Tx_TxBlockID tx)) l
                   then l else l ++ [Tx_TxBlockID tx]) txs [].

Definition dressTransactions `{SqlEngine D} (txs : list Transaction) (axcAssetID : ID) (txID : option ID)
  (disableGenesis : bool) : M D (list Transaction) :=
if (length txs =? 0) then mret txs
else
  let txs := map (λ tx, match Tx_Memo tx with None => with_Memo (Some "") tx | Some _ => tx end) txs in
  let txIDs := map Tx_ID txs in
  proposersMap ← resolveProposers (block_ids txs);
  let txs := map (set_proposer proposersMap) txs in
  rewardsTypesMap ← resolveRewarded txIDs;
  outputs ← collectInsAndOuts txIDs;
  m ← lift_result (dressed_maps outputs);
  '(cvmin, cvmout) ← collectCvmTransactions txIDs;
  mret (dressTransactionsTx disableGenesis txID axcAssetID m rewardsTypesMap cvmin cvmout txs).

(** * The answer *)
Section reader.
Context `{!SqlText} `{SqlEngine D}.
Context (IsAggregateCache : bool) (txAsc txDesc : ReaderAggregateTxList).

(** How many transactions there are, as far as the page tells. *)
Definition tx_count (lp : ListParams) (n : Z) : option Z :=
if LP_DisableCounting lp then None
else if (LP_Limit lp <=? n)%Z then Some (u64_add (u64_add (LP_Offset lp) n) 1)
else Some (u64_add (LP_Offset lp) n).

Definition ListTransactions (p : ListTransactionsParams) (axcAssetID : ID) : M D TransactionList :=
let lp := LT_ListParams p in
'(txs, dressed) ← listTxs IsAggregateCache txAsc txDesc p;
txs ← (if dressed : bool then mret txs
     else dressTransactions txs axcAssetID (LP_ID lp) (LT_DisableGenesis p));
mret {|
TL_Count := tx_count lp (Z.of_nat (length txs));
TL_Transactions := txs;
TL_StartTime := LP_StartTime lp;
TL_EndTime := LP_EndTime lp;
TL_Next := transactionProcessNext txs p;
|}.

(** The parameters of a request for one transaction. *)
Definition params_of_ID (id : ID) : ListParams :=
mkListParams ∅ (Some id) "" 0 0 true false false zero_time zero_time.

Definition GetTransaction (id axcAssetID : ID) : M D (option Transaction) :=
txList ← ListTransactions
(mkListTransactionsParams (params_of_ID id) [] [] None [] [] false TransactionSortTimestampAsc) axcAssetID;
mret (head (TL_Transactions txList)).

(** [runTx] of [processorTxAscFetch] : the transactions kept in memory, none when
a query fails. *)
Definition first_txs (c : content) : list Transaction :=
take (Z.to_nat 5000)
(order_by (tx_order TransactionSortTimestampAsc) (flat_map (join_transaction c) (c TableTransactions))).
Definition processorTxAscFetch (axcAssetID : ID) : M D ReaderAggregateTxList := λ d,
match (txsAsc ← select first_txs; dressTransactions txsAsc axcAssetID None false) d with
| (d, Ok txsAsc) => (d, Ok (TxList_Set (Some txsAsc)))
| (d, Err _) => (d, Ok (TxList_Set None))
end.
End reader.
End dress.
