(* ===== verification/ReaderRows.v ===== *)
(** The records the transactions are dressed with (ReaderDress.v): the maps that
    collect them, and the rows of the tables behind the joins. *)

From S2P Require Import Prelude Errors Sql MemDb DbModel Persist Persistence Axia Models Utils GoText Params Query ReaderModels ReaderTxs ReaderDress.

(** * The maps of [dressTransactions] *)
Definition lookup2 {A} (m : gmap string (gmap string A)) (k1 k2 : string) : option A := m !! k1 ≫= lookup k2.

Lemma lookup2_put2 {A} k1 k2 (f : option A → A) m j1 j2 :
  lookup2 (put2 k1 k2 f m) j1 j2 =
  if decide (j1 = k1 ∧ j2 = k2) then Some (f (lookup2 m k1 k2)) else lookup2 m j1 j2.
Proof.
  unfold lookup2, put2. destruct (decide (j1 = k1)) as [->|Hne].
  - rewrite lookup_insert_eq. simpl. destruct (decide (j2 = k2)) as [->|Hne2].
    + rewrite lookup_insert_eq, decide_True by done. by destruct (m !! k1).
    + rewrite lookup_insert_ne, decide_False by naive_solver. by destruct (m !! k1).
  - rewrite lookup_insert_ne, decide_False by naive_solver. done.
Qed.

Definition cr_ID (r : compositeRecord) : string := Output_ID (cr_Output r).
Definition cr_tx (r : compositeRecord) : string := Output_TransactionID (cr_Output r).
Definition cr_redeemer (r : compositeRecord) : string := Output_RedeemingTransactionID (cr_Output r).
Definition cr_asset (r : compositeRecord) : string := Output_AssetID (cr_Output r).
Definition cr_amount (r : compositeRecord) : Z := default 0%Z (big_SetString (Output_Amount (cr_Output r))).

(** The records of a transaction, as its outputs or as its inputs, in an asset. *)
Definition of_asset (tx : compositeRecord → string) (t a : string) (l : list compositeRecord) : list compositeRecord :=
  List.filter (λ r, String.eqb (tx r) t && String.eqb (cr_asset r) a) l.

Lemma collect_output_inv m r m' :
  collect_output m r = Ok m' → ∃ amt, big_SetString (Output_Amount (cr_Output r)) = Some amt.
Proof. unfold collect_output. destruct (big_SetString _) as [amt|]; [by exists amt|done]. Qed.

(** A map that each record updates under two keys. *)
Lemma collect_outputs_fold {A} (proj : dress_maps → gmap string (gmap string A))
    (k1 k2 : compositeRecord → string) (f : compositeRecord → option A → A) outputs m m' :
  (∀ m r m', collect_output m r = Ok m' → proj m' = put2 (k1 r) (k2 r) (f r) (proj m)) →
  collect_outputs m outputs = Ok m' →
  proj m' = fold_left (λ t r, put2 (k1 r) (k2 r) (f r) t) outputs (proj m).
Proof.
  intros Hstep. revert m. induction outputs as [|r l IH]; intros m; simpl; [by intros [= ->]|].
  unfold mbind, result_bind. destruct (collect_output m r) as [m1|] eqn:E; [|done]. intros Hl.
  rewrite (IH _ Hl). by rewrite (Hstep _ _ _ E).
Qed.

Lemma fold_put2_last {A} (k1 k2 : compositeRecord → string) (v : compositeRecord → A) l t j1 j2 :
  is_Some (lookup2 (fold_left (λ t r, put2 (k1 r) (k2 r) (λ _, v r) t) l t) j1 j2) ↔
  is_Some (lookup2 t j1 j2) ∨ ∃ r, r ∈ l ∧ k1 r = j1 ∧ k2 r = j2.
Proof.
  revert t. induction l as [|r l IH]; intros t; simpl.
  - split; [by left|]. intros [?|(r & Hr & _)]; [done|]. by apply elem_of_nil in Hr.
  - rewrite IH, lookup2_put2. setoid_rewrite elem_of_cons. case_decide as Hd.
    + destruct Hd as [-> ->]. naive_solver eauto.
    + naive_solver.
Qed.

(** Every value comes from a record. *)
Lemma fold_put2_value {A} (k1 k2 : compositeRecord → string) (v : compositeRecord → A) l t j1 j2 x :
  lookup2 (fold_left (λ t r, put2 (k1 r) (k2 r) (λ _, v r) t) l t) j1 j2 = Some x →
  lookup2 t j1 j2 = Some x ∨ ∃ r, r ∈ l ∧ k1 r = j1 ∧ k2 r = j2 ∧ x = v r.
Proof.
  revert t. induction l as [|r l IH]; intros t; simpl; [by left|].
  intros [E|(r' & Hr & ?)]%IH; [|right; exists r'; by rewrite elem_of_cons; eauto].
  rewrite lookup2_put2 in E. case_decide as Hd; [|by left].
  injection E as <-. right. exists r. rewrite elem_of_cons. naive_solver.
Qed.

Lemma fold_put2_sum (k1 k2 : compositeRecord → string) (amt : compositeRecord → Z) l t j1 j2 :
  let sel := List.filter (λ r, String.eqb (k1 r) j1 && String.eqb (k2 r) j2) l in
  lookup2 (fold_left (λ t r, put2 (k1 r) (k2 r) (addToBigIntMap (amt r)) t) l t) j1 j2 =
  match lookup2 t j1 j2, sel with
  | None, [] => None
  | o, _ => Some (default 0 o + sum_with amt sel)%Z
  end.
Proof.
  revert t. induction l as [|r l IH]; intros t; cbn zeta in *; simpl.
  - destruct (lookup2 t j1 j2); [|done]. simpl. f_equal. unfold sum_with. simpl. lia.
  - rewrite IH, lookup2_put2. clear IH.
    destruct (decide (j1 = k1 r ∧ j2 = k2 r)) as [[-> ->]|Hd].
    + rewrite !String.eqb_refl. simpl. unfold sum_with, addToBigIntMap. simpl.
      destruct (lookup2 t (k1 r) (k2 r)); simpl; f_equal; lia.
    + assert (String.eqb (k1 r) j1 && String.eqb (k2 r) j2 = false) as ->; [|done].
      destruct (String.eqb_spec (k1 r) j1), (String.eqb_spec (k2 r) j2); naive_solver.
Qed.

(** ** What is collected *)
Definition cr_address (r : compositeRecord) : string := OutputAddress_Address (cr_OutputAddress r).

Lemma lookup2_empty {A} j1 j2 : lookup2 (∅ : gmap string (gmap string A)) j1 j2 = None.
Proof. unfold lookup2. by rewrite lookup_empty. Qed.

Lemma lookup2_fmap {A B} (f : A → B) (m : gmap string (gmap string A)) j1 j2 :
  lookup2 ((λ t : gmap string A, f <$> t) <$> m) j1 j2 = f <$> lookup2 m j1 j2.
Proof. unfold lookup2. rewrite lookup_fmap. destruct (m !! j1); simpl; [by rewrite lookup_fmap|done]. Qed.

Ltac collected := intros m0 r0 m0'; unfold collect_output; let E := fresh "E" in destruct (big_SetString _) eqn:E; [|done]; intros [= <-]; simpl;
  unfold cr_amount; rewrite ?E; done.

Section collected.
Context (outputs : list compositeRecord) (m : dress_maps).
Hypothesis Hm : collect_outputs no_maps outputs = Ok m.

Lemma outputsMap_fold :
outputsMap m = fold_left (λ t r, put2 (cr_tx r) (cr_ID r) (λ _, cr_Output r) t) outputs ∅.
Proof. apply (collect_outputs_fold outputsMap cr_tx cr_ID _ outputs no_maps m); [collected|done]. Qed.

Lemma inputsMap_fold :
inputsMap m = fold_left (λ t r, put2 (cr_redeemer r) (cr_ID r) (λ _, mkInput (cr_Output r) []) t) outputs ∅.
Proof. apply (collect_outputs_fold inputsMap cr_redeemer cr_ID _ outputs no_maps m); [collected|done]. Qed.

Lemma outputTotals_fold :
outputTotalsMap m = fold_left (λ t r, put2 (cr_tx r) (cr_asset r) (addToBigIntMap (cr_amount r)) t) outputs ∅.
Proof. apply (collect_outputs_fold outputTotalsMap cr_tx cr_asset (λ r, addToBigIntMap (cr_amount r)) outputs no_maps m); [collected|done]. Qed.

Lemma inputTotals_fold :
inputTotalsMap m = fold_left (λ t r, put2 (cr_redeemer r) (cr_asset r) (addToBigIntMap (cr_amount r)) t) outputs ∅.
Proof. apply (collect_outputs_fold inputTotalsMap cr_redeemer cr_asset (λ r, addToBigIntMap (cr_amount r)) outputs no_maps m); [collected|done]. Qed.

Lemma elem_of_outputAddrs i a :
a ∈ default ∅ (outputAddrs m !! i) ↔ ∃ r, r ∈ outputs ∧ cr_ID r = i ∧ cr_address r = a.
Proof.
assert (∀ m0 m1, collect_outputs m0 outputs = Ok m1 →
  a ∈ default ∅ (outputAddrs m1 !! i) ↔
  a ∈ default ∅ (outputAddrs m0 !! i) ∨ ∃ r, r ∈ outputs ∧ cr_ID r = i ∧ cr_address r = a) as H.
{ clear m Hm. induction outputs as [|r l IH]; intros m0 m1; simpl.
  - intros [= ->]. setoid_rewrite elem_of_nil. naive_solver.
  - unfold mbind, result_bind. destruct (collect_output m0 r) as [m2|] eqn:E; [|done]. intros Hl.
    rewrite (IH _ _ Hl). clear IH Hl. unfold collect_output in E. destruct (big_SetString _); [|done].
    injection E as <-. simpl. setoid_rewrite elem_of_cons.
    destruct (decide (i = cr_ID r)) as [->|Hne].
    + unfold cr_ID. rewrite lookup_insert_eq. simpl. rewrite elem_of_union, elem_of_singleton.
      unfold cr_address. naive_solver.
    + rewrite lookup_insert_ne by (by unfold cr_ID in Hne). naive_solver. }
rewrite (H _ _ Hm). simpl. rewrite lookup_empty. simpl. set_solver.
Qed.

Lemma elem_of_addresses_of i a :
a ∈ addresses_of m i ↔ a ≠ "" ∧ ∃ r, r ∈ outputs ∧ cr_ID r = i ∧ cr_address r = a.
Proof.
unfold addresses_of. rewrite list_elem_of_In, filter_In, <-list_elem_of_In, elem_of_elements, elem_of_outputAddrs.
destruct (String.eqb_spec a ""); naive_solver.
Qed.
End collected.

(** ** The values of a map *)
Section map_values.
Context {A : Type} (key : A → string) (m : gmap string (gmap string A)).
Hypothesis Hkey : ∀ t i x, lookup2 m t i = Some x → key x = i.

Lemma elem_of_values t x : x ∈ values (m !! t) ↔ ∃ i, lookup2 m t i = Some x.
Proof.
unfold values, lookup2. destruct (m !! t) as [t0|]; simpl.
- change (map snd ?l) with (snd <$> l). rewrite list_elem_of_fmap. split.
  + intros ([i y] & -> & Hi). exists i. by apply elem_of_map_to_list.
  + intros [i Hi]. exists (i, x). split; [done|]. by apply elem_of_map_to_list.
- rewrite map_to_list_empty. split; [intros H; by apply elem_of_nil in H|naive_solver].
Qed.

Lemma elem_of_map_values t i : i ∈ map key (values (m !! t)) ↔ is_Some (lookup2 m t i).
Proof.
change (map key ?l) with (key <$> l). rewrite list_elem_of_fmap. split.
- intros (x & -> & [j Hj]%elem_of_values). by rewrite (Hkey _ _ _ Hj), Hj.
- intros [x Hx]. exists x. split; [by erewrite Hkey|]. apply elem_of_values. by exists i.
Qed.

Lemma NoDup_map_values t : NoDup (map key (values (m !! t))).
Proof.
unfold values. destruct (m !! t) as [t0|] eqn:E; simpl; [|rewrite map_to_list_empty; constructor].
rewrite map_map. erewrite map_ext_in; [apply (NoDup_fst_map_to_list t0)|].
intros [i x] Hin. simpl. apply (Hkey t). unfold lookup2. rewrite E. simpl.
by apply elem_of_map_to_list, list_elem_of_In.
Qed.
End map_values.

(** ** The credentials *)
Definition signed (r : compositeRecord) : bool :=
  negb (String.eqb (default "" (OutputAddress_Signature (cr_OutputAddress r))) "").
Definition cred_of (r : compositeRecord) : InputCredentials :=
  let out := cr_OutputAddress r in
  mkInputCredentials (OutputAddress_Address out) (OutputAddress_PublicKey out) (OutputAddress_Signature out).

(** The records that sign the input [i] of the transaction [t]. *)
Definition creds_in (t i : string) (l : list compositeRecord) : list InputCredentials :=
  map cred_of
    (List.filter (λ r, signed r && String.eqb (cr_redeemer r) t &&
                       String.eqb (OutputAddress_OutputID (cr_OutputAddress r)) i) l).

Lemma lookup2_sign_inputs l m t i :
  lookup2 (fold_left sign_input l m) t i =
  (λ x, mkInput (Input_Output x) (Input_Creds x ++ creds_in t i l)) <$> lookup2 m t i.
Proof.
  revert m. induction l as [|r l IH]; intros m.
  - simpl. unfold creds_in. simpl. destruct (lookup2 m t i) as [[o cr]|]; simpl; [|done].
    by rewrite app_nil_r.
  - cbn [fold_left]. rewrite IH. clear IH. unfold sign_input, creds_in, signed. cbn [List.filter].
    destruct (String.eqb (default "" _) ""); cbn [negb andb]; [done|].
    unfold cr_redeemer, lookup2. rewrite lookup_alter.
    destruct (String.eqb_spec (Output_RedeemingTransactionID (cr_Output r)) t) as [->|Hne];
      [rewrite decide_True by done|by rewrite decide_False by done].
    destruct (m !! t) as [t0|]; simpl; [|done]. rewrite lookup_alter.
    destruct (String.eqb_spec (OutputAddress_OutputID (cr_OutputAddress r)) i) as [->|Hne2];
      [rewrite decide_True by done|by rewrite decide_False by done].
    destruct (t0 !! i) as [[o cr]|]; simpl; [|done]. unfold cred_of. by rewrite <-app_assoc.
Qed.

(** * What a transaction is dressed with *)
Section dressed.
Context (outputs : list compositeRecord) (m : dress_maps).
Hypothesis Hm : dressed_maps outputs = Ok m.

Lemma dressed_maps_inv : ∃ m0, collect_outputs no_maps outputs = Ok m0 ∧ m = collect_addresses m0 outputs.
Proof.
unfold dressed_maps, mbind, result_bind in Hm. destruct (collect_outputs _ _) as [m0|]; [|done].
injection Hm as <-. by exists m0.
Qed.

Lemma dressed_output t i :
is_Some (lookup2 (outputsMap m) t i) ↔ ∃ r, r ∈ outputs ∧ cr_tx r = t ∧ cr_ID r = i.
Proof.
destruct dressed_maps_inv as (m0 & E & ->). simpl.
rewrite lookup2_fmap, fmap_is_Some, (outputsMap_fold _ _ E), fold_put2_last, lookup2_empty.
split; [intros [[? [=]]|?]; done|by right].
Qed.

Lemma dressed_output_value t i o :
lookup2 (outputsMap m) t i = Some o →
∃ r, r ∈ outputs ∧ cr_tx r = t ∧ cr_ID r = i ∧ ∃ addrs, o = with_Addresses addrs (cr_Output r) ∧
  ∀ a, a ∈ addrs ↔ a ≠ "" ∧ ∃ r, r ∈ outputs ∧ cr_ID r = i ∧ cr_address r = a.
Proof.
destruct dressed_maps_inv as (m0 & E & ->). simpl. rewrite lookup2_fmap, (outputsMap_fold _ _ E).
intros (o0 & H & ->)%fmap_Some_1. apply fold_put2_value in H as [H|(r & Hr & Ht & Hi & ->)].
{ by rewrite lookup2_empty in H. }
exists r. split_and!; [done..|]. eexists. split; [done|]. intros a.
change (Output_ID (cr_Output r)) with (cr_ID r). rewrite Hi. by apply elem_of_addresses_of.
Qed.

Lemma dressed_input t i :
is_Some (lookup2 (inputsMap m) t i) ↔ ∃ r, r ∈ outputs ∧ cr_redeemer r = t ∧ cr_ID r = i.
Proof.
destruct dressed_maps_inv as (m0 & E & ->). simpl.
rewrite lookup2_sign_inputs, fmap_is_Some, lookup2_fmap, fmap_is_Some, (inputsMap_fold _ _ E),
  fold_put2_last, lookup2_empty.
split; [intros [[? [=]]|?]; done|by right].
Qed.

Lemma dressed_input_value t i x :
lookup2 (inputsMap m) t i = Some x →
Output_ID (Input_Output x) = i ∧ Input_Creds x = creds_in t i outputs.
Proof.
destruct dressed_maps_inv as (m0 & E & ->). simpl.
rewrite lookup2_sign_inputs, lookup2_fmap, (inputsMap_fold _ _ E).
intros (x0 & H & ->)%fmap_Some_1. apply fmap_Some_1 in H as (x1 & H & ->).
apply fold_put2_value in H as [H|(r & Hr & Ht & Hi & ->)]; [by rewrite lookup2_empty in H|]. done.
Qed.

Lemma dressed_outputTotal t a :
lookup2 (outputTotalsMap m) t a =
match of_asset cr_tx t a outputs with [] => None | l => Some (sum_with cr_amount l) end.
Proof.
destruct dressed_maps_inv as (m0 & E & ->). simpl. rewrite (outputTotals_fold _ _ E).
rewrite (fold_put2_sum cr_tx cr_asset cr_amount), lookup2_empty. unfold of_asset.
by destruct (List.filter _ outputs).
Qed.

Lemma dressed_inputTotal t a :
lookup2 (inputTotalsMap m) t a =
match of_asset cr_redeemer t a outputs with [] => None | l => Some (sum_with cr_amount l) end.
Proof.
destruct dressed_maps_inv as (m0 & E & ->). simpl. rewrite (inputTotals_fold _ _ E).
rewrite (fold_put2_sum cr_redeemer cr_asset cr_amount), lookup2_empty. unfold of_asset.
by destruct (List.filter _ outputs).
Qed.

Lemma dressed_output_key t i o : lookup2 (outputsMap m) t i = Some o → Output_ID o = i.
Proof. intros (r & _ & _ & Hi & addrs & -> & _)%dressed_output_value. exact Hi. Qed.
Lemma dressed_input_key t i x : lookup2 (inputsMap m) t i = Some x → Output_ID (Input_Output x) = i.
Proof. by intros [? _]%dressed_input_value. Qed.
End dressed.

(** * The rows behind the records *)
Lemma elem_of_left_join on t x :
  x ∈ left_join on t ↔ (x ∈ t ∧ on x = true) ∨ (x = ∅ ∧ ∀ y, y ∈ t → on y = false).
Proof.
  unfold left_join. destruct (List.filter on t) as [|y l] eqn:E.
  - rewrite list_elem_of_singleton. split.
    + intros ->. right. split; [done|]. intros y Hy. apply not_true_iff_false. intros Hon.
      apply (elem_of_nil y). rewrite <-E. by rewrite list_elem_of_In, filter_In, <-list_elem_of_In.
    + intros [[Hx Hon]|[-> _]]; [|done]. exfalso. apply (elem_of_nil x). rewrite <-E.
      by rewrite list_elem_of_In, filter_In, <-list_elem_of_In.
  - rewrite <-E, list_elem_of_In, filter_In, <-list_elem_of_In. split; [by left|].
    intros [?|[-> H]]; [done|]. exfalso.
    assert (y ∈ List.filter on t) as Hy by (rewrite E; left).
    rewrite list_elem_of_In, filter_In, <-list_elem_of_In in Hy. destruct Hy as [Hy Hon].
    by rewrite H in Hon.
Qed.

Lemma left_join_exists on t : ∃ x, x ∈ left_join on t.
Proof. unfold left_join. destruct (List.filter on t) as [|y l]; [exists ∅|exists y]; left. Qed.

(** The column [c] of the row holds the text [s]. *)
Definition has_text (r : row) (c s : string) : Prop := r !! c = Some (VStr s).
Definition text_cols (cs : list string) (r : row) : bool :=
  forallb (λ c, match r !! c with Some (VStr _) => true | _ => false end) cs.

(** The columns of ids hold texts, as the writers fill them. *)
Definition typed (c : content) : bool :=
  forallb (text_cols ["id"; "transaction_id"]) (c TableOutputs) &&
  forallb (text_cols ["id"; "redeeming_transaction_id"; "intx"]) (c TableOutputsRedeeming) &&
  forallb (text_cols ["output_id"; "address"]) (c TableOutputAddresses).

Lemma typed_text t r cs :
row_typed t r = true → forallb (λ c, bool_decide (assoc c (table_columns t) = Some TText)) cs = true →
text_cols cs r = true.
Proof.
intros Hr Hc. unfold text_cols. rewrite forallb_forall in *. intros c Hin. specialize (Hc c Hin).
apply bool_decide_eq_true in Hc. pose proof (row_typed_col t r c TText Hc Hr) as Hv.
destruct (r !! c) as [[]|]; done.
Qed.

(** Every write keeps the tables typed (Persistence.perform_typed). *)
Lemma well_typed_typed c : well_typed c → typed c = true.
Proof.
intros Ht. unfold typed. rewrite !andb_true_iff, !forallb_forall. split_and!; intros r Hr%list_elem_of_In;
  (eapply typed_text; [by apply Ht|reflexivity]).
Qed.

#[global] Instance typed_proper : Proper (content_eq ==> (=)) typed.
Proof.
  intros c c' E. unfold typed.
  assert (∀ f t, forallb f (c t) = forallb f (c' t)) as H; [|by rewrite !H].
  intros f t. apply eq_true_iff_eq. rewrite !forallb_forall. setoid_rewrite <-list_elem_of_In.
  by setoid_rewrite (E t).
Qed.

Lemma text_cols_col r cs c : text_cols cs r = true → c ∈ cs → ∃ s, has_text r c s.
Proof.
  unfold text_cols. rewrite forallb_forall. intros H Hc%list_elem_of_In. specialize (H c Hc).
  unfold has_text. destruct (r !! c) as [[]|]; try done. by eexists.
Qed.

Lemma has_text_col r c s : has_text r c s → col_str r c = s.
Proof. unfold has_text, col_str. by intros ->. Qed.

Lemma col_str_text r cs c s : text_cols cs r = true → c ∈ cs → col_str r c = s ↔ has_text r c s.
Proof.
  intros Ht Hc. destruct (text_cols_col _ _ _ Ht Hc) as [s' Hs']. rewrite (has_text_col _ _ _ Hs').
  unfold has_text in *. rewrite Hs'. naive_solver.
Qed.

Lemma same_col_text r1 c1 r2 c2 s :
  has_text r1 c1 s → same_col r1 c1 r2 c2 = true ↔ has_text r2 c2 s.
Proof. unfold same_col, has_text. intros ->. rewrite bool_decide_eq_true. naive_solver. Qed.

Lemma in_texts_true c vs r : in_texts c vs r = true ↔ ∃ v, v ∈ vs ∧ has_text r c v.
Proof.
  unfold in_texts, has_text. rewrite existsb_exists. setoid_rewrite <-list_elem_of_In.
  unfold matches. cbn [forallb cond_holds]. setoid_rewrite andb_true_r.
  setoid_rewrite bool_decide_eq_true. naive_solver.
Qed.

Lemma elem_of_filter_rows (f : row → bool) l r : r ∈ List.filter f l ↔ r ∈ l ∧ f r = true.
Proof. by rewrite !list_elem_of_In, filter_In. Qed.

Lemma elem_of_flat_map {A B} (f : A → list B) l y : y ∈ flat_map f l ↔ ∃ x, x ∈ l ∧ y ∈ f x.
Proof. rewrite list_elem_of_In, in_flat_map. by setoid_rewrite list_elem_of_In. Qed.

Lemma elem_of_map {A B} (f : A → B) l y : y ∈ map f l ↔ ∃ x, x ∈ l ∧ y = f x.
Proof. change (map f l) with (f <$> l). rewrite list_elem_of_fmap. naive_solver. Qed.

Lemma elem_of_join_addresses (redeem : bool) c o q r :
  r ∈ join_addresses redeem c o q → ∃ a w d,
    a ∈ left_join (λ a, same_col (if redeem then q else o) "id" a "output_id") (c TableOutputAddresses) ∧
    r = select_columns redeem o q a w d.
Proof.
  unfold join_addresses. rewrite elem_of_flat_map. intros (a & Ha & H).
  apply elem_of_flat_map in H as (w & Hw & H). apply elem_of_map in H as (d & Hd & ->).
  by exists a, w, d.
Qed.

Lemma join_addresses_address (redeem : bool) c o q a :
  a ∈ left_join (λ a, same_col (if redeem then q else o) "id" a "output_id") (c TableOutputAddresses) →
  ∃ w d, select_columns redeem o q a w d ∈ join_addresses redeem c o q.
Proof.
  intros Ha.
  destruct (left_join_exists (λ w, same_col (if redeem then q else o) "id" w "id")
              (c TableTransactionsRewardsOwnersOutputs)) as [w Hw].
  destruct (left_join_exists (λ d, same_col d "address" a "address") (c TableAddresses)) as [d Hd].
  exists w, d. unfold join_addresses. apply elem_of_flat_map. exists a. split; [done|].
  apply elem_of_flat_map. exists w. split; [done|]. apply elem_of_map. by exists d.
Qed.

(** ** What the tables say of the transactions of an answer *)
Definition stored (c : content) (i : string) : Prop := ∃ o, o ∈ c TableOutputs ∧ has_text o "id" i.

(** The transaction [t] redeems the output [i]. *)
Definition redeems (c : content) (t i : string) : Prop :=
  ∃ q, q ∈ c TableOutputsRedeeming ∧ has_text q "id" i ∧ has_text q "redeeming_transaction_id" t.

(** [t] creates the output [i]: it is stored, or it is only known as redeemed by one
    of the transactions of the answer. *)
Definition creates (c : content) (txIDs : list string) (t i : string) : Prop :=
  (∃ o, o ∈ c TableOutputs ∧ has_text o "id" i ∧ has_text o "transaction_id" t) ∨
  (¬ stored c i ∧ ∃ q t', q ∈ c TableOutputsRedeeming ∧ has_text q "id" i ∧ has_text q "intx" t ∧
     has_text q "redeeming_transaction_id" t' ∧ t' ∈ txIDs).

Definition has_address (c : content) (i a : string) : Prop :=
  ∃ r, r ∈ c TableOutputAddresses ∧ has_text r "output_id" i ∧ has_text r "address" a.

#[global] Instance stored_proper : Proper (content_eq ==> (=) ==> iff) stored.
Proof. intros c c' E i ? <-. unfold stored. by setoid_rewrite (E TableOutputs). Qed.
#[global] Instance redeems_proper : Proper (content_eq ==> (=) ==> (=) ==> iff) redeems.
Proof. intros c c' E t ? <- i ? <-. unfold redeems. by setoid_rewrite (E TableOutputsRedeeming). Qed.
#[global] Instance creates_proper : Proper (content_eq ==> (=) ==> (=) ==> (=) ==> iff) creates.
Proof.
  intros c c' E l ? <- t ? <- i ? <-. unfold creates. rewrite E.
  setoid_rewrite (E TableOutputs). by setoid_rewrite (E TableOutputsRedeeming).
Qed.
#[global] Instance has_address_proper : Proper (content_eq ==> (=) ==> (=) ==> iff) has_address.
Proof. intros c c' E i ? <- a ? <-. unfold has_address. by setoid_rewrite (E TableOutputAddresses). Qed.

Section rows.
Context (c : content) (txIDs : list string).
Hypothesis Hty : typed c = true.

Lemma typed_output o k : o ∈ c TableOutputs → k ∈ ["id"; "transaction_id"] → ∃ s, has_text o k s.
Proof.
intros Ho. apply text_cols_col. unfold typed in Hty. rewrite !andb_true_iff, !forallb_forall in Hty.
apply Hty. by apply list_elem_of_In.
Qed.
Lemma typed_redeeming q k :
q ∈ c TableOutputsRedeeming → k ∈ ["id"; "redeeming_transaction_id"; "intx"] → ∃ s, has_text q k s.
Proof.
intros Hq. apply text_cols_col. unfold typed in Hty. rewrite !andb_true_iff, !forallb_forall in Hty.
apply Hty. by apply list_elem_of_In.
Qed.
Lemma typed_address a k : a ∈ c TableOutputAddresses → k ∈ ["output_id"; "address"] → ∃ s, has_text a k s.
Proof.
intros Ha. apply text_cols_col. unfold typed in Hty. rewrite !andb_true_iff, !forallb_forall in Hty.
apply Hty. by apply list_elem_of_In.
Qed.

(** The address of a record is the one of a row, or blank when none matches. *)
Lemma joined_address tbl i a :
has_text tbl "id" i → a ∈ left_join (λ a, same_col tbl "id" a "output_id") (c TableOutputAddresses) →
(∃ x, has_text a "address" x ∧ has_text a "output_id" i ∧ a ∈ c TableOutputAddresses) ∨
(col_str a "address" = "" ∧ ∀ x, ¬ has_address c i x).
Proof.
intros Hi [[Ha Hs]|[-> Hno]]%elem_of_left_join.
- apply (same_col_text _ _ _ _ _ Hi) in Hs. left.
  destruct (typed_address a "address" Ha ltac:(set_solver)) as [x Hx]. by exists x.
- right. split; [done|]. intros x (r & Hr & Ho & _). specialize (Hno r Hr).
  apply not_true_iff_false in Hno. apply Hno. by apply (same_col_text _ _ _ _ _ Hi).
Qed.

Lemma address_joined tbl i x :
has_text tbl "id" i → has_address c i x →
∃ a, a ∈ left_join (λ a, same_col tbl "id" a "output_id") (c TableOutputAddresses) ∧ has_text a "address" x.
Proof.
intros Hi (r & Hr & Ho & Hx). exists r. split; [|done]. apply elem_of_left_join. left. split; [done|].
by apply (same_col_text _ _ _ _ _ Hi).
Qed.

(** *** Stored outputs *)
Lemma elem_of_union_ids i :
Some (VStr i) ∈ union_ids txIDs c ↔
(∃ o t, o ∈ c TableOutputs ∧ has_text o "id" i ∧ has_text o "transaction_id" t ∧ t ∈ txIDs) ∨
(∃ t, redeems c t i ∧ t ∈ txIDs).
Proof.
unfold union_ids, redeems, has_text. rewrite elem_of_app, !elem_of_map.
setoid_rewrite elem_of_filter_rows. setoid_rewrite in_texts_true. unfold has_text. naive_solver.
Qed.

Lemma elem_of_stored r :
r ∈ stored_outputs txIDs c → ∃ o q a w d i t,
  o ∈ c TableOutputs ∧ has_text o "id" i ∧ has_text o "transaction_id" t ∧
  Some (VStr i) ∈ union_ids txIDs c ∧
  q ∈ left_join (λ q, same_col o "id" q "id") (c TableOutputsRedeeming) ∧
  a ∈ left_join (λ a, same_col o "id" a "output_id") (c TableOutputAddresses) ∧
  r = select_columns false o q a w d.
Proof.
unfold stored_outputs. intros (o & Ho & H)%elem_of_flat_map. apply elem_of_filter_rows in Ho as [Ho Hu].
apply elem_of_flat_map in H as (q & Hq & H).
apply elem_of_join_addresses in H as (a & w & d & Ha & ->).
destruct (typed_output o "id" Ho ltac:(set_solver)) as [i Hi].
destruct (typed_output o "transaction_id" Ho ltac:(set_solver)) as [t Ht].
exists o, q, a, w, d, i, t. split_and!; try done.
apply andb_true_iff in Hu as [_ Hu]. apply existsb_exists in Hu as (x & Hx & E).
apply bool_decide_eq_true in E as ->. rewrite <-Hi. by apply list_elem_of_In.
Qed.

Lemma stored_exists o i q a :
o ∈ c TableOutputs → has_text o "id" i → Some (VStr i) ∈ union_ids txIDs c →
q ∈ left_join (λ q, same_col o "id" q "id") (c TableOutputsRedeeming) →
a ∈ left_join (λ a, same_col o "id" a "output_id") (c TableOutputAddresses) →
∃ w d, select_columns false o q a w d ∈ stored_outputs txIDs c.
Proof.
intros Ho Hi Hu Hq Ha. destruct (join_addresses_address false c o q a Ha) as (w & d & H).
exists w, d. unfold stored_outputs. apply elem_of_flat_map. exists o. split.
- apply elem_of_filter_rows. split; [done|]. rewrite andb_true_iff. split.
  + unfold is_null. by rewrite Hi.
  + rewrite existsb_exists. exists (Some (VStr i)). rewrite <-list_elem_of_In. split; [done|].
    by rewrite bool_decide_eq_true, Hi.
- apply elem_of_flat_map. by exists q.
Qed.

Lemma stored_tx t i :
t ∈ txIDs →
(∃ r, r ∈ stored_outputs txIDs c ∧ cr_tx r = t ∧ cr_ID r = i) ↔
(∃ o, o ∈ c TableOutputs ∧ has_text o "id" i ∧ has_text o "transaction_id" t).
Proof.
intros Ht. split.
- intros (r & (o & q & a & w & d & i' & t' & Ho & Hi & Ht' & _ & _ & _ & ->)%elem_of_stored & <- & <-).
  exists o. unfold cr_tx, cr_ID. simpl. by rewrite (has_text_col _ _ _ Hi), (has_text_col _ _ _ Ht').
- intros (o & Ho & Hi & Ht').
  destruct (left_join_exists (λ q, same_col o "id" q "id") (c TableOutputsRedeeming)) as [q Hq].
  destruct (left_join_exists (λ a, same_col o "id" a "output_id") (c TableOutputAddresses)) as [a Ha].
  destruct (stored_exists o i q a) as (w & d & Hin); [done..| |done|done|].
  { apply elem_of_union_ids. left. by exists o, t. }
  eexists. split; [exact Hin|]. unfold cr_tx, cr_ID. simpl. split; by apply has_text_col.
Qed.

Lemma stored_redeemer t i :
t ∈ txIDs → t ≠ "" →
(∃ r, r ∈ stored_outputs txIDs c ∧ cr_redeemer r = t ∧ cr_ID r = i) ↔ stored c i ∧ redeems c t i.
Proof.
intros Ht Hne. split.
- intros (r & (o & q & a & w & d & i' & t' & Ho & Hi & Ht' & _ & Hq & _ & ->)%elem_of_stored & Hr & <-).
  unfold cr_redeemer in Hr. unfold cr_ID. simpl in *. rewrite (has_text_col _ _ _ Hi).
  split; [by exists o|]. apply elem_of_left_join in Hq as [[Hq Hs]|[-> _]]; [|done].
  apply (same_col_text _ _ _ _ _ Hi) in Hs. exists q. split_and!; [done..|].
  destruct (typed_redeeming q "redeeming_transaction_id" Hq ltac:(set_solver)) as [s Hs'].
  by rewrite (has_text_col _ _ _ Hs') in Hr; subst.
- intros [(o & Ho & Hi) (q & Hq & Hqi & Hqt)].
  destruct (left_join_exists (λ a, same_col o "id" a "output_id") (c TableOutputAddresses)) as [a Ha].
  destruct (stored_exists o i q a) as (w & d & Hin); [done..| | |done|].
  { apply elem_of_union_ids. right. exists t. split; [by exists q|done]. }
  { apply elem_of_left_join. left. split; [done|]. by apply (same_col_text _ _ _ _ _ Hi). }
  eexists. split; [exact Hin|]. unfold cr_redeemer, cr_ID. simpl. split; by apply has_text_col.
Qed.

(** *** Outputs that are only known as redeemed *)
Lemma elem_of_unseen r :
r ∈ unseen_outputs txIDs c → ∃ q o a w d i t,
  q ∈ c TableOutputsRedeeming ∧ has_text q "id" i ∧ has_text q "redeeming_transaction_id" t ∧
  t ∈ txIDs ∧ ¬ stored c i ∧
  a ∈ left_join (λ a, same_col q "id" a "output_id") (c TableOutputAddresses) ∧
  r = select_columns true o q a w d.
Proof.
unfold unseen_outputs. intros (q & Hq & H)%elem_of_flat_map.
apply elem_of_filter_rows in Hq as [Hq Hf]. apply andb_true_iff in Hf as [Hin Hns].
apply in_texts_true in Hin as (t & Ht & Hqt).
apply elem_of_flat_map in H as (o & Ho & H). apply elem_of_join_addresses in H as (a & w & d & Ha & ->).
destruct (typed_redeeming q "id" Hq ltac:(set_solver)) as [i Hi].
exists q, o, a, w, d, i, t. split_and!; try done. intros (o' & Ho' & Hi').
apply negb_true_iff, not_true_iff_false in Hns. apply Hns. apply existsb_exists. exists o'.
rewrite <-list_elem_of_In. split; [done|]. by apply (same_col_text _ _ _ _ _ Hi').
Qed.

Lemma unseen_exists q i t a :
q ∈ c TableOutputsRedeeming → has_text q "id" i → has_text q "redeeming_transaction_id" t → t ∈ txIDs →
¬ stored c i → a ∈ left_join (λ a, same_col q "id" a "output_id") (c TableOutputAddresses) →
∃ o w d, select_columns true o q a w d ∈ unseen_outputs txIDs c.
Proof.
intros Hq Hi Ht Hin Hns Ha.
destruct (left_join_exists (λ o, same_col q "id" o "id") (c TableOutputs)) as [o Ho].
destruct (join_addresses_address true c o q a Ha) as (w & d & H).
exists o, w, d. unfold unseen_outputs. apply elem_of_flat_map. exists q. split.
- apply elem_of_filter_rows. split; [done|]. rewrite andb_true_iff. split.
  + apply in_texts_true. by exists t.
  + apply negb_true_iff, not_true_iff_false. rewrite existsb_exists. intros (o' & Ho' & Hs).
    rewrite <-list_elem_of_In in Ho'. destruct (typed_output o' "id" Ho' ltac:(set_solver)) as [i' Hi'].
    apply (same_col_text _ _ _ _ _ Hi') in Hs. apply Hns. exists o'. split; [done|].
    unfold has_text in *. congruence.
- apply elem_of_flat_map. by exists o.
Qed.

Lemma unseen_tx t i :
(∃ r, r ∈ unseen_outputs txIDs c ∧ cr_tx r = t ∧ cr_ID r = i) ↔
¬ stored c i ∧ ∃ q t', q ∈ c TableOutputsRedeeming ∧ has_text q "id" i ∧ has_text q "intx" t ∧
   has_text q "redeeming_transaction_id" t' ∧ t' ∈ txIDs.
Proof.
split.
- intros (r & (q & o & a & w & d & i' & t' & Hq & Hi & Ht' & Hin & Hns & _ & ->)%elem_of_unseen & <- & <-).
  unfold cr_tx, cr_ID. simpl. rewrite (has_text_col _ _ _ Hi). split; [done|].
  destruct (typed_redeeming q "intx" Hq ltac:(set_solver)) as [x Hx].
  rewrite (has_text_col _ _ _ Hx). by exists q, t'.
- intros (Hns & q & t' & Hq & Hi & Hx & Ht' & Hin).
  destruct (left_join_exists (λ a, same_col q "id" a "output_id") (c TableOutputAddresses)) as [a Ha].
  destruct (unseen_exists q i t' a) as (o & w & d & Hr); [done..|].
  eexists. split; [exact Hr|]. unfold cr_tx, cr_ID. simpl. split; by apply has_text_col.
Qed.

Lemma unseen_redeemer t i :
t ∈ txIDs →
(∃ r, r ∈ unseen_outputs txIDs c ∧ cr_redeemer r = t ∧ cr_ID r = i) ↔ ¬ stored c i ∧ redeems c t i.
Proof.
intros Hin. split.
- intros (r & (q & o & a & w & d & i' & t' & Hq & Hi & Ht' & _ & Hns & _ & ->)%elem_of_unseen & <- & <-).
  unfold cr_redeemer, cr_ID. simpl. rewrite (has_text_col _ _ _ Hi), (has_text_col _ _ _ Ht').
  split; [done|]. by exists q.
- intros (Hns & q & Hq & Hi & Ht').
  destruct (left_join_exists (λ a, same_col q "id" a "output_id") (c TableOutputAddresses)) as [a Ha].
  destruct (unseen_exists q i t a) as (o & w & d & Hr); [done..|].
  eexists. split; [exact Hr|]. unfold cr_redeemer, cr_ID. simpl. split; by apply has_text_col.
Qed.

(** *** Addresses *)
Lemma stored_address i r0 x :
r0 ∈ stored_outputs txIDs c → cr_ID r0 = i → x ≠ "" →
(∃ r, r ∈ stored_outputs txIDs c ∧ cr_ID r = i ∧ cr_address r = x) ↔ has_address c i x.
Proof.
intros (o & q & a & w & d & i' & t & Ho & Hi & _ & Hu & Hq & _ & ->)%elem_of_stored Hid Hx.
unfold cr_ID in Hid. simpl in Hid. rewrite (has_text_col _ _ _ Hi) in Hid. subst i'. split.
- intros (r & (o' & q' & a' & w' & d' & i' & t' & Ho' & Hi' & _ & _ & _ & Ha' & ->)%elem_of_stored & Hid & <-).
  unfold cr_ID, cr_address in *. simpl in *. rewrite (has_text_col _ _ _ Hi') in Hid. subst i'.
  destruct (joined_address o' i a' Hi' Ha') as [(y & Hy & Hyo & Hin)|[E _]]; [|done].
  rewrite (has_text_col _ _ _ Hy). by exists a'.
- intros (a' & Ha' & Hax)%(address_joined o i x Hi).
  destruct (stored_exists o i q a') as (w' & d' & Hr); [done..|].
  eexists. split; [exact Hr|]. unfold cr_ID, cr_address. simpl. split; by apply has_text_col.
Qed.

Lemma unseen_address i r0 x :
r0 ∈ unseen_outputs txIDs c → cr_ID r0 = i → x ≠ "" →
(∃ r, r ∈ unseen_outputs txIDs c ∧ cr_ID r = i ∧ cr_address r = x) ↔ has_address c i x.
Proof.
intros (q & o & a & w & d & i' & t & Hq & Hi & Ht & Hin & Hns & _ & ->)%elem_of_unseen Hid Hx.
unfold cr_ID in Hid. simpl in Hid. rewrite (has_text_col _ _ _ Hi) in Hid. subst i'. split.
- intros (r & (q' & o' & a' & w' & d' & i' & t' & Hq' & Hi' & _ & _ & _ & Ha' & ->)%elem_of_unseen & Hid & <-).
  unfold cr_ID, cr_address in *. simpl in *. rewrite (has_text_col _ _ _ Hi') in Hid. subst i'.
  destruct (joined_address q' i a' Hi' Ha') as [(y & Hy & Hyo & Hina)|[E _]]; [|done].
  rewrite (has_text_col _ _ _ Hy). by exists a'.
- intros (a' & Ha' & Hax)%(address_joined q i x Hi).
  destruct (unseen_exists q i t a') as (o' & w' & d' & Hr); [done..|].
  eexists. split; [exact Hr|]. unfold cr_ID, cr_address. simpl. split; by apply has_text_col.
Qed.

Lemma stored_id i r : r ∈ stored_outputs txIDs c → cr_ID r = i → stored c i.
Proof.
intros (o & q & a & w & d & i' & t & Ho & Hi & _ & _ & _ & _ & ->)%elem_of_stored <-.
exists o. unfold cr_ID. simpl. by rewrite (has_text_col _ _ _ Hi).
Qed.
Lemma unseen_id i r : r ∈ unseen_outputs txIDs c → cr_ID r = i → ¬ stored c i.
Proof.
intros (q & o & a & w & d & i' & t & Hq & Hi & _ & _ & Hns & _ & ->)%elem_of_unseen <-.
unfold cr_ID. simpl. by rewrite (has_text_col _ _ _ Hi).
Qed.

Lemma stored_or i : stored c i ∨ ¬ stored c i.
Proof.
destruct (existsb (λ o : row, bool_decide (o !! "id" = Some (VStr i))) (c TableOutputs)) eqn:E.
- left. apply existsb_exists in E as (o & Ho%list_elem_of_In & Hi%bool_decide_eq_true). by exists o.
- right. intros (o & Ho & Hi). apply not_true_iff_false in E. apply E. apply existsb_exists.
  exists o. split; [by apply list_elem_of_In|by apply bool_decide_eq_true].
Qed.
End rows.

(** ** The records of an answer *)
Section collected_rows.
Context (c c1 c2 : content) (txIDs : list string).
Hypothesis Hty : typed c = true.
Hypothesis E1 : c1 ≡ᶜ c.
Hypothesis E2 : c2 ≡ᶜ c.
Let outs := stored_outputs txIDs c1 ++ unseen_outputs txIDs c2.

Lemma typed1 : typed c1 = true.
Proof. by rewrite (typed_proper _ _ E1). Qed.
Lemma typed2 : typed c2 = true.
Proof. by rewrite (typed_proper _ _ E2). Qed.

Lemma exists_app {A} (P : A → Prop) l k : (∃ x, x ∈ l ++ k ∧ P x) ↔ (∃ x, x ∈ l ∧ P x) ∨ (∃ x, x ∈ k ∧ P x).
Proof. setoid_rewrite elem_of_app. naive_solver. Qed.

Lemma collected_tx t i :
t ∈ txIDs → (∃ r, r ∈ outs ∧ cr_tx r = t ∧ cr_ID r = i) ↔ creates c txIDs t i.
Proof.
intros Ht. unfold outs. rewrite exists_app, (stored_tx c1 txIDs typed1 t i Ht), (unseen_tx c2 txIDs typed2 t i).
rewrite <-(creates_proper _ _ E1 _ _ eq_refl _ _ eq_refl _ _ eq_refl). unfold creates.
rewrite E2, E1. apply or_iff_compat_l, and_iff_compat_l.
by setoid_rewrite (E2 TableOutputsRedeeming); setoid_rewrite (E1 TableOutputsRedeeming).
Qed.

Lemma collected_redeemer t i :
t ∈ txIDs → t ≠ "" → (∃ r, r ∈ outs ∧ cr_redeemer r = t ∧ cr_ID r = i) ↔ redeems c t i.
Proof.
intros Ht Hne. unfold outs.
rewrite exists_app, (stored_redeemer c1 txIDs typed1 t i Ht Hne), (unseen_redeemer c2 txIDs typed2 t i Ht).
rewrite E1, E2. destruct (stored_or c i); tauto.
Qed.

Lemma collected_address i x r0 :
r0 ∈ outs → cr_ID r0 = i → x ≠ "" →
(∃ r, r ∈ outs ∧ cr_ID r = i ∧ cr_address r = x) ↔ has_address c i x.
Proof.
unfold outs. rewrite elem_of_app, exists_app. intros [Hr0|Hr0] Hi Hx.
- rewrite (stored_address c1 txIDs typed1 i r0 x Hr0 Hi Hx), E1. split; [|by left].
  intros [?|(r & Hr & Hri & _)]; [done|]. exfalso. eapply unseen_id; [exact typed2|exact Hr|exact Hri|].
  rewrite E2, <-E1. eapply stored_id; [exact typed1|exact Hr0|done].
- rewrite (unseen_address c2 txIDs typed2 i r0 x Hr0 Hi Hx), E2. split; [|by right].
  intros [(r & Hr & Hri & _)|?]; [|done]. exfalso. eapply unseen_id; [exact typed2|exact Hr0|exact Hi|].
  rewrite E2, <-E1. eapply stored_id; [exact typed1|exact Hr|done].
Qed.
End collected_rows.

