(* ===== verification/ReaderTxsFacts.v ===== *)
(** The answers of the reader of transactions (ReaderTxs.v, ReaderDress.v): the
    outputs, inputs and totals a transaction is dressed with are those of the
    tables. *)

From S2P Require Import Prelude Errors Sql MemDb DbModel Axia Models Utils GoText Params Query ReaderModels ReaderTxs ReaderDress ReaderRows.

(** * dressTransactions *)
Lemma cvm_by_tx_lookup ty l t :
  default [] (cvm_by_tx ty l !! t) =
  map mapOutput (List.filter (λ a, (CvmOutput_Type a =? ty)%Z && String.eqb (CvmOutput_TransactionID a) t) l).
Proof.
  unfold cvm_by_tx. match goal with |- default [] (fold_left ?f l ∅ !! t) = ?r =>
    assert (∀ m, default [] (fold_left f l m !! t) = default [] (m !! t) ++ r) as H end;
    [|rewrite H; by rewrite lookup_empty].
  induction l as [|a l IH]; intros m; cbn [fold_left List.filter].
  - simpl. by rewrite app_nil_r.
  - rewrite IH. clear IH. destruct (String.eqb_spec (CvmOutput_TransactionID a) t) as [<-|Hne].
    + rewrite lookup_insert_eq. simpl. destruct (CvmOutput_Type a =? ty)%Z; simpl; by rewrite <-?app_assoc.
    + rewrite lookup_insert_ne by done. by destruct (CvmOutput_Type a =? ty)%Z.
Qed.

(** The outputs of the C chain's side of a transaction. *)
Definition cvm_output (c : content) (ty : Z) (t : string) (o : Output) : Prop :=
  ∃ a b, a ∈ c TableCvmAddresses ∧ has_text a "transaction_id" t ∧ col_num a "type" = ty ∧
    b ∈ c TableCvmTransactions ∧ has_text b "transaction_id" t ∧ o = mapOutput (cvm_columns a b).

#[global] Instance cvm_output_proper : Proper (content_eq ==> (=) ==> (=) ==> (=) ==> iff) cvm_output.
Proof.
  intros c c' E ty ? <- t ? <- o ? <-. unfold cvm_output. setoid_rewrite (E TableCvmAddresses).
  by setoid_rewrite (E TableCvmTransactions).
Qed.

Lemma elem_of_cvm c txIDs ty t o :
  t ∈ txIDs → o ∈ default [] (cvm_by_tx ty (cvm_rows txIDs c) !! t) ↔ cvm_output c ty t o.
Proof.
  intros Ht. rewrite cvm_by_tx_lookup, elem_of_map. unfold cvm_output, cvm_rows, inner_join. split.
  - intros (x & Hx & ->). rewrite list_elem_of_In, filter_In, <-list_elem_of_In in Hx.
    destruct Hx as [Hx Hf]. apply andb_true_iff in Hf as [Hty%Z.eqb_eq E%String.eqb_eq].
    apply elem_of_flat_map in Hx as (a & Ha & Hx). apply elem_of_map in Hx as (b & Hb & ->).
    apply elem_of_filter_rows in Ha as [Ha Hin], Hb as [Hb Hs]. apply in_texts_true in Hin as (v & Hv & Hav).
    simpl in *. rewrite (has_text_col _ _ _ Hav) in E. subst v.
    exists a, b. split_and!; try done. by apply (same_col_text _ _ _ _ _ Hav).
  - intros (a & b & Ha & Hat & Hty & Hb & Hbt & ->). exists (cvm_columns a b). split; [|done].
    rewrite list_elem_of_In, filter_In, <-list_elem_of_In. split.
    + apply elem_of_flat_map. exists a. rewrite elem_of_filter_rows, in_texts_true. split; [by eauto|].
      apply elem_of_map. exists b. rewrite elem_of_filter_rows. split; [|done]. split; [done|].
      by apply (same_col_text _ _ _ _ _ Hat).
    + simpl. rewrite (has_text_col _ _ _ Hat). apply andb_true_iff. split; [by apply Z.eqb_eq|].
      by apply String.eqb_refl.
Qed.

(** ** The totals *)
Lemma sum_with_flat_map {A B} (f : B → Z) (g : A → list B) l :
  sum_with f (flat_map g l) = sum_with (λ x, sum_with f (g x)) l.
Proof. induction l as [|x l IH]; simpl; [done|]. by rewrite sum_with_app, IH. Qed.

Lemma sum_with_const {A} (f : A → Z) (n : Z) l :
  (∀ x, x ∈ l → f x = n) → sum_with f l = (n * Z.of_nat (length l))%Z.
Proof.
  induction l as [|x l IH]; intros H; cbn [sum_with length]; [lia|].
  rewrite (H x) by left. rewrite IH by (intros y Hy; apply H; by right). lia.
Qed.

Lemma filter_flat_map {A B} (p : B → bool) (g : A → list B) l :
  List.filter p (flat_map g l) = flat_map (λ x, List.filter p (g x)) l.
Proof. induction l as [|x l IH]; simpl; [done|]. by rewrite List.filter_app, IH. Qed.

Lemma same_col_sym r1 c1 r2 c2 : same_col r1 c1 r2 c2 = same_col r2 c2 r1 c1.
Proof.
  unfold same_col. destruct (r1 !! c1) as [v|] eqn:E1, (r2 !! c2) as [w|] eqn:E2; try done.
  apply bool_decide_ext. naive_solver.
Qed.

(** A join on a unique key gives one row. *)
Lemma left_join_unique t k r k' rs :
  unique_rows t rs → [k] ∈ unique_keys t → length (left_join (λ q, same_col r k' q k) rs) = 1.
Proof.
  intros Hu Hk. specialize (Hu _ Hk). unfold left_join.
  assert (length (List.filter (λ q, same_col r k' q k) rs) ≤ 1) as Hl; [|by destruct (List.filter _ rs) as [|? []]; simpl in *; lia].
  induction rs as [|q rs IH]; simpl; [lia|]. simpl in Hu. apply NoDup_cons in Hu as [Hni Hnd].
  destruct (same_col r k' q k) eqn:E; [|by apply IH]. simpl.
  assert (List.filter (λ q, same_col r k' q k) rs = []) as ->; [|simpl; lia].
  apply filter_none. intros q' Hq'. apply not_true_iff_false. intros E'. apply Hni. apply elem_of_map. exists q'. split; [done|].
  unfold same_col in *. destruct (r !! k') as [v|]; [|done].
  apply bool_decide_eq_true in E as [E _], E' as [E' _]. simpl. by rewrite E, E'.
Qed.

(** How many addresses an output has. *)
Definition naddr (c : content) (o : row) : Z :=
  Z.of_nat (length (List.filter (λ a, same_col o "id" a "output_id") (c TableOutputAddresses))).

Lemma left_join_length on t : Z.of_nat (length (left_join on t)) = Z.max 1 (Z.of_nat (length (List.filter on t))).
Proof. unfold left_join. destruct (List.filter on t); simpl; lia. Qed.

Lemma left_join_ext f g t : (∀ x, f x = g x) → left_join f t = left_join g t.
Proof. intros E. unfold left_join. by rewrite (List.filter_ext _ _ E). Qed.

Lemma join_addresses_length c o q :
  unique_content c → Z.of_nat (length (join_addresses false c o q)) = Z.max 1 (naddr c o).
Proof.
  intros Hu. unfold join_addresses, naddr. rewrite <-left_join_length, !length_flat_map.
  f_equal. induction (left_join _ (c TableOutputAddresses)) as [|a l IH]; simpl; [done|].
  rewrite IH. clear IH. rewrite length_flat_map.
  pose proof (left_join_unique TableTransactionsRewardsOwnersOutputs "id" o "id" _ (Hu _) ltac:(left)) as Hw.
  destruct (left_join _ (c TableTransactionsRewardsOwnersOutputs)) as [|w []]; try done. simpl.
  rewrite length_map, (left_join_ext _ (λ d, same_col a "address" d "address")) by (intros; apply same_col_sym).
  by rewrite (left_join_unique TableAddresses "address" a "address" _ (Hu _) ltac:(left)).
Qed.

(** The redeemed outputs are all stored. *)
Definition all_stored (c : content) : bool :=
  forallb (λ q, existsb (λ o, same_col o "id" q "id") (c TableOutputs)) (c TableOutputsRedeeming).

Lemma all_stored_unseen c txIDs : all_stored c = true → unseen_outputs txIDs c = [].
Proof.
  unfold all_stored, unseen_outputs. rewrite forallb_forall. intros H.
  rewrite filter_none; [done|]. intros q Hq%list_elem_of_In. by rewrite (H q Hq), andb_false_r.
Qed.

#[global] Instance all_stored_proper : Proper (content_eq ==> (=@{bool})) all_stored.
Proof.
  intros c c' E. unfold all_stored. apply eq_true_iff_eq. rewrite !forallb_forall.
  setoid_rewrite existsb_exists. setoid_rewrite <-list_elem_of_In.
  setoid_rewrite (E TableOutputs). by setoid_rewrite (E TableOutputsRedeeming).
Qed.

(** The stored outputs of a transaction in an asset. *)
Definition outputs_in (c : content) (t a : string) : list row :=
  List.filter (λ o, String.eqb (col_str o "transaction_id") t && String.eqb (col_str o "asset_id") a) (c TableOutputs).
Definition amount_of (o : row) : Z := default 0%Z (big_SetString (as_str (o !! "amount"))).

(** The records of a stored output. *)
Definition records_of (c : content) (o : row) : list compositeRecord :=
  flat_map (λ q, join_addresses false c o q) (left_join (λ q, same_col o "id" q "id") (c TableOutputsRedeeming)).

Lemma elem_of_records_of c o r :
  r ∈ records_of c o →
  cr_tx r = col_str o "transaction_id" ∧ cr_asset r = col_str o "asset_id" ∧ cr_amount r = amount_of o.
Proof.
  unfold records_of. intros (q & _ & H)%elem_of_flat_map.
  by apply elem_of_join_addresses in H as (a & w & d & _ & ->).
Qed.

Lemma records_of_length c o :
  unique_content c → Z.of_nat (length (records_of c o)) = Z.max 1 (naddr c o).
Proof.
  intros Hu. unfold records_of. rewrite length_flat_map.
  pose proof (left_join_unique TableOutputsRedeeming "id" o "id" _ (Hu _) ltac:(left)) as Hw.
  destruct (left_join _ (c TableOutputsRedeeming)) as [|q []]; try done. simpl.
  rewrite Nat.add_0_r. by apply join_addresses_length.
Qed.

Lemma flat_map_if {A B} (p : A → bool) (g : A → list B) l :
  flat_map (λ x, if p x then g x else []) l = flat_map g (List.filter p l).
Proof. induction l as [|x l IH]; simpl; [done|]. destruct (p x); simpl; by rewrite IH. Qed.

Lemma filter_filter_sub {A} (p q : A → bool) l :
  (∀ x, x ∈ l → p x = true → q x = true) → List.filter p (List.filter q l) = List.filter p l.
Proof.
  induction l as [|x l IH]; intros H; simpl; [done|]. pose proof (H x ltac:(left)) as Hx.
  assert (∀ y, y ∈ l → p y = true → q y = true) as Hl by (intros y Hy; apply H; by right).
  destruct (q x); simpl; destruct (p x); rewrite IH; try done. by discriminate (Hx eq_refl).
Qed.

(** The records of a transaction in an asset are those of its outputs in it. *)
Lemma stored_of_asset c txIDs t a :
  typed c = true → t ∈ txIDs →
  of_asset cr_tx t a (stored_outputs txIDs c) = flat_map (records_of c) (outputs_in c t a).
Proof.
  intros Hty Ht. unfold of_asset, stored_outputs. rewrite filter_flat_map.
  change (flat_map (λ q, join_addresses false c ?o q) _) with (records_of c o).
  erewrite flat_map_ext; [|intros o; apply (λ H, H : _ = if String.eqb (col_str o "transaction_id") t &&
      String.eqb (col_str o "asset_id") a then records_of c o else [])].
  - rewrite flat_map_if. unfold outputs_in. rewrite filter_filter_sub; [done|].
    intros o Ho [E _]%andb_true_iff. apply String.eqb_eq in E.
    destruct (typed_output c Hty o "transaction_id" Ho ltac:(set_solver)) as [s Hs].
    rewrite (has_text_col _ _ _ Hs) in E. subst s.
    destruct (typed_output c Hty o "id" Ho ltac:(set_solver)) as [i Hi].
    rewrite andb_true_iff. split; [unfold is_null; by rewrite Hi|].
    apply existsb_exists. exists (Some (VStr i)). rewrite <-list_elem_of_In. split.
    + apply elem_of_union_ids. left. by exists o, t.
    + by rewrite bool_decide_eq_true.
  - destruct (_ && _) eqn:E.
    + apply forallb_filter_id, forallb_forall. intros r Hr%list_elem_of_In.
      by apply elem_of_records_of in Hr as (-> & -> & _).
    + apply filter_none. intros r (-> & -> & _)%elem_of_records_of. done.
Qed.

Lemma stored_total c l :
  unique_content c →
  sum_with cr_amount (flat_map (records_of c) l) = sum_with (λ o, amount_of o * Z.max 1 (naddr c o))%Z l.
Proof.
  intros Hu. rewrite sum_with_flat_map. apply sum_with_ext. intros o _.
  rewrite <-(records_of_length c o Hu). apply sum_with_const. by intros r (_ & _ & ->)%elem_of_records_of.
Qed.

Lemma records_nil c l : flat_map (records_of c) l = [] → l = [].
Proof.
  destruct l as [|o l]; [done|]. simpl. intros [E _]%app_eq_nil. exfalso. unfold records_of in E.
  destruct (left_join_exists (λ q, same_col o "id" q "id") (c TableOutputsRedeeming)) as [q Hq].
  destruct (left_join_exists (λ a, same_col o "id" a "output_id") (c TableOutputAddresses)) as [a Ha].
  destruct (join_addresses_address false c o q a Ha) as (w & d & H).
  apply (elem_of_nil (select_columns false o q a w d)). rewrite <-E. apply elem_of_flat_map. by exists q.
Qed.

Lemma outputs_in_perm c c' t a : c ≡ᶜ c' → outputs_in c t a ≡ₚ outputs_in c' t a.
Proof. intros E. unfold outputs_in. apply filter_perm, E. Qed.

#[global] Instance naddr_proper : Proper (content_eq ==> (=) ==> (=)) naddr.
Proof. intros c c' E o ? <-. unfold naddr. by rewrite (filter_perm _ _ _ (E TableOutputAddresses)). Qed.

Section dress_spec.
Context `{SqlEngine D} `{!SqlEngineOk D} `{!AxiaIds} `{!Dbr}.

(** The transaction before [dress_tx]. *)
Definition undressed (prop : gmap string PvmProposerModel) (tx : Transaction) : Transaction :=
set_proposer prop (match Tx_Memo tx with None => with_Memo (Some "") tx | Some _ => tx end).

Lemma undressed_fields prop tx :
Tx_ID (undressed prop tx) = Tx_ID tx ∧ Tx_ChainID (undressed prop tx) = Tx_ChainID tx ∧
Tx_Inputs (undressed prop tx) = Tx_Inputs tx ∧ Tx_Outputs (undressed prop tx) = Tx_Outputs tx.
Proof. unfold undressed, set_proposer. destruct (Tx_Memo tx); simpl; by case_match. Qed.

Lemma undressed_more prop tx :
Tx_Inputs (undressed prop tx) = Tx_Inputs tx ∧ Tx_Outputs (undressed prop tx) = Tx_Outputs tx ∧
Tx_InputTotals (undressed prop tx) = Tx_InputTotals tx ∧ Tx_OutputTotals (undressed prop tx) = Tx_OutputTotals tx.
Proof. unfold undressed, set_proposer. destruct (Tx_Memo tx); simpl; by case_match. Qed.

Lemma resolveProposers_rows ids d d' m : resolveProposers ids d = (d', Ok m) → rows d ≡ᶜ rows d'.
Proof.
unfold resolveProposers. destruct (length ids =? 0); [by intros [= <-]|]. by intros [? _]%select_ok.
Qed.

Lemma dressTransactions_ok txs a txID g d d' txs' :
dressTransactions txs a txID g d = (d', Ok txs') →
txs = [] ∧ txs' = [] ∨
∃ prop rew c1 c2 c3 m, c1 ≡ᶜ rows d ∧ c2 ≡ᶜ rows d ∧ c3 ≡ᶜ rows d ∧
  dressed_maps (stored_outputs (map Tx_ID txs) c1 ++ unseen_outputs (map Tx_ID txs) c2) = Ok m ∧
  txs' = map (λ tx, dress_tx g txID a m rew
                      (cvm_by_tx models.AXChainIn (cvm_rows (map Tx_ID txs) c3))
                      (cvm_by_tx models.AXchainOut (cvm_rows (map Tx_ID txs) c3)) (undressed prop tx)) txs.
Proof.
unfold dressTransactions. destruct txs as [|tx0 l0]; simpl; [intros [= _ <-]; by left|].
set (txs := tx0 :: l0). intros Hrun. right.
assert (map Tx_ID (map (λ tx, match Tx_Memo tx with None => with_Memo (Some "") tx | Some _ => tx end) txs)
        = map Tx_ID txs) as Eid.
{ rewrite map_map. apply map_ext. intros tx. by destruct (Tx_Memo tx). }
apply bind_Ok_inv in Hrun as (prop & d1 & Hp & Hrun).
change (Tx_ID _ :: map Tx_ID (map _ l0)) with
  (map Tx_ID (map (λ tx, match Tx_Memo tx with None => with_Memo (Some "") tx | Some _ => tx end) txs)) in Hrun.
rewrite Eid in Hrun.
apply bind_Ok_inv in Hrun as (rew & d2 & [Hr _]%select_ok & Hrun).
apply bind_Ok_inv in Hrun as (outs & d3 & Ho & Hrun).
apply bind_Ok_inv in Ho as (o1 & d3' & [Ho1 ->]%select_ok & Ho).
apply bind_Ok_inv in Ho as (o2 & d3'' & [Ho2 ->]%select_ok & [= -> <-]).
apply bind_Ok_inv in Hrun as (m & d4 & [= <- Hm] & Hrun).
apply bind_Ok_inv in Hrun as ([cin cout] & d5 & Hc & [= <- <-]).
apply bind_Ok_inv in Hc as (l & d5' & [Hc ->]%select_ok & [= -> <- <-]).
apply resolveProposers_rows in Hp.
assert (rows d ≡ᶜ rows d2) as E2 by (etransitivity; eassumption).
assert (rows d ≡ᶜ rows d3') as E3 by (etransitivity; eassumption).
assert (rows d ≡ᶜ rows d3) as E4 by (etransitivity; eassumption).
exists prop, rew, (rows d3'), (rows d3), (rows d5), m. split_and!; try (by symmetry).
- symmetry. etransitivity; eassumption.
- unfold dressTransactionsTx. simpl. by rewrite !map_map.
Qed.

(** What the transaction [tx'] of the answer holds that [tx] did not. *)
Definition dressed_from (c : content) (txIDs : list string) (tx tx' : Transaction) : Prop :=
∃ ins cins outs couts,
  Tx_Inputs tx' = Tx_Inputs tx ++ ins ++ map (λ o, mkInput o []) cins ∧
  Tx_Outputs tx' = Tx_Outputs tx ++ outs ++ couts ∧
  (* each output and each input of the tables, once *)
  NoDup (map Output_ID outs) ∧ NoDup (map (λ x, Output_ID (Input_Output x)) ins) ∧
  (∀ i, i ∈ map Output_ID outs ↔ creates c txIDs (Tx_ID tx) i) ∧
  (∀ i, i ∈ map (λ x, Output_ID (Input_Output x)) ins ↔ redeems c (Tx_ID tx) i) ∧
  (* with its addresses *)
  (∀ o x, o ∈ outs → x ∈ Output_Addresses o ↔ x ≠ "" ∧ has_address c (Output_ID o) x) ∧
  (* and those of the C chain *)
  (∀ o, o ∈ cins ↔ cvm_output c models.AXChainIn (Tx_ID tx) o) ∧
  (∀ o, o ∈ couts ↔ cvm_output c models.AXchainOut (Tx_ID tx) o).

Lemma dress_tx_from c txIDs c1 c2 c3 m g txID a rew prop tx :
typed c = true → c1 ≡ᶜ c → c2 ≡ᶜ c → c3 ≡ᶜ c → Tx_ID tx ∈ txIDs → Tx_ID tx ≠ "" →
dressed_maps (stored_outputs txIDs c1 ++ unseen_outputs txIDs c2) = Ok m →
g && bool_decide (txID = None) && String.eqb (Tx_ID tx) (ID_String a) = false →
dressed_from c txIDs tx
  (dress_tx g txID a m rew (cvm_by_tx models.AXChainIn (cvm_rows txIDs c3))
     (cvm_by_tx models.AXchainOut (cvm_rows txIDs c3)) (undressed prop tx)).
Proof.
intros Hty E1 E2 E3 Hin Hne Hm Hg. destruct (undressed_fields prop tx) as (Eid & _ & Ei & Eo).
unfold dress_tx. rewrite Eid, Hg. simpl. rewrite Ei, Eo.
do 4 eexists. split; [reflexivity|]. split; [reflexivity|]. split_and!.
- apply NoDup_map_values. by eapply dressed_output_key.
- apply NoDup_map_values. by eapply dressed_input_key.
- intros i. rewrite elem_of_map_values by (by eapply dressed_output_key).
  by rewrite (dressed_output _ _ Hm), (collected_tx c c1 c2).
- intros i. rewrite elem_of_map_values by (by eapply dressed_input_key).
  by rewrite (dressed_input _ _ Hm), (collected_redeemer c c1 c2).
- intros o x [i Hi]%elem_of_values.
  pose proof (dressed_output_key _ _ Hm _ _ _ Hi) as Ek. rewrite Ek.
  destruct (dressed_output_value _ _ Hm _ _ _ Hi) as (r & Hr & _ & Hri & addrs & -> & Ha).
  simpl. rewrite Ha. destruct (decide (x = "")) as [->|Hx]; [naive_solver|].
  by rewrite (collected_address c c1 c2 txIDs Hty E1 E2 i x r Hr Hri Hx).
- intros o. by rewrite elem_of_cvm, E3.
- intros o. by rewrite elem_of_cvm, E3.
Qed.

(** The transaction that is left as it is: the genesis transaction, when the request
  asks so and not for one transaction. *)
Definition skipped (disableGenesis : bool) (txID : option ID) (axcAssetID : ID) (tx : Transaction) : bool :=
disableGenesis && bool_decide (txID = None) && String.eqb (Tx_ID tx) (ID_String axcAssetID).

Lemma dress_tx_skipped g txID a m rew cin cout prop tx :
skipped g txID a tx = true → dress_tx g txID a m rew cin cout (undressed prop tx) = undressed prop tx.
Proof. unfold skipped. intros Hs. unfold dress_tx. by rewrite (proj1 (undressed_fields prop tx)), Hs. Qed.

Lemma dress_tx_id g txID a m rew cin cout tx : Tx_ID (dress_tx g txID a m rew cin cout tx) = Tx_ID tx.
Proof. unfold dress_tx. by case_match. Qed.

(** C18. The transactions of an answer are dressed with the outputs they create and
  the inputs they redeem.  In tables whose ids and addresses are texts, as every write
  leaves them (C39), each transaction of the page, their ids not empty, gets, once
  each, exactly the stored outputs with its id, those that are known only because
  another transaction of the page redeems them, and as inputs exactly the outputs
  whose redemption names it; every output has exactly its addresses; the imports and
  exports of the C chain come from the addresses of its blocks.  With disableGenesis,
  unless the request is for one transaction, the transaction of the AXC asset is the
  exception: it keeps the inputs, the outputs and the totals it had. *)
Theorem transactions_dressed txs a txID g d d' txs' :
typed (rows d) = true → (∀ tx, tx ∈ txs → Tx_ID tx ≠ "") →
dressTransactions txs a txID g d = (d', Ok txs') →
Forall2 (λ tx tx', Tx_ID tx' = Tx_ID tx ∧
  if g && bool_decide (txID = None) && String.eqb (Tx_ID tx) (ID_String a)
  then Tx_Inputs tx' = Tx_Inputs tx ∧ Tx_Outputs tx' = Tx_Outputs tx ∧
       Tx_InputTotals tx' = Tx_InputTotals tx ∧ Tx_OutputTotals tx' = Tx_OutputTotals tx
  else dressed_from (rows d) (map Tx_ID txs) tx tx') txs txs'.
Proof.
intros Hty Hne Hrun.
apply dressTransactions_ok in Hrun as [[-> ->]|(prop & rew & c1 & c2 & c3 & m & E1 & E2 & E3 & Hm & ->)];
  [constructor|].
apply Forall2_fmap_r, Forall_Forall2_diag, Forall_forall. intros tx Htx.
split; [rewrite dress_tx_id; apply undressed_fields|].
fold (skipped g txID a tx). destruct (skipped g txID a tx) eqn:Es.
- rewrite dress_tx_skipped by done. apply undressed_more.
- apply (dress_tx_from _ _ c1 c2 c3); [done|done|done|done| |by apply Hne|done|done]. apply elem_of_map. by exists tx.
Qed.

(** C19. The total of the outputs of a transaction in an asset.  When the tables are
  typed and have their unique keys, as every write leaves them (C39), and the redeemed
  outputs are all stored, it is the sum of the amounts of the stored outputs, each
  as often as the output has addresses: the rows are joined with the addresses
  before they are added, so that an output of two addresses counts twice.  The
  transaction of the AXC asset keeps the totals it had when the request has
  disableGenesis and is not for one transaction. *)
Theorem output_totals txs a txID g d d' txs' :
typed (rows d) = true → unique_content (rows d) → all_stored (rows d) = true →
dressTransactions txs a txID g d = (d', Ok txs') →
Forall2 (λ tx tx', ∀ asset,
  Tx_OutputTotals tx' !! asset =
  if g && bool_decide (txID = None) && String.eqb (Tx_ID tx) (ID_String a) then Tx_OutputTotals tx !! asset
  else match outputs_in (rows d) (Tx_ID tx) asset with
       | [] => None
       | l => Some (Z_to_string (sum_with (λ o, amount_of o * Z.max 1 (naddr (rows d) o))%Z l))
       end) txs txs'.
Proof.
intros Hty Hu Hst Hrun.
apply dressTransactions_ok in Hrun as [[-> ->]|(prop & rew & c1 & c2 & c3 & m & E1 & E2 & E3 & Hm & ->)];
  [constructor|].
apply Forall2_fmap_r, Forall_Forall2_diag, Forall_forall. intros tx Htx asset.
fold (skipped g txID a tx). destruct (skipped g txID a tx) eqn:Es.
{ rewrite dress_tx_skipped by done. by destruct (undressed_more prop tx) as (_ & _ & _ & ->). }
assert (Tx_ID tx ∈ map Tx_ID txs) as Hin by (apply elem_of_map; by exists tx).
unfold dress_tx. rewrite (proj1 (undressed_fields prop tx)). unfold skipped in Es. rewrite Es.
cbn [Tx_OutputTotals].
unfold totals_text. rewrite lookup_fmap.
change (default ∅ ?o !! asset) with (default (∅ : gmap string Z) o !! asset).
replace (default ∅ (outputTotalsMap m !! Tx_ID tx) !! asset) with (lookup2 (outputTotalsMap m) (Tx_ID tx) asset)
  by (unfold lookup2; by destruct (outputTotalsMap m !! Tx_ID tx)).
rewrite (dressed_outputTotal _ _ Hm), (all_stored_unseen c2), app_nil_r by (by rewrite E2).
rewrite stored_of_asset by (try done; by rewrite (typed_proper _ _ E1)).
pose proof (outputs_in_perm _ _ (Tx_ID tx) asset E1) as Hp.
assert (unique_content c1) as Hu1 by (by rewrite E1).
pose proof (stored_total c1 (outputs_in c1 (Tx_ID tx) asset) Hu1) as Hs.
pose proof (records_nil c1 (outputs_in (rows d) (Tx_ID tx) asset)) as Hn.
erewrite (sum_with_ext _ (λ o, amount_of o * Z.max 1 (naddr (rows d) o))%Z) in Hs
  by (intros o _; by rewrite (naddr_proper _ _ E1 o _ eq_refl)).
rewrite Hp in Hs.
assert (flat_map (records_of c1) (outputs_in c1 (Tx_ID tx) asset) ≡ₚ
        flat_map (records_of c1) (outputs_in (rows d) (Tx_ID tx) asset)) as Hp2 by (by rewrite Hp).
destruct (flat_map (records_of c1) (outputs_in c1 _ _)) as [|r l].
- apply Permutation_nil_l in Hp2. by rewrite (Hn (eq_sym Hp2)).
- cbv beta iota. rewrite Hp2, Hs. destruct (outputs_in (rows d) _ _); [|done].
  by apply Permutation_nil_r in Hp2.
Qed.
End dress_spec.

(** * An example

    A transaction that creates an output of two addresses and redeems one. *)
Module PageSample.
Import Toy ToyDbr.

Definition tx_row (id chain : string) (t : Z) : row :=
list_to_map [("id", VStr id); ("chain_id", VStr chain); ("type", VStr "base"); ("created_at", VTime t)].
Definition output_row (id tx : string) (n amount : Z) : row :=
list_to_map [("id", VStr id); ("transaction_id", VStr tx); ("output_index", VNum n); ("asset_id", VStr "AXC");
             ("amount", VNum amount); ("chain_id", VStr "Swap")].
Definition redeeming_row (id tx by_ : string) : row :=
list_to_map [("id", VStr id); ("intx", VStr tx); ("redeeming_transaction_id", VStr by_); ("amount", VNum 7);
             ("asset_id", VStr "AXC")].
Definition address_row (output address : string) : row :=
list_to_map [("output_id", VStr output); ("address", VStr address)].

Definition db : MemDb := mkMemDb
(list_to_map [
   (TableTransactions, [tx_row "T2" "Swap" 2; tx_row "T1" "Swap" 1]);
   (TableOutputs, [output_row "o1" "T1" 0 7; output_row "o2" "T2" 0 5]);
   (TableOutputsRedeeming, [redeeming_row "o1" "T1" "T2"]);
   (TableOutputAddresses, [address_row "o1" "alice"; address_row "o2" "alice"; address_row "o2" "bob"])])
None [].
Definition txs : list Transaction := flat_map (join_transaction (rows db)) (rows db TableTransactions).
Definition answer : MemDb * result (list Transaction) := dressTransactions txs "genesis" None false db.
Definition dressed : list Transaction := match answer.2 with Ok l => l | Err _ => [] end.

Lemma answer_eq : answer = (db, Ok dressed).
Proof. vm_compute. reflexivity. Qed.

(** The output of two addresses counts twice. *)
Example totals : map (λ tx, (Tx_ID tx, Tx_OutputTotals tx !! "AXC", Tx_InputTotals tx !! "AXC")) dressed =
[("T2", Some "10", Some "7"); ("T1", Some "7", None)].
Proof. vm_compute. reflexivity. Qed.
End PageSample.

Lemma transactions_dressed_witness :
  Forall2 (λ tx tx', Tx_ID tx' = Tx_ID tx ∧
    dressed_from (rows PageSample.db) (map Tx_ID PageSample.txs) tx tx') PageSample.txs PageSample.dressed.
Proof.
  apply (transactions_dressed (H0 := Toy.ids) (H1 := ToyDbr.dbr) PageSample.txs "genesis" None false PageSample.db PageSample.db).
  - vm_compute. reflexivity.
  - intros tx [->| [-> |[]%elem_of_nil]%elem_of_cons]%elem_of_cons; discriminate.
  - apply PageSample.answer_eq.
Defined.

Lemma output_totals_witness :
  Forall2 (λ tx tx', ∀ asset,
    Tx_OutputTotals tx' !! asset =
    match outputs_in (rows PageSample.db) (Tx_ID tx) asset with
    | [] => None
    | l => Some (Z_to_string (sum_with (λ o, amount_of o * Z.max 1 (naddr (rows PageSample.db) o))%Z l))
    end) PageSample.txs PageSample.dressed.
Proof.
  apply (output_totals (H0 := Toy.ids) (H1 := ToyDbr.dbr) PageSample.txs "genesis" None false PageSample.db PageSample.db).
  - vm_compute. reflexivity.
  - apply unique_db_ok. vm_compute. reflexivity.
  - vm_compute. reflexivity.
  - apply PageSample.answer_eq.
Defined.
