(* ===== verification/CacheFacts.v ===== *)
(** The list of transactions kept in memory (ReaderTxs.v, ReaderDress.v) answers as
    the tables do. *)

From S2P Require Import Prelude Errors Sql MemDb DbModel Persist Persistence Axia Models Utils GoText Params ParamsFacts Query Api ReaderModels ReaderTxs ReaderDress ReaderRows ReaderTxsFacts.

(** * Sorting and selecting commute *)
Section order_filter.
Context {A : Type} (le : A → A → bool) (p : A → bool).
Hypothesis le_total : ∀ x y, le x y = true ∨ le y x = true.
Hypothesis le_trans : ∀ x y z, le x y = true → le y z = true → le x z = true.

Lemma insert_by_first x l : Forall (λ y, le x y = true) l → insert_by le x l = x :: l.
Proof. destruct l as [|y l]; simpl; [done|]. by intros [-> _]%Forall_cons. Qed.

Lemma filter_insert_by x l :
StronglySorted (λ x y, le x y = true) l →
List.filter p (insert_by le x l) =
if p x then insert_by le x (List.filter p l) else List.filter p l.
Proof.
induction 1 as [|y l Hs IH Hy]; simpl; [by destruct (p x)|].
destruct (le x y) eqn:E.
- simpl. destruct (p x) eqn:Ex; [|done]. symmetry. apply insert_by_first.
  assert (Forall (λ z, le x z = true) (y :: l)) as Hf.
  { constructor; [done|]. eapply Forall_impl; [exact Hy|]. intros z Hz. by eapply le_trans. }
  change (if p y then y :: List.filter p l else List.filter p l) with (List.filter p (y :: l)).
  rewrite Forall_forall in *. intros z Hz. apply Hf.
  rewrite list_elem_of_In in Hz. apply filter_In in Hz as [Hz _]. by apply list_elem_of_In.
- simpl. rewrite IH. destruct (p x), (p y) eqn:Ey; try done. simpl. by rewrite E.
Qed.

Lemma filter_order_by l : List.filter p (order_by le l) = order_by le (List.filter p l).
Proof.
induction l as [|x l IH]; simpl; [done|].
rewrite filter_insert_by by (apply order_by_sorted; done). rewrite IH. by destruct (p x).
Qed.
End order_filter.

(** The elements whose ids are those of the first [n] that satisfy [ok]. *)
Lemma filter_page {A} (id : A → string) (ok : A → bool) (n : nat) l :
  NoDup (map id l) →
  List.filter (λ x, bool_decide (id x ∈ map id (take n (List.filter ok l)))) l = take n (List.filter ok l).
Proof.
  revert n. induction l as [|x l IH]; intros n; [by destruct n|].
  cbn [map]. intros [Hni Hnd]%NoDup_cons. cbn [List.filter].
  assert (∀ m, id x ∉ map id (take m (List.filter ok l))) as Hx.
  { intros m Hin. apply Hni. apply elem_of_map in Hin as (y & Hy & ->). apply elem_of_map. exists y.
    split; [|done]. apply elem_of_take in Hy as (k & Hk & _). apply list_elem_of_lookup_2 in Hk.
    rewrite list_elem_of_In in Hk. apply filter_In in Hk as [Hk _]. by apply list_elem_of_In. }
  destruct (ok x).
  - destruct n as [|n].
    + cbn [take map]. rewrite bool_decide_false by (by intros ?%elem_of_nil).
      apply filter_none. intros y _. apply bool_decide_false. by intros ?%elem_of_nil.
    + cbn [take map]. rewrite bool_decide_true by left. f_equal. etransitivity; [|exact (IH n Hnd)].
      apply filter_ext_in. intros y Hy. apply bool_decide_ext. rewrite elem_of_cons.
      split; [|by right]. intros [E|?]; [|done]. destruct Hni. rewrite <-E. apply elem_of_map.
      exists y. by rewrite list_elem_of_In.
  - rewrite bool_decide_false by apply Hx. by apply IH.
Qed.

(** The first [n] of a part of a list, found in a first part of it. *)
Lemma take_filter_take {A} (ok : A → bool) (n k : nat) l :
  n ≤ length (List.filter ok (take k l)) → take n (List.filter ok (take k l)) = take n (List.filter ok l).
Proof.
  intros Hn. rewrite <-(take_drop k l) at 2. by rewrite List.filter_app, take_app_le.
Qed.

(** * The transactions of the tables *)
Definition all_txs (c : content) : list Transaction := flat_map (join_transaction c) (c TableTransactions).
Definition typed_txs (c : content) : bool := forallb (text_cols ["id"; "chain_id"]) (c TableTransactions).

Lemma well_typed_txs c : well_typed c → typed_txs c = true.
Proof.
intros Ht. unfold typed_txs. rewrite forallb_forall. intros r Hr%list_elem_of_In.
eapply typed_text; [by apply Ht|reflexivity].
Qed.

Lemma tx_asc_total x y : tx_asc x y = true ∨ tx_asc y x = true.
Proof.
  unfold tx_asc. destruct (Z.ltb_spec (Tx_CreatedAt x) (Tx_CreatedAt y)); [by left|].
  destruct (Z.ltb_spec (Tx_CreatedAt y) (Tx_CreatedAt x)); [by right|].
  assert (Tx_CreatedAt x = Tx_CreatedAt y) as -> by lia. rewrite Z.eqb_refl. simpl.
  destruct (String.leb_total (Tx_ChainID x) (Tx_ChainID y)) as [H1|H1]; rewrite H1; auto.
Qed.

Lemma tx_asc_trans x y z : tx_asc x y = true → tx_asc y z = true → tx_asc x z = true.
Proof.
  unfold tx_asc. rewrite !orb_true_iff, !andb_true_iff, !Z.ltb_lt, !Z.eqb_eq.
  intros [H1|[H1 H1']] [H2|[H2 H2']]; [left; lia..|]. right. split; [lia|].
  assert (String.le (Tx_ChainID x) (Tx_ChainID z)) as Hle; [|by apply Is_true_true].
  transitivity (Tx_ChainID y); by apply Is_true_true.
Qed.

Lemma tx_order_total s x y : tx_order s x y = true ∨ tx_order s y x = true.
Proof. destruct s; simpl; apply tx_asc_total. Qed.
Lemma tx_order_trans s x y z : tx_order s x y = true → tx_order s y z = true → tx_order s x z = true.
Proof. destruct s; simpl; intros H1 H2; by eapply tx_asc_trans. Qed.

(** One row of the answer for each transaction, with its id and its chain. *)
Lemma join_transaction_one c r :
  unique_content c → ∃ tx, join_transaction c r = [tx] ∧ Tx_ID tx = col_str r "id" ∧
    Tx_ChainID tx = col_str r "chain_id".
Proof.
  intros Hu. unfold join_transaction.
  assert (∀ t, ["id"] ∈ unique_keys t → ∃ x, left_join (λ e, same_col e "id" r "id") (c t) = [x]) as H.
  { intros t Ht. rewrite (left_join_ext _ (λ e, same_col r "id" e "id")) by (intros; apply same_col_sym).
    pose proof (left_join_unique t "id" r "id" _ (Hu t) Ht) as Hl.
    destruct (left_join _ (c t)) as [|x []]; try done. by exists x. }
  destruct (H TableTransactionsEpochs ltac:(left)) as [e ->].
  destruct (H TableTransactionsValidator ltac:(left)) as [v ->].
  destruct (H TableTransactionsBlock ltac:(left)) as [b ->].
  eexists. split; [reflexivity|]. done.
Qed.

Lemma all_txs_filter c (f : row → bool) (g : Transaction → bool) :
  unique_content c →
  (∀ r tx, r ∈ c TableTransactions → join_transaction c r = [tx] → g tx = f r) →
  flat_map (join_transaction c) (List.filter f (c TableTransactions)) = List.filter g (all_txs c).
Proof.
  intros Hu. unfold all_txs. induction (c TableTransactions) as [|r l IH]; intros H; simpl; [done|].
  destruct (join_transaction_one c r Hu) as (tx & E & _).
  pose proof (H r tx ltac:(left) E) as Hg. rewrite E. simpl. rewrite Hg.
  assert (∀ r tx, r ∈ l → join_transaction c r = [tx] → g tx = f r) as Hl.
  { intros r' tx' Hr'. apply H. by right. }
  destruct (f r); simpl; rewrite ?E; simpl; by rewrite IH.
Qed.

Lemma all_txs_ids c : unique_content c → map Tx_ID (all_txs c) = map (λ r, col_str r "id") (c TableTransactions).
Proof.
  intros Hu. unfold all_txs. induction (c TableTransactions) as [|r l IH]; simpl; [done|].
  destruct (join_transaction_one c r Hu) as (tx & -> & E & _). simpl. by rewrite E, IH.
Qed.

Lemma all_txs_NoDup c : unique_content c → typed_txs c = true → NoDup (map Tx_ID (all_txs c)).
Proof.
  intros Hu Hty. rewrite all_txs_ids by done.
  pose proof (Hu TableTransactions ["id"] ltac:(left)) as Hnd.
  unfold typed_txs in Hty. rewrite forallb_forall in Hty.
  assert (∀ r, r ∈ c TableTransactions → text_cols ["id"; "chain_id"] r = true) as Ht.
  { intros r Hr. apply Hty. by apply list_elem_of_In. }
  clear Hty. induction (c TableTransactions) as [|r l IH]; [constructor|].
  cbn [map] in *. apply NoDup_cons in Hnd as [Hni Hnd]. constructor; [|by apply IH; [|intros; apply Ht; right]].
  intros (r' & Hr' & E)%elem_of_map. apply Hni. apply elem_of_map. exists r'. split; [done|].
  destruct (text_cols_col r _ "id" (Ht r ltac:(left)) ltac:(left)) as [s Hs].
  destruct (text_cols_col r' _ "id" (Ht r' ltac:(by right)) ltac:(left)) as [s' Hs'].
  rewrite (has_text_col _ _ _ Hs), (has_text_col _ _ _ Hs') in E. subst s'.
  unfold has_text in *. simpl. by rewrite Hs, Hs'.
Qed.

(** * The requests the list can answer *)
Section requests.
Context `{!GoText} `{!AxiaIds} `{!AxiaFormatting} `{!SqlText}.

(** A request that only chooses the order, the chains and how many transactions. *)
Record plain (p : ListTransactionsParams) : Prop := {
plain_id : LP_ID (LT_ListParams p) = None;
plain_query : LP_Query (LT_ListParams p) = "";
plain_start : LP_StartTimeProvided (LT_ListParams p) = false;
plain_end : LP_EndTimeProvided (LT_ListParams p) = false;
plain_addresses : LT_Addresses p = [];
plain_asset : LT_AssetID p = None;
}.

Lemma values_missing (q : Values) k :
forallb (λ kv : string * list string, bool_decide (kv.1 ∈ cacheable_keys)) (map_to_list q) = true →
k ∉ cacheable_keys → values_of q k = [].
Proof.
rewrite forallb_forall. intros Hf Hk. unfold values_of. destruct (q !! k) as [vs|] eqn:E; [|done].
apply elem_of_map_to_list, list_elem_of_In, Hf, bool_decide_eq_true in E. done.
Qed.

Lemma ListTransactions_values now v q p :
ListTransactionsParams_ForValues now v q = Ok p → LP_Values (LT_ListParams p) = q.
Proof.
unfold ListTransactionsParams_ForValues, ListParams_ForValuesAllowOffset, mbind, result_bind.
destruct (forValues now v q true) as [lp|] eqn:E; [|done].
apply forValues_inv in E as (? & ? & ? & ? & ? & _ & _ & _ & _ & _ & _ & _ & _ & E).
repeat (case_match; try done). by intros [= <-].
Qed.

Lemma cacheable_plain now v q p :
ListTransactionsParams_ForValues now v q = Ok p →
forallb (λ kv : string * list string, bool_decide (kv.1 ∈ cacheable_keys)) (map_to_list q) = true →
plain p.
Proof.
intros Hp Hk. pose proof (λ k, values_missing q k Hk) as Hm.
unfold ListTransactionsParams_ForValues, ListParams_ForValuesAllowOffset, forValues, mbind, result_bind in Hp.
destruct (GetQueryInt q KeyLimit _) as [limit|]; [|done].
destruct (GetQueryInt q KeyOffset _) as [offset|]; [|done]. cbn [negb andb] in Hp.
unfold GetQueryID, GetQueryTime, GetQueryString in Hp.
rewrite (Hm KeyID), (Hm KeyStartTime), (Hm KeyEndTime), (Hm KeySearchQuery), (Hm KeyAssetID), (Hm KeyAddress) in Hp
  by (unfold cacheable_keys; compute_done).
cbn [String.eqb mapM mret result_ret fst snd] in Hp.
destruct (GetQueryBool q KeyDisableCount false) as [b|]; [|done].
destruct (mapM _ (values_of q KeyOutputOutputType)) as [l1|]; [|done].
destruct (mapM _ (values_of q KeyOutputGroupID)) as [l2|]; [|done].
destruct (GetQueryBool q KeyDisableGenesis false) as [g|]; [|done].
injection Hp as <-. by split.
Qed.

(** ** The page of such a request *)
Definition tx_of_chains (chains : list string) (tx : Transaction) : bool :=
(length chains =? 0) || existsb (String.eqb (Tx_ChainID tx)) chains.

Lemma plain_where p c r tx :
plain p → text_cols ["id"; "chain_id"] r = true → Tx_ChainID tx = col_str r "chain_id" →
listTxs_where p c r = tx_of_chains (LT_ChainIDs p) tx.
Proof.
intros [Hid Hq Hs He Ha _] Hty Hc. unfold listTxs_where, in_period. rewrite Hid, Hq, Hs, He, Ha.
cbn [String.eqb negb andb orb length Nat.eqb]. rewrite andb_true_r. unfold tx_of_chains. f_equal.
destruct (text_cols_col r _ "chain_id" Hty ltac:(set_solver)) as [s Hr].
rewrite Hc, (has_text_col _ _ _ Hr). unfold in_texts, matches, has_text in *.
induction (LT_ChainIDs p) as [|x l IH]; cbn [existsb]; [done|]. rewrite IH. f_equal.
cbn [forallb cond_holds]. rewrite andb_true_r, Hr. destruct (String.eqb_spec s x) as [->|Hne].
- by apply bool_decide_true.
- apply bool_decide_false. naive_solver.
Qed.

Lemma plain_listTxsQuery p c :
plain p → unique_content c → typed_txs c = true →
listTxsQuery p c = List.filter (tx_of_chains (LT_ChainIDs p)) (all_txs c).
Proof.
intros Hp Hu Hty. unfold typed_txs in Hty. rewrite forallb_forall in Hty.
rewrite <-(all_txs_filter c (listTxs_where p c)); [|done|].
- unfold listTxsQuery, asset_rows. rewrite (plain_asset _ Hp).
  apply flat_map_ext. intros r. simpl. apply app_nil_r.
- intros r tx Hr E. destruct (join_transaction_one c r Hu) as (tx' & E' & _ & Hc).
  rewrite E in E'. injection E' as <-. symmetry. apply plain_where; [done| |done].
  apply Hty. by apply list_elem_of_In.
Qed.

Lemma plain_page p c :
plain p → LP_Offset (LT_ListParams p) = 0%Z → unique_content c → typed_txs c = true →
txs_page p c =
limit_rows (LP_Limit (LT_ListParams p))
  (List.filter (tx_of_chains (LT_ChainIDs p)) (order_by (tx_order (LT_Sort p)) (all_txs c))).
Proof.
intros Hp Ho Hu Hty. unfold txs_page, applySort. rewrite (plain_query _ Hp), Ho.
cbn [String.eqb offset_rows Z.eqb]. rewrite plain_listTxsQuery by done.
change (flat_map (join_transaction c) (c TableTransactions)) with (all_txs c).
rewrite <-!filter_order_by by (apply tx_order_total || apply tx_order_trans).
assert (NoDup (map Tx_ID (order_by (tx_order (LT_Sort p)) (all_txs c)))) as Hnd.
{ rewrite order_by_perm. by apply all_txs_NoDup. }
revert Hnd. generalize (order_by (tx_order (LT_Sort p)) (all_txs c)) as l. intros l Hnd.
unfold limit_rows. destruct (_ =? 0)%Z; [|by apply filter_page].
rewrite <-(firstn_all (List.filter (tx_of_chains (LT_ChainIDs p)) l)). by apply filter_page.
Qed.
End requests.

(** * The list *)
Lemma by_chain_lookup l chain :
  default [] (fold_left by_chain_add l ∅ !! chain) = List.filter (λ tx, String.eqb (Tx_ChainID tx) chain) l.
Proof.
  assert (∀ m, default [] (fold_left by_chain_add l m !! chain) =
            default [] (m !! chain) ++ List.filter (λ tx, String.eqb (Tx_ChainID tx) chain) l) as H;
    [|rewrite H; by rewrite lookup_empty].
  induction l as [|tx l IH]; intros m; cbn [fold_left List.filter]; [simpl; by rewrite app_nil_r|].
  rewrite IH. unfold by_chain_add. destruct (String.eqb_spec (Tx_ChainID tx) chain) as [<-|Hne].
  - rewrite lookup_insert_eq. simpl. by rewrite <-app_assoc.
  - by rewrite lookup_insert_ne.
Qed.

Lemma FindTxs_Set l chains limit txs :
  FindTxs (TxList_Set (Some l)) chains limit = Some txs →
  txs = take (Z.to_nat limit) (List.filter (tx_of_chains chains) l) ∧
  Z.to_nat limit ≤ length (List.filter (tx_of_chains chains) l).
Proof.
  unfold FindTxs. destruct chains as [|chain []]; cbn [TxList_Set Txs TxsByChain mbind option_bind]; [| |done].
  - assert (List.filter (tx_of_chains []) l = l) as -> by (apply forallb_filter_id, forallb_forall; done).
    destruct (Z.leb_spec limit (Z.of_nat (length l))); [|done]. intros [= <-]. split; [done|lia].
  - pose proof (by_chain_lookup l chain) as E.
    assert (List.filter (tx_of_chains [chain]) l = List.filter (λ tx, String.eqb (Tx_ChainID tx) chain) l) as ->.
    { apply List.filter_ext. intros tx. unfold tx_of_chains. simpl. by rewrite orb_false_r. }
    destruct (_ !! chain) as [k|]; simpl in *; [|done]. rewrite <-E.
    destruct (Z.leb_spec limit (Z.of_nat (length k))); [|done]. intros [= <-]. split; [done|lia].
Qed.

(** What a request sees of a transaction is not changed by dressing it. *)
Lemma filter_take_ids (l l' : list Transaction) (ok : Transaction → bool) n :
  Forall2 (λ tx tx', Tx_ID tx' = Tx_ID tx ∧ ok tx' = ok tx) l l' →
  map Tx_ID (take n (List.filter ok l')) = map Tx_ID (take n (List.filter ok l)) ∧
  length (List.filter ok l') = length (List.filter ok l).
Proof.
  intros H. revert n. induction H as [|tx tx' l l' [Hid Hok] _ IH]; intros n; [done|].
  cbn [List.filter]. rewrite Hok. destruct (ok tx); [|apply IH].
  destruct n as [|n]; cbn [take map length].
  - split; [done|]. by rewrite (proj2 (IH 0)).
  - destruct (IH n) as [-> ->]. by rewrite Hid.
Qed.

Section cache.
Context `{SqlEngine D} `{!SqlEngineOk D} `{!AxiaIds} `{!Dbr} `{!GoText} `{!AxiaFormatting} `{!SqlText}.

#[local] Instance typed_txs_proper : Proper (content_eq ==> (=@{bool})) typed_txs.
Proof.
intros c c' E. unfold typed_txs. apply eq_true_iff_eq. rewrite !forallb_forall.
setoid_rewrite <-list_elem_of_In. by setoid_rewrite (E TableTransactions).
Qed.

(** The list is empty, or holds the first transactions of the tables, dressed. *)
Lemma processorTxAscFetch_list a d d' cache :
processorTxAscFetch a d = (d', Ok cache) →
cache = empty_tx_list ∨
∃ c txs, c ≡ᶜ rows d ∧ cache = TxList_Set (Some txs) ∧
  Forall2 (λ tx tx', Tx_ID tx' = Tx_ID tx ∧ Tx_ChainID tx' = Tx_ChainID tx) (first_txs c) txs.
Proof.
unfold processorTxAscFetch. rewrite bind_run. destruct (select first_txs d) as [d1 [l|e]] eqn:E; simpl.
- apply select_ok in E as [E ->].
  destruct (dressTransactions _ a None false d1) as [d2 [txs|e]] eqn:E2; intros [= _ <-]; [|by left].
  right. exists (rows d1), txs. split_and!; [by symmetry|done|].
  apply dressTransactions_ok in E2 as [[E3 ->]|(prop & rew & c1 & c2 & c3 & m & _ & _ & _ & _ & ->)].
  + rewrite E3. constructor.
  + apply Forall2_fmap_r, Forall_Forall2_diag, Forall_forall. intros tx _.
    destruct (undressed_fields prop tx) as (E3 & E4 & _). by split.
- intros [= _ <-]. by left.
Qed.

(** C20. The list of transactions kept in memory answers as the tables do.  When a
  request is answered from the list, which the background task filled with the
  first 5000 transactions of the tables and which is only used for requests whose
  parameters choose the order, the chain and the size of the page, the answer has the
  transactions that the query of the page would have given on these tables, in
  the same order. *)
Theorem cached_page ctx now v q p0 a d d' cache txs :
ListTransactionsParams_ForValues now v q = Ok p0 →
unique_content (rows d) → typed_txs (rows d) = true →
processorTxAscFetch a d = (d', Ok cache) →
listTxsFromCache true cache empty_tx_list (transactions_of_chain ctx p0) = Some txs →
∃ c, c ≡ᶜ rows d ∧ map Tx_ID txs = map Tx_ID (txs_page (transactions_of_chain ctx p0) c).
Proof.
intros Hp Hu Hty Hrun Hc. set (p := transactions_of_chain ctx p0) in *.
unfold listTxsFromCache in Hc. cbn [negb orb] in Hc.
destruct (LP_Limit (LT_ListParams p) =? 0)%Z eqn:El; [done|]. cbn [orb] in Hc.
destruct (Z.eqb_spec (LP_Offset (LT_ListParams p)) 0) as [Eo|]; [|done]. cbn [negb] in Hc.
destruct (LT_Sort p) eqn:Es; [|done].
destruct (IsProcessed cache); [|done]. cbn [negb] in Hc.
destruct (forallb _ _) eqn:Ek; [|done]. cbn [negb] in Hc.
assert (plain p) as Hpl.
{ change (LP_Values (LT_ListParams p)) with (LP_Values (LT_ListParams p0)) in Ek.
  assert (LP_Values (LT_ListParams p0) = q) as Eq by (by eapply ListTransactions_values).
  rewrite Eq in Ek. destruct (cacheable_plain _ _ _ _ Hp Ek). by split. }
apply processorTxAscFetch_list in Hrun as [->|(c & l & E & -> & Hl)].
{ exfalso. clear -Hc. unfold FindTxs in Hc. by destruct (LT_ChainIDs p) as [|? []]. }
apply FindTxs_Set in Hc as [-> Hlen]. exists c. split; [done|].
assert (unique_content c) as Hu1 by (by rewrite E).
assert (typed_txs c = true) as Hty1 by (by rewrite (typed_txs_proper _ _ E)).
rewrite plain_page by done. rewrite Es. unfold limit_rows. rewrite El.
assert (Forall2 (λ tx tx', Tx_ID tx' = Tx_ID tx ∧
  tx_of_chains (LT_ChainIDs p) tx' = tx_of_chains (LT_ChainIDs p) tx) (first_txs c) l) as Hl2.
{ eapply Forall2_impl; [exact Hl|]. intros x y [E1 E2]. split; [done|]. unfold tx_of_chains. by rewrite E2. }
destruct (filter_take_ids _ _ _ (Z.to_nat (LP_Limit (LT_ListParams p))) Hl2) as [-> Hlen2].
rewrite Hlen2 in Hlen. unfold first_txs in *. by rewrite take_filter_take.
Qed.
End cache.

(** * An example: the first transaction of a chain, asked for with a limit *)
Module CacheSample.
Import Toy ToyDbr ToyText.
#[export] Instance like_text : SqlText := {| like p s := has_prefix p s |}.

Definition q : gmap string (list string) := {[ KeyLimit := ["1"]; KeyChainID := ["Swap"] ]}.
Definition ctx : V2Context := mkV2Context 1 "AXC" 2 None.
Definition p0 : ListTransactionsParams := {|
LT_ListParams := mkListParams q None "" 1 0 true false false (time_Round zero_time Second) 0;
LT_ChainIDs := ["Swap"];
LT_Addresses := [];
LT_AssetID := None;
LT_OutputOutputTypes := [];
LT_OutputGroupIDs := [];
LT_DisableGenesis := false;
LT_Sort := TransactionSortTimestampAsc;
|}.
Definition cache : ReaderAggregateTxList :=
match (processorTxAscFetch "AXC" PageSample.db).2 with Ok l => l | Err _ => empty_tx_list end.
Definition page : list Transaction :=
default [] (listTxsFromCache true cache empty_tx_list (transactions_of_chain ctx p0)).

Example page_ids : map Tx_ID page = ["T1"].
Proof. vm_compute. reflexivity. Qed.
End CacheSample.
Import Toy ToyDbr ToyText CacheSample.

Lemma cached_page_witness :
  ∃ c, c ≡ᶜ rows PageSample.db ∧
    map Tx_ID CacheSample.page = map Tx_ID (txs_page (transactions_of_chain CacheSample.ctx CacheSample.p0) c).
Proof.
  apply (cached_page (H0 := Toy.ids) (H1 := ToyDbr.dbr) CacheSample.ctx 0 2 CacheSample.q CacheSample.p0 "AXC"
           PageSample.db PageSample.db CacheSample.cache CacheSample.page).
  - vm_compute. reflexivity.
  - apply unique_db_ok. vm_compute. reflexivity.
  - vm_compute. reflexivity.
  - vm_compute. reflexivity.
  - vm_compute. reflexivity.
Defined.
