(* ===== verification/PageFacts.v ===== *)
(** The pages of the transactions (ReaderTxs.v): what a page holds, and what the link
    to the next one skips. *)

From S2P Require Import Prelude Errors Sql MemDb DbModel Persist Persistence Axia Models Utils GoText Params ParamsFacts Query ReaderModels ReaderTxs ReaderDress ReaderRows ReaderTxsFacts Api CacheFacts.
From Stdlib Require Import Ascii DecimalString.

(** The elements of a list whose ids are those of a part of it. *)
Lemma filter_sublist {A} (id : A → string) k l :
  NoDup (map id l) → k `sublist_of` l → List.filter (λ x, bool_decide (id x ∈ map id k)) l = k.
Proof.
  intros Hnd Hs. induction Hs as [|x k l Hs IH|x k l Hs IH]; [done|..]; cbn [map List.filter] in *;
    apply NoDup_cons in Hnd as [Hni Hnd].
  - rewrite bool_decide_true by left. f_equal. etransitivity; [|by apply IH].
    apply filter_ext_in. intros y Hy. apply bool_decide_ext. rewrite elem_of_cons.
    split; [|by right]. intros [E|?]; [|done]. destruct Hni. rewrite <-E. apply elem_of_map.
    exists y. by rewrite list_elem_of_In.
  - rewrite bool_decide_false; [by apply IH|]. intros Hin. apply Hni.
    apply elem_of_map in Hin as (y & Hy & ->). apply elem_of_map. exists y. split; [|done].
    by eapply elem_of_sublist.
Qed.

Lemma filter_sublist_of {A} (p : A → bool) l : List.filter p l `sublist_of` l.
Proof. induction l as [|x l IH]; simpl; [done|]. destruct (p x); by constructor. Qed.

Lemma limit_rows_sublist {A} n (l : list A) : limit_rows n l `sublist_of` l.
Proof. unfold limit_rows. destruct (n =? 0)%Z; [done|apply sublist_take]. Qed.
Lemma offset_rows_sublist {A} n (l : list A) : offset_rows n l `sublist_of` l.
Proof. unfold offset_rows. destruct (n =? 0)%Z; [done|apply sublist_drop]. Qed.

(** * The link to the next page, and the request it makes *)
Lemma Z_no_char c z : digit_of c = None → c ≠ "-"%char → has_char c (Z_to_string z) = false.
Proof.
intros Hc Hm.
assert (∀ d, digit_of d ≠ None → Ascii.eqb d c = false) as Hd by (intros d Hd; apply Ascii.eqb_neq; congruence).
assert (∀ u, has_char c (DecimalString.NilEmpty.string_of_uint u) = false) as Hu.
{ intros u. induction u; cbn [DecimalString.NilEmpty.string_of_uint has_char]; [done|..]; by rewrite Hd. }
assert (∀ u, has_char c (DecimalString.NilZero.string_of_uint u) = false) as Hz.
{ intros u. destruct u; [cbn [DecimalString.NilZero.string_of_uint has_char]; by rewrite Hd|..]; apply (Hu _). }
unfold Z_to_string. destruct (Z.to_int z); cbn [DecimalString.NilZero.string_of_int]; [apply Hz|].
cbn [has_char]. rewrite Hz, orb_false_r. apply Ascii.eqb_neq. by intros <-.
Qed.

Lemma url_plain_Z z : url_plain (Z_to_string z) = true.
Proof. unfold url_plain. by rewrite !Z_no_char. Qed.

(** The texts of the values of a request stand for themselves in a URL. *)
Definition plain_values (q : gmap string (list string)) : Prop :=
∀ k vs, q !! k = Some vs → key_plain k = true ∧ Forall (λ v, url_plain v = true) vs.

Definition add_pair (next : string) (kv : string * string) : string := next +:+ "&" +:+ pair_text kv.

(** The pairs a value of the request leaves in the link. *)
Definition next_pairs (p : ListTransactionsParams) (kv : string * list string) : list (string * string) :=
let '(k, vs) := kv in
if decide (k = KeyLimit) then [(KeyLimit, Z_to_string (LP_Limit (LT_ListParams p)))]
else if decide (k = KeyStartTime) then
  match LT_Sort p with TransactionSortTimestampDesc => map (pair k) vs | _ => [] end
else if decide (k = KeyEndTime) then
  match LT_Sort p with TransactionSortTimestampAsc => map (pair k) vs | _ => [] end
else if decide (k = KeyOffset) then []
else if decide (k = KeySortBy) then []
else map (pair k) vs.

Lemma add_values_pairs k vs next :
fold_left (λ next v, next +:+ "&" +:+ k +:+ "=" +:+ v) vs next = fold_left add_pair (map (pair k) vs) next.
Proof. revert next. induction vs as [|v vs IH]; intros next; [done|]. apply IH. Qed.

Lemma next_value_pairs p next kv : next_value p next kv = fold_left add_pair (next_pairs p kv) next.
Proof.
destruct kv as [k vs]. unfold next_value, next_pairs. rewrite !add_values_pairs.
repeat case_decide; try done; by destruct (LT_Sort p).
Qed.

Lemma next_values_pairs p l next :
fold_left (next_value p) l next = fold_left add_pair (flat_map (next_pairs p) l) next.
Proof.
revert next. induction l as [|kv l IH]; intros next; [done|]. cbn [fold_left flat_map].
by rewrite next_value_pairs, fold_left_app, IH.
Qed.

(** The pairs of the link after [lasttx]. *)
Definition link_pairs (p : ListTransactionsParams) (lasttx : Transaction) : list (string * string) :=
let '(key, t) := next_time (LT_Sort p) (Tx_CreatedAt lasttx) in
(key, Z_to_string t) :: flat_map (next_pairs p) (map_to_list (LP_Values (LT_ListParams p))) ++
[(KeySortBy, TransactionSort_String (LT_Sort p))].

Lemma next_link txs p link :
transactionProcessNext txs p = Some link →
∃ lasttx kv l, last txs = Some lasttx ∧ link_pairs p lasttx = kv :: l ∧ link = fold_left add_pair l (pair_text kv).
Proof.
unfold transactionProcessNext. case_match; [done|]. destruct (last txs) as [lasttx|]; [|done]. cbn.
intros E. exists lasttx. unfold link_pairs. destruct (next_time (LT_Sort p) (Tx_CreatedAt lasttx)) as [key t].
injection E as <-. eexists _, _. split; [done|]. split; [done|]. rewrite next_values_pairs, fold_left_app. done.
Qed.

Lemma link_plain p lasttx : plain_values (LP_Values (LT_ListParams p)) → Forall plain_pair (link_pairs p lasttx).
Proof.
intros Hq. unfold link_pairs. destruct (next_time (LT_Sort p) (Tx_CreatedAt lasttx)) as [key t] eqn:Et.
constructor.
{ split; [|apply url_plain_Z]. unfold next_time in Et. destruct (LT_Sort p); by injection Et as <- <-. }
apply Forall_app. split; [|constructor; [|done]; by destruct (LT_Sort p)].
apply Forall_flat_map, Forall_forall. intros [k vs] Hkv%elem_of_map_to_list. destruct (Hq k vs Hkv) as [Hk Hvs].
assert (Forall plain_pair (map (pair k) vs)) as Hall.
{ apply Forall_fmap. eapply Forall_impl; [exact Hvs|]. intros v Hv. by split. }
unfold next_pairs. repeat case_decide; try done; [|by destruct (LT_Sort p)..].
constructor; [|done]. split; [done|apply url_plain_Z].
Qed.

Lemma filter_all {A} (f : A → bool) (l : list A) : (∀ x, x ∈ l → f x = true) → List.filter f l = l.
Proof.
induction l as [|x l IH]; intros Hf; simpl; [done|].
rewrite Hf by left. f_equal. apply IH. intros y Hy. apply Hf. by right.
Qed.

(** The pairs of one key among those of all the keys of a map. *)
Lemma filter_key_pairs (f : string * list string → list (string * string)) (q : gmap string (list string)) k :
(∀ kv x, x ∈ f kv → x.1 = kv.1) →
List.filter (λ x, String.eqb x.1 k) (flat_map f (map_to_list q)) =
match q !! k with Some vs => f (k, vs) | None => [] end.
Proof.
intros Hf. pose proof (NoDup_fst_map_to_list q) as Hnd.
assert (∀ vs, q !! k = Some vs ↔ (k, vs) ∈ map_to_list q) as Hin by (intros vs; by rewrite elem_of_map_to_list).
revert Hnd Hin. generalize (q !! k) as o. induction (map_to_list q) as [|[k' vs'] l IH]; intros o Hnd Hin.
{ destruct o as [vs|]; [|done]. exfalso. eapply elem_of_nil. by apply Hin. }
cbn [flat_map]. rewrite List.filter_app. rewrite fmap_cons in Hnd. apply NoDup_cons in Hnd as [Hni Hnd]. cbn [fst] in Hni.
destruct (decide (k' = k)) as [->|Hne].
- assert (o = Some vs') as -> by (apply Hin; left).
  assert (List.filter (λ x, String.eqb x.1 k) (f (k, vs')) = f (k, vs')) as ->.
  { apply filter_all. intros x Hx. apply String.eqb_eq. by apply (Hf (k, vs')). }
  rewrite (IH None), app_nil_r; [done|done|]. intros vs. split; [done|]. intros Hl. destruct Hni.
  apply list_elem_of_fmap. by exists (k, vs).
- assert (List.filter (λ x, String.eqb x.1 k) (f (k', vs')) = []) as ->.
  { apply filter_none. intros x Hx. apply String.eqb_neq. by rewrite (Hf (k', vs') x Hx). }
  cbn [app]. apply IH; [done|]. intros vs. rewrite Hin, elem_of_cons. naive_solver.
Qed.

Lemma next_pairs_key p kv x : x ∈ next_pairs p kv → x.1 = kv.1.
Proof.
destruct kv as [k vs]. assert (∀ x, x ∈ map (pair k) vs → x.1 = k) as Hm by (by intros y (v & -> & _)%list_elem_of_fmap).
unfold next_pairs. repeat case_decide; try (by intros ?%elem_of_nil); try apply Hm.
- subst. by intros ->%list_elem_of_singleton.
- destruct (LT_Sort p); [by intros ?%elem_of_nil|apply Hm].
- destruct (LT_Sort p); [apply Hm|by intros ?%elem_of_nil].
Qed.

Lemma map_snd_pairs {A} (k : A) (vs : list string) : map snd (map (pair k) vs) = vs.
Proof. rewrite map_map. apply map_id. Qed.

(** The values of a key in the request of the link. *)
Lemma link_values txs p link :
plain_values (LP_Values (LT_ListParams p)) → transactionProcessNext txs p = Some link →
∃ lasttx, last txs = Some lasttx ∧ ∀ k,
  values_of (URL_Query link) k =
  (if String.eqb (next_time (LT_Sort p) (Tx_CreatedAt lasttx)).1 k
   then [Z_to_string (next_time (LT_Sort p) (Tx_CreatedAt lasttx)).2] else []) ++
  match LP_Values (LT_ListParams p) !! k with Some vs => map snd (next_pairs p (k, vs)) | None => [] end ++
  (if String.eqb KeySortBy k then [TransactionSort_String (LT_Sort p)] else []).
Proof.
intros Hq (lasttx & kv & l & Hl & Ep & ->)%next_link. exists lasttx. split; [done|]. intros k.
pose proof (link_plain p lasttx Hq) as Hp. rewrite Ep in Hp. unfold values_of, add_pair.
rewrite URL_Query_pairs by done. rewrite add_values_lookup, lookup_empty. cbn [default app]. rewrite <-Ep. unfold link_pairs.
destruct (next_time (LT_Sort p) (Tx_CreatedAt lasttx)) as [key t]. cbn [fst snd List.filter].
rewrite List.filter_app, filter_key_pairs by apply next_pairs_key. cbn [List.filter fst].
destruct (String.eqb key k), (String.eqb KeySortBy k); cbn [map snd app]; rewrite ?map_app; cbn [map snd app];
  rewrite ?app_nil_r; by destruct (LP_Values (LT_ListParams p) !! k).
Qed.

(** What the link to the next page asks for: the same, without offset, from the time it
    gives; [vs] are its values, [en] the end of the request. *)
Definition next_params (p : ListTransactionsParams) (lasttx : Transaction) (vs : gmap string (list string)) (en : Z)
    : ListTransactionsParams :=
let lp := LT_ListParams p in
let '(_, t) := next_time (LT_Sort p) (Tx_CreatedAt lasttx) in
let lp' :=
  match LT_Sort p with
  | TransactionSortTimestampAsc =>
      mkListParams vs (LP_ID lp) (LP_Query lp) (LP_Limit lp) 0 (LP_DisableCounting lp)
        true (LP_EndTimeProvided lp) (t * Second) en
  | TransactionSortTimestampDesc =>
      mkListParams vs (LP_ID lp) (LP_Query lp) (LP_Limit lp) 0 (LP_DisableCounting lp)
        (LP_StartTimeProvided lp) true (LP_StartTime lp) (t * Second)
  end in
mkListTransactionsParams lp' (LT_ChainIDs p) (LT_Addresses p) (LT_AssetID p) (LT_OutputOutputTypes p)
  (LT_OutputGroupIDs p) (LT_DisableGenesis p) (LT_Sort p).

(** The end of the next request: that of this one, or a later one for a request that ends
    with the current time. *)
Definition later_end (p : ListTransactionsParams) (en : Z) : Prop :=
let e := LP_EndTime (LT_ListParams p) in en = e ∨ (e ≤ en)%Z ∧ IsZero e = false ∧ IsZero en = false.

Lemma time_Round_mono t u : (t ≤ u)%Z → (time_Round t Second ≤ time_Round u Second)%Z.
Proof.
intros Htu. unfold time_Round. set (a := (t - zero_time)%Z). set (b := (u - zero_time)%Z).
pose proof (Z.div_mod a Second ltac:(done)) as Ha. pose proof (Z.mod_pos_bound a Second ltac:(done)) as Ha2.
pose proof (Z.div_mod b Second ltac:(done)) as Hb. pose proof (Z.mod_pos_bound b Second ltac:(done)) as Hb2.
assert (a / Second ≤ b / Second)%Z as Hq by (apply Z.div_le_mono; [done|subst a b; lia]).
assert (Second = 1000000000)%Z as ES by done. rewrite ES in *.
destruct (Z.ltb_spec (a mod 1000000000 + a mod 1000000000) 1000000000),
  (Z.ltb_spec (b mod 1000000000 + b mod 1000000000) 1000000000); subst a b; lia.
Qed.

Lemma now_not_zero now : (0 ≤ now)%Z → IsZero (time_Round now Second) = false.
Proof.
intros Hn. apply time_Round_mono in Hn. rewrite (time_Round_exact 0 eq_refl) in Hn.
apply Z.eqb_neq. unfold zero_time. lia.
Qed.

Lemma sort_read s : toTransactionSort (TransactionSort_String s) = s.
Proof. by destruct s. Qed.

(** The values the link gives to the keys. *)
Lemma link_keys txs p link :
plain_values (LP_Values (LT_ListParams p)) → transactionProcessNext txs p = Some link →
∃ lasttx, last txs = Some lasttx ∧
(∀ k, k ∉ [KeyLimit; KeyStartTime; KeyEndTime; KeyOffset; KeySortBy] →
   values_of (URL_Query link) k = values_of (LP_Values (LT_ListParams p)) k) ∧
values_of (URL_Query link) KeyLimit =
  match LP_Values (LT_ListParams p) !! KeyLimit with
  | Some _ => [Z_to_string (LP_Limit (LT_ListParams p))] | None => [] end ∧
values_of (URL_Query link) KeyOffset = [] ∧
values_of (URL_Query link) KeySortBy = [TransactionSort_String (LT_Sort p)] ∧
let t := [Z_to_string (next_time (LT_Sort p) (Tx_CreatedAt lasttx)).2] in
match LT_Sort p with
| TransactionSortTimestampAsc =>
    values_of (URL_Query link) KeyStartTime = t ∧
    values_of (URL_Query link) KeyEndTime = values_of (LP_Values (LT_ListParams p)) KeyEndTime
| TransactionSortTimestampDesc =>
    values_of (URL_Query link) KeyEndTime = t ∧
    values_of (URL_Query link) KeyStartTime = values_of (LP_Values (LT_ListParams p)) KeyStartTime
end.
Proof.
intros Hq Hlink. destruct (link_values _ _ _ Hq Hlink) as (lasttx & Hl & Hv). exists lasttx. split; [done|].
assert (∀ k, (next_time (LT_Sort p) (Tx_CreatedAt lasttx)).1 = k → k = KeyStartTime ∨ k = KeyEndTime) as Hkey.
{ intros k <-. destruct (LT_Sort p); [by left|by right]. }
split_and!.
- intros k Hk. rewrite Hv.
  rewrite (proj2 (String.eqb_neq _ k)) by (intros E; apply Hkey in E; set_solver).
  rewrite (proj2 (String.eqb_neq KeySortBy k)) by set_solver. cbn [app]. rewrite app_nil_r.
  unfold values_of. destruct (_ !! k) as [vs|]; [|done]. unfold next_pairs.
  rewrite !decide_False by set_solver. apply map_snd_pairs.
- rewrite Hv. destruct (LT_Sort p), (_ !! KeyLimit); done.
- rewrite Hv. destruct (LT_Sort p), (_ !! KeyOffset); done.
- rewrite Hv. destruct (LT_Sort p), (_ !! KeySortBy); done.
- cbn zeta. revert Hv. clear Hkey. unfold next_pairs. destruct (LT_Sort p); intros Hv; split; rewrite Hv; unfold values_of;
    destruct (_ !! _); cbn; rewrite ?app_nil_r; try apply map_snd_pairs; done.
Qed.

Lemma unix_range t : (0 ≤ t < 2 ^ 63 + Second)%Z → (- 2 ^ 63 ≤ time_Unix t < 2 ^ 63)%Z.
Proof.
intros Ht. unfold time_Unix. assert (Second = 1000000000)%Z as ES by done.
split; [transitivity 0%Z; [lia|apply Z.div_pos; lia]|]. apply Z.div_lt_upper_bound; lia.
Qed.

Section request.
Context `{!GoText} `{!AxiaIds} `{!AxiaFormatting}.

(** The link makes that request. *)
Lemma link_request now now' v q p txs link :
ListTransactionsParams_ForValues now v q = Ok p → plain_values q →
transactionProcessNext txs p = Some link → (0 ≤ now ≤ now')%Z →
(∀ tx, last txs = Some tx → 0 ≤ Tx_CreatedAt tx < 2 ^ 63)%Z →
∃ lasttx en, last txs = Some lasttx ∧ later_end p en ∧
ListTransactionsParams_ForValues now' v (URL_Query link) = Ok (next_params p lasttx (URL_Query link) en).
Proof.
intros Hp Hq Hlink Hnow Hlast.
unfold ListTransactionsParams_ForValues, ListParams_ForValuesAllowOffset, forValues, GetQueryID, GetQueryTime,
  GetQueryInt, GetQueryBool, GetQueryString in *.
unfold mbind, result_bind in *. cbn [negb andb] in *.
set (limit0 := match values_of q KeyLimit with [] => Ok PaginationMaxLimit | s :: _ => Atoi s end) in Hp.
destruct limit0 as [limit|] eqn:Elimit; [|done]. subst limit0.
destruct (match values_of q KeyOffset with [] => _ | s :: _ => _ end) as [offset|]; [|done].
destruct (if String.eqb _ _ then _ else _) as [id|] eqn:Eid; [|done].
destruct (match values_of q KeyStartTime with [] => _ | s :: _ => _ end) as [[sp st]|] eqn:Est; [|done].
destruct (match values_of q KeyEndTime with [] => _ | s :: _ => _ end) as [[ep et]|] eqn:Eet; [|done].
destruct (match values_of q KeyDisableCount with [] => _ | s :: _ => _ end) as [dc|] eqn:Edc; [|done].
destruct (if String.eqb (match values_of q KeyAssetID with [] => _ | s :: _ => _ end) _ then _ else _) as [asset|] eqn:Eas; [|done].
destruct (mapM _ (values_of q KeyOutputOutputType)) as [types|] eqn:Ety; [|done].
destruct (mapM _ (values_of q KeyOutputGroupID)) as [groups|] eqn:Egr; [|done].
destruct (mapM _ (values_of q KeyAddress)) as [addrs|] eqn:Ead; [|done].
destruct (match values_of q KeyDisableGenesis with [] => _ | s :: _ => _ end) as [dg|] eqn:Edg; [|done].
injection Hp as Ep.
assert (LP_Values (LT_ListParams p) = q) as Evals by (by subst p).
assert (LT_Sort p = query_sort q) as Esort by (by subst p).
set (en := if IsZero et then now else et) in Ep. set (en' := if IsZero et then now' else et).
rewrite <-Evals in Hq. destruct (link_keys _ _ _ Hq Hlink) as (lasttx & Hl & Hoth & Hlim & Hoff & Hsort & Htime).
rewrite Evals in Hoth, Hlim, Htime. specialize (Hlast lasttx Hl).
exists lasttx, (time_Round en' TransactionRoundDuration). split; [done|]. split.
{ unfold later_end. subst p. cbn. unfold TransactionRoundDuration, en, en'. destruct (IsZero et); [right|by left].
  split_and!; [apply time_Round_mono; lia|apply now_not_zero; lia|apply now_not_zero; lia]. }
set (q' := URL_Query link) in *.
assert (match values_of q' KeyLimit with [] => Ok PaginationMaxLimit | s :: _ => Atoi s end =
  Ok (LP_Limit (LT_ListParams p)) ∧ (0 ≤ LP_Limit (LT_ListParams p) ≤ PaginationMaxLimit)%Z) as [-> HL].
{ assert (0 ≤ LP_Limit (LT_ListParams p) ≤ PaginationMaxLimit)%Z as HL.
  { subst p. cbn. unfold PaginationMaxLimit. destruct (Z.ltb_spec limit 0); [by cbn|].
    destruct (Z.ltb_spec 5000 limit); lia. }
  split; [|done]. rewrite Hlim. destruct (q !! KeyLimit) as [vs|] eqn:Ek.
  - apply Atoi_to_string. unfold PaginationMaxLimit in HL. lia.
  - unfold values_of in Elimit. rewrite Ek in Elimit. cbn in Elimit. injection Elimit as <-. by subst p. }
rewrite Hoff. cbn [Z.ltb Z.compare PaginationDefaultOffset].
rewrite !(Hoth KeyID), !(Hoth KeyDisableCount), !(Hoth KeyAssetID), !(Hoth KeyOutputOutputType),
  !(Hoth KeyOutputGroupID), !(Hoth KeyAddress), !(Hoth KeyDisableGenesis), !(Hoth KeyChainID), !(Hoth KeySearchQuery)
  by (by_decide).
rewrite Eid, Edc, Eas, Ety, Egr, Ead, Edg.
assert (query_sort q' = LT_Sort p) as -> by (unfold query_sort; rewrite Hsort; apply sort_read).
assert ((if (LP_Limit (LT_ListParams p) <? 0)%Z then 0%Z else LP_Limit (LT_ListParams p)) = LP_Limit (LT_ListParams p)) as ->
  by (destruct (Z.ltb_spec (LP_Limit (LT_ListParams p)) 0); lia).
assert ((if (PaginationMaxLimit <? LP_Limit (LT_ListParams p))%Z then PaginationMaxLimit else LP_Limit (LT_ListParams p)) =
  LP_Limit (LT_ListParams p)) as ->
  by (destruct (Z.ltb_spec PaginationMaxLimit (LP_Limit (LT_ListParams p))); lia).
assert (0 < Second)%Z as HS by done.
assert (∀ t, (0 ≤ t)%Z → IsZero (t * Second) = false) as Hnz.
{ intros t Ht. apply Z.eqb_neq. unfold zero_time, Second. lia. }
assert (∀ t, time_Round (t * Second) TransactionRoundDuration = t * Second)%Z as Hwhole.
{ intros t. apply time_Round_exact. by apply Z.mod_mul. }
unfold next_params. rewrite Esort in *. destruct (query_sort q) eqn:Es; cbn [next_time] in *; destruct Htime as [Ht1 Ht2].
- rewrite Ht1, Ht2, Eet, Atoi_to_string, Hwhole by (apply unix_range; lia). fold en'. by subst p.
- rewrite Ht1, Ht2, Est, Atoi_to_string, Hnz, Hwhole by (try apply unix_range; try apply Z.div_pos; lia).
  by subst p.
Qed.
End request.

Section pages.
Context `{!AxiaIds} `{!SqlText}.

(** A request that does not join the outputs of an asset. *)
Definition one_row (p : ListTransactionsParams) : bool :=
(0 <? length (LT_Addresses p)) || bool_decide (LT_AssetID p = None).

Lemma one_row_query p c :
one_row p = true →
listTxsQuery p c = flat_map (join_transaction c) (List.filter (listTxs_where p c) (c TableTransactions)).
Proof.
intros Hp. unfold listTxsQuery. apply flat_map_ext. intros r.
assert (asset_rows p c r = [∅]) as ->; [|simpl; apply app_nil_r].
unfold asset_rows. unfold one_row in Hp. destruct (LT_AssetID p); [|done].
destruct (length (LT_Addresses p)); [|done]. done.
Qed.

Lemma one_row_sublist p c : one_row p = true → listTxsQuery p c `sublist_of` all_txs c.
Proof.
intros Hp. rewrite one_row_query by done. unfold all_txs.
induction (c TableTransactions) as [|r l IH]; simpl; [done|].
destruct (listTxs_where p c r); simpl; [by apply sublist_app|by apply sublist_inserts_l].
Qed.

(** A page is a range of the transactions that answer, in the order asked for. *)
Lemma page_rows p c :
one_row p = true → LP_Query (LT_ListParams p) = "" → unique_content c → typed_txs c = true →
txs_page p c =
limit_rows (LP_Limit (LT_ListParams p)) (offset_rows (LP_Offset (LT_ListParams p))
  (order_by (tx_order (LT_Sort p)) (listTxsQuery p c))).
Proof.
intros Hp Hq Hu Hty. unfold txs_page, applySort. rewrite Hq. cbn [String.eqb].
change (flat_map (join_transaction c) (c TableTransactions)) with (all_txs c).
pose proof (all_txs_NoDup c Hu Hty) as Hnd.
rewrite <-filter_order_by by (apply tx_order_total || apply tx_order_trans).
apply filter_sublist; [by rewrite order_by_perm|].
etransitivity; [apply limit_rows_sublist|]. etransitivity; [apply offset_rows_sublist|].
rewrite <-(filter_sublist Tx_ID _ _ Hnd (one_row_sublist p c Hp)).
rewrite <-filter_order_by by (apply tx_order_total || apply tx_order_trans). apply filter_sublist_of.
Qed.

Lemma elem_of_query p c tx :
one_row p = true →
tx ∈ listTxsQuery p c ↔
∃ r, r ∈ c TableTransactions ∧ listTxs_where p c r = true ∧ tx ∈ join_transaction c r.
Proof.
intros Hp. rewrite one_row_query by done. rewrite elem_of_flat_map.
setoid_rewrite elem_of_filter_rows. naive_solver.
Qed.

Lemma join_transaction_time c r tx : tx ∈ join_transaction c r → Tx_CreatedAt tx = as_time (r !! "created_at").
Proof.
unfold join_transaction. intros (e & _ & H1)%elem_of_flat_map.
apply elem_of_flat_map in H1 as (v & _ & H1). by apply elem_of_map in H1 as (b & _ & ->).
Qed.

(** Whether a time is after the second of the last transaction, in the order asked for. *)
Definition after_page (s : TransactionSort) (lasttx t : Z) : bool :=
match s with
| TransactionSortTimestampAsc => (time_Unix lasttx <? time_Unix t)%Z
| TransactionSortTimestampDesc => (time_Unix t <? time_Unix lasttx)%Z
end.

Lemma after_page_irrefl s t : after_page s t t = false.
Proof. destruct s; simpl; apply Z.ltb_irrefl. Qed.

Lemma order_second s x y :
tx_order s x y = true →
after_page s (Tx_CreatedAt y) (Tx_CreatedAt x) = false ∧
(after_page s (Tx_CreatedAt x) (Tx_CreatedAt y) = true ∨
 time_Unix (Tx_CreatedAt y) = time_Unix (Tx_CreatedAt x)).
Proof.
intros Ho. assert (∀ a b, tx_asc a b = true → (time_Unix (Tx_CreatedAt a) ≤ time_Unix (Tx_CreatedAt b))%Z) as Hle.
{ intros a b. unfold tx_asc, time_Unix. rewrite orb_true_iff, andb_true_iff, Z.ltb_lt, Z.eqb_eq. intros Hab.
  apply Z.div_le_mono; [done|]. destruct Hab as [?|[? _]]; lia. }
destruct s; simpl in *; apply Hle in Ho; rewrite Z.ltb_ge, Z.ltb_lt; lia.
Qed.

Lemma seconds_lt a b : (a / Second < b / Second)%Z ↔ ((a / Second + 1) * Second ≤ b)%Z.
Proof.
pose proof (Z.div_mod b Second ltac:(done)). pose proof (Z.mod_pos_bound b Second ltac:(done)).
unfold Second in *. lia.
Qed.

Lemma seconds_gt a b : (a / Second < b / Second)%Z ↔ (a < b / Second * Second)%Z.
Proof.
pose proof (Z.div_mod a Second ltac:(done)). pose proof (Z.mod_pos_bound a Second ltac:(done)).
unfold Second in *. lia.
Qed.

Lemma next_period p lasttx vs en r :
(0 ≤ Tx_CreatedAt lasttx)%Z → later_end p en →
let t := as_time (r !! "created_at") in
(in_period (LT_ListParams (next_params p lasttx vs en)) r = true →
 after_page (LT_Sort p) (Tx_CreatedAt lasttx) t = true) ∧
(in_period (LT_ListParams p) r = true → after_page (LT_Sort p) (Tx_CreatedAt lasttx) t = true →
 in_period (LT_ListParams (next_params p lasttx vs en)) r = true).
Proof.
intros Hpos. cbn zeta. unfold later_end, in_period, after_page, next_params, time_Unix, next_time.
destruct p as [[vs0 id qu li ofs dc sp ep st e] chains addrs asset ts gs g s]. generalize (as_time (r !! "created_at")).
intros t. pose proof (Z.div_pos _ Second Hpos ltac:(done)) as Hp2. cbn [LT_ListParams LP_EndTime].
intros Hend. assert (∀ u, (0 ≤ u)%Z → IsZero (u * Second) = false) as Hnz.
{ intros u Hu. apply Z.eqb_neq. unfold zero_time, Second. lia. }
destruct s; simpl; unfold time_Unix.
- assert ((Tx_CreatedAt lasttx + Second) / Second = Tx_CreatedAt lasttx / Second + 1)%Z as ->.
  { rewrite <-(Z.mul_1_l Second) at 1. by rewrite Z.div_add. }
  rewrite Hnz by lia. cbn [negb andb orb].
  rewrite !andb_true_iff, Z.ltb_lt, Z.leb_le, seconds_lt. split; [tauto|]. intros [_ He] Hs. split; [done|].
  destruct Hend as [->|(Hle & Ha & Hb)]; [done|]. rewrite Ha, Hb in *.
  revert He. rewrite !orb_true_iff, !Z.ltb_lt. intros [?|?]; [by left|right; lia].
- rewrite Hnz by done. cbn [negb andb orb].
  rewrite !andb_true_iff, !Z.ltb_lt, seconds_gt. tauto.
Qed.

(** What answers the next request answers this one, or comes after its end. *)
Lemma next_before p lasttx vs en r0 r :
later_end p en → in_period (LT_ListParams p) r0 = true → as_time (r0 !! "created_at") = Tx_CreatedAt lasttx →
after_page (LT_Sort p) (Tx_CreatedAt lasttx) (as_time (r !! "created_at")) = true →
in_period (LT_ListParams (next_params p lasttx vs en)) r = true →
in_period (LT_ListParams p) r = true ∨ (LP_EndTime (LT_ListParams p) ≤ as_time (r !! "created_at"))%Z.
Proof.
unfold in_period, after_page, next_params, time_Unix, next_time. intros _ Hr0 <-. revert Hr0.
destruct p as [[vs0 id qu li ofs dc sp ep st e] chains addrs asset ts gs g s].
generalize (as_time (r !! "created_at")) (as_time (r0 !! "created_at")). intros t t0.
destruct s; simpl; rewrite !andb_true_iff, !orb_true_iff, !Z.leb_le, !Z.ltb_lt; intros [Hs He] Ha.
- apply seconds_lt in Ha. pose proof (Z.div_mod t0 Second ltac:(done)). pose proof (Z.mod_pos_bound t0 Second ltac:(done)).
  intros _. destruct (Z.lt_ge_cases t e); [left|by right]. split; [|by right].
  destruct Hs; [by left|right; lia].
- intros [Hs2 _]. left. apply seconds_gt in Ha. pose proof (Z.div_mod t0 Second ltac:(done)).
  pose proof (Z.mod_pos_bound t0 Second ltac:(done)). split; [done|]. destruct He; [by left|right; lia].
Qed.

Lemma next_conditions p c lasttx vs en r :
∃ a b d e, listTxs_where p c r = a && b && in_period (LT_ListParams p) r && d && e ∧
  listTxs_where (next_params p lasttx vs en) c r =
    a && b && in_period (LT_ListParams (next_params p lasttx vs en)) r && d && e.
Proof. unfold listTxs_where, next_params. destruct p as [[] chains addrs asset ts gs g []]; simpl; by repeat eexists. Qed.

Lemma next_where p c lasttx vs en r0 r :
(0 ≤ Tx_CreatedAt lasttx)%Z → later_end p en →
listTxs_where p c r0 = true → as_time (r0 !! "created_at") = Tx_CreatedAt lasttx →
let t := as_time (r !! "created_at") in
(listTxs_where (next_params p lasttx vs en) c r = true → after_page (LT_Sort p) (Tx_CreatedAt lasttx) t = true) ∧
(listTxs_where p c r = true → after_page (LT_Sort p) (Tx_CreatedAt lasttx) t = true →
 listTxs_where (next_params p lasttx vs en) c r = true) ∧
(listTxs_where (next_params p lasttx vs en) c r = true →
 listTxs_where p c r = true ∨ (LP_EndTime (LT_ListParams p) ≤ t)%Z).
Proof.
intros Hpos Hend Hr0 Et. cbn zeta. destruct (next_period p lasttx vs en r Hpos Hend) as [H1 H2]. cbn zeta in *.
assert (in_period (LT_ListParams p) r0 = true) as Hp0.
{ unfold listTxs_where in Hr0. rewrite !andb_true_iff in Hr0. tauto. }
pose proof (next_before p lasttx vs en r0 r Hend Hp0 Et) as H3.
destruct (next_conditions p c lasttx vs en r) as (a & b & d & e & -> & ->).
rewrite !andb_true_iff. tauto.
Qed.

Lemma next_params_chain ctx p lasttx vs en :
transactions_of_chain ctx (next_params p lasttx vs en) = next_params (transactions_of_chain ctx p) lasttx vs en.
Proof. unfold next_params, transactions_of_chain. by destruct p as [[] ? ? ? ? ? ? []]. Qed.

Lemma next_params_same p lasttx vs en :
LP_Limit (LT_ListParams (next_params p lasttx vs en)) = LP_Limit (LT_ListParams p) ∧
LT_Sort (next_params p lasttx vs en) = LT_Sort p ∧
LP_Offset (LT_ListParams (next_params p lasttx vs en)) = 0%Z.
Proof. unfold next_params. by destruct p as [[] ? ? ? ? ? ? []]. Qed.

Lemma next_params_one_row p lasttx vs en : one_row (next_params p lasttx vs en) = one_row p.
Proof. unfold one_row, next_params. by destruct p as [[] ? ? ? ? ? ? []]. Qed.

(** A page is a part of the sorted transactions that answer. *)
Lemma page_split p c :
one_row p = true → LP_Query (LT_ListParams p) = "" → unique_content c → typed_txs c = true →
∃ k, order_by (tx_order (LT_Sort p)) (listTxsQuery p c) =
  (if (LP_Offset (LT_ListParams p) =? 0)%Z then []
   else take (Z.to_nat (LP_Offset (LT_ListParams p))) (order_by (tx_order (LT_Sort p)) (listTxsQuery p c))) ++
  txs_page p c ++ k.
Proof.
intros Hp Hq Hu Hty. rewrite (page_rows p c Hp Hq Hu Hty). set (l := order_by _ _).
unfold limit_rows, offset_rows. destruct (LP_Offset (LT_ListParams p) =? 0)%Z.
- cbn [app]. case_match; [exists []; by rewrite app_nil_r|]. eexists. symmetry. apply take_drop.
- case_match; [exists []; by rewrite app_nil_r, take_drop|]. eexists. rewrite take_drop. symmetry. apply take_drop.
Qed.

Lemma answers_sorted p c :
StronglySorted (λ x y, tx_order (LT_Sort p) x y = true) (order_by (tx_order (LT_Sort p)) (listTxsQuery p c)).
Proof. apply order_by_sorted; [apply tx_order_total|apply tx_order_trans]. Qed.

(** The transactions of a page are not after its last one, and answer. *)
Lemma page_before p c tx lasttx :
one_row p = true → LP_Query (LT_ListParams p) = "" → unique_content c → typed_txs c = true →
last (txs_page p c) = Some lasttx → tx ∈ txs_page p c →
after_page (LT_Sort p) (Tx_CreatedAt lasttx) (Tx_CreatedAt tx) = false ∧ tx ∈ listTxsQuery p c.
Proof.
intros Hp Hq Hu Hty Hl Htx. destruct (page_split p c Hp Hq Hu Hty) as [k Ek]. split.
- pose proof (answers_sorted p c) as Hs. rewrite Ek in Hs. apply StronglySorted_app in Hs as (_ & _ & Hs).
  apply StronglySorted_app in Hs as (_ & Hs & _). apply last_Some in Hl as [k0 El]. rewrite El in Hs, Htx.
  apply elem_of_app in Htx as [Htx|Htx%list_elem_of_singleton].
  + apply StronglySorted_app in Hs as (Hk0 & _ & _).
    apply (proj1 (order_second _ _ _ (Hk0 tx lasttx Htx ltac:(left)))).
  + subst tx. apply after_page_irrefl.
- rewrite <-(order_by_perm (tx_order (LT_Sort p))), Ek. rewrite !elem_of_app. tauto.
Qed.

(** The transactions that answer and are not on the page. *)
Lemma page_covers p c tx lasttx :
one_row p = true → LP_Query (LT_ListParams p) = "" → unique_content c → typed_txs c = true →
last (txs_page p c) = Some lasttx → tx ∈ listTxsQuery p c →
tx ∈ take (Z.to_nat (LP_Offset (LT_ListParams p))) (order_by (tx_order (LT_Sort p)) (listTxsQuery p c)) ∨
tx ∈ txs_page p c ∨ after_page (LT_Sort p) (Tx_CreatedAt lasttx) (Tx_CreatedAt tx) = true ∨
time_Unix (Tx_CreatedAt tx) = time_Unix (Tx_CreatedAt lasttx).
Proof.
intros Hp Hq Hu Hty Hl Htx. destruct (page_split p c Hp Hq Hu Hty) as [k Ek].
rewrite <-(order_by_perm (tx_order (LT_Sort p))) in Htx. pose proof (answers_sorted p c) as Hs.
rewrite Ek in Htx. rewrite !elem_of_app in Htx. destruct Htx as [Htx|[Htx|Htx]]; [left|by right; left|right; right].
- by destruct (_ =? 0)%Z; [apply elem_of_nil in Htx|].
- rewrite Ek in Hs. apply StronglySorted_app in Hs as (_ & _ & Hs). apply StronglySorted_app in Hs as (Hs & _ & _).
  apply (order_second (LT_Sort p) lasttx tx), Hs; [|done].
  apply last_Some in Hl as [k0 ->]. apply elem_of_app. right. left.
Qed.

Lemma answer_next p c lasttx vs en tx :
one_row p = true → (0 ≤ Tx_CreatedAt lasttx)%Z → later_end p en → lasttx ∈ listTxsQuery p c → tx ∈ listTxsQuery p c →
after_page (LT_Sort p) (Tx_CreatedAt lasttx) (Tx_CreatedAt tx) = true →
tx ∈ listTxsQuery (next_params p lasttx vs en) c.
Proof.
intros Hp Hpos Hend (r0 & _ & Hw0 & Hj0)%elem_of_query (r & Hr & Hw & Hj)%elem_of_query Ha; [|done..].
apply elem_of_query; [by rewrite next_params_one_row|]. exists r. split_and!; [done| |done].
rewrite (join_transaction_time _ _ _ Hj) in Ha.
by apply (next_where p c lasttx vs en r0 r); [..|rewrite (join_transaction_time _ _ _ Hj0)| |].
Qed.

Lemma next_answer p c lasttx vs en tx :
one_row p = true → (0 ≤ Tx_CreatedAt lasttx)%Z → later_end p en → lasttx ∈ listTxsQuery p c →
tx ∈ listTxsQuery (next_params p lasttx vs en) c →
after_page (LT_Sort p) (Tx_CreatedAt lasttx) (Tx_CreatedAt tx) = true ∧
(tx ∈ listTxsQuery p c ∨ (LP_EndTime (LT_ListParams p) ≤ Tx_CreatedAt tx)%Z).
Proof.
intros Hp Hpos Hend (r0 & _ & Hw0 & Hj0)%elem_of_query Htx; [|done].
apply elem_of_query in Htx as (r & Hr & Hw & Hj); [|by rewrite next_params_one_row].
rewrite (join_transaction_time _ _ _ Hj).
destruct (next_where p c lasttx vs en r0 r Hpos Hend Hw0) as (H1 & _ & H3).
{ by rewrite (join_transaction_time _ _ _ Hj0). }
split; [by apply H1|]. destruct (H3 Hw) as [?|?]; [left|by right].
apply elem_of_query; [done|]. by exists r.
Qed.

Context `{!GoText} `{!AxiaFormatting}.

(** C21. Following the link to the next page.  For a request without search text, and
  with no asset unless it has addresses, whose values stand for themselves in a URL (no
  &, ;, % or +, no = in a key: the link is written without escaping), over typed tables
  with unique keys, transactions created from 1970 to 2262 and a clock that does not go
  back, the link, read back as a URL, is a request for a page of the same size, in the
  same order, without offset, and:
  no transaction of the page answers it again; every transaction that answers this request
  was skipped by its offset, is on this page, answers the next request, or was created
  in the same second as the last transaction of the page (the link gives the time in
  seconds: the rest of that second is lost); what answers the next request answers this
  one, or was created after its end (without an end, the end is the current time). *)
Theorem next_page ctx now now' q p0 link c :
let p := transactions_of_chain ctx p0 in
ListTransactionsParams_ForValues now (c_version ctx) q = Ok p0 → plain_values q → (0 ≤ now ≤ now')%Z →
one_row p = true → LP_Query (LT_ListParams p) = "" →
unique_content c → typed_txs c = true →
(∀ tx, tx ∈ txs_page p c → 0 ≤ Tx_CreatedAt tx < 2 ^ 63)%Z →
transactionProcessNext (txs_page p c) p = Some link →
∃ p0', ListTransactionsParams_ForValues now' (c_version ctx) (URL_Query link) = Ok p0' ∧
let p' := transactions_of_chain ctx p0' in
LP_Limit (LT_ListParams p') = LP_Limit (LT_ListParams p) ∧ LT_Sort p' = LT_Sort p ∧
LP_Offset (LT_ListParams p') = 0%Z ∧
(∀ tx, tx ∈ txs_page p c → tx ∉ listTxsQuery p' c) ∧
(∀ tx, tx ∈ listTxsQuery p c →
   tx ∈ take (Z.to_nat (LP_Offset (LT_ListParams p))) (order_by (tx_order (LT_Sort p)) (listTxsQuery p c)) ∨
   tx ∈ txs_page p c ∨ tx ∈ listTxsQuery p' c ∨
   ∃ lasttx, last (txs_page p c) = Some lasttx ∧ time_Unix (Tx_CreatedAt tx) = time_Unix (Tx_CreatedAt lasttx)) ∧
(∀ tx, tx ∈ listTxsQuery p' c → tx ∈ listTxsQuery p c ∨ (LP_EndTime (LT_ListParams p) ≤ Tx_CreatedAt tx)%Z).
Proof.
intros p Hval Hpl Hnow Hp Hq Hu Hty Htimes Hlink.
change (transactionProcessNext (txs_page p c) p0 = Some link) in Hlink.
destruct (link_request now now' _ q p0 _ link Hval Hpl Hlink Hnow) as (lasttx & en & Hl & Hend & Hnext).
{ intros tx Htx. apply Htimes. apply last_Some in Htx as [k ->]. apply elem_of_app. right. left. }
set (vs := URL_Query link) in *. eexists. split; [exact Hnext|]. cbn zeta.
rewrite (next_params_chain ctx p0 lasttx vs en). fold p. change (later_end p en) in Hend.
assert (lasttx ∈ txs_page p c) as Hin by (apply last_Some in Hl as [k ->]; apply elem_of_app; right; left).
pose proof (proj1 (Htimes lasttx Hin)) as Hpos.
destruct (page_before p c lasttx lasttx Hp Hq Hu Hty Hl Hin) as [_ Hans].
destruct (next_params_same p lasttx vs en) as (-> & -> & ->). split_and!; [done|done|done|..].
- intros tx Htx Htx'. apply (next_answer p c lasttx vs en tx) in Htx' as [Ha _]; [|done..].
  destruct (page_before p c tx lasttx) as [Ha2 _]; [done..|]. by rewrite Ha2 in Ha.
- intros tx Htx. destruct (page_covers p c tx lasttx) as [?|[?|[Ha|?]]]; [done..|by left|by right; left|right; right; left|].
  + by apply (answer_next p c lasttx vs en tx).
  + right. right. right. by exists lasttx.
- intros tx Htx. by apply (next_answer p c lasttx vs en tx).
Qed.
End pages.

(** * An example: of two transactions of one second, one is on the page *)
Import Toy ToyDbr ToyText CacheSample.
Module NextSample.
Definition db : MemDb := mkMemDb
(list_to_map [(TableTransactions,
   [PageSample.tx_row "T3" "Swap" (2 * Second); PageSample.tx_row "T2" "Swap" 2; PageSample.tx_row "T1" "Swap" 1])])
None [].
Definition c : content := rows db.
Definition p : ListTransactionsParams := transactions_of_chain CacheSample.ctx CacheSample.p0.
Definition link : string := default "" (transactionProcessNext (txs_page p c) p).
Definition p' : ListTransactionsParams :=
match ListTransactionsParams_ForValues 0 2 (URL_Query link) with Ok p => transactions_of_chain CacheSample.ctx p | Err _ => p end.

Example followed : map Tx_ID (listTxsQuery p c) = ["T3"; "T2"; "T1"] ∧ map Tx_ID (txs_page p c) = ["T1"] ∧
link = "startTime=1&chainID=Swap&limit=1&sort=timestamp-asc" ∧ map Tx_ID (listTxsQuery p' c) = ["T3"].
Proof. vm_compute. done. Qed.
End NextSample.

Lemma next_page_witness :
  ∃ p0', ListTransactionsParams_ForValues 0 2 (URL_Query NextSample.link) = Ok p0' ∧
  let p' := transactions_of_chain CacheSample.ctx p0' in
  LP_Limit (LT_ListParams p') = 1%Z ∧
  ∀ tx, tx ∈ txs_page NextSample.p NextSample.c → tx ∉ listTxsQuery p' NextSample.c.
Proof.
  destruct (next_page (H1 := ToyText.text) CacheSample.ctx 0 0 CacheSample.q CacheSample.p0 NextSample.link NextSample.c)
    as (p0' & H1 & H2 & _ & _ & H3 & _).
  - vm_compute. reflexivity.
  - intros k vs Hk. unfold CacheSample.q in Hk.
    apply lookup_insert_Some in Hk as [[<- <-]|[_ Hk]]; [|apply lookup_singleton_Some in Hk as [<- <-]];
      (split; [done|by repeat constructor]).
  - done.
  - vm_compute. reflexivity.
  - reflexivity.
  - apply unique_db_ok. vm_compute. reflexivity.
  - vm_compute. reflexivity.
  - intros tx Htx. assert (forallb (λ tx, (0 <=? Tx_CreatedAt tx)%Z && (Tx_CreatedAt tx <? 2 ^ 63)%Z)
      (txs_page NextSample.p NextSample.c) = true) as Hall by (vm_compute; reflexivity).
    rewrite forallb_forall in Hall. apply list_elem_of_In, Hall in Htx.
    rewrite andb_true_iff, Z.leb_le, Z.ltb_lt in Htx. exact Htx.
  - vm_compute. reflexivity.
  - exists p0'. split; [exact H1|]. split; [exact H2|exact H3].
Defined.
