(* ===== verification/Select.v ===== *)
(** The SELECT statements built with the clauses of Params.v, executed on the rows of
    the tables: joins, conditions, order, limit and offset, over columns named
    [table.column]. *)

From S2P Require Import Prelude Errors Sql GoText Params Query ReaderTxs.

(** A joined row: the row of each table. *)
Abbreviation joined := (gmap string row) (only parsing).

(** [strings.Cut] *)
Definition cut (sep s : string) : option (string * string) :=
  n ← String.index 0 sep s;
  Some (String.substring 0 n s, String.substring (n + String.length sep) (String.length s) s).

Definition column_of (c : string) : string * string := default ("", c) (cut "." c).

Definition column (e : joined) (c : string) : option value :=
  let '(t, k) := column_of c in r ← e !! t; r !! k.

Definition column_null (e : joined) (c : string) : bool :=
  match column e c with None | Some VNull => true | Some _ => false end.

Definition columns_of (cl : clause) : list string :=
  match cl with
  | WEq c _ | WEqs c _ | WIn c _ | WInNums c _ | WGe c _ | WLt c _ | WNull c | WNotNull c => [c]
  | WLikes cs _ => cs
  end.

(** A condition the database accepts: its tables are in the statement, and a slice is
    only compared with [=] when it has one value. *)
Definition clause_ok (tables : list string) (cl : clause) : bool :=
  forallb (λ c, existsb (String.eqb (column_of c).1) tables) (columns_of cl) &&
  match cl with WEqs _ vs => length vs =? 1 | _ => true end.

Definition is_text (e : joined) (c v : string) : bool := bool_decide (column e c = Some (VStr v)).

Definition clause_holds `{!SqlText} (e : joined) (cl : clause) : bool :=
  match cl with
  | WEq c v => is_text e c v
  | WEqs c vs | WIn c vs => existsb (is_text e c) vs
  | WInNums c vs => existsb (λ v, bool_decide (column e c = Some (VNum v))) vs
  | WGe c t => match column e c with Some (VTime t') => (t <=? t')%Z | _ => false end
  | WLt c t => match column e c with Some (VTime t') => (t' <? t)%Z | _ => false end
  | WNull c => column_null e c
  | WNotNull c => negb (column_null e c)
  | WLikes cs prefix =>
      existsb (λ c, negb (column_null e c) && like (prefix +:+ "%") (as_str (column e c))) cs
  end.

(** [LEFT JOIN table ON a = b] *)
Definition join_rows (c : content) (table on : string) (e : joined) : list joined :=
  match cut " = " on with
  | None => [e]
  | Some (a, b) =>
      map (λ r, <[table := r]> e)
        (left_join (λ r, let e' := <[table := r]> e in
                         negb (column_null e' a) && bool_decide (column e' a = column e' b)) (c table))
  end.

Definition joined_rows (c : content) (from : string) (b : SelectBuilder) : list joined :=
  fold_left (λ es j, flat_map (join_rows c j.1 j.2) es) (LeftJoins b) (map (λ r, {[from := r]}) (c from)).

Definition limit_offset {A} (b : SelectBuilder) (l : list A) : list A :=
  let l := match OffsetCount b with Some n => drop (Z.to_nat n) l | None => l end in
  match LimitCount b with Some n => take (Z.to_nat n) l | None => l end.

Definition ErrInvalidStatement : error := "invalid statement".

(** The statement: [finish] is its order, or the grouping of the rows it keeps. *)
Definition run_select `{!SqlText} {A} (from : string) (b : SelectBuilder) (finish : list joined → list A)
    (c : content) : result (list A) :=
  if forallb (clause_ok (from :: map fst (LeftJoins b))) (WhereCond b) then
    Ok (limit_offset b (finish (List.filter (λ e, forallb (clause_holds e) (WhereCond b)) (joined_rows c from b))))
  else Err ErrInvalidStatement.

(** A query that the database can refuse. *)
Definition select_result `{SqlEngine D} {A} (q : content → result A) : M D A :=
  r ← select q; lift_result r.

Definition table_row (t : string) (e : joined) : row := default ∅ (e !! t).

Definition select_from : SelectBuilder := mkSelectBuilder None None [] [].

(** Texts in ascending order, NULL first, and the next columns for equal ones. *)
Definition text_leb (v w : option value) : bool := String.leb (as_str v) (as_str w).
Fixpoint lex_leb (vs ws : list (option value)) : bool :=
  match vs, ws with
  | v :: vs', w :: ws' =>
      if String.eqb (as_str v) (as_str w) then lex_leb vs' ws' else text_leb v w
  | _, _ => true
  end.
