(* ===== verification/ReaderLists.v ===== *)
(** services/indexes/axc: the lists of outputs, addresses, assets and blocks, the
    search, and the texts of transactions (reader.go, avm_reader.go, pvm_reader.go,
    reader_util.go).

    An [option] around a list's count is the [*uint64] that is absent when counting is
    disabled.  Maps that the code goes through in an unspecified order have the order of
    the finite maps of the library. *)

From S2P Require Import Prelude Errors Sql DbModel Axia Models Utils GoText Params Query Select ReaderModels ReaderTxs ReaderDress.

(** * models *)
Record Asset := mkAsset {
  Asset_ID : string;
  Asset_ChainID : string;
  Asset_Name : string;
  Asset_Symbol : string;
  Asset_Alias : string;
  Asset_CurrentSupply : string;
  Asset_CreatedAt : Z;
  Asset_Denomination : Z;
  Asset_VariableCap : Z;
  Asset_Nft : Z;
}.

Record Block := mkBlock {
  Block_ID : string;
  Block_ParentID : string;
  Block_ChainID : string;
  Block_Type : Z;
  Block_CreatedAt : Z;
}.

Record OutputList := mkOutputList { OL_Count : option Z; OL_Outputs : list Output }.
Record AddressList := mkAddressList { AL_Count : option Z; AL_Addresses : list AddressInfo }.
Record AssetList := mkAssetList { SL_Count : option Z; SL_Assets : list Asset }.

(** [SearchResult] : the type is the one of the data. *)
Inductive SearchResult :=
| ResultTypeTransaction (tx : Transaction)
| ResultTypeAsset (a : Asset)
| ResultTypeAddress (a : AddressInfo).
Record SearchResults := mkSearchResults { SR_Count : Z; SR_Results : list SearchResult }.

(** models/primitives.go: the text of an address.  [Bech32HRP] is the variable of the
    package, that the server sets to the part of its network; [FormatBech32] is
    third-party. *)
Class AddressText := { Bech32HRP : string; FormatBech32 : string → string → result string }.

Definition MarshalString `{!AxiaFormatting} `{!AddressText} (addr : string) : result string :=
  id ← ShortFromString addr;
  FormatBech32 Bech32HRP id.
(** [json_Marshal] is the encoder of texts of Go. *)
Definition MarshalJSON `{!AxiaFormatting} `{!AddressText} (json_Marshal : string → result string) (addr : string) : result string :=
  id ← ShortFromString addr;
  bech32Addr ← FormatBech32 Bech32HRP id;
  json_Marshal bech32Addr.

(** [ListParams] without anything asked. *)
Definition no_params : ListParams := mkListParams ∅ None "" 0 0 false false false zero_time zero_time.

(** The count of a list: the rows of the page, counted again by [recount] when the
    page is full. *)
Definition page_count {D} (lp : ListParams) (n : nat) (recount : M D Z) : M D (option Z) :=
  if LP_DisableCounting lp then mret None
  else if (LP_Limit lp <=? Z.of_nat n)%Z then k ← recount; mret (Some k)
  else mret (Some (u64_add (LP_Offset lp) (Z.of_nat n))).

(** * reader_util.go *)

(** [big.Int.SetString] on a fresh number, whose value is used without the flag. *)
Definition addStringsFunc (t f : string) : string :=
  Z_to_string (default 0 (big_SetString t) + default 0 (big_SetString f))%Z.

Definition addAssetInfos (t f : AssetInfo) : AssetInfo := {|
  AssetInfo_AssetID := AssetInfo_AssetID t;
  AssetInfo_TransactionCount := u64_add (AssetInfo_TransactionCount t) (AssetInfo_TransactionCount f);
  AssetInfo_UTXOCount := u64_add (AssetInfo_UTXOCount t) (AssetInfo_UTXOCount t);
  AssetInfo_Balance := addStringsFunc (AssetInfo_Balance t) (AssetInfo_Balance f);
  AssetInfo_TotalReceived := addStringsFunc (AssetInfo_TotalReceived t) (AssetInfo_TotalReceived f);
  AssetInfo_TotalSent := addStringsFunc (AssetInfo_TotalSent t) (AssetInfo_TotalSent f);
|}.

Definition addAssetInfoMap (assets assets2 : gmap string AssetInfo) : gmap string AssetInfo :=
  map_fold (λ k v assets,
    match assets !! k with
    | Some assetInfo => <[k := addAssetInfos assetInfo v]> assets
    | None => <[k := v]> assets
    end) assets assets2.

Section lists.
Context `{SqlEngine D} `{!GoText} `{!AxiaIds} `{!AxiaFormatting} `{!SqlText}.

(** * ListOutputs *)
Definition load_models_Output (e : joined) : Output :=
let o := table_row TableOutputs e in
let q := table_row TableOutputsRedeeming e in
{|
  Output_ID := col_str o "id";
  Output_TransactionID := col_str o "transaction_id";
  Output_OutputIndex := col_num o "output_index";
  Output_AssetID := col_str o "asset_id";
  Output_Stake := false;
  Output_Frozen := as_bool (o !! "frozen");
  Output_Stakeableout := false;
  Output_Genesisutxo := false;
  Output_OutputType := col_num o "output_type";
  Output_Amount := as_str (o !! "amount");
  Output_Locktime := col_num o "locktime";
  Output_StakeLocktime := 0;
  Output_Threshold := col_num o "threshold";
  Output_Addresses := [];
  Output_CAddresses := [];
  Output_CreatedAt := as_time (o !! "created_at");
  Output_RedeemingTransactionID := col_str q "redeeming_transaction_id";
  Output_ChainID := "";
  Output_InChainID := "";
  Output_OutChainID := "";
  Output_GroupID := col_num o "group_id";
  Output_Payload := as_bytes (o !! "payload");
  Output_Block := "";
  Output_Nonce := 0;
  Output_RewardUtxo := false;
|}.

Definition outputs_from : SelectBuilder :=
mkSelectBuilder None None [] [(TableOutputsRedeeming, "avm_outputs.id = avm_outputs_redeeming.id")].

(** The output the map of the outputs holds for an id: the last one. *)
Fixpoint last_index {A} (f : A → bool) (l : list A) : option nat :=
match l with
| [] => None
| x :: l' => match last_index f l' with
             | Some n => Some (S n)
             | None => if f x then Some 0 else None
             end
end.

Definition add_address (outputs : list Output) (address : OutputAddress) : list Output :=
match last_index (λ o, String.eqb (Output_ID o) (OutputAddress_OutputID address)) outputs with
| None => outputs
| Some n => alter (λ o, with_Addresses (Output_Addresses o ++ [OutputAddress_Address address]) o) n outputs
end.

Definition output_addresses (ids : list string) (c : content) : list OutputAddress :=
map (λ r, mkOutputAddress (col_str r "output_id") (col_str r "address") (as_bytes (r !! "redeeming_signature")) None)
  (List.filter (in_texts "output_id" ids) (c TableOutputAddresses)).

Definition ListOutputs (p : ListOutputsParams) : M D OutputList :=
outputs ← select_result (run_select TableOutputs (ListOutputsParams_Apply p outputs_from) (map load_models_Output));
if length outputs <? 1 then mret (mkOutputList None outputs)
else
  addresses ← select (output_addresses (map Output_ID outputs));
  let outputs' := fold_left add_address addresses outputs in
  count ← page_count (LO_ListParams p) (length outputs)
    (l ← select_result (run_select TableOutputs
           (ListOutputsParams_Apply (mkListOutputsParams no_params (LO_ChainIDs p) (LO_Addresses p) (LO_Spent p))
              outputs_from) id);
     mret (Z.of_nat (length l)));
  mret (mkOutputList count outputs').

Definition GetOutput (id : ID) : M D (option Output) :=
outputList ← ListOutputs (mkListOutputsParams (params_of_ID id) [] [] None);
mret (head (OL_Outputs outputList)).

(** * ListAddresses *)
Record address_asset := mkAddressAsset {
AA_ChainID : string;
AA_Address : string;
AA_Info : AssetInfo;
}.

(** The addresses of the outputs of a chain, each once. *)
Definition addresses_from : SelectBuilder :=
mkSelectBuilder None None [] [(TableOutputAddresses, "avm_outputs.id = avm_output_addresses.output_id")].
Definition distinct_addresses (es : list joined) : list (option value * option value) :=
order_by (λ x y, lex_leb [x.1; x.2] [y.1; y.2])
  (remove_dups (map (λ e, (column e "avm_outputs.chain_id", column e "avm_output_addresses.address")) es)).

(** With the accumulated balances: their rows, in order. *)
Definition accumulate_from : SelectBuilder :=
mkSelectBuilder None None []
  [(TableAccumulateBalancesSent, "accumulate_balances_received.id = accumulate_balances_sent.id");
   (TableAccumulateBalancesTransactions, "accumulate_balances_received.id = accumulate_balances_transactions.id")].
Definition accumulated (e : joined) : address_asset :=
let i := table_row TableAccumulateBalancesReceived e in
let o := table_row TableAccumulateBalancesSent e in
let t := table_row TableAccumulateBalancesTransactions e in
mkAddressAsset (col_str i "chain_id") (col_str i "address")
  {| AssetInfo_AssetID := col_str i "asset_id";
     AssetInfo_TransactionCount := col_num t "transaction_count";
     AssetInfo_UTXOCount := (col_num i "utxo_count" - col_num o "utxo_count")%Z;
     AssetInfo_Balance := Z_to_string (col_num i "total_amount" - col_num o "total_amount");
     AssetInfo_TotalReceived := Z_to_string (col_num i "total_amount");
     AssetInfo_TotalSent := Z_to_string (col_num o "total_amount") |}.

(** A count that is NULL, or negative, is not loaded into a uint64: the end of the text of
the error of database/sql. *)
Definition ErrNullCount : error := "converting NULL to uint64 is unsupported".
Definition ErrNegativeCount : error := "invalid syntax".
Definition load_accumulated (e : joined) : result address_asset :=
if column_null e "accumulate_balances_transactions.transaction_count" then Err ErrNullCount
else
  let a := accumulated e in
  if (AssetInfo_UTXOCount (AA_Info a) <? 0)%Z then Err ErrNegativeCount else Ok a.

Definition accumulate_rows (es : list joined) : list (result address_asset) :=
map load_accumulated
  (order_by (λ e e', let key e := map (column e) ["accumulate_balances_received.chain_id";
                                     "accumulate_balances_received.address";
                                     "accumulate_balances_received.asset_id"] in
                     lex_leb (key e) (key e')) es).

(** Without: the outputs of the addresses, joined and grouped. *)
Definition grouped_from (chainIDs : list string) (addrs : list string) : SelectBuilder :=
mkSelectBuilder None None
  (WIn "avm_output_addresses.address" addrs ::
   if (length chainIDs =? 0) then [] else [WIn "avm_outputs.chain_id" chainIDs])
  [(TableOutputAddresses, "avm_output_addresses.output_id = avm_outputs.id");
   (TableOutputsRedeeming, "avm_outputs.id = avm_outputs_redeeming.id")].
Definition group_key (e : joined) : list (option value) :=
map (column e) ["avm_outputs.chain_id"; "avm_output_addresses.address"; "avm_outputs.asset_id"].
Definition grouped (k : list (option value)) (es : list joined) : address_asset :=
let redeemed e := negb (column_null e "avm_outputs_redeeming.redeeming_transaction_id") in
let amount es := sum_with (λ e, as_num (column e "avm_outputs.amount")) es in
mkAddressAsset (as_str (head k ≫= id)) (as_str (k !! 1 ≫= id))
  {| AssetInfo_AssetID := as_str (k !! 2 ≫= id);
     AssetInfo_TransactionCount := count_distinct "transaction_id" (map (table_row TableOutputs) es);
     AssetInfo_UTXOCount := Z.of_nat (length (List.filter (λ e, negb (redeemed e)) es));
     AssetInfo_Balance := Z_to_string (amount (List.filter (λ e, negb (redeemed e)) es));
     AssetInfo_TotalReceived := Z_to_string (amount es);
     AssetInfo_TotalSent := Z_to_string (amount (List.filter redeemed es)) |}.
Definition grouped_rows (es : list joined) : list address_asset :=
map (λ k, grouped k (List.filter (λ e, bool_decide (group_key e = k)) es))
  (order_by lex_leb (remove_dups (map group_key es))).

Definition address_rows (IsAccumulateBalanceReader : bool) (p : ListAddressesParams) (c : content)
  : result (list address_asset) :=
if IsAccumulateBalanceReader
then
  l ← run_select TableAccumulateBalancesReceived (ListAddressesParams_Apply p true accumulate_from) accumulate_rows c;
  mapM id l
else
  ua ← run_select TableOutputs (ListAddressesParams_Apply p false addresses_from) distinct_addresses c;
  run_select TableOutputs (grouped_from (LA_ChainIDs p) (flat_map (λ x, match x.2 with Some (VStr a) => [a] | _ => [] end) ua)) grouped_rows c.

(** Each row with the public key of its address. *)
Definition with_public_key (c : content) (l : list address_asset) : list (address_asset * option string) :=
flat_map (λ a, map (λ d, (a, as_bytes (d !! "public_key")))
                 (left_join (λ d, matches [CEq "address" (VStr (AA_Address a))] d) (c TableAddresses))) l.

(** The rows of an address and a chain become one answer. *)
Definition add_row (m : gmap string AddressInfo) (r : address_asset * option string) : gmap string AddressInfo :=
let '(a, pk) := r in
let k := AA_ChainID a +:+ ":" +:+ AA_Address a in
let addr := default (mkAddressInfo (AA_ChainID a) (AA_Address a) pk ∅) (m !! k) in
<[k := mkAddressInfo (AddressInfo_ChainID addr) (AddressInfo_Address addr) (AddressInfo_PublicKey addr)
         (<[AssetInfo_AssetID (AA_Info a) := AA_Info a]> (AddressInfo_Assets addr))]> m.

Definition ListAddresses (IsAccumulateBalanceReader : bool) (p : ListAddressesParams) : M D AddressList :=
rows ← select_result (λ c, l ← address_rows IsAccumulateBalanceReader p c; Ok (with_public_key c l));
let addresses := map snd (map_to_list (fold_left add_row rows ∅)) in
(* the second [Apply] adds to the statement that the first one changed *)
let ua := if IsAccumulateBalanceReader then addresses_from else ListAddressesParams_Apply p false addresses_from in
count ← page_count (LA_ListParams p) (length addresses)
  (l ← select_result (run_select TableOutputs
         (ListAddressesParams_Apply (mkListAddressesParams no_params (LA_ChainIDs p) (LA_Address p)) true ua)
         distinct_addresses);
   mret (Z.of_nat (length l)));
mret (mkAddressList count addresses).

(** The chains of an address, added up. *)
Definition collate (m : gmap string AddressInfo) (a : AddressInfo) : gmap string AddressInfo :=
match m !! AddressInfo_Address a with
| Some addressInfo =>
    <[AddressInfo_Address a :=
        mkAddressInfo "" (AddressInfo_Address addressInfo) (AddressInfo_PublicKey addressInfo)
          (addAssetInfoMap (AddressInfo_Assets addressInfo) (AddressInfo_Assets a))]> m
| None => <[AddressInfo_Address a := a]> m
end.

Definition GetAddress (IsAccumulateBalanceReader : bool) (p : ListAddressesParams) : M D (option AddressInfo) :=
addressList ← ListAddresses IsAccumulateBalanceReader p;
let l := AL_Addresses addressList in
mret (head (if 1 <? length l then map snd (map_to_list (fold_left collate l ∅)) else l)).

(** * AddressChains *)
Definition add_chain `{!AxiaFormatting} `{!AddressText} (m : result (gmap string (list string))) (r : row)
  : result (gmap string (list string)) :=
m ← m;
addr ← MarshalString (col_str r "address");
Ok (<[addr := default [] (m !! addr) ++ [col_str r "chain_id"]]> m).

(** [None] : the map is not made when no address is asked for. *)
Definition AddressChains `{!AddressText} (p : AddressChainsParams) : M D (option (gmap string (list string))) :=
if length (AC_Addresses p) =? 0 then mret None
else
  l ← select_result (run_select TableAddressChain (AddressChainsParams_Apply p select_from)
                       (map (table_row TableAddressChain)));
  m ← lift_result (fold_left add_chain l (Ok ∅));
  mret (Some m).

(** * avm_reader.go *)
Definition load_models_Asset (e : joined) : Asset :=
let r := table_row TableAssets e in
mkAsset (col_str r "id") (col_str r "chain_id") (col_str r "name") (col_str r "symbol") (col_str r "alias")
  (as_str (r !! "current_supply")) (as_time (r !! "created_at")) (col_num r "denomination") 0 0.

Definition mintOutputs : list Z :=
[models.OutputTypesSECP2556K1Mint; models.OutputTypesNFTMint; models.OutputTypesNFTTransfer].

(** The types of the outputs of an asset, among those that mint or hold NFTs. *)
Definition asset_types (ids : list string) (c : content) : list (string * Z) :=
remove_dups (map (λ r, (col_str r "asset_id", col_num r "output_type"))
  (List.filter (λ r, in_nums "output_type" mintOutputs r && in_texts "asset_id" ids r) (c TableOutputs))).

Definition dress_asset (l : list (string * Z)) (a : Asset) : Asset :=
let has ts := existsb (λ x, String.eqb x.1 (Asset_ID a) && existsb (Z.eqb x.2) ts) l in
mkAsset (Asset_ID a) (Asset_ChainID a) (Asset_Name a) (Asset_Symbol a) (Asset_Alias a) (Asset_CurrentSupply a)
  (Asset_CreatedAt a) (Asset_Denomination a)
  (if has [models.OutputTypesSECP2556K1Mint; models.OutputTypesNFTMint] then 1 else Asset_VariableCap a)
  (if has [models.OutputTypesNFTMint; models.OutputTypesNFTTransfer] then 1 else Asset_Nft a).

Definition dressAssets (assets : list Asset) : M D (list Asset) :=
if length assets =? 0 then mret assets
else l ← select (asset_types (map Asset_ID assets)); mret (map (dress_asset l) assets).

Definition ListAssets (p : ListAssetsParams) : M D AssetList :=
assets ← select_result (run_select TableAssets (ListAssetsParams_Apply p select_from) (map load_models_Asset));
assets ← dressAssets assets;
count ← page_count (LS_ListParams p) (length assets)
  (l ← select_result (run_select TableAssets
         (ListAssetsParams_Apply (mkListAssetsParams no_params (LS_Alias p) (LS_PathParamID p)) select_from) id);
   mret (Z.of_nat (length l)));
mret (mkAssetList count assets).

Definition with_ID (lp : ListParams) (id : option ID) : ListParams :=
mkListParams (LP_Values lp) id (LP_Query lp) (LP_Limit lp) (LP_Offset lp) true
  (LP_StartTimeProvided lp) (LP_EndTimeProvided lp) (LP_StartTime lp) (LP_EndTime lp).

Definition GetAsset (p : ListAssetsParams) (idStrOrAlias : string) : M D (option Asset) :=
let lp := LS_ListParams p in
let p := match ids_FromString idStrOrAlias with
         | Ok id => mkListAssetsParams (with_ID lp (Some id)) (LS_Alias p) (LS_PathParamID p)
         | Err _ => mkListAssetsParams (with_ID lp (LP_ID lp)) idStrOrAlias (LS_PathParamID p)
         end in
assetList ← ListAssets p;
mret (head (SL_Assets assetList)).

(** * pvm_reader.go *)
Definition load_models_Block (e : joined) : Block :=
let r := table_row TablePvmBlocks e in
mkBlock (col_str r "id") (col_str r "parent_id") (col_str r "chain_id") (col_num r "type")
  (as_time (r !! "created_at")).

Definition ListBlocks (p : ListBlocksParams) : M D (list Block) :=
select_result (run_select TablePvmBlocks (ListBlocksParams_Apply p select_from) (map load_models_Block)).

Definition GetBlock (id : ID) : M D (option Block) :=
l ← ListBlocks (mkListBlocksParams (mkListParams ∅ (Some id) "" 0 0 false false false zero_time zero_time));
mret (head l).

(** * The search *)
Definition MinSearchQueryLength : nat := 1.
Definition ErrSearchQueryTooShort : error := "search query too short".

Definition collateSearchResults (assets : list Asset) (addresses : list AddressInfo) (transactions : list Transaction)
  : SearchResults :=
mkSearchResults (Z.min PaginationMaxLimit (Z.of_nat (length assets + length addresses + length transactions)))
  (map ResultTypeAddress addresses ++ map ResultTypeTransaction transactions ++ map ResultTypeAsset assets).

Definition no_results : SearchResults := mkSearchResults 0 [].

Definition searchByID (id : ID) : M D SearchResults :=
txs ← select (λ c, take 1 (flat_map (join_transaction c)
        (List.filter (matches [CEq "id" (VStr (ID_String id))]) (c TableTransactions))));
mret (if 0 <? length txs then collateSearchResults [] [] txs else no_results).

Definition searchByShortID (IsAccumulateBalanceReader : bool) (id : ShortID) : M D SearchResults :=
let lp := mkListParams ∅ None "" 0 0 true false false zero_time zero_time in
addrs ← ListAddresses IsAccumulateBalanceReader (mkListAddressesParams lp [] (Some id));
mret (if 0 <? length (AL_Addresses addrs) then collateSearchResults [] (AL_Addresses addrs) [] else no_results).

(** The transactions whose id starts as the query, the last ones first. *)
Definition search_txs (lp : ListParams) (c : content) : list Transaction :=
take (Z.to_nat (LP_Limit lp))
  (order_by (λ x y, (Tx_CreatedAt y <=? Tx_CreatedAt x)%Z)
    (flat_map (join_transaction c)
      (List.filter (λ r, like (LP_Query lp +:+ "%") (col_str r "id")) (c TableTransactions)))).

Definition Search (IsAccumulateBalanceReader : bool) (lp : ListParams) : M D SearchResults :=
let lp := with_ID lp (LP_ID lp) in
if String.length (LP_Query lp) <? MinSearchQueryLength then throw ErrSearchQueryTooShort
else
  match AddressFromString (LP_Query lp) with
  | Ok shortID => searchByShortID IsAccumulateBalanceReader shortID
  | Err _ =>
      match ids_FromString (LP_Query lp) with
      | Ok id => searchByID id
      | Err _ =>
          assetsResp ← ListAssets (mkListAssetsParams lp "" "");
          let assets := SL_Assets assetsResp in
          if (LP_Limit lp <=? Z.of_nat (length assets))%Z then mret (collateSearchResults assets [] [])
          else
            txs ← select (search_txs lp);
            mret (collateSearchResults assets [] txs)
      end
  end.
End lists.

(** * The texts of transactions *)

(** [hex.EncodeToString] *)
Definition hex_digit (n : N) : Ascii.ascii :=
  Ascii.ascii_of_N (if (n <? 10)%N then (48 + n)%N else (87 + n)%N).
Fixpoint hex_EncodeToString (s : string) : string :=
  match s with
  | EmptyString => EmptyString
  | String.String c s' =>
      let n := Ascii.N_of_ascii c in
      String.String (hex_digit (n / 16)) (String.String (hex_digit (n mod 16)) (hex_EncodeToString s'))
  end.

(** The blocks, transactions and logs of the C chain, whose decoding and JSON text are
    those of coreth: the block written is the one read, with its transactions and logs. *)
Class CorethJson := {
  cblock : Type;
  ctransaction : Type;
  clog : Type;
  cblock_json_Unmarshal : string → result cblock;
  cblock_TxsBytes : cblock → list string;
  cblock_Txs : cblock → list ctransaction;
  cblock_Number : cblock → Z;
  cblock_Hash : cblock → string;
  cblock_ExtraData : cblock → string;
  ctransaction_UnmarshalJSON : string → result ctransaction;
  clog_UnmarshalJSON : string → result clog;
  clog_Index : clog → Z;
  (* the id of the block, the id of its extra data, the block, its transactions and its logs *)
  BlockExport_Marshal : string → string → cblock → list ctransaction → list clog → result string;
}.

(** The block, and its transactions with those given as bytes. *)
Definition cblock_Unmarshal `{!CorethJson} (data : string) : result (cblock * list ctransaction) :=
  '(block, txs) ← modelsc_Unmarshal (λ s, block ← cblock_json_Unmarshal s; Ok (block, cblock_TxsBytes block))
                    ctransaction_UnmarshalJSON data;
  Ok (block, cblock_Txs block ++ txs).

Section texts.
Context `{SqlEngine D} `{!AxiaIds}.

(** [chainConsumers] : the [ParseJSON] of the consumer of each chain. *)
Context (chainConsumers : gmap string (string → result string)).

Definition chainWriter (chainID : string) : result (string → result string) :=
match chainConsumers !! chainID with Some w => Ok w | None => Err "unimplemented" end.

(** A serialization that is missing is read as empty. *)
Definition as_serialization (v : option value) : string := default "" (as_bytes v).

(** What [ParseJSON] makes of the first row. *)
Definition parse_json (chainID serialization : string) : result string :=
w ← chainWriter chainID; w serialization.

Definition ATxDATA (id : string) : M D string :=
rows ← select (λ c, List.filter (matches [CEq "id" (VStr id)]) (c TableTransactions));
match rows with
| [] => mret ""
| row :: _ => lift_result (parse_json (col_str row "chain_id") (as_serialization (row !! "canonical_serialization")))
end.

(** A number is a height, another text an id. *)
Definition block_rows (id : string) (c : content) : list row :=
let w := match big_SetString id with
         | Some idInt => [CEq "height" (literal (Z_to_string idInt))]
         | None => [CEq "id" (VStr id)]
         end in
List.filter (matches w) (c TablePvmBlocks).

(** The serializations of the proposer blocks of a block. *)
Definition proposer_rows (id : string) (c : content) : list string :=
flat_map (λ p, map (λ r, as_serialization (r !! "serialization"))
                 (inner_join (λ r, same_col p "proposer_blk_id" r "msg_key") (c TableTxPool)))
  (List.filter (matches [CEq "blk_id" (VStr id)]) (c TablePvmProposer)).

Definition PTxDATA (id : string) : M D string :=
rows ← select (block_rows id);
match rows with
| [] => mret ""
| row :: _ =>
    proposerrows ← select (proposer_rows (col_str row "id"));
    lift_result (parse_json (col_str row "chain_id")
      (default (as_serialization (row !! "serialization")) (head proposerrows)))
end.

Definition ETxDATA (axParseJSON : string → result string) (id : string) : M D string :=
rows ← (match big_SetString id with
        | Some idInt =>
            select (λ c, List.filter (matches [CEq "block" (literal (Z_to_string idInt))]) (c TableCvmTransactions))
        | None => mret []
        end);
match rows with
| [] => mret ""
| row :: _ => lift_result (axParseJSON (as_serialization (row !! "serialization")))
end.

Definition RawTransaction (id : ID) : M D string :=
r ← query_one TableTxPool ["serialization"] [CEq "msg_key" (VStr (ID_String id))];
match r with
| Some r => mret ("0x" +:+ hex_EncodeToString (as_serialization (r !! "serialization")))
| None => throw ErrNotFound
end.

(** ** The blocks of the C chain *)

(** The rows of a block number, or of a hash of a block or of a transaction. *)
Definition cblock_rows (id : string) (c : content) : list row :=
match big_SetString id with
| Some idInt =>
    take 1 (List.filter (matches [CEq "block" (literal (Z_to_string idInt))]) (c TableCvmTransactions))
| None =>
    let h := with_0x id in
    let blocks := map (λ r, r !! "block")
      (List.filter (λ r, matches [CEq "hash" (VStr h)] r || matches [CEq "rcpt" (VStr h)] r)
         (c TableCvmTransactionsTxdata)) in
    take 1 (order_by (λ r r', (col_num r' "block" <=? col_num r "block")%Z)
      (List.filter (λ r, matches [CEq "hash" (VStr h)] r ||
                         (negb (is_null r "block") && existsb (λ b, bool_decide (b = r !! "block")) blocks))
         (c TableCvmTransactions)))
end.

Definition of_block (t : string) (n : Z) (c : content) : list row :=
List.filter (matches [CEq "block" (literal (Z_to_string n))]) (c t).

Definition CTxDATA `{!CorethJson} (id : string) : M D string :=
rows ← select (cblock_rows id);
match rows with
| [] => mret ""
| row :: _ =>
    '(unserializedBlock, _) ← lift_result (cblock_Unmarshal (as_serialization (row !! "serialization")));
    let extra := cblock_ExtraData unserializedBlock in
    txIDs ← lift_result (if String.eqb extra "" then Ok ""
                         else txID ← ids_ToID (ComputeHash256 extra); Ok (ID_String txID));
    hID ← lift_result (ids_ToID (cblock_Hash unserializedBlock));
    let n := cblock_Number unserializedBlock in
    rowsData ← select (λ c, order_by (λ r r', (col_num r "idx" <=? col_num r' "idx")%Z)
                              (of_block TableCvmTransactionsTxdata n c));
    txs ← lift_result (mapM (λ r, ctransaction_UnmarshalJSON (as_serialization (r !! "serialization"))) rowsData);
    rowsLog ← select (of_block TableCvmLogs n);
    logs ← lift_result (mapM (λ r, clog_UnmarshalJSON (as_serialization (r !! "serialization"))) rowsLog);
    lift_result (BlockExport_Marshal (ID_String hID) txIDs unserializedBlock txs
                   (order_by (λ l l', (clog_Index l <=? clog_Index l')%Z) logs))
end.
End texts.
