(* ===== verification/ParseJson.v ===== *)
(** The JSON that the writers print of what they index: [ParseJSON] of avm/writer.go,
    pvm/writer.go and cvm/writer.go, and what the reader answers with it.

    The encoding ([json.Marshal]) is third-party, and so is the text of an output, which
    shows its addresses only when [InitCtx] was called on it: the encoder is given the outputs
    on which it was. *)

From S2P Require Import Prelude Errors Sql Axia DbModel Persist Persistence Prog Models AxcWriter Writer AvmWriter PvmWriter CvmWriter WriterOps Indexing GoText Query Select BalanceInv ReaderLists MemDb.

(** What [InitCtx] is called on: the output of the [n]-th of [UTXOs()], the [n]-th staked,
    exported or base output, the transaction itself. *)
Inductive ctx_target := UTXO (n : nat) | Staked (n : nat) | Exported (n : nat) | BaseOut (n : nat) | Whole.

Definition each {A} (f : nat → ctx_target) (l : list A) : list ctx_target := map f (seq 0 (length l)).

(** * The data of a platform block *)
Record PtxDataProposerModel := mkPtxDataProposerModel {
  PtxProposer_ID : string;
  PtxProposer_ParentID : string;
  PtxProposer_CoreChainHeight : Z;
  PtxProposer_Proposer : string;
  PtxProposer_TimeStamp : option Z;       (* none: the zero time *)
}.

Record PtxDataModel := mkPtxDataModel {
  Ptx_Tx : option (PvmTx * list ctx_target);
  Ptx_TxType : option string;
  Ptx_Block : option (PvmBlock * list (list ctx_target));   (* with those of each transaction *)
  Ptx_BlockID : option string;
  Ptx_BlockType : option string;
  Ptx_Proposer : option PtxDataProposerModel;
  Ptx_ProposerType : option string;
}.

Class JsonPrinter `{!CorethJson} := {
  avm_UTXOs : AvmUnsignedTx → nat;                          (* len(castTx.UTXOs()) *)
  pvm_UTXOs : PvmUnsignedTx → nat;
  pvm_UnmarshalTx : string → result (Z * PvmTx);
  proposer_type : ProposerBlock → string;                   (* its Go type *)
  json_AvmTx : AvmTx → list ctx_target → result string;
  json_PtxDataModel : PtxDataModel → result string;
  json_EvmTxs : list EvmTx → result string;
  cblock_Time : cblock → Z;                                 (* block.Header.Time *)
}.

Section printers.
Context `{!AxiaIds} `{!AvmCodec} `{!PvmCodec} `{!CvmCodec} `{!CorethJson} `{!JsonPrinter}.

(** * avm *)
Definition avm_initCtx (tx : AvmTx) : list ctx_target :=
let utxos := map UTXO (seq 0 (avm_UTXOs (AvmTx_UnsignedTx tx))) in
match AvmTx_UnsignedTx tx with
| AvmCreateAssetTx _ | AvmOperationTx _ _ | AvmImportTx _ _ _ => utxos
| AvmExportTx _ _ ExportedOuts => utxos ++ each Exported ExportedOuts
| AvmBaseTx base => utxos ++ each BaseOut (BaseTx_Outs base)
| AvmOtherTx _ => []
end.

Definition avm_ParseJSON (txBytes : string) : result string :=
tx ← avm.parseTx txBytes;
json_AvmTx tx (avm_initCtx tx).

(** * pvm *)
Definition initCtxPtx (p : PvmTx) : list ctx_target :=
let utxos := map UTXO (seq 0 (pvm_UTXOs (PvmTx_UnsignedTx p))) in
match PvmTx_UnsignedTx p with
| UnsignedAddValidatorTx _ _ Stake _ => utxos ++ each Staked Stake ++ [Whole]
| UnsignedAddSubnetValidatorTx _ => utxos ++ [Whole]
| UnsignedAddDelegatorTx _ _ Stake _ => utxos ++ each Staked Stake ++ [Whole]
| UnsignedCreateSubnetTx _ => utxos ++ [Whole]
| UnsignedCreateChainTx _ => utxos ++ [Whole]
| PvmWriter.UnsignedImportTx base _ _ => utxos ++ each BaseOut (BaseTx_Outs base) ++ [Whole]
| PvmWriter.UnsignedExportTx _ _ ExportedOutputs => utxos ++ each Exported ExportedOutputs ++ [Whole]
| UnsignedAdvanceTimeTx => [Whole]
| UnsignedRewardValidatorTx _ _ _ => [Whole]
| UnsignedOtherTx _ => []
end.

(** For each transaction of the block. *)
Definition initCtx (b : PvmBlock) : list (list ctx_target) :=
match b with
| ProposalBlock _ tx => [initCtxPtx tx]
| StandardBlock _ txs => map initCtxPtx txs
| AtomicBlock _ tx => [initCtxPtx tx]
| AbortBlock _ | CommitBlock _ | OtherBlock _ => []
end.

Definition NewPtxDataProposerModel (b : ProposerBlock) : PtxDataProposerModel :=
match Proposer_Signed b with
| Some detail => {|
PtxProposer_ID := ID_String (Proposer_ID b);
PtxProposer_ParentID := ID_String (Proposer_ParentID b);
PtxProposer_CoreChainHeight := Signed_CoreChainHeight detail;
PtxProposer_Proposer := ShortID_String (Signed_Proposer detail);
PtxProposer_TimeStamp := Some (Signed_Timestamp detail) |}
| None => {|
PtxProposer_ID := ID_String (Proposer_ID b);
PtxProposer_ParentID := "";
PtxProposer_CoreChainHeight := 0;
PtxProposer_Proposer := "";
PtxProposer_TimeStamp := None |}
end.

(** [reflect.TypeOf(block).String()] *)
Definition block_type (b : PvmBlock) : string :=
match b with
| ProposalBlock _ _ => "*platformvm.ProposalBlock"
| StandardBlock _ _ => "*platformvm.StandardBlock"
| AtomicBlock _ _ => "*platformvm.AtomicBlock"
| AbortBlock _ => "*platformvm.AbortBlock"
| CommitBlock _ => "*platformvm.CommitBlock"
| OtherBlock type_name => type_name
end.

Definition parsePlatformTx (b : string) : result PtxDataModel :=
match pvm_Unmarshal b with
| Err _ =>
'(_, blockTx) ← pvm_UnmarshalTx b;
mret {| Ptx_Tx := Some (blockTx, initCtxPtx blockTx); Ptx_TxType := Some "*platformvm.Tx"; Ptx_Block := None;
        Ptx_BlockID := None; Ptx_BlockType := None; Ptx_Proposer := None; Ptx_ProposerType := None |}
| Ok (_, block) =>
mret {| Ptx_Tx := None; Ptx_TxType := None; Ptx_Block := Some (block, initCtx block);
        Ptx_BlockID := Some (ID_String (ComputeHash256 b)); Ptx_BlockType := Some (block_type block);
        Ptx_Proposer := None; Ptx_ProposerType := None |}
end.

Definition with_proposer (b : ProposerBlock) (m : PtxDataModel) : PtxDataModel :=
mkPtxDataModel (Ptx_Tx m) (Ptx_TxType m) (Ptx_Block m) (Ptx_BlockID m) (Ptx_BlockType m)
(Some (NewPtxDataProposerModel b)) (Some (proposer_type b)).

Definition pvm_ParseJSON (txBytes : string) : result string :=
match block_Parse txBytes with
| Err _ =>
platformBlock ← parsePlatformTx txBytes;
json_PtxDataModel platformBlock
| Ok proposerBlock =>
platformBlock ← parsePlatformTx (Proposer_Block proposerBlock);
json_PtxDataModel (with_proposer proposerBlock platformBlock)
end.

(** * cvm *)
Definition cvm_ParseJSON (w : cvm.Writer) (txdata : string) : result string :=
'(block, _) ← cblock_Unmarshal txdata;
if String.eqb (cblock_ExtraData block) "" then Ok ""
else
atomicTxs ← (if (cblock_Time block <? cvm.ap5Activation w)%Z
           then cvm.extractAtomicTxsPreApricotPhase5 (cblock_ExtraData block)
           else cvm.extractAtomicTxsPostApricotPhase5 (cblock_ExtraData block));
json_EvmTxs atomicTxs.

(** * What is printed is what was indexed *)

(** The model of a block that the writer parses, by itself or in its proposer block. *)
Definition block_model (pb : option ProposerBlock) (pblock : PvmBlock) (bytes : string) : PtxDataModel :=
let m := {| Ptx_Tx := None; Ptx_TxType := None; Ptx_Block := Some (pblock, initCtx pblock);
        Ptx_BlockID := Some (ID_String (ComputeHash256 bytes)); Ptx_BlockType := Some (block_type pblock);
        Ptx_Proposer := None; Ptx_ProposerType := None |} in
match pb with Some b => with_proposer b m | None => m end.

(** The printer parses a message as the writer does. *)
Lemma pvm_ParseJSON_parsed Propagate body pb ver pblock bytes :
pvm.parse_block Propagate body = Ok (pb, ver, pblock, bytes) →
pvm_ParseJSON body = json_PtxDataModel (block_model pb pblock bytes).
Proof.
unfold pvm.parse_block, pvm_ParseJSON, parsePlatformTx. destruct (block_Parse body) as [b|e].
- destruct (pvm_Unmarshal (Proposer_Block b)) as [[v p]|e]; [|done]. by intros [= <- <- <- <-].
- destruct (pvm_Unmarshal body) as [[v p]|e']; [|done]. by intros [= <- <- <- <-].
Qed.

(** The platform block inside a proposer block, printed alone. *)
Lemma pvm_ParseJSON_inner Propagate body pb ver pblock bytes :
pvm.parse_block Propagate body = Ok (pb, ver, pblock, bytes) → is_ok (block_Parse bytes) = false →
pvm_ParseJSON bytes = json_PtxDataModel (block_model None pblock bytes).
Proof.
unfold pvm.parse_block, pvm_ParseJSON, parsePlatformTx. destruct (block_Parse body) as [b|e] eqn:Eb.
- destruct (pvm_Unmarshal (Proposer_Block b)) as [[v p]|e] eqn:Ep; [|done]. intros [= <- <- <- <-].
by destruct (block_Parse (Proposer_Block b)); rewrite ?Ep.
- destruct (pvm_Unmarshal body) as [[v p]|e'] eqn:Ep; [|done]. intros [= <- <- <- <-]. by rewrite Eb, Ep.
Qed.
End printers.

(** * A platform block, from the message to the answer *)
Section answers.
Context `{SqlEngine D} `{!SqlEngineOk D} `{!AxiaIds} `{!AxiaMath} `{!AxiaCrypto} `{!Cfg} `{!PvmCodec} `{!CorethJson} `{!JsonPrinter}.
Implicit Types d : D.

(** The row of a block is the one its identifier finds. *)
Lemma block_found b (rs rs' : list row) : rs' ≡ₚ the_row (EPvmBlocks b) :: rs →
clashes TablePvmBlocks (the_row (EPvmBlocks b)) rs = false →
List.filter (matches [CEq "id" (VStr (PvmBlocks_ID b))]) rs' = [the_row (EPvmBlocks b)].
Proof.
intros Hp Hc. change [CEq "id" (VStr (PvmBlocks_ID b))] with (entity_where (EPvmBlocks b)).
assert (found (entity_where (EPvmBlocks b)) rs = []) as E.
{ destruct (found _ rs) as [|r l] eqn:E; [done|]. exfalso.
  assert (clashes TablePvmBlocks (the_row (EPvmBlocks b)) rs = true); [|congruence].
  apply (found_clashes (EPvmBlocks b) r). rewrite E. left. }
assert (matches (entity_where (EPvmBlocks b)) (the_row (EPvmBlocks b)) = true) as Em.
{ rewrite entity_where_key. apply key_where_matches; [apply entity_key_set|done]. }
apply Permutation_length_1_inv. symmetry. rewrite (filter_perm _ _ _ Hp). cbn [List.filter]. rewrite Em.
unfold found in E. by rewrite E.
Qed.

(** The identifier is the only key of the table. *)
Lemma block_clashes b (rs : list row) : clashes TablePvmBlocks (the_row (EPvmBlocks b)) rs =
existsb (λ r, bool_decide (r !! "id" = Some (VStr (PvmBlocks_ID b)))) rs.
Proof.
unfold clashes. change (unique_keys TablePvmBlocks) with [["id"]]. cbn [existsb]. rewrite orb_false_r.
assert (∀ r, bool_decide (project ["id"] (the_row (EPvmBlocks b)) = project ["id"] r) =
             bool_decide (r !! "id" = Some (VStr (PvmBlocks_ID b)))) as E.
{ intros r. apply bool_decide_ext. cbn [project map].
  assert (the_row (EPvmBlocks b) !! "id" = Some (VStr (PvmBlocks_ID b))) as -> by (unfold the_row; by rewrite lookup_new_row).
  split; [intros E; by injection E|intros E; by rewrite E]. }
induction rs as [|r rs IH]; [done|]. cbn [existsb]. by rewrite E, IH.
Qed.

Lemma proposer_rows_in id (c c' : content) s : c ≡ᶜ c' → s ∈ proposer_rows id c → s ∈ proposer_rows id c'.
Proof.
intros E. unfold proposer_rows, inner_join. rewrite !list_elem_of_In, !in_flat_map.
intros (p & Hp & Hs). exists p. rewrite in_map_iff in *. destruct Hs as (r & Er & Hr). rewrite filter_In in *.
rewrite <-!list_elem_of_In in *. destruct Hp as [Hp ?], Hr as [Hr ?]. rewrite (E TablePvmProposer) in Hp. split; [done|].
exists r. rewrite filter_In, <-list_elem_of_In, <-(E TableTxPool). done.
Qed.

Lemma proposer_rows_nil id (c c' : content) : c ≡ᶜ c' → proposer_rows id c' = [] → proposer_rows id c = [].
Proof. intros E En. apply elem_of_nil_inv. intros s Hs. apply (proposer_rows_in _ _ _ _ E) in Hs. rewrite En in Hs. by apply elem_of_nil in Hs. Qed.

(** The answer of a query, or the error of the database. *)
Lemma select_cases {A} (q : content → A) d : ∃ d', rows d ≡ᶜ rows d' ∧
(select q d = (d', Ok (q (rows d'))) ∨ ∃ e, select q d = (d', Err e) ∧ (poll d).2 = Err e).
Proof.
pose proof (select_rows q d) as Hr. destruct (select q d) as [d' [a|e]] eqn:E; exists d'; split; [done| |done|].
- left. by apply select_ok in E as [_ ->].
- right. exists e. split; [done|]. unfold select in E. rewrite bind_run in E.
  destruct (poll d) as [d1 [[]|e1]]; [done|]. by injection E as _ <-.
Qed.

(** The pool and the table give the message, or the block it was. *)
Lemma block_answered (chainConsumers : gmap string (string → result string)) w ctx id pblock bytes c typ body pb ver Propagate d rs :
chainConsumers !! axc.chainID w = Some pvm_ParseJSON →
pvm.parse_block Propagate body = Ok (pb, ver, pblock, bytes) →
id = ID_String (ComputeHash256 bytes) → big_SetString id = None → is_ok (block_Parse bytes) = false →
let e := block_row w ctx (ComputeHash256 bytes) typ c bytes in
clashes TablePvmBlocks (the_row (EPvmBlocks e)) rs = false →
rows d TablePvmBlocks ≡ₚ the_row (EPvmBlocks e) :: rs →
(∀ s, s ∈ proposer_rows id (rows d) → s = body) →
(proposer_rows id (rows d) ≠ [] ∨ Z.of_nat (String.length bytes) ≤ MaxSerializationLen)%Z →
∃ d2, PTxDATA chainConsumers id d =
  (d2, json_PtxDataModel (block_model (if bool_decide (proposer_rows id (rows d) = []) then None else pb) pblock bytes)) ∨
  ∃ err d3, PTxDATA chainConsumers id d = (d2, Err err) ∧ rows d3 ≡ᶜ rows d ∧ (poll d3).2 = Err err.
Proof.
intros Hcc Hp Hid Hnum Hin e Hcl Hrows Hpool Hlen.
unfold PTxDATA. rewrite bind_run.
destruct (select_cases (block_rows id) d) as (d1 & E1 & [->|(err & -> & Hpl)]); [|by exists d1; right; exists err, d; repeat split].
assert (block_rows id (rows d1) = [the_row (EPvmBlocks e)]) as ->.
{ unfold block_rows. rewrite Hnum, Hid. apply (block_found e rs); [|done]. by rewrite <-(E1 TablePvmBlocks). }
assert (col_str (the_row (EPvmBlocks e)) "id" = id) as -> by (unfold col_str, the_row; by rewrite lookup_new_row, Hid).
assert (col_str (the_row (EPvmBlocks e)) "chain_id" = axc.chainID w) as -> by (unfold col_str, the_row; by rewrite lookup_new_row).
assert (as_serialization (the_row (EPvmBlocks e) !! "serialization") =
        if (MaxSerializationLen <? Z.of_nat (String.length bytes))%Z then "" else bytes) as ->
  by (unfold the_row; by rewrite lookup_new_row).
rewrite bind_run. destruct (select_cases (proposer_rows id) d1) as (d2 & E2 & [->|(err & -> & Hpl)]);
  [|by exists d2; right; exists err, d1; repeat split; [symmetry|]].
exists d2. left. unfold lift_result, parse_json, chainWriter. rewrite Hcc. cbn [mbind result_bind]. f_equal.
assert (rows d ≡ᶜ rows d2) as E by (etransitivity; eassumption).
destruct (proposer_rows id (rows d2)) as [|s l] eqn:Es.
- rewrite bool_decide_true.
  2: { by eapply proposer_rows_nil. }
  destruct Hlen as [[]|Hlen]; [by eapply proposer_rows_nil|].
  cbn [head default]. rewrite (proj2 (Z.ltb_ge _ _) Hlen). by eapply pvm_ParseJSON_inner.
- assert (s ∈ proposer_rows id (rows d)) as Hs.
  { apply (proposer_rows_in _ (rows d2)); [by symmetry|]. rewrite Es. left. }
  rewrite bool_decide_false by (intros E0; rewrite E0 in Hs; by apply elem_of_nil in Hs).
  cbn [head default]. rewrite (Hpool s Hs). by eapply pvm_ParseJSON_parsed.
Qed.

(** C10. Whatever a platform block is, what is answered for it is the block that was indexed.
  In normal operation (PerformUpdates off), when consuming a message returned no error, and the identifier of its block was free,
  the request for this identifier is answered with the JSON of that very block, parsed from
  the bytes that the table keeps, or, if the pool still has the message of its proposer
  block, from the message, with the data of the proposer; any other error than that of the
  encoder is one of the database.  (The identifier is not read as a height, the bytes are no
  proposer block themselves, the pool has the messages by their own identifiers, and the
  bytes are short enough to be kept, when the pool has no message.) *)
Theorem block_printed Propagate clock (chainConsumers : gmap string (string → result string)) (w : pvm.Writer) ts ns body d d' :
PerformUpdates = false → unique_content (rows d) → chainConsumers !! axc.chainID w = Some pvm_ParseJSON →
pvm.Consume Propagate clock w ts ns body d = (d', Ok tt) →
∃ pb ver pblock bytes, pvm.parse_block Propagate body = Ok (pb, ver, pblock, bytes) ∧
  let id := ID_String (ComputeHash256 bytes) in
  (existsb (λ r, bool_decide (r !! "id" = Some (VStr id))) (rows d TablePvmBlocks) = false →
   big_SetString id = None → is_ok (block_Parse bytes) = false →
   (∀ s, s ∈ proposer_rows id (rows d') → s = body) →
   (proposer_rows id (rows d') ≠ [] ∨ Z.of_nat (String.length bytes) ≤ MaxSerializationLen)%Z →
   ∃ d2, PTxDATA chainConsumers id d' =
     (d2, json_PtxDataModel (block_model (if bool_decide (proposer_rows id (rows d') = []) then None else pb) pblock bytes)) ∨
     ∃ e d3, PTxDATA chainConsumers id d' = (d2, Err e) ∧ rows d3 ≡ᶜ rows d' ∧ (poll d3).2 = Err e).
Proof.
intros Hno Hu Hcc Hc.
destruct (consume_stored clock _ _ _ _ (indexBlock_strict _ _ _ _) (pvm_indexBlock_gentle _ Hno _ _ _)
            (pvm_indexBlock_indexed Propagate w (NewConsumerContext ts ns) body) Hc)
  as (l & (pb & ver & pblock & bytes & c & Hp & Hcm & _) & _).
exists pb, ver, pblock, bytes. split; [done|]. intros id Hfree Hnum Hin Hpool Hlen.
set (e := block_row w (NewConsumerContext ts ns) (ComputeHash256 bytes) (recorded_type pblock) c bytes).
assert (clashes TablePvmBlocks (the_row (EPvmBlocks e)) (rows d TablePvmBlocks) = false) as Hcl.
{ rewrite <-Hfree. apply block_clashes. }
eapply (block_answered chainConsumers w); [done|exact Hp|done..| |done|done].
by eapply block_lands.
Qed.
End answers.

(** * A sample *)
Module Printed.
Import Sample Toy ToyCodec.
#[export] Instance coreth : CorethJson := {
cblock := unit; ctransaction := string; clog := string; cblock_json_Unmarshal _ := Err "no block";
cblock_TxsBytes _ := []; cblock_Txs _ := []; cblock_Number _ := 0%Z; cblock_Hash _ := ""; cblock_ExtraData _ := "";
ctransaction_UnmarshalJSON := Ok; clog_UnmarshalJSON := Ok; clog_Index _ := 0%Z;
BlockExport_Marshal _ _ _ _ _ := Ok "";
}.
#[export] Instance printer : JsonPrinter := {
avm_UTXOs _ := 0;
pvm_UTXOs _ := 1;
pvm_UnmarshalTx _ := Err "no transaction";
proposer_type _ := "block.signedBlock";
json_AvmTx _ _ := Ok "{}";
json_PtxDataModel m := Ok (default "" (Ptx_BlockType m) +:+ " " +:+ default "" (Ptx_BlockID m));
json_EvmTxs _ := Ok "[]";
cblock_Time _ := 0%Z;
}.
Definition indexed : MemDb := (pvm.Consume propagate clock w 1 5 "block" empty_db).1.
Definition consumers : gmap string (string → result string) := {["X" := pvm_ParseJSON]}.

Example printed_answer : (PTxDATA consumers "#block" indexed).2 = Ok "*platformvm.StandardBlock #block".
Proof. vm_compute. reflexivity. Qed.

End Printed.
Import Sample Toy ToyCodec Printed.

Lemma block_printed_witness : ∃ d2,
  PTxDATA consumers "#block" indexed = (d2, Ok "*platformvm.StandardBlock #block") ∨
  ∃ e d3, PTxDATA consumers "#block" indexed = (d2, Err e) ∧ rows d3 ≡ᶜ rows indexed ∧ (poll d3).2 = Err e.
Proof.
  destruct (block_printed propagate clock consumers w 1 5 "block" empty_db indexed) as (pb & ver & pblock & bytes & Hp & Ha).
  - reflexivity.
  - apply empty_unique.
  - reflexivity.
  - unfold indexed. apply run_ok. vm_compute. reflexivity.
  - injection Hp as <- <- <- <-. apply Ha; clear Ha.
    + reflexivity.
    + reflexivity.
    + reflexivity.
    + assert (proposer_rows "#block" (rows indexed) = []) as E by (vm_compute; reflexivity).
      intros s Hs. exfalso. change (s ∈ proposer_rows "#block" (rows indexed)) in Hs. rewrite E in Hs.
      by apply elem_of_nil in Hs.
    + right. apply Z.leb_le. vm_compute. reflexivity.
Defined.
