(* ===== verification/BalanceAnswers.v ===== *)
(** The balances the API answers are those of the ledger: the composition of the writers,
    the balance manager and the reader of the accumulated balances. *)

From S2P Require Import Prelude Errors Sql MemDb Axia DbModel Persist Prog Writer Balance BalanceInv BalanceRun BalanceTxs BalanceSystem Processors BalanceKeys GoText Params Query ReaderAggregates ReaderModels ReaderTxs Select ReaderLists ParamsFacts CacheFacts Accounting.

(** * Texts cut at a colon *)
Definition colon_free (s : string) : Prop := contains ":" s = false.

Lemma colon_cut x x' y y' : colon_free x → colon_free x' →
  x +:+ ":" +:+ y = x' +:+ ":" +:+ y' → x = x' ∧ y = y'.
Proof.
  unfold colon_free. revert x'. induction x as [|a x IH]; intros [|a' x'] Hx Hx' E.
  - split; [done|]. by injection E.
  - exfalso. injection E as <- _. by destruct x'.
  - exfalso. injection E as -> _. by destruct x.
  - change (String.String a (x +:+ ":" +:+ y) = String.String a' (x' +:+ ":" +:+ y')) in E.
    injection E as <- E. simpl in Hx, Hx'. apply orb_false_iff in Hx as [_ Hx], Hx' as [_ Hx'].
    destruct (IH x' Hx Hx' E) as [-> ->]. done.
Qed.

(** * The joins of the statement *)
Lemma elem_left_join on t r : r ∈ left_join on t → r ∈ t ∧ on r = true ∨ r = ∅ ∧ ∀ x, x ∈ t → on x = false.
Proof.
  unfold left_join. destruct (List.filter on t) as [|x l] eqn:E.
  - intros ->%list_elem_of_singleton. right. split; [done|]. intros x Hx. destruct (on x) eqn:Ex; [|done].
    apply list_elem_of_In in Hx. assert (In x (List.filter on t)) as Hin by (by apply filter_In). by rewrite E in Hin.
  - rewrite <-E. intros Hr. left. by apply elem_of_filter_bool.
Qed.

Lemma elem_join_rows c t on a b e e' : cut " = " on = Some (a, b) → e' ∈ join_rows c t on e →
  ∃ r, e' = <[t := r]> e ∧
    (r ∈ c t ∧ (negb (column_null e' a) && bool_decide (column e' a = column e' b)) = true ∨
     r = ∅ ∧ ∀ x, x ∈ c t → (negb (column_null (<[t := x]> e) a) &&
       bool_decide (column (<[t := x]> e) a = column (<[t := x]> e) b)) = false).
Proof.
  intros Hc. unfold join_rows. rewrite Hc. intros (r & -> & Hr)%list_elem_of_fmap. exists r. split; [done|].
  by apply elem_left_join in Hr.
Qed.

Lemma join_rows_nonempty c t on e : ∃ e', e' ∈ join_rows c t on e ∧ ∀ t', t' ≠ t → e' !! t' = e !! t'.
Proof.
  unfold join_rows. destruct (cut " = " on) as [[a b]|]; [|exists e; by split; [left|]].
  unfold left_join. destruct (List.filter _ (c t)) as [|x l].
  - exists (<[t := ∅]> e). split; [left|]. intros t' Hne. by apply lookup_insert_ne.
  - exists (<[t := x]> e). split; [left|]. intros t' Hne. by apply lookup_insert_ne.
Qed.

(** The row of a balance table under an identifier, all NULL when there is none. *)
Definition row_of (t id : string) (c : content) (r : row) : Prop :=
  r ∈ c t ∧ has_id id r = true ∨ r = ∅ ∧ ∀ x, x ∈ c t → has_id id x = false.

Lemma recorded_row col t id c r : ["id"] ∈ unique_keys t → unique_content c → row_of t id c r →
  recorded col t id c = col_num r col.
Proof.
  intros Hk Hu [[Hr Hid]|[-> Hno]]; unfold recorded.
  - rewrite (sum_with_ext _ (λ x, if matches [CEq "id" (VStr id)] x then col_num r col else 0%Z)).
    + by eapply sum_with_id; [exact Hk|apply Hu|..].
    + intros x Hx. rewrite matches_id. destruct (has_id id x) eqn:Ex; [|done].
      f_equal. by eapply same_id_row.
  - rewrite (sum_with_0 _ (c t)); [done|]. intros x Hx. by rewrite Hno.
Qed.

(** The row joined on an identifier. *)
Lemma elem_join_id c t on a b e e' id : cut " = " on = Some (a, b) →
  (∀ x, column (<[t := x]> e) a = Some (VStr id)) → (∀ x, column (<[t := x]> e) b = x !! "id") →
  e' ∈ join_rows c t on e → ∃ r, e' = <[t := r]> e ∧ row_of t id c r.
Proof.
  intros Hc Ha Hb (r & -> & Hr)%(elem_join_rows _ _ _ a b); [|done]. exists r. split; [done|].
  assert (∀ x, negb (column_null (<[t := x]> e) a) &&
    bool_decide (column (<[t := x]> e) a = column (<[t := x]> e) b) = has_id id x) as E.
  { intros x. unfold column_null. rewrite Ha, Hb. unfold has_id. simpl. by apply bool_decide_ext. }
  rewrite E in Hr. destruct Hr as [?|[-> Hno]]; [by left|]. right. split; [done|]. intros x Hx.
  by rewrite <-E, Hno.
Qed.

Lemma accumulated_rows `{!AxiaIds} c b e : keyed c → LeftJoins b = LeftJoins accumulate_from →
  e ∈ joined_rows c TableAccumulateBalancesReceived b →
  ∃ r id, r ∈ c TableAccumulateBalancesReceived ∧ r !! "id" = Some (VStr id) ∧ key_id (tx_key r) = Ok id ∧
    table_row TableAccumulateBalancesReceived e = r ∧
    row_of TableAccumulateBalancesSent id c (table_row TableAccumulateBalancesSent e) ∧
    row_of TableAccumulateBalancesTransactions id c (table_row TableAccumulateBalancesTransactions e).
Proof.
  intros Hk Hj He. unfold joined_rows in He. rewrite Hj in He. cbn [accumulate_from LeftJoins fold_left fst snd] in He.
  apply list_elem_of_In, in_flat_map in He as (e1 & He1 & He).
  apply in_flat_map in He1 as (e0 & He0 & He1). apply in_map_iff in He0 as (r & <- & Hr).
  apply list_elem_of_In in He, He1, Hr.
  destruct (Hk TableAccumulateBalancesReceived r) as (id & Hid & Hkey); [left|done|].
  apply (elem_join_id _ _ _ "accumulate_balances_received.id" "accumulate_balances_sent.id" _ _ id) in He1
    as (s & -> & Hs); [|reflexivity|intros x; exact Hid|reflexivity].
  apply (elem_join_id _ _ _ "accumulate_balances_received.id" "accumulate_balances_transactions.id" _ _ id) in He
    as (t & -> & Ht); [|reflexivity|intros x; exact Hid|reflexivity].
  exists r, id. split_and!; [done..|reflexivity|exact Hs|exact Ht].
Qed.

(** * The rows of the answer *)
Section answer.
Context `{!GoText} `{!AxiaIds} `{!AxiaFormatting} `{!SqlText} `{!AddressText}.

Lemma apply_joins p b : LeftJoins (ListAddressesParams_Apply p true b) = LeftJoins b.
Proof.
unfold ListAddressesParams_Apply, ListParams_ApplyPk, when. repeat case_match; reflexivity.
Qed.

(** What the ledger says of a balance. *)
Definition ledger_info (c : content) (asset id : string) : AssetInfo :=
let received := credit amount_of processTypeOut id c in
let sent := credit amount_of processTypeIn id c in
{| AssetInfo_AssetID := asset;
   AssetInfo_TransactionCount := tx_credit id c;
   AssetInfo_UTXOCount := (credit one_of processTypeOut id c - credit one_of processTypeIn id c)%Z;
   AssetInfo_Balance := Z_to_string (received - sent);
   AssetInfo_TotalReceived := Z_to_string received;
   AssetInfo_TotalSent := Z_to_string sent |}.

(** A row of the answer: that of a received balance. *)
Definition ledger_row (c : content) (a : address_asset) : Prop := ∃ r id,
r ∈ c TableAccumulateBalancesReceived ∧ r !! "id" = Some (VStr id) ∧ key_id (tx_key r) = Ok id ∧
a = mkAddressAsset (col_str r "chain_id") (col_str r "address") (ledger_info c (col_str r "asset_id") id).

Lemma accumulated_ledger pool txs c b e : accounts_sound pool txs c → keyed c →
LeftJoins b = LeftJoins accumulate_from → e ∈ joined_rows c TableAccumulateBalancesReceived b →
ledger_row c (accumulated e).
Proof.
intros Hs Hk Hj He. pose proof (accounts_balances _ _ _ Hs) as [Hu Hb _ _].
destruct (accumulated_rows c b e Hk Hj He) as (r & id & Hr & Hid & Hkey & Er & Hsent & Htxs).
exists r, id. split_and!; [done..|].
assert (row_of TableAccumulateBalancesReceived id c r) as Hrec.
{ left. split; [done|]. unfold has_id. by apply bool_decide_eq_true. }
assert (∀ t col x, t ∈ balance_tables → row_of t id c x → col_num x col = recorded col t id c) as Hcol.
{ intros t col x Ht Hx. symmetry. apply recorded_row; [|done|done].
  apply list_elem_of_In in Ht. simpl in Ht. intuition subst; left. }
unfold accumulated, ledger_info. rewrite Er. f_equal. f_equal;
  rewrite ?(Hcol TableAccumulateBalancesReceived _ _ ltac:(left) Hrec),
    ?(Hcol TableAccumulateBalancesSent _ _ ltac:(right; left) Hsent),
    ?(Hcol TableAccumulateBalancesTransactions _ _ ltac:(right; right; left) Htxs).
- apply (accounts_counted _ _ _ Hs).
- f_equal; [apply (balanced_count _ _ (Hb processTypeOut))|apply (balanced_count _ _ (Hb processTypeIn))].
- do 2 f_equal; [apply (balanced_amount _ _ (Hb processTypeOut))|apply (balanced_amount _ _ (Hb processTypeIn))].
- f_equal. apply (balanced_amount _ _ (Hb processTypeOut)).
- f_equal. apply (balanced_amount _ _ (Hb processTypeIn)).
Qed.

Lemma mapM_ok {A} (l : list (result A)) k : mapM id l = Ok k → ∀ x, x ∈ k ↔ Ok x ∈ l.
Proof.
revert k. induction l as [|[a|e] l IH]; intros k E x; simpl in E; [by injection E as <-; set_solver| |done].
cbn in E. destruct (mapM id l) as [k'|e] eqn:El; [|done]. injection E as <-.
rewrite !elem_of_cons, (IH k' eq_refl x). split; intros [Hx|Hx]; auto; left; congruence.
Qed.

Lemma elem_limit_offset {A} b (l : list A) x : x ∈ limit_offset b l → x ∈ l.
Proof.
intros Hx. assert (x ∈ match OffsetCount b with Some n => drop (Z.to_nat n) l | None => l end) as Hd.
{ unfold limit_offset in Hx. destruct (LimitCount b) as [n|]; [|done].
  rewrite <-(take_drop (Z.to_nat n)). apply elem_of_app. by left. }
destruct (OffsetCount b) as [n|]; [|done]. rewrite <-(take_drop (Z.to_nat n)). apply elem_of_app. by right.
Qed.

(** The rows of the answer, without a limit those of every balance asked for. *)
Lemma address_rows_elem p c l : address_rows true p c = Ok l →
let b := ListAddressesParams_Apply p true accumulate_from in
(∀ x, x ∈ l → ∃ e, e ∈ joined_rows c TableAccumulateBalancesReceived b ∧ x = accumulated e) ∧
(LimitCount b = None → OffsetCount b = None → ∀ e, e ∈ joined_rows c TableAccumulateBalancesReceived b →
  forallb (clause_holds e) (WhereCond b) = true → accumulated e ∈ l).
Proof.
intros E b. unfold address_rows in E. fold b in E. unfold run_select in E.
destruct (forallb (clause_ok _) _); [|done]. cbn in E.
pose proof (mapM_ok _ _ E) as Hm. split.
- intros x Hx%Hm. assert (Ok x ∈ accumulate_rows (List.filter (λ e, forallb (clause_holds e) (WhereCond b))
    (joined_rows c TableAccumulateBalancesReceived b))) as Hx'.
  { by eapply elem_limit_offset. }
  unfold accumulate_rows in Hx'. apply list_elem_of_fmap in Hx' as (e & Ee & He).
  rewrite order_by_perm in He. apply elem_of_filter_bool in He as [He _]. exists e. split; [done|].
  unfold load_accumulated in Ee. destruct (column_null _ _); [done|]. cbv zeta in Ee. destruct (_ <? 0)%Z; congruence.
- intros Hl Ho e He Hc. unfold limit_offset in *. rewrite Hl, Ho in *. apply Hm.
  assert (∀ x, x ∈ accumulate_rows (List.filter (λ e, forallb (clause_holds e) (WhereCond b))
    (joined_rows c TableAccumulateBalancesReceived b)) → is_ok x = true) as Hok.
  { clear Hm. revert E. generalize (accumulate_rows (List.filter (λ e, forallb (clause_holds e) (WhereCond b))
      (joined_rows c TableAccumulateBalancesReceived b))). intros k. revert l.
    induction k as [|[a|err] k IH]; intros l E x Hx; [by apply elem_of_nil in Hx| |done].
    cbn in E. destruct (mapM id k) as [k'|] eqn:Ek; [|done]. apply elem_of_cons in Hx as [->|Hx]; [done|by eapply IH]. }
  assert (load_accumulated e ∈ accumulate_rows (List.filter (λ e, forallb (clause_holds e) (WhereCond b))
    (joined_rows c TableAccumulateBalancesReceived b))) as Hin.
  { apply list_elem_of_fmap_2. rewrite order_by_perm. apply list_elem_of_In, filter_In. split; [by apply list_elem_of_In|done]. }
  pose proof (Hok _ Hin) as Hoke. unfold load_accumulated in *. destruct (column_null _ _); [done|].
  cbv zeta in *. destruct (_ <? 0)%Z; [done|]. exact Hin.
Qed.

(** ** The map of the answer *)
Implicit Types m : gmap string AddressInfo.

Lemma elem_with_public_key c l x pk : (x, pk) ∈ with_public_key c l → x ∈ l.
Proof.
unfold with_public_key. intros (a & Ha & Hin)%list_elem_of_In%in_flat_map.
apply in_map_iff in Hin as (? & [= -> _] & _). by apply list_elem_of_In.
Qed.

Lemma with_public_key_elem c l x : x ∈ l → ∃ pk, (x, pk) ∈ with_public_key c l.
Proof.
intros Hx. unfold with_public_key. unfold left_join.
destruct (List.filter (λ d, matches [CEq "address" (VStr (AA_Address x))] d) (c TableAddresses)) as [|r rs] eqn:E.
- exists (as_bytes ((∅ : row) !! "public_key")). apply list_elem_of_In, in_flat_map. exists x.
  split; [by apply list_elem_of_In|]. rewrite E. by left.
- exists (as_bytes (r !! "public_key")). apply list_elem_of_In, in_flat_map. exists x.
  split; [by apply list_elem_of_In|]. rewrite E. by left.
Qed.

Definition place (x : address_asset) : string := AA_ChainID x +:+ ":" +:+ AA_Address x.

(** Every answer, and every asset in it, comes from a row of its place. *)
Definition from_rows (l : list address_asset) m : Prop := ∀ k a, m !! k = Some a →
(∃ x, x ∈ l ∧ AddressInfo_ChainID a = AA_ChainID x ∧ AddressInfo_Address a = AA_Address x ∧ k = place x) ∧
∀ asset info, AddressInfo_Assets a !! asset = Some info →
  ∃ x, x ∈ l ∧ k = place x ∧ AssetInfo_AssetID (AA_Info x) = asset ∧ AA_Info x = info.

Lemma add_row_from l m x pk : x ∈ l → from_rows l m → from_rows l (add_row m (x, pk)).
Proof.
intros Hx Hm k a. unfold add_row. fold (place x). destruct (decide (k = place x)) as [->|Hne].
- rewrite lookup_insert_eq. intros [= <-]. cbn.
  destruct (m !! place x) as [a0|] eqn:E; cbn.
  + destruct (Hm _ _ E) as [Ha Has]. split; [done|]. intros asset info.
    destruct (decide (asset = AssetInfo_AssetID (AA_Info x))) as [->|Hne].
    * rewrite lookup_insert_eq. intros [= <-]. by exists x.
    * rewrite lookup_insert_ne by done. apply Has.
  + split; [by exists x|]. intros asset info.
    destruct (decide (asset = AssetInfo_AssetID (AA_Info x))) as [->|Hne].
    * rewrite lookup_insert_eq. intros [= <-]. by exists x.
    * rewrite lookup_insert_ne by done. by rewrite lookup_empty.
- rewrite lookup_insert_ne by done. apply Hm.
Qed.

Lemma fold_add_row_from l rs m : (∀ x pk, (x, pk) ∈ rs → x ∈ l) → from_rows l m → from_rows l (fold_left add_row rs m).
Proof.
revert m. induction rs as [|[x pk] rs IH]; intros m Hl Hm; [done|]. cbn [fold_left]. apply IH.
- intros x' pk' Hin. apply (Hl x' pk'). by right.
- apply add_row_from; [|done]. apply (Hl x pk). left.
Qed.

(** Every row has its asset in the answer of its place. *)
Definition shown m (x : address_asset) : Prop :=
∃ a, m !! place x = Some a ∧ is_Some (AddressInfo_Assets a !! AssetInfo_AssetID (AA_Info x)).

Lemma add_row_shown m y pk x : shown m x ∨ x = y → shown (add_row m (y, pk)) x.
Proof.
unfold add_row. fold (place y). intros [(a & Ha & Hs)|<-].
- destruct (decide (place x = place y)) as [E|Hne].
  + eexists. rewrite E, lookup_insert_eq. split; [done|]. cbn. rewrite <-E, Ha. cbn.
    destruct (decide (AssetInfo_AssetID (AA_Info x) = AssetInfo_AssetID (AA_Info y))) as [Ea|Hne].
    * rewrite Ea, lookup_insert_eq. by eexists.
    * by rewrite lookup_insert_ne.
  + exists a. by rewrite lookup_insert_ne.
- eexists. rewrite lookup_insert_eq. split; [done|]. cbn. rewrite lookup_insert_eq. by eexists.
Qed.

Lemma fold_add_row_shown rs m x : shown m x ∨ (∃ pk, (x, pk) ∈ rs) → shown (fold_left add_row rs m) x.
Proof.
revert m. induction rs as [|[y pk] rs IH]; intros m Hor; cbn [fold_left].
- destruct Hor as [?|[pk Hin]]; [done|]. by apply elem_of_nil in Hin.
- apply IH. destruct Hor as [Hs|[pk' [[= -> ->]|Hin]%elem_of_cons]].
  + left. apply add_row_shown. by left.
  + left. apply add_row_shown. by right.
  + right. by exists pk'.
Qed.

Lemma ListAddresses_ok `{SqlEngine D} `{!SqlEngineOk D} b p (d d' : D) l : ListAddresses b p d = (d', Ok l) →
∃ c l0, c ≡ᶜ rows d ∧ address_rows b p c = Ok l0 ∧
  AL_Addresses l = map snd (map_to_list (fold_left add_row (with_public_key c l0) ∅)).
Proof.
unfold ListAddresses. intros (rs & d1 & E1 & E)%bind_Ok_inv.
apply bind_Ok_inv in E as (n & d2 & E2 & [= _ <-]).
apply bind_Ok_inv in E1 as (r & d0 & [E0 ->]%select_ok & Er). unfold lift_result in Er. injection Er as _ Er.
exists (rows d0). destruct (address_rows b p (rows d0)) as [l0|e] eqn:El; [|done]. injection Er as <-. by exists l0.
Qed.

(** ** The ledger, on tables in any order *)
Lemma ledger_info_same pool txs c c' asset id :
accounts_sound pool txs c → accounts_sound pool txs c' → c ≡ᶜ c' → ledger_info c asset id = ledger_info c' asset id.
Proof.
intros Hs Hs' E. unfold ledger_info.
assert (∀ typ, credit amount_of typ id c = credit amount_of typ id c' ∧
  credit one_of typ id c = credit one_of typ id c') as Hc.
{ intros typ. pose proof (sound_balanced _ _ (accounts_balances _ _ _ Hs) typ) as Hb.
  pose proof (sound_balanced _ _ (accounts_balances _ _ _ Hs') typ) as Hb'.
  rewrite <-(balanced_amount _ _ Hb), <-(balanced_amount _ _ Hb'), <-(balanced_count _ _ Hb), <-(balanced_count _ _ Hb').
  split; apply recorded_perm; apply E. }
destruct (Hc processTypeOut) as [-> ->], (Hc processTypeIn) as [-> ->]. f_equal.
rewrite <-(accounts_counted _ _ _ Hs), <-(accounts_counted _ _ _ Hs'). apply recorded_perm, E.
Qed.

(** The balances a request asks for. *)
Definition asked (p : ListAddressesParams) (r : row) : Prop :=
(LA_ChainIDs p = [] ∨ ∃ chain, chain ∈ LA_ChainIDs p ∧ r !! "chain_id" = Some (VStr chain)) ∧
∀ a, LA_Address p = Some a → r !! "address" = Some (VStr (ShortID_String a)).

(** A request without a page, for no output in particular. *)
Definition whole (lp : ListParams) : Prop :=
LP_Limit lp = 0%Z ∧ LP_Offset lp = 0%Z ∧ LP_ID lp = None ∧ LP_Query lp = "".

Lemma asked_holds p e r : whole (LA_ListParams p) → table_row TableAccumulateBalancesReceived e = r →
asked p r → let b := ListAddressesParams_Apply p true accumulate_from in
LimitCount b = None ∧ OffsetCount b = None ∧ forallb (clause_holds e) (WhereCond b) = true.
Proof.
intros (Hl & Ho & Hi & Hq) Er [Hc Ha]. unfold ListAddressesParams_Apply, ListParams_ApplyPk. rewrite Hl, Ho, Hi, Hq.
assert (∀ c v, r !! c = Some (VStr v) → ∀ col, column_of col = (TableAccumulateBalancesReceived, c) →
  is_text e col v = true) as Ht.
{ intros c v Hv col Hcol. apply bool_decide_eq_true. unfold column. rewrite Hcol. unfold table_row in Er.
  destruct (e !! TableAccumulateBalancesReceived) as [r'|]; cbn in *; [by subst|by subst; rewrite lookup_empty in Hv]. }
assert (negb (length (LA_ChainIDs p) =? 0) = true →
  existsb (is_text e "accumulate_balances_received.chain_id") (LA_ChainIDs p) = true) as Hch.
{ intros Hne. destruct Hc as [E|(ch & Hin & Hr)]; [by rewrite E in Hne|]. apply existsb_exists. exists ch.
  split; [by apply list_elem_of_In|]. by eapply Ht. }
assert (∀ a, LA_Address p = Some a →
  is_text e ("accumulate_balances_received" +:+ ".address") (ShortID_String a) = true) as Had.
{ intros a Hp. by eapply Ht; [apply Ha|]. }
destruct (negb (length (LA_ChainIDs p) =? 0)); [specialize (Hch eq_refl)|]; destruct (LA_Address p) as [a|];
  (split; [done|split; [done|]]); simpl; rewrite ?Hch, ?(Had a eq_refl); done.
Qed.

Lemma joined_row c b r : LeftJoins b = LeftJoins accumulate_from → r ∈ c TableAccumulateBalancesReceived →
∃ e, e ∈ joined_rows c TableAccumulateBalancesReceived b ∧ table_row TableAccumulateBalancesReceived e = r.
Proof.
intros Hj Hr. unfold joined_rows. rewrite Hj. cbn [accumulate_from LeftJoins fold_left fst snd].
destruct (join_rows_nonempty c TableAccumulateBalancesSent "accumulate_balances_received.id = accumulate_balances_sent.id"
  {[TableAccumulateBalancesReceived := r]}) as (e1 & He1 & E1).
destruct (join_rows_nonempty c TableAccumulateBalancesTransactions
  "accumulate_balances_received.id = accumulate_balances_transactions.id" e1) as (e & He & E).
exists e. split.
- apply list_elem_of_In, in_flat_map. exists e1. split; [|by apply list_elem_of_In].
  apply in_flat_map. exists {[TableAccumulateBalancesReceived := r]}. split; [|by apply list_elem_of_In].
  apply in_map_iff. exists r. split; [done|by apply list_elem_of_In].
- unfold table_row. rewrite E, E1 by done. by rewrite lookup_singleton_eq.
Qed.
End answer.

(** * The balances the API answers *)
Section answered.
Context `{SqlEngine D} `{!SqlEngineOk D} `{!SqlClock D} `{!SqlClockOk D}.
Context `{!GoText} `{!AxiaIds} `{!AxiaFormatting} `{!SqlText} `{!AddressText}.
Context (shuffle : list OutputAddressAccumulate → list OutputAddressAccumulate).
Context (shuffleTxs : list OutputTxsAccumulate → list OutputTxsAccumulate).

(** C2. From any sound state, after any interleaving of the writers' transactions with the
  reads and the batches of the balance manager: when the reader of the accumulated
  balances answers, each balance of the answer is the ledger's, for the chain, the
  address and the asset it is answered under - received and sent are the sums of the
  outputs processed, the balance their difference, with the number of the unspent
  outputs and of the transactions; and an answer without a page leaves out no balance
  that was asked for. *)
Theorem balances_answered (w w' : world (D:=D)) p (d' : D) l :
(∀ l, shuffle l ≡ₚ l) → (∀ l, shuffleTxs l ≡ₚ l) →
world_sound w → keyed (rows (w_db w)) → rtc (accounting_step shuffle shuffleTxs) w w' →
(∀ r, r ∈ rows (w_db w') TableAccumulateBalancesReceived → colon_free (col_str r "chain_id")) →
ListAddresses true p (w_db w') = (d', Ok l) →
(∀ a asset info, a ∈ AL_Addresses l → AddressInfo_Assets a !! asset = Some info →
   ∃ id, key_id (AddressInfo_ChainID a, AddressInfo_Address a, asset) = Ok id ∧
     info = ledger_info (rows (w_db w')) asset id) ∧
(whole (LA_ListParams p) → ∀ r, r ∈ rows (w_db w') TableAccumulateBalancesReceived → asked p r →
   ∃ a, a ∈ AL_Addresses l ∧ AddressInfo_ChainID a = col_str r "chain_id" ∧
     AddressInfo_Address a = col_str r "address" ∧ is_Some (AddressInfo_Assets a !! col_str r "asset_id")).
Proof.
intros Hp Hpt Hw Hk Hsteps Hfree Hl.
pose proof (steps_sound shuffle shuffleTxs Hp Hpt _ _ (accounting_steps _ _ _ _ Hsteps) Hw) as Hs.
pose proof (accounting_keyed _ _ _ _ Hsteps Hk) as Hk'.
apply ListAddresses_ok in Hl as (c & l0 & Ec & Hrows & ->).
assert (accounts_sound (w_rows w') (w_txs w') c) as Hsc by (eapply accounts_same; [|exact Hs]; done).
assert (keyed c) as Hkc by (eapply keyed_same; [|exact Hk']; done).
destruct (address_rows_elem p c l0 Hrows) as [Hsound Hcomplete].
assert (∀ x, x ∈ l0 → ledger_row c x) as Hled.
{ intros x (e & He & ->)%Hsound. eapply accumulated_ledger; [done|done|apply apply_joins|exact He]. }
assert (∀ x, x ∈ l0 → colon_free (AA_ChainID x)) as Hcf.
{ intros x (r & id & Hr & _ & _ & ->)%Hled. apply Hfree. by rewrite <-(Ec _). }
assert (from_rows l0 (fold_left add_row (with_public_key c l0) ∅)) as Hfrom.
{ apply fold_add_row_from; [apply elem_with_public_key|]. intros k a Hka. by rewrite lookup_empty in Hka. }
split.
- intros a asset info Ha Hi. apply list_elem_of_fmap in Ha as ([k a'] & -> & Ha). apply elem_of_map_to_list in Ha.
  destruct (Hfrom _ _ Ha) as [(x & Hx & Ech & Ead & Ek) Has]. destruct (Has _ _ Hi) as (y & Hy & Ek' & Easset & Einfo).
  rewrite Ek in Ek'. apply colon_cut in Ek' as [E1 E2]; [|by apply Hcf..].
  destruct (Hled y Hy) as (r & id & Hr & Hid & Hkey & ->). cbn in *. exists id. subst. split.
  + rewrite Ech, Ead, E1, E2. exact Hkey.
  + by apply (ledger_info_same (w_rows w') (w_txs w')).
- intros Hwhole r Hr Hask. rewrite <-(Ec _) in Hr.
  destruct (joined_row c (ListAddressesParams_Apply p true accumulate_from) r (apply_joins p _) Hr) as (e & He & Er).
  destruct (asked_holds p e r Hwhole Er Hask) as (Hlim & Hoff & Hcl).
  pose proof (Hcomplete Hlim Hoff e He Hcl) as Hin. destruct (with_public_key_elem c l0 _ Hin) as [pk Hpk].
  destruct (fold_add_row_shown (with_public_key c l0) ∅ (accumulated e)) as (a & Ha & Hsome); [right; by exists pk|].
  exists a. destruct (Hfrom _ _ Ha) as [(x & Hx & Ech & Ead & Ek) _].
  apply colon_cut in Ek as [E1 E2]; [|by apply Hcf..].
  rewrite Ech, Ead, <-E1, <-E2. unfold accumulated in *. rewrite Er in *. cbn in *. split_and!; [|done..].
  apply list_elem_of_fmap. eexists (_, a). split; [done|]. by apply elem_of_map_to_list.
Qed.
End answered.

(** * A balance of forty *)
Lemma run_result {S A} (m : M S A) s x : is_ok (m s).2 = true →
  m s = ((m s).1, Ok (match (m s).2 with Ok a => a | Err _ => x end)).
Proof. by destruct (m s) as [? []]. Qed.

Module AnswerSample.
Import Accounting.Ledger ParamsFacts.ToyText CacheFacts.CacheSample.
Abbreviation d1 := (processOutputsPre same true processTypeOut (db [])).1.
Abbreviation d2 := (processOutputsPost work ["a1"] processTypeOut d1).1.
Abbreviation d3 := (processTransactionsPre (λ l, l) d2).1.
Abbreviation txs := (match (processTransactionsPre (λ l, l) d2).2 with Ok l => l | Err _ => [] end).
Definition tx_work : gmap string OutputTxsAccumulate :=
fold_left (λ m row, <[OutputTxsAccumulate_ID row := row]> m) txs ∅.
Abbreviation d4 := (processTransactionsPost tx_work (map OutputTxsAccumulate_ID txs) d3).1.
Definition p : ListAddressesParams :=
mkListAddressesParams (mkListParams ∅ None "" 0 0 true false false zero_time zero_time) [] None.
Abbreviation answer := (ListAddresses true p d4).
Abbreviation answered := (match answer.2 with Ok l => l | Err _ => mkAddressList None [] end).

Example forty : map (λ a, (AddressInfo_Address a, map_to_list (AddressInfo_Assets a))) (AL_Addresses answered) =
[("alice", [("AXC", mkAssetInfo "AXC" 1 1 "40" "40" "0")])].
Proof. vm_compute. reflexivity. Qed.

(** Before the transactions are counted, the answer is an error. *)
Example not_counted_yet : (ListAddresses true p d2).2 = Err ErrNullCount.
Proof. vm_compute. reflexivity. Qed.
End AnswerSample.
Import Accounting.Ledger ParamsFacts.ToyText CacheFacts.CacheSample AnswerSample.

Lemma sample_keyed : keyed (rows (db [])).
Proof.
  intros t r Ht Hr. exfalso. apply list_elem_of_In in Ht. simpl in Ht.
  destruct Ht as [<-|[<-|[<-|[]]]]; by apply elem_of_nil in Hr.
Qed.

Lemma sample_tx_drawn : tx_drawn (txs ++ []) tx_work.
Proof.
  rewrite app_nil_r. unfold tx_work. assert (∀ l m, (∀ x, x ∈ l → x ∈ txs) → tx_drawn txs m →
    tx_drawn txs (fold_left (λ m row, <[OutputTxsAccumulate_ID row := row]> m) l m)) as Hl.
  { induction l as [|x l IH]; intros m Hin Hm; [done|]. apply IH; [intros; apply Hin; by right|].
    apply tx_drawn_insert; [done|]. apply Hin. left. }
  apply Hl; [done|apply tx_drawn_empty].
Qed.

Lemma balances_answered_witness :
  ∃ a info id, a ∈ AL_Addresses answered ∧ AddressInfo_Assets a !! "AXC" = Some info ∧
    AssetInfo_Balance info = "40" ∧ key_id ("X", "alice", "AXC") = Ok id ∧ info = ledger_info (rows d4) "AXC" id.
Proof.
  pose (pool := add_rows (λ _, []) processTypeOut [read_row]).
  destruct (balances_answered same (λ l, l) (mkWorld (db []) (λ _, []) []) (mkWorld d4 pool (txs ++ [])) p
    answer.1 answered) as [Hsound _].
  - intros l; reflexivity.
  - intros l; reflexivity.
  - exact (db_accounts []).
  - exact sample_keyed.
  - assert (drawn pool processTypeOut work) as Hd.
    { apply (drawn_insert _ _ ∅); [apply drawn_empty|left]. }
    eapply rtc_l; [exact (accounting_manager _ _ _ _ (step_read same (λ l, l) true processTypeOut (mkWorld (db []) _ _) d1 [read_row] eq_refl))|].
    eapply rtc_l; [exact (accounting_manager _ _ _ _ (step_process same (λ l, l) processTypeOut work ["a1"] (mkWorld d1 _ _) Hd))|].
    eapply rtc_l; [refine (accounting_manager _ _ _ _ (step_read_txs same (λ l, l) (mkWorld d2 _ _) d3 txs _))|].
    { apply run_result. vm_compute. reflexivity. }
    eapply rtc_l; [exact (accounting_manager _ _ _ _
      (step_process_txs same (λ l, l) tx_work (map OutputTxsAccumulate_ID txs) (mkWorld d3 _ _) sample_tx_drawn))|].
    apply rtc_refl.
  - assert (Forall (λ r, contains ":" (col_str r "chain_id") = false) (rows d4 TableAccumulateBalancesReceived)) as Hf.
    { apply (bool_decide_unpack _). vm_compute. exact I. }
    intros r Hr. exact (proj1 (Forall_forall _ _) Hf r Hr).
  - apply run_result. vm_compute. reflexivity.
  - assert (∃ a info, a ∈ AL_Addresses answered ∧ AddressInfo_Assets a !! "AXC" = Some info ∧
      (AddressInfo_ChainID a, AddressInfo_Address a) = ("X", "alice") ∧ AssetInfo_Balance info = "40") as (a & info & Ha & Hi & Ek & Hb).
    { eexists _, _. split; [|split; [|split]]; [vm_compute; left|vm_compute; reflexivity..]. }
    destruct (Hsound a "AXC" info Ha Hi) as (id & Hid & Hinfo). exists a, info, id.
    injection Ek as Ech Ead. rewrite Ech, Ead in Hid. exact (conj Ha (conj Hi (conj Hb (conj Hid Hinfo)))).
Defined.
