(* ===== verification/ReaderCTrans.v ===== *)
(** services/indexes/axc/reader_list_ctrans.go: the transactions of the C chain with
    their traces. *)

From S2P Require Import Prelude Errors Sql DbModel Axia Models GoText CvmWriter Params Query Select ReaderTxs ReaderLists.

(** What is read of a [types.Transaction] of coreth. *)
Record EthTransaction := mkEthTransaction {
  Eth_Type : Z;
  Eth_Hash : string;                (* t.Hash().Hex() *)
  Eth_Nonce : Z;
  Eth_GasPrice : option Z;
  Eth_Gas : Z;
  Eth_GasFeeCap : option Z;
  Eth_GasTipCap : option Z;
  Eth_To : option string;           (* t.To().Hex() *)
  Eth_Value : option Z;
  Eth_Data : string;
  Eth_RawSignatureValues : option Z * option Z * option Z;
}.

(** What is read of the header of a block. *)
Record EthHeader := mkEthHeader {
  Header_GasUsed : Z;
  Header_GasLimit : Z;
  Header_Nonce : Z;
  Header_Hash : string;
}.

(** * models/collections.go *)
Record CvmTransactionsTxDataTrace := mkTxDataTrace {
  TT_Hash : option string;
  TT_Idx : option Z;
  TT_CallType : string;
  TT_ToAddr : string;
  TT_FromAddr : string;
  TT_Type : string;
  TT_GasUsed : string;
  TT_Gas : string;
  TT_Input : option string;
  TT_Output : option string;
  TT_Value : string;
  TT_CreatedContractAddressHash : option string;
  TT_Init : option string;
  TT_CreatedContractCode : option string;
  TT_Error : option string;
  TT_RevertReason : option string;
  TT_RevertReasonUnpacked : option string;
  TT_TraceAddress : list Z;
}.

Record CTransactionData := mkCTransactionData {
  CT_Type : Z;
  CT_Block : string;
  CT_Hash : string;
  CT_CreatedAt : Z;
  CT_Nonce : Z;
  CT_GasPrice : option string;
  CT_GasFeeCap : option string;
  CT_GasTipCap : option string;
  CT_GasLimit : Z;
  CT_BlockGasUsed : Z;
  CT_BlockGasLimit : Z;
  CT_BlockNonce : Z;
  CT_BlockHash : string;
  CT_Recipient : option string;
  CT_Amount : option string;
  CT_Payload : option string;
  CT_ToAddr : string;
  CT_FromAddr : string;
  CT_V : option string;
  CT_R : option string;
  CT_S : option string;
  CT_Traces : list (option CvmTransactionsTxDataTrace);
  CT_TracesMax : Z;
  CT_TracesMap : gmap Z CvmTransactionsTxDataTrace;
}.

Record CTransactionList := mkCTransactionList {
  CL_Transactions : list CTransactionData;
  CL_StartTime : Z;
  CL_EndTime : Z;
}.

(** The decoders of coreth, of JSON and of the reasons of a revert. *)
Class CTransJson := {
  eth_UnmarshalJSON : string → result EthTransaction;
  header_json_Unmarshal : string → result (EthHeader * list string);   (* of a block: its header, its TxsBytes *)
  json_trace_model : string → result CvmTransactionsTxDataTrace;
  UnpackRevert : string → result string;
}.

(** The header of a block. *)
Definition header_Unmarshal `{!CTransJson} (data : string) : result EthHeader :=
  '(h, _) ← modelsc_Unmarshal header_json_Unmarshal eth_UnmarshalJSON data; Ok h.

(** * toCTransactionData *)
Definition big_text (z : option Z) : option string := Z_to_string <$> z.

Definition toCTransactionData (t : EthTransaction) : CTransactionData :=
  let '(v, s, r) := Eth_RawSignatureValues t in
  {|
    CT_Type := Eth_Type t;
    CT_Block := "";
    CT_Hash := with_0x (Eth_Hash t);
    CT_CreatedAt := zero_time;
    CT_Nonce := Eth_Nonce t;
    CT_GasPrice := big_text (Eth_GasPrice t);
    CT_GasFeeCap := big_text (Eth_GasFeeCap t);
    CT_GasTipCap := big_text (Eth_GasTipCap t);
    CT_GasLimit := Eth_Gas t;
    CT_BlockGasUsed := 0;
    CT_BlockGasLimit := 0;
    CT_BlockNonce := 0;
    CT_BlockHash := "";
    CT_Recipient := match Eth_To t with Some to => Some (CommonAddressHexRepair (Some to)) | None => None end;
    CT_Amount := big_text (Eth_Value t);
    CT_Payload := if String.eqb (Eth_Data t) "" then None else Some ("0x" +:+ hex_EncodeToString (Eth_Data t));
    CT_ToAddr := "";
    CT_FromAddr := "";
    CT_V := big_text v;
    CT_R := big_text r;
    CT_S := big_text s;
    CT_Traces := [];
    CT_TracesMax := 0;
    CT_TracesMap := ∅;
  |}.

(** [ctr.Block = txdata.Block; ctr.CreatedAt = txdata.CreatedAt] *)
Definition of_txdata (txdata : CvmTransactionsTxdata) (t : CTransactionData) : CTransactionData := {|
  CT_Type := CT_Type t;
  CT_Block := CvmTransactionsTxdata_Block txdata;
  CT_Hash := CT_Hash t;
  CT_CreatedAt := CvmTransactionsTxdata_CreatedAt txdata;
  CT_Nonce := CT_Nonce t;
  CT_GasPrice := CT_GasPrice t;
  CT_GasFeeCap := CT_GasFeeCap t;
  CT_GasTipCap := CT_GasTipCap t;
  CT_GasLimit := CT_GasLimit t;
  CT_BlockGasUsed := CT_BlockGasUsed t;
  CT_BlockGasLimit := CT_BlockGasLimit t;
  CT_BlockNonce := CT_BlockNonce t;
  CT_BlockHash := CT_BlockHash t;
  CT_Recipient := CT_Recipient t;
  CT_Amount := CT_Amount t;
  CT_Payload := CT_Payload t;
  CT_ToAddr := CT_ToAddr t;
  CT_FromAddr := CT_FromAddr t;
  CT_V := CT_V t;
  CT_R := CT_R t;
  CT_S := CT_S t;
  CT_Traces := CT_Traces t;
  CT_TracesMax := CT_TracesMax t;
  CT_TracesMap := CT_TracesMap t;
|}.

(** A trace is put in the map of its transaction; the first one gives the addresses. *)
Definition with_trace (idx : Z) (m : CvmTransactionsTxDataTrace) (to from : string) (t : CTransactionData)
    : CTransactionData := {|
  CT_Type := CT_Type t;
  CT_Block := CT_Block t;
  CT_Hash := CT_Hash t;
  CT_CreatedAt := CT_CreatedAt t;
  CT_Nonce := CT_Nonce t;
  CT_GasPrice := CT_GasPrice t;
  CT_GasFeeCap := CT_GasFeeCap t;
  CT_GasTipCap := CT_GasTipCap t;
  CT_GasLimit := CT_GasLimit t;
  CT_BlockGasUsed := CT_BlockGasUsed t;
  CT_BlockGasLimit := CT_BlockGasLimit t;
  CT_BlockNonce := CT_BlockNonce t;
  CT_BlockHash := CT_BlockHash t;
  CT_Recipient := CT_Recipient t;
  CT_Amount := CT_Amount t;
  CT_Payload := CT_Payload t;
  CT_ToAddr := if (idx =? 0)%Z then to else CT_ToAddr t;
  CT_FromAddr := if (idx =? 0)%Z then from else CT_FromAddr t;
  CT_V := CT_V t;
  CT_R := CT_R t;
  CT_S := CT_S t;
  CT_Traces := CT_Traces t;
  CT_TracesMax := if (CT_TracesMax t <? u32_add idx 1)%Z then u32_add idx 1 else CT_TracesMax t;
  CT_TracesMap := <[idx := m]> (CT_TracesMap t);
|}.

(** * handleDressTraces *)

(** [big.Int.SetString(v, 16)] *)
Definition hex_value (c : Ascii.ascii) : option Z :=
  let n := Z.of_N (Ascii.N_of_ascii c) in
  if ((48 <=? n) && (n <=? 57))%Z then Some (n - 48)%Z
  else if ((97 <=? n) && (n <=? 102))%Z then Some (n - 87)%Z
  else if ((65 <=? n) && (n <=? 70))%Z then Some (n - 55)%Z
  else None.
Fixpoint hex_digits (acc : Z) (s : string) : option Z :=
  match s with
  | EmptyString => Some acc
  | String.String c s' => d ← hex_value c; hex_digits (acc * 16 + d) s'
  end.
Definition hex_SetString (s : string) : option Z :=
  let '(neg, t) := split_sign s in
  match t with
  | EmptyString => None
  | _ => n ← hex_digits 0 t; Some (if neg then - n else n)%Z
  end.

Definition toDecimal (v : string) : string :=
  match hex_SetString (TrimPrefix v "0x") with Some n => Z_to_string n | None => v end.

Definition nilEmpty (v : option string) (def : string) : option string :=
  match v with Some s => if String.eqb s def then None else v | None => None end.

(** [hex.DecodeString] *)
Fixpoint hex_bytes (s : string) : option string :=
  match s with
  | EmptyString => Some EmptyString
  | String.String a (String.String b s') =>
      x ← hex_value a; y ← hex_value b; t ← hex_bytes s';
      Some (String.String (Ascii.ascii_of_N (Z.to_N (x * 16 + y))) t)
  | _ => None
  end.

(** The reason of a revert, and its text when it can be unpacked. *)
Definition revert_reason `{!CTransJson} (reason unpacked : option string) : option string * option string :=
  match nilEmpty reason "reverted 0x" with
  | None => (None, unpacked)
  | Some revVal =>
      if has_prefix "reverted 0x" revVal then
        let rest := String.substring 11 (String.length revVal - 11) revVal in
        (Some ("0x" +:+ rest),
         match hex_bytes rest with
         | Some b => match UnpackRevert b with Ok t => Some t | Err _ => unpacked end
         | None => unpacked
         end)
      else (Some revVal, unpacked)
  end.

Definition clean_trace `{!CTransJson} (m : CvmTransactionsTxDataTrace) : CvmTransactionsTxDataTrace :=
  let '(reason, unpacked) := revert_reason (TT_RevertReason m) (TT_RevertReasonUnpacked m) in
  {|
    TT_Hash := TT_Hash m;
    TT_Idx := TT_Idx m;
    TT_CallType := TT_CallType m;
    TT_ToAddr := TT_ToAddr m;
    TT_FromAddr := TT_FromAddr m;
    TT_Type := TT_Type m;
    TT_GasUsed := toDecimal (TT_GasUsed m);
    TT_Gas := toDecimal (TT_Gas m);
    TT_Input := nilEmpty (TT_Input m) "0x";
    TT_Output := nilEmpty (TT_Output m) "0x";
    TT_Value := toDecimal (TT_Value m);
    TT_CreatedContractAddressHash := nilEmpty (TT_CreatedContractAddressHash m) "";
    TT_Init := nilEmpty (TT_Init m) "";
    TT_CreatedContractCode := nilEmpty (TT_CreatedContractCode m) "";
    TT_Error := nilEmpty (TT_Error m) "";
    TT_RevertReason := reason;
    TT_RevertReasonUnpacked := unpacked;
    TT_TraceAddress := TT_TraceAddress m;
  |}.

(** * The queries *)
Section ctrans.
Context `{SqlEngine D} `{!Dbr} `{!AxiaIds} `{!SqlText} `{!CTransJson}.

(** [createdatefilter] *)
Definition createdatefilter (p : ListCTransactionsParams) (r : row) : bool := in_period (LC_ListParams p) r.

(** The bounds of [blockfilter] and [blockrcptfilter], on a row of
  [cvm_transactions_txdata]. *)
Definition block_bounds (p : ListCTransactionsParams) (r : row) : bool :=
match LC_BlockStart p with Some n => negb (is_null r "block") && (n <=? col_num r "block")%Z | None => true end &&
match LC_BlockEnd p with Some n => negb (is_null r "block") && (col_num r "block" <? n)%Z | None => true end.

(** The hashes of the traces whose column is one of the addresses. *)
Definition trace_hashes (p : ListCTransactionsParams) (col : string) (addrs : list string) (c : content)
  : list (option value) :=
map (λ t, t !! "hash")
  (List.filter (λ t, in_texts col addrs t && createdatefilter p t &&
     match LC_BlockStart p, LC_BlockEnd p with
     | None, None => true
     | _, _ => existsb (λ d, same_col t "hash" d "hash" && block_bounds p d) (c TableCvmTransactionsTxdata)
     end) (c TableCvmTransactionsTxdataTrace)).

Definition rcpt_hashes (p : ListCTransactionsParams) (c : content) : list (option value) :=
map (λ d, d !! "hash")
  (List.filter (λ d, in_texts "rcpt" (LC_CAddresses p) d && createdatefilter p d && block_bounds p d)
     (c TableCvmTransactionsTxdata)).

Definition hash_in (l : list (option value)) (r : row) : bool :=
negb (is_null r "hash") && existsb (λ h, bool_decide (h = r !! "hash")) l.

Definition listCTransFilter (p : ListCTransactionsParams) (c : content) (r : row) : bool :=
((length (LC_CAddressesTo p) =? 0) || hash_in (trace_hashes p "to_addr" (LC_CAddressesTo p) c) r) &&
((length (LC_CAddressesFrom p) =? 0) || hash_in (trace_hashes p "from_addr" (LC_CAddressesFrom p) c) r) &&
((length (LC_CAddresses p) =? 0) ||
   hash_in (trace_hashes p "to_addr" (LC_CAddresses p) c ++ trace_hashes p "from_addr" (LC_CAddresses p) c ++
            rcpt_hashes p c) r) &&
block_bounds p r.

Definition ctrans_rows (p : ListCTransactionsParams) (c : content) : list CvmTransactionsTxdata :=
map load_CvmTransactionsTxdata
  (limit_offset (ListCTransactionsParams_Apply p select_from)
    (order_by (λ r r', (as_time (r' !! "created_at") <=? as_time (r !! "created_at"))%Z)
      (List.filter (λ r, listCTransFilter p c r &&
                         ((length (LC_Hashes p) =? 0) || in_texts "hash" (LC_Hashes p) r))
         (c TableCvmTransactionsTxdata)))).

(** The traces of the transactions. *)
Definition trace_rows (hashes : list string) (c : content) : list CvmTransactionsTxdataTrace :=
map load_CvmTransactionsTxdataTrace (List.filter (in_texts "hash" hashes) (c TableCvmTransactionsTxdataTrace)).

(** The list of the transactions, and the last of each hash by its place in it. *)
Definition dress_trace (hashes : gmap string nat) (l : list CTransactionData) (svc : CvmTransactionsTxdataTrace)
  : result (list CTransactionData) :=
m ← json_trace_model (default "" (CvmTransactionsTxdataTrace_Serialization svc));
match hashes !! CvmTransactionsTxdataTrace_Hash svc with
| Some n =>
    Ok (alter (with_trace (CvmTransactionsTxdataTrace_Idx svc) (clean_trace m) (TT_ToAddr m) (TT_FromAddr m)) n l)
| None => Ok l   (* not reached: the traces are asked for by these hashes *)
end.

Fixpoint dress_traces (hashes : gmap string nat) (l : list CTransactionData) (traces : list CvmTransactionsTxdataTrace)
  : result (list CTransactionData) :=
match traces with
| [] => Ok l
| svc :: rest => l' ← dress_trace hashes l svc; dress_traces hashes l' rest
end.

Definition hash_index (l : list CTransactionData) : gmap string nat :=
list_to_map (reverse (imap (λ n t, (CT_Hash t, n)) l)).

Definition handleDressTraces (l : list CTransactionData) : M D (list CTransactionData) :=
if length l =? 0 then mret l
else
  traces ← select (trace_rows (map CT_Hash l));
  lift_result (dress_traces (hash_index l) l traces).

(** The headers of the blocks, by number. *)
Definition cblock_serializations (blocks : list string) (c : content) : list (string * string) :=
map (λ r, (as_str (r !! "block"), as_serialization (r !! "serialization")))
  (List.filter (λ r, existsb (λ b, matches [CEq "block" (literal b)] r) blocks) (c TableCvmTransactions)).

Fixpoint decode_cblocks (m : gmap string EthHeader) (l : list (string * string)) : result (gmap string EthHeader) :=
match l with
| [] => Ok m
| (block, serialization) :: rest =>
    h ← header_Unmarshal serialization;
    decode_cblocks (<[block := h]> m) rest
end.

Definition fetchAndDecodeCBlocks (blocks : list string) : M D (gmap string EthHeader) :=
if length blocks =? 0 then mret ∅
else
  cvmTxs ← select (cblock_serializations blocks);
  lift_result (decode_cblocks ∅ cvmTxs).

(** A trace without its index. *)
Definition without_idx (m : CvmTransactionsTxDataTrace) : CvmTransactionsTxDataTrace :=
mkTxDataTrace (TT_Hash m) None (TT_CallType m) (TT_ToAddr m) (TT_FromAddr m) (TT_Type m) (TT_GasUsed m)
  (TT_Gas m) (TT_Input m) (TT_Output m) (TT_Value m) (TT_CreatedContractAddressHash m) (TT_Init m)
  (TT_CreatedContractCode m) (TT_Error m) (TT_RevertReason m) (TT_RevertReasonUnpacked m) (TT_TraceAddress m).

(** The block and the list of the traces of a transaction: a trace that is not stored
  leaves its place empty. *)
Definition finish_ctrans (cblocksMap : gmap string EthHeader) (t : CTransactionData) : CTransactionData :=
let h := cblocksMap !! CT_Block t in
let of_header f (d : Z) := match h with Some h => f h | None => d end in
{|
  CT_Type := CT_Type t;
  CT_Block := CT_Block t;
  CT_Hash := CT_Hash t;
  CT_CreatedAt := CT_CreatedAt t;
  CT_Nonce := CT_Nonce t;
  CT_GasPrice := CT_GasPrice t;
  CT_GasFeeCap := CT_GasFeeCap t;
  CT_GasTipCap := CT_GasTipCap t;
  CT_GasLimit := CT_GasLimit t;
  CT_BlockGasUsed := of_header Header_GasUsed (CT_BlockGasUsed t);
  CT_BlockGasLimit := of_header Header_GasLimit (CT_BlockGasLimit t);
  CT_BlockNonce := of_header Header_Nonce (CT_BlockNonce t);
  CT_BlockHash := match h with Some h => Header_Hash h | None => CT_BlockHash t end;
  CT_Recipient := CT_Recipient t;
  CT_Amount := CT_Amount t;
  CT_Payload := CT_Payload t;
  CT_ToAddr := CT_ToAddr t;
  CT_FromAddr := CT_FromAddr t;
  CT_V := CT_V t;
  CT_R := CT_R t;
  CT_S := CT_S t;
  CT_Traces :=
    if (CT_TracesMax t =? 0)%Z then CT_Traces t
    else map (λ n, without_idx <$> CT_TracesMap t !! Z.of_nat n) (seq 0 (Z.to_nat (CT_TracesMax t)));
  CT_TracesMax := CT_TracesMax t;
  CT_TracesMap := CT_TracesMap t;
|}.

(** The blocks of the rows, each once. *)
Definition blocks_of (l : list CvmTransactionsTxdata) : list string :=
fold_left (λ bs d, if existsb (String.eqb (CvmTransactionsTxdata_Block d)) bs then bs
                   else bs ++ [CvmTransactionsTxdata_Block d]) l [].

Definition ListCTransactions (p : ListCTransactionsParams) : M D CTransactionList :=
dataList ← select (ctrans_rows p);
trItems ← lift_result (mapM (λ txdata,
  tr ← eth_UnmarshalJSON (default "" (CvmTransactionsTxdata_Serialization txdata));
  Ok (of_txdata txdata (toCTransactionData tr))) dataList);
cblocksMap ← fetchAndDecodeCBlocks (blocks_of dataList);
trItems' ← handleDressTraces trItems;
(* the items that another one of their hash hides in the map are left as they are *)
let last := hash_index trItems in
mret {|
  CL_Transactions :=
    imap (λ n t, if bool_decide (last !! CT_Hash t = Some n) then finish_ctrans cblocksMap t else t) trItems';
  CL_StartTime := LP_StartTime (LC_ListParams p);
  CL_EndTime := LP_EndTime (LC_ListParams p);
|}.
End ctrans.
