(* ===== verification/ReaderAggregator.v ===== *)
(** services/indexes/axc/reader_aggregate_processor.go: the background tasks that keep
    the histograms and the counts of the reader in memory.

    A task is a loop on a ticker: [tick] is what one of its ticks does to its variables.
    A failure is logged, which leaves them as they are.  The task of the aggregates by asset
    comes last. *)

From S2P Require Import Prelude Errors Sql Axia DbModel Models Utils GoText Params Query ReaderAggregates ReaderModels ReaderTxs ReaderDress Select ReaderLists.

Record ChainCounts := mkChainCounts { CC_ChainID : string; CC_Total : string }.

(** The [GenesisContainer] and the chains of the configuration, as the tasks use them. *)
Record AggregateControl := mkAggregateControl {
  sc_SwapChainID : ID;
  sc_AxcAssetID : ID;
  sc_Chains : list string;
}.

(** The histograms by tag, and when the task of each runs next. *)
Record AggregateTask := mkAggregateTask { next_run : Z; histogram : option AggregatesHistogram }.

(** The list of the first transactions, and when it is read next. *)
Record TxAscTask := mkTxAscTask { timeaggr : Z; txAsc : ReaderAggregateTxList }.

Section aggregator.
Context `{SqlEngine D} `{!GoText} `{!AxiaIds} `{!AxiaFormatting}.
Context (sc : AggregateControl).

(** [processAggregate] : the histogram that ends at [runTm]; [now] is [time.Now()]. *)
Definition aggregate_params (now runTm deltaTime : Z) (intervalSize : string) : result AggregateParams :=
p ← AggregateParams_ForValues now 1 {[ KeyIntervalSize := [intervalSize] ]};
let lp := AG_ListParams p in
Ok (mkAggregateParams
      (mkListParams (LP_Values lp) (LP_ID lp) (LP_Query lp) (LP_Limit lp) (LP_Offset lp) (LP_DisableCounting lp)
         (LP_StartTimeProvided lp) (LP_EndTimeProvided lp) (runTm + deltaTime) runTm)
      (AG_ChainIDs p ++ [ID_String (sc_SwapChainID sc)]) (AG_AssetID p) (AG_IntervalSize p)).

Definition processAggregate (now runTm : Z) (intervalSize : string) (deltaTime : Z) : M D AggregatesHistogram :=
p ← lift_result (aggregate_params now runTm deltaTime intervalSize);
Aggregate p.

(** [runAgg] : the next run is one period later, when this one succeeds. *)
Definition runAgg (intervalSize : string) (deltaTime period now : Z) (t : AggregateTask) : M D AggregateTask :=
agg ← processAggregate now (next_run t) intervalSize deltaTime;
mret (mkAggregateTask (time_Truncate (next_run t + period) period) (Some agg)).

(** A tick of the loop at [tnow]. *)
Definition tick (intervalSize : string) (deltaTime period tnow : Z) (t : AggregateTask) (d : D) : D * AggregateTask :=
if (next_run t <? tnow)%Z then
  match runAgg intervalSize deltaTime period tnow t d with
  | (d', Ok t') => (d', t')
  | (d', Err _) => (d', t)
  end
else (d, t).

(** The start of the loop: a first run for the current time. *)
Definition start (intervalSize : string) (deltaTime period now : Z) (d : D) : D * AggregateTask :=
let t := mkAggregateTask (time_Truncate (time_Truncate now Minute) period) None in
match runAgg intervalSize deltaTime period now t d with
| (d', Ok t') => (d', t')
| (d', Err _) => (d', t)
end.

Definition aggregateProcessor1m := tick "1s" (- Minute) Minute.
Definition aggregateProcessor1h := tick "5m" (- Hour) (5 * Minute).
Definition aggregateProcessor24h := tick "hour" (- (24 * Hour)) (15 * Minute).
Definition aggregateProcessor7d := tick "day" (- (7 * 24 * Hour)) (30 * Minute).
Definition aggregateProcessor30d := tick "day" (- (30 * 24 * Hour)) (30 * Minute).

(** [CacheAggregates] *)
Definition CacheAggregates (a1m a1h a24h a7d a30d : AggregateTask) (tag : string) : option AggregatesHistogram :=
if String.eqb tag "1m" then histogram a1m
else if String.eqb tag "1h" then histogram a1h
else if String.eqb tag "24h" then histogram a24h
else if String.eqb tag "7d" then histogram a7d
else if String.eqb tag "30d" then histogram a30d
else None.

(** [addressCounts] and [txCounts] : how many rows each chain has, for the chains of
  the configuration; the old counts stay when the query fails. *)
Definition chain_counts (t : string) (c : content) : list ChainCounts :=
map (λ k, mkChainCounts k (Z_to_string (Z.of_nat (length
            (List.filter (λ r, String.eqb (col_str r "chain_id") k) (c t))))))
  (remove_dups (map (λ r, col_str r "chain_id") (c t))).

Definition counts (t : string) (old : list ChainCounts) : M D (list ChainCounts) := λ d,
match select (chain_counts t) d with
| (d', Ok l) => (d', Ok (List.filter (λ a, existsb (String.eqb (CC_ChainID a)) (sc_Chains sc)) l))
| (d', Err _) => (d', Ok old)
end.
Definition addressCounts : list ChainCounts → M D (list ChainCounts) := counts TableAddressChain.
Definition txCounts : list ChainCounts → M D (list ChainCounts) := counts TableTransactions.

(** The loop of [processorTxAscFetch] : the list of the first transactions, every ten
  minutes. *)
Definition txasc_run `{!Dbr} (t : TxAscTask) (d : D) : D * TxAscTask :=
match processorTxAscFetch (sc_AxcAssetID sc) d with
| (d', Ok l) =>
    (d', mkTxAscTask (if IsProcessed l then time_Truncate (timeaggr t + 10 * Minute) (10 * Minute) else timeaggr t) l)
| (d', Err _) => (d', t)
end.

Definition txasc_tick `{!Dbr} (tnow : Z) (t : TxAscTask) (d : D) : D * TxAscTask :=
if (timeaggr t <? tnow)%Z then txasc_run t d else (d, t).
End aggregator.

(** * services/indexes/axc/reader_aggregate_processor.go: [aggregateProcessorAssetAggr], the
    task that keeps, in memory, the aggregates of the last day for each asset that moved,
    the assets, and the counts of the chains; with the accessors of what it keeps.

    A Go map is a finite map; its order is that of the library. *)

Record AssetAggregate := mkAssetAggregate {
  AssetAggregate_Asset : ID;
  AssetAggregate_Aggregate : AggregatesHistogram;
}.

(** What the task keeps: the fields of [ReaderAggregate] it writes, and [timeaggr]. *)
Record AssetAggrTask := mkAssetAggrTask {
  aa_timeaggr : Z;
  addressCountl : list ChainCounts;
  txCountl : list ChainCounts;
  assetm : gmap ID Asset;
  assetl : list Asset;
  aggr : gmap ID AggregatesHistogram;
  aggrl : list AssetAggregate;
}.

(** The copies the API gets. *)
Definition CacheAddressCounts (t : AssetAggrTask) : list ChainCounts := addressCountl t.
Definition CacheTxCounts (t : AssetAggrTask) : list ChainCounts := txCountl t.
Definition CacheAssets (t : AssetAggrTask) : list Asset := assetl t.
Definition CacheAssetAggregates (t : AssetAggrTask) : list AssetAggregate := aggrl t.

Section aggregates.
Context `{SqlEngine D} `{!GoText} `{!AxiaIds} `{!AxiaFormatting} `{!SqlText}.
Context (sc : AggregateControl).

(** ** fetchAssets *)

(** The assets, but the network's own, with outputs after a time, the ones in most
transactions first. *)
Definition recent_output (since : Z) (r : row) : bool :=
(since <? as_time (r !! "created_at"))%Z && matches [CNe "asset_id" (VStr (ID_String (sc_AxcAssetID sc)))] r.

Definition recent_assets (since : Z) (c : content) : list string :=
let l := List.filter (recent_output since) (c TableOutputs) in
let tamt a := count_distinct "transaction_id" (List.filter (λ r, String.eqb (col_str r "asset_id") a) l) in
order_by (λ a b, (tamt b <=? tamt a)%Z) (remove_dups (map (λ r, col_str r "asset_id") l)).

Definition newest_assets (c : content) : list string :=
map (λ r, col_str r "id")
(limit_rows PaginationMaxLimit
 (order_by (λ x y, (as_time (y !! "created_at") <=? as_time (x !! "created_at"))%Z) (c TableAssets))).

Definition fetchAssets (runTm runDuration : Z) : M D (list string * list string) :=
assetsFound ← select (recent_assets (runTm - runDuration));
addlAssetsFound ← select newest_assets;
mret (ID_String (sc_AxcAssetID sc) :: assetsFound, addlAssetsFound).

(** ** aggregateProcessorAssetAggr *)
Definition runDuration : Z := 24 * Hour.

(** The parameters of the aggregate of an asset. *)
Definition asset_params (now runTm : Z) (id : ID) : result AggregateParams :=
p ← AggregateParams_ForValues now 1 ∅;
let lp := AG_ListParams p in
Ok (mkAggregateParams
  (mkListParams (LP_Values lp) (LP_ID lp) (LP_Query lp) (LP_Limit lp) (LP_Offset lp) (LP_DisableCounting lp)
     (LP_StartTimeProvided lp) (LP_EndTimeProvided lp) (runTm - runDuration) runTm)
  (AG_ChainIDs p ++ [ID_String (sc_SwapChainID sc)]) (Some id) (AG_IntervalSize p)).

Definition list_asset (id : ID) : M D (list Asset) :=
lassets ← ListAssets (mkListAssetsParams (mkListParams ∅ (Some id) "" 0 0 true false false zero_time zero_time) "" "");
mret (SL_Assets lassets).

(** [for _, lasset := range lassets.Assets { assetMap[id] = lasset }] *)
Definition add_assets (id : ID) (l : list Asset) (m : gmap ID Asset) : gmap ID Asset :=
fold_left (λ m lasset, <[id := lasset]> m) l m.

(** The three variables of the loops. *)
Definition AggrVars : Type := gmap ID AggregatesHistogram * gmap ID Asset * list AssetAggregate.

Definition aggregate_asset (now runTm : Z) (asset : string) (v : AggrVars) : M D AggrVars :=
let '(aggrMap, assetMap, aggrList) := v in
_ ← lift_result (AggregateParams_ForValues now 1 ∅);
id ← lift_result (ids_FromString asset);
p ← lift_result (asset_params now runTm id);
aggr ← Aggregate p;
lassets ← list_asset id;
mret (<[id := aggr]> aggrMap, add_assets id lassets assetMap, aggrList ++ [mkAssetAggregate id aggr]).

Fixpoint aggregate_assets (now runTm : Z) (assets : list string) (v : AggrVars) : M D AggrVars :=
match assets with
| [] => mret v
| asset :: rest => v' ← aggregate_asset now runTm asset v; aggregate_assets now runTm rest v'
end.

(** The assets that were not met yet. *)
Fixpoint additional_assets (addlAssetsFound : list string) (assetMap : gmap ID Asset) : M D (gmap ID Asset) :=
match addlAssetsFound with
| [] => mret assetMap
| asset :: rest =>
id ← lift_result (ids_FromString asset);
match assetMap !! id with
| Some _ => additional_assets rest assetMap
| None => lassets ← list_asset id; additional_assets rest (add_assets id lassets assetMap)
end
end.

(** [sort.Slice], by decreasing count. *)
Definition aggregate_count (a : AssetAggregate) : Z :=
Agg_TransactionCount (AH_Aggregates (AssetAggregate_Aggregate a)).
Definition sort_aggregates : list AssetAggregate → list AssetAggregate :=
order_by (λ a b, (aggregate_count b <=? aggregate_count a)%Z).

(** The part of [runAgg] that an error ends. *)
Definition collect_aggregates (now runTm : Z) : M D AggrVars :=
'(assets, addlAssetsFound) ← fetchAssets runTm runDuration;
'(aggrMap, assetMap, aggrList) ← aggregate_assets now runTm assets (∅, ∅, []);
assetMap ← additional_assets addlAssetsFound assetMap;
mret (aggrMap, assetMap, sort_aggregates aggrList).

(** [r.addressCounts] and [r.txCounts] keep their result whatever comes next. *)
Definition counts_of (m : M D (list ChainCounts)) (old : list ChainCounts) (d : D) : D * list ChainCounts :=
match m d with
| (d', Ok l) => (d', l)
| (d', Err _) => (d', old)
end.

Definition runAgg_assets (now : Z) (t : AssetAggrTask) (d : D) : D * AssetAggrTask :=
let '(d, addrs) := counts_of (addressCounts sc (addressCountl t)) (addressCountl t) d in
let '(d, txs) := counts_of (txCounts sc (txCountl t)) (txCountl t) d in
match collect_aggregates now (aa_timeaggr t) d with
| (d, Err _) => (d, mkAssetAggrTask (aa_timeaggr t) addrs txs (assetm t) (assetl t) (aggr t) (aggrl t))
| (d, Ok (aggrMap, assetMap, aggrList)) =>
(d, mkAssetAggrTask (time_Truncate (aa_timeaggr t + 5 * Minute) (5 * Minute)) addrs txs
      assetMap (map snd (map_to_list assetMap)) aggrMap aggrList)
end.

(** A tick of the loop at [tnow], and the start of the task. *)
Definition asset_tick (tnow : Z) (t : AssetAggrTask) (d : D) : D * AssetAggrTask :=
if (aa_timeaggr t <? tnow)%Z then runAgg_assets tnow t d else (d, t).

Definition asset_start (now : Z) (d : D) : D * AssetAggrTask :=
runAgg_assets now (mkAssetAggrTask (time_Truncate (time_Truncate now Minute) (5 * Minute)) [] [] ∅ [] ∅ []) d.
End aggregates.
