(* ===== verification/Rewards.v ===== *)
(** services/rewards/rewards_handler.go: the outputs that a stake pays as rewards, read
    from the platform API once the block that decides the stake is indexed. *)

From S2P Require Import Prelude Errors Sql MemDb Axia DbModel Persist Prog Models AxcWriter Writer Indexing Balance WriterOps Processors GoText.

(** [axiaAxc.UTXO], as the handler uses it. *)
Record RewardUTXO := mkRewardUTXO {
  utxo_TxID : ID;
  utxo_OutputIndex : Z;
  utxo_AssetID : ID;
  utxo_Out : State;
}.

(** The API of the node and the codec of the platform chain. *)
Class RewardsClient := {
  GetRewardUTXOs : ID → result (list string);
  UTXO_Unmarshal : string → result RewardUTXO;
}.

(** [RewardTx] *)
Record RewardTx := mkRewardTx {
  RT_ID : string;
  RT_Txid : string;
  RT_Type : Z;
  RT_CreatedAt : Z;
}.

(** The rewards not processed that are more than three seconds old, each with the
    blocks that follow the block of the reward. *)
Definition reward_due (now : Z) (r : row) : bool :=
  Z.eqb (as_num (r !! "processed")) 0 && (as_time (r !! "created_at") <? now - 3 * Second)%Z.

Definition reward_blocks (blocks : list row) (r : row) : list row :=
  List.filter (λ b, String.eqb (as_str (r !! "block_id")) (as_str (b !! "parent_id"))) blocks.

Definition rewardsTxs (now : Z) (c : content) : list RewardTx :=
  flat_map (λ r, map (λ b, mkRewardTx (as_str (r !! "id")) (as_str (r !! "txid"))
                             (as_num (b !! "type")) (as_time (r !! "created_at")))
                   (reward_blocks (c TablePvmBlocks) r))
    (List.filter (reward_due now) (c TableRewards)).

Definition ErrNoRewards (txid : string) : error := "no rewards " +:+ txid.

(** [createdAt.Unix()] and [createdAt.Nanosecond()] *)
Definition reward_ctx (createdAt : Z) : ConsumerCtx :=
  NewConsumerContext (createdAt / Second) (createdAt mod Second).

Definition reward_update (id : string) : Rewards := mkRewards id "" "" false 0 1.

Section rewards.
Context `{!AxiaIds} `{!AxiaMath} `{!AxiaCrypto} `{!Cfg} `{!RewardsClient}.
Context (Propagate : error → string → error) (clock : nat → Z).
Context `{SqlEngine D} `{!SqlClock D}.

(** [axc.NewWriter(r.cid.String(), r.axcAssetID)], with [r.cid] the empty id. *)
Definition rewards_writer (axcAssetID : ID) : axc.Writer := axc.NewWriter (ID_String ids_Empty) axcAssetID.

(** The rows of one output. *)
Definition index_utxo (w : axc.Writer) (createdAt : Z) (utxo : RewardUTXO) : Prog (Z * Z) :=
axc.ProcessStateOut Propagate w (reward_ctx createdAt) (utxo_Out utxo) (utxo_TxID utxo)
  (utxo_OutputIndex utxo) (utxo_AssetID utxo) 0 0 (ID_String ids_Empty) false false.

Definition process_utxo (w : axc.Writer) (createdAt : Z) (bytes : string) : M D unit :=
utxo ← lift_result (UTXO_Unmarshal bytes);
_ ← run_store clock (index_utxo w createdAt utxo);
mret tt.

(** [processRewardUtxos] : the statements run in the session, not in the transaction it
  opens, so that what it commits or rolls back is empty. *)
Definition processRewardUtxos (w : axc.Writer) (rewardsUtxos : list string) (createdAt : Z) : M D unit :=
_ ← poll;
_ ← for_each rewardsUtxos (process_utxo w createdAt);
poll.

Definition markRewardProcessed (id : string) : M D unit := perform (PUpdateRewardsProcessed (reward_update id)).

(** One iteration of the loop of [processRewards]. *)
Definition processReward (w : axc.Writer) (rewardTx : RewardTx) : M D unit :=
if Z.eqb (RT_Type rewardTx) models.BlockTypeAbort then markRewardProcessed (RT_ID rewardTx)
else
  id ← lift_result (ids_FromString (RT_Txid rewardTx));
  rewardsUtxos ← lift_result (GetRewardUTXOs id);
  match rewardsUtxos with
  | [] => throw (ErrNoRewards (RT_Txid rewardTx))
  | _ =>
      _ ← processRewardUtxos w rewardsUtxos (RT_CreatedAt rewardTx);
      markRewardProcessed (RT_ID rewardTx)
  end.

Definition processRewards (w : axc.Writer) : M D unit :=
now ← time_Now;
l ← select (rewardsTxs now);
for_each l (processReward w).
End rewards.

(** * What the handler guarantees *)

(** The row of an output, its time that of the reward. *)
Definition reward_row `{!AxiaIds} (createdAt : Z) (u : RewardUTXO) : Outputs :=
  output_row (reward_ctx createdAt) (utxo_TxID u) (ID_String ids_Empty) false false
    (utxo_OutputIndex u) (utxo_AssetID u) (utxo_Out u).

(** The reward with its id is processed; the others are as they were. *)
Definition mark (done : list string) (r : row) : row :=
  if existsb (λ id, bool_decide (r !! "id" = Some (VStr id))) done then <["processed" := VNum 1]> r else r.

Lemma mark_app l1 l2 r : mark (l1 ++ l2) r = mark l2 (mark l1 r).
Proof.
  unfold mark. rewrite existsb_app. destruct (existsb _ l1) eqn:E1; simpl; [|done].
  rewrite lookup_insert_ne by done. destruct (existsb _ l2); [|done]. by rewrite insert_insert_eq.
Qed.

Lemma mark_one id r : update_row [("processed", SetVal (VNum 1))] [CEq "id" (VStr id)] r = mark [id] r.
Proof.
  unfold update_row, mark, matches. simpl. rewrite andb_true_r, orb_false_r.
  by repeat case_bool_decide; naive_solver.
Qed.

(** [uint64] amounts. *)
Class RewardsClientOk `{!RewardsClient} : Prop := {
  UTXO_amount b u : UTXO_Unmarshal b = Ok u → is_u64 (Amt (state_transfer (utxo_Out u)));
}.

Definition of_rewards (o : pop) : Prop := gentle o ∧ pop_table o ≠ TableRewards.

Section writers.
Context `{!AxiaIds} `{!AxiaMath} `{!AxiaCrypto} `{!Cfg} (Propagate : error → string → error).
Context (Hno : PerformUpdates = false).

Lemma index_utxo_emits w createdAt u : emits of_rewards (index_utxo Propagate w createdAt u).
Proof.
unfold index_utxo, axc.ProcessStateOut, axc.InsertOutput, axc.InsertOutput_address, axc.InsertOutputAddress.
rewrite Hno. solve_emits. all: by split.
Qed.
End writers.

Section facts.
Context `{!AxiaIds} `{!AxiaMath} `{!AxiaMathOk} `{!AxiaCrypto} `{!Cfg} `{!RewardsClient} `{!RewardsClientOk}.
Context (Propagate : error → string → error) (clock : nat → Z) (Hno : PerformUpdates = false).
Context `{SqlEngine D} `{!SqlEngineOk D} `{!SqlClock D} `{!SqlClockOk D}.
Implicit Types d : D.

Lemma sql_stored_kept o e d : gentle o → sql_stored d e → sql_stored (perform o d).1 e.
Proof. exact (stored_kept (S:=D) o e d). Qed.

(** What a step on the outputs leaves: the rows stored, and the rewards. *)
Record kept d d' : Prop := mkKept {
kept_unique : unique_content (rows d) → unique_content (rows d');
kept_stored e : sql_stored d e → sql_stored d' e;
kept_rewards : rows d' TableRewards ≡ₚ rows d TableRewards;
}.

#[local] Instance kept_preorder : PreOrder kept.
Proof.
split.
- intros d. by split.
- intros d1 d2 d3 [U1 S1 R1] [U2 S2 R2]. split; [auto|auto|]. by rewrite R2.
Qed.

Lemma kept_same d d' : rows d ≡ᶜ rows d' → kept d d'.
Proof.
intros E. split; [by rewrite E|intros e; by apply sql_stored_proper|by rewrite (E TableRewards)].
Qed.

Lemma kept_poll d : kept d (poll d).1.
Proof. apply kept_same, poll_rows. Qed.

Lemma kept_index w createdAt u d : kept d (run_store clock (index_utxo Propagate w createdAt u) d).1.
Proof.
apply (run_store_invariant clock (kept d) of_rewards _ d);
  [by apply index_utxo_emits|intros o d1 [Hg Ht] Hk; etrans; [exact Hk|]|done].
split; [apply perform_unique|intros e; by apply sql_stored_kept|by apply perform_frame].
Qed.

(** The output of [b] is stored. *)
Definition utxo_indexed (createdAt : Z) (b : string) d : Prop :=
∃ u, UTXO_Unmarshal b = Ok u ∧ sql_stored d (EOutputs (reward_row createdAt u)).

Lemma process_utxo_ok w createdAt b d :
kept d (process_utxo Propagate clock w createdAt b d).1 ∧
((process_utxo Propagate clock w createdAt b d).2 = Ok tt →
 utxo_indexed createdAt b (process_utxo Propagate clock w createdAt b d).1).
Proof.
unfold process_utxo. rewrite bind_run. unfold lift_result.
destruct (UTXO_Unmarshal b) as [u|e] eqn:Hb; [|done].
rewrite bind_run. pose proof (kept_index w createdAt u d) as Hk.
destruct (run_store clock (index_utxo Propagate w createdAt u) d) as [d1 [r|e]] eqn:E; [|done].
simpl in *. split; [done|]. intros _. exists u. split; [done|].
unfold run_store in E. destruct (run clock _ (d, 0)) as [[d2 n2] r2] eqn:E2. simplify_eq.
apply (run_stored (S:=D)) with (Q := λ l _, omap main_row l = [EOutputs (reward_row createdAt u)] ∧ Forall gentle l) in E2.
- destruct E2 as (l & (Hl & Hg) & Hs). apply (Hs (EOutputs (reward_row createdAt u))).
  assert (EOutputs (reward_row createdAt u) ∈ omap main_row l) as Hin by (rewrite Hl; by left).
  apply list_elem_of_omap in Hin as (o & Ho & Hm).
  rewrite Forall_forall in Hg. specialize (Hg o Ho). destruct o as [e upd| | | | |]; [|done..].
  simpl in Hg. subst upd. destruct e; naive_solver.
- apply ProcessStateOut_strict.
- by apply ProcessStateOut_gentle.
- apply wlp_and; [|eapply wp_mono; [apply emits_wp; by apply ProcessStateOut_gentle|done|done]].
  eapply wlp_mono; [apply ProcessStateOut_rows; [done|done|by eapply UTXO_amount]|].
  by intros l a (Hl & _).
Qed.

Lemma process_utxos_ok w createdAt bs d d' r :
for_each bs (process_utxo Propagate clock w createdAt) d = (d', r) →
kept d d' ∧ (r = Ok tt → Forall (λ b, utxo_indexed createdAt b d') bs).
Proof.
revert d. induction bs as [|b bs IH]; intros d E; simpl in E.
{ injection E as <- <-. split; [done|]. intros _. by apply Forall_nil. }
rewrite bind_run in E. destruct (process_utxo_ok w createdAt b d) as [Hk Hi].
destruct (process_utxo Propagate clock w createdAt b d) as [d1 [[]|e]]; simpl in *; [|by simplify_eq; split].
destruct (IH _ E) as [Hk2 Hf]. split; [by etrans|]. intros Hr. constructor; [|by apply Hf].
destruct (Hi eq_refl) as (u & Hu & Hs). exists u. split; [done|]. by apply Hk2.
Qed.

Lemma processRewardUtxos_ok w bs createdAt d d' r :
processRewardUtxos Propagate clock w bs createdAt d = (d', r) →
kept d d' ∧ (r = Ok tt → Forall (λ b, utxo_indexed createdAt b d') bs).
Proof.
unfold processRewardUtxos. rewrite bind_run. pose proof (kept_poll d) as K1.
destruct (poll d) as [d1 [[]|e]]; simpl in K1; [|by intros [= <- <-]].
rewrite bind_run. destruct (for_each bs _ d1) as [d2 r2] eqn:E2.
apply process_utxos_ok in E2 as [K2 Hf].
destruct r2 as [[]|e]; [|intros [= <- <-]; split; [by etrans|done]].
pose proof (kept_poll d2) as K3. intros E. rewrite E in K3. simpl in K3. split; [by repeat (etrans; [eassumption|])|].
intros _. eapply Forall_impl; [by apply Hf|]. intros b (u & Hu & Hs). exists u. split; [done|]. by apply K3.
Qed.

(** What the update leaves. *)
Lemma markRewardProcessed_ok id d d' r :
unique_content (rows d) → markRewardProcessed id d = (d', r) →
unique_content (rows d') ∧ (∀ e, sql_stored d e → sql_stored d' e) ∧
rows d' TableRewards ≡ₚ map (mark (if is_ok r then [id] else [])) (rows d TableRewards).
Proof.
intros Hu E. unfold markRewardProcessed in E. split_and!.
- pose proof (perform_unique (PUpdateRewardsProcessed (reward_update id)) d Hu) as Hu'. by rewrite E in Hu'.
- intros e He. pose proof (sql_stored_kept (PUpdateRewardsProcessed (reward_update id)) e d I He) as Hk.
  by rewrite E in Hk.
- destruct r as [[]|e]; simpl.
  + apply perform_ok in E as (c1 & E1 & E2); [|done]. simpl in E1, E2.
    destruct E2 as [Et _]. rewrite Et, (E1 TableRewards).
    by rewrite (map_ext _ (mark [id])) by (intros x; apply mark_one).
  + assert (rows d ≡ᶜ rows d') as Ec.
    { apply perform_err in E as [Ec|(ps & Hps & _)]; [done|done]. }
    rewrite <-(Ec TableRewards). by rewrite (map_ext _ Datatypes.id), map_id by done.
Qed.

(** The outputs of a reward are stored. *)
Definition reward_indexed (x : RewardTx) d : Prop := ∃ id bs,
ids_FromString (RT_Txid x) = Ok id ∧ GetRewardUTXOs id = Ok bs ∧ bs ≠ [] ∧
Forall (λ b, utxo_indexed (RT_CreatedAt x) b d) bs.

Lemma reward_indexed_kept x d d' :
(∀ e, sql_stored d e → sql_stored d' e) → reward_indexed x d → reward_indexed x d'.
Proof.
intros Hs (id & bs & I1 & I2 & I3 & Hf). exists id, bs. split_and!; [done..|].
eapply Forall_impl; [exact Hf|]. intros b (u & Hu & Hb). exists u. auto.
Qed.

(** One reward, or the part of it that did not fail. *)
Lemma processReward_ok w x d d' r :
unique_content (rows d) → processReward Propagate clock w x d = (d', r) →
unique_content (rows d') ∧ (∀ e, sql_stored d e → sql_stored d' e) ∧
rows d' TableRewards ≡ₚ map (mark (if is_ok r then [RT_ID x] else [])) (rows d TableRewards) ∧
(r = Ok tt → RT_Type x ≠ models.BlockTypeAbort → reward_indexed x d').
Proof.
intros Hu. unfold processReward.
assert (∀ d1 e, kept d d1 → (d1, Err e) = (d', r) → unique_content (rows d') ∧
  (∀ e, sql_stored d e → sql_stored d' e) ∧
  rows d' TableRewards ≡ₚ map (mark (if is_ok r then [RT_ID x] else [])) (rows d TableRewards) ∧
  (r = Ok tt → RT_Type x ≠ models.BlockTypeAbort → reward_indexed x d')) as Hfail.
{ intros d1 e [K1 K2 K3] [= <- <-]. split_and!; [auto|auto| |done].
  simpl. rewrite K3. by rewrite (map_ext _ Datatypes.id), map_id by done. }
destruct (Z.eqb_spec (RT_Type x) models.BlockTypeAbort) as [Ha|Ha].
{ intros E. apply markRewardProcessed_ok in E as (M1 & M2 & M3); [|done]. by split_and!. }
rewrite bind_run. unfold lift_result.
destruct (ids_FromString (RT_Txid x)) as [id|e] eqn:Hid; [|by apply (Hfail d)].
rewrite bind_run. destruct (GetRewardUTXOs id) as [bs|e] eqn:Hbs; [|by apply (Hfail d)].
destruct bs as [|b bs]; [by apply (Hfail d)|]. set (l := b :: bs) in *.
rewrite bind_run. destruct (processRewardUtxos Propagate clock w l (RT_CreatedAt x) d) as [d1 r1] eqn:E1.
apply processRewardUtxos_ok in E1 as [K Hf]. destruct r1 as [[]|e]; [|by apply Hfail].
intros E. apply markRewardProcessed_ok in E as (M1 & M2 & M3); [|by apply K]. split_and!; [done| | |].
- intros e He. by apply M2, K.
- by rewrite M3, (kept_rewards _ _ K).
- intros -> _. apply (reward_indexed_kept x d1); [done|]. exists id, l. by split_and!; auto.
Qed.

Lemma processRewards_loop w l d d' r :
unique_content (rows d) → for_each l (processReward Propagate clock w) d = (d', r) →
∃ taken rest, l = taken ++ rest ∧ (r = Ok tt → rest = []) ∧
  (∀ e, sql_stored d e → sql_stored d' e) ∧
  rows d' TableRewards ≡ₚ map (mark (map RT_ID taken)) (rows d TableRewards) ∧
  ∀ x, x ∈ taken → RT_Type x ≠ models.BlockTypeAbort → reward_indexed x d'.
Proof.
revert d. induction l as [|x l IH]; intros d Hu E; simpl in E.
{ injection E as <- <-. exists [], []. split_and!; [done|done|done| |by intros x Hx%elem_of_nil].
  by rewrite (map_ext _ Datatypes.id), map_id by done. }
rewrite bind_run in E. destruct (processReward Propagate clock w x d) as [d1 r1] eqn:E1.
apply processReward_ok in E1 as (Hu1 & S1 & R1 & I1); [|done]. destruct r1 as [[]|e]; simpl in R1.
- destruct (IH _ Hu1 E) as (taken & rest & -> & Hr & S2 & R2 & I2). exists (x :: taken), rest.
  split_and!; [done|done|auto| |].
  + rewrite R2, R1, map_map. by rewrite (map_ext _ (mark ([RT_ID x] ++ map RT_ID taken))) by (intros y; by rewrite mark_app).
  + intros y Hy Ht. apply elem_of_cons in Hy as [->|Hy]; [|by apply I2].
    apply (reward_indexed_kept x d1); auto.
- simplify_eq. exists [], (x :: l). split_and!; [done|done|done|done|by intros y Hy%elem_of_nil].
Qed.
End facts.

(** * The properties of the handler *)
Section properties.
Context `{!AxiaIds} `{!AxiaMath} `{!AxiaMathOk} `{!AxiaCrypto} `{!Cfg} `{!RewardsClient} `{!RewardsClientOk}.
Context `{SqlEngine D} `{!SqlEngineOk D} `{!SqlClock D} `{!SqlClockOk D}.

(** C17. In normal operation (PerformUpdates off), a pass of the rewards handler, however
  it ends, has taken a prefix [taken] of the
  rewards that were due: exactly the rewards with these ids are marked as processed,
  and for each of them, unless the block that decided it is an abort, the API has given
  the outputs of the reward, at least one, and the table of the outputs has a row under
  the key of each: the one made of it, under the empty chain id and at the time of the
  reward, or one that was there before.  A pass that succeeds has taken
  them all.  So an error never loses the outputs of a reward: it stays to be
  processed. *)
Theorem reward_after_utxos (Propagate : error → string → error) (clock : nat → Z) (axcAssetID : ID) (d d' : D) r :
PerformUpdates = false → unique_content (rows d) →
processRewards Propagate clock (rewards_writer axcAssetID) d = (d', r) →
∃ now c taken rest,
  rows d ≡ᶜ c ∧ rewardsTxs now c = taken ++ rest ∧ (r = Ok tt → rest = []) ∧
  rows d' TableRewards ≡ₚ map (mark (map RT_ID taken)) (rows d TableRewards) ∧
  ∀ x, x ∈ taken → RT_Type x ≠ models.BlockTypeAbort →
    ∃ id utxos, ids_FromString (RT_Txid x) = Ok id ∧ GetRewardUTXOs id = Ok utxos ∧ utxos ≠ [] ∧
      ∀ b, b ∈ utxos → ∃ u, UTXO_Unmarshal b = Ok u ∧ sql_stored d' (EOutputs (reward_row (RT_CreatedAt x) u)).
Proof.
intros Hno Hu. unfold processRewards. rewrite bind_run.
destruct (time_Now_ok d) as (d1 & now & -> & E1 & _). rewrite bind_run.
pose proof (poll_rows d1) as E2. unfold select. rewrite bind_run.
destruct (poll d1) as [d2 [[]|e]]; simpl in *.
- intros E. rewrite E2 in E1.
  apply processRewards_loop in E as (taken & rest & Hl & Hr & _ & R & I1); [|done..|by rewrite <-E1].
  exists now, (rows d2), taken, rest. split_and!; [done..| |].
  + by rewrite R, (E1 TableRewards).
  + intros x Hx Ht. destruct (I1 x Hx Ht) as (id & bs & ? & ? & ? & Hf). exists id, bs.
    split_and!; [done..|]. intros b Hb. rewrite Forall_forall in Hf. by apply Hf.
- intros [= <- <-]. rewrite E2 in E1. exists now, (rows d), [], (rewardsTxs now (rows d)).
  split_and!; [done..| |by intros x Hx%elem_of_nil].
  rewrite <-(E1 TableRewards). by rewrite (map_ext _ Datatypes.id), map_id by done.
Qed.
End properties.

(** ** A database with three rewards *)
Module Sample.
Import Toy.
#[local] Existing Instance default_cfg.

(** The reward of [t1] has one output; the API does not know that of [t3]. *)
Definition utxo1 : RewardUTXO := mkRewardUTXO "t1" 2 "AXC" (SECPTransferOutput (mkTransferOutput 500 (mkOutputOwners 0 1 ["a"]))).

#[export] Instance client : RewardsClient := {
GetRewardUTXOs id := if String.eqb id "t1" then Ok ["u1"] else Err "not found";
UTXO_Unmarshal b := if String.eqb b "u1" then Ok utxo1 else Err "bad utxo";
}.
#[export] Instance client_ok : RewardsClientOk.
Proof. split. simpl. intros b u. case_match; [|done]. intros [= <-]. split; vm_compute; congruence. Qed.

Definition reward (id block txid : string) : row :=
list_to_map (Rewards_pairs (mkRewards id block txid true (- 10 * Second) 0)).
Definition block (id parent : string) (typ : Z) : row :=
list_to_map (PvmBlocks_pairs (mkPvmBlocks id "P" typ parent None 0 0)).

Definition rewards_db : MemDb := mkMemDb
{[ TableRewards := [reward "r1" "b1" "t1"; reward "r2" "b2" "t2"; reward "r3" "b3" "t3"];
   TablePvmBlocks := [block "c1" "b1" 2; block "c2" "b2" models.BlockTypeAbort; block "c3" "b3" 2] ]} None [].

Definition clock (n : nat) : Z := Z.of_nat n.
Definition propagate (e : error) (s : string) : error := s +:+ ": " +:+ e.
Definition pass : MemDb * result unit := processRewards propagate clock (rewards_writer "AXC") rewards_db.

Example pass_result :
pass.2 = Err "not found" ∧
map (λ r, as_num (r !! "processed")) (rows pass.1 TableRewards) = [1; 1; 0]%Z ∧
map (λ r, as_num (r !! "amount")) (rows pass.1 TableOutputs) = [500]%Z.
Proof. split_and!; vm_compute; reflexivity. Qed.

End Sample.

Import Toy Sample.
#[local] Existing Instance default_cfg.

(** The first reward of the pass is stored and marked. *)
Lemma reward_after_utxos_witness : ∃ now c taken rest,
rows rewards_db ≡ᶜ c ∧ rewardsTxs now c = taken ++ rest ∧ (pass.2 = Ok tt → rest = []) ∧
rows pass.1 TableRewards ≡ₚ map (mark (map RT_ID taken)) (rows rewards_db TableRewards) ∧
∀ x, x ∈ taken → RT_Type x ≠ models.BlockTypeAbort →
  ∃ id utxos, ids_FromString (RT_Txid x) = Ok id ∧ GetRewardUTXOs id = Ok utxos ∧ utxos ≠ [] ∧
    ∀ b, b ∈ utxos → ∃ u, UTXO_Unmarshal b = Ok u ∧ sql_stored pass.1 (EOutputs (reward_row (RT_CreatedAt x) u)).
Proof.
apply (reward_after_utxos propagate clock "AXC" rewards_db).
- reflexivity.
- apply unique_db_ok. vm_compute. reflexivity.
- apply surjective_pairing.
Defined.
