(* ===== verification/Replay.v ===== *)
(** replay/replay_db.go: the command that indexes the transaction pool again, from the
    first row to the last.

    One goroutine per topic reads the rows of its topic and puts a packet for each in
    the queue of a pool of workers ([NewWorker], utils/worker.go), which run the
    writers; the goroutines and the workers share one cell for errors.  [Start] waits
    for the readers and the queue, and returns what the cell holds. *)

From S2P Require Import Prelude Errors Sql MemDb Axia DbModel Persist Persistence Prog Models AxcWriter Writer AvmWriter PvmWriter CvmWriter Utils UtilsFacts Stream StreamAx Processors Query.

(** [utils.AtomicInterface] of axia-network-v2: a cell that holds what was set last,
    which can be [nil]. *)
Class AtomicInterface := {
  AtomicCell : Type;
  NewAtomic : AtomicCell;
  AtomicGet : AtomicCell → option error;
  AtomicSet : option error → AtomicCell → AtomicCell;
}.
Class AtomicInterfaceOk `{!AtomicInterface} : Prop := {
  AtomicGet_new : AtomicGet NewAtomic = None;
  AtomicGet_Set v c : AtomicGet (AtomicSet v c) = v;
}.

(** [services.Consumer]: the writer of a chain. *)
Record Consumer (D : Type) := mkConsumer {
  Consumer_Bootstrap : M D unit;
  Consumer_Consume : Message → M D unit;
  Consumer_ConsumeConsensus : Message → M D unit;
}.
Arguments mkConsumer {D}.
Arguments Consumer_Bootstrap {D}.
Arguments Consumer_Consume {D}.
Arguments Consumer_ConsumeConsensus {D}.

(** [WorkerPacket], by its [consumeType]. *)
Inductive WorkerPacket (D : Type) :=
| CONSUME (writer : Consumer D) (message : Message)
| CONSUMECONSENSUS (writer : Consumer D) (message : Message)
| CONSUMEC (cwriter : cvm.Writer) (message : Message) (block : CBlock)
| CONSUMECTRC (cwriter : cvm.Writer) (message : Message)
| CONSUMECLOG (cwriter : cvm.Writer) (message : Message).
Arguments CONSUME {D}.
Arguments CONSUMECONSENSUS {D}.
Arguments CONSUMEC {D}.
Arguments CONSUMECTRC {D}.
Arguments CONSUMECLOG {D}.

Definition IndexerAVMName : string := "avm".
Definition IndexerPVMName : string := "pvm".

(** A chain of the configuration. *)
Record Chain := mkChain { Chain_ID : string; Chain_VMType : string }.

Section replay.
Context `{SqlEngine D} `{!Dbr} `{!AxiaIds} `{!AxiaMath} `{!AxiaCrypto} `{!Cfg} `{!CvmCodec} `{!AxJson}.
Context `{!AtomicInterface}.
Context (Propagate : error → string → error) (clock : nat → Z) (fuel : nat).

(** ** The writers *)

Definition avm_Consumer `{!AvmCodec} (AVMID : ID) (w : axc.Writer) (Timestamp : Z)
  (Chains : list (option (ID * string))) : Consumer D := {|
Consumer_Bootstrap := run_store clock (avm.Bootstrap Propagate AVMID w Timestamp Chains);
Consumer_Consume msg :=
  avm.Consume Propagate clock w (Message_timestamp msg) (Message_nanosecond msg) (message_body msg);
Consumer_ConsumeConsensus msg :=
  avm.ConsumeConsensus clock (Message_timestamp msg) (Message_nanosecond msg) (message_body msg);
|}.

Definition pvm_Consumer `{!PvmCodec} (w : axc.Writer) (Timestamp : Z) (UTXOs : list TransferableOutput)
  (Validators Chains : list PvmTx) : Consumer D := {|
Consumer_Bootstrap := run_store clock (pvm.Bootstrap Propagate w Timestamp UTXOs Validators Chains);
Consumer_Consume msg :=
  pvm.Consume Propagate clock w (Message_timestamp msg) (Message_nanosecond msg) (message_body msg);
Consumer_ConsumeConsensus _ := mret tt;
|}.

(** ** The workers *)

(** What a packet does to the database, and what is set in the cell of the errors, if
  anything: when the text of a trace or of a log is not understood, it is the error
  of the consumer, which is still [nil].  [None]: still retrying. *)
Definition consumed (r : option (D * result unit * Z)) : option (D * option (option error)) :=
match r with
| Some (d, Ok _, _) => Some (d, None)
| Some (d, Err e, _) => Some (d, Some (Some e))
| None => None
end.

Definition retry_consume (m : M D unit) (d : D) : option (D * option (option error)) :=
consumed (consume_retry fuel m consume_sleeper 0 d).

Definition workerProcessor (value : WorkerPacket D) (d : D) : option (D * option (option error)) :=
match value with
| CONSUME writer message => retry_consume (Consumer_Consume writer message) d
| CONSUMECONSENSUS writer message => retry_consume (Consumer_ConsumeConsensus writer message) d
| CONSUMEC cwriter message block =>
    retry_consume (cvm.Consume Propagate clock cwriter (Message_timestamp message) (Message_nanosecond message)
      (message_body message) block) d
| CONSUMECTRC cwriter message =>
    match unjson_trace (message_body message) with
    | Err _ => Some (d, Some None)
    | Ok transactionTrace =>
        retry_consume (cvm.ConsumeTrace clock (Message_timestamp message) (Message_nanosecond message)
          transactionTrace) d
    end
| CONSUMECLOG cwriter message =>
    match unjson_log (message_body message) with
    | Err _ => Some (d, Some None)
    | Ok txLogs =>
        retry_consume (cvm.ConsumeLogs clock (Message_timestamp message) (Message_nanosecond message)
          (message_body message) txLogs) d
    end
end.

(** ** The readers *)

(** The goroutine of a topic: [startDecision], [startConsensus], [startAXchain],
  [startAXchainTrc] and [startAXchainLog] only differ in the topic and in the packet
  they make of a message and of the bytes of the row. *)
Record reader := mkReader {
reader_topic : string;
reader_chain : string;
reader_packet : Message → string → result (WorkerPacket D);
}.

Definition startDecision (networkID : Z) (chain : string) (writer : Consumer D) : reader :=
mkReader (GetTopicName networkID chain EventTypeDecisions) chain (λ msg _, Ok (CONSUME writer msg)).
Definition startConsensus (networkID : Z) (chain : string) (writer : Consumer D) : reader :=
mkReader (GetTopicName networkID chain EventTypeConsensus) chain (λ msg _, Ok (CONSUMECONSENSUS writer msg)).

Definition axchain_topic (networkID : Z) (chain : string) : string :=
Z_to_string networkID +:+ "-" +:+ chain +:+ "-axchain".

(** The body of a message for a block is its extra data. *)
Definition with_body (msg : Message) (body : string) : Message :=
mkMessage (Message_id msg) (Message_chainID msg) (Some body) (Message_timestamp msg) (Message_nanosecond msg).
Definition startAXchain (networkID : Z) (chain : string) (cwriter : cvm.Writer) : reader :=
mkReader (axchain_topic networkID chain) chain (λ msg serialization,
  block ← cblock_Unmarshal serialization;
  Ok (CONSUMEC cwriter (with_body msg (CBlock_ExtraData block)) block)).
Definition startAXchainTrc (networkID : Z) (chain : string) (cwriter : cvm.Writer) : reader :=
mkReader (axchain_topic networkID chain +:+ "-trc") chain (λ msg _, Ok (CONSUMECTRC cwriter msg)).
Definition startAXchainLog (networkID : Z) (chain : string) (cwriter : cvm.Writer) : reader :=
mkReader (axchain_topic networkID chain +:+ "-logs") chain (λ msg _, Ok (CONSUMECLOG cwriter msg)).

(** The packet of a row. *)
Definition row_packet (r : reader) (txPool : TxPool) : result (WorkerPacket D) :=
id ← ids_FromString (TxPool_MsgKey txPool);
reader_packet r
  (mkMessage (ID_String id) (reader_chain r) (TxPool_Serialization txPool)
    (TxPool_CreatedAt txPool / 10 ^ 9) (TxPool_CreatedAt txPool mod 10 ^ 9))
  (default "" (TxPool_Serialization txPool)).

(** The ids of the rows of a topic, oldest first. *)
Definition topic_ids (topic : string) (c : content) : list string :=
map (λ r, as_str (r !! "id"))
  (foldr insert_oldest [] (List.filter (matches [CEq "topic" (VStr topic)]) (c TableTxPool))).

(** Where a reader is. *)
Inductive reader_state :=
| Querying
| Reading (txPools : list string)
| Sending (packet : WorkerPacket D) (txPools : list string)
| Finished.

(** ** Start *)

(** What [Start] does before it waits, in order. *)
Inductive action :=
| Bootstrapping (writer : Consumer D)
| Starting (r : reader)
| Fatal (e : error).

Context (networkID : Z) (NewAvmWriter NewPvmWriter : string → result (Consumer D)) (NewCvmWriter : string → result cvm.Writer).
Context (queueSize queueTheads : nat).

Definition handleReader (chain : Chain) : list action :=
let writer := if decide (Chain_VMType chain = IndexerAVMName) then NewAvmWriter (Chain_ID chain)
              else if decide (Chain_VMType chain = IndexerPVMName) then NewPvmWriter (Chain_ID chain)
              else Err "unknown vmtype" in
match writer with
| Err e => [Fatal e]
| Ok writer => [Bootstrapping writer; Starting (startDecision networkID (Chain_ID chain) writer);
                Starting (startConsensus networkID (Chain_ID chain) writer)]
end.

Definition handleCReader (chain : string) : list action :=
match NewCvmWriter chain with
| Err e => [Fatal e]
| Ok writer => [Starting (startAXchain networkID chain writer); Starting (startAXchainTrc networkID chain writer);
                Starting (startAXchainLog networkID chain writer)]
end.

Definition Start_actions (Chains : list Chain) (AXchainID : string) : list action :=
flat_map handleReader Chains ++ handleCReader AXchainID.

(** The state of the command: the packets that are done come with what they set. *)
Record replay := mkReplay {
rp_db : D;
rp_errs : AtomicCell;
rp_todo : list action;
rp_readers : list (reader * reader_state);
rp_queue : worker (WorkerPacket D);
rp_running : list (WorkerPacket D);
rp_done : list (WorkerPacket D * option (option error));
}.

(** A reader that is not blocked takes a step. *)
Definition reader_step (r : reader) (st : reader_state) (d : D) (errs : AtomicCell)
  : option (D * AtomicCell * reader_state) :=
match st with
| Querying =>
    match select (topic_ids (reader_topic r)) d with
    | (d, Ok txPools) => Some (d, errs, Reading txPools)
    | (d, Err e) => Some (d, AtomicSet (Some e) errs, Finished)
    end
| Reading [] => Some (d, errs, Finished)
| Reading (id :: txPools) =>
    match AtomicGet errs with
    | Some _ => Some (d, errs, Finished)
    | None =>
        match QueryTxPool (mkTxPool id 0 "" "" None 0 "" 0) d with
        | (d, Ok (txPool, None)) =>
            match row_packet r txPool with
            | Err e => Some (d, AtomicSet (Some e) errs, Finished)
            | Ok packet => Some (d, errs, Sending packet txPools)
            end
        | (d, _) => Some (d, errs, st)               (* asked again half a second later *)
        end
    end
| Sending _ _ | Finished => None
end.

(** One step of the program: of the main goroutine, of a reader, of a free worker that
  takes a packet, of a worker that has one.  The scheduler chooses. *)
Inductive choice := Main | Reader (i : nat) | Take | Work (i : nat).

Definition main_step (s : replay) : option replay :=
match rp_todo s with
| Bootstrapping writer :: rest =>
    let '(d, r) := Consumer_Bootstrap writer (rp_db s) in
    Some (mkReplay d (match r with Ok _ => rp_errs s | Err e => AtomicSet (Some e) (rp_errs s) end)
      (match r with Ok _ => rest | Err e => [Fatal e] end) (rp_readers s) (rp_queue s) (rp_running s) (rp_done s))
| Starting r :: rest =>
    Some (mkReplay (rp_db s) (rp_errs s) rest (rp_readers s ++ [(r, Querying)]) (rp_queue s) (rp_running s)
      (rp_done s))
| Fatal _ :: _ | [] => None
end.

(** [worker.Enque] blocks as long as the queue is full. *)
Definition read_step (i : nat) (s : replay) : option replay :=
match rp_readers s !! i with
| Some (r, Sending packet txPools) =>
    q ← Enque (rp_queue s) packet;
    Some (mkReplay (rp_db s) (rp_errs s) (rp_todo s) (<[i := (r, Reading txPools)]> (rp_readers s)) q
      (rp_running s) (rp_done s))
| Some (r, st) =>
    '(d, errs, st') ← reader_step r st (rp_db s) (rp_errs s);
    Some (mkReplay d errs (rp_todo s) (<[i := (r, st')]> (rp_readers s)) (rp_queue s) (rp_running s) (rp_done s))
| None => None
end.

Definition take_step (s : replay) : option replay :=
if length (rp_running s) <? queueTheads then
  '(packet, q) ← take_job (rp_queue s);
  Some (mkReplay (rp_db s) (rp_errs s) (rp_todo s) (rp_readers s) q (packet :: rp_running s) (rp_done s))
else None.

Definition work_step (i : nat) (s : replay) : option replay :=
packet ← rp_running s !! i;
'(d, r) ← workerProcessor packet (rp_db s);
Some (mkReplay d (match r with Some v => AtomicSet v (rp_errs s) | None => rp_errs s end) (rp_todo s)
  (rp_readers s) (rp_queue s) (delete i (rp_running s)) ((packet, r) :: rp_done s)).

Definition turn (c : choice) (s : replay) : option replay :=
match c with
| Main => main_step s
| Reader i => read_step i s
| Take => take_step s
| Work i => work_step i s
end.

Fixpoint turns (cs : list choice) (s : replay) : option replay :=
match cs with
| [] => Some s
| c :: cs => s' ← turn c s; turns cs s'
end.

Definition is_finished (x : reader * reader_state) : bool := match x.2 with Finished => true | _ => false end.

(** [Start] returns when every reader has finished and the queue is empty: what the
  cell holds. *)
Definition Start_returns (s : replay) : option (option error) :=
match rp_todo s with
| [] => if forallb is_finished (rp_readers s) && IsFinished (rp_queue s) then Some (AtomicGet (rp_errs s)) else None
| _ => None
end.

Definition replay_start (d : D) (Chains : list Chain) (AXchainID : string) : replay :=
mkReplay d NewAtomic (Start_actions Chains AXchainID) [] (mkWorker [] queueSize) [] [].
End replay.

(** * replay/replay_db.go: the counters of the replay, by topic, and the lines that [Start] logs
    while it waits ([logemit]). *)

(** * [logemit] *)
Record CounterValues := mkCounterValues { Added : Z; Waits : Z }.
Definition no_values : CounterValues := mkCounterValues 0 0.

(** The values of both counters, by topic. *)
Definition set_added (counters : gmap string Z) (ctot : gmap string CounterValues) : gmap string CounterValues :=
  map_fold (λ cnter v ctot, <[cnter := mkCounterValues v (Waits (default no_values (ctot !! cnter)))]> ctot) ctot counters.
Definition set_waits (counters : gmap string Z) (ctot : gmap string CounterValues) : gmap string CounterValues :=
  map_fold (λ cnter v ctot, <[cnter := mkCounterValues (Added (default no_values (ctot !! cnter))) v]> ctot) ctot counters.
Definition ctot (counterAdded counterWaits : CounterID) : gmap string CounterValues :=
  set_waits (CounterID_Clone counterWaits) (set_added (CounterID_Clone counterAdded) ∅).

Definition newlogline (cnter : string) (v : CounterValues) : string :=
  "key:" +:+ cnter +:+ " add:" +:+ Z_to_string (Added v) +:+ " wait:" +:+ Z_to_string (Waits v).

Definition logemit (waitGroupCnt JobCnt : Z) (counterAdded counterWaits : CounterID) : list string :=
  let ctot := ctot counterAdded counterWaits in
  let sortedcnters := order_by String.leb (map fst (map_to_list ctot)) in
  ("wgc: " +:+ Z_to_string waitGroupCnt +:+ ", jobs: " +:+ Z_to_string JobCnt) ::
  flat_map (λ cnter, let v := default no_values (ctot !! cnter) in
                     if (Waits v =? 0)%Z then [] else [newlogline cnter v]) sortedcnters.

(** What a topic is logged with: the value of each counter, when it is not zero. *)
Lemma map_fold_insert_lookup {A B} (g : A → option B → B) (m0 : gmap string B) (counters : gmap string A) k :
  map_fold (λ cnter v m, <[cnter := g v (m !! cnter)]> m) m0 counters !! k =
  match counters !! k with Some v => Some (g v (m0 !! k)) | None => m0 !! k end.
Proof.
  revert k. apply (map_fold_weak_ind (λ r counters, ∀ k, r !! k = match counters !! k with
    Some v => Some (g v (m0 !! k)) | None => m0 !! k end)); [done|].
  intros i x m r Hi IH k. destruct (decide (i = k)) as [->|Hne].
  - rewrite !lookup_insert_eq, IH. by rewrite Hi.
  - by rewrite !lookup_insert_ne.
Qed.

Lemma ctot_lookup counterAdded counterWaits k :
  ctot counterAdded counterWaits !! k =
  match CounterID_Clone counterAdded !! k, CounterID_Clone counterWaits !! k with
  | None, None => None
  | a, w => Some (mkCounterValues (default 0%Z a) (default 0%Z w))
  end.
Proof.
  unfold ctot, set_waits. rewrite (map_fold_insert_lookup (λ v old, mkCounterValues (Added (default no_values old)) v)).
  unfold set_added. rewrite (map_fold_insert_lookup (λ v old, mkCounterValues v (Waits (default no_values old)))), lookup_empty.
  by destruct (CounterID_Clone counterAdded !! k), (CounterID_Clone counterWaits !! k).
Qed.

Lemma Clone_default (c : CounterID) k : default 0%Z (CounterID_Clone c !! k) = default 0%Z (c !! k).
Proof.
  destruct (CounterID_Clone c !! k) as [v|] eqn:F; unfold CounterID_Clone in F.
  - apply map_lookup_filter_Some in F as [E _]. symmetry. exact (f_equal (default 0%Z) E).
  - apply map_lookup_filter_None in F as [E|F]; [symmetry; exact (f_equal (default 0%Z) E)|].
    destruct (c !! k) as [v|] eqn:E; [|done]. cbn. destruct (decide (v = 0%Z)) as [->|Hv]; [done|]. by destruct (F v E).
Qed.

Lemma string_leb_trans x y z : String.leb x y = true → String.leb y z = true → String.leb x z = true.
Proof.
  intros H1 H2. assert (String.le x z) as Hle; [|by apply Is_true_true].
  transitivity y; by apply Is_true_true.
Qed.

Lemma sorted_filter {A} (R : A → A → Prop) (f : A → bool) l : StronglySorted R l → StronglySorted R (List.filter f l).
Proof.
  induction 1 as [|x l _ IH Hx]; [constructor|]. cbn. destruct (f x); [|done]. constructor; [done|].
  rewrite Forall_forall in *. intros y Hy. apply Hx. rewrite list_elem_of_In in *. by apply filter_In in Hy as [? _].
Qed.

(** The lines of a log: after the first, one for each topic that is waited for, in the order of
    the topics, with the values of its counters. *)
Theorem logged_topics waitGroupCnt JobCnt counterAdded counterWaits :
  ∃ topics, logemit waitGroupCnt JobCnt counterAdded counterWaits =
      ("wgc: " +:+ Z_to_string waitGroupCnt +:+ ", jobs: " +:+ Z_to_string JobCnt) ::
      map (λ tn, newlogline tn (mkCounterValues (default 0%Z (counterAdded !! tn)) (default 0%Z (counterWaits !! tn)))) topics ∧
    NoDup topics ∧ StronglySorted (λ x y, String.leb x y = true) topics ∧
    ∀ tn, tn ∈ topics ↔ default 0%Z (counterWaits !! tn) ≠ 0%Z.
Proof.
  set (m := ctot counterAdded counterWaits).
  set (waited := λ tn, negb (Waits (default no_values (m !! tn)) =? 0)%Z).
  assert (∀ tn, default no_values (m !! tn) = mkCounterValues (default 0%Z (counterAdded !! tn)) (default 0%Z (counterWaits !! tn))) as Hm.
  { intros tn. unfold m. rewrite ctot_lookup, <-(Clone_default counterAdded), <-(Clone_default counterWaits).
    by destruct (CounterID_Clone counterAdded !! tn), (CounterID_Clone counterWaits !! tn). }
  assert (∀ tn, waited tn = true ↔ default 0%Z (counterWaits !! tn) ≠ 0%Z) as Hw.
  { intros tn. unfold waited. rewrite Hm. cbn. by rewrite negb_true_iff, Z.eqb_neq. }
  exists (List.filter waited (order_by String.leb (map fst (map_to_list m)))). split_and!.
  - unfold logemit. fold m. f_equal. induction (order_by _ _) as [|tn l IH]; [done|]. cbn [flat_map List.filter].
    rewrite IH. unfold waited at 2. cbn zeta. destruct (Waits _ =? 0)%Z; [done|]. cbn [negb app map]. by rewrite Hm.
  - apply NoDup_ListNoDup, List.NoDup_filter, NoDup_ListNoDup. rewrite order_by_perm. apply NoDup_fst_map_to_list.
  - apply sorted_filter, order_by_sorted.
    + intros x y. destruct (String.leb_total x y); auto.
    + apply string_leb_trans.
  - intros tn. rewrite list_elem_of_In, filter_In, Hw, <-list_elem_of_In, order_by_perm. split; [by intros [_ ?]|]. intros Hne.
    split; [|done]. assert (is_Some (m !! tn)) as [v Hv].
    { unfold m. rewrite ctot_lookup. rewrite <-Clone_default in Hne.
      destruct (CounterID_Clone counterAdded !! tn), (CounterID_Clone counterWaits !! tn); done. }
    apply (list_elem_of_fmap_2 fst _ (tn, v)). by apply elem_of_map_to_list.
Qed.

(** * The counters during a replay *)
Record counters := mkCounters { counterAdded : CounterID; counterWaits : CounterID }.
Definition no_counters : counters := mkCounters NewCounterID NewCounterID.

Section counters.
Context `{SqlEngine D} `{!Dbr} `{!AxiaIds} `{!AxiaMath} `{!AxiaCrypto} `{!Cfg} `{!CvmCodec} `{!AxJson} `{!AtomicInterface}.
Context (Propagate : error → string → error) (clock : nat → Z) (fuel queueTheads : nat).

(** A reader has found a row whose key is an id. *)
Definition row_found (st : reader_state (D:=D)) (d : D) (errs : AtomicCell) : bool :=
match st with
| Reading (id :: _) =>
    match AtomicGet errs, QueryTxPool (mkTxPool id 0 "" "" None 0 "" 0) d with
    | None, (_, Ok (txPool, None)) => is_ok (ids_FromString (TxPool_MsgKey txPool))
    | _, _ => false
    end
| _ => false
end.

(** A step, with what it counts: the start of a reader, a row found, the end of a reader. *)
Definition counted_turn (c : choice) (x : replay * counters) : option (replay (D:=D) * counters) :=
let '(s, k) := x in
s' ← turn Propagate clock fuel queueTheads c s;
Some (s',
match c with
| Main =>
    match rp_todo s with
    | Starting r :: _ => mkCounters (CounterID_Add (counterAdded k) (reader_topic r) 0) (CounterID_Inc (counterWaits k) (reader_topic r))
    | _ => k
    end
| Reader i =>
    match rp_readers s !! i with
    | Some (r, st) =>
        mkCounters (if row_found st (rp_db s) (rp_errs s) then CounterID_Inc (counterAdded k) (reader_topic r) else counterAdded k)
          (if match rp_readers s' !! i with Some x => is_finished x | None => false end
           then CounterID_Add (counterWaits k) (reader_topic r) (-1) else counterWaits k)
    | None => k
    end
| _ => k
end).

Fixpoint counted_turns (cs : list choice) (x : replay * counters) : option (replay (D:=D) * counters) :=
match cs with
| [] => Some x
| c :: cs => x' ← counted_turn c x; counted_turns cs x'
end.

(** The readers of a topic that have not finished. *)
Definition waiting (tn : string) (x : reader * reader_state (D:=D)) : Z :=
if bool_decide (reader_topic x.1 = tn) && negb (is_finished x) then 1 else 0.
Definition running_readers (tn : string) (l : list (reader * reader_state (D:=D))) : Z := foldr (λ x n, waiting tn x + n)%Z 0%Z l.

Lemma running_app tn l x : running_readers tn (l ++ [x]) = (running_readers tn l + waiting tn x)%Z.
Proof. unfold running_readers. induction l as [|y l IH]; cbn [foldr app]; lia. Qed.

Lemma running_insert tn l i x y : l !! i = Some x →
(running_readers tn (<[i := y]> l) + waiting tn x = running_readers tn l + waiting tn y)%Z.
Proof.
revert i. induction l as [|z l IH]; intros [|i] E; [done..| |].
- injection E as ->. change (<[0 := y]> (x :: l)) with (y :: l). unfold running_readers. cbn [foldr]. lia.
- specialize (IH i E). change (<[S i := y]> (z :: l)) with (z :: <[i := y]> l). unfold running_readers in *. cbn [foldr]. lia.
Qed.

(** What a turn does to the readers. *)
Lemma turn_readers c s s' : turn Propagate clock fuel queueTheads c s = Some s' →
match c with
| Main => rp_readers s' = rp_readers s ++ match rp_todo s with Starting r :: _ => [(r, Querying)] | _ => [] end
| Reader i => ∃ r st st', rp_readers s !! i = Some (r, st) ∧ is_finished (r, st) = false ∧ rp_readers s' = <[i := (r, st')]> (rp_readers s)
| _ => rp_readers s' = rp_readers s
end.
Proof.
destruct c as [|i| |i]; cbn; intros E.
- unfold main_step in E. destruct (rp_todo s) as [|[w|r|e] rest]; [done| | |done].
  + destruct (Consumer_Bootstrap w (rp_db s)) as [d [u|e]]; injection E as <-; by rewrite app_nil_r.
  + by injection E as <-.
- unfold read_step in E. destruct (rp_readers s !! i) as [[r st]|] eqn:Er; [|done]. exists r, st. destruct st as [|l|p l|]; [cbn in E| |cbn in E|done].
  + destruct (select _ (rp_db s)) as [d [txs|e]]; cbn in E; injection E as <-; by eexists.
  + destruct (reader_step r (Reading l) (rp_db s) (rp_errs s)) as [[[d errs] st']|]; [|done]. injection E as <-. by eexists.
  + destruct (Enque (rp_queue s) p) as [q|]; [|done]. cbn in E. injection E as <-. by eexists.
- unfold take_step in E. destruct (_ <? _); [|done]. destruct (take_job (rp_queue s)) as [[p q]|]; [|done]. cbn in E. by injection E as <-.
- unfold work_step in E. destruct (rp_running s !! i) as [p|]; [|done]. cbn in E.
  destruct (workerProcessor _ _ _ _ _) as [[d r]|]; [|done]. cbn in E. by injection E as <-.
Qed.

(** The counter of the waits says, for each topic, how many of its readers are running. *)
Definition waits_ok (x : replay (D:=D) * counters) : Prop :=
∀ tn, counter_value (counterWaits x.2) tn = int64 (running_readers tn (rp_readers x.1)).

Lemma counted_turn_ok c x x' : waits_ok x → counted_turn c x = Some x' → waits_ok x'.
Proof.
destruct x as [s k]. intros Hok E. unfold counted_turn in E.
destruct (turn _ _ _ _ c s) as [s'|] eqn:Et; [|done]. cbn [option_bind mbind] in E. injection E as <-.
pose proof (turn_readers _ _ _ Et) as Hr. intros tn. specialize (Hok tn) as Htn. cbn [fst snd] in *.
assert (∀ tn, int64 (counter_value (counterWaits k) tn) = counter_value (counterWaits k) tn) as Hwr.
{ intros tn'. specialize (Hok tn'). cbn in Hok. rewrite Hok. apply int64_idemp. }
destruct c as [|i| |i]; [| |by rewrite Hr..].
- rewrite Hr. destruct (rp_todo s) as [|[w|r|e] rest]; rewrite ?app_nil_r; try done. cbn [counterWaits].
  unfold CounterID_Inc. rewrite counter_add by done. rewrite Htn, int64_add, running_app. unfold waiting. cbn [is_finished fst snd negb].
  rewrite andb_true_r. f_equal. f_equal. case_bool_decide; case_decide; congruence || done.
- destruct Hr as (r & st & st' & Er & Hf & ->). rewrite Er. cbn [counterWaits].
  pose proof (running_insert tn _ _ _ (r, st') Er) as Hi. rewrite list_lookup_insert_eq by (by eapply lookup_lt_Some).
  unfold waiting in Hi. rewrite Hf in Hi. cbn [fst snd negb] in Hi. rewrite andb_true_r in Hi.
  destruct (is_finished (r, st')) eqn:Ef; cbn [negb] in Hi.
  + rewrite counter_add by done. rewrite Htn, int64_add. f_equal. rewrite andb_false_r in Hi.
    case_bool_decide; case_decide; try congruence; lia.
  + rewrite Htn. f_equal. rewrite andb_true_r in Hi. lia.
Qed.

(** So that a log names the topics that are still read, each with the number of its readers. *)
Theorem waits_running cs s s' k' : rp_readers s = [] → counted_turns cs (s, no_counters) = Some (s', k') →
∀ tn, default 0%Z (counterWaits k' !! tn) = int64 (running_readers tn (rp_readers s')).
Proof.
intros Hs E. assert (waits_ok (s, no_counters)) as Hok by (intros tn; cbn; by rewrite Hs).
assert (waits_ok (s', k')) as H'; [|exact H']. revert Hok E. generalize (s, no_counters) as x.
induction cs as [|c cs IH]; intros x Hok E; cbn in E; [by injection E as ->|].
destruct (counted_turn c x) as [x'|] eqn:Ec; [|done]. cbn in E. eapply IH; [|exact E]. by eapply counted_turn_ok.
Qed.
End counters.
