(* ===== verification/ReplayFacts.v ===== *)
(** What a replay guarantees: when it ends without an error, every row of the pool was
    consumed, as far as the cell of the errors can tell. *)

From S2P Require Import Prelude Errors Sql MemDb Axia DbModel Persist Persistence Utils Models Prog AxcWriter Writer AvmWriter PvmWriter CvmWriter Indexing Stream StreamAx Pool PoolSystem WriterOps Processors Streaming StreamAxFacts StreamFacts Replay.

(** A writer that leaves the pool alone. *)
Class ConsumerOk `{SqlEngine D} (w : Consumer D) : Prop := {
  Bootstrap_frames : frames (Consumer_Bootstrap w);
  Consume_frames msg : frames (Consumer_Consume w msg);
  ConsumeConsensus_frames msg : frames (Consumer_ConsumeConsensus w msg);
}.

Section writers.
Context `{SqlEngine D} `{!SqlEngineOk D} `{!AxiaIds} `{!AxiaMath} `{!AxiaCrypto} `{!Cfg}.
Context (Propagate : error → string → error) (clock : nat → Z).

Lemma avm_Bootstrap_writer `{!AvmCodec} AVMID w t Chains :
emits of_writer (avm.Bootstrap Propagate AVMID w t Chains).
Proof.
unfold avm.Bootstrap, avm.insertGenesis, avm.insertCreateAssetTx. solve_emits.
all: first [apply count_outs_writer | apply process_outs_writer | apply of_tx_writer, InsertTransaction_tx | by split_and!].
Qed.

Lemma pvm_Bootstrap_writer w t UTXOs Validators Chains :
emits of_writer (pvm.Bootstrap Propagate w t UTXOs Validators Chains).
Proof.
unfold pvm.Bootstrap. apply emits_bind; [|intros _; apply emits_bind; [|intros []; done]].
- apply emits_fold. intros utxo n. apply emits_bind; [apply of_tx_writer, ProcessStateOut_tx|done].
- apply emits_fold. intros tx errs. apply emits_errs_Add, Forall_singleton, of_tx_writer, pvm_indexTransaction_tx.
Qed.

#[export] Instance avm_Consumer_ok `{!AvmCodec} AVMID w t Chains :
ConsumerOk (avm_Consumer (D:=D) Propagate clock AVMID w t Chains).
Proof.
split; simpl.
- apply run_store_frames, avm_Bootstrap_writer.
- intros msg. apply consume_frames, avm_insertTx_writer.
- intros msg. apply frames_lift. intros [[v e] txs]. apply consume_frames, avm_ConsumeConsensus_writer.
Qed.

#[export] Instance pvm_Consumer_ok `{!PvmCodec} w t UTXOs Validators Chains :
ConsumerOk (pvm_Consumer (D:=D) Propagate clock w t UTXOs Validators Chains).
Proof.
split; simpl.
- apply run_store_frames, pvm_Bootstrap_writer.
- intros msg. apply consume_frames, pvm_indexBlock_writer.
- by intros msg d Hu.
Qed.
End writers.

Section facts.
Context `{SqlEngine D} `{!SqlEngineOk D} `{!Dbr} `{!DbrOk} `{!AxiaIds} `{!AxiaMath} `{!AxiaCrypto} `{!Cfg}.
Context `{!CvmCodec} `{!AxJson} `{!AtomicInterface} `{!AtomicInterfaceOk}.
Context (Propagate : error → string → error) (clock : nat → Z) (fuel : nat).
Context (networkID : Z) (NewAvmWriter NewPvmWriter : string → result (Consumer D)).
Context (NewCvmWriter : string → result cvm.Writer) (queueSize queueTheads : nat).
Context (Hwriters : ∀ id w, NewAvmWriter id = Ok w ∨ NewPvmWriter id = Ok w → ConsumerOk w).
Implicit Types (d : D) (s : replay (D:=D)) (p : WorkerPacket D) (x : row).

Definition packet_ok p : Prop :=
match p with CONSUME w _ | CONSUMECONSENSUS w _ => ConsumerOk w | _ => True end.
Definition reader_ok (r : reader (D:=D)) : Prop := ∀ msg b p, reader_packet r msg b = Ok p → packet_ok p.
Definition action_ok (a : action (D:=D)) : Prop :=
match a with Bootstrapping w => ConsumerOk w | Starting r => reader_ok r | Fatal _ => True end.

Lemma workerProcessor_frames p d d' r :
packet_ok p → workerProcessor Propagate clock fuel p d = Some (d', r) → unique_content (rows d) →
unique_content (rows d') ∧ rows d' TableTxPool ≡ₚ rows d TableTxPool.
Proof.
assert (∀ m, frames m → retry_consume fuel m d = Some (d', r) → unique_content (rows d) →
  unique_content (rows d') ∧ rows d' TableTxPool ≡ₚ rows d TableTxPool) as Hretry.
{ intros m Hm E Hu. unfold retry_consume in E.
  destruct (consume_retry _ _ _ _ _) as [[[d1 r1] t]|] eqn:E1; [|done].
  assert (d1 = d') as -> by (destruct r1; simpl in E; by simplify_eq).
  by destruct (consume_retry_frames _ _ _ _ _ _ _ _ Hm E1 Hu) as (? & ? & _). }
intros Hp E Hu. destruct p; simpl in *.
- eapply Hretry; [apply Consume_frames|done|done].
- eapply Hretry; [apply ConsumeConsensus_frames|done|done].
- eapply Hretry; [apply consume_frames, cvm_indexBlock_writer|done|done].
- destruct (unjson_trace _); [|by simplify_eq].
  eapply Hretry; [apply consume_frames, cvm_ConsumeTrace_writer|done|done].
- destruct (unjson_log _); [|by simplify_eq].
  eapply Hretry; [apply consume_frames, cvm_ConsumeLogs_writer|done|done].
Qed.

(** ** The invariant *)
Context (actions : list (action (D:=D))) (pool : list row).

(** No trace and no log was dropped because its text is not understood. *)
Definition no_clear s : Prop := ∀ p, (p, Some None) ∉ rp_done s.
Definition no_error s : Prop := no_clear s ∧ AtomicGet (rp_errs s) = None.

(** A packet is in the queue, in the hands of a worker, or done. *)
Definition handed s p : Prop := p ∈ jobCh (rp_queue s) ∨ p ∈ rp_running s ∨ ∃ o, (p, o) ∈ rp_done s.

Definition loaded x : TxPool := load_TxPool (restrict TxPool_columns x).
Definition row_handed s (r : reader (D:=D)) x : Prop := ∃ p, row_packet r (loaded x) = Ok p ∧ handed s p.

(** Where the row [x] of the topic of a reader is. *)
Definition row_place s (r : reader (D:=D)) (st : reader_state (D:=D)) x : Prop :=
row_handed s r x ∨
match st with
| Querying => True
| Reading txPools => as_str (x !! "id") ∈ txPools
| Sending p txPools => as_str (x !! "id") ∈ txPools ∨ row_packet r (loaded x) = Ok p
| Finished => False
end.

Record replay_inv s : Prop := {
rinv_unique : unique_content (rows (rp_db s));
rinv_pool : rows (rp_db s) TableTxPool ≡ₚ pool;
rinv_actions a : a ∈ rp_todo s → action_ok a;
rinv_readers r st : (r, st) ∈ rp_readers s → reader_ok r ∧
  match st with Sending p _ => packet_ok p | _ => True end;
rinv_packets p : p ∈ jobCh (rp_queue s) ∨ p ∈ rp_running s → packet_ok p;
rinv_threads : length (rp_running s) ≤ queueTheads;
rinv_started r : no_error s → Starting r ∈ actions →
  Starting r ∈ rp_todo s ∨ ∃ st, (r, st) ∈ rp_readers s;
rinv_rows r st x : no_error s → (r, st) ∈ rp_readers s → x ∈ pool →
  x !! "topic" = Some (VStr (reader_topic r)) → row_place s r st x;
rinv_done p o : no_error s → (p, o) ∈ rp_done s → o = None;
}.

Lemma row_handed_mono s s' r x : (∀ p, handed s p → handed s' p) → row_handed s r x → row_handed s' r x.
Proof. intros Hh (p & Hp & Hx). exists p. auto. Qed.

Lemma row_place_mono s s' r st x : (∀ p, handed s p → handed s' p) → row_place s r st x → row_place s' r st x.
Proof. intros Hh [Hx|Hx]; [left; by eapply row_handed_mono|by right]. Qed.

(** Without an error now, there was none before. *)
Lemma no_error_step s s' :
(∀ y, y ∈ rp_done s → y ∈ rp_done s') →
(rp_errs s' = rp_errs s ∨ ∃ v, rp_errs s' = AtomicSet v (rp_errs s) ∧ (v = None → ∃ p, (p, Some None) ∈ rp_done s')) →
no_error s' → no_error s.
Proof.
intros Hd He [Hc Hn]. split; [intros p Hp; by apply (Hc p), Hd|].
destruct He as [E|(v & E & Hv)]; [by rewrite <-E|]. rewrite E, AtomicGet_Set in Hn.
destruct (Hv Hn) as (p & Hp). by destruct (Hc p).
Qed.

Lemma take_job_handed s packet q : take_job (rp_queue s) = Some (packet, q) →
jobCh (rp_queue s) = packet :: jobCh q.
Proof. unfold take_job. destruct (jobCh (rp_queue s)); by intros [= <- <-]. Qed.

Lemma Enque_jobs (w w' : worker (WorkerPacket D)) p : Enque w p = Some w' → jobCh w' = jobCh w ++ [p].
Proof. unfold Enque. case_match; [|done]. by intros [= <-]. Qed.

Lemma main_step_inv s s' : main_step s = Some s' → replay_inv s → replay_inv s'.
Proof.
intros E Hs. pose proof (rinv_actions s Hs) as Ha. unfold main_step in E.
destruct (rp_todo s) as [|[w|r|e] rest] eqn:Et; try done.
- destruct (Consumer_Bootstrap w (rp_db s)) as [d r] eqn:Eb. injection E as <-.
  pose proof (Ha (Bootstrapping w) ltac:(left)) as Hw. simpl in Hw.
  destruct (Bootstrap_frames (rp_db s) (rinv_unique s Hs)) as (Hu & Hp & _). rewrite Eb in Hu, Hp. simpl in Hu, Hp.
  assert (∀ s0, s0 = mkReplay d (match r with Ok _ => rp_errs s | Err e => AtomicSet (Some e) (rp_errs s) end)
      (match r with Ok _ => rest | Err e => [Fatal e] end) (rp_readers s) (rp_queue s) (rp_running s) (rp_done s) →
    no_error s0 → no_error s ∧ r = Ok tt) as Hn.
  { intros s0 -> Hn. split.
    - revert Hn. apply no_error_step; [done|]. destruct r; [by left|]. right. by eexists.
    - destruct Hn as [_ Hn]. destruct r as [[]|]; [done|]. simpl in Hn. by rewrite AtomicGet_Set in Hn. }
  split; simpl; try apply Hs; try done.
  + by rewrite Hp, (rinv_pool s Hs).
  + intros a Hin. destruct r; [apply Ha; by right|]. by apply list_elem_of_singleton in Hin as ->.
  + intros r0 [Hn0 ->]%(Hn _ eq_refl) Hin. destruct (rinv_started s Hs r0 Hn0 Hin) as [Hi|]; [left|by right].
    rewrite Et in Hi. by apply elem_of_cons in Hi as [|].
  + intros r0 st x [Hn0 ->]%(Hn _ eq_refl). apply (rinv_rows s Hs r0 st x Hn0).
  + intros p o [Hn0 ->]%(Hn _ eq_refl). by apply (rinv_done s Hs).
- injection E as <-. split; simpl; try apply Hs.
  + intros a Hin. apply Ha. by right.
  + intros r0 st [Hin|Hin%list_elem_of_singleton]%elem_of_app; [by apply (rinv_readers s Hs)|].
    injection Hin as -> ->. split; [apply (Ha (Starting r)); left|done].
  + intros r0 Hn Hin. destruct (rinv_started s Hs r0 Hn Hin) as [Hi|[st Hi]].
    * rewrite Et in Hi. apply elem_of_cons in Hi as [[= ->]|Hi]; [right; exists Querying|by left].
      apply elem_of_app. right. by left.
    * right. exists st. apply elem_of_app. by left.
  + intros r0 st x Hn [Hin|Hin%list_elem_of_singleton]%elem_of_app; [by apply (rinv_rows s Hs)|].
    injection Hin as -> ->. intros _ _. by right.
Qed.

Lemma take_step_inv s s' : take_step queueTheads s = Some s' → replay_inv s → replay_inv s'.
Proof.
intros E Hs. unfold take_step in E. destruct (_ <? queueTheads) eqn:El; [|done]. apply Nat.ltb_lt in El.
destruct (take_job (rp_queue s)) as [[packet q]|] eqn:Eq; [|done]. simpl in E. injection E as <-.
apply take_job_handed in Eq.
set (s' := mkReplay _ _ _ _ _ _ _).
assert (∀ p, handed s p → handed s' p) as Hh.
{ intros p [Hp|[Hp|Hp]]; [|right; left; by right|by right; right].
  rewrite Eq in Hp. apply elem_of_cons in Hp as [->|Hp]; [right; left; left|by left]. }
split; simpl; try apply Hs.
- intros p [Hp|Hp].
  + apply (rinv_packets s Hs). left. rewrite Eq. by right.
  + apply elem_of_cons in Hp as [->|Hp]; apply (rinv_packets s Hs); [left; rewrite Eq; left|by right].
- lia.
- intros r st x Hn Hin Hx Ht. apply (row_place_mono s); [done|]. by apply (rinv_rows s Hs).
Qed.

Lemma work_step_inv i s s' : work_step Propagate clock fuel i s = Some s' → replay_inv s → replay_inv s'.
Proof.
intros E Hs. unfold work_step in E. destruct (rp_running s !! i) as [packet|] eqn:Ei; [|done]. simpl in E.
destruct (workerProcessor Propagate clock fuel packet (rp_db s)) as [[d r]|] eqn:Ew; [|done].
simpl in E. injection E as <-.
pose proof (eq_sym (take_drop_middle _ _ _ Ei)) as Hrun. pose proof (delete_take_drop (rp_running s) i) as Hdel.
pose proof (rinv_packets s Hs packet ltac:(right; by eapply list_elem_of_lookup_2)) as Hpk.
destruct (workerProcessor_frames _ _ _ _ Hpk Ew (rinv_unique s Hs)) as [Hu Hp].
set (s' := mkReplay _ _ _ _ _ _ _).
assert (no_error s' → no_error s ∧ r = None) as Hn.
{ intros Hn. split.
  - revert Hn. apply no_error_step; [intros y Hy; by right|]. destruct r as [v|]; [|by left].
    right. exists v. split; [done|]. intros ->. exists packet. left.
  - destruct Hn as [Hc Hn], r as [[e|]|]; [simpl in Hn; by rewrite AtomicGet_Set in Hn| |done].
    destruct (Hc packet). left. }
assert (∀ p, handed s p → handed s' p) as Hh.
{ intros p [Hp'|[Hp'|[o Hp']]]; [by left| |right; right; exists o; by right].
  rewrite Hrun in Hp'. apply elem_of_app in Hp' as [Hp'|[->|Hp']%elem_of_cons].
  - right. left. simpl. rewrite Hdel. apply elem_of_app. by left.
  - right. right. exists r. left.
  - right. left. simpl. rewrite Hdel. apply elem_of_app. by right. }
split; simpl; try apply Hs; try done.
- by rewrite Hp, (rinv_pool s Hs).
- intros p [Hp'|Hp']; apply (rinv_packets s Hs); [by left|right].
  rewrite Hdel in Hp'. rewrite Hrun. apply elem_of_app in Hp' as [|]; apply elem_of_app; [by left|by right; right].
- pose proof (rinv_threads s Hs). pose proof (length_delete (rp_running s) i ltac:(by eexists)). lia.
- intros r0 [Hn0 _]%Hn. by apply (rinv_started s Hs).
- intros r0 st x [Hn0 _]%Hn Hin Hx Ht. apply (row_place_mono s); [done|]. by apply (rinv_rows s Hs).
- intros p o [Hn0 ->]%Hn [[= -> ->]|Hin]%elem_of_cons; [done|]. by apply (rinv_done s Hs p).
Qed.

(** ** The readers *)
Context (Hids : ∀ x, x ∈ pool → ∃ id, row_id x id).

Lemma query_row x id d d' txPool :
unique_content (rows d) → rows d TableTxPool ≡ₚ pool → x ∈ pool → row_id x id →
QueryTxPool (mkTxPool id 0 "" "" None 0 "" 0) d = (d', Ok (txPool, None)) → txPool = loaded x.
Proof.
intros Hu Hp Hx Hid E. apply query_load_answer in E as [Er [(e & _ & [=])|E]].
rewrite Er in Hu. rewrite (Er TableTxPool) in Hp. clear Er.
unfold load_one in E. destruct (found _ (rows d' TableTxPool)) as [|r0 rs] eqn:Ef; [done|].
injection E as ->. unfold loaded. f_equal. f_equal.
assert (r0 ∈ rows d' TableTxPool ∧ row_id r0 id) as [Hr0 Hid0].
{ assert (In r0 (found (TxPool_where (mkTxPool id 0 "" "" None 0 "" 0)) (rows d' TableTxPool))) as Hin
    by (rewrite Ef; left; done).
  apply filter_In in Hin as [Hin Hm]. split; [by apply list_elem_of_In|].
  unfold matches in Hm. simpl in Hm. rewrite andb_true_r in Hm. by apply bool_decide_eq_true in Hm as [Hm _]. }
apply (unique_rows_eq TableTxPool ["id"] (rows d' TableTxPool)); [apply Hu|by left|done|by rewrite Hp|].
unfold project. simpl. by rewrite Hid, Hid0.
Qed.

Lemma topic_ids_in topic c x :
x ∈ c TableTxPool → x !! "topic" = Some (VStr topic) → as_str (x !! "id") ∈ topic_ids topic c.
Proof.
intros Hx Ht. unfold topic_ids. rewrite list_elem_of_In. apply in_map_iff. exists x. split; [done|].
apply list_elem_of_In. assert (∀ l, foldr insert_oldest [] l ≡ₚ l) as ->.
{ induction l as [|y l IH]; simpl; [done|]. by rewrite insert_oldest_perm, IH. }
apply list_elem_of_In, filter_In. split; [by apply list_elem_of_In|].
unfold matches. simpl. rewrite andb_true_r. by apply bool_decide_eq_true.
Qed.

(** A step of a reader. *)
Lemma reader_step_ok r st d errs d' errs' st' :
reader_ok r → unique_content (rows d) → rows d TableTxPool ≡ₚ pool →
reader_step r st d errs = Some (d', errs', st') →
rows d ≡ᶜ rows d' ∧
(errs' = errs ∨ ∃ e, errs' = AtomicSet (Some e) errs) ∧
match st' with Sending p _ => packet_ok p | _ => True end ∧
∀ s s' x, rp_errs s = errs → rp_errs s' = errs' → no_error s' → (∀ p, handed s p → handed s' p) →
  x ∈ pool → x !! "topic" = Some (VStr (reader_topic r)) → row_place s r st x → row_place s' r st' x.
Proof.
intros Hr Hu Hp E. destruct st as [|[|id l]|p l|]; simpl in E; try done.
- pose proof (select_rows (topic_ids (reader_topic r)) d) as Er.
  destruct (select (topic_ids (reader_topic r)) d) as [d1 [l|e]] eqn:Es; simplify_eq.
  + apply select_ok in Es as [_ ->]. split_and!; [done|by left|done|]. intros s s' x _ _ _ _ Hx Ht _. right.
    apply topic_ids_in; [|done]. by rewrite <-(Er TableTxPool), Hp.
  + split_and!; [done|right; by eexists|done|]. intros s s' x _ Es' [_ Hn].
    by rewrite Es', AtomicGet_Set in Hn.
- simplify_eq. split_and!; [done|by left|done|]. intros s s' x _ _ _ Hh _ _ [Hx|Hx]; [|by apply elem_of_nil in Hx].
  left. by eapply row_handed_mono.
- destruct (AtomicGet errs) as [e|] eqn:Ee.
  + simplify_eq. split_and!; [done|by left|done|]. intros s s' x _ Es' [_ Hn]. by rewrite Es', Ee in Hn.
  + destruct (QueryTxPool _ d) as [d1 [[txPool [e|]]|e]] eqn:Eq; cbn in E.
    * simplify_eq. apply query_load_answer in Eq as [Er _]. split_and!; [done|by left|done|].
      intros s s' x _ _ _ Hh _ _. by apply row_place_mono.
    * pose proof Eq as Er. apply query_load_answer in Er as [Er _].
      destruct (row_packet r txPool) as [p|e] eqn:Epk; simplify_eq.
      -- split_and!; [done|by left| |].
         { unfold row_packet, mbind, result_bind in Epk. destruct (ids_FromString _); [by eapply Hr|done]. }
         intros s s' x _ _ _ Hh Hx _ [Hh1|Hin]; [left; by eapply row_handed_mono|right].
         apply elem_of_cons in Hin as [Hid|Hin]; [right|by left].
         destruct (Hids x Hx) as [i Hi]. unfold row_id in Hi. rewrite Hi in Hid. simpl in Hid. subst id.
         by rewrite <-(query_row x i d d' txPool).
      -- split_and!; [done|right; by eexists|done|]. intros s s' x _ Es' [_ Hn].
         by rewrite Es', AtomicGet_Set in Hn.
    * exfalso. unfold QueryTxPool, query_load, attempt in Eq. rewrite bind_run in Eq.
      by destruct (query_one _ _ _ d).
Qed.

Lemma reader_place_step s s' i r st st' :
rp_readers s !! i = Some (r, st) → rp_readers s' = <[i := (r, st')]> (rp_readers s) →
(no_error s' → no_error s) → (∀ p, handed s p → handed s' p) →
(∀ x, no_error s' → x ∈ pool → x !! "topic" = Some (VStr (reader_topic r)) →
   row_place s r st x → row_place s' r st' x) →
replay_inv s →
(∀ r0, no_error s' → Starting r0 ∈ actions → Starting r0 ∈ rp_todo s ∨ ∃ st0, (r0, st0) ∈ rp_readers s') ∧
(∀ r0 st0 x, no_error s' → (r0, st0) ∈ rp_readers s' → x ∈ pool →
   x !! "topic" = Some (VStr (reader_topic r0)) → row_place s' r0 st0 x).
Proof.
intros Hi -> Hn Hh Hplace Hs. split.
- intros r0 Hn0 Hin. destruct (rinv_started s Hs r0 (Hn Hn0) Hin) as [|[st0 Hst]]; [by left|right].
  apply list_elem_of_lookup in Hst as [j Hj]. destruct (decide (j = i)) as [->|Hne].
  + exists st'. rewrite Hi in Hj. injection Hj as -> ->. apply list_elem_of_lookup. exists i.
    apply list_lookup_insert_eq. by eapply lookup_lt_Some.
  + exists st0. apply list_elem_of_lookup. exists j. by rewrite list_lookup_insert_ne.
- intros r0 st0 x Hn0 Hin Hx Ht. apply list_elem_of_lookup in Hin as [j Hj].
  destruct (decide (j = i)) as [->|Hne].
  + rewrite list_lookup_insert_eq in Hj by (by eapply lookup_lt_Some). injection Hj as <- <-.
    apply Hplace; [done..|]. apply (rinv_rows s Hs); [by apply Hn|by eapply list_elem_of_lookup_2|done|done].
  + rewrite list_lookup_insert_ne in Hj by done. apply (row_place_mono s); [done|].
    apply (rinv_rows s Hs); [by apply Hn|by eapply list_elem_of_lookup_2|done|done].
Qed.

Lemma readers_insert s i r st st' :
rp_readers s !! i = Some (r, st) → match st' with Sending p _ => packet_ok p | _ => True end →
replay_inv s → ∀ r0 st0, (r0, st0) ∈ <[i := (r, st')]> (rp_readers s) →
reader_ok r0 ∧ match st0 with Sending p _ => packet_ok p | _ => True end.
Proof.
intros Hi Hok Hs r0 st0 Hin. apply list_elem_of_lookup in Hin as [j Hj]. destruct (decide (j = i)) as [->|Hne].
- rewrite list_lookup_insert_eq in Hj by (by eapply lookup_lt_Some). injection Hj as <- <-. split; [|done].
  apply (rinv_readers s Hs r st). by eapply list_elem_of_lookup_2.
- rewrite list_lookup_insert_ne in Hj by done. apply (rinv_readers s Hs). by eapply list_elem_of_lookup_2.
Qed.

Lemma read_step_inv i s s' : read_step i s = Some s' → replay_inv s → replay_inv s'.
Proof.
intros E Hs. unfold read_step in E. destruct (rp_readers s !! i) as [[r st]|] eqn:Ei; [|done].
destruct (rinv_readers s Hs r st) as [Hr Hst]; [by eapply list_elem_of_lookup_2|].
assert ((∃ p l q, st = Sending p l ∧ Enque (rp_queue s) p = Some q ∧
    s' = mkReplay (rp_db s) (rp_errs s) (rp_todo s) (<[i := (r, Reading l)]> (rp_readers s)) q (rp_running s) (rp_done s)) ∨
  (∃ d errs st', reader_step r st (rp_db s) (rp_errs s) = Some (d, errs, st') ∧
    s' = mkReplay d errs (rp_todo s) (<[i := (r, st')]> (rp_readers s)) (rp_queue s) (rp_running s) (rp_done s)))
  as [(p & l & q & -> & Hq & ->)|(d & errs & st' & Hrd & ->)].
{ destruct st as [|l|p l|];
    try (right; destruct (reader_step _ _ _ _) as [[[d errs] st']|]; [|done]; injection E as <-; by eexists _, _, _).
  left. destruct (Enque (rp_queue s) p) as [q|] eqn:Eq; [|done]. injection E as <-. by eexists _, _, _. }
- clear E. pose proof (Enque_jobs _ _ _ Hq) as Hj. set (s' := mkReplay _ _ _ _ _ _ _).
  assert (∀ p0, handed s p0 → handed s' p0) as Hh.
  { intros p0 [Hp|Hp]; [left; simpl; rewrite Hj; apply elem_of_app; by left|by right]. }
  destruct (reader_place_step s s' i r (Sending p l) (Reading l)) as [H1' H2']; [done..| |done|].
  { intros x _ _ _ [Hx|[Hx|Hx]]; [left; by eapply row_handed_mono|by right|].
    left. exists p. split; [done|]. left. simpl. rewrite Hj. apply elem_of_app. right. by left. }
  split; simpl; try apply Hs; try done.
  + by eapply readers_insert.
  + intros p0 [Hp|Hp]; [|apply (rinv_packets s Hs); by right]. rewrite Hj in Hp.
    apply elem_of_app in Hp as [Hp| ->%list_elem_of_singleton]; [apply (rinv_packets s Hs); by left|done].
- clear E. destruct (reader_step_ok _ _ _ _ _ _ _ Hr (rinv_unique s Hs) (rinv_pool s Hs) Hrd) as (Ed & Ee & Hok & Hpl).
  set (s' := mkReplay _ _ _ _ _ _ _).
  assert (no_error s' → no_error s) as Hn.
  { apply no_error_step; [done|]. destruct Ee as [|[e Ee]]; [by left|right]. by exists (Some e). }
  destruct (reader_place_step s s' i r st st') as [H1' H2']; [done..| |done|].
  { intros x Hn' Hx Ht. by apply Hpl. }
  split; simpl; try apply Hs; try done.
  + rewrite <-Ed. apply Hs.
  + rewrite <-(Ed TableTxPool). apply Hs.
  + by eapply readers_insert.
  + intros p o Hn0%Hn. by apply (rinv_done s Hs).
Qed.

Lemma turn_inv c s s' : turn Propagate clock fuel queueTheads c s = Some s' → replay_inv s → replay_inv s'.
Proof.
destruct c as [|i| |i]; simpl; [apply main_step_inv|apply read_step_inv|apply take_step_inv|apply work_step_inv].
Qed.

Lemma turns_inv cs s s' : turns Propagate clock fuel queueTheads cs s = Some s' → replay_inv s → replay_inv s'.
Proof.
revert s. induction cs as [|c cs IH]; intros s; simpl; [by intros [= <-]|].
destruct (turn _ _ _ _ c s) as [s1|] eqn:E; [|done]. simpl. intros Er Hs.
apply (IH s1 Er). by eapply turn_inv.
Qed.
End facts.

(** * The property *)
Section property.
Context `{SqlEngine D} `{!SqlEngineOk D} `{!Dbr} `{!DbrOk} `{!AxiaIds} `{!AxiaMath} `{!AxiaCrypto} `{!Cfg}.
Context `{!CvmCodec} `{!AxJson} `{!AtomicInterface} `{!AtomicInterfaceOk}.
Context (Propagate : error → string → error) (clock : nat → Z) (fuel : nat).
Context (networkID : Z) (NewAvmWriter NewPvmWriter : string → result (Consumer D)).
Context (NewCvmWriter : string → result cvm.Writer) (queueSize queueTheads : nat).

Lemma Start_actions_ok Chains AXchainID a :
(∀ id w, NewAvmWriter id = Ok w ∨ NewPvmWriter id = Ok w → ConsumerOk w) →
a ∈ Start_actions networkID NewAvmWriter NewPvmWriter NewCvmWriter Chains AXchainID → action_ok a.
Proof.
intros Hw [Ha|Ha]%elem_of_app.
- apply list_elem_of_In, in_flat_map in Ha as (ch & _ & Ha%list_elem_of_In). unfold handleReader in Ha.
  destruct (if decide _ then _ else _) as [wr|e] eqn:E; [|by apply list_elem_of_singleton in Ha as ->].
  assert (ConsumerOk wr) as Hok.
  { repeat case_decide; [|by apply (Hw (Chain_ID ch)); right|done]. apply (Hw (Chain_ID ch)). by left. }
  apply elem_of_cons in Ha as [->|Ha]; [done|].
  apply elem_of_cons in Ha as [->|Ha%list_elem_of_singleton]; [|subst a]; by intros msg b p [= <-].
- unfold handleCReader in Ha. destruct (NewCvmWriter AXchainID) as [wr|e];
    [|by apply list_elem_of_singleton in Ha as ->].
  apply elem_of_cons in Ha as [->|Ha].
  { intros msg b p E. simpl in E. unfold mbind, result_bind in E. destruct (cblock_Unmarshal b); [|done].
    by injection E as <-. }
  apply elem_of_cons in Ha as [->|Ha%list_elem_of_singleton]; [|subst a]; by intros msg b p [= <-].
Qed.

Lemma replay_start_inv Chains AXchainID (d : D) :
(∀ id w, NewAvmWriter id = Ok w ∨ NewPvmWriter id = Ok w → ConsumerOk w) → unique_content (rows d) →
replay_inv queueTheads (Start_actions networkID NewAvmWriter NewPvmWriter NewCvmWriter Chains AXchainID)
  (rows d TableTxPool)
  (replay_start networkID NewAvmWriter NewPvmWriter NewCvmWriter queueSize d Chains AXchainID).
Proof.
intros Hw Hu. split; simpl; try done.
- intros a. by apply Start_actions_ok.
- intros r st Hin. by apply elem_of_nil in Hin.
- intros p [Hin|Hin]; by apply elem_of_nil in Hin.
- lia.
- intros r _ Hin. by left.
- intros r st x _ Hin. by apply elem_of_nil in Hin.
- intros p o _ Hin. by apply elem_of_nil in Hin.
Qed.

(** C22. A replay accounts for the whole pool.  Whatever the scheduler does, when [Start]
  returns without an error, every row of the pool that belongs to a topic of the
  configuration was given to the writer of its chain, as the message of its key, its
  bytes and its time, and was consumed without an error, unless it is one of the at
  most [queueTheads] rows a worker still has in its hands: [Start] waits for the queue,
  not for the workers.  This supposes that no trace and no log had a text that is not
  understood: such a text sets the cell of the errors to [nil], which forgets the
  errors of the others. *)
Theorem replay_accounted Chains AXchainID cs (d : D) s :
(∀ id w, NewAvmWriter id = Ok w ∨ NewPvmWriter id = Ok w → ConsumerOk w) →
unique_content (rows d) → (∀ x, x ∈ rows d TableTxPool → ∃ id, row_id x id) →
turns Propagate clock fuel queueTheads cs
  (replay_start networkID NewAvmWriter NewPvmWriter NewCvmWriter queueSize d Chains AXchainID) = Some s →
Start_returns s = Some None → (∀ p, (p, Some None) ∉ rp_done s) →
length (rp_running s) ≤ queueTheads ∧
∀ r x, Starting r ∈ Start_actions networkID NewAvmWriter NewPvmWriter NewCvmWriter Chains AXchainID →
  x ∈ rows d TableTxPool → x !! "topic" = Some (VStr (reader_topic r)) →
  ∃ p, row_packet r (load_TxPool (restrict TxPool_columns x)) = Ok p ∧
       (p ∈ rp_running s ∨ (p, None) ∈ rp_done s).
Proof.
intros Hw Hu Hids Hs Hret Hc.
pose proof (turns_inv _ _ _ queueTheads _ _ Hids cs _ _ Hs (replay_start_inv Chains AXchainID d Hw Hu)) as Hi.
split; [by apply Hi|]. intros r x Hr Hx Ht. unfold Start_returns in Hret.
destruct (rp_todo s) eqn:Et; [|done]. destruct (_ && _) eqn:Ef; [|done]. injection Hret as Hn.
apply andb_true_iff in Ef as [Hf Hq]. assert (no_error s) as Hne by by split.
destruct (rinv_started _ _ _ _ Hi r Hne Hr) as [Hin|[st Hst]]; [rewrite Et in Hin; by apply elem_of_nil in Hin|].
assert (st = Finished) as ->.
{ rewrite forallb_forall in Hf. apply list_elem_of_In in Hst. specialize (Hf _ Hst). by destruct st. }
destruct (rinv_rows _ _ _ _ Hi r Finished x Hne Hst Hx Ht) as [(p & Hp & Hh)|[]].
exists p. split; [done|]. destruct Hh as [Hh|[Hh|[o Ho]]].
- unfold IsFinished, JobCnt in Hq. apply Z.eqb_eq in Hq. destruct (jobCh (rp_queue s)); [by apply elem_of_nil in Hh|done].
- by left.
- right. by rewrite <-(rinv_done _ _ _ _ Hi p o Hne Ho).
Qed.
End property.

(** ** A pool with two blocks of the platform chain, a log and a trace *)
Module ReplaySample.
Import Toy ToyDbr Sample ToyCodec.

#[export] Instance cell : AtomicInterface := {
AtomicCell := option error;
NewAtomic := None;
AtomicGet c := c;
AtomicSet v _ := v;
}.
#[export] Instance cell_ok : AtomicInterfaceOk.
Proof. by split. Qed.

(** The text of a log that is not understood. *)
#[export] Instance json : AxJson := {
json_trace _ := Err "unused";
json_log _ := Err "unused";
json_block _ := Err "unused";
unjson_trace _ := Ok AxSample.trace;
unjson_log b := if String.eqb b "bad" then Err "invalid character" else Ok AxSample.log;
unjson_cblock _ := Ok (modelsc_New AxSample.block, []);
unjson_tx _ := Err "unused";
}.

Definition NewAvm (id : string) : result (Consumer MemDb) := Err "no such chain".
Definition NewPvm (id : string) : result (Consumer MemDb) := Ok (pvm_Consumer propagate clock w 0 [] [] []).
Definition NewCvm (id : string) : result cvm.Writer := Ok AxSample.wc.

Lemma writers_ok id w : NewAvm id = Ok w ∨ NewPvm id = Ok w → ConsumerOk w.
Proof. intros [[=]|[= <-]]. apply _. Qed.

Definition ax_row (suffix body : string) (t : Z) : TxPool :=
mkTxPool (suffix +:+ body) 1 "C" "m" (Some body) 0 ("1-C-axchain" +:+ suffix) t.
Definition pool_with (tp : TxPool) (d : MemDb) : MemDb := (InsertTxPool tp d).1.
Definition db : MemDb := pool_with (ax_row "-logs" "good" 5) (w_db first_world).

Abbreviation begin d := (replay_start 1 NewAvm NewPvm NewCvm 4 d [mkChain "P" "pvm"] "C").
Abbreviation run d cs := (turns propagate clock 3 2 cs (begin d)).
Definition final (d : MemDb) (cs : list choice) : replay := default (begin d) (run d cs).

(** Everything is started, then the readers read their topics in turn. *)
Definition read_all : list choice :=
repeat Main 6 ++
[Reader 0; Reader 0; Reader 0; Reader 0; Reader 0; Reader 0; Reader 1; Reader 1; Reader 2; Reader 2].
Definition read_none (i : nat) : list choice := [Reader i; Reader i].
Definition read_one (i : nat) : list choice := [Reader i; Reader i; Reader i; Reader i].

Definition replay_all : list choice :=
read_all ++ read_none 3 ++ read_one 4 ++ [Take; Work 0; Take; Work 0; Take; Work 0].

Example replayed :
let s := final db replay_all in
Start_returns s = Some None ∧ map snd (rp_done s) = [None; None; None] ∧ rp_running s = [].
Proof. split_and!; vm_compute; reflexivity. Qed.

(** The trace cannot be consumed, and the log is not understood. *)
Definition bad_db : MemDb :=
pool_with (ax_row "-trc" "t" 5) (pool_with (ax_row "-logs" "bad" 6) (w_db first_world)).
Definition bad_read : list choice := read_all ++ read_one 3 ++ read_one 4.

(** The error of the trace is forgotten when the log is dropped. *)
Example error_forgotten :
let s := final bad_db (bad_read ++ [Take; Work 0; Take; Work 0; Take; Work 0; Take; Work 0]) in
Start_returns s = Some None ∧ map snd (rp_done s) = [Some None; Some (Some "none"); None; None].
Proof. split; vm_compute; reflexivity. Qed.

(** [Start] can return before the last packets are consumed, and miss their errors. *)
Definition early : replay := final bad_db (bad_read ++ [Take; Work 0; Take; Work 0; Take; Take]).
Example not_awaited :
Start_returns early = Some None ∧
(s ← turn propagate clock 3 2 (Work 1) early; Start_returns s) = Some (Some "none").
Proof. split; vm_compute; reflexivity. Qed.
End ReplaySample.

Import Toy ToyDbr Sample ToyCodec ReplaySample.

Lemma rows_have_ids (l : list row) :
  forallb (λ x, match x !! "id" with Some (VStr _) => true | _ => false end) l = true →
  ∀ x, x ∈ l → ∃ id, row_id x id.
Proof.
  rewrite forallb_forall. intros Hf x Hx%list_elem_of_In. specialize (Hf x Hx). unfold row_id.
  destruct (x !! "id") as [[]|]; by eauto.
Qed.

Lemma all_consumed {A} (l : list (A * option (option error))) :
  forallb (λ x, match x.2 with None => true | Some _ => false end) l = true → ∀ p, (p, Some None) ∉ l.
Proof. rewrite forallb_forall. intros Hf p Hp%list_elem_of_In. by specialize (Hf _ Hp). Qed.

Lemma replay_all_runs : run db replay_all = Some (final db replay_all).
Proof. unfold final. apply some_default. vm_compute. reflexivity. Qed.

Lemma replay_accounted_witness :
  length (rp_running (final db replay_all)) ≤ 2 ∧
  ∀ r x, Starting r ∈ Start_actions 1 NewAvm NewPvm NewCvm [mkChain "P" "pvm"] "C" →
    x ∈ rows db TableTxPool → x !! "topic" = Some (VStr (reader_topic r)) →
    ∃ p, row_packet r (load_TxPool (restrict TxPool_columns x)) = Ok p ∧
         (p ∈ rp_running (final db replay_all) ∨ (p, None) ∈ rp_done (final db replay_all)).
Proof.
  apply (replay_accounted propagate clock 3 1 NewAvm NewPvm NewCvm 4 2 [mkChain "P" "pvm"] "C" replay_all db
    (final db replay_all)).
  - apply writers_ok.
  - apply unique_db_ok. vm_compute. reflexivity.
  - apply rows_have_ids. vm_compute. reflexivity.
  - exact replay_all_runs.
  - vm_compute. reflexivity.
  - apply all_consumed. vm_compute. reflexivity.
Defined.
