(* ===== verification/Bootstrap.v ===== *)
(** stream/consumers/indexer.go: [Bootstrap], which indexes the genesis of every chain
    of the configuration once, with the constructors of the writers
    (services/indexes/avm/writer.go, services/indexes/pvm/writer.go) and the genesis they
    read (utils/avmcodec.go, utils/genesis.go).

    A goroutine per chain and factory runs the [Bootstrap] of its writer.  A step of the
    system is one statement of one goroutine on the database; they interleave freely. *)

From S2P Require Import Prelude Errors Sql MemDb Axia DbModel Persist Prog Models AxcWriter Writer AvmWriter PvmWriter Replay.

(** * The genesis of a network (third-party)

    [genesis_FromConfig] is [genesis.FromConfig(genesis.GetConfig(networkID))]; of a
    transaction of the genesis, [createChainTx] is what the program reads of an
    [UnsignedCreateChainTx]. *)
Record PlatformGenesis := mkPlatformGenesis {
  Genesis_Timestamp : Z;
  Genesis_UTXOs : list TransferableOutput;
  Genesis_Validators : list PvmTx;
  Genesis_Chains : list PvmTx;
}.

Record CreateChainTx := mkCreateChainTx {
  CreateChain_VMID : ID;
  CreateChain_FxIDs : list ID;
  CreateChain_GenesisData : string;
}.

Class NodeGenesis := {
  genesis_FromConfig : Z → result (string * ID);
  genesis_VMGenesis : string → ID → result PvmTx;
  genesis_Unmarshal : string → result PlatformGenesis;
  genesis_Initialize : PlatformGenesis → result PlatformGenesis;
  createChainTx : PvmTx → option CreateChainTx;
  PvmTx_ID : PvmTx → ID;
  constants_AVMID : ID;
  secp256k1fx_ID : ID;
  nftfx_ID : ID;
  aliaser_Alias : ID → string → result unit;    (* on a new [ids.Aliaser] *)
}.

(** * utils/avmcodec.go *)
Inductive Fx := Secp256k1Fx | NftFx.

Section codec.
Context `{!AxiaIds} `{!NodeGenesis}.

Definition genesis_fxs (fxIDs : list ID) : list Fx :=
flat_map (λ fxID, if decide (fxID = secp256k1fx_ID) then [Secp256k1Fx]
              else if decide (fxID = nftfx_ID) then [NftFx] else []) fxIDs.

(** [NewCodecs] is [avm.NewCodecs]; the codec is [nil], without an error, when there is
no configuration of the network.  [None]: the size is set on no codec, which panics. *)
Definition NewAVMCodec {Codec} (NewCodecs : list Fx → result Codec) (networkID : Z)
: option (result (option Codec)) :=
match genesis_FromConfig networkID with
| Err _ => Some (Ok None)
| Ok (genesisBytes, _) =>
match genesis_VMGenesis genesisBytes constants_AVMID with
| Err e => Some (Err e)
| Ok g =>
    match createChainTx g with
    | None => Some (Err avm.ErrIncorrectGenesisChainTxType)
    | Some tx =>
        match NewCodecs (genesis_fxs (CreateChain_FxIDs tx)) with
        | Err _ => None
        | Ok codec => Some (Ok (Some codec))
        end
    end
end
end.

(** * utils/genesis.go *)
Record GenesisContainer := mkGenesisContainer {
GC_NetworkID : Z;
GC_SwapChainGenesisTx : PvmTx;
GC_SwapChainID : ID;
GC_AxcAssetID : ID;
GC_GenesisBytes : string;
}.

Definition NewGenesisContainer (networkID : Z) : result GenesisContainer :=
'(genesisBytes, axcAssetID) ← genesis_FromConfig networkID;
tx ← genesis_VMGenesis genesisBytes constants_AVMID;
Ok (mkGenesisContainer networkID tx (PvmTx_ID tx) axcAssetID genesisBytes).
End codec.

(** * The writers *)
Section writers.
Context `{!AxiaIds} `{!AxiaMath} `{!AxiaCrypto} `{!Cfg} `{!AvmCodec} `{!PvmCodec} `{!NodeGenesis}.
Context (Propagate : error → string → error).
Context {Codec : Type} (NewCodecs : list Fx → result Codec).

(** What the two constructors share, after the codec. *)
Definition new_writer (networkID : Z) (chainID alias : string) : result axc.Writer :=
'(_, axcAssetID) ← genesis_FromConfig networkID;
id ← ids_FromString chainID;
_ ← aliaser_Alias id alias;
Ok (axc.NewWriter chainID axcAssetID).

(** [None] : a panic in [NewAVMCodec]. *)
Definition avm_NewWriter (networkID : Z) (chainID : string) : option (result axc.Writer) :=
r ← NewAVMCodec NewCodecs networkID;
Some (_ ← r; new_writer networkID chainID "Swap").

Definition pvm_NewWriter (networkID : Z) (chainID : string) : option (result axc.Writer) :=
Some (new_writer networkID chainID "Core").

(** What [avm.Bootstrap] reads of the chains of the genesis. *)
Definition genesis_chains (g : PlatformGenesis) : list (option (ID * string)) :=
map (λ tx, tx ← createChainTx tx; Some (CreateChain_VMID tx, CreateChain_GenesisData tx)) (Genesis_Chains g).

Definition avm_Bootstrap (networkID : Z) (w : axc.Writer) : Prog unit :=
'(platformGenesisBytes, _) ← wrap_err (λ e, Propagate e "Failed to get platform genesis bytes")
                           (lift (genesis_FromConfig networkID));
g ← wrap_err (λ e, Propagate e "Failed to parse platform genesis bytes") (lift (genesis_Unmarshal platformGenesisBytes));
platformGenesis ← wrap_err (λ e, Propagate e "Failed to initialize platform genesis") (lift (genesis_Initialize g));
avm.Bootstrap Propagate constants_AVMID w (Genesis_Timestamp platformGenesis) (genesis_chains platformGenesis).

Definition pvm_Bootstrap (networkID : Z) (w : axc.Writer) : Prog unit :=
'(genesisBytes, _) ← lift (genesis_FromConfig networkID);
g ← lift (genesis_Unmarshal genesisBytes);
platformGenesis ← lift (genesis_Initialize g);
pvm.Bootstrap Propagate w (Genesis_Timestamp platformGenesis) (Genesis_UTXOs platformGenesis)
(Genesis_Validators platformGenesis) (Genesis_Chains platformGenesis).

(** A factory gives the [Bootstrap] of the consumer it makes. *)
Definition ConsumerFactory : Type := Z → string → string → option (result (Prog unit)).

Definition IndexerConsumer : ConsumerFactory := λ networkID chainVM chainID,
if decide (chainVM = IndexerAVMName) then
r ← avm_NewWriter networkID chainID; Some (w ← r; Ok (avm_Bootstrap networkID w))
else if decide (chainVM = IndexerPVMName) then
r ← pvm_NewWriter networkID chainID; Some (w ← r; Ok (pvm_Bootstrap networkID w))
else Some (Err "unknown VM").
End writers.

(** * consumers.Bootstrap *)
Definition KeyValueBootstrap : string := "bootstrap".
Definition bootstrapValue : string := "true".

(** A goroutine: what is left of its program, or what it returned. *)
Inductive goroutine := Running (p : Prog unit) | Returned (r : result unit).

(** Where [Bootstrap] is: about to look for the mark; with consumers left to start;
    at [wg.Wait()]; done. *)
Inductive boot_phase :=
| Looking
| Launching (todo : list (option (result (Prog unit))))
| Waiting
| Panicked
| Ended (r : result unit).

Section bootstrap.
Context `{SqlEngine D} `{!Dbr} `{!AtomicInterface}.

Record bootstrap := mkBootstrap {
bs_db : D;
bs_errs : AtomicCell;
bs_phase : boot_phase;
bs_go : list goroutine;
}.

Definition boot_row (v : string) : KeyValueStore := mkKeyValueStore KeyValueBootstrap v.

(** The loops over the chains (a Go map: the order is any) and the factories. *)
Definition boot_jobs (networkID : Z) (chains : list Chain) (factories : list ConsumerFactory)
: list (option (result (Prog unit))) :=
flat_map (λ chain, map (λ factory, factory networkID (Chain_VMType chain) (Chain_ID chain)) factories) chains.

(** The value under the key, empty when the query fails. *)
Definition stored_mark (d : D) : D * string :=
match QueryKeyValueStore (boot_row "") d with
| (d', Ok (v, _)) => (d', KeyValueStore_V v)
| (d', Err _) => (d', "")
end.

Definition is_returned (g : goroutine) : bool := match g with Returned _ => true | Running _ => false end.

Context (jobs : list (option (result (Prog unit)))).

(** The main goroutine. *)
Definition boot_main (s : bootstrap) : option bootstrap :=
match bs_phase s with
| Looking =>
let '(d, v) := stored_mark (bs_db s) in
Some (mkBootstrap d (bs_errs s) (if decide (v = bootstrapValue) then Ended (Ok tt) else Launching jobs) (bs_go s))
| Launching [] => Some (mkBootstrap (bs_db s) (bs_errs s) Waiting (bs_go s))
| Launching (None :: _) => Some (mkBootstrap (bs_db s) (bs_errs s) Panicked (bs_go s))
| Launching (Some (Err e) :: _) => Some (mkBootstrap (bs_db s) (bs_errs s) (Ended (Err e)) (bs_go s))
| Launching (Some (Ok p) :: todo) =>
Some (mkBootstrap (bs_db s) (bs_errs s) (Launching todo) (bs_go s ++ [Running p]))
| Waiting =>
if forallb is_returned (bs_go s) then
  match AtomicGet (bs_errs s) with
  | Some e => Some (mkBootstrap (bs_db s) (bs_errs s) (Ended (Err e)) (bs_go s))
  | None =>
      let '(d, r) := InsertKeyValueStore (boot_row bootstrapValue) (bs_db s) in
      Some (mkBootstrap d (bs_errs s) (Ended r) (bs_go s))
  end
else None
| Panicked | Ended _ => None
end.

(** What a goroutine does next.  [now] is the clock; [cut] is the error of a statement on
a connection that is closed, which it is once [Bootstrap] has returned. *)
Definition goroutine_step (now : Z) (cut : option error) (p : Prog unit) (d : D) : D * goroutine :=
match p with
| Ret tt => (d, Returned (Ok tt))
| Fail e => (d, Returned (Err e))
| Now k => (d, Running (k now))
| Do o k =>
match cut with
| Some e => (d, Running (k (Err e)))
| None => let '(d', r) := perform o d in (d', Running (k r))
end
end.

Definition boot_go (i : nat) (now : Z) (cut : option error) (s : bootstrap) : option bootstrap :=
match bs_go s !! i with
| Some (Running p) =>
let '(d, g) := goroutine_step now (match bs_phase s with Ended _ => cut | _ => None end) p (bs_db s) in
let errs := match g with Returned (Err e) => AtomicSet (Some e) (bs_errs s) | _ => bs_errs s end in
Some (mkBootstrap d errs (bs_phase s) (<[i := g]> (bs_go s)))
| _ => None
end.

Inductive boot_choice := MainTurn | GoTurn (i : nat) (now : Z) (cut : option error).

Definition boot_turn (c : boot_choice) (s : bootstrap) : option bootstrap :=
match c with
| MainTurn => boot_main s
| GoTurn i now cut => boot_go i now cut s
end.

Fixpoint boot_turns (cs : list boot_choice) (s : bootstrap) : option bootstrap :=
match cs with
| [] => Some s
| c :: cs => s' ← boot_turn c s; boot_turns cs s'
end.

(** The start: nothing to do when it is disabled, an error when there is no connection. *)
Definition boot_start (IsDisableBootstrap : bool) (Database : result unit) (d : D) : bootstrap :=
mkBootstrap d NewAtomic
(if IsDisableBootstrap then Ended (Ok tt) else match Database with Err e => Ended (Err e) | Ok _ => Looking end) [].
End bootstrap.
