(* ===== verification/BootstrapFacts.v ===== *)
(** What the bootstrap guarantees: its mark is stored only once the genesis of every
    chain of the configuration is, however its goroutines interleave; and a start that
    finds the mark does nothing. *)

From S2P Require Import Prelude Errors Sql MemDb Axia DbModel Persist Persistence Prog Models AxcWriter Writer AvmWriter PvmWriter Indexing Processors Replay ReplayFacts Bootstrap.

(** * The mark *)
Definition marked (c : content) : Prop :=
  ∃ r, r ∈ c TableKeyValueStore ∧ r !! "k" = Some (VStr KeyValueBootstrap) ∧ as_str (r !! "v") = bootstrapValue.
Definition unmarked (c : content) : Prop :=
  ∀ r, r ∈ c TableKeyValueStore → r !! "k" ≠ Some (VStr KeyValueBootstrap).

(** The operations of a consumer's [Bootstrap]: they keep what is stored, and leave the
    marks alone. *)
Definition boot_op (o : pop) : Prop := gentle o ∧ pop_table o ≠ TableKeyValueStore.

Record boot_ok (p : Prog unit) : Prop := {
  boot_strict : strict p;
  boot_emits : emits boot_op p;
}.

Lemma marked_not_unmarked c : unmarked c → ¬ marked c.
Proof. intros Hu (r & Hr & Hk & _). by apply (Hu r). Qed.

Lemma marked_perm c c' : c TableKeyValueStore ≡ₚ c' TableKeyValueStore → marked c → marked c'.
Proof. intros E (r & Hr & Hkv). exists r. by rewrite <-E. Qed.
Lemma unmarked_perm c c' : c TableKeyValueStore ≡ₚ c' TableKeyValueStore → unmarked c → unmarked c'.
Proof. intros E Hu r. rewrite <-E. apply Hu. Qed.

Section mark.
Context `{SqlEngine D} `{!SqlEngineOk D} `{!Dbr} `{!DbrOk}.
Implicit Types d : D.

(** The row a successful insertion leaves under the key, when there was none. *)
Lemma insert_mark d d' :
unique_content (rows d) → unmarked (rows d) →
InsertKeyValueStore (boot_row bootstrapValue) d = (d', Ok tt) → marked (rows d').
Proof.
intros Hu Hm Hi.
change (perform (PInsert (EKeyValueStore (boot_row bootstrapValue)) false) d = (d', Ok tt)) in Hi.
apply perform_ok in Hi; [|done]. apply insert_entity_found in Hi.
- assert (In (new_row TableKeyValueStore (KeyValueStore_pairs (boot_row bootstrapValue)))
  (found (KeyValueStore_where (boot_row bootstrapValue)) (rows d' TableKeyValueStore))) as Hin
  by (simpl in Hi; rewrite Hi; left; done).
apply filter_In in Hin as [Hin _]. eexists. by split; [apply list_elem_of_In, Hin|].
- apply clashes_false. intros k r Hk Hr E. simpl in Hr, Hk.
apply list_elem_of_singleton in Hk as ->. injection E as E.
apply (Hm r Hr). by rewrite <-E.
Qed.

Lemma insert_mark_unique d :
unique_content (rows d) → unique_content (rows (InsertKeyValueStore (boot_row bootstrapValue) d).1).
Proof. apply (perform_unique (PInsert (EKeyValueStore (boot_row bootstrapValue)) false)). Qed.

Lemma insert_mark_stored d e :
sql_stored d e → sql_stored (InsertKeyValueStore (boot_row bootstrapValue) d).1 e.
Proof.
exact (stored_kept (S:=D) (PInsert (EKeyValueStore (boot_row bootstrapValue)) false) e d eq_refl).
Qed.

Lemma load_mark (r : row) :
KeyValueStore_V (load_KeyValueStore (restrict KeyValueStore_columns r)) = as_str (r !! "v").
Proof.
unfold load_KeyValueStore. simpl. rewrite (NameMapping_ok "V" "v") by done.
unfold restrict, KeyValueStore_columns. simpl.
destruct (r !! "k"), (r !! "v"); by simplify_map_eq.
Qed.

(** What the query for the mark sees. *)
Lemma stored_mark_spec d d' v :
stored_mark d = (d', v) → rows d ≡ᶜ rows d' ∧
(v = bootstrapValue → marked (rows d)) ∧
(unique_content (rows d) → marked (rows d) → is_ok (poll d).2 = true → v = bootstrapValue).
Proof.
unfold stored_mark. intros E.
destruct (QueryKeyValueStore (boot_row "") d) as [d1 [[q err]|e]] eqn:Eq; injection E as <- <-.
2: { exfalso. unfold QueryKeyValueStore, query_load, attempt in Eq. rewrite bind_run in Eq.
by destruct (query_one _ _ _ d). }
apply query_load_answer in Eq as [Er Hq]. split; [done|].
assert (∀ r, r ∈ rows d1 TableKeyValueStore ∧ r !! "k" = Some (VStr KeyValueBootstrap) ↔
r ∈ found (KeyValueStore_where (boot_row "")) (rows d1 TableKeyValueStore)) as Hf.
{ intros r. unfold found. rewrite (list_elem_of_In (List.filter _ _)), filter_In, <-list_elem_of_In.
unfold matches. simpl. rewrite andb_true_r, bool_decide_eq_true. naive_solver. }
unfold load_one in Hq.
assert (KeyValueStore_V (load_KeyValueStore ∅) ≠ bootstrapValue) as He.
{ simpl. by rewrite lookup_empty. }
destruct Hq as [(e & Hp & [= -> ->])|Hq].
{ split; [by intros ?|]. intros _ _. by rewrite Hp. }
destruct (found _ _) as [|r rs] eqn:Ef; simpl in Hq; injection Hq as -> ->.
- split; [done|]. intros _ (r & Hr & Hk & _) _. exfalso. rewrite (Er TableKeyValueStore) in Hr.
by apply (not_elem_of_nil r), Hf.
- destruct (proj2 (Hf r) ltac:(left)) as [Hr Hk]. rewrite load_mark. split.
+ intros Hv. exists r. rewrite (Er TableKeyValueStore). by split_and!.
+ intros Hu (r' & Hr' & Hk' & Hv') _. rewrite Er in Hu. rewrite (Er TableKeyValueStore) in Hr'.
  assert (r' = r) as ->; [|done].
  apply (unique_rows_eq TableKeyValueStore ["k"] (rows d1 TableKeyValueStore)); [apply Hu|left|done|done|].
  unfold project. simpl. by rewrite Hk, Hk'.
Qed.
End mark.

(** * The goroutines *)
Section goroutines.
Context `{SqlEngine D} `{!SqlEngineOk D} `{!AtomicInterface}.
Implicit Types d : D.

(** What is left of [p] is [q], and every row inserted on the way is stored. *)
Definition progress d (p q : Prog unit) : Prop :=
∃ l, (∀ Q, wlp p Q → wlp q (λ l' a, Q (l ++ l') a)) ∧ strict q ∧ ∀ e, PInsert e false ∈ l → sql_stored d e.

Definition go_ok d (errs : AtomicCell) (p : Prog unit) (g : goroutine) : Prop :=
match g with
| Running q => emits boot_op q ∧ (progress d p q ∨ returns (λ _, False) q)
| Returned (Ok _) => progress d p (Ret tt)
| Returned (Err _) => AtomicGet errs ≠ None
end.

Lemma progress_start d p : strict p → progress d p p.
Proof. intros Hs. exists []. split; [done|]. split; [done|]. intros e Hin. by apply elem_of_nil in Hin. Qed.

Lemma go_ok_mono d d' errs errs' p g :
(∀ e, sql_stored d e → sql_stored d' e) → (AtomicGet errs ≠ None → AtomicGet errs' ≠ None) →
go_ok d errs p g → go_ok d' errs' p g.
Proof.
intros Hd He. assert (∀ q, progress d p q → progress d' p q) as Hp.
{ intros q (l & Hq & Hs & Hst). exists l. auto. }
destruct g as [q|[[]|e]]; simpl; [|by apply Hp|done]. intros [Hq [Hr|Hr]]; split; auto.
Qed.

(** A statement that succeeds. *)
Lemma progress_do d d' p o k :
emits boot_op (Do o k) → perform o d = (d', Ok tt) → progress d p (Do o k) → progress d' p (k (Ok tt)).
Proof.
intros [[Hg _] _] Hp (l & Hq & [Hs _] & Hst). exists (l ++ [o]). split; [|split; [done|]].
- intros Q HQ. specialize (Hq Q HQ). unfold wlp in *. simpl in Hq. eapply wp_mono; [exact Hq|done|].
intros l' a. simpl. by rewrite <-app_assoc.
- intros e [Hin|Ho%list_elem_of_singleton]%elem_of_app.
+ pose proof (stored_kept (S:=D) o e d Hg (Hst e Hin)) as Hk. by rewrite Hp in Hk.
+ subst o. exact (insert_stored (S:=D) e d d' Hp).
Qed.

Lemma goroutine_step_db now cut q d d' g :
emits boot_op q → goroutine_step now cut q d = (d', g) →
(unique_content (rows d) → unique_content (rows d')) ∧ (∀ e, sql_stored d e → sql_stored d' e) ∧
rows d' TableKeyValueStore ≡ₚ rows d TableKeyValueStore.
Proof.
intros Hq E. destruct q as [[]|e|o k|k]; cbn [goroutine_step] in E; try (by injection E as <- <-).
destruct cut; [by injection E as <- <-|]. destruct Hq as [[Hg Ht] _].
destruct (perform o d) as [d1 r] eqn:Ep. injection E as <- <-. split_and!.
- intros Hu. pose proof (perform_unique o d Hu) as Hp. by rewrite Ep in Hp.
- intros e He. pose proof (stored_kept (S:=D) o e d Hg He) as Hk. by rewrite Ep in Hk.
- pose proof (perform_frame o d TableKeyValueStore) as Hf. rewrite Ep in Hf. by apply Hf.
Qed.

Context `{!AtomicInterfaceOk}.

(** The errors after a step of a goroutine. *)
Definition errs_after (g : goroutine) (errs : AtomicCell) : AtomicCell :=
match g with Returned (Err e) => AtomicSet (Some e) errs | _ => errs end.

Lemma errs_after_kept g errs : AtomicGet errs ≠ None → AtomicGet (errs_after g errs) ≠ None.
Proof. destruct g as [|[|e]]; simpl; [done..|]. by rewrite AtomicGet_Set. Qed.

Lemma goroutine_step_ok now cut p q d d' g errs :
go_ok d errs p (Running q) → goroutine_step now cut q d = (d', g) → go_ok d' (errs_after g errs) p g.
Proof.
intros [Hq Hp] E. destruct q as [[]|e|o k|k]; cbn [goroutine_step] in E.
- injection E as <- <-. simpl. by destruct Hp as [Hp|Hp].
- injection E as <- <-. simpl. by rewrite AtomicGet_Set.
- assert (∀ e, returns (λ _, False) (k (Err e))) as He.
{ intros e. destruct Hp as [(l & _ & [_ Hs] & _)|Hp]; [apply Hs|apply Hp]. }
destruct cut as [e|].
+ injection E as <- <-. split; [apply Hq|]. by right.
+ destruct (perform o d) as [d1 [[]|e]] eqn:Ep; injection E as <- <-; (split; [apply Hq|]).
  * destruct Hp as [Hp|Hp]; [left; by eapply progress_do|right; apply Hp].
  * by right.
- injection E as <- <-. split; [apply Hq|]. destruct Hp as [(l & HQ & Hs & Hst)|Hp]; [left|right; apply Hp].
exists l. split_and!; [|apply Hs|done]. intros Q Hw. apply (HQ Q Hw).
Qed.
End goroutines.

(** * The system *)
Section system.
Context `{SqlEngine D} `{!SqlEngineOk D} `{!Dbr} `{!DbrOk} `{!AtomicInterface} `{!AtomicInterfaceOk}.
Context (jobs : list (option (result (Prog unit)))).
Context (Hjobs : ∀ p, Some (Ok p) ∈ jobs → boot_ok p).
Implicit Types (d : D) (s : bootstrap (D:=D)).

(** Every consumer was started, and returned without an error. *)
Definition completed s : Prop :=
length (bs_go s) = length jobs ∧ ∀ g, g ∈ bs_go s → g = Returned (Ok tt).

Definition phase_ok s : Prop :=
match bs_phase s with
| Looking => bs_go s = [] ∧ unmarked (rows (bs_db s))
| Launching todo => jobs = take (length (bs_go s)) jobs ++ todo ∧ length (bs_go s) + length todo = length jobs ∧
                  unmarked (rows (bs_db s))
| Waiting => length (bs_go s) = length jobs ∧ unmarked (rows (bs_db s))
| Panicked => unmarked (rows (bs_db s))
| Ended r => (r = Ok tt → marked (rows (bs_db s))) ∧ (marked (rows (bs_db s)) → completed s)
end.

Record boot_inv s : Prop := {
bi_unique : unique_content (rows (bs_db s));
bi_go i g : bs_go s !! i = Some g → ∃ p, jobs !! i = Some (Some (Ok p)) ∧ go_ok (bs_db s) (bs_errs s) p g;
bi_phase : phase_ok s;
}.

(** When no error was set, the goroutines that returned returned none. *)
Lemma returned_completed s :
boot_inv s → length (bs_go s) = length jobs → forallb is_returned (bs_go s) = true →
AtomicGet (bs_errs s) = None → completed s.
Proof.
intros Hs Hl Hr He. split; [done|]. intros g Hg. rewrite forallb_forall in Hr.
pose proof (Hr g (proj1 (list_elem_of_In _ _) Hg)) as Hret.
apply list_elem_of_lookup in Hg as [i Hi]. destruct (bi_go s Hs i g Hi) as (p & _ & Hok).
by destruct g as [|[[]|e]].
Qed.

(** A consumer is started. *)
Lemma launch_inv d errs p todo go :
boot_inv (mkBootstrap d errs (Launching (Some (Ok p) :: todo)) go) →
boot_inv (mkBootstrap d errs (Launching todo) (go ++ [Running p])).
Proof.
intros Hs. destruct (bi_phase _ Hs) as (Hj & Hl & Hm). simpl in Hj, Hl.
assert (jobs !! length go = Some (Some (Ok p))) as Hjp.
{ rewrite Hj, lookup_app_r by (rewrite length_take; lia). rewrite length_take, Nat.min_l by lia.
by rewrite Nat.sub_diag. }
split; [apply Hs| |].
- simpl. intros i g Hi. apply lookup_app_Some in Hi as [Hi|[Hlen Hi]]; [by apply (bi_go _ Hs)|].
apply list_lookup_singleton_Some in Hi as [Hi <-]. exists p.
assert (i = length go) as -> by lia. split; [done|].
destruct (Hjobs p) as [Hst Hem]; [by eapply list_elem_of_lookup_2|].
split; [done|]. left. by apply progress_start.
- unfold phase_ok. simpl. rewrite length_app. simpl. split_and!; [|lia|done].
rewrite Nat.add_1_r. rewrite Hj at 1. by erewrite take_S_r, <-app_assoc.
Qed.

Lemma boot_main_inv s s' : boot_main jobs s = Some s' → boot_inv s → boot_inv s'.
Proof.
intros E Hs. pose proof (bi_phase s Hs) as Hp. unfold boot_main in E. unfold phase_ok in Hp.
destruct s as [d errs ph go]. cbn [bs_db bs_errs bs_phase bs_go] in *.
destruct ph as [|[|[[p|e]|] todo]| | |]; try done.
- destruct (stored_mark d) as [d' v] eqn:Em. injection E as <-. destruct Hp as [-> Hm].
apply stored_mark_spec in Em as (Er & Hv & _). split.
+ simpl. rewrite <-Er. apply Hs.
+ done.
+ unfold phase_ok. simpl. case_decide as Hc; simpl.
  * exfalso. by apply (marked_not_unmarked (rows d)), Hv.
  * split; [done|]. split; [done|]. by apply (unmarked_perm (rows d)).
- injection E as <-. destruct Hp as (_ & Hl & Hm). split; [apply Hs|apply Hs|]. split; [simpl in *; lia|done].
- injection E as <-. by apply (launch_inv d errs p todo go).
- injection E as <-. destruct Hp as (_ & _ & Hm). split; [apply Hs|apply Hs|]. split; [done|].
intros Hmk. by destruct (marked_not_unmarked (rows d) Hm).
- injection E as <-. split; [apply Hs|apply Hs|]. apply Hp.
- destruct Hp as [Hl Hm]. destruct (forallb is_returned go) eqn:Ef; [|done].
destruct (AtomicGet errs) as [e|] eqn:Ee.
+ injection E as <-. split; [apply Hs|apply Hs|]. split; [done|].
  intros Hmk. by destruct (marked_not_unmarked (rows d) Hm).
+ pose proof (returned_completed _ Hs Hl Ef Ee) as Hc.
  pose proof (insert_mark_unique d (bi_unique _ Hs)) as Hu.
  pose proof (insert_mark_stored d) as Hst. pose proof (insert_mark d) as Hmk.
  destruct (InsertKeyValueStore _ d) as [d' r]. injection E as <-. simpl in Hu, Hst. split; [done| |].
  * intros i g Hi. destruct (bi_go _ Hs i g Hi) as (p & Hj & Hok). exists p. split; [done|].
    eapply go_ok_mono; [apply Hst|done|exact Hok].
  * split; [|done]. simpl. intros ->. by apply (Hmk d' (bi_unique _ Hs) Hm).
Qed.

Lemma boot_go_inv i now cut s s' : boot_go i now cut s = Some s' → boot_inv s → boot_inv s'.
Proof.
intros E Hs. unfold boot_go in E. destruct (bs_go s !! i) as [[q|r]|] eqn:Hi; [|done..].
destruct (bi_go s Hs i _ Hi) as (p & Hj & Hok).
set (cut' := match bs_phase s with Ended _ => cut | _ => None end) in *.
destruct (goroutine_step now cut' q (bs_db s)) as [d g] eqn:Eg. injection E as <-.
destruct (goroutine_step_db _ _ _ _ _ _ (proj1 Hok) Eg) as (Hu & Hst & Hkv).
split; simpl.
- apply Hu, Hs.
- intros j g' Hj'. destruct (decide (j = i)) as [->|Hne].
+ rewrite list_lookup_insert_eq in Hj' by (by eapply lookup_lt_Some). injection Hj' as <-.
  exists p. split; [done|]. by apply (goroutine_step_ok now cut' p q (bs_db s)).
+ rewrite list_lookup_insert_ne in Hj' by done. destruct (bi_go s Hs j g' Hj') as (p' & Hp' & Hok').
  exists p'. split; [done|]. eapply go_ok_mono; [apply Hst|apply (errs_after_kept g)|exact Hok'].
- pose proof (bi_phase s Hs) as Hp. unfold phase_ok in *. simpl. rewrite length_insert.
assert (rows (bs_db s) TableKeyValueStore ≡ₚ rows d TableKeyValueStore) as Hkv' by done.
destruct (bs_phase s).
+ destruct Hp as [Hn _]. by rewrite Hn in Hi.
+ destruct Hp as (? & ? & Hm). split_and!; [done..|]. by apply (unmarked_perm (rows (bs_db s))).
+ destruct Hp as (? & Hm). split; [done|]. by apply (unmarked_perm (rows (bs_db s))).
+ by apply (unmarked_perm (rows (bs_db s))).
+ destruct Hp as [Hr1 Hc1]. split.
  * intros Hr. apply (marked_perm (rows (bs_db s))); auto.
  * intros Hm. destruct Hc1 as [_ Hc]; [by apply (marked_perm (rows d))|].
    by specialize (Hc _ (list_elem_of_lookup_2 _ _ _ Hi)).
Qed.

Lemma boot_turns_inv cs s s' : boot_turns jobs cs s = Some s' → boot_inv s → boot_inv s'.
Proof.
revert s. induction cs as [|c cs IH]; intros s E Hs; simpl in E; [by injection E as <-|].
destruct (boot_turn jobs c s) as [s1|] eqn:Et; [|done]. apply (IH s1 E).
destruct c as [|i now cut]; [by apply (boot_main_inv s)|by apply (boot_go_inv i now cut s)].
Qed.

Lemma boot_start_inv d :
unique_content (rows d) → unmarked (rows d) → boot_inv (boot_start false (Ok tt) d).
Proof. intros Hu Hm. by split. Qed.

(** The mark is the proof that every row of every consumer is stored. *)
Lemma completed_stored s p Q :
boot_inv s → completed s → Some (Ok p) ∈ jobs → wlp p Q →
∃ l, Q l tt ∧ ∀ e, PInsert e false ∈ l → sql_stored (bs_db s) e.
Proof.
intros Hs [Hl Hc] Hp Hw. apply list_elem_of_lookup in Hp as [i Hi].
destruct (lookup_lt_is_Some_2 (bs_go s) i) as [g Hg].
{ rewrite Hl. by eapply lookup_lt_Some. }
destruct (bi_go s Hs i g Hg) as (p' & Hp' & Hok). rewrite Hi in Hp'. injection Hp' as <-.
rewrite (Hc g) in Hok by (by eapply list_elem_of_lookup_2). destruct Hok as (l & HQ & _ & Hst).
exists l. split; [|done]. specialize (HQ Q Hw). unfold wlp in HQ. simpl in HQ. by rewrite app_nil_r in HQ.
Qed.

Lemma completed_jobs s j : boot_inv s → completed s → j ∈ jobs → ∃ p, j = Some (Ok p).
Proof.
intros Hs [Hl _] Hj. apply list_elem_of_lookup in Hj as [i Hi].
destruct (lookup_lt_is_Some_2 (bs_go s) i) as [g Hg].
{ rewrite Hl. by eapply lookup_lt_Some. }
destruct (bi_go s Hs i g Hg) as (p & Hp & _). exists p. congruence.
Qed.

Lemma boot_ended_marked cs d s :
unique_content (rows d) → unmarked (rows d) → boot_turns jobs cs (boot_start false (Ok tt) d) = Some s →
boot_inv s ∧ (bs_phase s = Ended (Ok tt) → marked (rows (bs_db s))) ∧ (marked (rows (bs_db s)) → completed s).
Proof.
intros Hu Hm Ht. pose proof (boot_turns_inv cs _ _ Ht (boot_start_inv d Hu Hm)) as Hs.
split; [done|]. pose proof (bi_phase s Hs) as Hp. unfold phase_ok in Hp. split.
- intros E. rewrite E in Hp. by apply Hp.
- intros Hmk. assert (¬ unmarked (rows (bs_db s))) as Hn by (intros Hum; by apply (marked_not_unmarked _ Hum)).
destruct (bs_phase s); [by destruct Hp|by destruct Hp as (_ & _ & ?)|by destruct Hp|done|by apply Hp].
Qed.
End system.
