(* ===== verification/BootGenesis.v ===== *)
(** The programs of the bootstrap: what the [Bootstrap] of each writer stores of the
    genesis, and the property of the whole. *)

From S2P Require Import Prelude Errors Sql MemDb Axia DbModel Persist Persistence Prog Models AxcWriter Writer AvmWriter PvmWriter Indexing WriterOps Processors Replay ReplayFacts Bootstrap BootstrapFacts.

(** * Loops whose accumulator counts the elements *)
Lemma wlp_fold_numbered {A} (P : nat → A → list pop → Prop) (l : list A) (f : A → nat → Prog nat) :
  (∀ i x, within (P i x)) →
  (∀ i x, l !! i = Some x → wlp (f x i) (λ ops n, n = S i ∧ P i x ops)) →
  wlp (prog_fold l 0 f) (λ ops _, ∀ i x, l !! i = Some x → P i x ops).
Proof.
  intros Hw Hf. eapply wlp_mono.
  - apply (wp_fold l 0 f (λ _ _, True) (λ before ops n, n = length before ∧
      ∀ i x, before !! i = Some x → P i x ops)).
    + split; [done|]. intros i x Hx. by rewrite lookup_nil in Hx.
    + intros before x rest ops b -> [-> Hp]. eapply wp_mono; [apply Hf|done|].
      * by apply list_lookup_middle.
      * intros ops' n [-> Hx]. rewrite length_app. split; [simpl; lia|]. intros i y Hy.
        apply lookup_app_Some in Hy as [Hy|[Hle Hy]]; [by apply within_l, Hp|].
        apply list_lookup_singleton_Some in Hy as [Hi <-].
        assert (i = length before) as -> by lia. by apply within_r.
  - intros ops n [_ Hp]. done.
Qed.

Lemma wlp_each {A} (P : A → list pop → Prop) (l : list A) (f : A → Prog unit) :
  (∀ x, within (P x)) → (∀ x, x ∈ l → wlp (f x) (λ ops _, P x ops)) →
  wlp (prog_each l f) (λ ops _, Forall (λ x, P x ops) l).
Proof.
  intros Hw Hf. apply (wp_fold l tt (λ x _, f x) (λ _ _, True) (λ before ops _, Forall (λ x, P x ops) before)).
  - constructor.
  - intros before x rest ops [] -> Hp. eapply wp_mono; [apply Hf|done|].
    + apply elem_of_app. right. left.
    + intros ops' [] Hx. apply Forall_app. split.
      * eapply Forall_impl; [exact Hp|]. intros y Hy. by apply within_l.
      * apply Forall_singleton. by apply within_r.
Qed.

Lemma emits_and {A} (P Q : pop → Prop) (p : Prog A) :
  emits P p → emits Q p → emits (λ o, P o ∧ Q o) p.
Proof. induction p as [a|e|o k IH|k IH]; simpl; [done|done| |auto]. intros [] []. auto. Qed.

(** * What each writer stores *)
Section writers.
Context `{!AxiaIds} `{!AxiaMath} `{!AxiaMathOk} `{!AxiaCrypto} `{!Cfg} `{!AvmCodec} `{!PvmCodec} `{!NodeGenesis}.
Context (Propagate : error → string → error).

(** ** avm *)
Lemma insertGenesis_strict w ctx data : strict (avm.insertGenesis Propagate w ctx data).
Proof. unfold avm.insertGenesis. solve_strict. apply insertCreateAssetTx_strict. Qed.

Lemma insertCreateAssetTx_gentle (Hno : PerformUpdates = false) w ctx txBytes ub tx creds alias genesis :
emits gentle (avm.insertCreateAssetTx Propagate w ctx txBytes ub tx creds alias genesis).
Proof.
unfold avm.insertCreateAssetTx, avm.count_outs, avm.process_outs, axc.InsertTransactionOuts. rewrite Hno. solve_emits.
all: first [apply ProcessStateOut_gentle | apply InsertTransaction_gentle | done]; done.
Qed.

Lemma avm_Bootstrap_ok (Hno : PerformUpdates = false) networkID w : boot_ok (avm_Bootstrap Propagate networkID w).
Proof.
split.
- unfold avm_Bootstrap, avm.Bootstrap. solve_strict. apply insertGenesis_strict.
- apply emits_and.
+ unfold avm_Bootstrap, avm.Bootstrap, avm.insertGenesis. solve_emits.
  by apply insertCreateAssetTx_gentle.
+ eapply emits_mono; [|unfold avm_Bootstrap; solve_emits; apply avm_Bootstrap_writer]. by intros o (_ & _ & ? & _).
Qed.

(** The asset a transaction of the genesis is stored as. *)
Definition genesis_asset (w : axc.Writer) (ctx : ConsumerCtx) (ver : Z) (tx : AvmGenesisAsset) (a : Assets) : Prop :=
let castTx := Genesis_CreateAssetTx tx in
∃ txBytes unsignedBytes, avm_MarshalSigned ver (AvmCreateAssetTx castTx) = Ok txBytes ∧
avm_MarshalCreateAsset ver castTx = Ok unsignedBytes ∧
let asset := avm_InitializeCreateAsset unsignedBytes txBytes castTx in
Assets_ID a = ID_String (BaseTx_ID (CreateAsset_Base asset)) ∧ Assets_ChainID a = axc.chainID w ∧
Assets_Name a = CreateAsset_Name asset ∧ Assets_Symbol a = CreateAsset_Symbol asset ∧
Assets_Denomination a = CreateAsset_Denomination asset ∧ Assets_Alias a = Genesis_Alias tx.

(** [P] of an operation that inserts a row, among those issued. *)
Definition inserts (P : entity → Prop) (l : list pop) : Prop :=
∃ o, o ∈ l ∧ ∃ e upd, o = PInsert e upd ∧ P e.

Lemma within_inserts P : within (inserts P).
Proof. apply within_elem. Qed.

Lemma insertCreateAssetTx_asset w ctx txBytes ub tx creds alias genesis :
wlp (avm.insertCreateAssetTx Propagate w ctx txBytes ub tx creds alias genesis)
(λ l _, inserts (λ e, ∃ supply, e = EAssets (mkAssets (ID_String (BaseTx_ID (CreateAsset_Base tx)))
   (axc.chainID w) (CreateAsset_Name tx) (CreateAsset_Symbol tx) (CreateAsset_Denomination tx) alias
   supply (ctx_Time ctx))) l).
Proof.
unfold avm.insertCreateAssetTx. apply wlp_bind_last. intros n l1. apply wlp_bind_last. intros [[m amount] t] l2.
apply wlp_bind, wlp_persist. eapply wlp_mono; [apply wlp_true|]. intros l3 [] _.
apply within_r, within_r, within_l; try apply within_inserts.
eexists. split; [left|]. eexists _, _. split; [done|]. by eexists.
Qed.

Definition asset_stored (P : Assets → Prop) (e : entity) : Prop := ∃ a, e = EAssets a ∧ P a.

Lemma insertGenesis_assets w ctx data :
wlp (avm.insertGenesis Propagate w ctx data) (λ l _, ∃ ver txs, avm_UnmarshalGenesis data = Ok (ver, txs) ∧
∀ i tx, txs !! i = Some tx → inserts (asset_stored (genesis_asset w ctx ver tx)) l).
Proof.
unfold avm.insertGenesis. apply wlp_bind, wlp_wrap_err, wlp_lift. intros [ver txs] Hg.
apply wlp_bind. eapply wlp_mono.
- apply (wlp_fold_numbered (λ _ tx l, inserts (asset_stored (genesis_asset w ctx ver tx)) l)).
+ intros i tx. apply within_inserts.
+ intros i tx _. apply wlp_bind, wlp_wrap_err, wlp_lift. intros txBytes Hb.
  apply wlp_bind, wlp_lift. intros ub Hub. apply wlp_bind, wlp_wrap_err.
  eapply wlp_mono; [apply insertCreateAssetTx_asset|]. intros l [] (o & Ho & e & upd & -> & supply & ->).
  apply wlp_ret. split; [done|]. simpl. rewrite app_nil_r. eexists. split; [exact Ho|]. eexists _, _. split; [done|].
  eexists. split; [done|]. by exists txBytes, ub.
- intros l n Hl. apply wlp_ret. exists ver, txs. split; [done|]. simpl. by rewrite app_nil_r.
Qed.

(** The assets of a chain of the genesis. *)
Definition chain_assets (w : axc.Writer) (ctx : ConsumerCtx) (Q : (Assets → Prop) → Prop) (tx : PvmTx) : Prop :=
∃ c, createChainTx tx = Some c ∧ (CreateChain_VMID c = constants_AVMID →
∃ ver txs, avm_UnmarshalGenesis (CreateChain_GenesisData c) = Ok (ver, txs) ∧
  ∀ i tx, txs !! i = Some tx → Q (genesis_asset w ctx ver tx)).

(** The genesis of the network, read without an error. *)
Definition genesis_of (networkID : Z) (asset : ID) (g : PlatformGenesis) : Prop :=
∃ bytes g0, genesis_FromConfig networkID = Ok (bytes, asset) ∧ genesis_Unmarshal bytes = Ok g0 ∧
genesis_Initialize g0 = Ok g.

Lemma avm_Bootstrap_assets networkID w :
wlp (avm_Bootstrap Propagate networkID w) (λ l _, ∃ asset g, genesis_of networkID asset g ∧
Forall (chain_assets w (NewConsumerContext (Genesis_Timestamp g) 0) (λ P, inserts (asset_stored P) l)) (Genesis_Chains g)).
Proof.
unfold avm_Bootstrap. apply wlp_bind, wlp_wrap_err, wlp_lift. intros [bytes asset] Hb.
apply wlp_bind, wlp_wrap_err, wlp_lift. intros g0 Hg0. apply wlp_bind, wlp_wrap_err, wlp_lift. intros g Hg.
set (ctx := NewConsumerContext (Genesis_Timestamp g) 0).
unfold avm.Bootstrap, genesis_chains. eapply wlp_mono.
- apply (wlp_each (λ c l, ∃ VMID data, c = Some (VMID, data) ∧ (VMID = constants_AVMID →
  ∃ ver txs, avm_UnmarshalGenesis data = Ok (ver, txs) ∧
    ∀ i tx, txs !! i = Some tx → inserts (asset_stored (genesis_asset w ctx ver tx)) l))).
+ intros c l l1 l2 (VMID & data & -> & Hd). exists VMID, data. split; [done|]. intros E.
  destruct (Hd E) as (ver & txs & Hu & Htx). exists ver, txs. split; [done|]. intros i tx Hi.
  apply (within_inserts (asset_stored (genesis_asset w ctx ver tx))). by apply (Htx i).
+ intros c _. destruct c as [[VMID data]|]; [|done]. case_decide as Hc.
  * eapply wlp_mono; [apply insertGenesis_assets|]. intros l [] Hl. by exists VMID, data.
  * apply wlp_ret. by exists VMID, data.
- simpl. intros l [] Hl. exists asset, g. split; [by exists bytes, g0|].
rewrite Forall_map in Hl. eapply Forall_impl; [exact Hl|]. intros tx (VMID & data & Hc & Hd).
destruct (createChainTx tx) as [c|] eqn:Ec; simpl in Hc; [|done]. injection Hc as <- <-. by exists c.
Qed.
(** ** pvm *)
Lemma pvm_Bootstrap_strict networkID w : strict (pvm_Bootstrap Propagate networkID w).
Proof.
unfold pvm_Bootstrap. apply strict_bind; [apply strict_lift|intros [bytes asset]].
do 2 (apply strict_bind; [apply strict_lift|intros ?]). unfold pvm.Bootstrap.
apply strict_bind; [solve_strict; apply ProcessStateOut_strict|intros _].
apply (strict_errs_Err _ id), failing_errs_fold.
- intros tx errs. apply failing_errs_Add, Forall_singleton, indexTransaction_strict.
- intros tx errs. apply returns_errs_Add.
Qed.

Lemma pvm_Bootstrap_ok (Hno : PerformUpdates = false) networkID w : boot_ok (pvm_Bootstrap Propagate networkID w).
Proof.
split; [apply pvm_Bootstrap_strict|]. unfold pvm_Bootstrap. apply emits_and.
- unfold pvm.Bootstrap. solve_emits.
+ by apply ProcessStateOut_gentle.
+ apply emits_errs_Add, Forall_singleton. by apply pvm_indexTransaction_gentle.
+ by match goal with |- emits _ (errs_Err ?e) => destruct e end.
- eapply emits_mono; [|solve_emits; apply pvm_Bootstrap_writer]. by intros o (_ & _ & ? & _).
Qed.

(** The output of the [i]-th UTXO of the genesis. *)
Definition genesis_output (w : axc.Writer) (ctx : ConsumerCtx) (i : nat) (u : TransferableOutput) (e : entity) : Prop :=
e = EOutputs (output_row ctx pvm.ChainID (axc.chainID w) false true (wrap32 (Z.of_nat i)) (out_AssetID u) (out_Out u)).

Lemma genesis_utxos_done w ctx UTXOs :
Forall (λ u, is_u64 (Amt (state_transfer (out_Out u)))) UTXOs →
wlp (prog_fold UTXOs 0 (λ utxo idx,
    _ ← axc.ProcessStateOut Propagate w ctx (out_Out utxo) pvm.ChainID (wrap32 (Z.of_nat idx))
          (out_AssetID utxo) 0 0 (axc.chainID w) false true;
    Ret (S idx)))
(λ l _, ∀ i u, UTXOs !! i = Some u → inserts (genesis_output w ctx i u) l).
Proof.
intros Hu. apply (wlp_fold_numbered (λ i u l, inserts (genesis_output w ctx i u) l)).
- intros i u. apply within_inserts.
- intros i u Hi. apply wlp_bind. eapply wlp_mono.
+ apply ProcessStateOut_rows; [by split|by split|]. exact (Forall_lookup_1 _ _ _ _ Hu Hi).
+ intros l [a t] (Hl & _). apply wlp_ret. split; [done|]. rewrite app_nil_r.
  assert (EOutputs (output_row ctx pvm.ChainID (axc.chainID w) false true (wrap32 (Z.of_nat i))
    (out_AssetID u) (out_Out u)) ∈ omap main_row l) as Hin by (rewrite Hl; left).
  apply list_elem_of_omap in Hin as (o & Ho & Hrow). exists o. split; [done|].
  destruct o as [e upd| | | | |]; try done. exists e, upd. split; [done|].
  unfold genesis_output. destruct e; simpl in Hrow; congruence.
Qed.

Lemma genesis_txs_done w ctx txs errs :
wlp (prog_fold txs errs (λ tx errs, errs_Add [pvm.indexTransaction Propagate w ctx pvm.ChainID tx true] errs))
(λ l e, e = None → errs = None ∧ Forall (λ tx, tx_done tx l) txs).
Proof.
revert errs. induction txs as [|tx txs IH]; intros errs; [by apply wlp_ret|].
change (prog_fold (tx :: txs) errs ?f) with (f tx errs ≫= λ acc', prog_fold txs acc' f).
apply wlp_bind. eapply wlp_mono.
- apply (wlp_errs_Add [(pvm.indexTransaction Propagate w ctx pvm.ChainID tx true, tx_done tx)]).
apply Forall_singleton. split; [apply within_tx_done|apply indexTransaction_done].
- simpl. intros l e He. eapply wlp_mono; [apply IH|]. simpl. intros l' e' He' Hn.
destruct (He' Hn) as [Hn1 Hf]. destruct (He Hn1) as [Hn2 Hf2]. split; [done|].
apply Forall_cons in Hf2 as [Htx _]. constructor; [by apply within_l; [apply within_tx_done|]|].
eapply Forall_impl; [exact Hf|]. intros tx0 Htx0. by apply within_r; [apply within_tx_done|].
Qed.

Lemma pvm_Bootstrap_done networkID w :
wlp (pvm_Bootstrap Propagate networkID w) (λ l _, ∃ asset g, genesis_of networkID asset g ∧
let ctx := NewConsumerContext (Genesis_Timestamp g) 0 in
(Forall (λ u, is_u64 (Amt (state_transfer (out_Out u)))) (Genesis_UTXOs g) →
 ∀ i u, Genesis_UTXOs g !! i = Some u → inserts (genesis_output w ctx i u) l) ∧
Forall (λ tx, tx_done tx l) (Genesis_Validators g ++ Genesis_Chains g)).
Proof.
unfold pvm_Bootstrap. apply wlp_bind, wlp_lift. intros [bytes asset] Hb.
apply wlp_bind, wlp_lift. intros g0 Hg0. apply wlp_bind, wlp_lift. intros g Hg. simpl.
unfold pvm.Bootstrap. set (ctx := NewConsumerContext (Genesis_Timestamp g) 0).
apply wlp_bind. eapply wlp_mono.
- instantiate (1 := λ l _, Forall (λ u, is_u64 (Amt (state_transfer (out_Out u)))) (Genesis_UTXOs g) →
 ∀ i u, Genesis_UTXOs g !! i = Some u → inserts (genesis_output w ctx i u) l).
destruct (decide (Forall (λ u, is_u64 (Amt (state_transfer (out_Out u)))) (Genesis_UTXOs g))) as [Hu|Hu].
+ eapply wlp_mono; [by apply genesis_utxos_done|]. auto.
+ eapply wlp_mono; [apply wlp_true|]. done.
- intros l1 n Hutxo. apply wlp_bind. eapply wlp_mono; [apply genesis_txs_done|]. intros l2 e He.
apply wlp_errs_Err. intros Hn. destruct (He Hn) as [_ Hf]. exists asset, g. rewrite app_nil_r.
split; [by exists bytes, g0|]. split.
+ intros Hu i u Hi. apply within_l; [apply within_inserts|]. by apply Hutxo.
+ eapply Forall_impl; [exact Hf|]. intros tx Htx. by apply within_r; [apply within_tx_done|].
Qed.
End writers.

(** * The property *)
Section property.
Context `{SqlEngine D} `{!SqlEngineOk D} `{!Dbr} `{!DbrOk} `{!AtomicInterface} `{!AtomicInterfaceOk}.
Context `{!AxiaIds} `{!AxiaMath} `{!AxiaMathOk} `{!AxiaCrypto} `{!Cfg} `{!AvmCodec} `{!PvmCodec} `{!NodeGenesis}.
Context (Propagate : error → string → error) {Codec : Type} (NewCodecs : list Fx → result Codec).

(** The genesis of a chain, as its writer stores it. *)
Definition avm_genesis_stored (d : D) (w : axc.Writer) (g : PlatformGenesis) : Prop :=
Forall (chain_assets w (NewConsumerContext (Genesis_Timestamp g) 0) (λ P, ∃ a, P a ∧ sql_stored d (EAssets a)))
(Genesis_Chains g).

Definition pvm_genesis_stored (d : D) (w : axc.Writer) (g : PlatformGenesis) : Prop :=
let ctx := NewConsumerContext (Genesis_Timestamp g) 0 in
(Forall (λ u, is_u64 (Amt (state_transfer (out_Out u)))) (Genesis_UTXOs g) →
∀ i u, Genesis_UTXOs g !! i = Some u → ∃ e, genesis_output w ctx i u e ∧ sql_stored d e) ∧
Forall (λ tx, is_recorded tx → ∃ e, tx_recorded tx (PInsert e false) ∧ sql_stored d e)
(Genesis_Validators g ++ Genesis_Chains g).

Lemma gentle_inserts (P : entity → Prop) l : Forall gentle l → inserts P l → ∃ e, P e ∧ PInsert e false ∈ l.
Proof.
intros Hg (o & Ho & e & upd & -> & He). rewrite Forall_forall in Hg.
specialize (Hg _ Ho). simpl in Hg. subst upd. by exists e.
Qed.

Lemma boot_jobs_ok networkID chains (Hno : PerformUpdates = false) p :
Some (Ok p) ∈ boot_jobs networkID chains [IndexerConsumer Propagate NewCodecs] → boot_ok p.
Proof.
unfold boot_jobs. rewrite list_elem_of_In, in_flat_map. intros (chain & _ & [E|[]]).
unfold IndexerConsumer, pvm_NewWriter in E. repeat case_decide; [| |done].
- destruct (avm_NewWriter _ _ _) as [[w|e]|]; simpl in E; [|done|done]. injection E as <-. by apply avm_Bootstrap_ok.
- destruct (new_writer _ _ _) as [w|e]; simpl in E; [|done]. injection E as <-. by apply pvm_Bootstrap_ok.
Qed.

(** The writer of a chain of the configuration. *)
Lemma IndexerConsumer_cases networkID vm id p :
IndexerConsumer Propagate NewCodecs networkID vm id = Some (Ok p) →
∃ bytes asset, genesis_FromConfig networkID = Ok (bytes, asset) ∧
(vm = IndexerAVMName ∧ p = avm_Bootstrap Propagate networkID (axc.NewWriter id asset) ∨
 vm = IndexerPVMName ∧ p = pvm_Bootstrap Propagate networkID (axc.NewWriter id asset)).
Proof.
assert (∀ alias w, new_writer networkID id alias = Ok w →
∃ bytes asset, genesis_FromConfig networkID = Ok (bytes, asset) ∧ w = axc.NewWriter id asset) as Hw.
{ intros alias w Ew. unfold new_writer in Ew. destruct (genesis_FromConfig networkID) as [[bytes asset]|e]; [|done].
cbn in Ew. destruct (ids_FromString id); [|done]. cbn in Ew. destruct (aliaser_Alias _ _); [|done].
injection Ew as <-. by exists bytes, asset. }
unfold IndexerConsumer, avm_NewWriter, pvm_NewWriter. repeat case_decide; intros E; [| |done].
- destruct (NewAVMCodec NewCodecs networkID) as [[c|e]|]; [|done|done]. cbn in E.
destruct (new_writer _ _ _) as [w|e] eqn:Ew; [|done]. injection E as <-.
destruct (Hw _ _ Ew) as (bytes & asset & Hg & ->). exists bytes, asset. split; [done|]. by left.
- cbn in E. destruct (new_writer _ _ _) as [w|e] eqn:Ew; [|done]. injection E as <-.
destruct (Hw _ _ Ew) as (bytes & asset & Hg & ->). exists bytes, asset. split; [done|]. by right.
Qed.

Lemma boot_stored p Q d : boot_ok p → wlp p Q →
(∀ Q, wlp p Q → ∃ l, Q l tt ∧ ∀ e, PInsert e false ∈ l → sql_stored d e) →
∃ l, Q l tt ∧ Forall gentle l ∧ ∀ e, PInsert e false ∈ l → sql_stored d e.
Proof.
intros Hok HQ Hall. destruct (Hall (λ l a, Q l a ∧ Forall boot_op l)) as (l & [Hl Hg] & Hst).
- apply wlp_and; [done|]. eapply wp_mono; [apply emits_wp, (boot_emits _ Hok)|done|done].
- exists l. split; [done|]. split; [|done]. eapply Forall_impl; [exact Hg|]. by intros o [? _].
Qed.

Lemma avm_bootstrap_stored networkID w (d : D) (Hno : PerformUpdates = false) :
(∀ Q, wlp (avm_Bootstrap Propagate networkID w) Q → ∃ l, Q l tt ∧ ∀ e, PInsert e false ∈ l → sql_stored d e) →
∃ asset g, genesis_of networkID asset g ∧ avm_genesis_stored d w g.
Proof.
intros Hall. destruct (boot_stored _ _ d (avm_Bootstrap_ok Propagate Hno networkID w)
(avm_Bootstrap_assets Propagate networkID w) Hall) as (l & (asset & g & Hg & Hf) & Hgl & Hst).
exists asset, g. split; [done|]. eapply Forall_impl; [exact Hf|]. intros tx (c & Hc & Ha). exists c.
split; [done|]. intros E. destruct (Ha E) as (ver & txs & Hu & Htx). exists ver, txs. split; [done|].
intros i tx' Hi. destruct (gentle_inserts _ l Hgl (Htx i tx' Hi)) as (e & (a & -> & Ha') & Hin).
exists a. auto.
Qed.

Lemma pvm_bootstrap_stored networkID w (d : D) (Hno : PerformUpdates = false) :
(∀ Q, wlp (pvm_Bootstrap Propagate networkID w) Q → ∃ l, Q l tt ∧ ∀ e, PInsert e false ∈ l → sql_stored d e) →
∃ asset g, genesis_of networkID asset g ∧ pvm_genesis_stored d w g.
Proof.
intros Hall. destruct (boot_stored _ _ d (pvm_Bootstrap_ok Propagate Hno networkID w)
(pvm_Bootstrap_done Propagate networkID w) Hall) as (l & (asset & g & Hg & Hu & Hf) & Hgl & Hst).
exists asset, g. split; [done|]. split.
- intros Hamt i u Hi. destruct (gentle_inserts _ l Hgl (Hu Hamt i u Hi)) as (e & He & Hin). eauto.
- eapply Forall_impl; [exact Hf|]. intros tx Htx Hrec. destruct (Htx Hrec) as (o & Ho & Hor).
assert (∃ e, o = PInsert e false) as [e ->].
{ unfold tx_recorded in Hor. rewrite Hno in Hor.
  destruct (PvmTx_UnsignedTx tx); try done; destruct Hor as (t & -> & _); by eexists. }
exists e. auto.
Qed.

(** C11. The genesis of the network is indexed once, and completely (in normal operation,
PerformUpdates off).  Whatever the
interleaving of its goroutines, statement by statement, on a database without the mark:
a [Bootstrap] that returns without an error leaves the mark; and once the mark is in
the database, the genesis was read without an error and, for every chain of the
configuration, the key of each of its rows is in its table (for the platform chain, an
output for each UTXO and a row for each validator and each chain; for an asset chain, each
of its assets);
and the next start, when the database answers, finds the mark, stores nothing and
returns without an error. *)
Theorem genesis_indexed networkID chains cs (d : D) (s : bootstrap (D:=D)) :
let jobs := boot_jobs networkID chains [IndexerConsumer Propagate NewCodecs] in
PerformUpdates = false → unique_content (rows d) → unmarked (rows d) →
boot_turns jobs cs (boot_start false (Ok tt) d) = Some s →
(bs_phase s = Ended (Ok tt) → marked (rows (bs_db s))) ∧
(marked (rows (bs_db s)) →
(∀ chain, chain ∈ chains → ∃ asset g, genesis_of networkID asset g ∧
   let w := axc.NewWriter (Chain_ID chain) asset in
   (Chain_VMType chain = IndexerAVMName ∧ avm_genesis_stored (bs_db s) w g ∨
    Chain_VMType chain = IndexerPVMName ∧ pvm_genesis_stored (bs_db s) w g)) ∧
(∀ d2, rows (bs_db s) ≡ᶜ rows d2 → is_ok (poll d2).2 = true →
   ∃ s2, boot_main jobs (boot_start false (Ok tt) d2) = Some s2 ∧
     bs_phase s2 = Ended (Ok tt) ∧ rows d2 ≡ᶜ rows (bs_db s2))).
Proof.
intros jobs Hno Hu Hm Ht.
pose proof (λ p, boot_jobs_ok networkID chains Hno p) as Hjobs.
destruct (boot_ended_marked jobs Hjobs cs d s Hu Hm Ht) as (Hs & He & Hc). split; [done|].
intros Hmk. specialize (Hc Hmk). split.
- intros chain Hin.
assert (IndexerConsumer Propagate NewCodecs networkID (Chain_VMType chain) (Chain_ID chain) ∈ jobs) as Hj.
{ unfold jobs, boot_jobs. rewrite list_elem_of_In, in_flat_map. exists chain.
  split; [by apply list_elem_of_In|by left]. }
destruct (completed_jobs jobs s _ Hs Hc Hj) as [p Hp]. rewrite Hp in Hj.
pose proof (λ Q, completed_stored jobs s p Q Hs Hc Hj) as Hall.
destruct (IndexerConsumer_cases _ _ _ _ Hp) as (bytes & asset & Hg & [[Hvm ->]|[Hvm ->]]).
+ destruct (avm_bootstrap_stored _ _ _ Hno Hall) as (asset' & g & Hgen & Hst).
  assert (asset' = asset) as -> by (destruct Hgen as (? & ? & ? & _); congruence). exists asset, g. auto.
+ destruct (pvm_bootstrap_stored _ _ _ Hno Hall) as (asset' & g & Hgen & Hst).
  assert (asset' = asset) as -> by (destruct Hgen as (? & ? & ? & _); congruence). exists asset, g. auto.
- intros d2 E2 Hp. unfold boot_main. simpl. destruct (stored_mark d2) as [d3 v] eqn:Em.
apply stored_mark_spec in Em as (Er & _ & Hv). eexists. split; [done|]. split; [|done]. simpl.
rewrite Hv; [by rewrite decide_True| | |done].
+ rewrite <-E2. apply Hs.
+ by apply (marked_perm (rows (bs_db s)) _ (E2 TableKeyValueStore)).
Qed.
End property.

(** ** A network with a UTXO, a validator and an asset chain *)
Module BootSample.
Import Toy ToyDbr Sample ReplaySample.
Existing Instance ToyCodec.pvm_codec.

Definition chain_base : BaseTx := mkBaseTx "t2" 1 [out 4] [] None.
Definition chain_tx : PvmTx := mkPvmTx (UnsignedCreateChainTx chain_base) [] (Some "tx") "ub".
Definition genesis : PlatformGenesis := mkPlatformGenesis 1 [out 7] [ToyCodec.tx] [chain_tx].

#[export] Instance avm_codec : AvmCodec := {
avm_Unmarshal s := Err "unused";
avm_UnmarshalGenesis s := Ok (0%Z, [mkAvmGenesisAsset "AXC" sample_asset]);
avm_MarshalUnsigned _ _ := Ok "ub";
avm_MarshalSigned _ _ := Ok "tx";
avm_MarshalCreateAsset _ _ := Ok "ub";
avm_Initialize _ _ tx := tx;
avm_InitializeCreateAsset _ _ tx := tx;
vertex_Parse s := Err "unused";
}.

#[export] Instance node : NodeGenesis := {
genesis_FromConfig n := if decide (n = 1%Z) then Ok ("genesis", "AXC") else Err "unknown network";
genesis_VMGenesis _ _ := Ok chain_tx;
genesis_Unmarshal _ := Ok genesis;
genesis_Initialize g := Ok g;
createChainTx tx := match PvmTx_UnsignedTx tx with
                  | UnsignedCreateChainTx _ => Some (mkCreateChainTx "avm" ["secp"] "data")
                  | _ => None
                  end;
PvmTx_ID _ := "t2";
constants_AVMID := "avm";
secp256k1fx_ID := "secp";
nftfx_ID := "nft";
aliaser_Alias _ _ := Ok tt;
}.

Definition codecs (fxs : list Fx) : result nat := Ok (length fxs).
Definition chains : list Chain := [mkChain "X" "avm"; mkChain "P" "pvm"].
Abbreviation jobs := (boot_jobs 1 chains [IndexerConsumer propagate codecs]).
Abbreviation go_all cs d := (boot_turns jobs cs (boot_start (D:=MemDb) false (Ok tt) d)).

(** The goroutines take turns as long as both run. *)
Definition turn_both (n : nat) : list boot_choice :=
List.concat (repeat [GoTurn 0 5 None; GoTurn 1 6 None] n).
Definition look_and_launch : list boot_choice := repeat MainTurn 4.
Definition boot_all : list boot_choice :=
look_and_launch ++ turn_both 67 ++ repeat (GoTurn 0 5 None) 22 ++ [MainTurn].
Definition final : bootstrap (D:=MemDb) := default (boot_start false (Ok tt) empty_db) (go_all boot_all empty_db).

Example bootstrapped : bs_phase final = Ended (Ok tt) ∧ length (rows (bs_db final) TableOutputs) = 7.
Proof. split; vm_compute; reflexivity. Qed.

(** When the writer of a chain cannot be made, [Bootstrap] returns at once, with the
consumers of the other chains still running, on a connection that is closed. *)
Definition unknown_chains : list Chain := [mkChain "X" "avm"; mkChain "Z" "evm"].
Definition abandoned : option (bootstrap (D:=MemDb)) :=
boot_turns (boot_jobs 1 unknown_chains [IndexerConsumer propagate codecs])
(repeat MainTurn 3 ++ repeat (GoTurn 0 5 (Some "sql: database is closed")) 2)
(boot_start false (Ok tt) empty_db).

Example not_awaited_on_error :
bs_phase <$> abandoned = Some (Ended (Err "unknown VM")) ∧
(map is_returned ∘ bs_go) <$> abandoned = Some [false].
Proof. split; vm_compute; reflexivity. Qed.
End BootSample.

Import Toy ToyDbr Sample ReplaySample BootSample.
Existing Instance ToyCodec.pvm_codec.

Lemma boot_all_runs : go_all boot_all empty_db = Some final.
Proof. unfold final. apply some_default. vm_compute. reflexivity. Qed.

Lemma genesis_indexed_witness :
  marked (rows (bs_db final)) ∧
  ∃ asset g, genesis_of 1 asset g ∧ pvm_genesis_stored (bs_db final) (axc.NewWriter "P" asset) g.
Proof.
  destruct (genesis_indexed propagate codecs 1 chains boot_all empty_db final) as [He Hm].
  - reflexivity.
  - apply empty_unique.
  - intros r Hr. by apply elem_of_nil in Hr.
  - exact boot_all_runs.
  - assert (marked (rows (bs_db final))) as Hmk by (apply He; vm_compute; reflexivity).
    split; [exact Hmk|]. destruct (Hm Hmk) as [Hc _].
    destruct (Hc (mkChain "P" "pvm")) as (asset & g & Hg & [[Hvm _]|[_ Hst]]).
    + right. left.
    + by vm_compute in Hvm.
    + exists asset, g. exact (conj Hg Hst).
Defined.
