(* ===== verification/Config.v ===== *)
(** The configuration and what is made of it: cfg/cfg.go, cfg/helpers.go, cfg/keys.go,
    the switches of servicesctrl/services_control.go.

    A [viper] (third-party) is what its functions say of it; a value under a key is one of
    the Go values that a JSON text is decoded into. *)

From S2P Require Import Prelude Errors Axia Utils Stream Replay Bootstrap.

(** * cfg/keys.go *)
Definition appName : string := "magellan".
Definition keysNetworkID := "networkID".
Definition keysLogDirectory := "logDirectory".
Definition keysFeatures := "features".
Definition keysChains := "chains".
Definition keysChainsID := "id".
Definition keysChainsVMType := "vmtype".
Definition keysServices := "services".
Definition keysServicesAPIListenAddr := "listenAddr".
Definition keysServicesAdminListenAddr := "adminListenAddr".
Definition keysServicesMetricsListenAddr := "metricsListenAddr".
Definition keysServicesDB := "db".
Definition keysServicesDBDriver := "driver".
Definition keysServicesDBDSN := "dsn".
Definition keysServicesDBRODSN := "ro_dsn".
Definition keysStreamProducerAxia := "axia".
Definition keysStreamProducerNodeInstance := "nodeInstance".
Definition keysStreamProducerAXchainID := "axchainID".

(** * The values of a configuration *)
Inductive jvalue :=
| JNil
| JString (s : string)
| JMap (l : list (string * jvalue))       (* map[string]interface{} *)
| JOther.                                  (* a number, a bool, a list *)

Class Viper := {
  viper : Type;
  (* [NewWithOptions], the prefix of the environment, and the text of the defaults *)
  viper_new : string → viper;
  viper_MergeInConfig : viper → string → result viper;
  viper_Sub : viper → string → option viper;
  viper_SetEnvPrefix : viper → string → viper;
  viper_GetString : viper → string → string;
  viper_Get : viper → string → jvalue;
  viper_GetStringMap : viper → string → list (string * jvalue);
  viper_GetStringSlice : viper → string → list string;
  viper_GetUint32 : viper → string → Z;
  apricotPhase5Time : Z → Z;      (* [version.GetApricotPhase5Time], in seconds *)
}.

(** * cfg/helpers.go *)
Definition ErrChainsConfigMustBeStringMap : error := "Chain config must a string map".
Definition ErrChainsConfigIDEmpty : error := "Chain config ID is empty".
Definition ErrChainsConfigVMEmpty : error := "Chain config vm type is empty".
Definition ErrChainsConfigIDNotString : error := "Chain config ID is not a string".
Definition ErrChainsConfigVMNotString : error := "Chain config vm type is not a string".

(** [m[key]], [JNil] when there is none. *)
Definition map_get (m : list (string * jvalue)) (key : string) : jvalue :=
  default JNil (snd <$> find (λ kv, String.eqb kv.1 key) m).

Definition chain_of (chainConf : jvalue) : result Chain :=
  match chainConf with
  | JMap confMap =>
      match map_get confMap keysChainsID, map_get confMap keysChainsVMType with
      | JNil, _ => Err ErrChainsConfigIDEmpty
      | _, JNil => Err ErrChainsConfigVMEmpty
      | JString id, JString vmType => Ok (mkChain id vmType)
      | JString _, _ => Err ErrChainsConfigVMNotString
      | _, _ => Err ErrChainsConfigIDNotString
      end
  | _ => Err ErrChainsConfigMustBeStringMap
  end.

Abbreviation Chains := (gmap string Chain) (only parsing).

(** The loop over the chains: the order of a Go map is any. *)
Fixpoint add_chains (chainsConf : list (string * jvalue)) (chains : Chains) : result Chains :=
  match chainsConf with
  | [] => Ok chains
  | (_, chainConf) :: rest =>
      chain ← chain_of chainConf;
      add_chains rest (<[Chain_ID chain := chain]> chains)
  end.

Section config.
Context `{!Viper}.

Definition newViper : viper := viper_new appName.

Definition newViperFromFile (filePath : string) : result viper := viper_MergeInConfig newViper filePath.

Definition newSubViper (v : viper) (name : string) : viper :=
match viper_Sub v name with
| None => newViper
| Some v => viper_SetEnvPrefix v (appName +:+ "_" +:+ name)
end.

Definition newChainsConfig (v : viper) : result Chains := add_chains (viper_GetStringMap v keysChains) ∅.

(** * cfg/cfg.go *)
Record DB := mkDB { DB_DSN : string; DB_RODSN : string; DB_Driver : string }.

(** [Services] holds the directory of the logs, the address of the API and the database. *)
Record Services := mkServices {
Services_LogDirectory : string;
Services_ListenAddr : string;
Services_DB : option DB;
}.

Record Config := mkConfig {
Config_NetworkID : Z;
Config_Chains : gmap string Chain;
Config_Services : Services;
Config_MetricsListenAddr : string;
Config_AdminListenAddr : string;
Config_Features : gset string;
Config_AXchainID : string;
Config_Axia : string;
Config_NodeInstance : string;
Config_AP5Activation : Z;
}.

(** [strings.TrimSpace], on the spaces of ASCII. *)
Definition is_space (c : Ascii.ascii) : bool :=
let n := Ascii.N_of_ascii c in (N.eqb n 32 || (N.leb 9 n && N.leb n 13))%bool.
Fixpoint trim_left (s : string) : string :=
match s with
| EmptyString => EmptyString
| String.String c s' => if is_space c then trim_left s' else s
end.
Definition string_rev (s : string) : string := String.string_of_list_ascii (rev (String.list_ascii_of_string s)).
Definition TrimSpace (s : string) : string := string_rev (trim_left (string_rev (trim_left s))).

Definition feature_name (feature : string) : string := TrimSpace (to_lower feature).

Definition features_map (features : list string) : gset string :=
fold_left (λ m feature,
  let featurec := feature_name feature in
  if decide (featurec = "") then m else {[featurec]} ∪ m) features ∅.

Definition NewFromFile (filePath : string) : result Config :=
v ← newViperFromFile filePath;
let servicesViper := newSubViper v keysServices in
let servicesDBViper := newSubViper servicesViper keysServicesDB in
chains ← newChainsConfig v;
let dbdsn := viper_GetString servicesDBViper keysServicesDBDSN in
let dbrodsn := match viper_Get servicesDBViper keysServicesDBRODSN with
               | JNil => dbdsn
               | _ => viper_GetString servicesDBViper keysServicesDBRODSN
               end in
let networkID := viper_GetUint32 v keysNetworkID in
Ok {|
  Config_NetworkID := networkID;
  Config_Chains := chains;
  Config_Services := mkServices (viper_GetString v keysLogDirectory) (viper_GetString v keysServicesAPIListenAddr)
    (Some (mkDB dbdsn dbrodsn (viper_GetString servicesDBViper keysServicesDBDriver)));
  Config_MetricsListenAddr := viper_GetString v keysServicesMetricsListenAddr;
  Config_AdminListenAddr := viper_GetString v keysServicesAdminListenAddr;
  Config_Features := features_map (viper_GetStringSlice v keysFeatures);
  Config_AXchainID := viper_GetString v keysStreamProducerAXchainID;
  Config_Axia := viper_GetString v keysStreamProducerAxia;
  Config_NodeInstance := viper_GetString v keysStreamProducerNodeInstance;
  Config_AP5Activation := wrap64 (apricotPhase5Time networkID);
|}.
End config.

(** * servicesctrl/services_control.go *)
Record Control := mkControl {
  sc_Features : gset string;
  sc_GenesisContainer : option GenesisContainer;
  sc_IsAccumulateBalanceIndexer : bool;
  sc_IsAccumulateBalanceReader : bool;
  sc_IsDisableBootstrap : bool;
  sc_IsAggregateCache : bool;
  sc_IsAXChainIndex : bool;
  sc_IndexedList : @indexedList string string _ _;
  sc_LocalTxPool : worker LocalTxPoolJob;
}.

Definition has_feature (s : Control) (name : string) : bool := bool_decide (name ∈ sc_Features s).

(** [Init] : the switches are set by the features, and stay as they were without them. *)
Definition set_features (s : Control) : Control :=
  let indexer := has_feature s "accumulate_balance_indexer" in
  {| sc_Features := sc_Features s;
     sc_GenesisContainer := sc_GenesisContainer s;
     sc_IsAccumulateBalanceIndexer := indexer || sc_IsAccumulateBalanceIndexer s;
     sc_IsAccumulateBalanceReader :=
       (indexer && has_feature s "accumulate_balance_reader") || sc_IsAccumulateBalanceReader s;
     sc_IsDisableBootstrap := has_feature s "disable_bootstrap" || sc_IsDisableBootstrap s;
     sc_IsAggregateCache := has_feature s "aggregate_cache" || sc_IsAggregateCache s;
     sc_IsAXChainIndex := has_feature s "axchain_index" || sc_IsAXChainIndex s;
     sc_IndexedList := NewIndexedList MaxSizedList;
     sc_LocalTxPool := mkWorker [] MaxTxPoolSize |}.

Definition with_genesis (gc : option GenesisContainer) (s : Control) : Control :=
  mkControl (sc_Features s) gc (sc_IsAccumulateBalanceIndexer s) (sc_IsAccumulateBalanceReader s)
    (sc_IsDisableBootstrap s) (sc_IsAggregateCache s) (sc_IsAXChainIndex s) (sc_IndexedList s) (sc_LocalTxPool s).

Definition Control_Init `{!NodeGenesis} (networkID : Z) (s : Control) : Control * result unit :=
  let s := set_features s in
  match NewGenesisContainer networkID with
  | Err e => (with_genesis None s, Err e)
  | Ok gc => (with_genesis (Some gc) s, Ok tt)
  end.

(** A control before [Init], with the features of the configuration. *)
Definition new_Control (features : gset string) : Control :=
  mkControl features None false false false false false (mkIndexedList ∅ [] 0) (mkWorker [] 0).

(** * Facts *)

(** A configuration of chains is read whole, or not at all. *)
Lemma add_chains_ok l m chains : add_chains l m = Ok chains →
  Forall (λ kv, is_ok (chain_of kv.2) = true) l ∧
  ∀ id c, chains !! id = Some c ↔
    (∃ k v, chain_of v = Ok c ∧ Chain_ID c = id ∧ (∃ l1 l2, l = l1 ++ (k, v) :: l2 ∧
       Forall (λ kv, ∀ c', chain_of kv.2 = Ok c' → Chain_ID c' ≠ id) l2)) ∨
    m !! id = Some c ∧ Forall (λ kv, ∀ c', chain_of kv.2 = Ok c' → Chain_ID c' ≠ id) l.
Proof.
  revert m. induction l as [|[k v] l IH]; intros m E; cbn in E.
  - injection E as <-. split; [constructor|]. intros id c. split; [by right|].
    intros [(k & v & _ & _ & l1 & l2 & El & _)|[? _]]; [|done]. by destruct l1.
  - destruct (chain_of v) as [c0|e] eqn:Ev; [|done]. cbn in E. apply IH in E as [Hall Hc]. split.
    { constructor; [by cbn; rewrite Ev|done]. }
    intros id c. rewrite Hc. split.
    + intros [(k' & v' & H1 & H2 & l1 & l2 & -> & H3)|[Hm Hno]].
      * left. exists k', v'. split_and!; [done..|]. by exists ((k, v) :: l1), l2.
      * apply lookup_insert_Some in Hm as [[<- <-]|[Hne Hm]].
        -- left. exists k, v. split_and!; [done..|]. by exists [], l.
        -- right. split; [done|]. constructor; [|done]. cbn. intros c' Hc'. congruence.
    + intros [(k' & v' & H1 & H2 & l1 & l2 & El & H3)|[Hm [Hne Hno]%Forall_cons]].
      * destruct l1 as [|? l1]; [injection El as <- <- <-|injection El as <- ->].
        -- right. rewrite Ev in H1. injection H1 as ->. split; [|done]. rewrite H2. apply lookup_insert_eq.
        -- left. exists k', v'. split_and!; [done..|]. by exists l1, l2.
      * right. split; [|done]. rewrite lookup_insert_ne; [done|]. by apply Hne.
Qed.

Lemma add_chains_present l m chains : add_chains l m = Ok chains →
  ∀ id, is_Some (m !! id) ∨ (∃ k v c, (k, v) ∈ l ∧ chain_of v = Ok c ∧ Chain_ID c = id) → is_Some (chains !! id).
Proof.
  revert m. induction l as [|[k v] l IH]; intros m E id Hor; cbn in E.
  - injection E as <-. destruct Hor as [?|(k & v & c & Hin & _)]; [done|by apply elem_of_nil in Hin].
  - destruct (chain_of v) as [c0|e] eqn:Ev; [|done]. cbn in E. apply (IH _ E). rewrite lookup_insert_is_Some.
    destruct (decide (Chain_ID c0 = id)) as [|Hne]; [left; by left|].
    destruct Hor as [?|(k' & v' & c & [[= -> ->]|Hin]%elem_of_cons & Hc & Hid)]; [left; by right|congruence|].
    right. by exists k', v', c.
Qed.

Lemma features_map_elem l x : x ∈ features_map l ↔ x ≠ "" ∧ ∃ f, f ∈ l ∧ feature_name f = x.
Proof.
  unfold features_map. assert (∀ m : gset string, x ∈ fold_left (λ m feature,
    let featurec := feature_name feature in if decide (featurec = "") then m else {[featurec]} ∪ m) l m ↔
    x ∈ m ∨ (x ≠ "" ∧ ∃ f, f ∈ l ∧ feature_name f = x)) as Hg.
  { induction l as [|f l IH]; intros m; cbn [fold_left].
    - split; [by left|]. intros [?|(_ & f & Hf & _)]; [done|by apply elem_of_nil in Hf].
    - rewrite IH. cbv zeta. destruct (decide (feature_name f = "")) as [E|E].
      + split; (intros [?|(Hne & g & Hg & Hx)]; [by left|right; split; [done|]; exists g; split; [|done]]).
        * by right.
        * apply elem_of_cons in Hg as [->|?]; [congruence|done].
      + rewrite elem_of_union, elem_of_singleton. split.
        * intros [[->|?]|(Hne & g & Hg & Hx)]; [right; split; [done|]; exists f; split; [left|done]|by left|].
          right. split; [done|]. exists g. split; [by right|done].
        * intros [?|(Hne & g & [->|Hg]%elem_of_cons & Hx)]; [left; by right|left; by left|right; split; [done|by exists g]]. }
  rewrite Hg. split; [intros [Hx|?]; [by apply not_elem_of_empty in Hx|done]|by right].
Qed.

(** The reader of the accumulated balances is only switched on with the manager that
    accumulates them. *)
Lemma reader_needs_indexer `{!NodeGenesis} networkID features :
  let s := (Control_Init networkID (new_Control features)).1 in
  sc_IsAccumulateBalanceReader s = true → sc_IsAccumulateBalanceIndexer s = true.
Proof.
  unfold Control_Init. destruct (NewGenesisContainer networkID); cbn; rewrite !orb_false_r; by intros [? _]%andb_true_iff.
Qed.

(** The switches of the services are the features of the file, in any case and with any
    spaces around; and every chain of the file is in the configuration. *)
Theorem switches_from_file `{!Viper} `{!NodeGenesis} filePath v cfg :
  newViperFromFile filePath = Ok v → NewFromFile filePath = Ok cfg →
  let s := (Control_Init (Config_NetworkID cfg) (new_Control (Config_Features cfg))).1 in
  let asks name := ∃ f, f ∈ viper_GetStringSlice v keysFeatures ∧ feature_name f = name in
  (sc_IsAXChainIndex s = true ↔ asks "axchain_index") ∧ (sc_IsDisableBootstrap s = true ↔ asks "disable_bootstrap") ∧
  (sc_IsAggregateCache s = true ↔ asks "aggregate_cache") ∧
  (sc_IsAccumulateBalanceIndexer s = true ↔ asks "accumulate_balance_indexer") ∧
  (sc_IsAccumulateBalanceReader s = true ↔ asks "accumulate_balance_indexer" ∧ asks "accumulate_balance_reader") ∧
  ∀ k cv, (k, cv) ∈ viper_GetStringMap v keysChains →
    ∃ c, chain_of cv = Ok c ∧ is_Some (Config_Chains cfg !! Chain_ID c).
Proof.
  intros Ev Ec. unfold NewFromFile in Ec. rewrite Ev in Ec. cbn in Ec.
  destruct (newChainsConfig v) as [chains|e] eqn:Ech; [|done]. injection Ec as <-. intros s asks.
  assert (∀ name, name ≠ "" →
    has_feature (new_Control (features_map (viper_GetStringSlice v keysFeatures))) name = true ↔ asks name) as Hf.
  { intros name Hne. unfold has_feature, asks. cbn. rewrite bool_decide_eq_true, features_map_elem. naive_solver. }
  assert (∀ f : Control → bool, (∀ gc s, f (with_genesis gc s) = f s) → f s = f (set_features (new_Control
    (features_map (viper_GetStringSlice v keysFeatures))))) as Hs.
  { intros f Hg. unfold s, Control_Init. cbn. by destruct (NewGenesisContainer _); cbn; rewrite Hg. }
  rewrite !Hs by done. cbn [set_features sc_IsAXChainIndex sc_IsDisableBootstrap sc_IsAggregateCache
    sc_IsAccumulateBalanceIndexer sc_IsAccumulateBalanceReader new_Control].
  rewrite !orb_false_r, andb_true_iff, !Hf by done. split_and!; [done..|].
  intros k cv Hin. destruct (add_chains_ok _ _ _ Ech) as [Hall _]. rewrite Forall_forall in Hall.
  specialize (Hall _ Hin). cbn in Hall. destruct (chain_of cv) as [c|e] eqn:Ecv; [|done]. exists c. split; [done|].
  apply (add_chains_present _ _ _ Ech). right. by exists k, cv, c.
Qed.

(** * A configuration with a feature written in capitals *)
Module ConfigSample.
#[export] Instance text_viper : Viper := {|
viper := list (string * jvalue);
viper_new _ := [];
viper_MergeInConfig v path :=
  if decide (path = "ok.json") then
    Ok [("chains", JMap [("swap", JMap [("id", JString "X"); ("vmtype", JString "avm")])]);
        ("services", JMap [("db", JMap [("dsn", JString "db"); ("driver", JString "mysql")])])]
  else if decide (path = "bad.json") then Ok [("chains", JMap [("swap", JMap [("id", JOther); ("vmtype", JString "avm")])])]
  else Err "no such file";
viper_Sub v k := match map_get v k with JMap m => Some m | _ => None end;
viper_SetEnvPrefix v _ := v;
viper_GetString v k := match map_get v k with JString s => s | _ => "" end;
viper_Get := map_get;
viper_GetStringMap v k := match map_get v k with JMap m => m | _ => [] end;
viper_GetStringSlice v k := [" AXchain_Index "];
viper_GetUint32 v k := 1%Z;
apricotPhase5Time n := 0%Z |}.

Example read_only_is_the_same :
(λ c, (Services_DB (Config_Services c), map_to_list (Config_Chains c))) <$> 
  (match NewFromFile "ok.json" with Ok c => Some c | Err _ => None end) =
Some (Some (mkDB "db" "db" "mysql"), [("X", mkChain "X" "avm")]).
Proof. vm_compute. reflexivity. Qed.

Example id_not_a_text : NewFromFile "bad.json" = Err ErrChainsConfigIDNotString.
Proof. vm_compute. reflexivity. Qed.

Example capitals : bool_decide ("axchain_index" ∈ features_map (viper_GetStringSlice [] keysFeatures)) = true.
Proof. vm_compute. reflexivity. Qed.
End ConfigSample.
