(* ===== verification/Rpc.v ===== *)
(** rpc/api.go: the profiles that the administrator asks for.

    The operating system and the profiler (Go's library) are a state: the files that are
    open, whether a CPU profile is running, and the faults that are still to come. *)

From S2P Require Import Prelude.

Record System := mkSystem {
  os_open : list nat;                   (* the open files *)
  os_next : nat;                        (* the next one *)
  pprof_cpu : option nat;               (* the file of the CPU profile that is running *)
  os_faults : list (option error);
}.

(** Every call can fail. *)
Definition os_poll : M System unit := λ s,
  match os_faults s with
  | Some e :: fs => (mkSystem (os_open s) (os_next s) (pprof_cpu s) fs, Err e)
  | None :: fs => (mkSystem (os_open s) (os_next s) (pprof_cpu s) fs, Ok tt)
  | [] => (s, Ok tt)
  end.

Definition os_Create (filePath : string) : M System nat :=
  _ ← os_poll;
  file ← gets os_next;
  _ ← modify (λ s, mkSystem (file :: os_open s) (S file) (pprof_cpu s) (os_faults s));
  mret file.

Definition without (file : nat) (files : list nat) : list nat := filter (λ f, f ≠ file) files.

(** The file is closed even when [Close] reports an error. *)
Definition file_Close (file : nat) : M System unit :=
  _ ← modify (λ s, mkSystem (without file (os_open s)) (os_next s) (pprof_cpu s) (os_faults s));
  os_poll.

Definition ErrCPUProfiling : error := "cpu profiling already in use".

Definition pprof_StartCPUProfile (file : nat) : M System unit :=
  _ ← os_poll;
  running ← gets pprof_cpu;
  match running with
  | Some _ => throw ErrCPUProfiling
  | None => modify (λ s, mkSystem (os_open s) (os_next s) (Some file) (os_faults s))
  end.

Definition pprof_StopCPUProfile : M System unit :=
  modify (λ s, mkSystem (os_open s) (os_next s) None (os_faults s)).

(** * The API *)
Record API := mkAPI { cpuProfileFile : option nat; api_system : System }.

Definition errCPUProfilerRunning : error := "cpu profiler already running".
Definition errCPUProfilerNotRunning : error := "cpu profiler doesn't exist".

Definition on_system {A} (m : M System A) : M API A := λ a,
  let '(s, r) := m (api_system a) in (mkAPI (cpuProfileFile a) s, r).

Definition set_file (f : option nat) : M API unit := modify (λ a, mkAPI f (api_system a)).

Definition StartCPUProfiler (filePath : string) : M API unit :=
  running ← gets cpuProfileFile;
  match running with
  | Some _ => throw errCPUProfilerRunning
  | None =>
      file ← on_system (os_Create filePath);
      r ← on_system (attempt (pprof_StartCPUProfile file));
      match r with
      | Err e => _ ← on_system (attempt (file_Close file)); throw e
      | Ok _ => set_file (Some file)
      end
  end.

Definition StopCPUProfiler : M API unit :=
  running ← gets cpuProfileFile;
  match running with
  | None => throw errCPUProfilerNotRunning
  | Some file =>
      _ ← on_system pprof_StopCPUProfile;
      err ← on_system (attempt (file_Close file));
      _ ← set_file None;
      lift_result err
  end.

(** [MemoryProfile] and [LockProfile]: a file that is written and closed. *)
Definition write_profile (filePath : string) : M API unit :=
  file ← on_system (os_Create filePath);
  r ← on_system (attempt os_poll);
  match r with
  | Err e => _ ← on_system (attempt (file_Close file)); throw e
  | Ok _ => on_system (file_Close file)
  end.

Definition MemoryProfile : string → M API unit := write_profile.
Definition LockProfile : string → M API unit := write_profile.

Inductive ProfileCall := CallStart (file : string) | CallStop | CallMemory (file : string) | CallLock (file : string).

Definition profile_call (c : ProfileCall) : M API unit :=
  match c with
  | CallStart f => StartCPUProfiler f
  | CallStop => StopCPUProfiler
  | CallMemory f => MemoryProfile f
  | CallLock f => LockProfile f
  end.

(** * No file is left open *)
Definition profiling (a : API) : Prop :=
  os_open (api_system a) = option_list (cpuProfileFile a) ∧ pprof_cpu (api_system a) = cpuProfileFile a ∧
  Forall (λ f, f < os_next (api_system a)) (os_open (api_system a)).

(** A file that is new is closed alone. *)
Lemma without_new n l : Forall (λ f, f < n) l → without n (n :: l) = l.
Proof.
  intros Hl. unfold without. rewrite filter_cons_False by naive_solver.
  induction Hl as [|f l Hf _ IH]; [done|]. rewrite filter_cons_True by lia. by rewrite IH.
Qed.

Lemma without_own n : without n [n] = [].
Proof. by apply without_new. Qed.

Lemma profile_call_keeps c a : profiling a → profiling (profile_call c a).1.
Proof.
  destruct a as [f [op nx cpu fs]]. intros (Ho & Hc & Hn). cbn in Ho, Hc, Hn. subst op cpu.
  destruct c; destruct f as [f|]; destruct fs as [|[?|] [|[?|] [|[?|] ?]]];
    cbv -[without profiling option_list]; rewrite ?without_own, ?without_new by done; repeat split; cbn in *;
    repeat constructor; try done; try (by inversion Hn; subst; lia).
Qed.

(** The calls that the service gets, one after the other, whatever they answer. *)
Definition NewAPI (faults : list (option error)) : API := mkAPI None (mkSystem [] 0 None faults).
Definition profile_calls (cs : list ProfileCall) (a : API) : API := foldl (λ a c, (profile_call c a).1) a cs.

(** Whatever is asked and whatever fails, the only file that is open is that of the CPU
    profile that runs, and a profile that runs can be stopped. *)
Theorem profiles_closed cs faults : let a := profile_calls cs (NewAPI faults) in
  os_open (api_system a) = option_list (cpuProfileFile a) ∧ pprof_cpu (api_system a) = cpuProfileFile a ∧
  (is_Some (pprof_cpu (api_system a)) → cpuProfileFile (StopCPUProfiler a).1 = None).
Proof.
  assert (∀ a, profiling a → profiling (profile_calls cs a)) as Hk.
  { induction cs as [|c cs IH]; intros a Ha; [done|]. by apply IH, profile_call_keeps. }
  destruct (Hk (NewAPI faults)) as (Ho & Hc & _); [done|]. split_and!; [done..|].
  revert Hc. generalize (profile_calls cs (NewAPI faults)). intros [f [op nx cpu fs]] Hc [g Hg].
  cbn in *. subst. destruct fs as [|[e|] fs]; done.
Qed.

(** A second profile is refused; a disk that fails leaves nothing behind. *)
Example second_refused :
  let a := profile_calls [CallStart "a"] (NewAPI []) in
  (StartCPUProfiler "b" a).2 = Err errCPUProfilerRunning ∧ os_open (api_system a) = [0].
Proof. done. Qed.

Example failed_start : let a := profile_calls [CallStart "a"] (NewAPI [None; Some "busy"]) in
  cpuProfileFile a = None ∧ os_open (api_system a) = [].
Proof. done. Qed.
