(* ===== verification/AssetAggrFacts.v ===== *)
(** What the readers' memory of the aggregates by asset holds: the aggregates of the
    content, in order. *)

From S2P Require Import Prelude Errors Sql MemDb DbModel Axia Models Utils GoText Params Query Select ReaderAggregates ReaderModels ReaderTxs ReaderDress ReaderLists ReaderAggregator ParamsFacts ReaderFacts CacheFacts.

(** * Computations that only read *)
Section reads.
Context `{SqlEngine D} `{!SqlEngineOk D}.

Definition reads {A} (m : M D A) : Prop := ∀ d, rows d ≡ᶜ rows (m d).1.

Lemma reads_ret {A} (a : A) : reads (mret a).
Proof. by intros d. Qed.
Lemma reads_lift {A} (r : result A) : reads (lift_result r).
Proof. by intros d. Qed.
Lemma reads_select {A} (q : content → A) : reads (select q).
Proof. intros d. apply select_rows. Qed.
Lemma reads_bind {A B} (m : M D A) (f : A → M D B) : reads m → (∀ a, reads (f a)) → reads (m ≫= f).
Proof.
intros Hm Hf d. rewrite bind_run. pose proof (Hm d) as E. destruct (m d) as [d' [a|e]]; simpl in *; [|done].
by rewrite <-(Hf a d').
Qed.
Lemma reads_select_result {A} (q : content → result A) : reads (select_result q).
Proof. apply reads_bind; [apply reads_select|intros r; apply reads_lift]. Qed.

Lemma lift_result_Ok_inv {A} (r : result A) (d d' : D) a : lift_result r d = (d', Ok a) → d' = d ∧ r = Ok a.
Proof. by intros [= -> ->]. Qed.

Lemma reads_Ok {A} (m : M D A) d d' a : reads m → m d = (d', Ok a) → rows d ≡ᶜ rows d'.
Proof. intros Hm E. pose proof (Hm d) as Hr. by rewrite E in Hr. Qed.
End reads.

#[export] Hint Resolve reads_ret reads_lift reads_select reads_bind reads_select_result : magellan.
#[export] Hint Extern 1 (reads (match ?x with _ => _ end)) => destruct x : magellan.
#[export] Hint Extern 1 (reads (if ?x then _ else _)) => destruct x : magellan.

Section facts.
Context `{SqlEngine D} `{!SqlEngineOk D} `{!GoText} `{!AxiaIds} `{!AxiaFormatting} `{!SqlText}.
Context (sc : AggregateControl).
Implicit Types d : D.

Lemma Aggregate_reads p : reads (D:=D) (Aggregate p).
Proof. unfold Aggregate, getFirstTransactionTime. eauto 10 with magellan. Qed.

Lemma ListAssets_reads p : reads (D:=D) (ListAssets p).
Proof. unfold ListAssets, dressAssets, page_count. eauto 20 with magellan. Qed.

Lemma list_asset_reads id : reads (D:=D) (list_asset id).
Proof. apply reads_bind; [apply ListAssets_reads|intros l; apply reads_ret]. Qed.

Lemma fetchAssets_reads runTm dur : reads (D:=D) (fetchAssets sc runTm dur).
Proof. unfold fetchAssets. eauto with magellan. Qed.
Lemma additional_assets_reads l m : reads (D:=D) (additional_assets l m).
Proof.
revert m. induction l as [|asset l IH]; intros m; simpl; [apply reads_ret|].
apply reads_bind; [apply reads_lift|]. intros id. destruct (m !! id); [apply IH|].
apply reads_bind; [apply list_asset_reads|]. intros x. apply IH.
Qed.

(** An output created after a time in an asset that is not the network's own. *)
Definition moved (since : Z) (r : row) : bool :=
bool_decide (since < as_time (r !! "created_at"))%Z &&
match r !! "asset_id" with
| None | Some VNull => false
| Some a => bool_decide (a ≠ VStr (ID_String (sc_AxcAssetID sc)))
end.

(** The transactions of such outputs in an asset. *)
Definition transactions_in (since : Z) (c : content) (asset : string) : Z :=
count_distinct "transaction_id"
  (List.filter (λ r, String.eqb (col_str r "asset_id") asset) (List.filter (moved since) (c TableOutputs))).

Lemma recent_output_moved since r : recent_output sc since r = moved since r.
Proof.
unfold recent_output, moved. f_equal; [apply eq_true_iff_eq; by rewrite Z.ltb_lt, bool_decide_eq_true|]. unfold matches. simpl. rewrite andb_true_r.
destruct (r !! "asset_id") as [[]|]; try done; apply bool_decide_ext; naive_solver.
Qed.

(** The assets whose aggregates are computed. *)
Lemma recent_assets_spec since c :
(∀ a, a ∈ recent_assets sc since c ↔ ∃ r, r ∈ c TableOutputs ∧ moved since r = true ∧ col_str r "asset_id" = a) ∧
NoDup (recent_assets sc since c) ∧
StronglySorted (λ a b, transactions_in since c b <=? transactions_in since c a = true)%Z (recent_assets sc since c).
Proof.
assert (List.filter (recent_output sc since) (c TableOutputs) = List.filter (moved since) (c TableOutputs)) as E
by (apply filter_ext; apply recent_output_moved).
split_and!.
- intros a. unfold recent_assets. rewrite E, order_by_perm, elem_of_remove_dups, list_elem_of_In, in_map_iff.
setoid_rewrite filter_In. setoid_rewrite <-list_elem_of_In. naive_solver.
- unfold recent_assets. rewrite order_by_perm. apply NoDup_remove_dups.
- unfold recent_assets. rewrite E. fold (transactions_in since c).
apply order_by_sorted; [intros x y; lia|intros x y z; lia].
Qed.

(** The parameters of the aggregate of an asset: the last day of the swap chain. *)
Lemma asset_params_ok now runTm id p :
asset_params sc now runTm id = Ok p →
LP_StartTime (AG_ListParams p) = (runTm - 24 * Hour)%Z ∧ LP_EndTime (AG_ListParams p) = runTm ∧
AG_ChainIDs p = [ID_String (sc_SwapChainID sc)] ∧ AG_AssetID p = Some id ∧ AG_IntervalSize p = 0%Z.
Proof.
unfold asset_params. destruct (AggregateParams_ForValues now 1 ∅) as [p0|e] eqn:E; [|done].
assert (AG_ChainIDs p0 = [] ∧ AG_IntervalSize p0 = 0%Z) as [E1 E2].
{ unfold AggregateParams_ForValues in E. destruct (ListParams_ForValues now 1 ∅); [|done].
change (GetQueryID ∅ KeyAssetID) with (Ok (A := option ID) None) in E. injection E as <-. done. }
intros [= <-]. cbn. by rewrite E1, E2.
Qed.

(** The aggregate of an asset: one record, for the outputs of the asset created on the swap
chain in the day that ends at [runTm]. *)
Definition day_aggregate (runTm : Z) (id : ID) (c : content) : AggregatesHistogram :=
let from := (runTm - 24 * Hour)%Z in
mkAggregatesHistogram
(totals 0 from runTm (counted from runTm [ID_String (sc_SwapChainID sc)] (Some (ID_String id)) c)) 0 [] from runTm.

Lemma Aggregate_day now runTm id p d d' h :
(24 * Hour ≤ runTm)%Z → asset_params sc now runTm id = Ok p → Aggregate p d = (d', Ok h) →
rows d' ≡ᶜ rows d ∧ h = day_aggregate runTm id (rows d').
Proof.
intros Hrun (Es & Ee & Ec & Ea & Ei)%asset_params_ok (n & En & R & Hh)%aggregate_run. split; [done|].
assert (IsZero (LP_StartTime (AG_ListParams p)) = false) as Hz.
{ rewrite Es. unfold IsZero. apply Z.eqb_neq. unfold zero_time. lia. }
rewrite Hz, Ei in En. injection En as <-. rewrite Hz in Hh. unfold aggregate_query, aggregate_histogram in Hh. simpl in Hh.
injection Hh as <-. rewrite aggregate_rows_counted, Es, Ee, Ec, Ea. done.
Qed.

Definition aggregated (runTm : Z) d (id : ID) (a : AssetAggregate) : Prop :=
AssetAggregate_Asset a = id ∧ ∃ c, c ≡ᶜ rows d ∧ AssetAggregate_Aggregate a = day_aggregate runTm id c.

Lemma aggregated_proper runTm d d0 id a : rows d0 ≡ᶜ rows d → aggregated runTm d id a → aggregated runTm d0 id a.
Proof. intros E [Ha (c & E1 & Hg)]. split; [done|]. exists c. by rewrite E. Qed.

Lemma aggregate_asset_ok now runTm asset aggrMap assetMap aggrList d d' v :
(24 * Hour ≤ runTm)%Z → aggregate_asset sc now runTm asset (aggrMap, assetMap, aggrList) d = (d', Ok v) →
rows d ≡ᶜ rows d' ∧ ∃ id a assetMap', ids_FromString asset = Ok id ∧ aggregated runTm d id a ∧
v = (<[id := AssetAggregate_Aggregate a]> aggrMap, assetMap', aggrList ++ [a]).
Proof.
intros Hrun E. unfold aggregate_asset in E.
apply bind_Ok_inv in E as (p0 & d0 & E0 & E). apply lift_result_Ok_inv in E0 as [-> _].
apply bind_Ok_inv in E as (id & d1 & E1 & E). apply lift_result_Ok_inv in E1 as [-> Hid].
apply bind_Ok_inv in E as (p & d2 & E2 & E). apply lift_result_Ok_inv in E2 as [-> Hp].
apply bind_Ok_inv in E as (h & d3 & E3 & E). apply bind_Ok_inv in E as (l & d4 & E4 & E). injection E as <- <-.
pose proof (reads_Ok _ _ _ _ (Aggregate_reads p) E3) as R3.
pose proof (reads_Ok _ _ _ _ (list_asset_reads id) E4) as R4.
split; [by rewrite R3|]. exists id, (mkAssetAggregate id h), (add_assets id l assetMap).
split_and!; [done| |done]. split; [done|].
destruct (Aggregate_day _ _ _ _ _ _ _ Hrun Hp E3) as [R ->]. by exists (rows d3).
Qed.

Lemma aggregate_assets_ok now runTm assets aggrMap assetMap aggrList d d' aggrMap' assetMap' aggrList' :
(24 * Hour ≤ runTm)%Z → aggregate_assets sc now runTm assets (aggrMap, assetMap, aggrList) d = (d', Ok (aggrMap', assetMap', aggrList')) →
rows d ≡ᶜ rows d' ∧ ∃ ids l, mapM ids_FromString assets = Ok ids ∧ aggrList' = aggrList ++ l ∧
Forall2 (aggregated runTm d) ids l ∧
aggrMap' = fold_left (λ m a, <[AssetAggregate_Asset a := AssetAggregate_Aggregate a]> m) l aggrMap.
Proof.
intros Hrun. revert aggrMap assetMap aggrList d. induction assets as [|asset assets IH]; intros aggrMap assetMap aggrList d E; simpl in E.
- injection E as <- <- <- <-. split; [done|]. exists [], []. by rewrite app_nil_r.
- apply bind_Ok_inv in E as ([[m1 m2] l1] & d1 & E1 & E).
apply aggregate_asset_ok in E1 as (R1 & id & a & m3 & Hid & Ha & [= -> -> ->]); [|done].
apply IH in E as (R2 & ids & l & Hids & -> & Hl & ->). split; [by rewrite R1|].
exists (id :: ids), (a :: l). simpl. rewrite Hid. cbn. rewrite Hids. cbn. split_and!; [done|by rewrite <-app_assoc| |].
+ constructor; [done|]. eapply Forall2_impl; [exact Hl|]. intros ? ?. by apply aggregated_proper.
+ by destruct Ha as [-> _].
Qed.

(** C24. A run of the task that succeeds, at a time [runTm] from 2 January 1970 on.  The
assets are the network's own, and those of the outputs created in the last 24 hours before
[runTm], the ones in most transactions first, each once.  The aggregate of each of them is a
record of the outputs of the asset created on the swap chain from 24 hours before [runTm]
until [runTm], joined with their addresses: the volume, and how many transactions, addresses,
rows of outputs and assets there are.  The aggregates are kept in the decreasing order of
their number of transactions, and an asset is looked up under its aggregate; the tables do
not change. *)
Theorem asset_aggregates now runTm d d' aggrMap assetMap aggrList :
(24 * Hour ≤ runTm)%Z →
collect_aggregates sc now runTm d = (d', Ok (aggrMap, assetMap, aggrList)) →
let from := (runTm - 24 * Hour)%Z in
rows d ≡ᶜ rows d' ∧
StronglySorted (λ a b, (Agg_TransactionCount (AH_Aggregates (AssetAggregate_Aggregate b)) <=?
                        Agg_TransactionCount (AH_Aggregates (AssetAggregate_Aggregate a)))%Z = true) aggrList ∧
∃ c assets ids l, c ≡ᶜ rows d ∧
(∀ a, a ∈ assets ↔ ∃ r, r ∈ c TableOutputs ∧ moved from r = true ∧ col_str r "asset_id" = a) ∧
NoDup assets ∧ StronglySorted (λ a b, (transactions_in from c b <=? transactions_in from c a)%Z = true) assets ∧
mapM ids_FromString (ID_String (sc_AxcAssetID sc) :: assets) = Ok ids ∧ aggrList ≡ₚ l ∧
Forall2 (λ id a, AssetAggregate_Asset a = id ∧ ∃ c, c ≡ᶜ rows d ∧
  AssetAggregate_Aggregate a =
    mkAggregatesHistogram
      (totals 0 from runTm (counted from runTm [ID_String (sc_SwapChainID sc)] (Some (ID_String id)) c)) 0 [] from runTm)
  ids l ∧
aggrMap = fold_left (λ m a, <[AssetAggregate_Asset a := AssetAggregate_Aggregate a]> m) l ∅.
Proof.
intros Hrun E from. unfold collect_aggregates in E.
apply bind_Ok_inv in E as ([assets addl] & d1 & E1 & E). apply bind_Ok_inv in E as ([[m1 m2] l] & d2 & E2 & E).
apply bind_Ok_inv in E as (m3 & d3 & E3 & E). injection E as <- <- <- <-.
pose proof (reads_Ok _ _ _ _ (fetchAssets_reads runTm runDuration) E1) as R1.
apply aggregate_assets_ok in E2 as (R2 & ids & l' & Hids & -> & Hl & ->); [|done].
assert (∃ c, c ≡ᶜ rows d ∧ assets = ID_String (sc_AxcAssetID sc) :: recent_assets sc (runTm - runDuration) c) as (c & Rc & ->).
{ unfold fetchAssets in E1. apply bind_Ok_inv in E1 as (found & d4 & E4 & E1).
apply bind_Ok_inv in E1 as (addl' & d5 & E5 & E1). injection E1 as <- <- <-.
apply select_ok in E4 as [R4 ->]. by exists (rows d4). }
split_and!.
- rewrite R1, R2. apply (reads_Ok _ _ _ _ (additional_assets_reads addl m2) E3).
- apply order_by_sorted; [intros x y; lia|intros x y z; lia].
- destruct (recent_assets_spec from c) as (H1' & H2' & H3').
exists c, (recent_assets sc from c), ids, l'. split_and!; [done..|apply order_by_perm| |done].
eapply Forall2_impl; [exact Hl|]. intros ? ?. by apply aggregated_proper.
Qed.
End facts.

(** * An asset in two transactions *)
Module AggrSample.
Import Toy ParamsFacts.ToyText AggSample.
#[local] Existing Instance CacheFacts.CacheSample.like_text.
Definition sc : AggregateControl := mkAggregateControl "X" "main" ["X"].
Definition runTm : Z := (start + Hour)%Z.
Abbreviation answer := (collect_aggregates sc runTm runTm db).
Definition vars : AggrVars := match answer.2 with Ok v => v | Err _ => (∅, ∅, []) end.

Example most_used_first :
map AssetAggregate_Asset vars.2 = ["axc"; "main"] ∧ map aggregate_count vars.2 = [2; 0]%Z.
Proof. split; vm_compute; reflexivity. Qed.
End AggrSample.
Import Toy ParamsFacts.ToyText AggSample AggrSample.
#[local] Existing Instance CacheFacts.CacheSample.like_text.

Lemma asset_aggregates_witness :
  ∃ c assets ids l, c ≡ᶜ rows db ∧ mapM ids_FromString ("main" :: assets) = Ok ids ∧
    vars.2 ≡ₚ l ∧ Forall2 (λ id a, AssetAggregate_Asset a = id ∧ ∃ c, c ≡ᶜ rows db ∧
      AssetAggregate_Aggregate a = mkAggregatesHistogram
        (totals 0 (runTm - 24 * Hour) runTm (counted (runTm - 24 * Hour) runTm ["X"] (Some id) c))
        0 [] (runTm - 24 * Hour) runTm) ids l.
Proof.
  destruct (asset_aggregates sc runTm runTm db (answer.1) vars.1.1 vars.1.2 vars.2)
    as (_ & _ & c & assets & ids & l & Hc & _ & _ & _ & Hids & Hl & Hf & _).
  - vm_compute. discriminate.
  - vm_compute. reflexivity.
  - exists c, assets, ids, l. exact (conj Hc (conj Hids (conj Hl Hf))).
Defined.
