(* ===== verification/ReaderCTransFacts.v ===== *)
(** What a listed transaction of the C chain carries: the traces that are stored of it, each
    at its place. *)

From S2P Require Import Prelude Errors Sql MemDb DbModel Axia GoText Params Query Select ReaderRows ReaderCTrans ParamsFacts ReaderFacts CacheFacts AssetAggrFacts.

Section facts.
Context `{SqlEngine D} `{!SqlEngineOk D} `{!Dbr} `{!AxiaIds} `{!SqlText} `{!CTransJson}.
Implicit Types (t : CTransactionData) (svc : CvmTransactionsTxdataTrace).

Abbreviation idx := CvmTransactionsTxdataTrace_Idx.
Abbreviation trace_hash_of := CvmTransactionsTxdataTrace_Hash.

(** The model of a stored trace. *)
Definition model_of svc : result CvmTransactionsTxDataTrace :=
json_trace_model (default "" (CvmTransactionsTxdataTrace_Serialization svc)).

(** A trace put in its transaction. *)
Definition add_trace t svc : CTransactionData :=
match model_of svc with
| Ok m => with_trace (idx svc) (clean_trace m) (TT_ToAddr m) (TT_FromAddr m) t
| Err _ => t
end.

(** Each transaction gets the traces of its place, in their order, and no others. *)
Lemma dress_traces_ok hashes l traces l' : dress_traces hashes l traces = Ok l' →
Forall (λ svc, is_ok (model_of svc) = true) traces ∧ length l' = length l ∧
∀ n t, l !! n = Some t →
  l' !! n = Some (fold_left add_trace (filter (λ svc, hashes !! trace_hash_of svc = Some n) traces) t).
Proof.
revert l. induction traces as [|svc traces IH]; intros l E; cbn in E.
{ injection E as <-. by split_and!. }
unfold dress_trace in E. fold (model_of svc) in E. destruct (model_of svc) as [m|e] eqn:Em; [|done]. cbn in E.
destruct (hashes !! trace_hash_of svc) as [k|] eqn:Ek; cbn in E; destruct (IH _ E) as (Hok & Hlen & Hl).
- split_and!; [constructor; [by rewrite Em|done]|by rewrite Hlen, length_alter|]. intros n t Hn.
  destruct (decide (k = n)) as [->|Hne].
  + rewrite filter_cons_True by done. cbn. apply Hl. rewrite list_lookup_alter_eq, Hn. unfold add_trace. by rewrite Em.
  + rewrite filter_cons_False by congruence. apply Hl. by rewrite list_lookup_alter_ne.
- split_and!; [constructor; [by rewrite Em|done]|done|]. intros n t Hn. rewrite filter_cons_False by congruence. by apply Hl.
Qed.

(** The place of a hash among transactions of distinct hashes. *)
Lemma hash_index_spec l n t h : NoDup (map CT_Hash l) → l !! n = Some t → hash_index l !! h = Some n ↔ h = CT_Hash t.
Proof.
intros Hnd Hn. unfold hash_index.
assert (NoDup (reverse (imap (λ n t, (CT_Hash t, n)) l)).*1) as Hnd'.
{ rewrite fmap_reverse, reverse_Permutation, fmap_imap. change (imap _ l) with (imap (const CT_Hash) l).
  rewrite imap_const. exact Hnd. }
split.
- intros Hin%elem_of_list_to_map_2. apply elem_of_reverse, elem_of_lookup_imap in Hin as (i & t' & [= -> ->] & Ht').
  congruence.
- intros ->. apply elem_of_list_to_map_1; [exact Hnd'|]. apply elem_of_reverse, elem_of_lookup_imap. by exists n, t.
Qed.

Lemma add_traces_same svcs t :
CT_Hash (fold_left add_trace svcs t) = CT_Hash t ∧ CT_Block (fold_left add_trace svcs t) = CT_Block t.
Proof.
revert t. induction svcs as [|svc svcs IH]; intros t; [done|]. cbn. destruct (IH (add_trace t svc)) as [-> ->].
unfold add_trace. by destruct (model_of svc).
Qed.

(** The traces of one transaction, none twice under one index. *)
Lemma add_traces svcs t : Forall (λ svc, is_ok (model_of svc) = true) svcs → NoDup (map idx svcs) →
(∀ svc, svc ∈ svcs → 0 ≤ idx svc < 2 ^ 32 - 1)%Z →
let t' := fold_left add_trace svcs t in
(∀ svc, svc ∈ svcs → ∃ m, model_of svc = Ok m ∧ CT_TracesMap t' !! idx svc = Some (clean_trace m) ∧
   (idx svc = 0%Z → CT_ToAddr t' = TT_ToAddr m ∧ CT_FromAddr t' = TT_FromAddr m) ∧ (idx svc < CT_TracesMax t')%Z) ∧
(∀ k, k ∉ map idx svcs → CT_TracesMap t' !! k = CT_TracesMap t !! k ∧
   (k = 0%Z → CT_ToAddr t' = CT_ToAddr t ∧ CT_FromAddr t' = CT_FromAddr t)) ∧
(CT_TracesMax t ≤ CT_TracesMax t')%Z ∧
(CT_TracesMax t' = CT_TracesMax t ∨ ∃ svc, svc ∈ svcs ∧ CT_TracesMax t' = idx svc + 1)%Z ∧
CT_Hash t' = CT_Hash t ∧ CT_Traces t' = CT_Traces t ∧ CT_Block t' = CT_Block t.
Proof.
revert t. induction svcs as [|svc svcs IH]; intros t Hok Hnd Hr t'.
{ split_and!; try done; [by intros svc ?%elem_of_nil|by left]. }
apply Forall_cons in Hok as [Hok1 Hok]. apply NoDup_cons in Hnd as [Hni Hnd].
destruct (model_of svc) as [m|e] eqn:Em; [|done].
specialize (IH (add_trace t svc) Hok Hnd (λ s Hs, Hr s (list_elem_of_further _ _ _ Hs))).
change (fold_left add_trace svcs (add_trace t svc)) with t' in IH. cbv zeta in IH. clearbody t'.
destruct IH as (Hin & Hout & Hle & Hmax & Hh & Ht & Hb). destruct (Hr svc) as [Hlo H32]; [left|].
assert (add_trace t svc = with_trace (idx svc) (clean_trace m) (TT_ToAddr m) (TT_FromAddr m) t) as Ea.
{ unfold add_trace. by rewrite Em. }
assert (u32_add (idx svc) 1 = idx svc + 1)%Z as Eu by (apply Z.mod_small; lia).
assert (CT_TracesMax (add_trace t svc) = Z.max (CT_TracesMax t) (idx svc + 1)) as Emax.
{ rewrite Ea. cbn. rewrite Eu. destruct (Z.ltb_spec (CT_TracesMax t) (idx svc + 1)); lia. }
split_and!.
- intros s [->|Hs]%elem_of_cons; [|by apply Hin]. exists m. split; [done|]. destruct (Hout _ Hni) as [Hm H0'].
  rewrite Hm, Ea. cbn. rewrite lookup_insert_eq. split; [done|]. split; [|lia].
  intros E0. rewrite (proj1 (H0' E0)), (proj2 (H0' E0)), Ea. cbn. by rewrite E0.
- intros k [Hne Hk]%not_elem_of_cons. destruct (Hout _ Hk) as [Hm H0']. rewrite Hm, Ea. cbn. split.
  + by rewrite lookup_insert_ne.
  + intros E0. rewrite (proj1 (H0' E0)), (proj2 (H0' E0)), Ea. cbn. rewrite (proj2 (Z.eqb_neq (idx svc) 0)) by congruence. done.
- lia.
- destruct Hmax as [Hmax|(s & Hs & Hmax)]; [|right; exists s; split; [by right|done]].
  rewrite Hmax, Emax. destruct (Z.max_spec (CT_TracesMax t) (idx svc + 1)) as [[_ ->]|[_ ->]]; [right|by left].
  exists svc. split; [left|done].
- by rewrite Hh, Ea.
- by rewrite Ht, Ea.
- by rewrite Hb, Ea.
Qed.

(** The numbers [0], [1], ..., in any order: the list of the traces is full. *)
Lemma finish_traces svcs t blocks k : Forall (λ svc, is_ok (model_of svc) = true) svcs →
map idx svcs ≡ₚ map Z.of_nat (seq 0 k) → (Z.of_nat k < 2 ^ 32)%Z → CT_Traces t = [] → CT_TracesMax t = 0%Z →
let t' := finish_ctrans blocks (fold_left add_trace svcs t) in
length (CT_Traces t') = k ∧
∀ svc, svc ∈ svcs → ∃ m, model_of svc = Ok m ∧ CT_Traces t' !! Z.to_nat (idx svc) = Some (Some (without_idx (clean_trace m))) ∧
  (idx svc = 0%Z → CT_ToAddr t' = TT_ToAddr m ∧ CT_FromAddr t' = TT_FromAddr m).
Proof.
intros Hok Hp Hk Et Em t'.
assert (∀ svc, svc ∈ svcs → (0 ≤ idx svc < Z.of_nat k)%Z) as Hr.
{ intros svc Hs. assert (idx svc ∈ map Z.of_nat (seq 0 k)) as (i & E & Hi%elem_of_seq)%list_elem_of_fmap.
  { rewrite <-Hp. by apply list_elem_of_fmap_2. }
  lia. }
destruct (add_traces svcs t Hok) as (Hin & _ & Hle & Hmax & _ & Ht & _).
{ rewrite Hp. apply NoDup_fmap_2; [intros ???; lia|apply NoDup_seq]. }
{ intros svc Hs. apply Hr in Hs. lia. }
assert (CT_TracesMax (fold_left add_trace svcs t) = Z.of_nat k) as Ek.
{ destruct k as [|k].
  - apply Permutation_nil_r in Hp. destruct svcs; [exact Em|done].
  - assert (∃ svc, svc ∈ svcs ∧ idx svc = Z.of_nat k) as (svc & Hs & Ei).
    { assert (Z.of_nat k ∈ map idx svcs) as (svc & E & Hs)%list_elem_of_fmap; [|by exists svc].
      rewrite Hp. apply list_elem_of_fmap_2, elem_of_seq. lia. }
    destruct (Hin _ Hs) as (m & _ & _ & _ & Hlt). destruct Hmax as [Hmax|(s & Hs' & Hmax)]; [lia|].
    apply Hr in Hs'. lia. }
unfold t', finish_ctrans. cbn. rewrite Ek.
assert (length svcs = k) as El. { by rewrite <-(length_map idx), Hp, length_map, length_seq. }
destruct (Z.eqb_spec (Z.of_nat k) 0) as [E0|Hne].
- rewrite Ht, Et. split; [cbn; lia|]. intros svc Hs. destruct svcs; [by apply elem_of_nil in Hs|cbn in El; lia].
- rewrite length_map, length_seq. split; [lia|]. intros svc Hs. destruct (Hin _ Hs) as (m & Hm & Hl & Hz & _).
  exists m. split; [done|]. split; [|exact Hz]. apply Hr in Hs. rewrite list_lookup_fmap, lookup_seq_lt by lia. cbn.
  by rewrite Z2Nat.id, Hl by lia.
Qed.

Lemma mapM_Forall2 {A B} (f : A → result B) l l' : mapM f l = Ok l' → Forall2 (λ x y, f x = Ok y) l l'.
Proof.
revert l'. induction l as [|x l IH]; intros l' E; cbn in E; [injection E as <-; constructor|].
destruct (f x) as [y|] eqn:Ef; [|done]. cbn in E. destruct (mapM f l) as [ys|] eqn:El; [|done]. injection E as <-.
constructor; [done|by apply IH].
Qed.

Lemma fetch_reads blocks : reads (fetchAndDecodeCBlocks (D:=D) blocks).
Proof. unfold fetchAndDecodeCBlocks. auto 8 with magellan nocore. Qed.

(** The dressing of a list: the traces asked for are those of its hashes. *)
Lemma handleDressTraces_ok l d d' l' : handleDressTraces l d = (d', Ok l') → l ≠ [] →
∃ c, c ≡ᶜ rows d ∧ rows d ≡ᶜ rows d' ∧ dress_traces (hash_index l) l (trace_rows (map CT_Hash l) c) = Ok l'.
Proof.
unfold handleDressTraces. intros E Hne. destruct l as [|t l]; [done|]. cbn [length Nat.eqb] in E.
apply bind_Ok_inv in E as (traces & d1 & E1 & E2). apply lift_result_Ok_inv in E2 as [-> E2].
apply select_ok in E1 as [R1 ->]. by exists (rows d1).
Qed.

(** The rows of the traces, in any order. *)
Lemma trace_rows_perm hashes (c c' : content) : c ≡ᶜ c' → trace_rows hashes c ≡ₚ trace_rows hashes c'.
Proof. intros E. unfold trace_rows. by rewrite (filter_perm _ _ _ (E TableCvmTransactionsTxdataTrace)). Qed.

(** C27. What a listed transaction of the C chain carries.  The items of the answer are those
  of the rows asked for, in their order, each decoded from its stored form.  When their
  hashes are distinct and the traces stored of a transaction are numbered from zero, as the
  client of the node numbers them, the item holds all of them, each at its number with its
  decoded form, and nothing else; the first one gives its addresses. *)
Theorem ctrans_traced p d d' out : ListCTransactions p d = (d', Ok out) →
∃ c1 c2 items, c1 ≡ᶜ rows d ∧ c2 ≡ᶜ rows d ∧
  Forall2 (λ txdata t, ∃ tr, eth_UnmarshalJSON (default "" (CvmTransactionsTxdata_Serialization txdata)) = Ok tr ∧
    t = of_txdata txdata (toCTransactionData tr)) (ctrans_rows p c1) items ∧
  length (CL_Transactions out) = length items ∧
  (NoDup (map CT_Hash items) → ∀ n t, items !! n = Some t → ∃ t', CL_Transactions out !! n = Some t' ∧
    CT_Hash t' = CT_Hash t ∧ CT_Block t' = CT_Block t ∧
    let svcs := filter (λ svc, trace_hash_of svc = CT_Hash t) (trace_rows (map CT_Hash items) c2) in
    ∀ k, map idx svcs ≡ₚ map Z.of_nat (seq 0 k) → (Z.of_nat k < 2 ^ 32)%Z →
      length (CT_Traces t') = k ∧
      ∀ svc, svc ∈ svcs → ∃ m, model_of svc = Ok m ∧
        CT_Traces t' !! Z.to_nat (idx svc) = Some (Some (without_idx (clean_trace m))) ∧
        (idx svc = 0%Z → CT_ToAddr t' = TT_ToAddr m ∧ CT_FromAddr t' = TT_FromAddr m)).
Proof.
intros E. unfold ListCTransactions in E. apply bind_Ok_inv in E as (dataList & d1 & E1 & E).
apply bind_Ok_inv in E as (items & d2 & E2 & E). apply bind_Ok_inv in E as (blocks & d3 & E3 & E).
apply bind_Ok_inv in E as (items' & d4 & E4 & [= <- <-]). apply lift_result_Ok_inv in E2 as [-> E2].
apply select_ok in E1 as [R1 ->]. pose proof (reads_Ok _ _ _ _ (fetch_reads _) E3) as R3.
apply mapM_Forall2 in E2.
assert (Forall2 (λ txdata t, ∃ tr, eth_UnmarshalJSON (default "" (CvmTransactionsTxdata_Serialization txdata)) = Ok tr ∧
  t = of_txdata txdata (toCTransactionData tr)) (ctrans_rows p (rows d1)) items) as Hitems.
{ eapply Forall2_impl; [exact E2|]. intros txdata t Et. cbn in Et. destruct (eth_UnmarshalJSON _) as [tr|]; [|done].
  injection Et as <-. by exists tr. }
destruct (decide (items = [])) as [->|Hne].
{ injection E4 as _ <-. exists (rows d1), (rows d1), []. split_and!; done. }
destruct (handleDressTraces_ok _ _ _ _ E4 Hne) as (c2 & Rc & _ & Hd).
destruct (dress_traces_ok _ _ _ _ Hd) as (Hok & Hlen & Hdress).
exists (rows d1), c2, items. split_and!; [done|by rewrite Rc, <-R3|done|cbn; by rewrite length_imap|].
intros Hnd n t Hn. specialize (Hdress n t Hn). cbn [CL_Transactions].
rewrite (list_filter_iff _ (λ svc, trace_hash_of svc = CT_Hash t)) in Hdress by (intros svc; by apply hash_index_spec).
set (svcs := filter _ _) in Hdress.
assert (Forall (λ svc, is_ok (model_of svc) = true) svcs) as Hok'.
{ apply Forall_forall. intros svc [_ Hs]%list_elem_of_filter. by apply (proj1 (Forall_forall _ _) Hok). }
assert (CT_Traces t = [] ∧ CT_TracesMax t = 0%Z) as [Et Em].
{ destruct (Forall2_lookup_r _ _ _ _ _ Hitems Hn) as (txdata & _ & tr & _ & ->). cbn. unfold toCTransactionData.
  by destruct (Eth_RawSignatureValues tr) as [[? ?] ?]. }
exists (finish_ctrans blocks (fold_left add_trace svcs t)). split_and!.
- rewrite list_lookup_imap, Hdress. cbn. rewrite (proj1 (add_traces_same svcs t)).
  by rewrite bool_decide_eq_true_2 by (by apply (hash_index_spec items n t)).
- apply add_traces_same.
- apply add_traces_same.
- intros k Hp Hk. by apply finish_traces.
Qed.
End facts.

(** * An example: two transactions, one with two traces stored out of order *)
Module CTransSample.
Import Toy ToyDbr ParamsFacts.ToyText AggSample.
#[local] Existing Instance CacheFacts.CacheSample.like_text.
#[local] Instance toy_json : CTransJson := {|
eth_UnmarshalJSON s := Ok (mkEthTransaction 0 s 0 None 21000 None None None (Some 5%Z) "" (None, None, None));
header_json_Unmarshal s := Ok (mkEthHeader 1 2 3 s, []);
json_trace_model s :=
Ok (mkTxDataTrace None None "" s "0xf" "CALL" "0x10" "0xff" (Some "0x") None "0x0" None None None None None None []);
UnpackRevert s := Err "not a reason";
|}.
Definition tx (h : string) (t : Z) : CvmTransactionsTxdata := mkCvmTransactionsTxdata h "7" 0 "" 0 (Some h) t.
Definition trace (h : string) (i : Z) (to : string) : CvmTransactionsTxdataTrace :=
mkCvmTransactionsTxdataTrace h i to "0xf" "" "CALL" (Some to) start.
Definition db : MemDb :=
let d := (InsertCvmTransactionsTxdata (tx "0xaa" start) true empty_db).1 in
let d := (InsertCvmTransactionsTxdata (tx "0xbb" (start + Second)%Z) true d).1 in
let d := (InsertCvmTransactionsTxdataTrace (trace "0xaa" 1 "0xinner") true d).1 in
(InsertCvmTransactionsTxdataTrace (trace "0xaa" 0 "0xouter") true d).1.
Definition stored_tx (n : nat) : row := default ∅ (rows db TableCvmTransactionsTxdata !! n).
Definition p : ListCTransactionsParams :=
mkListCTransactionsParams (mkListParams ∅ None "" 5000 0 true true true start (start + Hour)) [] [] [] [] TransactionSortDefault None None.
Abbreviation answer := (ListCTransactions p db).
Definition listed : CTransactionList := match answer.2 with Ok l => l | Err _ => mkCTransactionList [] 0 0 end.

Example traces_in_their_places :
map CT_Hash (CL_Transactions listed) = ["0xbb"; "0xaa"] ∧
map (λ t, map (fmap TT_ToAddr) (CT_Traces t)) (CL_Transactions listed) = [[]; [Some "0xouter"; Some "0xinner"]].
Proof. split; vm_compute; reflexivity. Qed.
End CTransSample.
Import Toy ToyDbr ParamsFacts.ToyText AggSample CTransSample.
#[local] Existing Instance CacheFacts.CacheSample.like_text.
#[local] Existing Instance CTransSample.toy_json.

Lemma ctrans_traced_witness :
  length (CL_Transactions listed) = 2 ∧
  ∃ t', CL_Transactions listed !! 1 = Some t' ∧ CT_Hash t' = "0xaa" ∧ length (CT_Traces t') = 2 ∧ CT_ToAddr t' = "0xouter".
Proof.
  destruct (ctrans_traced CTransSample.p CTransSample.db (answer.1) listed) as (c1 & c2 & items & R1 & R2 & Hf & Hlen & Ht).
  - vm_compute. reflexivity.
  - assert (ctrans_rows CTransSample.p c1 = [tx "0xbb" (start + Second); tx "0xaa" start]) as Er.
    { assert (c1 TableCvmTransactionsTxdata ≡ₚ [stored_tx 0; stored_tx 1]) as E.
      { etransitivity; [apply R1|]. replace [stored_tx 0; stored_tx 1] with (rows CTransSample.db TableCvmTransactionsTxdata); [done|].
        apply (bool_decide_unpack _). vm_compute. exact I. }
      symmetry in E. unfold ctrans_rows.
      apply Permutation_length_2_inv in E as [-> | ->]; vm_compute; reflexivity. }
    rewrite Er in Hf.
    apply Forall2_cons_inv_l in Hf as (t1 & l1 & (tr1 & [= <-] & ->) & Hf & ->).
    apply Forall2_cons_inv_l in Hf as (t2 & l2 & (tr2 & [= <-] & ->) & Hf & ->).
    apply Forall2_nil_inv_l in Hf as ->.
    split; [exact Hlen|].
    set (t1 := of_txdata (tx "0xbb" _) _) in Ht. set (t2 := of_txdata (tx "0xaa" _) _) in Ht.
    assert (CT_Hash t1 = "0xbb") as E1 by (vm_compute; reflexivity).
    assert (CT_Hash t2 = "0xaa") as E2 by (vm_compute; reflexivity).
    clearbody t1 t2. cbn [map] in Ht. rewrite E1, E2 in Ht.
    assert (NoDup ["0xbb"; "0xaa"]) as Hnd by (apply (bool_decide_unpack _); vm_compute; exact I).
    destruct (Ht Hnd 1 t2 eq_refl) as (t' & E & Eh & _ & Hk). rewrite E2 in Eh, Hk.
    exists t'. split; [exact E|]. split; [exact Eh|]. cbv zeta in Hk.
    assert (filter (λ svc, CvmTransactionsTxdataTrace_Hash svc = "0xaa") (trace_rows ["0xbb"; "0xaa"] c2)
            ≡ₚ [trace "0xaa" 0 "0xouter"; trace "0xaa" 1 "0xinner"]) as Es.
    { rewrite (trace_rows_perm _ _ _ R2). vm_compute. reflexivity. }
    destruct (Hk 2) as [Hl Hs].
    + rewrite Es. reflexivity.
    + lia.
    + split; [exact Hl|]. destruct (Hs (trace "0xaa" 0 "0xouter")) as (m & [= <-] & _ & Hz).
      * rewrite Es. left.
      * exact (proj1 (Hz eq_refl)).
Defined.
