(* ===== verification/Metrics.v ===== *)
(** utils/prometheus.go: the counters and histograms of the process, and the collectors
    that a request or a message updates them with.

    A counter holds a whole number, exact as a [float64] below 2^53.  [promauto]
    (third-party) registers a metric under its name and panics when the name is taken;
    adding a negative number to a counter panics.  [None] : a panic. *)

From S2P Require Import Prelude.

Record Metrics := mkMetrics {
  counters : gmap string Z;
  histograms : gmap string (list Z);      (* what was observed *)
}.

(** [Init] only makes the maps. *)
Definition Metrics_empty : Metrics := mkMetrics ∅ ∅.

Definition CounterInit (name help : string) (m : Metrics) : option Metrics :=
  match counters m !! name with
  | Some _ => Some m
  | None =>
      match histograms m !! name with
      | Some _ => None
      | None => Some (mkMetrics (<[name := 0%Z]> (counters m)) (histograms m))
      end
  end.

Definition metric_not_found (name : string) : error := "metric not found: " +:+ name.

Definition CounterAdd (name : string) (v : Z) (m : Metrics) : option (Metrics * result unit) :=
  match counters m !! name with
  | None => Some (m, Err (metric_not_found name))
  | Some c =>
      if (v <? 0)%Z then None
      else Some (mkMetrics (<[name := (c + v)%Z]> (counters m)) (histograms m), Ok tt)
  end.

Definition CounterInc (name : string) (m : Metrics) : option (Metrics * result unit) :=
  match counters m !! name with
  | None => Some (m, Err (metric_not_found name))
  | Some c => Some (mkMetrics (<[name := (c + 1)%Z]> (counters m)) (histograms m), Ok tt)
  end.

Definition HistogramInit (name help : string) (buckets : list Z) (m : Metrics) : option Metrics :=
  match histograms m !! name with
  | Some _ => Some m
  | None =>
      match counters m !! name with
      | Some _ => None
      | None => Some (mkMetrics (counters m) (<[name := []]> (histograms m)))
      end
  end.

Definition HistogramObserve (name : string) (v : Z) (m : Metrics) : Metrics * result unit :=
  match histograms m !! name with
  | None => (m, Err (metric_not_found name))
  | Some l => (mkMetrics (counters m) (<[name := l ++ [v]]> (histograms m)), Ok tt)
  end.

(** * Collectors *)
Inductive Collector :=
| successFailCounterInc (success : bool) (keySuccess keyFail : string)
| successFailCounterAdd (success : bool) (keySuccess keyFail : string) (count : Z)
| histogramObserveMillis (collect : bool) (timeNow : Z) (key : string)
| counterObserveMillisCollect (collect : bool) (timeNow : Z) (key : string)
| counterIncCollect (collect : bool) (key : string)
| collectorsContainer (collectors : list Collector).

(** The constructors; [now] is [time.Now()]. *)
Definition NewSuccessFailCounterInc : string → string → Collector := successFailCounterInc true.
Definition NewSuccessFailCounterAdd : string → string → Z → Collector := successFailCounterAdd true.
Definition NewHistogramCollect (now : Z) : string → Collector := histogramObserveMillis true now.
Definition NewCounterObserveMillisCollect (now : Z) : string → Collector := counterObserveMillisCollect true now.
Definition NewCounterIncCollect : string → Collector := counterIncCollect true.
Definition NewCollectors : list Collector → Collector := collectorsContainer.

(** [Error] *)
Fixpoint collector_Error (c : Collector) : Collector :=
  match c with
  | successFailCounterInc _ ks kf => successFailCounterInc false ks kf
  | successFailCounterAdd _ ks kf n => successFailCounterAdd false ks kf n
  | histogramObserveMillis _ t k => histogramObserveMillis false t k
  | counterObserveMillisCollect _ t k => counterObserveMillisCollect false t k
  | counterIncCollect _ k => counterIncCollect false k
  | collectorsContainer l => collectorsContainer (map collector_Error l)
  end.

(** [time.Since(t).Milliseconds()] *)
Definition since_millis (now t : Z) : Z := Z.quot (now - t) 1000000.

(** [Collect] : a container returns the last error. *)
Fixpoint Collect (now : Z) (c : Collector) (m : Metrics) : option (Metrics * result unit) :=
  match c with
  | successFailCounterInc success ks kf => CounterInc (if success then ks else kf) m
  | successFailCounterAdd success ks kf n => CounterAdd (if success then ks else kf) n m
  | histogramObserveMillis collect t k =>
      Some (if collect then HistogramObserve k (since_millis now t) m else (m, Ok tt))
  | counterObserveMillisCollect collect t k =>
      if collect then CounterAdd k (since_millis now t) m else Some (m, Ok tt)
  | counterIncCollect collect k => if collect then CounterInc k m else Some (m, Ok tt)
  | collectorsContainer l =>
      (fix go l m err := match l with
        | [] => Some (m, err)
        | c :: l' =>
            match Collect now c m with
            | None => None
            | Some (m', Ok _) => go l' m' err
            | Some (m', Err e) => go l' m' (Err e)
            end
        end) l m (Ok tt)
  end.

(** * Facts *)

(** A metric once initialised stays so. *)
Lemma CounterInit_counter name help m m' : CounterInit name help m = Some m' → is_Some (counters m' !! name).
Proof.
  unfold CounterInit. destruct (counters m !! name) eqn:E; [intros [= <-]; by eexists|].
  destruct (histograms m !! name); [done|]. intros [= <-]. simpl. rewrite lookup_insert_eq. by eexists.
Qed.

(** A counter is never reset by another initialisation. *)
Lemma CounterInit_kept name help m m' k c :
  CounterInit name help m = Some m' → counters m !! k = Some c → counters m' !! k = Some c.
Proof.
  unfold CounterInit. destruct (counters m !! name) eqn:E; [by intros [= <-]|].
  destruct (histograms m !! name); [done|]. intros [= <-] Hk. simpl.
  rewrite lookup_insert_ne; [done|congruence].
Qed.

(** A request that is counted: both its collectors find their metrics. *)
Lemma collect_counted now t millis count m a b :
  millis ≠ count → counters m !! millis = Some a → counters m !! count = Some b → (t <= now)%Z →
  Collect now (NewCollectors [NewCounterObserveMillisCollect t millis; NewCounterIncCollect count]) m =
  Some (mkMetrics (<[count := (b + 1)%Z]> (<[millis := (a + since_millis now t)%Z]> (counters m))) (histograms m), Ok tt).
Proof.
  intros Hne Ha Hb Ht. simpl. unfold CounterAdd, CounterInc. rewrite Ha.
  assert (since_millis now t <? 0 = false)%Z as ->.
  { apply Z.ltb_ge, Z.quot_pos; lia. }
  simpl. by rewrite lookup_insert_ne, Hb by done.
Qed.

(** * What a counter grows by *)

(** [CounterInc], its error dropped. *)
Definition counted (key : string) (m : Metrics) : Metrics :=
  match CounterInc key m with Some (m', _) => m' | None => m end.

(** From [m] to [m'] each counter that is there grows by [f] of its name. *)
Definition grows (f : string → Z) (m m' : Metrics) : Prop := ∀ k, counters m' !! k = Z.add (f k) <$> counters m !! k.

Definition hits (key k : string) : Z := if decide (k = key) then 1 else 0.

Lemma grows_refl f m : (∀ k, f k = 0%Z) → grows f m m.
Proof. intros Hf k. rewrite Hf. by destruct (_ !! k). Qed.

Lemma grows_ext f g m m' : (∀ k, f k = g k) → grows f m m' → grows g m m'.
Proof. intros E Ha k. by rewrite Ha, E. Qed.

Lemma grows_trans f g m1 m2 m3 : grows f m1 m2 → grows g m2 m3 → grows (λ k, f k + g k)%Z m1 m3.
Proof. intros Hf Hg k. rewrite Hg, Hf. destruct (counters m1 !! k); [|done]. cbn. f_equal. lia. Qed.

Lemma CounterAdd_grows key v m : (0 ≤ v)%Z →
  ∃ m' r, CounterAdd key v m = Some (m', r) ∧ grows (λ k, v * hits key k)%Z m m'.
Proof.
  intros Hv. unfold CounterAdd. destruct (counters m !! key) as [c|] eqn:E.
  - destruct (Z.ltb_spec v 0); [lia|]. eexists _, _. split; [done|]. intros k. cbn. unfold hits.
    destruct (decide (k = key)) as [->|Hne].
    + rewrite lookup_insert_eq, E. cbn. f_equal. lia.
    + rewrite lookup_insert_ne by done. rewrite Z.mul_0_r. by destruct (_ !! k).
  - eexists _, _. split; [done|]. intros k. unfold hits. destruct (decide (k = key)) as [->|].
    + by rewrite E.
    + rewrite Z.mul_0_r. by destruct (_ !! k).
Qed.

Lemma CounterInc_add key m : CounterInc key m = CounterAdd key 1 m.
Proof. done. Qed.

Lemma counted_grows key m : grows (hits key) m (counted key m).
Proof.
  unfold counted. rewrite CounterInc_add. destruct (CounterAdd_grows key 1 m) as (m' & r & -> & Hg); [done|].
  eapply grows_ext; [|exact Hg]. intros k. cbn. lia.
Qed.

(** What a collector adds does not depend on the metrics. *)
Definition collects (now : Z) (c : Collector) (f : string → Z) : Prop :=
  ∀ m, ∃ m' r, Collect now c m = Some (m', r) ∧ grows f m m'.

Lemma collects_ext now c f g : (∀ k, f k = g k) → collects now c f → collects now c g.
Proof. intros E Hc m. destruct (Hc m) as (m' & r & ? & ?). exists m', r. split; [done|]. by eapply grows_ext. Qed.

Lemma collects_inc now b key : collects now (counterIncCollect b key) (λ k, if b then hits key k else 0%Z).
Proof.
  intros m. destruct b; [|eexists m, _; split; [done|by apply grows_refl]]. cbn. rewrite CounterInc_add.
  destruct (CounterAdd_grows key 1 m) as (m' & r & E & Hg); [done|]. exists m', r. split; [done|].
  eapply grows_ext; [|exact Hg]. intros k. cbn. lia.
Qed.

Lemma collects_millis now b t key : (t ≤ now)%Z →
  collects now (counterObserveMillisCollect b t key) (λ k, if b then since_millis now t * hits key k else 0)%Z.
Proof.
  intros Ht m. destruct b; [|eexists m, _; split; [done|by apply grows_refl]].
  apply CounterAdd_grows. unfold since_millis. apply Z.quot_pos; lia.
Qed.

Lemma collects_container now l (f : Collector → string → Z) : Forall (λ c, collects now c (f c)) l →
  collects now (collectorsContainer l) (λ k, foldr (λ c n, f c k + n) 0 l)%Z.
Proof.
  intros Hl m. cbn. generalize (Ok tt : result unit) as err. revert m.
  induction Hl as [|c l Hc _ IH]; intros m err; [eexists m, _; split; [done|by apply grows_refl]|].
  destruct (Hc m) as (m1 & r1 & E1 & Hg1). rewrite E1. destruct r1 as [u|e].
  - destruct (IH m1 err) as (m2 & r2 & E2 & Hg2). exists m2, r2. split; [done|]. by eapply grows_trans.
  - destruct (IH m1 (Err e)) as (m2 & r2 & E2 & Hg2). exists m2, r2. split; [done|]. by eapply grows_trans.
Qed.
