(* ===== verification/Wiring.v ===== *)
(** What the process opens and closes: utils/running_controller.go, the start of the tasks
    of reader_aggregate_processor.go, and the start and the end of the indexer
    (consumers.IndexerFactories of stream/consumers/indexer.go).

    The connections that the process holds are a state: those that are open, and the faults
    that the next ones meet. *)

From S2P Require Import Prelude Stream StreamFacts.

(** * utils/running_controller.go *)
Record running := mkRunning { quitCh_closed : bool }.
Definition NewRunning : running := mkRunning false.
Definition IsStopped (r : running) : bool := quitCh_closed r.

(** [None] : a channel that is closed twice is a panic. *)
Definition Running_Close (r : running) : option running :=
  if quitCh_closed r then None else Some (mkRunning true).

(** * The connections *)
Record Conns := mkConns {
  c_open : gset nat;
  c_next : nat;
  c_faults : list (option error);
}.

(** [sc.Database] and [sc.DatabaseRO]. *)
Definition open_conns : M Conns nat := λ s,
  match c_faults s with
  | Some e :: faults => (mkConns (c_open s) (c_next s) faults, Err e)
  | faults => (mkConns ({[c_next s]} ∪ c_open s) (S (c_next s)) (tail faults), Ok (c_next s))
  end.

Definition close_conns (c : nat) : M Conns unit :=
  modify (λ s, mkConns (c_open s ∖ {[c]}) (c_next s) (c_faults s)).

(** A connection has a number that was given. *)
Definition conns_ok (s : Conns) : Prop := ∀ c, c ∈ c_open s → c < c_next s.

Lemma open_conns_spec s s' r : open_conns s = (s', r) → conns_ok s → conns_ok s' ∧
  match r with
  | Ok c => c_open s' = {[c]} ∪ c_open s ∧ c ∉ c_open s
  | Err _ => c_open s' = c_open s
  end.
Proof.
  intros E Hok. assert (c_next s ∉ c_open s) as Hni by (intros Hin; apply Hok in Hin; lia).
  assert (∀ faults, conns_ok (mkConns ({[c_next s]} ∪ c_open s) (S (c_next s)) faults)) as Hn.
  { intros faults c [->%elem_of_singleton|Hin]%elem_of_union; cbn; [lia|]. apply Hok in Hin. lia. }
  unfold open_conns in E. destruct (c_faults s) as [|[e|] fs]; injection E as <- <-; by split.
Qed.

Lemma close_conns_ok c s : conns_ok s → conns_ok (close_conns c s).1.
Proof. intros Hok x [Hx _]%elem_of_difference. by apply Hok. Qed.

(** Closing them one after the other. *)
Definition close_all : list nat → M Conns unit := λ l, for_each l close_conns.

Lemma close_all_spec l s : ∃ s', close_all l s = (s', Ok tt) ∧ c_open s' = c_open s ∖ list_to_set l ∧ (conns_ok s → conns_ok s').
Proof.
  revert s. induction l as [|c l IH]; intros s; [exists s; split_and!; [done|set_solver|done]|].
  destruct (IH (close_conns c s).1) as (s' & E & Ho & Hok). exists s'. split_and!; [exact E| |].
  - rewrite Ho. cbn. set_solver.
  - intros Hs. by apply Hok, close_conns_ok.
Qed.

(** ** Who holds a connection *)

(** One more connection than those of [X]. *)
Lemma add_held (X base o o1 : gset nat) c : o = X ∪ base → o1 = {[c]} ∪ o → c ∉ o → X ## base →
  o1 = (X ∪ {[c]}) ∪ base ∧ c ∉ X ∧ X ∪ {[c]} ## base.
Proof. intros -> -> Hc Hd. split_and!; set_solver. Qed.

Lemma close_held l1 c l2 (base o : gset nat) : NoDup (l1 ++ c :: l2) → list_to_set (l1 ++ c :: l2) ## base →
o = list_to_set (l1 ++ c :: l2) ∪ base →
NoDup (l1 ++ l2) ∧ list_to_set (C:=gset nat) (l1 ++ l2) ## base ∧ o ∖ {[c]} = list_to_set (l1 ++ l2) ∪ base.
Proof.
rewrite <-Permutation_middle at 1. intros [Hc Hnd]%NoDup_cons.
assert (list_to_set (C:=gset nat) (l1 ++ c :: l2) = {[c]} ∪ list_to_set (l1 ++ l2)) as ->.
{ by rewrite <-Permutation_middle. }
assert (c ∉ list_to_set (C:=gset nat) (l1 ++ l2)) as HcX by (by rewrite elem_of_list_to_set).
clear Hc. revert HcX. generalize (list_to_set (C:=gset nat) (l1 ++ l2)). intros X HcX Hd ->.
split_and!; [done|set_solver|set_solver].
Qed.

(** The connections that are open are those of the list [l], and those of [base]. *)
Definition owns (base : gset nat) (l : list nat) (cs : Conns) : Prop :=
  NoDup l ∧ list_to_set l ## base ∧ c_open cs = list_to_set l ∪ base.

Lemma owns_none base cs : owns base [] cs ↔ c_open cs = base.
Proof.
  unfold owns. cbn. rewrite (left_id_L ∅ (∪)). split; [by intros (_ & _ & ?)|]. intros ->. split_and!; [constructor|set_solver|done].
Qed.

Lemma owns_perm base l l' cs : l ≡ₚ l' → owns base l cs → owns base l' cs.
Proof. unfold owns. by intros <-. Qed.

Lemma owns_open base l cs cs' c : open_conns cs = (cs', Ok c) → conns_ok cs → owns base l cs → owns base (c :: l) cs' ∧ conns_ok cs'.
Proof.
  intros E Hok (Hnd & Hd & Ho). destruct (open_conns_spec _ _ _ E Hok) as (Hok' & Ho' & Hni).
  destruct (add_held _ _ _ _ _ Ho Ho' Hni Hd) as (Ho2 & Hc & Hd2). rewrite (union_comm_L _ {[c]}) in Ho2, Hd2.
  rewrite elem_of_list_to_set in Hc. split; [|done]. split_and!; [by constructor|done|done].
Qed.

Lemma owns_failed base l cs cs' e : open_conns cs = (cs', Err e) → conns_ok cs → owns base l cs → owns base l cs' ∧ conns_ok cs'.
Proof.
  intros E Hok (Hnd & Hd & Ho). destruct (open_conns_spec _ _ _ E Hok) as (Hok' & Ho').
  split; [|done]. split_and!; [done|done|]. by rewrite Ho'.
Qed.

Lemma owns_close base l1 c l2 cs : conns_ok cs → owns base (l1 ++ c :: l2) cs →
  owns base (l1 ++ l2) (close_conns c cs).1 ∧ conns_ok (close_conns c cs).1.
Proof. intros Hok (Hnd & Hd & Ho). split; [by apply close_held|by apply close_conns_ok]. Qed.

(** * The tasks of the reader (aggregateProcessor) *)
Inductive Task := TxAscFetch | AssetAggr | Aggr1m | Aggr1h | Aggr24h | Aggr7d | Aggr30d.

(** In the order their connections are opened and their goroutines started. *)
Definition tasks : list Task := [TxAscFetch; AssetAggr; Aggr1m; Aggr1h; Aggr24h; Aggr7d; Aggr30d].

(** A failure closes those that are open ([closeDBForError]). *)
Fixpoint open_tasks (todo : list Task) (opened : list (Task * nat)) : M Conns (list (Task * nat)) :=
  match todo with
  | [] => mret opened
  | t :: todo' =>
      r ← attempt open_conns;
      match r with
      | Err e => _ ← close_all (map snd opened); throw e
      | Ok c => open_tasks todo' (opened ++ [(t, c)])
      end
  end.

(** The tasks that run, each with its connection. *)
Definition aggregateProcessor (IsAggregateCache : bool) : M Conns (list (Task * nat)) :=
  if negb IsAggregateCache then mret [] else open_tasks tasks [].

Lemma open_tasks_spec base todo opened s : conns_ok s →
  c_open s = list_to_set (map snd opened) ∪ base → NoDup (map snd opened) → list_to_set (map snd opened) ## base →
  match open_tasks todo opened s with
  | (s', Err _) => c_open s' = base
  | (s', Ok l) => map fst l = map fst opened ++ todo ∧ NoDup (map snd l) ∧ list_to_set (map snd l) ## base ∧
      c_open s' = list_to_set (map snd l) ∪ base
  end.
Proof.
  revert opened s. induction todo as [|t todo IH]; intros opened s Hok Ho Hnd Hd.
  { cbn. by rewrite app_nil_r. }
  cbn [open_tasks]. rewrite bind_run. unfold attempt at 1. destruct (open_conns s) as [s1 r] eqn:E.
  destruct (open_conns_spec _ _ _ E Hok) as [Hok1 Hs1]. destruct r as [c|e].
  - destruct Hs1 as [Ho1 Hni]. specialize (IH (opened ++ [(t, c)]) s1). rewrite !map_app, list_to_set_app_L in IH.
    cbn in IH. rewrite <-app_assoc, (right_id_L ∅ (∪) {[c]}) in IH.
    destruct (add_held _ _ _ _ _ Ho Ho1 Hni Hd) as (Ho' & Hc & Hd'). apply IH; try done.
    apply NoDup_app. split_and!; [done| |apply NoDup_singleton]. intros x Hx ->%list_elem_of_singleton.
    by apply Hc, elem_of_list_to_set.
  - rewrite bind_run. destruct (close_all_spec (map snd opened) s1) as (s2 & E2 & Ho2 & _). rewrite E2.
    cbn. rewrite Ho2, Hs1, Ho. clear -Hd. set_solver.
Qed.

(** The start of the tasks gives each its own connection, or fails and leaves none open. *)
Theorem tasks_connected IsAggregateCache s : conns_ok s →
  match aggregateProcessor IsAggregateCache s with
  | (s', Err _) => c_open s' = c_open s
  | (s', Ok l) => map fst l = (if IsAggregateCache then tasks else []) ∧ NoDup (map snd l) ∧
      list_to_set (map snd l) ## c_open s ∧ c_open s' = list_to_set (map snd l) ∪ c_open s
  end.
Proof.
  intros Hok. unfold aggregateProcessor. destruct IsAggregateCache.
  - apply (open_tasks_spec (c_open s) tasks [] s Hok); [set_solver|constructor|set_solver].
  - cbn. split_and!; [done|constructor|set_solver|set_solver].
Qed.

(** The third connection fails: the first two are closed again. *)
Example third_fails : (λ s, (elements (c_open s.1), s.2)) (aggregateProcessor true (mkConns {[7]} 8 [None; None; Some "refused"])) =
  ([7], Err "refused").
Proof. vm_compute. reflexivity. Qed.

(** * The indexer (IndexerFactories) *)
Definition MaxTheads : nat := 10.

Section indexer.
Context {D : Type}.

(** A factory makes a processor and its topics, or fails; they are called in turn. *)
Definition Factory : Type := result (ProcessorDB (D:=D) * list string).

Fixpoint start_factories (factories : list Factory) (st : gmap string (ProcessorDB (D:=D)) * list string)
: result (gmap string (ProcessorDB (D:=D)) * list string) :=
match factories with
| [] => Ok st
| factory :: rest =>
    f ← factory;
    st ← register_topics f.1 f.2 st;
    start_factories rest st
end.

(** The goroutines of the indexer: the workers ([handleTxPool]) and the loop of the
  iterator, each with its connection, and the channel that ends the workers. *)
Record indexer := mkIndexer {
ix_conns : Conns;
ix_fsm : gmap string (ProcessorDB (D:=D));
ix_topicNames : list string;
ix_workers : list nat;
ix_loop : option nat;
ix_doneCh : bool;                (* closed *)
}.

(** The loop that starts the workers; a failure closes [conns] and the channel. *)
Fixpoint start_workers (n : nat) (conns : nat) (s : indexer) : indexer * result unit :=
match n with
| O => (mkIndexer (ix_conns s) (ix_fsm s) (ix_topicNames s) (ix_workers s) (Some conns) (ix_doneCh s), Ok tt)
| S n' =>
    match open_conns (ix_conns s) with
    | (cs, Err e) =>
        (mkIndexer (close_conns conns cs).1 (ix_fsm s) (ix_topicNames s) (ix_workers s) None true, Err e)
    | (cs, Ok conns1) =>
        start_workers n' conns
          (mkIndexer cs (ix_fsm s) (ix_topicNames s) (ix_workers s ++ [conns1]) (ix_loop s) (ix_doneCh s))
    end
end.

Definition IndexerFactories (factories : list Factory) (cs : Conns) : indexer * result unit :=
match start_factories factories (∅, []) with
| Err e => (mkIndexer cs ∅ [] [] None false, Err e)
| Ok (fsm, topicNames) =>
    match open_conns cs with
    | (cs, Err e) => (mkIndexer cs fsm topicNames [] None false, Err e)
    | (cs, Ok conns) => start_workers MaxTheads conns (mkIndexer cs fsm topicNames [] None false)
    end
end.

(** A goroutine returns: a worker when the channel is closed, the loop when it is stopped;
  the loop closes the channel.  Each closes its connection. *)
Inductive returns : indexer → indexer → Prop :=
| worker_returns cs fsm names l1 c l2 loop :
  returns (mkIndexer cs fsm names (l1 ++ c :: l2) loop true)
          (mkIndexer (close_conns c cs).1 fsm names (l1 ++ l2) loop true)
| loop_returns cs fsm names l c done_ :
  returns (mkIndexer cs fsm names l (Some c) done_)
          (mkIndexer (close_conns c cs).1 fsm names l None true).

(** ** The connections of the indexer *)
Definition held (s : indexer) : list nat := ix_workers s ++ option_list (ix_loop s).

(** The connections that are open are those of the goroutines, and those of before. *)
Definition holds (base : gset nat) (s : indexer) : Prop := owns base (held s) (ix_conns s).

Lemma returns_holds base s s' : returns s s' → holds base s → holds base s'.
Proof.
intros Hr (Hnd & Hd & Ho). destruct Hr as [cs fsm names l1 c l2 loop|cs fsm names l c done_];
  unfold holds, owns, held in *; cbn in *.
- rewrite <-app_assoc in *. cbn in *. by apply close_held.
- rewrite app_nil_r. rewrite <-(app_nil_r l). by apply close_held.
Qed.

Lemma start_factories_registered factories st st' : start_factories factories st = Ok st' → registered st → registered st'.
Proof.
revert st. induction factories as [|[f|e] rest IH]; intros st E Hst; cbn in E; [by injection E as <-| |done].
pose proof (register_topics_spec f.1 f.2 st Hst) as Hs. destruct (register_topics f.1 f.2 st) as [st1|]; [|done].
by eapply IH, Hs.
Qed.

(** The workers can end: the loop is still there to close the channel, or it is closed. *)
Definition ending (s : indexer) : Prop := ix_loop s = None → ix_workers s ≠ [] → ix_doneCh s = true.

Lemma returns_ending s s' : returns s s' → ending s → ending s'.
Proof. by intros [] ?. Qed.

Lemma returns_fewer s s' : returns s s' → length (held s') < length (held s).
Proof. intros []; unfold held; cbn; rewrite !length_app; cbn; lia. Qed.

Lemma returns_progress s : ending s → held s ≠ [] → ∃ s', returns s s'.
Proof.
destruct s as [cs fsm names l [c|] d]; unfold ending, held; cbn; intros He Hne.
- eexists. apply loop_returns.
- destruct l as [|c l]; [done|]. rewrite He by done. eexists. apply (worker_returns _ _ _ []).
Qed.

(** All the goroutines return, in the end. *)
Lemma returns_all s : ending s → ∃ s', rtc returns s s' ∧ held s' = [].
Proof.
remember (length (held s)) as n eqn:En. revert s En. induction n as [n IH] using lt_wf_ind. intros s -> He.
destruct (decide (held s = [])) as [E|E]; [by exists s|].
destruct (returns_progress _ He E) as [s1 Hr]. pose proof (returns_fewer _ _ Hr).
edestruct IH as (s' & Hr' & E'); [done|done|by eapply returns_ending|]. exists s'. split; [by eapply rtc_l|done].
Qed.

(** A worker is started with a connection of its own, besides that of the loop. *)
Lemma start_workers_holds base n conns s :
conns_ok (ix_conns s) → holds base (mkIndexer (ix_conns s) (ix_fsm s) (ix_topicNames s) (ix_workers s) (Some conns) (ix_doneCh s)) →
match start_workers n conns s with
| (s', r) => holds base s' ∧ ending s' ∧ ix_fsm s' = ix_fsm s ∧ ix_topicNames s' = ix_topicNames s ∧
    (r = Ok tt → length (ix_workers s') = n + length (ix_workers s) ∧ ix_doneCh s' = ix_doneCh s)
end.
Proof.
revert s. induction n as [|n IH]; intros s Hok Hs; cbn [start_workers]; [by split_and!|].
destruct (open_conns (ix_conns s)) as [cs r] eqn:E. destruct (open_conns_spec _ _ _ E Hok) as [Hok' Ho].
destruct Hs as (Hnd & Hd & Hopen). unfold held in *. cbn in *. destruct r as [c|e].
- destruct Ho as [Ho Hc]. rewrite Hopen in Hc. specialize (IH (mkIndexer cs (ix_fsm s) (ix_topicNames s)
    (ix_workers s ++ [c]) (ix_loop s) (ix_doneCh s)) Hok').
  destruct (add_held _ _ _ _ _ Hopen Ho) as (Ho' & Hni & Hd'); [by rewrite Hopen|done|].
  assert (ix_workers s ++ [c; conns] ≡ₚ c :: ix_workers s ++ [conns]) as Hp by (by rewrite <-Permutation_middle).
  unfold holds, owns, held in IH. cbn in IH. rewrite <-app_assoc in IH. cbn in IH. rewrite Hp in IH. cbn in IH.
  rewrite (union_comm_L _ {[c]}) in Ho', Hd'. rewrite elem_of_list_to_set in Hni.
  destruct (start_workers n conns _) as [s' r]. destruct IH as (Hh & He & Hf & Ht & Hr).
  { split_and!; [by constructor|done|done]. }
  split_and!; try done. intros Er. destruct (Hr Er) as [Hl ?]. split; [|done]. rewrite Hl, length_app. cbn. lia.
- split_and!; try done. unfold holds, owns, held. cbn.
  apply close_held; [done..|]. by rewrite Ho.
Qed.

(** C37. The indexer and its connections.  Started, it has ten workers, each with a connection,
  and its topics are those of its processors, each with one.  However it ends — a
  processor that is not made, a topic that two claim, a connection that is refused, or the
  end of its loop — its goroutines all return, and the connections that are left are
  those of before. *)
Theorem indexer_connections factories cs : conns_ok cs →
let '(s, r) := IndexerFactories factories cs in
(r = Ok tt → length (ix_workers s) = MaxTheads ∧ ix_doneCh s = false ∧ NoDup (ix_topicNames s) ∧
   ∀ t, t ∈ ix_topicNames s ↔ is_Some (ix_fsm s !! t)) ∧
(∃ s', rtc returns s s' ∧ held s' = []) ∧
∀ s', rtc returns s s' → c_open (ix_conns s') = list_to_set (held s') ∪ c_open cs.
Proof.
intros Hok. assert (∀ s, holds (c_open cs) s → ending s → (∃ s', rtc returns s s' ∧ held s' = []) ∧
  ∀ s', rtc returns s s' → c_open (ix_conns s') = list_to_set (held s') ∪ c_open cs) as Hend.
{ intros s Hh He. split; [by apply returns_all|]. intros s' Hr. cut (holds (c_open cs) s'); [by intros (_ & _ & ?)|].
  clear He. induction Hr as [|s s1 s' Hs _ IH]; [done|]. by eapply IH, returns_holds. }
assert (∀ cs' fsm names, c_open cs' = c_open cs → holds (c_open cs) (mkIndexer cs' fsm names [] None false)) as Hno.
{ intros cs' fsm names Ho. split_and!; [constructor|set_solver|]. cbn. by rewrite Ho, (left_id_L ∅ (∪)). }
unfold IndexerFactories. destruct (start_factories factories (∅, [])) as [[fsm names]|e] eqn:Ef.
2: { split; [done|]. apply Hend; [by apply Hno|by intros _ ?]. }
destruct (open_conns cs) as [cs1 [conns|e]] eqn:E; destruct (open_conns_spec _ _ _ E Hok) as [Hok1 Ho].
2: { split; [done|]. apply Hend; [by apply Hno|by intros _ ?]. }
destruct Ho as [Ho Hc]. pose proof (start_workers_holds (c_open cs) MaxTheads conns (mkIndexer cs1 fsm names [] None false) Hok1) as Hs.
destruct (start_workers _ _ _) as [s r]. destruct Hs as (Hh & He & Hf & Ht & Hr).
{ split_and!; cbn; [by apply NoDup_singleton|set_solver|]. by rewrite (right_id_L ∅ (∪)). }
split; [|by apply Hend]. intros Er. destruct (Hr Er) as [Hl Hd]. rewrite Hf, Ht. cbn in *.
destruct (start_factories_registered _ _ _ Ef) as [Hnd Hdom]; [apply registered_empty|].
split_and!; [by rewrite Hl|done|done|exact Hdom].
Qed.
End indexer.

(** * An indexer with two processors *)
Module WiringSample.
Definition processor : ProcessorDB (D:=nat) := λ _ d, Some (d, Ok tt).
Abbreviation factories := [Ok (processor, ["a"]); Ok (processor, ["b"; "c"])].

(** The fourth connection is refused: two workers were started. *)
Abbreviation refused := (IndexerFactories factories (mkConns {[5]} 6 [None; None; None; Some "refused"])).
Example two_started : (ix_workers refused.1, ix_doneCh refused.1, elements (c_open (ix_conns refused.1)), refused.2) =
([7; 8], true, [8; 5; 7], Err "refused").
Proof. vm_compute. reflexivity. Qed.

Example topic_twice : (IndexerFactories [Ok (processor, ["a"]); Ok (processor, ["a"])] (mkConns ∅ 0 [])).2 =
Err "duplicate topic a".
Proof. vm_compute. reflexivity. Qed.
End WiringSample.
Import WiringSample.

Lemma indexer_connections_witness :
  refused.2 = Err "refused" ∧ ∃ s', rtc returns refused.1 s' ∧ held s' = [].
Proof.
  split; [vm_compute; reflexivity|].
  assert (conns_ok (mkConns {[5]} 6 [None; None; None; Some "refused"])) as Hok.
  { intros c Hc. change (c ∈ ({[5]} : gset nat)) in Hc. apply elem_of_singleton in Hc. subst c. cbn. lia. }
  exact (proj1 (proj2 (indexer_connections factories _ Hok))).
Defined.
