(* ===== verification/Connections.v ===== *)
(** utils/db.go, utils/connections.go, utils/dbutils.go, utils/eventrcvr.go, and the databases
    of servicesctrl/services_control.go: how a connection to the database is made, what it is
    left with, and what is closed when it is not made.

    The driver of MySQL and [database/sql] are third-party. *)

From S2P Require Import Prelude Errors Utils Config Wiring.

Class SqlDriver := {
  mysql_Config : Type;
  mysql_ParseDSN : string → result mysql_Config;
  mysql_Params : mysql_Config → gmap string string;
  mysql_with_Params : gmap string string → mysql_Config → mysql_Config;
  mysql_FormatDSN : mysql_Config → string;
  sql_DB : Type;
  sql_Open : string → string → result sql_DB;
  sql_Ping : sql_DB → result unit;
  sql_Exec : sql_DB → string → result unit;
  sql_Close : sql_DB → result unit;
}.

Section connections.
Context `{!SqlDriver}.

Definition DriverMysql : string := "mysql".
Definition DriverNone : string := "".

(** A database that is open, with the limits that were set. *)
Record opened := mkOpened {
op_DB : sql_DB;
op_MaxOpenConns : option Z;
op_MaxIdleConns : option Z;
op_ConnMaxIdleTime : option Z;
op_ConnMaxLifetime : option Z;
}.

(** Those of the process, each under a number. *)
Record databases := mkDatabases { d_open : gmap nat opened; d_next : nat }.

(** * utils/dbutils.go *)
Definition ForceParseTimeParam (dsn : string) : result string :=
u ← mysql_ParseDSN dsn;
Ok (mysql_FormatDSN (mysql_with_Params (<["parseTime" := "true"]> (mysql_Params u)) u)).

(** * utils/db.go *)
Definition open_sql (driver dsn : string) : M databases nat := λ d,
match sql_Open driver dsn with
| Err e => (d, Err e)
| Ok db => (mkDatabases (<[d_next d := mkOpened db None None None None]> (d_open d)) (S (d_next d)), Ok (d_next d))
end.
Definition close_sql (c : nat) : M databases unit := λ d,
match d_open d !! c with
| Some o => (mkDatabases (delete c (d_open d)) (d_next d), sql_Close (op_DB o))
| None => (d, Ok tt)
end.
Definition on_sql {A} (c : nat) (f : sql_DB → result A) : M databases A := λ d,
match d_open d !! c with Some o => (d, f (op_DB o)) | None => (d, Err "sql: database is closed") end.

(** The name of the database, with the parameter that MySQL needs; the new database is closed
when it does not answer. *)
Definition conn_dsn (conf : DB) (ro : bool) : result string :=
let dsn := if ro then DB_RODSN conf else DB_DSN conf in
if decide (DB_Driver conf = DriverMysql) then ForceParseTimeParam dsn else Ok dsn.

Definition newDBRConnection (conf : DB) (ro : bool) : M databases nat :=
dsn ← lift_result (conn_dsn conf ro);
rawDBConn ← open_sql (DB_Driver conf) dsn;
r ← attempt (on_sql rawDBConn sql_Ping);
match r with
| Err e => _ ← attempt (close_sql rawDBConn); throw e
| Ok _ => mret rawDBConn
end.

Definition New : DB → bool → M databases nat := newDBRConnection.
Definition Conn_Close : nat → M databases unit := close_sql.

(** A session has the limit of time of its statements. *)
Definition NewSession (c : nat) (timeout : Z) : M databases unit :=
on_sql c (λ db, sql_Exec db ("SET SESSION MAX_EXECUTION_TIME=" +:+ Z_to_string (Z.quot timeout 1000000))).

Definition set_limit (f : opened → opened) (c : nat) : M databases unit :=
modify (λ d, mkDatabases (alter f c (d_open d)) (d_next d)).
Definition SetMaxOpenConns (n : Z) : nat → M databases unit :=
set_limit (λ o, mkOpened (op_DB o) (Some n) (op_MaxIdleConns o) (op_ConnMaxIdleTime o) (op_ConnMaxLifetime o)).
Definition SetMaxIdleConns (n : Z) : nat → M databases unit :=
set_limit (λ o, mkOpened (op_DB o) (op_MaxOpenConns o) (Some n) (op_ConnMaxIdleTime o) (op_ConnMaxLifetime o)).
Definition SetConnMaxIdleTime (t : Z) : nat → M databases unit :=
set_limit (λ o, mkOpened (op_DB o) (op_MaxOpenConns o) (op_MaxIdleConns o) (Some t) (op_ConnMaxLifetime o)).
Definition SetConnMaxLifetime (t : Z) : nat → M databases unit :=
set_limit (λ o, mkOpened (op_DB o) (op_MaxOpenConns o) (op_MaxIdleConns o) (op_ConnMaxIdleTime o) (Some t)).

(** * utils/connections.go

    [None] : without a database, the test reads the driver of nothing and panics. *)
Definition NewDBFromConfig (conf : Services) (ro : bool) (d : databases) : option (databases * result nat) :=
match Services_DB conf with
| Some db => Some (New db ro d)
| None => None
end.

Definition Connections_Close (c : nat) : M databases unit := Conn_Close c.

(** * services_control.go *)
Definition control_limits (c : nat) : M databases nat :=
_ ← SetMaxIdleConns 32 c;
_ ← SetConnMaxIdleTime (10 * 10 ^ 9) c;
mret c.

Definition Control_db (ro : bool) (conf : Services) (d : databases) : option (databases * result nat) :=
match NewDBFromConfig conf ro d with
| Some (d, Ok c) => Some (control_limits c d)
| r => r
end.
Definition Database : Services → databases → option (databases * result nat) := Control_db false.
Definition DatabaseRO : Services → databases → option (databases * result nat) := Control_db true.

(** * Facts *)
Definition numbered (d : databases) : Prop := ∀ c, is_Some (d_open d !! c) → c < d_next d.

Lemma newDBRConnection_spec conf ro d d' r : numbered d → newDBRConnection conf ro d = (d', r) →
numbered d' ∧
match r with
| Ok c => ∃ dsn db, conn_dsn conf ro = Ok dsn ∧ sql_Open (DB_Driver conf) dsn = Ok db ∧ sql_Ping db = Ok tt ∧
    c = d_next d ∧ d_open d !! c = None ∧ d_open d' = <[c := mkOpened db None None None None]> (d_open d)
| Err _ => d_open d' = d_open d
end.
Proof.
intros Hn E. unfold newDBRConnection in E. rewrite bind_run in E. destruct (conn_dsn conf ro) as [dsn|e]; cbn in E; [|by injection E as <- <-].
rewrite bind_run in E. unfold open_sql in E. destruct (sql_Open (DB_Driver conf) dsn) as [db|e] eqn:Eo; [|by injection E as <- <-].
assert (d_open d !! d_next d = None) as Hnew.
{ destruct (d_open d !! d_next d) eqn:En; [|done]. exfalso. assert (d_next d < d_next d); [|lia]. apply Hn. by rewrite En. }
rewrite bind_run in E. unfold attempt at 1, on_sql in E. cbn [d_open d_next] in E. rewrite lookup_insert_eq in E. cbn in E.
destruct (sql_Ping db) as [[]|e] eqn:Ep; cbn in E.
- injection E as <- <-. split.
  + intros c Hc. cbn in *. apply lookup_insert_is_Some in Hc as [<-|[_ Hc]]; [lia|]. apply Hn in Hc. lia.
  + exists dsn, db. by split_and!.
- unfold close_sql in E. rewrite bind_run in E. unfold attempt in E. cbn [d_open d_next] in E. rewrite lookup_insert_eq in E.
  cbn in E. injection E as <- <-. cbn. rewrite delete_insert_id by done. split; [|done].
  intros c Hc. cbn in *. apply Hn in Hc. lia.
Qed.

(** A database of the process: it has answered, under the name of the configuration, with the
parameter of MySQL; at most 32 of its connections stay idle, ten seconds each.  One that is
not made leaves nothing open.  The process of Wiring.v sees the same: [open_conns] gives the
number of the new one, or the error. *)
Theorem database_made ro conf d d' r : numbered d → Control_db ro conf d = Some (d', r) →
numbered d' ∧
match r with
| Ok c => ∃ cdb dsn db, Services_DB conf = Some cdb ∧ conn_dsn cdb ro = Ok dsn ∧ sql_Open (DB_Driver cdb) dsn = Ok db ∧
    sql_Ping db = Ok tt ∧ d_open d !! c = None ∧
    d_open d' = <[c := mkOpened db None (Some 32) (Some (10 * 10 ^ 9)) None]> (d_open d)
| Err _ => d_open d' = d_open d
end%Z ∧
∃ cs, open_conns (mkConns (dom (d_open d)) (d_next d) [match r with Ok _ => None | Err e => Some e end]) = (cs, r) ∧
  c_open cs = dom (d_open d').
Proof.
intros Hn E. unfold Control_db, NewDBFromConfig, New in E. destruct (Services_DB conf) as [cdb|]; [|done].
destruct (newDBRConnection cdb ro d) as [d1 r1] eqn:E1. destruct (newDBRConnection_spec _ _ _ _ _ Hn E1) as [Hn1 Hr].
destruct r1 as [c|e].
- destruct Hr as (dsn & db & H1 & H2 & H3 & -> & Hf & Ho). unfold control_limits in E. cbn in E. injection E as <- <-.
  cbn. rewrite Ho, !alter_insert_eq. split.
  { intros c Hc. cbn in *. apply Hn1. rewrite Ho. apply lookup_insert_is_Some. by apply lookup_insert_is_Some in Hc. }
  split; [exists cdb, dsn, db; by split_and!|]. eexists. split; [done|]. cbn. by rewrite dom_insert_L.
- injection E as <- <-. split; [done|]. split; [done|]. eexists. split; [done|]. cbn. by rewrite Hr.
Qed.

(** [Connections.Close] gives back the number. *)
Lemma connections_closed c d : dom (d_open (Connections_Close c d).1) = dom (d_open d) ∖ {[c]}.
Proof.
unfold Connections_Close, Conn_Close, close_sql. destruct (d_open d !! c) as [o|] eqn:E; cbn; [by rewrite dom_delete_L|].
apply not_elem_of_dom in E. set_solver.
Qed.

(** The name that a driver of MySQL is given asks for the times to be parsed. *)
Lemma mysql_parses_times conf ro dsn : DB_Driver conf = DriverMysql → conn_dsn conf ro = Ok dsn →
∃ u, mysql_ParseDSN (if ro then DB_RODSN conf else DB_DSN conf) = Ok u ∧
  dsn = mysql_FormatDSN (mysql_with_Params (<["parseTime" := "true"]> (mysql_Params u)) u).
Proof.
intros Hd E. unfold conn_dsn in E. rewrite decide_True in E by done. unfold ForceParseTimeParam in E.
destruct (mysql_ParseDSN _) as [u|e]; [|done]. injection E as <-. by exists u.
Qed.
End connections.

(** * utils/eventrcvr.go

    The receiver of the events of a session keeps the name of the last one; an error that the
    callers do not test for is logged, and told with both names. *)
Record event := mkEvent { ev_name : string; ev_eventName : string; ev_logged : list string }.

Definition NewJob (s : string) : event := mkEvent s "" [].
Definition Event (eventName : string) (e : event) : event := mkEvent (ev_name e) eventName (ev_logged e).

Definition EventErr_event (Propagate : error → string → error) (eventName : string) (err : error) (e : event) : event * error :=
  if ErrIsDuplicateEntryError err || ErrIsLockError err then (e, err)
  else
    let e := Event eventName e in
    (mkEvent (ev_name e) (ev_eventName e)
       (ev_logged e ++ ["event " +:+ ev_name e +:+ " " +:+ ev_eventName e +:+ " " +:+ err]),
     event_EventErr Propagate (ev_name e) (ev_eventName e) err).

(** What reaches the caller is the error of Errors.v, whatever came before. *)
Lemma EventErr_told Propagate eventName err e : (EventErr_event Propagate eventName err e).2 = event_EventErr Propagate (ev_name e) eventName err.
Proof. unfold EventErr_event, event_EventErr. by destruct (ErrIsDuplicateEntryError err || ErrIsLockError err) eqn:E; cbn; rewrite ?E. Qed.

(** * A database that does not answer *)
Module ConnSample.
#[export] Instance driver : SqlDriver := {
  mysql_Config := string; mysql_ParseDSN := Ok; mysql_Params _ := ∅;
  mysql_with_Params m u := u +:+ "?parseTime=" +:+ default "" (m !! "parseTime"); mysql_FormatDSN u := u;
  sql_DB := string; sql_Open d dsn := Ok (d +:+ "://" +:+ dsn);
  sql_Ping db := if bool_decide (db = "mysql://ro?parseTime=true") then Err "connection refused" else Ok tt;
  sql_Exec _ _ := Ok tt; sql_Close _ := Ok tt;
}.
Definition conf : Services := mkServices "" "" (Some (mkDB "rw" "ro" "mysql")).
Definition d0 : databases := mkDatabases ∅ 0.

Example made : (λ x, (op_DB <$> (d_open x.1 !! 0), x.2)) <$> Database conf d0 = Some (Some "mysql://rw?parseTime=true", Ok 0).
Proof. vm_compute. reflexivity. Qed.
Example not_made : (λ x, (size (d_open x.1), x.2)) <$> DatabaseRO conf d0 = Some (0, Err "connection refused").
Proof. vm_compute. reflexivity. Qed.
End ConnSample.
