(* ===== verification/Manager.v ===== *)
(** balance/balance_manager.go: the life of the manager.  [Start] gives each of its seven
    goroutines a connection; the ticker wakes on its own, the six others when [Exec] has put
    an event in their channel; [Close] ends them all.

    What a goroutine does with an event, [runEvent], is in Balance.v; here it is two steps,
    its start and its end, so that anything can happen in between. *)

From S2P Require Import Prelude Errors Sql Axia DbModel Balance Stream Wiring.

(** * The goroutines *)
Inductive Job := Ticker | Out (ipos : nat) | In (ipos : nat) | Txs (ipos : nat).
#[global] Instance Job_eq_dec : EqDecision Job.
Proof. solve_decision. Defined.

(** What a goroutine does with an event: [runEvent], with its pass. *)
Section job_event.
Context `{SqlEngine D} `{!SqlClock D} `{!AxiaIds}.
Context (shuffle : list OutputAddressAccumulate → list OutputAddressAccumulate).
Context (shuffleTxs : list OutputTxsAccumulate → list OutputTxsAccumulate).

Definition job_pass (fuel : nat) (j : Job) : D → option (D * result nat) :=
match j with
| Ticker => processOutputs shuffle fuel false processTypeIn
| Out _ => processOutputs shuffle fuel true processTypeOut
| In _ => processOutputs shuffle fuel true processTypeIn
| Txs _ => processTransactions shuffleTxs fuel
end.

Definition job_event (turns fuel : nat) (j : Job) (d : D) : option (D * result unit) :=
runEvent turns (job_pass fuel j) 0 d.
End job_event.

(** The channel that triggers a goroutine: the one of the outputs is [ins], the one of the
    inputs is [outs]. *)
Definition trigger (j : Job) (l : list managerChannels) : nat :=
  match j with
  | Ticker => 0
  | Out i => from_option ch_ins 0 (l !! i)
  | In i => from_option ch_outs 0 (l !! i)
  | Txs i => from_option ch_txs 0 (l !! i)
  end.

(** [case <-trigger] *)
Definition receive (j : Job) (l : list managerChannels) : list managerChannels :=
  match j with
  | Ticker => l
  | Out i => alter (λ c, mkManagerChannels (pred (ch_ins c)) (ch_outs c) (ch_txs c)) i l
  | In i => alter (λ c, mkManagerChannels (ch_ins c) (pred (ch_outs c)) (ch_txs c)) i l
  | Txs i => alter (λ c, mkManagerChannels (ch_ins c) (ch_outs c) (pred (ch_txs c))) i l
  end.

Inductive go_state := Waiting | Running | Ended.
#[global] Instance go_state_eq_dec : EqDecision go_state.
Proof. solve_decision. Defined.

Record goroutine := mkGoroutine { g_job : Job; g_conns : nat; g_state : go_state }.

Record managed := mkManaged {
  m_manager : Manager;
  m_doneCh : bool;                  (* closed *)
  m_conns : Conns;
  m_gos : list goroutine;
}.

(** [NewManager] : no goroutine yet. *)
Definition unstarted (cs : Conns) : managed := mkManaged NewManager false cs [].

(** * [Start] *)
Definition on_manager (f : Manager → Manager) : M managed unit :=
  modify (λ s, mkManaged (f (m_manager s)) (m_doneCh s) (m_conns s) (m_gos s)).

(** [conns, err := a.sc.Database()] *)
Definition Database : M managed nat := λ s,
  let '(cs, r) := open_conns (m_conns s) in (mkManaged (m_manager s) (m_doneCh s) cs (m_gos s), r).

(** [go func() { ... }()] *)
Definition go (j : Job) (conns : nat) : M managed unit :=
  modify (λ s, mkManaged (m_manager s) (m_doneCh s) (m_conns s) (m_gos s ++ [mkGoroutine j conns Waiting])).

Definition runTicker (conns : nat) : M managed unit := go Ticker conns.
Definition runProcessing (j : Job) (conns : nat) : M managed unit := go j conns.

Definition processingFunc (ipos : nat) : M managed unit :=
  connsOuts ← Database;
  _ ← runProcessing (Out ipos) connsOuts;
  connsIns ← Database;
  _ ← runProcessing (In ipos) connsIns;
  connsTxs ← Database;
  runProcessing (Txs ipos) connsTxs.

Definition append_channels (a : Manager) : Manager :=
  mkManager (enabled a) (managerChannelsList a ++ [newManagerChannels]).

Definition Start (en : bool) : M managed unit :=
  _ ← on_manager (λ a, mkManager en (managerChannelsList a));
  if negb en then mret tt
  else
    connsTicker ← Database;
    _ ← runTicker connsTicker;
    for_each (seq 0 2) (λ ipos,
      _ ← on_manager append_channels;
      processingFunc ipos).

(** * What happens then *)
Inductive action :=
| Exec                      (* the manager is told that there is work *)
| Close
| Wake (i : nat)            (* goroutine [i] takes an event, or the tick *)
| Ran (i : nat)             (* its [runEvent] ends *)
| Leave (i : nat).          (* it sees that [doneCh] is closed *)

Definition set_state (st : go_state) (g : goroutine) : goroutine := mkGoroutine (g_job g) (g_conns g) st.

(** [None] : the action cannot happen. *)
Definition act (a : action) (s : managed) : option managed :=
  match a with
  | Exec => Some (mkManaged (Manager_Exec (m_manager s)) (m_doneCh s) (m_conns s) (m_gos s))
  | Close => if m_doneCh s then None else Some (mkManaged (m_manager s) true (m_conns s) (m_gos s))
  | Wake i =>
      g ← m_gos s !! i;
      let m := m_manager s in
      if bool_decide (g_state g = Waiting) && (bool_decide (g_job g = Ticker) || (0 <? trigger (g_job g) (managerChannelsList m)))
      then Some (mkManaged (mkManager (enabled m) (receive (g_job g) (managerChannelsList m))) (m_doneCh s) (m_conns s)
                   (alter (set_state Running) i (m_gos s)))
      else None
  | Ran i =>
      g ← m_gos s !! i;
      if bool_decide (g_state g = Running)
      then Some (mkManaged (m_manager s) (m_doneCh s) (m_conns s) (alter (set_state Waiting) i (m_gos s)))
      else None
  | Leave i =>
      g ← m_gos s !! i;
      if bool_decide (g_state g = Waiting) && m_doneCh s
      then Some (mkManaged (m_manager s) (m_doneCh s) (close_conns (g_conns g) (m_conns s)).1
                   (alter (set_state Ended) i (m_gos s)))
      else None
  end.

Fixpoint acts (l : list action) (s : managed) : option managed :=
  match l with
  | [] => Some s
  | a :: l' => s' ← act a s; acts l' s'
  end.

(** * Facts *)

(** The channels hold at most one event, and the one of a job exists. *)
Definition below (n : nat) (j : Job) : Prop := match j with Ticker => True | Out i | In i | Txs i => i < n end.
Definition chan_ok (c : managerChannels) : Prop := ch_ins c ≤ 1 ∧ ch_outs c ≤ 1 ∧ ch_txs c ≤ 1.

(** The connections of the goroutines that have not ended. *)
Definition live (g : goroutine) : bool := negb (bool_decide (g_state g = Ended)).
Definition live_conns (gos : list goroutine) : list nat := map g_conns (List.filter live gos).
#[local] Arguments live_conns : simpl never.

Record life (base : gset nat) (s : managed) : Prop := {
  life_conns : conns_ok (m_conns s);
  life_owns : owns base (live_conns (m_gos s)) (m_conns s);
  life_jobs : NoDup (map g_job (m_gos s));
  life_below : Forall (λ g, below (length (managerChannelsList (m_manager s))) (g_job g)) (m_gos s);
  life_chans : Forall chan_ok (managerChannelsList (m_manager s));
}.

(** ** [Start] *)
Definition jobs : list Job := [Ticker; Out 0; In 0; Txs 0; Out 1; In 1; Txs 1].

(** After a part of [Start]: the goroutines of [js] wait, on [n] pairs of channels. *)
Record started (base : gset nat) (n : nat) (js : list Job) (s : managed) : Prop := {
  st_life : life base s;
  st_jobs : map g_job (m_gos s) = js;
  st_waiting : Forall (λ g, g_state g = Waiting) (m_gos s);
  st_done : m_doneCh s = false;
  st_enabled : enabled (m_manager s) = true;
  st_chans : managerChannelsList (m_manager s) = repeat newManagerChannels n;
}.

(** A part of [Start] that fails leaves the goroutines it has started. *)
Definition leads (base : gset nat) (m : M managed unit) (n : nat) (js : list Job) (n' : nat) (js' : list Job) : Prop :=
  ∀ s, started base n js s →
    match m s with
    | (s', Ok _) => started base n' js' s'
    | (s', Err _) => ∃ n1 js1, n1 ≤ n' ∧ js1 `prefix_of` js' ∧ started base n1 js1 s'
    end.

Lemma leads_seq base m k n js n1 js1 n2 js2 : leads base m n js n1 js1 → leads base k n1 js1 n2 js2 →
  n1 ≤ n2 → js1 `prefix_of` js2 →
  leads base (_ ← m; k) n js n2 js2.
Proof.
  intros Hm Hk Hn Hp s Hs. rewrite bind_run. specialize (Hm s Hs). destruct (m s) as [s1 [[]|e]]; [by apply Hk|].
  destruct Hm as (n' & js' & Hn' & Hp' & Hs'). exists n', js'. split_and!; [lia|by etransitivity|done].
Qed.

Lemma live_conns_app gos g : g_state g = Waiting → live_conns (gos ++ [g]) = live_conns gos ++ [g_conns g].
Proof. intros E. unfold live_conns. rewrite List.filter_app, map_app. cbn. unfold live. by rewrite E. Qed.

(** One goroutine, with its connection. *)
Lemma leads_go base n js j : NoDup (js ++ [j]) → below n j → leads base (conns ← Database; go j conns) n js n (js ++ [j]).
Proof.
  intros Hnd Hb s [[Hok Ho Hj Hbl Hc] <- Hw Hd He Hch]. rewrite bind_run. unfold Database.
  destruct (open_conns (m_conns s)) as [cs [c|e]] eqn:E.
  - destruct (owns_open _ _ _ _ _ E Hok Ho) as [Ho' Hok']. split; cbn; try done.
    + split; cbn; [done| |by rewrite map_app|apply Forall_app; split; [done|]; by rewrite Hch, repeat_length, Forall_singleton|done].
      rewrite live_conns_app by done. eapply owns_perm, Ho'. cbn. by rewrite Permutation_app_comm.
    + by rewrite map_app.
    + apply Forall_app. by rewrite Forall_singleton.
  - destruct (owns_failed _ _ _ _ _ E Hok Ho) as [Ho' Hok']. exists n, (map g_job (m_gos s)).
    split_and!; [done|by apply prefix_app_r|]. by split; [split|..].
Qed.

(** [processingFunc], on the channels just appended. *)
Lemma leads_channels base n js : leads base (on_manager append_channels) n js (S n) js.
Proof.
  intros s [[Hok Ho Hj Hbl Hc] <- Hw Hd He Hch]. cbn. split; cbn; try done.
  - split; cbn; try done.
    + rewrite length_app. eapply Forall_impl; [exact Hbl|]. intros g. unfold below. destruct (g_job g); cbn; intros. all: lia || done.
    + apply Forall_app. split; [done|]. apply Forall_singleton. cbv. lia.
  - by rewrite Hch, repeat_cons.
Qed.

Lemma leads_go_then base n js j k n' js' : NoDup (js ++ [j]) → below n j → n ≤ n' → js ++ [j] `prefix_of` js' →
  leads base k n (js ++ [j]) n' js' → leads base (conns ← Database; _ ← go j conns; k) n js n' js'.
Proof.
  intros Hnd Hb Hn Hp Hk s Hs. pose proof (leads_seq base (conns ← Database; go j conns) k _ _ _ _ _ _
    (leads_go base n js j Hnd Hb) Hk Hn Hp s Hs) as Hl.
  rewrite !bind_run in Hl. rewrite bind_run. by destruct (Database s) as [s1 [c|e]].
Qed.

Lemma leads_processing base n js i : NoDup (js ++ [Out i; In i; Txs i]) → i < n →
  leads base (processingFunc i) n js n (js ++ [Out i; In i; Txs i]).
Proof.
  intros Hnd Hi. replace (js ++ [Out i; In i; Txs i]) with (((js ++ [Out i]) ++ [In i]) ++ [Txs i]) in *
    by (by rewrite <-!app_assoc).
  assert (NoDup ((js ++ [Out i]) ++ [In i])) as Hnd2 by (by apply NoDup_app in Hnd as [? _]).
  assert (NoDup (js ++ [Out i])) as Hnd1 by (by apply NoDup_app in Hnd2 as [? _]).
  unfold processingFunc, runProcessing. apply leads_go_then; [done|done|done|by do 2 apply prefix_app_r|].
  apply leads_go_then; [done|done|done|by apply prefix_app_r|]. by apply leads_go.
Qed.

(** One turn of the loop of [Start]. *)
Lemma leads_turn base n js : bool_decide (NoDup (js ++ [Out n; In n; Txs n])) = true →
  leads base (_ ← on_manager append_channels; processingFunc n) n js (S n) (js ++ [Out n; In n; Txs n]).
Proof.
  intros Hnd%bool_decide_eq_true. eapply leads_seq; [apply leads_channels|apply leads_processing|lia|]; [done|lia|].
  by apply prefix_app_r.
Qed.

(** [Start] gives each of its goroutines its own connection; when a connection is refused,
    those that are started stay, with theirs. *)
Lemma Start_spec base cs : c_open cs = base → conns_ok cs →
  match Start true (unstarted cs) with
  | (s, Ok _) => started base 2 jobs s
  | (s, Err _) => ∃ n js, n ≤ 2 ∧ js `prefix_of` jobs ∧ started base n js s
  end.
Proof.
  intros Hb Hok. unfold Start. rewrite bind_run. cbn [on_manager modify negb].
  assert (started base 0 [] (mkManaged (mkManager true []) false cs [])) as Hs.
  { split; [split|..]; cbn; try done; [by apply owns_none|apply NoDup_nil_2]. }
  assert (leads base (connsTicker ← Database; _ ← runTicker connsTicker;
    for_each (seq 0 2) (λ ipos, _ ← on_manager append_channels; processingFunc ipos)) 0 [] 2 jobs) as Hl.
  { apply leads_go_then; [apply NoDup_singleton|done|lia|by eexists|]. cbn [app].
    cbn [seq for_each].
    eapply leads_seq; [by apply (leads_turn base 0 [Ticker])| |lia|by eexists].
    eapply leads_seq; [by apply (leads_turn base 1 [Ticker; Out 0; In 0; Txs 0])| |lia|by eexists].
    intros s Hst. exact Hst. }
  exact (Hl _ Hs).
Qed.

(** ** Every action keeps the invariant *)
Lemma alter_split {A} (f : A → A) i (l : list A) x : l !! i = Some x →
  ∃ l1 l2, l = l1 ++ x :: l2 ∧ i = length l1 ∧ alter f i l = l1 ++ f x :: l2.
Proof.
  intros (l1 & l2 & -> & ->)%list_elem_of_split_length. exists l1, l2. split_and!; [done..|].
  rewrite <-(Nat.add_0_r (length l1)) at 1. by rewrite alter_app_r.
Qed.

Lemma live_conns_split l1 g l2 : live_conns (l1 ++ g :: l2) =
  live_conns l1 ++ (if live g then [g_conns g] else []) ++ live_conns l2.
Proof. unfold live_conns. rewrite List.filter_app, map_app. cbn. by destruct (live g). Qed.

Lemma jobs_alter st i gos : map g_job (alter (set_state st) i gos) = map g_job gos.
Proof. revert i. induction gos as [|g gos IH]; intros [|i]; cbn; [done..|]. f_equal. apply IH. Qed.

Lemma below_jobs n gos : Forall (λ g, below n (g_job g)) gos ↔ Forall (below n) (map g_job gos).
Proof. by rewrite Forall_map. Qed.

Lemma receive_length j l : length (receive j l) = length l.
Proof. destruct j; cbn; by rewrite ?length_alter. Qed.

Lemma receive_ok j l : Forall chan_ok l → Forall chan_ok (receive j l).
Proof. destruct j; cbn; intros H; [done|..]; apply Forall_alter; try done; unfold chan_ok; cbn; intros; lia. Qed.

Lemma try_send_le n : n ≤ 1 → try_send n = 1.
Proof. intros. unfold try_send. destruct (Nat.ltb_spec n 1); lia. Qed.

Lemma Exec_chans m : Forall chan_ok (managerChannelsList m) → enabled m = true →
  managerChannelsList (Manager_Exec m) = repeat (mkManagerChannels 1 1 1) (length (managerChannelsList m)).
Proof.
  unfold Manager_Exec. intros Hc ->. cbn. induction Hc as [|c l (H1 & H2 & H3) _ IH]; [done|]. cbn. rewrite IH.
  by rewrite !try_send_le.
Qed.

Lemma Exec_ok m : Forall chan_ok (managerChannelsList m) → Forall chan_ok (managerChannelsList (Manager_Exec m)) ∧
  length (managerChannelsList (Manager_Exec m)) = length (managerChannelsList m) ∧ enabled (Manager_Exec m) = enabled m.
Proof.
  intros Hc. destruct (enabled m) eqn:E.
  - rewrite (Exec_chans m Hc E), repeat_length. split_and!; [|done|unfold Manager_Exec; by rewrite E].
    apply Forall_forall. intros c Hin%list_elem_of_In%repeat_spec. subst c. cbv. lia.
  - unfold Manager_Exec. by rewrite E.
Qed.

Lemma act_life base a s s' : life base s → act a s = Some s' →
  life base s' ∧ map g_job (m_gos s') = map g_job (m_gos s) ∧ enabled (m_manager s') = enabled (m_manager s) ∧
  length (managerChannelsList (m_manager s')) = length (managerChannelsList (m_manager s)).
Proof.
  intros [Hok Ho Hj Hbl Hc] E. destruct a as [| |i|i|i]; cbn [act] in E.
  - injection E as <-. destruct (Exec_ok (m_manager s) Hc) as (Hc' & Hl & He). split_and!; try done.
    split; try done. cbn. by rewrite Hl.
  - destruct (m_doneCh s); [done|]. by injection E as <-.
  - destruct (m_gos s !! i) as [g|] eqn:Eg; [|done]. cbn in E. case_match eqn:Ew; [|done]. injection E as <-.
    apply andb_true_iff in Ew as [Ew%bool_decide_eq_true _]. cbn. rewrite jobs_alter, receive_length. split_and!; try done.
    split; cbn; [done| |by rewrite jobs_alter|apply below_jobs; rewrite jobs_alter, receive_length; by apply below_jobs|by apply receive_ok].
    destruct (alter_split (set_state Running) i _ _ Eg) as (l1 & l2 & E1 & _ & ->). rewrite E1 in Ho.
    rewrite live_conns_split in *. unfold live in *. rewrite Ew in Ho. exact Ho.
  - destruct (m_gos s !! i) as [g|] eqn:Eg; [|done]. cbn in E. case_bool_decide as Er; [|done]. injection E as <-.
    cbn. rewrite jobs_alter. split_and!; try done.
    split; cbn; [done| |by rewrite jobs_alter|apply below_jobs; rewrite jobs_alter; by apply below_jobs|done].
    destruct (alter_split (set_state Waiting) i _ _ Eg) as (l1 & l2 & E1 & _ & ->). rewrite E1 in Ho.
    rewrite live_conns_split in *. unfold live in *. rewrite Er in Ho. exact Ho.
  - destruct (m_gos s !! i) as [g|] eqn:Eg; [|done]. cbn in E. case_match eqn:Ew; [|done]. injection E as <-.
    apply andb_true_iff in Ew as [Ew%bool_decide_eq_true _]. cbn -[close_conns]. rewrite jobs_alter.
    destruct (alter_split (set_state Ended) i _ _ Eg) as (l1 & l2 & E1 & _ & E2). rewrite E1, live_conns_split in Ho.
    unfold live in Ho at 1. rewrite Ew in Ho. cbn in Ho. destruct (owns_close _ _ _ _ _ Hok Ho) as [Ho' Hok'].
    split_and!; try done. split; cbn -[close_conns]; [done| |by rewrite jobs_alter|apply below_jobs; rewrite jobs_alter; by apply below_jobs|done].
    rewrite E2, live_conns_split. exact Ho'.
Qed.

Lemma acts_app l1 l2 s : acts (l1 ++ l2) s = acts l1 s ≫= acts l2.
Proof. revert s. induction l1 as [|a l1 IH]; intros s; [done|]. cbn. destruct (act a s); [apply IH|done]. Qed.

Lemma acts_life base l s s' : life base s → acts l s = Some s' →
  life base s' ∧ map g_job (m_gos s') = map g_job (m_gos s) ∧ enabled (m_manager s') = enabled (m_manager s).
Proof.
  revert s. induction l as [|a l IH]; intros s Hs E; cbn in E; [by injection E as <-|].
  destruct (act a s) as [s1|] eqn:Ea; [|done]. destruct (act_life _ _ _ _ Hs Ea) as (Hs1 & Ej & Ee & _).
  destruct (IH _ Hs1 E) as (? & -> & ->). by rewrite Ej, Ee.
Qed.

(** ** An event is not forgotten *)
Lemma trigger_receive j j' l : j ≠ j' → trigger j (receive j' l) = trigger j l.
Proof.
  intros Hne. destruct j as [|i|i|i], j' as [|i'|i'|i']; cbn; try done;
    destruct (decide (i = i')) as [->|Hi]; rewrite ?list_lookup_alter_eq, ?list_lookup_alter_ne by done; try done;
    by destruct (l !! i').
Qed.

Lemma trigger_Exec m j : Forall chan_ok (managerChannelsList m) → j ≠ Ticker →
  below (length (managerChannelsList m)) j → enabled m = true → trigger j (managerChannelsList (Manager_Exec m)) = 1.
Proof.
  intros Hc Hj Hb He. rewrite (Exec_chans m Hc He).
  assert (∀ i, i < length (managerChannelsList m) →
    repeat (mkManagerChannels 1 1 1) (length (managerChannelsList m)) !! i = Some (mkManagerChannels 1 1 1)) as Hl.
  { intros i Hi. destruct (lookup_lt_is_Some_2 (repeat (mkManagerChannels 1 1 1) (length (managerChannelsList m))) i) as [c E];
      [by rewrite repeat_length|]. rewrite E. by apply list_elem_of_lookup_2, list_elem_of_In, repeat_spec in E as ->. }
  destruct j as [|i|i|i]; cbn in *; [done|..]; by rewrite Hl.
Qed.

Lemma trigger_kept base a i g s s' : life base s → m_gos s !! i = Some g → g_job g ≠ Ticker →
  0 < trigger (g_job g) (managerChannelsList (m_manager s)) → a ≠ Wake i → act a s = Some s' →
  0 < trigger (g_job g) (managerChannelsList (m_manager s')).
Proof.
  intros [Hok Ho Hj Hbl Hc] Hg Hne Ht Ha E. destruct a as [| |k|k|k]; cbn [act] in E.
  - injection E as <-. cbn. destruct (enabled (m_manager s)) eqn:He; [|unfold Manager_Exec; by rewrite He].
    rewrite trigger_Exec; [lia|done..| |done]. apply (Forall_lookup_1 _ _ _ _ Hbl Hg).
  - destruct (m_doneCh s); [done|]. by injection E as <-.
  - destruct (m_gos s !! k) as [g'|] eqn:Eg; [|done]. cbn in E. case_match; [|done]. injection E as <-. cbn.
    rewrite trigger_receive; [done|]. intros Ej. apply Ha. f_equal. eapply (NoDup_lookup _ _ _ _ Hj).
    + rewrite list_lookup_fmap, Eg. done.
    + rewrite list_lookup_fmap, Hg. cbn. by rewrite Ej.
  - destruct (m_gos s !! k) as [g'|] eqn:Eg; [|done]. cbn in E. case_match; [|done]. by injection E as <-.
  - destruct (m_gos s !! k) as [g'|] eqn:Eg; [|done]. cbn in E. case_match; [|done]. by injection E as <-.
Qed.

(** The job of a goroutine does not change. *)
Lemma job_kept a i g s s' : act a s = Some s' → m_gos s !! i = Some g → ∃ g', m_gos s' !! i = Some g' ∧ g_job g' = g_job g.
Proof.
  intros E Hg. assert (map g_job (m_gos s') = map g_job (m_gos s)) as Ej.
  { destruct a as [| |k|k|k]; cbn [act] in E; [by injection E as <-|destruct (m_doneCh s); [done|by injection E as <-]|..];
      (destruct (m_gos s !! k); [|done]); cbn in E; (case_match; [|done]); injection E as <-; apply jobs_alter. }
  assert (map g_job (m_gos s') !! i = Some (g_job g)) as El by (by rewrite Ej, list_lookup_fmap, Hg).
  rewrite list_lookup_fmap in El. destruct (m_gos s' !! i) as [g'|]; [|done]. injection El as El. by exists g'.
Qed.

Lemma event_pending base l i g s s' : life base s → m_gos s !! i = Some g → g_job g ≠ Ticker →
  0 < trigger (g_job g) (managerChannelsList (m_manager s)) → Wake i ∉ l → acts l s = Some s' →
  0 < trigger (g_job g) (managerChannelsList (m_manager s')).
Proof.
  revert s g. induction l as [|a l IH]; intros s g Hs Hg Hne Ht Hl E; cbn in E; [by injection E as <-|].
  destruct (act a s) as [s1|] eqn:Ea; [|done]. apply not_elem_of_cons in Hl as [Ha Hl].
  destruct (job_kept _ _ _ _ _ Ea Hg) as (g1 & Hg1 & Ej). rewrite <-Ej in *.
  apply (IH s1); try done; [by eapply act_life|]. rewrite Ej in *. by eapply trigger_kept.
Qed.

(** ** After [Close] *)
(** What goes on by itself: all but new work, and the ticks of the ticker, which is the
    first goroutine. *)
Definition internal (a : action) : Prop := match a with Exec | Close | Wake O => False | _ => True end.

Definition go_weight (g : goroutine) : Z := match g_state g with Running => 2 | Waiting => 1 | Ended => 0 end.
Definition chan_weight (c : managerChannels) : Z := Z.of_nat (2 * (ch_ins c + ch_outs c + ch_txs c)).
Definition measure (s : managed) : Z :=
  (sum_with go_weight (m_gos s) + sum_with chan_weight (managerChannelsList (m_manager s)))%Z.

Lemma receive_weight j l : 0 < trigger j l →
  sum_with chan_weight (receive j l) = (sum_with chan_weight l - 2)%Z.
Proof.
  destruct j as [|i|i|i]; cbn; [lia|..]; destruct (l !! i) as [c|] eqn:E; cbn; try lia; intros Ht;
    [destruct (alter_split (λ c, mkManagerChannels (pred (ch_ins c)) (ch_outs c) (ch_txs c)) _ _ _ E) as (l1 & l2 & -> & _ & ->)
    |destruct (alter_split (λ c, mkManagerChannels (ch_ins c) (pred (ch_outs c)) (ch_txs c)) _ _ _ E) as (l1 & l2 & -> & _ & ->)
    |destruct (alter_split (λ c, mkManagerChannels (ch_ins c) (ch_outs c) (pred (ch_txs c))) _ _ _ E) as (l1 & l2 & -> & _ & ->)];
    rewrite !sum_with_app; cbn [sum_with]; unfold chan_weight; cbn; lia.
Qed.

Lemma alter_weight st i gos g : gos !! i = Some g →
  sum_with go_weight (alter (set_state st) i gos) = (sum_with go_weight gos - go_weight g + go_weight (set_state st g))%Z.
Proof. intros E. destruct (alter_split (set_state st) _ _ _ E) as (l1 & l2 & -> & _ & ->). rewrite !sum_with_app. cbn. lia. Qed.

Lemma act_decreases a s s' : map g_job (m_gos s) `prefix_of` jobs → internal a → act a s = Some s' →
  (measure s' < measure s)%Z.
Proof.
  intros Hp Hi E. destruct a as [| |i|i|i]; try done; cbn [act] in E;
    (destruct (m_gos s !! i) as [g|] eqn:Eg; [|done]); cbn in E; (case_match eqn:Ew; [|done]); injection E as <-; unfold measure; cbn.
  - apply andb_true_iff in Ew as [Ew%bool_decide_eq_true Et]. assert (g_job g ≠ Ticker) as Hne.
    { intros Ej. assert (map g_job (m_gos s) !! i = Some Ticker) as El by (by rewrite list_lookup_fmap, Eg, <-Ej).
      eapply prefix_lookup_Some in El; [|exact Hp]. destruct i as [|i]; [done|].
      do 6 (destruct i as [|i]; [done|]). done. }
    rewrite bool_decide_eq_false_2 in Et by done.
    assert (0 < trigger (g_job g) (managerChannelsList (m_manager s))) as Ht by (destruct (trigger _ _); [done|lia]).
    rewrite (alter_weight Running i _ g Eg), (receive_weight _ _ Ht).
    unfold go_weight. cbn. rewrite Ew. lia.
  - rewrite (alter_weight Waiting i _ g Eg). apply bool_decide_eq_true in Ew. unfold go_weight. cbn. rewrite Ew. lia.
  - rewrite (alter_weight Ended i _ g Eg). apply andb_true_iff in Ew as [Ew%bool_decide_eq_true _]. unfold go_weight. cbn. rewrite Ew. lia.
Qed.

Lemma sum_with_le {A} (f : A → Z) n l : Forall (λ x, f x ≤ n)%Z l → (sum_with f l ≤ n * Z.of_nat (length l))%Z.
Proof. induction 1; cbn; lia. Qed.
Lemma measure_nonneg s : (0 ≤ measure s)%Z.
Proof.
  unfold measure. pose proof (sum_with_nonneg go_weight (m_gos s)) as H1.
  pose proof (sum_with_nonneg chan_weight (managerChannelsList (m_manager s))) as H2.
  assert (∀ x, (0 ≤ go_weight x)%Z) as Hg by (intros g; unfold go_weight; destruct (g_state g); lia).
  assert (∀ x, (0 ≤ chan_weight x)%Z) as Hc by (intros c; unfold chan_weight; lia).
  specialize (H1 (λ g _, Hg g)). specialize (H2 (λ c _, Hc c)). lia.
Qed.

(** The life of the manager, from a start that may be refused a connection. *)
Definition begun (cs : Conns) (s : managed) : Prop :=
  life (c_open cs) s ∧ map g_job (m_gos s) `prefix_of` jobs ∧ length (managerChannelsList (m_manager s)) ≤ 2.

Lemma Start_begun en cs s r : conns_ok cs → Start en (unstarted cs) = (s, r) →
  begun cs s ∧ (r = Ok tt → map g_job (m_gos s) = (if en then jobs else [])) ∧ enabled (m_manager s) = en ∧ m_doneCh s = false.
Proof.
  intros Hok E. destruct en.
  - pose proof (Start_spec (c_open cs) cs eq_refl Hok) as Hs. rewrite E in Hs. destruct r as [[]|e].
    + destruct Hs as [Hl Hj _ Hd He Hch]. split_and!; try done. split_and!; [done|by rewrite Hj|by rewrite Hch].
    + destruct Hs as (n & js & Hn & Hp & [Hl Hj _ Hd He Hch]). split_and!; try done.
      split_and!; [done|by rewrite Hj|by rewrite Hch, repeat_length].
  - injection E as <- <-. split_and!; try done. split_and!; cbn; [|apply prefix_nil|lia].
    split; cbn; try done; [by apply owns_none|apply NoDup_nil_2].
Qed.

Lemma acts_begun cs l s s' : begun cs s → acts l s = Some s' → begun cs s'.
Proof.
  intros (Hl & Hp & Hn). revert s Hl Hp Hn. induction l as [|a l IH]; intros s Hl Hp Hn E; cbn in E; [by injection E as <-|].
  destruct (act a s) as [s1|] eqn:Ea; [|done]. destruct (act_life _ _ _ _ Hl Ea) as (Hl1 & Ej & _ & En).
  apply (IH s1); [done|by rewrite Ej|by rewrite En|done].
Qed.

Lemma measure_bound cs s : begun cs s → (measure s ≤ 26)%Z.
Proof.
  intros (Hl & Hp & Hn). unfold measure.
  assert (sum_with go_weight (m_gos s) ≤ 2 * Z.of_nat (length (m_gos s)))%Z as H1.
  { apply sum_with_le, Forall_forall. intros g _. unfold go_weight. destruct (g_state g); lia. }
  assert (sum_with chan_weight (managerChannelsList (m_manager s)) ≤ 6 * Z.of_nat (length (managerChannelsList (m_manager s))))%Z as H2.
  { apply sum_with_le. eapply Forall_impl; [exact (life_chans _ _ Hl)|]. intros c (? & ? & ?). unfold chan_weight. lia. }
  apply prefix_length in Hp. rewrite length_map in Hp. cbn in Hp. lia.
Qed.

Lemma acts_bounded cs l s s' : begun cs s → Forall internal l → acts l s = Some s' →
  (Z.of_nat (length l) + measure s' ≤ measure s)%Z.
Proof.
  revert s. induction l as [|a l IH]; intros s Hs Hi E; cbn in E; [injection E as <-; cbn; lia|].
  destruct (act a s) as [s1|] eqn:Ea; [|done]. apply Forall_cons in Hi as [Ha Hi].
  assert (begun cs s1) as Hs1 by (apply (acts_begun cs [a] s); [done|cbn; by rewrite Ea]).
  pose proof (act_decreases _ _ _ (proj1 (proj2 Hs)) Ha Ea). specialize (IH _ Hs1 Hi E). cbn [length]. lia.
Qed.

Lemma acts_closed l s s' : acts l s = Some s' → m_doneCh s = true → m_doneCh s' = true.
Proof.
  revert s. induction l as [|a l IH]; intros s E Hc; cbn in E; [by injection E as <-|].
  destruct (act a s) as [s1|] eqn:Ea; [|done]. apply (IH s1); [done|]. destruct a as [| |i|i|i]; cbn [act] in Ea;
    [by injection Ea as <-|by rewrite Hc in Ea|..]; (destruct (m_gos s !! i); [|done]); cbn in Ea;
    (case_match; [|done]); by injection Ea as <-.
Qed.

(** When nothing goes on after [Close], every goroutine has ended. *)
Lemma quiet_ended s : m_doneCh s = true → (∀ a, internal a → act a s = None) → Forall (λ g, g_state g = Ended) (m_gos s).
Proof.
  intros Hd Hq. apply Forall_lookup. intros i g Hg. pose proof (Hq (Ran i) I) as Hr. pose proof (Hq (Leave i) I) as Hl.
  cbn [act] in Hr, Hl. rewrite Hg in Hr, Hl. cbn in Hr, Hl. destruct (g_state g) eqn:Es; cbn in *; [by rewrite Hd in Hl|done|done].
Qed.

Lemma ended_conns gos : Forall (λ g, g_state g = Ended) gos → live_conns gos = [].
Proof. induction 1 as [|g gos Hg _ IH]; [done|]. unfold live_conns, live in *. cbn. by rewrite Hg. Qed.

(** C40. The balance manager, from its start to its end, whatever its seven goroutines, its
    clients and the database do in between.  The connections that it holds are those of its
    goroutines that have not ended, whether it started or a connection was refused.  When
    [Exec] has told an enabled manager that there is work, each of the six goroutines of
    the batches has its event until it takes it: a run of it starts after the work was
    there.  And when it is closed, it ends: what its goroutines do, without new work or
    ticks, is at most 26 steps, and where they stop they have all ended and given their
    connections back. *)
Theorem manager_life en cs s r l s' : conns_ok cs → Start en (unstarted cs) = (s, r) → acts l s = Some s' →
  (r = Ok tt → map g_job (m_gos s) = if en then jobs else []) ∧
  c_open (m_conns s') = list_to_set (live_conns (m_gos s')) ∪ c_open cs ∧
  (∀ l1 l2 i g, l = l1 ++ Exec :: l2 → Wake i ∉ l2 → m_gos s' !! i = Some g → g_job g ≠ Ticker → en = true →
     0 < trigger (g_job g) (managerChannelsList (m_manager s'))) ∧
  (m_doneCh s' = true → ∀ l2 s2, Forall internal l2 → acts l2 s' = Some s2 →
     length l2 ≤ 26 ∧
     ((∀ a, internal a → act a s2 = None) → Forall (λ g, g_state g = Ended) (m_gos s2) ∧ c_open (m_conns s2) = c_open cs)).
Proof.
  intros Hok Es El. destruct (Start_begun _ _ _ _ Hok Es) as (Hs & Hj & He & Hd).
  pose proof (acts_begun _ _ _ _ Hs El) as Hs'. destruct Hs' as (Hl' & Hp' & Hn'). split_and!; [done| | |].
  - by destruct (life_owns _ _ Hl') as (_ & _ & ?).
  - intros l1 l2 i g -> Hw Hg Hne ->. rewrite acts_app in El. destruct (acts l1 s) as [s1|] eqn:E1; [|done].
    destruct (acts_life _ _ _ _ (proj1 Hs) E1) as (Hl1 & Ej1 & He1). cbn [mbind option_bind acts act] in El.
    set (s2 := mkManaged (Manager_Exec (m_manager s1)) (m_doneCh s1) (m_conns s1) (m_gos s1)) in El.
    assert (life (c_open cs) s2) as Hl2 by (by apply (act_life _ Exec s1)).
    assert (∃ g1, m_gos s1 !! i = Some g1 ∧ g_job g1 = g_job g) as (g1 & Hg1 & Eg).
    { destruct (acts_life _ _ _ _ Hl2 El) as (_ & Ej2 & _). cbn in Ej2.
      assert (map g_job (m_gos s1) !! i = Some (g_job g)) as Ei by (by rewrite <-Ej2, list_lookup_fmap, Hg).
      rewrite list_lookup_fmap in Ei. destruct (m_gos s1 !! i) as [g1|]; [|done]. injection Ei as Ei. by exists g1. }
    rewrite <-Eg in *. apply (event_pending (c_open cs) l2 i g1 s2 s' Hl2 Hg1 Hne); [|done|exact El].
    cbn. rewrite trigger_Exec; [lia|by apply (life_chans _ _ Hl1)|done| |by rewrite He1].
    apply (Forall_lookup_1 _ _ _ _ (life_below _ _ Hl1) Hg1).
  - intros Hc l2 s2 Hi E2. pose proof (acts_begun cs l2 s' s2 (conj Hl' (conj Hp' Hn')) E2) as Hs2.
    pose proof (acts_bounded cs _ _ _ (conj Hl' (conj Hp' Hn')) Hi E2). pose proof (measure_nonneg s2).
    pose proof (measure_bound cs s' (conj Hl' (conj Hp' Hn'))). split; [lia|]. intros Hq.
    pose proof (acts_closed _ _ _ E2 Hc) as Hd2.
    pose proof (quiet_ended _ Hd2 Hq) as Hend. split; [exact Hend|].
    destruct (life_owns _ _ (proj1 Hs2)) as (_ & _ & ->). rewrite (ended_conns _ Hend). apply (left_id_L ∅ (∪)).
Qed.

(** * A manager that works, and is closed while it does *)
Module ManagerSample.
Abbreviation free := (mkConns {[4]} 5 []).
Abbreviation up := (Start true (unstarted free)).

(** The first loop of the outputs takes its event; another comes while it runs; the
    manager is closed, and it runs once more before it leaves. *)
Definition work : list action := [Exec; Wake 1; Exec; Close].
Definition rest : list action := [Ran 1; Wake 1; Ran 1] ++ map Leave (seq 0 7).

Example pending_after :
(λ s, map (λ g, trigger (g_job g) (managerChannelsList (m_manager s))) (m_gos s)) <$> acts work up.1 =
Some [0; 1; 1; 1; 1; 1; 1].
Proof. vm_compute. reflexivity. Qed.

Example all_given_back :
(λ s, (elements (c_open (m_conns s)), forallb (λ g, negb (live g)) (m_gos s))) <$> acts (work ++ rest) up.1 =
Some ([4], true).
Proof. vm_compute. reflexivity. Qed.

(** The third connection is refused: the two goroutines that are started stay, with theirs,
    until the manager is closed. *)
Example third_refused : (λ s, (map g_job (m_gos s.1), elements (c_open (m_conns s.1)), s.2))
(Start true (unstarted (mkConns {[4]} 5 [None; None; Some "refused"]))) = ([Ticker; Out 0], [6; 4; 5], Err "refused").
Proof. vm_compute. reflexivity. Qed.
End ManagerSample.
Import ManagerSample.

Lemma manager_life_witness : ∃ s s', acts work up.1 = Some s ∧ acts rest s = Some s' ∧ length rest ≤ 26 ∧
  0 < trigger (Out 0) (managerChannelsList (m_manager s)).
Proof.
  assert (conns_ok free) as Hok.
  { intros c Hc. change (c ∈ ({[4]} : gset nat)) in Hc. apply elem_of_singleton in Hc. subst c. cbn. lia. }
  assert (∃ s, acts work up.1 = Some s) as [s E] by (vm_compute; by eexists).
  assert (∃ s', acts rest s = Some s') as [s' E'].
  { assert (acts work up.1 ≫= acts rest = acts rest s) as <- by (by rewrite E). vm_compute. by eexists. }
  assert (Start true (unstarted free) = (up.1, Ok tt)) as Hup by (vm_compute; reflexivity).
  destruct (manager_life true free up.1 (Ok tt) work s Hok Hup E) as (_ & _ & Hw & Hc).
  exists s, s'. split; [exact E|]. split; [exact E'|]. split.
  - refine (proj1 (Hc _ rest s' _ E')); [|by repeat constructor].
    assert (m_doneCh <$> acts work up.1 = Some true) as Hd by (vm_compute; reflexivity).
    rewrite E in Hd. by injection Hd.
  - assert (∃ g, m_gos s !! 1 = Some g ∧ g_job g = Out 0) as (g & Hg & Ej).
    { assert (acts work up.1 ≫= (λ s, g_job <$> m_gos s !! 1) = Some (Out 0)) as Hj by (vm_compute; reflexivity).
      rewrite E in Hj. cbn [mbind option_bind] in Hj. destruct (m_gos s !! 1) as [g|]; [|done]. injection Hj as Hj. exact (ex_intro _ g (conj eq_refl Hj)). }
    rewrite <-Ej. apply (Hw [Exec; Wake 1] [Close] 1 g); [done| |exact Hg|by rewrite Ej|done].
    by intros [=]%list_elem_of_singleton.
Defined.
