(* ===== verification/Services.v ===== *)
(** The start and the end of the server (api/server.go) and of the rewards handler
    (services/rewards/rewards_handler.go): the connections they take, and what is left of
    them when a part of the start fails, or when they are closed. *)

From S2P Require Import Prelude Wiring.

(** * [newRouter]

    What it needs besides connections is made by other components and can fail: the two texts
    of the index, the consumer of each chain, in the order of the map, and the one of the AX
    chain. *)
Record RouterParts (Consumer ConsumerAX : Type) := mkRouterParts {
  rp_index : result string;
  rp_legacy : result string;
  rp_consumers : list (string * result Consumer);
  rp_axchain : result ConsumerAX;
  rp_aggregate_cache : bool;             (* sc.IsAggregateCache *)
}.
Arguments mkRouterParts {_ _}.
Arguments rp_index {_ _}.
Arguments rp_legacy {_ _}.
Arguments rp_consumers {_ _}.
Arguments rp_axchain {_ _}.
Arguments rp_aggregate_cache {_ _}.

Record Router (Consumer ConsumerAX : Type) := mkRouter {
  r_index : string;
  r_legacy : string;
  r_connections : nat;
  r_consumersmap : gmap string Consumer;
  r_consumeraxchain : ConsumerAX;
  r_tasks : list (Task * nat);           (* the tasks of the reader *)
}.
Arguments mkRouter {_ _}.
Arguments r_index {_ _}.
Arguments r_legacy {_ _}.
Arguments r_connections {_ _}.
Arguments r_consumersmap {_ _}.
Arguments r_consumeraxchain {_ _}.
Arguments r_tasks {_ _}.

Section router.
Context {Consumer ConsumerAX : Type}.

Fixpoint make_consumers (l : list (string * result Consumer)) (m : gmap string Consumer) : result (gmap string Consumer) :=
match l with
| [] => Ok m
| (chid, consumer) :: rest => c ← consumer; make_consumers rest (<[chid := c]> m)
end.

Definition newRouter (parts : RouterParts Consumer ConsumerAX) : M Conns (Router Consumer ConsumerAX) :=
indexBytes ← lift_result (rp_index parts);
legacyIndexResponse ← lift_result (rp_legacy parts);
connections ← open_conns;
consumersmap ← lift_result (make_consumers (rp_consumers parts) ∅);
consumeraxchain ← lift_result (rp_axchain parts);
tasks ← aggregateProcessor (rp_aggregate_cache parts);      (* axc.NewReader *)
mret (mkRouter indexBytes legacyIndexResponse connections consumersmap consumeraxchain tasks).

(** The connections of a router: its own and those of its tasks. *)
Definition router_conns (r : Router Consumer ConsumerAX) : list nat := r_connections r :: map snd (r_tasks r).

(** A router holds its own connection and one for each of its tasks.  One that is not made
holds none, but when what fails comes after its connection was opened: a consumer, or a
task of the reader.  That connection is never closed. *)
Theorem router_connections parts cs cs' r : conns_ok cs → newRouter parts cs = (cs', r) →
match r with
| Ok r => map fst (r_tasks r) = (if rp_aggregate_cache parts then tasks else []) ∧ owns (c_open cs) (router_conns r) cs' ∧
  dom (r_consumersmap r) = list_to_set (map fst (rp_consumers parts))
| Err _ => c_open cs' = c_open cs ∨
  (is_ok (rp_index parts) = true ∧ is_ok (rp_legacy parts) = true ∧ ∃ c, owns (c_open cs) [c] cs')
end.
Proof.
intros Hok E. unfold newRouter in E. rewrite bind_run in E. destruct (rp_index parts) as [index|e]; cbn [lift_result] in E;
[|injection E as <- <-; by left].
rewrite bind_run in E. destruct (rp_legacy parts) as [legacy|e]; cbn [lift_result] in E; [|injection E as <- <-; by left].
rewrite bind_run in E. assert (owns (c_open cs) [] cs) as Hown by (by apply owns_none).
destruct (open_conns cs) as [cs1 [c|e]] eqn:E1.
2: { injection E as <- <-. left. by destruct (open_conns_spec _ _ _ E1 Hok) as [_ ?]. }
destruct (owns_open _ _ _ _ _ E1 Hok Hown) as [Ho1 Hok1].
assert (c_open cs1 = list_to_set [c] ∪ c_open cs) as Ec by (by destruct Ho1 as (_ & _ & ?)).
rewrite bind_run in E. destruct (make_consumers (rp_consumers parts) ∅) as [m|e] eqn:Em; cbn [lift_result] in E;
[|injection E as <- <-; right; split_and!; [done..|by exists c]].
rewrite bind_run in E. destruct (rp_axchain parts) as [ax|e]; cbn [lift_result] in E;
[|injection E as <- <-; right; split_and!; [done..|by exists c]].
rewrite bind_run in E. pose proof (tasks_connected (rp_aggregate_cache parts) cs1 Hok1) as Ht.
destruct (aggregateProcessor (rp_aggregate_cache parts) cs1) as [cs2 [ts|e]]; injection E as <- <-.
- destruct Ht as (Htasks & Hnd & Hd & Ho2). split_and!; [done| |].
+ unfold owns, router_conns. cbn. rewrite Ec in Hd, Ho2. destruct Ho1 as (_ & Hd1 & _). cbn in *.
  rewrite (right_id_L ∅ (∪)) in *. split_and!.
  * constructor; [|done]. rewrite <-(elem_of_list_to_set (C:=gset nat)). set_solver.
  * set_solver.
  * rewrite Ho2. set_solver.
+ cbn. assert (∀ l m0 m1, make_consumers l m0 = Ok m1 → dom m1 = list_to_set (map fst l) ∪ dom m0) as Hdom.
  { clear. induction l as [|[k [x|e]] l IH]; intros m0 m1 E; cbn in E; [injection E as <-; set_solver| |done].
    apply IH in E as ->. rewrite dom_insert_L. cbn. set_solver. }
  rewrite (Hdom _ _ _ Em). by rewrite dom_empty_L, (right_id_L ∅ (∪)).
- right. split_and!; [done..|]. exists c. destruct Ho1 as (? & ? & _). split_and!; [done..|]. by rewrite Ht, Ec.
Qed.
End router.

(** * The rewards handler

    The channel [doneCh] is made by the goroutine, when it runs: before that it is nil. *)
Inductive channel := Nil | Opened | Closed.
#[global] Instance channel_eq_dec : EqDecision channel.
Proof. solve_decision. Defined.

(** The goroutine [runTicker] : not started, about to begin, in its loop, in a pass
    ([processRewards]), returned. *)
Inductive ticker := NotStarted | Spawned (conns : nat) | Looping (conns : nat) | Passing (conns : nat) | Returned.

Record handler := mkHandler { h_doneCh : channel; h_ticker : ticker; h_world : Conns }.

(** [&Handler{}] *)
Definition new_handler (cs : Conns) : handler := mkHandler Nil NotStarted cs.

Definition Handler_Start : M handler unit := λ s,
  match open_conns (h_world s) with
  | (cs, Err e) => (mkHandler (h_doneCh s) (h_ticker s) cs, Err e)
  | (cs, Ok conns) => (mkHandler (h_doneCh s) (Spawned conns) cs, Ok tt)
  end.

(** [None] : the channel is nil or closed, and the process panics. *)
Definition Handler_Close (s : handler) : option handler :=
  match h_doneCh s with
  | Opened => Some (mkHandler Closed (h_ticker s) (h_world s))
  | Nil | Closed => None
  end.

(** The steps of [runTicker]: it makes the channel; a tick starts a pass, which ends, with
    an error or not; it sees that the channel is closed, and gives its connection back. *)
Inductive ticks : handler → handler → Prop :=
| ticker_begins ch c cs : ticks (mkHandler ch (Spawned c) cs) (mkHandler Opened (Looping c) cs)
| ticker_ticks ch c cs : ticks (mkHandler ch (Looping c) cs) (mkHandler ch (Passing c) cs)
| ticker_passed ch c cs : ticks (mkHandler ch (Passing c) cs) (mkHandler ch (Looping c) cs)
| ticker_returns c cs : ticks (mkHandler Closed (Looping c) cs) (mkHandler Closed Returned (close_conns c cs).1).

(** What can happen to a handler that was started. *)
Inductive handled : handler → handler → Prop :=
| handled_ticks s s' : ticks s s' → handled s s'
| handled_Close s s' : Handler_Close s = Some s' → handled s s'.

Definition h_held (s : handler) : list nat :=
  match h_ticker s with Spawned c | Looping c | Passing c => [c] | NotStarted | Returned => [] end.

(** The connections, and the channel: it is nil until the goroutine begins. *)
Definition h_sound (base : gset nat) (s : handler) : Prop :=
  conns_ok (h_world s) ∧ owns base (h_held s) (h_world s) ∧
  match h_ticker s with
  | NotStarted => False
  | Spawned _ => h_doneCh s = Nil
  | Looping _ | Passing _ => h_doneCh s ≠ Nil
  | Returned => h_doneCh s = Closed
  end.

Lemma handled_sound base s s' : handled s s' → h_sound base s → h_sound base s'.
Proof.
  intros [s1 s2 Ht|s1 s2 E] (Hok & Ho & Hc).
  - destruct Ht; unfold h_sound, h_held in *; cbn -[close_conns] in *; try by split_and!.
    destruct (owns_close _ [] c [] _ Hok Ho) as [Ho' Hok']. by split_and!.
  - unfold Handler_Close in E. destruct (h_doneCh s1) eqn:Ed; [done| |done]. injection E as <-.
    unfold h_sound, h_held in *. cbn. split_and!; [done..|]. destruct (h_ticker s1); congruence || done.
Qed.

(** The rewards handler.  [Start] opens the connection of its goroutine, or fails and leaves
    none.  Until the goroutine has begun, [Close] is a panic; from then on the first [Close]
    is accepted, and after it the goroutine returns, at the latest after the pass that it is
    in, and the connections are those of before. *)
Theorem rewards_handler_life cs s r : conns_ok cs → Handler_Start (new_handler cs) = (s, r) →
  match r with
  | Err _ => c_open (h_world s) = c_open cs
  | Ok _ => Handler_Close s = None ∧ ∀ s', rtc handled s s' →
      c_open (h_world s') = list_to_set (h_held s') ∪ c_open cs ∧
      (is_Some (Handler_Close s') ↔ h_doneCh s' = Opened) ∧
      (h_doneCh s' = Closed → ∃ s2, rtc ticks s' s2 ∧ h_ticker s2 = Returned ∧ c_open (h_world s2) = c_open cs)
  end.
Proof.
  intros Hok E. unfold Handler_Start in E. cbn in E. destruct (open_conns cs) as [cs1 [c|e]] eqn:E1; injection E as <- <-; cbn.
  2: { by destruct (open_conns_spec _ _ _ E1 Hok). }
  split; [done|]. intros s' Hr. assert (h_sound (c_open cs) s') as Hs'.
  { eapply (rtc_ind_r (h_sound (c_open cs))); [|intros ?? _ ??; by eapply handled_sound|exact Hr].
    destruct (owns_open (c_open cs) [] _ _ _ E1 Hok) as [Ho Hok1]; [by apply owns_none|]. by split_and!. }
  destruct Hs' as (Hok' & Ho & Hc). split_and!.
  - by destruct Ho as (_ & _ & ?).
  - unfold Handler_Close. split; [intros [? ?]; by destruct (h_doneCh s')|intros ->; by eexists].
  - intros Hd. destruct s' as [ch t cs']. cbn in *. subst ch. unfold h_held in Ho. cbn in Ho.
    assert (∀ c', owns (c_open cs) [c'] cs' → c_open (close_conns c' cs').1 = c_open cs) as Hend.
    { intros c' Hc'. destruct (owns_close _ [] c' [] _ Hok' Hc') as [Ho' _]. by apply owns_none in Ho'. }
    destruct t as [|c'|c'|c'|]; [done|done| | |].
    + eexists. split; [apply rtc_once, ticker_returns|]. split; [done|by apply Hend].
    + eexists. split; [eapply rtc_l; [apply ticker_passed|apply rtc_once, ticker_returns]|]. split; [done|by apply Hend].
    + eexists. split; [done|]. split; [done|by apply owns_none].
Qed.

(** Closed just after its start, as the goroutine has not run yet: the process panics. *)
Example closed_too_early : Handler_Close (Handler_Start (new_handler (mkConns ∅ 0 []))).1 = None.
Proof. reflexivity. Qed.

(** A chain whose machine is not known: the router is not made, and its connection stays open. *)
Example router_leaks :
  (λ s, (elements (c_open s.1), match s.2 with Ok _ => None | Err e => Some e end))
    (newRouter (mkRouterParts (Ok "index") (Ok "legacy") [("X", Ok tt); ("Y", Err "unknown VM")] (Ok tt) true) (mkConns {[3]} 4 [])) =
  ([4; 3], Some "unknown VM").
Proof. vm_compute. reflexivity. Qed.
