(* ===== verification/Listen.v ===== *)
(** stream/producer_chain.go: the producer of a chain from the configuration to its end —
    [NewProducerChain], [Listen], [runProcessor] with its counters and its connection.

    The producer works in the world of PoolSystem.v.  At every test of [IsStopped] the rest
    of the program takes any number of its steps ([others]); [stop n] is the answer of the
    [n]-th test, and [fetch n] the node at that time. *)

From S2P Require Import Prelude Errors Sql MemDb Axia DbModel Persist Persistence Prog Models AxcWriter Writer AvmWriter PvmWriter CvmWriter Indexing Utils UtilsFacts Stream StreamAx Pool PoolSystem Processors Streaming Metrics Wiring.

(** * The names of a producer *)
Inductive IndexType := IndexTypeTransactions | IndexTypeVertices | IndexTypeBlocks.
Definition IndexType_String (t : IndexType) : string :=
  match t with IndexTypeTransactions => "tx" | IndexTypeVertices => "vtx" | IndexTypeBlocks => "block" end.

(** servicesctrl/services_control.go *)
Definition MetricProduceProcessedCountKey : string := "produce_records_processed".
Definition MetricProduceSuccessCountKey : string := "produce_records_success".
Definition MetricProduceFailureCountKey : string := "produce_records_failure".

Definition InitProduceMetrics (m : Metrics) : option Metrics :=
  m ← CounterInit MetricProduceProcessedCountKey "records processed" m;
  m ← CounterInit MetricProduceSuccessCountKey "records success" m;
  CounterInit MetricProduceFailureCountKey "records failure" m.

Record ProducerChain := mkProducerChain {
  producer_id : string;
  metricProcessedCountKey : string;
  metricSuccessCountKey : string;
  metricFailureCountKey : string;
  producer_endpoint : string;
  producer_container : producerChainContainer;   (* what [newContainer] is given *)
}.

(** The producer and the metrics; [None] : a name that is taken by a histogram. *)
Definition NewProducerChain (networkID : Z) (nodeInstance chainID eventType : string) (indexerType : IndexType)
    (chain : IndexedChain) (m : Metrics) : option (ProducerChain * Metrics) :=
  let p := {|
    producer_id := "producer " +:+ Z_to_string networkID +:+ " " +:+ chainID +:+ " " +:+ eventType;
    metricProcessedCountKey := "produce_records_processed_" +:+ chainID +:+ "_" +:+ eventType;
    metricSuccessCountKey := "produce_records_success_" +:+ chainID +:+ "_" +:+ eventType;
    metricFailureCountKey := "produce_records_failure_" +:+ chainID +:+ "_" +:+ eventType;
    producer_endpoint := "/ext/index/" +:+ IndexedChain_String chain +:+ "/" +:+ IndexType_String indexerType;
    producer_container := mkProducerChainContainer networkID nodeInstance (GetTopicName networkID chainID eventType)
      chainID chain |} in
  m ← CounterInit (metricProcessedCountKey p) "records processed" m;
  m ← CounterInit (metricSuccessCountKey p) "records success" m;
  m ← CounterInit (metricFailureCountKey p) "records failure" m;
  m ← InitProduceMetrics m;
  Some (p, m).

(** * The loops *)
Section listen.
Context `{SqlEngine D} `{!Dbr} `{!AxiaIds} `{!Cfg} `{!AxiaAtomic}.
Context (pr : ProducerChain) (stop : nat → bool) (fetch : nat → Z → Z → result (list Container)).
Context (others : nat → world (D:=D) → world (D:=D)).

Record listener := mkListener {
l_world : world (D:=D);
l_conns : Conns;
l_metrics : Metrics;
l_tick : nat;
}.

#[local] Abbreviation p := (producer_container pr).

Definition on_producer {A} (m : M (producer_state D) A) : M listener A := λ s,
let '(ps, r) := m (producer_of (l_world s)) in
(mkListener (set_producer (l_world s) ps) (l_conns s) (l_metrics s) (l_tick s), r).
Definition on_conns {A} (m : M Conns A) : M listener A := λ s,
let '(cs, r) := m (l_conns s) in (mkListener (l_world s) cs (l_metrics s) (l_tick s), r).

Definition count (key : string) : M listener unit :=
modify (λ s, mkListener (l_world s) (l_conns s) (counted key (l_metrics s)) (l_tick s)).

(** A test of [IsStopped]. *)
Definition is_stopped : M listener bool := λ s,
(mkListener (others (l_tick s) (l_world s)) (l_conns s) (l_metrics s) (S (l_tick s)), Ok (stop (l_tick s))).

Definition Success : M listener unit := _ ← count (metricSuccessCountKey pr); count MetricProduceSuccessCountKey.
Definition Failure : M listener unit := _ ← count (metricFailureCountKey pr); count MetricProduceFailureCountKey.

(** [producerChainContainer.ProcessNextMessage], with its counters. *)
Definition process_counted (container : Container) : M listener unit :=
_ ← on_producer (process_container p container);
_ ← count (metricProcessedCountKey pr);
count MetricProduceProcessedCountKey.

Definition ProcessNextMessage_counted : M listener unit :=
idx ← on_producer (gets p_idx);
tick ← gets l_tick;
match fetch tick idx MaxTxRead with
| Err err => if IndexNotReady err then mret tt else throw err
| Ok containers =>
    if length containers =? 0 then throw ErrNoMessage
    else
      _ ← for_each containers process_counted;
      let Idx := u64_add idx (Z.of_nat (length containers)) in
      _ ← on_producer (lift_db (updateNodeIndex (mkNodeIndex (nodeinstance p) (topic p) Idx)));
      on_producer (modify (λ s, mkProducerState (p_db s) (p_queue s) Idx))
end.

(** The closure [processNextMessage] of [runProcessor]. *)
Definition processNextMessage : M listener unit :=
r ← attempt ProcessNextMessage_counted;
match r with
| Ok _ => Success
| Err err =>
    match processNextMessage_error err with
    | None => mret tt
    | Some e => if decide (err = "EOF") then throw e else _ ← Failure; throw e
    end
end.

(** The loop of [runProcessor]; [None] when the fuel runs out. *)
Fixpoint messages (fuel : nat) (s : listener) : option (listener * result unit) :=
match fuel with
| O => None
| S fuel' =>
    match is_stopped s with
    | (s, Ok true) => Some (s, Ok tt)
    | (s, _) =>
        match processNextMessage s with
        | (s, Err e) => Some (s, Err e)
        | (s, Ok _) => messages fuel' s
        end
    end
end.

(** How a call of [runProcessor] ended. *)
Inductive run := NotStarted | NoDatabase (e : error) | NoContainer (e : error) | Ran (r : result unit).

(** [newContainer] opens the connection, and does not close it when it fails. *)
Definition runProcessor (fuel : nat) (s : listener) : option (listener * run) :=
match is_stopped s with
| (s, Ok true) => Some (s, NotStarted)
| (s, _) =>
    match on_conns open_conns s with
    | (s, Err e) => Some (s, NoDatabase e)
    | (s, Ok conns) =>
        match on_producer (newContainer p) s with
        | (s, Err e) => Some (s, NoContainer e)
        | (s, Ok _) =>
            match messages fuel s with
            | None => None
            | Some (s, r) => Some ((on_conns (close_conns conns) s).1, Ran r)
            end
        end
    end
end.

(** [Listen], which always returns nil; the runs of [runProcessor]. *)
Fixpoint Listen (fuel : nat) (s : listener) : option (listener * list run) :=
match fuel with
| O => None
| S fuel' =>
    match is_stopped s with
    | (s, Ok true) => Some (s, [])
    | (s, _) =>
        match runProcessor fuel' s with
        | None => None
        | Some (s, r) =>
            match is_stopped s with
            | (s, Ok true) => Some (s, [r])
            | (s, _) =>
                match Listen fuel' s with
                | None => None
                | Some (s, runs) => Some (s, r :: runs)
                end
            end
        end
    end
end.

(** * What a message does *)

(** [m] does to the world what [mp] does to the producer, and leaves the connections. *)
Definition tracks {A} (m : M listener A) (mp : M (producer_state D) A) (s : listener) : Prop :=
let '(s', r) := m s in
let '(ps, r') := mp (producer_of (l_world s)) in
l_world s' = set_producer (l_world s) ps ∧ r = r' ∧ l_conns s' = l_conns s ∧ l_tick s' = l_tick s.

Lemma producer_of_set (w : world (D:=D)) ps : producer_of (set_producer w ps) = ps.
Proof. by destruct ps. Qed.

Lemma set_producer_same (w : world (D:=D)) : set_producer w (producer_of w) = w.
Proof. by destruct w. Qed.

Lemma tracks_bind {A B} (m : M listener A) (f : A → M listener B) mp fp s :
tracks m mp s → (∀ a s', l_tick s' = l_tick s → tracks (f a) (fp a) s') → tracks (m ≫= f) (mp ≫= fp) s.
Proof.
unfold tracks. rewrite !bind_run. destruct (m s) as [s1 r1], (mp _) as [ps1 r1'] eqn:Ep.
intros (Ew & <- & Ec & Et) Hf. destruct r1 as [a|e]; [|done]. specialize (Hf a s1 Et).
rewrite Ew, producer_of_set in Hf. destruct (f a s1) as [s2 r2], (fp a ps1) as [ps2 r2'].
destruct Hf as (-> & <- & Ec' & Et'). split_and!; [done|done|congruence|congruence].
Qed.

Lemma tracks_on_producer {A} (mp : M (producer_state D) A) s : tracks (on_producer mp) mp s.
Proof. unfold tracks, on_producer. by destruct (mp _). Qed.

Lemma tracks_ret {A} (m : M listener A) (r : result A) s : (∀ s, m s = (s, r)) → tracks m (λ ps, (ps, r)) s.
Proof. intros E. unfold tracks. by rewrite E, set_producer_same. Qed.

Lemma tracks_count key s : tracks (count key) (mret tt) s.
Proof. unfold tracks. cbn. by rewrite set_producer_same. Qed.

Lemma tracks_after {A} (m : M listener A) (m' : A → M listener A) mp s :
tracks m mp s → (∀ a s', tracks (m' a) (mret a) s') → tracks (m ≫= m') mp s.
Proof.
unfold tracks. intros Hm Hm'. rewrite bind_run. destruct (m s) as [s1 r1], (mp _) as [ps1 r1'].
destruct Hm as (Ew & <- & Ec & Et). destruct r1 as [a|e]; [|done]. specialize (Hm' a s1).
destruct (m' a s1) as [s2 r2]. cbn in Hm'. rewrite set_producer_same in Hm'.
destruct Hm' as (-> & -> & -> & ->). done.
Qed.

Lemma tracks_process c s : tracks (process_counted c) (process_container p c) s.
Proof.
apply tracks_after; [apply tracks_on_producer|]. intros [] s'.
apply (tracks_after _ (λ _, count _) (mret tt)); [apply tracks_count|]. intros [] ?. apply tracks_count.
Qed.

Lemma tracks_for_each {A} (l : list A) f fp s :
(∀ x s', tracks (f x) (fp x) s') → tracks (for_each l f) (for_each l fp) s.
Proof.
intros Hf. revert s. induction l as [|x l IH]; intros s; [by apply tracks_ret|].
apply tracks_bind; [apply Hf|]. intros [] s' _. apply IH.
Qed.

(** The counters aside, [ProcessNextMessage] is the one of Stream.v. *)
Lemma tracks_next s : tracks ProcessNextMessage_counted (ProcessNextMessage (fetch (l_tick s)) p) s.
Proof.
apply tracks_bind; [apply tracks_on_producer|]. intros idx s1 <-.
assert (∀ (f : nat → M listener unit) mp, tracks (f (l_tick s1)) mp s1 → tracks (tick ← gets l_tick; f tick) mp s1) as Hg.
{ done. }
apply Hg. destruct (fetch (l_tick s1) idx MaxTxRead) as [cs|err].
- destruct (length cs =? 0); [by apply tracks_ret|].
  apply tracks_bind; [apply tracks_for_each, tracks_process|]. intros _ s2 _.
  apply tracks_bind; [apply tracks_on_producer|]. intros _ s3 _. apply tracks_on_producer.
- destruct (IndexNotReady err); by apply tracks_ret.
Qed.

(** The message and how it is answered: the world of the message, and its error. *)
Lemma processNextMessage_spec s :
let '(s', r) := processNextMessage s in
let '(ps, r') := ProcessNextMessage (fetch (l_tick s)) p (producer_of (l_world s)) in
l_world s' = set_producer (l_world s) ps ∧ l_conns s' = l_conns s ∧ l_tick s' = l_tick s ∧
r = match r' with
    | Ok _ => Ok tt
    | Err e => match processNextMessage_error e with None => Ok tt | Some e' => Err e' end
    end.
Proof.
pose proof (tracks_next s) as Ht. unfold processNextMessage, tracks in *. rewrite bind_run. unfold attempt.
destruct (ProcessNextMessage_counted s) as [s1 r], (ProcessNextMessage _ _ _) as [ps r'].
destruct Ht as (Ew & <- & Ec & Et). destruct r as [[]|e]; [done|].
destruct (processNextMessage_error e) as [e'|] eqn:Ee; [|by split_and!].
by destruct (decide (e = "EOF")).
Qed.

(** * The whole loop *)
#[local] Arguments is_stopped : simpl never.
#[local] Arguments runProcessor : simpl never.
#[local] Arguments processNextMessage : simpl never.
Section steps.
Context `{!SqlEngineOk D} `{!DbrOk} `{!AxiaAtomicOk}.
Context (accepted : Z → Container) (fsm : gmap string (ProcessorDB (D:=D))) (topicNames : list string).
Hypothesis node_faithful : ∀ n, faithful accepted (fetch n).
Hypothesis others_step : ∀ n w, steps p accepted fsm topicNames w (others n w).

Abbreviation reach := (steps p accepted fsm topicNames).

(** From [s] to [s'] the world has taken its steps, and the tests go on. *)
Definition goes (s s' : listener) : Prop := reach (l_world s) (l_world s') ∧ l_tick s ≤ l_tick s'.

#[local] Instance goes_preorder : PreOrder goes.
Proof.
split; [by intros s|]. intros s1 s2 s3 [H12 ?] [H23 ?]. split; [by etrans|lia].
Qed.

Lemma is_stopped_goes s : goes s (is_stopped s).1 ∧ l_tick (is_stopped s).1 = S (l_tick s) ∧
l_conns (is_stopped s).1 = l_conns s ∧ (is_stopped s).2 = Ok (stop (l_tick s)).
Proof. unfold is_stopped. split_and!; [split; [apply others_step|cbn; lia]|done..]. Qed.

Lemma processNextMessage_goes s s' r : processNextMessage s = (s', r) → goes s s' ∧ l_conns s' = l_conns s.
Proof.
intros E. pose proof (processNextMessage_spec s) as Hs. rewrite E in Hs.
destruct (ProcessNextMessage _ _ _) as [ps r'] eqn:Em. destruct Hs as (Ew & Ec & Et & _).
split; [|done]. split; [|lia]. rewrite Ew. apply rtc_once. by eapply step_next.
Qed.

Lemma newContainer_goes s s' r : on_producer (newContainer p) s = (s', r) → goes s s' ∧ l_conns s' = l_conns s.
Proof.
unfold on_producer. destruct (newContainer p (producer_of (l_world s))) as [ps r'] eqn:E. intros [= <- <-].
split; [|done]. split; [|done]. apply rtc_once. by eapply step_new.
Qed.

Lemma messages_goes fuel s s' r : messages fuel s = Some (s', r) → goes s s' ∧ l_conns s' = l_conns s.
Proof.
revert s. induction fuel as [|fuel IH]; intros s E; [done|]. cbn [messages] in E.
destruct (is_stopped_goes s) as (Hg & Ht & Hc & Hr). destruct (is_stopped s) as [s1 r1]. cbn in *. subst r1.
destruct (stop (l_tick s)); [by injection E as <- <-|].
destruct (processNextMessage s1) as [s2 [[]|e]] eqn:Em; destruct (processNextMessage_goes _ _ _ Em) as [Hg2 Hc2].
- destruct (IH _ E) as [Hg3 Hc3]. split; [by repeat (etrans; [eassumption|])|congruence].
- injection E as <- <-. split; [by etrans|congruence].
Qed.

(** The connections of a run: one more only when its container is not made. *)
Definition lost (r : run) : nat := match r with NoContainer _ => 1 | _ => 0 end.
Definition kept (cs cs' : Conns) (n : nat) : Prop :=
conns_ok cs → conns_ok cs' ∧ c_open cs ⊆ c_open cs' ∧ size (c_open cs') = size (c_open cs) + n.

Lemma kept_refl cs : kept cs cs 0.
Proof. intros Hok. split_and!; [done|done|lia]. Qed.

Lemma kept_trans cs1 cs2 cs3 n m : kept cs1 cs2 n → kept cs2 cs3 m → kept cs1 cs3 (n + m).
Proof.
intros H12 H23 Hok. destruct (H12 Hok) as (Hok2 & Hs & Hn). destruct (H23 Hok2) as (? & ? & ?).
split_and!; [done|by etrans|lia].
Qed.

Lemma runProcessor_goes fuel s s' r : runProcessor fuel s = Some (s', r) →
goes s s' ∧ l_tick s < l_tick s' ∧ kept (l_conns s) (l_conns s') (lost r).
Proof.
intros E. unfold runProcessor in E.
destruct (is_stopped_goes s) as (Hg & Ht & Hc & Hr). destruct (is_stopped s) as [s1 r1]. cbn in *. subst r1.
destruct (stop (l_tick s)).
{ injection E as <- <-. rewrite Hc. split_and!; [done|lia|apply kept_refl]. }
destruct (on_conns open_conns s1) as [s2 rc] eqn:Eo. unfold on_conns in Eo.
destruct (open_conns (l_conns s1)) as [cs rc'] eqn:Eo'. injection Eo as <- <-.
assert (goes s1 (mkListener (l_world s1) cs (l_metrics s1) (l_tick s1))) as Hg1 by (by split).
rewrite Hc in Eo'. destruct rc' as [conns|e].
2: { injection E as <- <-. split_and!; [by etrans|cbn; lia|]. intros Hok.
   destruct (open_conns_spec _ _ _ Eo' Hok) as [? Ho]. cbn. rewrite Ho. split_and!; [done|done|lia]. }
assert (∀ cs', c_open cs' = c_open cs ∖ {[conns]} → c_next cs' = c_next cs → kept (l_conns s) cs' 0) as Hclose.
{ intros cs' Ho' Hn' Hok. destruct (open_conns_spec _ _ _ Eo' Hok) as [Hok1 [Ho Hni]].
assert (c_open cs' = c_open (l_conns s)) as E' by (rewrite Ho', Ho; clear -Hni; set_solver).
rewrite E'. split_and!; [|done|lia]. intros c Hc'. rewrite Hn'. apply Hok1. rewrite Ho, <-E'. set_solver. }
destruct (on_producer _ _) as [s2 [[]|e]] eqn:En; destruct (newContainer_goes _ _ _ En) as [Hg2 Hc2]; cbn in Hc2.
- destruct (messages fuel s2) as [[s3 r3]|] eqn:Em; [|done]. injection E as <- <-.
destruct (messages_goes _ _ _ _ Em) as [Hg3 Hc3]. split_and!.
+ repeat (etrans; [eassumption|]). by split.
+ destruct Hg1, Hg2, Hg3. cbn in *. lia.
+ cbn. rewrite Hc3, Hc2. by apply Hclose.
- injection E as <- <-. split_and!; [by repeat (etrans; [eassumption|])|destruct Hg1, Hg2; cbn in *; lia|].
rewrite Hc2. intros Hok. destruct (open_conns_spec _ _ _ Eo' Hok) as [Hok1 [Ho Hni]].
rewrite Ho, size_union, size_singleton by set_solver. split_and!; [done|set_solver|cbn; lia].
Qed.

Lemma Listen_goes fuel s s' runs : Listen fuel s = Some (s', runs) →
goes s s' ∧ kept (l_conns s) (l_conns s') (sum_list (map lost runs)).
Proof.
revert s runs. induction fuel as [|fuel IH]; intros s runs E; [done|]. cbn [Listen] in E.
destruct (is_stopped_goes s) as (Hg & Ht & Hc & Hr). destruct (is_stopped s) as [s1 r1]. cbn in *. subst r1.
destruct (stop (l_tick s)).
{ injection E as <- <-. rewrite Hc. split; [done|apply kept_refl]. }
destruct (runProcessor fuel s1) as [[s2 r2]|] eqn:Ep; [|done].
destruct (runProcessor_goes _ _ _ _ Ep) as (Hg2 & _ & Hk). rewrite Hc in Hk.
destruct (is_stopped_goes s2) as (Hg3 & _ & Hc3 & Hr3). destruct (is_stopped s2) as [s3 r3]. cbn in *. subst r3.
rewrite <-Hc3 in Hk. destruct (stop (l_tick s2)).
- injection E as <- <-. split; [by repeat (etrans; [eassumption|])|]. cbn. by rewrite Nat.add_0_r.
- destruct (Listen fuel s3) as [[s4 runs']|] eqn:El; [|done]. injection E as <- <-.
destruct (IH _ _ El) as [Hg4 Hk4]. split; [by repeat (etrans; [eassumption|])|]. cbn. by eapply kept_trans.
Qed.

(** The loops end once the producer is closed: [stop] is true from the [k]-th test on. *)
Context (k : nat) (closed : ∀ n, k ≤ n → stop n = true).

Lemma messages_ends fuel s : k - l_tick s < fuel → is_Some (messages fuel s).
Proof.
revert s. induction fuel as [|fuel IH]; intros s Hk; [lia|]. cbn [messages].
destruct (is_stopped_goes s) as (_ & Ht & _ & Hr). destruct (is_stopped s) as [s1 r1]. cbn in *. subst r1.
destruct (stop (l_tick s)) eqn:Es; [by eexists|].
destruct (processNextMessage s1) as [s2 [[]|e]] eqn:Em; [|by eexists].
destruct (processNextMessage_goes _ _ _ Em) as [[_ Hle] _]. apply IH.
destruct (decide (k ≤ l_tick s)) as [Hle'|]; [by rewrite closed in Es|lia].
Qed.

Lemma runProcessor_ends fuel s : k - l_tick s ≤ fuel → is_Some (runProcessor fuel s).
Proof.
intros Hk. unfold runProcessor.
destruct (is_stopped_goes s) as (_ & Ht & _ & Hr). destruct (is_stopped s) as [s1 r1]. cbn in *. subst r1.
destruct (stop (l_tick s)) eqn:Es; [by eexists|].
destruct (on_conns open_conns s1) as [s2 [conns|e]] eqn:Eo; [|by eexists].
destruct (on_producer _ _) as [s3 [[]|e]] eqn:En; [|by eexists].
destruct (newContainer_goes _ _ _ En) as [[_ Hle] _].
assert (l_tick s2 = l_tick s1) as Ht2. { unfold on_conns in Eo. destruct (open_conns _). by injection Eo as <- _. }
destruct (messages_ends fuel s3) as [[s4 r4] ->]; [|by eexists].
destruct (decide (k ≤ l_tick s)) as [Hle'|]; [by rewrite closed in Es|lia].
Qed.

Lemma Listen_ends fuel s : k - l_tick s < fuel → is_Some (Listen fuel s).
Proof.
revert s. induction fuel as [|fuel IH]; intros s Hk; [lia|]. cbn [Listen].
destruct (is_stopped_goes s) as (_ & Ht & _ & Hr). destruct (is_stopped s) as [s1 r1]. cbn in *. subst r1.
destruct (stop (l_tick s)) eqn:Es; [by eexists|].
assert (l_tick s < k). { destruct (decide (k ≤ l_tick s)) as [Hle'|]; [by rewrite closed in Es|lia]. }
destruct (runProcessor_ends fuel s1) as [[s2 r2] Ep]; [lia|]. rewrite Ep.
destruct (runProcessor_goes _ _ _ _ Ep) as ([_ Hle] & _ & _).
destruct (is_stopped_goes s2) as (_ & Ht3 & _ & Hr3). destruct (is_stopped s2) as [s3 r3]. cbn in *. subst r3.
destruct (stop (l_tick s2)); [by eexists|]. destruct (IH s3) as [[s4 runs] ->]; [lia|]. by eexists.
Qed.
End steps.
End listen.

(** C4. The producer of a chain, run to its end.  Whatever its node answers and whatever the
    rest of the program does in between, [Listen] returns once it is closed — [k] tests of
    [IsStopped] bound its fuel —; then every container below the index recorded for its
    topic is in the pool, marked as processed only if a processor has succeeded on it; and
    of the connections it opened, one is left for each run whose container was not made. *)
Theorem listen_delivers `{SqlEngine D} `{!SqlEngineOk D} `{!Dbr} `{!DbrOk} `{!AxiaIds} `{!Cfg}
    `{!AxiaAtomic} `{!AxiaAtomicOk} (pr : ProducerChain) (stop : nat → bool) (fetch : nat → Z → Z → result (list Container))
    (others : nat → world (D:=D) → world) (accepted : Z → Container) (fsm : gmap string ProcessorDB)
    (topicNames : list string) (d : D) cells (k fuel : nat) (s : listener (D:=D)) :
  let p := producer_container pr in
  (∀ t f, fsm !! t = Some f → framed f) → (∀ t, t ∈ topicNames → is_Some (fsm !! t)) → fresh p d →
  (∀ n, faithful accepted (fetch n)) → (∀ n w, steps p accepted fsm topicNames w (others n w)) →
  (∀ n, k ≤ n → stop n = true) → k - l_tick s < fuel →
  steps p accepted fsm topicNames (started d cells) (l_world s) → conns_ok (l_conns s) →
  ∃ s' runs, Listen pr stop fetch others fuel s = Some (s', runs) ∧
    (∀ r i, r ∈ rows (w_db (l_world s')) TableNodeIndex → my_index p r = true → (0 ≤ i < col_num r "idx")%Z →
     ∃ tp r', container_txPool p (accepted i) = Ok tp ∧ r' ∈ rows (w_db (l_world s')) TableTxPool ∧
       row_id r' (TxPool_ID tp) ∧ (row_processed r' → TxPool_ID tp ∈ w_done (l_world s'))) ∧
    c_open (l_conns s) ⊆ c_open (l_conns s') ∧
    size (c_open (l_conns s')) = size (c_open (l_conns s)) + sum_list (map lost runs).
Proof.
  intros p Hfr Htop Hd Hn Ho Hk Hfuel Hs Hc.
  destruct (Listen_ends pr stop fetch others accepted fsm topicNames Hn Ho k Hk fuel s Hfuel) as [[s' runs] E].
  destruct (Listen_goes pr stop fetch others accepted fsm topicNames Hn Ho _ _ _ _ E) as [[Hg _] Hkept].
  exists s', runs. split_and!; [done| |by apply Hkept..]. apply (inv_delivers p accepted fsm).
  refine (steps_inv p accepted fsm topicNames Hfr Htop _ _ _ (started_inv _ _ _ d cells Hd)). by etrans.
Qed.

(** * The counters *)

(** The counters of a producer: its own and those of the process. *)
Definition producer_keys (pr : ProducerChain) : list string :=
  [metricProcessedCountKey pr; metricSuccessCountKey pr; metricFailureCountKey pr;
   MetricProduceProcessedCountKey; MetricProduceSuccessCountKey; MetricProduceFailureCountKey].

Definition counting (m : Metrics) (pr : ProducerChain) : Prop :=
  NoDup (producer_keys pr) ∧ ∀ k, k ∈ producer_keys pr → is_Some (counters m !! k).

Lemma CounterInit_some name help m m' k : CounterInit name help m = Some m' →
  (k = name → is_Some (counters m' !! k)) ∧ (is_Some (counters m !! k) → is_Some (counters m' !! k)).
Proof.
  intros E. split; [intros ->; by eapply CounterInit_counter|].
  intros [c Hc]. eexists. by eapply CounterInit_kept.
Qed.

(** They are different, whatever the chain is called, and they are there once it is made. *)
Lemma NewProducerChain_counting networkID nodeInstance chainID eventType it ch m pr m' :
  NewProducerChain networkID nodeInstance chainID eventType it ch m = Some (pr, m') → counting m' pr.
Proof.
  unfold NewProducerChain, InitProduceMetrics. cbn [mbind option_bind].
  destruct (CounterInit _ _ m) as [m1|] eqn:E1; [|done]. cbn. destruct (CounterInit _ _ m1) as [m2|] eqn:E2; [|done].
  cbn. destruct (CounterInit _ _ m2) as [m3|] eqn:E3; [|done]. cbn. destruct (CounterInit _ _ m3) as [m4|] eqn:E4; [|done].
  cbn. destruct (CounterInit _ _ m4) as [m5|] eqn:E5; [|done]. cbn. destruct (CounterInit _ _ m5) as [m6|] eqn:E6; [|done].
  cbn. intros [= <- <-]. split.
  - unfold producer_keys. cbn. repeat (apply NoDup_cons; split; [rewrite ?elem_of_cons, elem_of_nil; intuition discriminate|]).
    constructor.
  - intros k Hk. unfold producer_keys in Hk. cbn in Hk. rewrite !elem_of_cons in Hk.
    apply (CounterInit_some _ _ _ _ k) in E1, E2, E3, E4, E5, E6. rewrite elem_of_nil in Hk. tauto.
Qed.

Section counters.
Context `{SqlEngine D} `{!Dbr} `{!AxiaIds} `{!Cfg} `{!AxiaAtomic} (pr : ProducerChain) (fetch : nat → Z → Z → result (list Container)).
Implicit Types s : listener (D:=D).

(** From [s] to [s'] each counter that is there grows by [f] of its name. *)
Definition adds (f : string → Z) s s' : Prop := grows f (l_metrics s) (l_metrics s').

(** The counters of the containers, of the successes and of the failures. *)
Definition processed (k : string) : Z := hits (metricProcessedCountKey pr) k + hits MetricProduceProcessedCountKey k.
Definition succeeded (k : string) : Z := hits (metricSuccessCountKey pr) k + hits MetricProduceSuccessCountKey k.
Definition failed (k : string) : Z := hits (metricFailureCountKey pr) k + hits MetricProduceFailureCountKey k.

Lemma adds_none f s s' : l_metrics s' = l_metrics s → (∀ k, f k = 0%Z) → adds f s s'.
Proof. unfold adds. intros ->. apply grows_refl. Qed.

Lemma adds_count key s : adds (hits key) s (count key s).1.
Proof. apply counted_grows. Qed.

Lemma on_producer_metrics {A} (m : M (producer_state D) A) s : l_metrics (on_producer m s).1 = l_metrics s.
Proof. unfold on_producer. by destruct (m _). Qed.

Lemma process_counted_adds c s s' r : process_counted pr c s = (s', r) →
adds (λ k, match r with Ok _ => processed k | Err _ => 0 end)%Z s s'.
Proof.
unfold process_counted. rewrite bind_run. pose proof (on_producer_metrics (process_container (producer_container pr) c) s) as Em.
destruct (on_producer _ s) as [s1 [[]|e]].
- intros [= <- <-]. eapply grows_ext; [|exact (grows_trans _ _ _ _ _ (adds_none (λ _, 0%Z) s s1 Em (λ _, eq_refl))
    (grows_trans _ _ _ _ _ (adds_count _ s1) (adds_count _ _)))]. intros k. cbn. unfold processed. lia.
- intros [= <- <-]. by apply adds_none.
Qed.

Lemma containers_adds cs s s' r : for_each cs (process_counted pr) s = (s', r) →
∃ n : nat, adds (λ k, Z.of_nat n * processed k)%Z s s' ∧ n ≤ length cs ∧ (r = Ok tt → n = length cs).
Proof.
revert s. induction cs as [|c cs IH]; intros s E; cbn [for_each] in E.
{ injection E as <- <-. exists 0. split_and!; [by apply adds_none|done|done]. }
rewrite bind_run in E. destruct (process_counted pr c s) as [s1 [[]|e]] eqn:Ec; apply process_counted_adds in Ec.
- apply IH in E as (n & Ha & Hn & Hr). exists (S n). split_and!; [|cbn; lia|intros Er; cbn; by rewrite Hr].
  eapply grows_ext; [|exact (grows_trans _ _ _ _ _ Ec Ha)]. intros k. cbn. lia.
- injection E as <- <-. exists 0. split_and!; [|cbn; lia|done]. eapply grows_ext; [|exact Ec]. intros k. cbn. lia.
Qed.

Lemma next_adds s s' r : ProcessNextMessage_counted pr fetch s = (s', r) →
∃ n : nat, adds (λ k, Z.of_nat n * processed k)%Z s s' ∧
  ∀ cs, fetch (l_tick s) (w_idx (l_world s)) MaxTxRead = Ok cs → n ≤ length cs ∧ (r = Ok tt → n = length cs).
Proof.
unfold ProcessNextMessage_counted. rewrite bind_run. cbn [on_producer gets]. cbn.
rewrite set_producer_same. replace (mkListener _ _ _ _) with s by (by destruct s).
rewrite bind_run. unfold gets. cbv beta iota.
destruct (fetch _ _ _) as [cs|err].
- destruct (length cs =? 0) eqn:El.
  { intros [= <- <-]. exists 0. split; [by apply adds_none|]. intros ? [= <-]. by split; [lia|]. }
  rewrite bind_run. destruct (for_each cs _ s) as [s1 r1] eqn:E1. apply containers_adds in E1 as (n & Ha & Hn & Hr).
  intros E. exists n. assert (l_metrics s' = l_metrics s1 ∧ (r = Ok tt → r1 = Ok tt)) as [Em Hr1].
  { destruct r1 as [[]|e]; [|by injection E as <- <-]. rewrite bind_run in E.
    pose proof (on_producer_metrics (lift_db (updateNodeIndex (mkNodeIndex (nodeinstance (producer_container pr))
      (topic (producer_container pr)) (u64_add (w_idx (l_world s)) (Z.of_nat (length cs)))))) s1) as Em.
    destruct (on_producer _ s1) as [s2 [[]|e]]; injection E as <- <-; by split. }
  split; [intros k; by rewrite Em, Ha|]. intros ? [= <-]. split; [done|]. intros Er. by apply Hr, Hr1.
- destruct (IndexNotReady err); intros [= <- <-]; exists 0; (split; [by apply adds_none|done]).
Qed.

(** A message is counted once: the containers that it put in the pool, then a success, or
  a failure that is reported, or neither when the node had nothing or could not answer. *)
Theorem message_counted s :
let '(s', r) := processNextMessage pr fetch s in
let outcome := (ProcessNextMessage (fetch (l_tick s)) (producer_container pr) (producer_of (l_world s))).2 in
∃ n : nat,
  adds (λ k, Z.of_nat n * processed k + match outcome with
        | Ok _ => succeeded k
        | Err e => match processNextMessage_error e with Some _ => if decide (e = "EOF") then 0 else failed k | None => 0 end
        end)%Z s s' ∧
  ∀ cs, fetch (l_tick s) (w_idx (l_world s)) MaxTxRead = Ok cs → n ≤ length cs ∧ (outcome = Ok tt → n = length cs).
Proof.
pose proof (tracks_next pr fetch s) as Ht. unfold processNextMessage, tracks in *. rewrite bind_run. unfold attempt.
destruct (ProcessNextMessage_counted pr fetch s) as [s1 r] eqn:E. destruct (ProcessNextMessage _ _ _) as [ps r'].
destruct Ht as (_ & <- & _). apply next_adds in E as (n & Ha & Hn). cbn [snd].
destruct r as [[]|e]; [|destruct (processNextMessage_error e) as [e'|]; [destruct (decide (e = "EOF"))|]];
  exists n; (split; [|done]);
  first [by eapply grows_ext; [|exact Ha]; intros k; cbn; lia
        |eapply grows_ext; [|exact (grows_trans _ _ _ _ _ Ha (grows_trans _ _ _ _ _ (adds_count _ s1) (adds_count _ _)))]; done].
Qed.
End counters.

(** * A producer whose first connection fails

    The node has two blocks.  The first statement fails, so that the first run makes no
    container; the second puts both blocks in the pool, a worker indexes one of them, and
    the producer is closed. *)
Module ListenSample.
Import Toy ToyDbr Sample ToyCodec.
Abbreviation made := (default (mkProducerChain "" "" "" "" "" Pipeline.p, Metrics_empty)
(NewProducerChain 1 "node" "P" EventTypeDecisions IndexTypeBlocks IndexCoreChain Metrics_empty)).
Abbreviation pr := (made.1).
Definition db : MemDb := faulty_db [Some "server has gone away"].
Definition s0 : listener (D:=MemDb) := mkListener (started db ∅) (mkConns ∅ 0 []) made.2 0.
Definition stop (n : nat) : bool := 7 <=? n.
Definition fetch (n : nat) : Z → Z → result (list Container) := Pipeline.fetch.
Definition others (n : nat) (w : world (D:=MemDb)) : world := if n =? 6 then Pipeline.work w else w.

Lemma others_step n w : steps (producer_container pr) Pipeline.accepted Pipeline.fsm Pipeline.topicNames w (others n w).
Proof. unfold others. destruct (n =? 6); [exact (Pipeline.work_steps w)|apply rtc_refl]. Qed.
Lemma no_blocks_yet : fresh (producer_container pr) db.
Proof. split; [apply empty_unique|]. split; [done|]. intros r Hr. by apply elem_of_nil in Hr. Qed.

Abbreviation listened := (Listen pr stop fetch others 8 s0).

Example two_runs : (λ x, (x.2, elements (c_open (l_conns x.1)),
  map (λ r, col_num r "processed") (rows (w_db (l_world x.1)) TableTxPool))) <$> listened =
Some ([NoContainer "server has gone away (node_index)"; Ran (Ok tt)], [0], [0; 1]%Z).
Proof. vm_compute. reflexivity. Qed.

Example two_counted : (λ x, map (λ k, counters (l_metrics x.1) !! k) (producer_keys pr)) <$> listened =
Some [Some 2; Some 1; Some 0; Some 2; Some 1; Some 0]%Z.
Proof. vm_compute. reflexivity. Qed.
End ListenSample.
Import Toy ToyDbr Sample ToyCodec ListenSample.

Lemma listen_delivers_witness : ∃ s' runs, listened = Some (s', runs) ∧
  size (c_open (l_conns s')) = 0 + sum_list (map lost runs) ∧
  ∀ r i, r ∈ rows (w_db (l_world s')) TableNodeIndex → my_index Pipeline.p r = true → (0 ≤ i < col_num r "idx")%Z →
    ∃ tp r', container_txPool Pipeline.p (Pipeline.accepted i) = Ok tp ∧ r' ∈ rows (w_db (l_world s')) TableTxPool ∧
      row_id r' (TxPool_ID tp) ∧ (row_processed r' → TxPool_ID tp ∈ w_done (l_world s')).
Proof.
  destruct (listen_delivers pr stop fetch others Pipeline.accepted Pipeline.fsm Pipeline.topicNames db ∅ 7 8 s0
    Pipeline.fsm_framed Pipeline.fsm_topics no_blocks_yet (λ _, Pipeline.fetch_faithful) others_step)
    as (s' & runs & E & Hd & _ & Hn).
  - intros n Hn. by apply Nat.leb_le.
  - vm_compute. lia.
  - apply rtc_refl.
  - intros c Hc. by apply not_elem_of_empty in Hc.
  - exists s', runs. exact (conj E (conj Hn Hd)).
Defined.
