(* ===== verification/ListenAx.v ===== *)
(** stream/producer_axchain.go: one run of the producer of the C chain, from its container
    to the last of its goroutines ([newContainerC], [runProcessor], [catchupBlock],
    [blockProcessor]), with the channels between them; then its runs, one after the other
    ([Listen]).

    The main goroutine, the catch-up and the workers are a transition system.  The blocks
    that a message sends are those of [ax_ProcessNextMessage] (StreamAx.v); what a worker
    does with a block is [blockProcessor_work] there and is one step here. *)

From S2P Require Import Prelude Errors Sql Stream StreamAx Metrics Wiring Listen.

(** * The producer and its counters *)
Record ProducerAX := mkProducerAX {
  pax_id : string;
  pax_chain : ProducerAXChain;             (* the network and the chain, which name the topics *)
  pax_Processed : string;
  pax_Success : string;
  pax_Failure : string;
}.

Definition NewProducerAXChain (networkID : Z) (AXchainID : string) (m : Metrics) : option (ProducerAX * Metrics) :=
  let p := {|
    pax_id := "producer " +:+ Z_to_string networkID +:+ " " +:+ AXchainID +:+ " axchain";
    pax_chain := mkProducerAXChain networkID AXchainID;
    pax_Processed := "produce_records_processed_" +:+ AXchainID +:+ "_axchain";
    pax_Success := "produce_records_success_" +:+ AXchainID +:+ "_axchain";
    pax_Failure := "produce_records_failure_" +:+ AXchainID +:+ "_axchain" |} in
  m ← CounterInit (pax_Processed p) "records processed" m;
  m ← CounterInit (pax_Success p) "records success" m;
  m ← CounterInit (pax_Failure p) "records failure" m;
  m ← InitProduceMetrics m;
  Some (p, m).

Definition ax_Success (p : ProducerAX) (m : Metrics) : Metrics := counted MetricProduceSuccessCountKey (counted (pax_Success p) m).
Definition ax_Failure (p : ProducerAX) (m : Metrics) : Metrics := counted MetricProduceFailureCountKey (counted (pax_Failure p) m).

(** What [processNextMessage] counts of a message and of the errors of the catch-up. *)
Definition ax_answer_counted (p : ProducerAX) (catchupErrs : option error) (r : result unit) (m : Metrics) : Metrics :=
  match catchupErrs, r with
  | Some err, _ => if AXChainNotReady err then m else ax_Failure p m
  | None, Ok _ => ax_Success p m
  | None, Err err =>
      if decide (err = "context deadline exceeded") then m
      else if decide (err = ErrNoMessage) then m
      else if decide (err = "EOF") then m
      else if AXChainNotReady err then m else ax_Failure p m
  end.

(** A message that ends the run is a failure, unless its error is the end of a file or, from
    the catch-up, a node that is not ready; one that went well, with no error of the catch-up,
    is a success; any other is not counted. *)
Lemma ax_message_counted p catchupErrs r m :
  grows (λ k, match ax_processNextMessage_error catchupErrs r with
    | Some e => if decide (e = "EOF" ∧ catchupErrs = None) then 0
                else if AXChainNotReady e then 0 else hits (pax_Failure p) k + hits MetricProduceFailureCountKey k
    | None => match r with Ok _ => hits (pax_Success p) k + hits MetricProduceSuccessCountKey k | Err _ => 0 end
    end)%Z m (ax_answer_counted p catchupErrs r m).
Proof.
  assert (grows (λ k, hits (pax_Failure p) k + hits MetricProduceFailureCountKey k)%Z m (ax_Failure p m)) as Hf.
  { eapply grows_trans; apply counted_grows. }
  assert (grows (λ _, 0%Z) m m) as H0 by by apply grows_refl.
  unfold ax_answer_counted, ax_processNextMessage_error. destruct catchupErrs as [e|].
  - eapply grows_ext; [|instantiate (1 := λ k, if AXChainNotReady e then 0%Z else (hits (pax_Failure p) k + hits MetricProduceFailureCountKey k)%Z)].
    + intros k. by rewrite decide_False by naive_solver.
    + by destruct (AXChainNotReady e).
  - destruct r as [u|e]; [eapply grows_trans; apply counted_grows|].
    destruct (decide (e = "context deadline exceeded")); [done|]. destruct (decide (e = ErrNoMessage)); [done|].
    destruct (decide (e = "EOF")) as [->|Hne]; [exact H0|]. destruct (AXChainNotReady e) eqn:En; [done|].
    eapply grows_ext; [|exact Hf]. intros k. rewrite decide_False by naive_solver. by rewrite En.
Qed.

(** * One run *)
Definition maxWorkerQueue : nat := Z.to_nat 4000.
Definition maxWorkers : nat := 8.

(** What a run holds: the connections to the database, and the clients of the node. *)
Record handles := mkHandles { h_db : Conns; h_rpc : Conns }.

Definition open_db : M handles nat := λ h, let '(cs, r) := open_conns (h_db h) in (mkHandles cs (h_rpc h), r).
Definition close_db (c : nat) (h : handles) : handles := mkHandles (close_conns c (h_db h)).1 (h_rpc h).
(** [modelsc.NewClient] and [client.Close] *)
Definition open_rpc : M handles nat := λ h, let '(cs, r) := open_conns (h_rpc h) in (mkHandles (h_db h) cs, r).
Definition close_rpc (c : nat) (h : handles) : handles := mkHandles (h_db h) (close_conns c (h_rpc h)).1.

(** [newContainerC]: its connection and its client, its block and the number of blocks;
    [answer] is that of [getBlock]. *)
Definition newContainerC (answer : result (Z * Z)) : M handles (nat * nat * Z * Z) :=
  conns ← open_db;
  match answer with
  | Err e => _ ← modify (close_db conns); throw e
  | Ok (block, blockCount) =>
      r ← attempt open_rpc;
      match r with
      | Err e => _ ← modify (close_db conns); throw e
      | Ok cl => mret (conns, cl, block, blockCount)
      end
  end.

(** The main goroutine. *)
Inductive main_state :=
| Starting (n : nat) (block : Z)                              (* [n] workers to start *)
| Looping (block : Z)                                         (* before a test of IsStopped *)
| Sending (blocks : list Z) (block : Z) (r : result unit)     (* in ProcessNextMessage *)
| Closing (r : result unit)                                   (* waits for the catch-up *)
| Draining (r : result unit)                                  (* waits for the workers *)
| Returned (r : result unit).

(** The catch-up, with its connection: before a test, or sending a block. *)
Inductive catchup_state :=
| NoCatchup
| Testing (todo : list Z) (conns : nat)
| Refilling (block : Z) (todo : list Z) (conns : nat).

Record ax_run := mkAxRun {
  a_handles : handles;
  a_pc : option (nat * nat);            (* pc: its connection and its client *)
  a_main : main_state;
  a_catchup : catchup_state;
  a_msgChan : list Z;
  a_workers : list (nat * nat);         (* each with its connection and its client *)
  a_stopped : bool;                     (* pc.runningControl is closed *)
  a_done : bool;                        (* pc.msgChanDone is closed *)
  a_leaving : list (nat * option nat);  (* what goroutines that are done with still hold *)
}.

(** The beginning of [runProcessor]; [missing] : the blocks that are not stored. *)
Definition ax_start (answer : result (Z * Z)) (missing : list Z) (h : handles) : ax_run :=
  match newContainerC answer h with
  | (h, Err e) => mkAxRun h None (Returned (Err e)) NoCatchup [] [] false false []
  | (h, Ok (conns, cl, block, blockCount)) =>
      match needs_catchup block blockCount with
      | None => mkAxRun h (Some (conns, cl)) (Starting maxWorkers block) NoCatchup [] [] false false []
      | Some _ =>
          match open_db h with
          | (h, Err e) => mkAxRun h (Some (conns, cl)) (Closing (Err e)) NoCatchup [] [] true false []
          | (h, Ok conns1) =>
              mkAxRun h (Some (conns, cl)) (Starting maxWorkers block) (Testing missing conns1) [] [] false false []
          end
      end
  end.

(** The deferred function begins. *)
Definition ending (r : result unit) (s : ax_run) : ax_run :=
  mkAxRun (a_handles s) (a_pc s) (Closing r) (a_catchup s) (a_msgChan s) (a_workers s) true (a_done s) (a_leaving s).
Definition at_main (m : main_state) (s : ax_run) : ax_run :=
  mkAxRun (a_handles s) (a_pc s) m (a_catchup s) (a_msgChan s) (a_workers s) (a_stopped s) (a_done s) (a_leaving s).
Definition with_handles (h : handles) (s : ax_run) : ax_run :=
  mkAxRun h (a_pc s) (a_main s) (a_catchup s) (a_msgChan s) (a_workers s) (a_stopped s) (a_done s) (a_leaving s).
Definition with_workers (l : list (nat * nat)) (s : ax_run) : ax_run :=
  mkAxRun (a_handles s) (a_pc s) (a_main s) (a_catchup s) (a_msgChan s) l (a_stopped s) (a_done s) (a_leaving s).
Definition with_channel (l : list Z) (s : ax_run) : ax_run :=
  mkAxRun (a_handles s) (a_pc s) (a_main s) (a_catchup s) l (a_workers s) (a_stopped s) (a_done s) (a_leaving s).
Definition with_catchup (c : catchup_state) (s : ax_run) : ax_run :=
  mkAxRun (a_handles s) (a_pc s) (a_main s) c (a_msgChan s) (a_workers s) (a_stopped s) (a_done s) (a_leaving s).

(** The main goroutine starts a worker; a client that has no connection is closed. *)
Definition start_worker (n : nat) (block : Z) (s : ax_run) : ax_run :=
  match open_rpc (a_handles s) with
  | (h, Err e) => ending (Err e) (with_handles h s)
  | (h, Ok cl) =>
      match open_db h with
      | (h, Err e) => ending (Err e) (with_handles (close_rpc cl h) s)
      | (h, Ok conns1) => at_main (Starting n block) (with_workers (a_workers s ++ [(conns1, cl)]) (with_handles h s))
      end
  end.

(** [pc.Close] *)
Definition pc_Close (s : ax_run) : ax_run :=
  match a_pc s with
  | Some (conns, cl) =>
      mkAxRun (close_db conns (close_rpc cl (a_handles s))) None (a_main s) (a_catchup s) (a_msgChan s) (a_workers s)
        (a_stopped s) (a_done s) (a_leaving s)
  | None => s
  end.

(** The catch-up and a worker are done, and have still to close what they hold. *)
Definition with_leaving (l : list (nat * option nat)) (s : ax_run) : ax_run :=
  mkAxRun (a_handles s) (a_pc s) (a_main s) (a_catchup s) (a_msgChan s) (a_workers s) (a_stopped s) (a_done s) l.
Definition end_catchup (conns : nat) (s : ax_run) : ax_run :=
  with_leaving ((conns, None) :: a_leaving s) (with_catchup NoCatchup s).
Definition end_worker (l1 : list (nat * nat)) (conns cl : nat) (l2 : list (nat * nat)) (s : ax_run) : ax_run :=
  with_leaving ((conns, Some cl) :: a_leaving s) (with_workers (l1 ++ l2) s).
Definition close_left (conns : nat) (cl : option nat) (h : handles) : handles :=
  match cl with Some cl => close_rpc cl (close_db conns h) | None => close_db conns h end.

Inductive ax_step : ax_run → ax_run → Prop :=
| main_worker s n block : a_main s = Starting (S n) block → ax_step s (start_worker n block s)
| main_started s block : a_main s = Starting 0 block → ax_step s (at_main (Looping block) s)
(* a message: whatever the node and the errors are *)
| main_message s block check latest errs sent block' r :
    a_main s = Looping block → ax_ProcessNextMessage check latest errs block = (sent, block', r) →
    ax_step s (at_main (Sending sent block' r) s)
| main_send s b blocks block r :
    a_main s = Sending (b :: blocks) block r → length (a_msgChan s) < maxWorkerQueue →
    ax_step s (at_main (Sending blocks block r) (with_channel (a_msgChan s ++ [b]) s))
(* its answer, with the errors of the catch-up *)
| main_answer s block r catchupErrs : a_main s = Sending [] block r →
    ax_step s (match ax_processNextMessage_error catchupErrs r with
               | None => at_main (Looping block) s
               | Some e => ending (Err e) s
               end)
(* the producer is closed *)
| main_stop s block : a_main s = Looping block → ax_step s (ending (Ok tt) s)
(* the deferred function *)
| main_wait s r : a_main s = Closing r → a_catchup s = NoCatchup →
    ax_step s (mkAxRun (a_handles s) (a_pc s) (Draining r) NoCatchup (a_msgChan s) (a_workers s) (a_stopped s) true (a_leaving s))
| main_return s r : a_main s = Draining r → a_workers s = [] → ax_step s (pc_Close (at_main (Returned r) s))
(* the catch-up: it sends a block unless it is stopped; it returns at the end, when it is
   stopped, when its query fails, or when a block failed *)
| catchup_test s b todo conns : a_catchup s = Testing (b :: todo) conns → a_stopped s = false →
    ax_step s (with_catchup (Refilling b todo conns) s)
| catchup_send s b todo conns : a_catchup s = Refilling b todo conns → length (a_msgChan s) < maxWorkerQueue →
    ax_step s (with_catchup (Testing todo conns) (with_channel (a_msgChan s ++ [b]) s))
| catchup_return s todo conns : a_catchup s = Testing todo conns → ax_step s (end_catchup conns s)
(* a worker takes a block, or returns *)
| worker_take s b q : a_workers s ≠ [] → a_msgChan s = b :: q → ax_step s (with_channel q s)
| worker_return s l1 conns cl l2 : a_workers s = l1 ++ (conns, cl) :: l2 → a_done s = true →
    ax_step s (end_worker l1 conns cl l2 s)
(* and closes what it holds *)
| left_close s l1 conns cl l2 : a_leaving s = l1 ++ (conns, cl) :: l2 →
    ax_step s (with_leaving (l1 ++ l2) (with_handles (close_left conns cl (a_handles s)) s)).

(** * The invariant *)
Definition held_db (s : ax_run) : list nat :=
  option_list (fst <$> a_pc s) ++ match a_catchup s with NoCatchup => [] | Testing _ c | Refilling _ _ c => [c] end ++
  map fst (a_workers s) ++ map fst (a_leaving s).
Definition held_rpc (s : ax_run) : list nat :=
  option_list (snd <$> a_pc s) ++ map snd (a_workers s) ++ omap snd (a_leaving s).

(** What is open is in the two lists, or in [base]. *)
Definition h_owns (base : handles) (l1 l2 : list nat) (h : handles) : Prop :=
  (owns (c_open (h_db base)) l1 (h_db h) ∧ conns_ok (h_db h)) ∧ owns (c_open (h_rpc base)) l2 (h_rpc h) ∧ conns_ok (h_rpc h).

(** The goroutines hold what is open, besides [base]. *)
Definition a_owns (base : handles) (s : ax_run) : Prop := h_owns base (held_db s) (held_rpc s) (a_handles s).

Definition phase (s : ax_run) : Prop :=
  match a_main s with
  | Starting n _ => a_stopped s = false ∧ a_done s = false ∧ length (a_workers s) + n = maxWorkers ∧ is_Some (a_pc s)
  | Looping _ | Sending _ _ _ => a_stopped s = false ∧ a_done s = false ∧ length (a_workers s) = maxWorkers ∧ is_Some (a_pc s)
  | Closing _ => a_stopped s = true ∧ a_done s = false ∧ is_Some (a_pc s)
  | Draining _ => a_stopped s = true ∧ a_done s = true ∧ a_catchup s = NoCatchup ∧ is_Some (a_pc s)
  | Returned _ => a_catchup s = NoCatchup ∧ a_workers s = [] ∧ a_pc s = None
  end ∧ length (a_msgChan s) ≤ maxWorkerQueue.


Section handles.
Context (base : handles).

Lemma h_owns_perm l1 l2 l1' l2' h : h_owns base l1 l2 h → l1 ≡ₚ l1' → l2 ≡ₚ l2' → h_owns base l1' l2' h.
Proof. intros [[H1 ?] [H2 ?]] E1 E2. split; (split; [by eapply owns_perm|done]). Qed.

Lemma h_open_db l1 l2 h h' r : open_db h = (h', r) → h_owns base l1 l2 h →
match r with Ok c => h_owns base (c :: l1) l2 h' | Err _ => h_owns base l1 l2 h' end.
Proof.
unfold open_db. destruct (open_conns (h_db h)) as [cs rc] eqn:E. intros [= <- <-] [[H1 Hok1] H2]. destruct rc as [c|e].
- split; [by eapply owns_open|done].
- split; [by eapply owns_failed|done].
Qed.

Lemma h_open_rpc l1 l2 h h' r : open_rpc h = (h', r) → h_owns base l1 l2 h →
match r with Ok c => h_owns base l1 (c :: l2) h' | Err _ => h_owns base l1 l2 h' end.
Proof.
unfold open_rpc. destruct (open_conns (h_rpc h)) as [cs rc] eqn:E. intros [= <- <-] [H1 [H2 Hok2]]. destruct rc as [c|e].
- split; [done|by eapply owns_open].
- split; [done|by eapply owns_failed].
Qed.

Lemma h_close_db l1 l1' l2 c h : h_owns base l1 l2 h → l1 ≡ₚ c :: l1' → h_owns base l1' l2 (close_db c h).
Proof.
intros [[H1 Hok1] H2] E. split; [|done]. apply (owns_close _ [] c l1'); [done|]. by eapply owns_perm.
Qed.

Lemma h_close_rpc l1 l2 l2' c h : h_owns base l1 l2 h → l2 ≡ₚ c :: l2' → h_owns base l1 l2' (close_rpc c h).
Proof.
intros [H1 [H2 Hok2]] E. split; [done|]. apply (owns_close _ [] c l2'); [done|]. by eapply owns_perm.
Qed.

(** Two handles to open. *)
Lemma start_worker_inv n block s : a_main s = Starting (S n) block → a_owns base s → phase s →
a_owns base (start_worker n block s) ∧ phase (start_worker n block s).
Proof.
intros Em Ho [Hp Hq]. rewrite Em in Hp. destruct Hp as (Hs & Hd & Hl & Hpc). unfold start_worker.
destruct (open_rpc (a_handles s)) as [h [cl|e]] eqn:E1; pose proof (h_open_rpc _ _ _ _ _ E1 Ho) as H1; cbn in H1.
2: { by split. }
destruct (open_db h) as [h' [c|e]] eqn:E2; pose proof (h_open_db _ _ _ _ _ E2 H1) as H2; cbn in H2.
- split.
  + eapply h_owns_perm; [exact H2| |]; unfold held_db, held_rpc; cbn; rewrite ?map_app; cbn.
    * rewrite <-!app_assoc. cbn. by rewrite !Permutation_middle.
    * rewrite <-!app_assoc. cbn. by rewrite !Permutation_middle.
  + split; [|done]. cbn. rewrite length_app. cbn. split_and!; [done..|lia|done].
- split; [|by split]. by eapply h_close_rpc.
Qed.

Lemma pc_Close_inv s r : a_main s = Draining r → a_workers s = [] → a_owns base s → phase s →
a_owns base (pc_Close (at_main (Returned r) s)) ∧ phase (pc_Close (at_main (Returned r) s)).
Proof.
intros Em Ew Ho [Hp Hq]. rewrite Em in Hp. destruct Hp as (Hs & Hd & Hc & [[c cl] Hpc]).
unfold pc_Close. cbn. rewrite Hpc. split; [|by split].
eapply h_close_db; [eapply h_close_rpc; [exact Ho|]|]; unfold held_db, held_rpc; by rewrite Hpc.
Qed.

(** The catch-up goes on as long as the main goroutine has not waited for it. *)
Lemma catchup_phase c s : a_catchup s ≠ NoCatchup → phase s → phase (with_catchup c s).
Proof. intros Hc [Hp Hq]. split; [|done]. cbn. destruct (a_main s); try done; by destruct Hp as (? & ? & ? & ?) || by destruct Hp. Qed.

Lemma ax_step_inv s s' : ax_step s s' → a_owns base s → phase s → a_owns base s' ∧ phase s'.
Proof.
intros Hst Ho Hp. destruct Hst as [s n block Em|s block Em|s block check latest errs sent block' r Em _|s b blocks block r Em Hlen|
  s block r ce Em|s block Em|s r Em Ec|s r Em Ew|s b todo c Ec Es|s b todo c Ec Hlen|s todo c Ec|s b q Hw Eq|s l1 c cl l2 Ew Ed|
  s l1 c cl l2 El].
- by apply (start_worker_inv n block).
- split; [exact Ho|]. destruct Hp as [Hp Hq]. rewrite Em in Hp. split; [|done]. cbn. destruct Hp as (? & ? & Hl & ?).
  split_and!; [done..|lia|done].
- split; [exact Ho|]. destruct Hp as [Hp Hq]. rewrite Em in Hp. by split.
- split; [exact Ho|]. destruct Hp as [Hp Hq]. rewrite Em in Hp. split; [done|]. cbn. rewrite length_app. cbn. lia.
- destruct Hp as [Hp Hq]. rewrite Em in Hp. destruct Hp as (? & ? & ? & ?).
  destruct (ax_processNextMessage_error ce r); (split; [exact Ho|by split]).
- destruct Hp as [Hp Hq]. rewrite Em in Hp. destruct Hp as (? & ? & ? & ?). split; [exact Ho|by split].
- destruct Hp as [Hp Hq]. rewrite Em in Hp. destruct Hp as (? & ? & ?). split; [|by split].
  unfold a_owns, held_db, held_rpc in *. cbn. by rewrite Ec in Ho.
- by apply pc_Close_inv.
- split; [|by apply catchup_phase; [rewrite Ec|]]. unfold a_owns, held_db, held_rpc in *. cbn. by rewrite Ec in Ho.
- split.
  + unfold a_owns, held_db, held_rpc in *. cbn. by rewrite Ec in Ho.
  + destruct (catchup_phase (Testing todo c) s) as [Hp' _]; [by rewrite Ec|done|]. split; [exact Hp'|]. cbn. rewrite length_app. cbn. lia.
- split; [|by apply (catchup_phase NoCatchup s); [rewrite Ec|]]. eapply h_owns_perm; [exact Ho| |]; unfold held_db, held_rpc; cbn; [|done].
  rewrite Ec. cbn. solve_Permutation.
- split; [exact Ho|]. destruct Hp as [Hp Hq]. split; [exact Hp|]. cbn. rewrite Eq in Hq. cbn in Hq. lia.
- split.
  + eapply h_owns_perm; [exact Ho| |]; unfold held_db, held_rpc; cbn; rewrite Ew, !map_app; cbn; f_equiv; [f_equiv|];
      cbn; solve_Permutation.
  + destruct Hp as [Hp Hq]. split; [|done]. cbn. destruct (a_main s); try (by destruct Hp as (_ & ? & _); congruence); [done|].
    destruct Hp as (_ & ? & _). rewrite Ew in *. by destruct l1.
- split; [|exact Hp]. unfold close_left.
  assert (held_db s ≡ₚ c :: held_db (with_leaving (l1 ++ l2) s)) as Hdb.
  { unfold held_db. cbn. rewrite El, !map_app. cbn. solve_Permutation. }
  destruct cl as [cl|].
  + eapply h_close_rpc; [eapply h_close_db; [exact Ho|exact Hdb]|]. unfold held_rpc. cbn. rewrite El, !omap_app. cbn.
    solve_Permutation.
  + eapply h_owns_perm; [eapply h_close_db; [exact Ho|exact Hdb]|done|]. unfold held_rpc. cbn. rewrite El, !omap_app. done.
Qed.

(** The beginning of a run, whatever fails in it. *)
Lemma ax_start_inv answer missing : conns_ok (h_db base) → conns_ok (h_rpc base) →
a_owns base (ax_start answer missing base) ∧ phase (ax_start answer missing base).
Proof.
intros Hok1 Hok2. assert (h_owns base [] [] base) as H0.
{ split; (split; [by apply owns_none|done]). }
assert (∀ h e, h_owns base [] [] h → let s := mkAxRun h None (Returned (Err e)) NoCatchup [] [] false false [] in
  a_owns base s ∧ phase s) as Hret.
{ intros h e Hh. split; [exact Hh|]. split; [done|cbn; lia]. }
unfold ax_start, newContainerC. rewrite bind_run.
destruct (open_db base) as [h1 [c|e]] eqn:E1; pose proof (h_open_db _ _ _ _ _ E1 H0) as H1; cbn in H1; [|by apply Hret].
destruct answer as [[block blockCount]|e].
2: { cbn. apply Hret. by eapply h_close_db. }
rewrite bind_run. unfold attempt. destruct (open_rpc h1) as [h2 [cl|e]] eqn:E2;
  pose proof (h_open_rpc _ _ _ _ _ E2 H1) as H2; cbn in H2.
2: { cbn. apply Hret. by eapply h_close_db. }
cbn. destruct (needs_catchup block blockCount) as [n|].
2: { split; [exact H2|]. split; [|cbn; lia]. by split_and!. }
destruct (open_db h2) as [h3 [c1|e]] eqn:E3; pose proof (h_open_db _ _ _ _ _ E3 H2) as H3; cbn in H3.
- split; [|split; [by split_and!|cbn; lia]]. eapply h_owns_perm; [exact H3| |done]. cbn. solve_Permutation.
- split; [exact H3|]. split; [by split_and!|cbn; lia].
Qed.
End handles.

(** * Progress *)

(** The run is over when the main goroutine has returned and all is closed. *)
Definition over (s : ax_run) : Prop := (∃ r, a_main s = Returned r) ∧ a_leaving s = [].

(** The main goroutine waits for the catch-up, which waits for room in the channel, which
    no worker empties. *)
Definition hung (s : ax_run) : Prop :=
  (∃ r, a_main s = Closing r) ∧ a_workers s = [] ∧ length (a_msgChan s) = maxWorkerQueue ∧
  ∃ b todo c, a_catchup s = Refilling b todo c.

Lemma over_released base s : a_owns base s → phase s → over s →
  c_open (h_db (a_handles s)) = c_open (h_db base) ∧ c_open (h_rpc (a_handles s)) = c_open (h_rpc base).
Proof.
  intros [[H1 _] [H2 _]] [Hp _] [[r Er] El]. rewrite Er in Hp. destruct Hp as (Hc & Hw & Hpc).
  unfold held_db in H1. unfold held_rpc in H2. rewrite Hc, Hw, Hpc, El in H1. rewrite Hw, Hpc, El in H2.
  split; by apply owns_none.
Qed.

(** No state is stuck but the two. *)
Lemma ax_progress s : phase s → over s ∨ hung s ∨ ∃ s', ax_step s s'.
Proof.
  intros [Hp Hq]. destruct (a_leaving s) as [|[c cl] l] eqn:El.
  2: { right. right. eexists. by apply (left_close s [] c cl l). }
  assert (length (a_msgChan s) < maxWorkerQueue ∨ length (a_msgChan s) = maxWorkerQueue) as Hlen by lia.
  assert (∀ q, q = a_msgChan s → length q = maxWorkerQueue → a_workers s ≠ [] → ∃ s', ax_step s s') as Htake.
  { intros [|b q] E Hl Hw; [done|]. eexists. by apply (worker_take s b q). }
  destruct (a_main s) as [[|n] block|block|[|b blocks] block r|r|r|r] eqn:Em.
  - right. right. eexists. by apply main_started.
  - right. right. eexists. by eapply main_worker.
  - right. right. eexists. by eapply main_stop.
  - right. right. eexists. by eapply (main_answer _ _ _ None).
  - right. right. destruct Hp as (_ & _ & Hw & _). destruct Hlen as [Hlen|Hlen].
    + eexists. by eapply main_send.
    + apply (Htake _ eq_refl Hlen). intros E. by rewrite E in Hw.
  - right. destruct (a_catchup s) as [|todo c|b todo c] eqn:Ec.
    + right. eexists. by eapply main_wait.
    + right. eexists. by eapply catchup_return.
    + destruct Hlen as [Hlen|Hlen]; [right; eexists; by eapply catchup_send|].
      destruct (decide (a_workers s = [])) as [Ew|Ew]; [|right; by apply (Htake _ eq_refl)].
      left. split_and!; eauto.
  - right. right. destruct Hp as (_ & Hd & _). destruct (a_workers s) as [|[c cl] l] eqn:Ew.
    + eexists. by eapply main_return.
    + eexists. by apply (worker_return s [] c cl l).
  - left. split; [by eexists|done].
Qed.

(** Once [pc] is stopped, every step leaves less to do. *)
Definition left_to_do (s : ax_run) : nat :=
  match a_main s with Closing _ => 2 | Draining _ => 1 | _ => 0 end +
  match a_catchup s with NoCatchup => 0 | Testing _ _ => 2 | Refilling _ _ _ => 4 end +
  length (a_msgChan s) + 2 * length (a_workers s) + length (a_leaving s).

Lemma ending_decreases s s' : ax_step s s' → a_stopped s = true → phase s → a_stopped s' = true ∧ left_to_do s' < left_to_do s.
Proof.
  intros Hst Hs [Hp _]. destruct Hst as [s n block Em|s block Em|s block check latest errs sent block' r Em _|s b blocks block r Em Hlen|
    s block r ce Em|s block Em|s r Em Ec|s r Em Ew|s b todo c Ec Es|s b todo c Ec Hlen|s todo c Ec|s b q Hw Eq|s l1 c cl l2 Ew Ed|
    s l1 c cl l2 El]; rewrite ?Em in Hp; try (destruct Hp as (? & _); congruence); unfold left_to_do; cbn.
  - split; [done|]. rewrite Em, Ec. lia.
  - unfold pc_Close. cbn. destruct (a_pc s) as [[c cl]|]; cbn; rewrite Em; (split; [done|lia]).
  - congruence.
  - split; [done|]. rewrite Ec, length_app. cbn. lia.
  - split; [done|]. rewrite Ec. lia.
  - split; [done|]. rewrite Eq. cbn. lia.
  - split; [done|]. rewrite Ew, !length_app. cbn. lia.
  - split; [done|]. rewrite El, !length_app. cbn. lia.
Qed.

(** A run that is not hung will not hang while it ends. *)
Definition can_end (s : ax_run) : Prop := a_workers s ≠ [] ∨ a_catchup s = NoCatchup.

Lemma can_end_step s s' : ax_step s s' → a_stopped s = true → phase s → can_end s → can_end s'.
Proof.
  intros Hst Hs [Hp _] Hc. unfold can_end in *.
  destruct Hst as [s n block Em|s block Em|s block check latest errs sent block' r Em _|s b blocks block r Em Hlen|
    s block r ce Em|s block Em|s r Em Ec|s r Em Ew|s b todo c Ec Es|s b todo c Ec Hlen|s todo c Ec|s b q Hw Eq|s l1 c cl l2 Ew Ed|
    s l1 c cl l2 El]; rewrite ?Em in Hp; try (destruct Hp as (? & _); congruence); cbn; try (by auto).
  - right. unfold pc_Close. cbn. destruct Hp as (_ & _ & ? & _). by destruct (a_pc s) as [[c cl]|].
  - rewrite Ec in Hc. left. by destruct Hc.
  - rewrite Ec in Hc. left. by destruct Hc.
  - right. destruct (a_main s); try (by destruct Hp as (_ & ? & _); congruence); by destruct Hp as (? & ? & ? & ?) || by destruct Hp.
Qed.

Lemma ending_bounded s : a_stopped s = true → phase s → (∃ base, a_owns base s) → ∀ n s', nsteps ax_step n s s' → n ≤ left_to_do s.
Proof.
  intros Hs Hp [base Ho] n s' Hn. induction Hn as [s|n s s1 s' Hst _ IH]; [lia|].
  destruct (ending_decreases _ _ Hst Hs Hp) as [Hs1 Hlt]. destruct (ax_step_inv base _ _ Hst Ho Hp) as [Ho1 Hp1].
  specialize (IH Hs1 Hp1 Ho1). lia.
Qed.

Lemma can_end_ends base s : a_stopped s = true → a_owns base s → phase s → can_end s → ∃ s', rtc ax_step s s' ∧ over s'.
Proof.
  remember (left_to_do s) as n eqn:En. revert s En. induction n as [n IH] using lt_wf_ind. intros s -> Hs Ho Hp Hc.
  destruct (ax_progress s Hp) as [Hov|[((r & Er) & Hw & _ & b & todo & c & Ec)|[s1 Hst]]]; [by exists s| |].
  - destruct Hc as [?|?]; congruence.
  - destruct (ending_decreases _ _ Hst Hs Hp) as [Hs1 Hlt]. destruct (ax_step_inv base _ _ Hst Ho Hp) as [Ho1 Hp1].
    destruct (IH _ Hlt s1 eq_refl Hs1 Ho1 Hp1 (can_end_step _ _ Hst Hs Hp Hc)) as (s' & Hr & Hov).
    exists s'. split; [by eapply rtc_l|done].
Qed.

(** C29. A run of the producer of the C chain.  Whatever fails and in whatever order its goroutines
    go: no state is stuck, but the one in which the main goroutine waits for the catch-up with
    no worker; once the end has begun it takes a bounded number of steps, and if a worker was
    started, or there is no catch-up, it leads to the return of all goroutines; then the
    connections and the clients that are open are those of before. *)
Theorem ax_run_ends base answer missing s : conns_ok (h_db base) → conns_ok (h_rpc base) →
  rtc ax_step (ax_start answer missing base) s →
  (over s ∨ hung s ∨ ∃ s', ax_step s s') ∧
  (over s → c_open (h_db (a_handles s)) = c_open (h_db base) ∧ c_open (h_rpc (a_handles s)) = c_open (h_rpc base)) ∧
  (a_stopped s = true → (∀ n s', nsteps ax_step n s s' → n ≤ left_to_do s) ∧
     (a_workers s ≠ [] ∨ a_catchup s = NoCatchup → ∃ s', rtc ax_step s s' ∧ over s')).
Proof.
  intros Hok1 Hok2 Hr. assert (a_owns base s ∧ phase s) as [Ho Hp].
  { destruct (ax_start_inv base answer missing Hok1 Hok2) as [Ho Hp]. revert Ho Hp.
    induction Hr as [|s0 s1 s Hst _ IH]; [done|]. intros Ho Hp. by apply IH; eapply ax_step_inv. }
  split_and!; [by apply ax_progress|by apply over_released|]. intros Hs. split; [by eapply ending_bounded; eauto|].
  by apply (can_end_ends base).
Qed.

(** * The run that hangs *)
Lemma hung_stuck s s' : hung s → a_leaving s = [] → phase s → ¬ ax_step s s'.
Proof.
  intros ((r0 & E0) & Hw & Hq & b0 & todo0 & c0 & Ec0) Hl [Hp _] Hst. rewrite E0 in Hp. destruct Hp as (_ & Hd & _).
  destruct Hst as [s n block Em|s block Em|s block check latest errs sent block' r Em _|s b blocks block r Em Hlen|
    s block r ce Em|s block Em|s r Em Ec|s r Em Ew|s b todo c Ec Es|s b todo c Ec Hlen|s todo c Ec|s b q Hw' Eq|s l1 c cl l2 Ew Ed|
    s l1 c cl l2 El]; try congruence; try lia. rewrite Hl in El. by destruct l1.
Qed.

(** The catch-up fills the channel. *)
Lemma catchup_fills l1 l2 c s : a_catchup s = Testing (l1 ++ l2) c → a_stopped s = false →
  length (a_msgChan s) + length l1 ≤ maxWorkerQueue →
  ∃ s', rtc ax_step s s' ∧ s' = with_catchup (Testing l2 c) (with_channel (a_msgChan s ++ l1) s).
Proof.
  revert s. induction l1 as [|b l1 IH]; intros s Ec Hs Hlen; cbn in Ec, Hlen.
  { exists s. split; [done|]. rewrite app_nil_r. destruct s. cbn in *. by subst. }
  set (s1 := with_catchup (Refilling b (l1 ++ l2) c) s).
  set (s2 := with_catchup (Testing (l1 ++ l2) c) (with_channel (a_msgChan s1 ++ [b]) s1)).
  destruct (IH s2) as (s' & Hr & ->); [done|done|cbn; rewrite length_app; cbn; lia|].
  eexists. split; [eapply rtc_l; [by eapply catchup_test|]; eapply rtc_l; [|exact Hr]|].
  - apply (catchup_send s1 b (l1 ++ l2) c); [done|]. cbn. lia.
  - unfold s2, s1. cbn. by rewrite <-app_assoc.
Qed.

(** When more blocks are missing than the channel holds and the first worker cannot be started,
    the run can reach a state from which nothing goes on: it never returns. *)
Theorem ax_run_hangs missing : maxWorkerQueue < length missing →
  let base := mkHandles (mkConns ∅ 0 []) (mkConns ∅ 0 [None; Some "connection refused"]) in
  ∃ s, rtc ax_step (ax_start (Ok (4000, 0)%Z) missing base) s ∧ hung s ∧ ∀ s', ¬ ax_step s s'.
Proof.
  intros Hm base. assert (conns_ok (mkConns ∅ 0 []) ∧ conns_ok (mkConns ∅ 0 [None; Some "connection refused"])) as [Hok1 Hok2].
  { by split; intros c Hc; apply not_elem_of_empty in Hc. }
  rewrite <-(take_drop maxWorkerQueue missing) in *.
  assert (length (take maxWorkerQueue missing) = maxWorkerQueue) as Hl.
  { rewrite length_take. rewrite take_drop in Hm. lia. }
  destruct (drop maxWorkerQueue missing) as [|b todo] eqn:Ed.
  { rewrite length_app, Hl in Hm. cbn [length] in Hm. lia. }
  set (s0 := ax_start _ _ base). pose proof (ax_start_inv base (Ok (4000, 0)%Z) (take maxWorkerQueue missing ++ b :: todo) Hok1 Hok2) as [Ho Hp].
  fold s0 in Ho, Hp. destruct (catchup_fills (take maxWorkerQueue missing) (b :: todo) 1 s0) as (s1 & Hr1 & E1); [done|done|by rewrite Hl|].
  set (s2 := with_catchup (Refilling b todo 1) s1).
  assert (ax_step s1 s2) as Hs2 by (by eapply catchup_test; rewrite E1).
  assert (ax_step s2 (start_worker 7 4000 s2)) as Hs3 by (apply main_worker; unfold s2; by rewrite E1).
  assert (rtc ax_step s0 (start_worker 7 4000 s2)) as Hr by (etrans; [exact Hr1|]; eapply rtc_l; [exact Hs2|by apply rtc_once]).
  assert (hung (start_worker 7 4000 s2) ∧ a_leaving (start_worker 7 4000 s2) = []) as [Hh Hlv].
  { unfold s2. rewrite E1. split; [|done]. split_and!; [by eexists|done| |by eexists _, _, _]. exact Hl. }
  exists (start_worker 7 4000 s2). split_and!; [done|done|]. intros s'. apply hung_stuck; [done|done|].
  clear -Ho Hp Hr. revert Ho Hp. induction Hr as [|x y z Hst _ IH]; [done|]. intros Ho Hp. by apply IH; eapply ax_step_inv.
Qed.

(** The connection of the catch-up is refused: the run returns, and gives back the two handles
    of its container. *)
Module ListenAxSample.
Definition base : handles := mkHandles (mkConns {[3]} 4 [None; Some "too many connections"]) (mkConns ∅ 0 []).
Abbreviation start := (ax_start (Ok (7, 0)%Z) [0; 1; 2]%Z base).
Example refused : a_main start = Closing (Err "too many connections") ∧ elements (c_open (h_db (a_handles start))) = [4; 3] ∧
elements (c_open (h_rpc (a_handles start))) = [0].
Proof. split_and!; vm_compute; reflexivity. Qed.
End ListenAxSample.
Import ListenAxSample.

Lemma ax_run_ends_witness :
  ∃ s, rtc ax_step start s ∧ over s ∧ c_open (h_db (a_handles s)) = {[3]} ∧ c_open (h_rpc (a_handles s)) = ∅.
Proof.
  assert (conns_ok (h_db base)) as Hok1.
  { intros c Hc. change (c ∈ ({[3]} : gset nat)) in Hc. apply elem_of_singleton in Hc. subst c. cbn. lia. }
  assert (conns_ok (h_rpc base)) as Hok2 by (intros c Hc; by apply not_elem_of_empty in Hc).
  destruct (ax_run_ends base (Ok (7, 0)%Z) [0; 1; 2]%Z start Hok1 Hok2 (rtc_refl _ _)) as (_ & _ & He).
  destruct (He eq_refl) as (_ & Hend). destruct Hend as (s & Hr & Hov); [right; reflexivity|].
  exists s. split; [exact Hr|]. split; [exact Hov|].
  destruct (ax_run_ends base (Ok (7, 0)%Z) [0; 1; 2]%Z s Hok1 Hok2 Hr) as (_ & Hrel & _). exact (Hrel Hov).
Defined.

(** * stream/producer_axchain.go: [Listen] of the producer of the C chain, its loop over runs
    (ListenAx.v), with what the goroutines of the runs that have returned still hold. *)

(** Where [Listen] is: at the test of its loop, in [runProcessor], after it, returned. *)
Inductive listening :=
| Checking (h : handles)
| Running (s : ax_run)
| Answered (r : result unit) (h : handles)
| Ended (h : handles).

(** [al_left] : what goroutines of earlier runs have still to close; [al_closed] : the producer
    is closed. *)
Record ax_listener := mkAxListener { al_at : listening; al_left : list (nat * option nat); al_closed : bool }.

Definition Listen_start (h : handles) : ax_listener := mkAxListener (Checking h) [] false.

Definition al_handles (at_ : listening) : handles :=
  match at_ with Checking h | Answered _ h | Ended h => h | Running s => a_handles s end.
Definition al_with_handles (h : handles) (at_ : listening) : listening :=
  match at_ with
  | Checking _ => Checking h
  | Running s => Running (with_handles h s)
  | Answered r _ => Answered r h
  | Ended _ => Ended h
  end.

Inductive listen_step : ax_listener → ax_listener → Prop :=
| listen_close at_ left closed : listen_step (mkAxListener at_ left closed) (mkAxListener at_ left true)
| listen_stop h left : listen_step (mkAxListener (Checking h) left true) (mkAxListener (Ended h) left true)
| listen_run h left answer missing :
    listen_step (mkAxListener (Checking h) left false) (mkAxListener (Running (ax_start answer missing h)) left false)
| listen_runs s s' left closed : ax_step s s' →
    listen_step (mkAxListener (Running s) left closed) (mkAxListener (Running s') left closed)
| listen_returned s r left closed : a_main s = Returned r →
    listen_step (mkAxListener (Running s) left closed) (mkAxListener (Answered r (a_handles s)) (a_leaving s ++ left) closed)
| listen_break r h left : listen_step (mkAxListener (Answered r h) left true) (mkAxListener (Ended h) left true)
(* at once, or after the interval when the run has failed *)
| listen_again r h left : listen_step (mkAxListener (Answered r h) left false) (mkAxListener (Checking h) left false)
| listen_left at_ l1 conns cl l2 closed :
    listen_step (mkAxListener at_ (l1 ++ (conns, cl) :: l2) closed)
      (mkAxListener (al_with_handles (close_left conns cl (al_handles at_)) at_) (l1 ++ l2) closed).

(** * What is open *)

(** The connections of [l ++ L] besides [base] are those of [l] besides the others. *)
Lemma owns_frame base L l (cs : Conns) :
  owns base (l ++ L) cs ↔ owns (list_to_set L ∪ base) l cs ∧ NoDup L ∧ list_to_set (C:=gset nat) L ## base.
Proof.
  unfold owns. rewrite NoDup_app, list_to_set_app_L. split.
  - intros ((Hl & Hd & HL) & Hb & ->). split_and!; try done; [|set_solver|set_solver].
    intros x Hx%elem_of_list_to_set [Hy%elem_of_list_to_set|Hy]%elem_of_union; [by apply (Hd x)|].
    apply (Hb x); [|done]. apply elem_of_union_l. by apply elem_of_list_to_set.
  - intros ((Hl & Hd & ->) & HL & Hb). split_and!; [done| |done|set_solver|set_solver].
    intros x Hx Hy. apply (Hd x); [by apply elem_of_list_to_set|]. apply elem_of_union_l. by apply elem_of_list_to_set.
Qed.

(** The same for both kinds of handles: [base] with [L1] and [L2]. *)
Definition also (L1 L2 : list nat) (base : handles) : handles :=
  mkHandles (mkConns (list_to_set L1 ∪ c_open (h_db base)) 0 []) (mkConns (list_to_set L2 ∪ c_open (h_rpc base)) 0 []).

Lemma h_owns_frame base L1 L2 l1 l2 h : h_owns base (l1 ++ L1) (l2 ++ L2) h ↔
  h_owns (also L1 L2 base) l1 l2 h ∧
  (NoDup L1 ∧ list_to_set (C:=gset nat) L1 ## c_open (h_db base)) ∧ NoDup L2 ∧ list_to_set (C:=gset nat) L2 ## c_open (h_rpc base).
Proof. unfold h_owns. cbn. rewrite !owns_frame. tauto. Qed.

Section loop.
Context (base : handles).

Definition run_db (at_ : listening) : list nat := match at_ with Running s => held_db s | _ => [] end.
Definition run_rpc (at_ : listening) : list nat := match at_ with Running s => held_rpc s | _ => [] end.

Definition loop_ok (l : ax_listener) : Prop :=
h_owns base (run_db (al_at l) ++ map fst (al_left l)) (run_rpc (al_at l) ++ omap snd (al_left l)) (al_handles (al_at l)) ∧
match al_at l with Running s => phase s | _ => True end.

Lemma listen_step_ok l l' : listen_step l l' → loop_ok l → loop_ok l'.
Proof.
intros Hst [Ho Hp]. destruct Hst as [at_ left closed|h left|h left answer missing|s s' left closed Hst|s r left closed Em|r h left|r h left|
  at_ l1 conns cl l2 closed]; cbn in *; try (by split).
- destruct (ax_start_inv h answer missing) as [Hs Hps]; [by destruct Ho as [[_ ?] _]|by destruct Ho as [_ [_ ?]]|]. split; [|done].
  destruct Ho as [[(Hn1 & Hd1 & Ho1) _] [(Hn2 & Hd2 & Ho2) _]]. apply h_owns_frame. split; [|by split_and!].
  unfold a_owns, h_owns in Hs. by rewrite Ho1, Ho2 in Hs.
- apply h_owns_frame in Ho as (Ho & HL). destruct (ax_step_inv _ _ _ Hst Ho Hp) as [Ho' Hp']. split; [|done]. cbn.
  apply h_owns_frame. split; [exact Ho'|exact HL].
- destruct Hp as [Hp _]. rewrite Em in Hp. destruct Hp as (Hc & Hw & Hpc). split; [|done]. cbn.
  unfold held_db, held_rpc in Ho. rewrite Hc, Hw, Hpc in Ho. cbn in Ho. by rewrite map_app, omap_app.
- split; [|by destruct at_]. cbn.
  assert (run_db (al_with_handles (close_left conns cl (al_handles at_)) at_) = run_db at_ ∧
          run_rpc (al_with_handles (close_left conns cl (al_handles at_)) at_) = run_rpc at_ ∧
          al_handles (al_with_handles (close_left conns cl (al_handles at_)) at_) = close_left conns cl (al_handles at_)) as (-> & -> & ->)
    by (by destruct at_).
  unfold close_left.
  assert (run_db at_ ++ map fst (l1 ++ (conns, cl) :: l2) ≡ₚ conns :: run_db at_ ++ map fst (l1 ++ l2)) as Hdb.
  { rewrite !map_app. cbn. solve_Permutation. }
  destruct cl as [cl|].
  + eapply h_close_rpc; [eapply h_close_db; [exact Ho|exact Hdb]|]. rewrite !omap_app. cbn. solve_Permutation.
  + eapply h_owns_perm; [eapply h_close_db; [exact Ho|exact Hdb]|done|]. rewrite !omap_app. done.
Qed.

Lemma listen_steps_ok l l' : rtc listen_step l l' → loop_ok l → loop_ok l'.
Proof. induction 1 as [|l l1 l' Hst _ IH]; [done|]. intros Hok. by apply IH, (listen_step_ok l). Qed.

(** * The end *)

(** A run whose end has begun returns, or hangs. *)
Lemma ending_returns b s : a_stopped s = true → a_owns b s → phase s →
∃ s', rtc ax_step s s' ∧ (over s' ∨ hung s').
Proof.
remember (left_to_do s) as n eqn:En. revert s En. induction n as [n IH] using lt_wf_ind. intros s -> Hs Ho Hp.
destruct (ax_progress s Hp) as [Hov|[Hh|[s1 Hst]]]; [exists s; split; [done|by left]|exists s; split; [done|by right]|].
destruct (ending_decreases _ _ Hst Hs Hp) as [Hs1 Hlt]. destruct (ax_step_inv b _ _ Hst Ho Hp) as [Ho1 Hp1].
destruct (IH _ Hlt s1 eq_refl Hs1 Ho1 Hp1) as (s' & Hr & Hor). exists s'. split; [by eapply rtc_l|done].
Qed.

(** The blocks of a message are taken by the workers. *)
Lemma sending_ends blocks s block r : a_main s = Sending blocks block r → phase s →
∃ s', rtc ax_step s s' ∧ a_main s' = Sending [] block r.
Proof.
assert (∀ k blocks s, 2 * length blocks + length (a_msgChan s) = k → a_main s = Sending blocks block r → phase s →
  ∃ s', rtc ax_step s s' ∧ a_main s' = Sending [] block r) as Hk; [|by eapply Hk].
intros k. induction k as [k IH] using lt_wf_ind. intros l s1 Ek Em Hp. destruct l as [|b l]; [by exists s1|].
pose proof Hp as [Hph Hq]. rewrite Em in Hph. destruct Hph as (H1 & H2 & Hw & H4).
destruct (decide (length (a_msgChan s1) < maxWorkerQueue)) as [Hlt|Hge].
- assert (ax_step s1 (at_main (Sending l block r) (with_channel (a_msgChan s1 ++ [b]) s1))) as Hst by (by eapply main_send).
  destruct (IH (2 * length l + length (a_msgChan s1 ++ [b]))) with (blocks := l)
    (s := at_main (Sending l block r) (with_channel (a_msgChan s1 ++ [b]) s1)) as (s' & Hr & Em').
  + rewrite length_app. cbn [length] in *. lia.
  + done.
  + done.
  + split; [by split_and!|]. cbn [at_main with_channel a_msgChan]. rewrite length_app. cbn [length]. lia.
  + exists s'. split; [by eapply rtc_l|done].
- destruct (a_msgChan s1) as [|b1 q] eqn:Eq; [cbn [length] in Hge; unfold maxWorkerQueue in Hge; lia|].
  assert (ax_step s1 (with_channel q s1)) as Hst.
  { apply (worker_take s1 b1 q); [|done]. intros E0. by rewrite E0 in Hw. }
  destruct (IH (2 * length (b :: l) + length q)) with (blocks := b :: l) (s := with_channel q s1) as (s' & Hr & Em').
  + cbn [length] in *. lia.
  + done.
  + done.
  + split; [cbn; rewrite Em; by split_and!|]. cbn [with_channel a_msgChan length] in *. lia.
  + exists s'. split; [by eapply rtc_l|done].
Qed.

(** A run can always be brought to its end, or hangs. *)
Lemma ax_run_returns b s : a_owns b s → phase s → ∃ s', rtc ax_step s s' ∧ (over s' ∨ hung s').
Proof.
assert (∀ s s1, a_owns b s → phase s → rtc ax_step s s1 → a_owns b s1 ∧ phase s1) as Hsteps.
{ intros s0 s1 Ho Hp Hr. revert Ho Hp. induction Hr as [|s0 s2 s1 Hst _ IH]; [done|]. intros Ho Hp. by apply IH; eapply ax_step_inv. }
assert (∀ s s1, a_owns b s → phase s → rtc ax_step s s1 → a_stopped s1 = true → ∃ s', rtc ax_step s s' ∧ (over s' ∨ hung s')) as Hend.
{ intros s0 s1 Ho Hp Hr Hs. destruct (Hsteps _ _ Ho Hp Hr) as [Ho1 Hp1]. destruct (ending_returns b s1 Hs Ho1 Hp1) as (s' & Hr' & Hor).
  exists s'. split; [by etrans|done]. }
assert (∀ s block, a_owns b s → phase s → a_main s = Looping block → ∃ s', rtc ax_step s s' ∧ (over s' ∨ hung s')) as Hloop.
{ intros s0 block Ho Hp Em. apply (Hend s0 (ending (Ok tt) s0) Ho Hp); [|done]. apply rtc_once. by eapply main_stop. }
intros Ho Hp. destruct (a_main s) as [n block|block|blocks block r|r|r|r] eqn:Em.
- revert s Ho Hp Em. induction n as [|n IH]; intros s Ho Hp Em.
  + assert (ax_step s (at_main (Looping block) s)) as Hst by (by apply main_started).
    destruct (ax_step_inv b _ _ Hst Ho Hp) as [Ho1 Hp1]. destruct (Hloop _ block Ho1 Hp1 eq_refl) as (s' & Hr & Hor).
    exists s'. split; [by eapply rtc_l|done].
  + assert (ax_step s (start_worker n block s)) as Hst by (by apply main_worker).
    destruct (ax_step_inv b _ _ Hst Ho Hp) as [Ho1 Hp1].
    assert (a_main (start_worker n block s) = Starting n block ∨ a_stopped (start_worker n block s) = true) as [Em1|Es].
    { unfold start_worker. destruct (open_rpc _) as [h [cl|e]]; [|by right]. destruct (open_db h) as [h' [c|e]]; [by left|by right]. }
    * destruct (IH _ Ho1 Hp1 Em1) as (s' & Hr & Hor). exists s'. split; [by eapply rtc_l|done].
    * apply (Hend s (start_worker n block s) Ho Hp); [by apply rtc_once|done].
- by eapply Hloop.
- destruct (sending_ends _ _ _ _ Em Hp) as (s1 & Hr1 & Em1). destruct (Hsteps _ _ Ho Hp Hr1) as [Ho1 Hp1].
  assert (ax_step s1 (ending (Err "EOF") s1)) as Hst by apply (main_answer s1 block r (Some "EOF") Em1).
  apply (Hend s (ending (Err "EOF") s1) Ho Hp); [|done]. by eapply rtc_r.
- apply (Hend s s Ho Hp); [done|]. destruct Hp as [Hp _]. rewrite Em in Hp. by destruct Hp as (? & _).
- apply (Hend s s Ho Hp); [done|]. destruct Hp as [Hp _]. rewrite Em in Hp. by destruct Hp as (? & _).
- remember (a_leaving s) as l eqn:El. clear Ho Hp. revert s Em El. induction l as [|[c cl] l IH]; intros s Em El.
  + exists s. split; [done|]. left. split; [by eexists|done].
  + assert (ax_step s (with_leaving ([] ++ l) (with_handles (close_left c cl (a_handles s)) s))) as Hst by (by eapply left_close).
    destruct (IH (with_leaving ([] ++ l) (with_handles (close_left c cl (a_handles s)) s))) as (s' & Hr & Hor); [done|done|].
    exists s'. split; [by eapply rtc_l|done].
Qed.

Lemma listen_runs_all s s' left closed : rtc ax_step s s' →
rtc listen_step (mkAxListener (Running s) left closed) (mkAxListener (Running s') left closed).
Proof. induction 1 as [|s s1 s' Hst _ IH]; [done|]. eapply rtc_l; [by apply listen_runs|done]. Qed.

(** What is left is closed. *)
Lemma left_closed h left closed : ∃ h', rtc listen_step (mkAxListener (Ended h) left closed) (mkAxListener (Ended h') [] closed).
Proof.
revert h. induction left as [|[c cl] left IH]; intros h; [by exists h|].
destruct (IH (close_left c cl h)) as (h' & Hr). exists h'. eapply rtc_l; [|exact Hr].
apply (listen_left (Ended h) [] c cl left closed).
Qed.

(** The producer of the C chain, from its start to its end, run after run, whatever fails and
in whatever order.  Once it is closed no other run begins, and [Listen] can be brought to its
end, with nothing left to close, unless a run hangs (ListenAx.v); and when it has returned and
nothing is left to close, the connections and the clients that are open are those of before. *)
Theorem ax_listen_ends l : conns_ok (h_db base) → conns_ok (h_rpc base) → rtc listen_step (Listen_start base) l →
(al_closed l = true → ∃ l', rtc listen_step l l' ∧
   ((∃ h, al_at l' = Ended h ∧ al_left l' = []) ∨ ∃ s, al_at l' = Running s ∧ hung s)) ∧
(∀ h, al_at l = Ended h → al_left l = [] →
   al_closed l = true ∧ c_open (h_db h) = c_open (h_db base) ∧ c_open (h_rpc h) = c_open (h_rpc base)).
Proof.
intros Hok1 Hok2 Hr. assert (loop_ok (Listen_start base)) as H0.
{ split; [|done]. split; (split; [by apply owns_none|done]). }
pose proof (listen_steps_ok _ _ Hr H0) as [Ho Hp]. split.
- intros Hc. destruct l as [at_ left closed]. cbn in *. subst closed.
  assert (∀ h left, ∃ l', rtc listen_step (mkAxListener (Ended h) left true) l' ∧
    ((∃ h, al_at l' = Ended h ∧ al_left l' = []) ∨ ∃ s, al_at l' = Running s ∧ hung s)) as Hend.
  { intros h lf. destruct (left_closed h lf true) as (h' & Hl). eexists. split; [exact Hl|]. left. by exists h'. }
  destruct at_ as [h|s|r h|h]; [| | |apply Hend].
  + destruct (Hend h left) as (l' & Hl & Hor). exists l'. split; [|exact Hor]. eapply rtc_l; [by apply listen_stop|exact Hl].
  + apply h_owns_frame in Ho as (Ho & _). destruct (ax_run_returns _ _ Ho Hp) as (s' & Hs & [[[r Er] El]|Hh]).
    * destruct (Hend (a_handles s') (a_leaving s' ++ left)) as (l' & Hl & Hor). exists l'. split; [|exact Hor].
      etrans; [by apply listen_runs_all|]. eapply rtc_l; [by eapply listen_returned|]. eapply rtc_l; [by apply listen_break|exact Hl].
    * eexists. split; [by apply listen_runs_all|]. right. by exists s'.
  + destruct (Hend h left) as (l' & Hl & Hor). exists l'. split; [|exact Hor]. eapply rtc_l; [by apply listen_break|exact Hl].
- intros h Eh El. rewrite Eh, El in Ho. cbn in Ho. destruct Ho as [[H1 _] [H2 _]].
  split_and!; [|by apply owns_none|by apply owns_none]. clear -Hr Eh.
  assert (∀ l l', rtc listen_step l l' → (∀ h, al_at l = Ended h → al_closed l = true) → ∀ h, al_at l' = Ended h → al_closed l' = true) as Hinv.
  { clear. induction 1 as [|l l1 l' Hst _ IH]; [done|]. intros Hl. apply IH. intros h. destruct Hst; cbn in *; try done.
    intros E. destruct at_; try done. by eapply Hl. }
  eapply Hinv; [exact Hr|done|exact Eh].
Qed.
End loop.
