(* ===== verification/Consumers.v ===== *)
(** stream/consumer_db.go and stream/consumer_axchain_db.go: the consumers with their
    constructors and counters, and the factories that the indexer is started with.

    The handling of a message is that of Stream.v and StreamAx.v; here it is done by a
    consumer, which counts it and wakes the balance manager. *)

From S2P Require Import Prelude Errors Sql Axia DbModel Persist Utils Models AxcWriter CvmWriter Stream StreamAx StreamFacts Replay Bootstrap Metrics Wiring.

(** * The counters of a consumer *)

(** servicesctrl/services_control.go *)
Definition MetricConsumeProcessedCountKey : string := "consume_records_processed".
Definition MetricConsumeProcessMillisCounterKey : string := "consume_records_process_millis".
Definition MetricConsumeSuccessCountKey : string := "consume_records_success".
Definition MetricConsumeFailureCountKey : string := "consume_records_failure".

Definition InitConsumeMetrics (m : Metrics) : option Metrics :=
  m ← CounterInit MetricConsumeProcessedCountKey "records processed" m;
  m ← CounterInit MetricConsumeProcessMillisCounterKey "records processed millis" m;
  m ← CounterInit MetricConsumeSuccessCountKey "records success" m;
  CounterInit MetricConsumeFailureCountKey "records failure" m.

Record consumer_keys := mkConsumerKeys {
  metricProcessedCountKey : string;
  metricProcessMillisCounterKey : string;
  metricSuccessCountKey : string;
  metricFailureCountKey : string;
}.

Definition init_keys (ks : consumer_keys) (m : Metrics) : option Metrics :=
  m ← CounterInit (metricProcessedCountKey ks) "records processed" m;
  m ← CounterInit (metricProcessMillisCounterKey ks) "records processed millis" m;
  m ← CounterInit (metricSuccessCountKey ks) "records success" m;
  m ← CounterInit (metricFailureCountKey ks) "records failure" m;
  InitConsumeMetrics m.

(** [consume_records_..._suffix], and the same for the consensus. *)
Definition keys_of (prefix suffix : string) : consumer_keys :=
  mkConsumerKeys (prefix +:+ "_processed_" +:+ suffix) (prefix +:+ "_process_millis_" +:+ suffix)
    (prefix +:+ "_success_" +:+ suffix) (prefix +:+ "_failure_" +:+ suffix).

(** The collectors made when a message comes, at the time [t]. *)
Definition consume_collector_list (ks : consumer_keys) (t : Z) : list Collector :=
  [NewCounterIncCollect (metricProcessedCountKey ks);
   NewCounterObserveMillisCollect t (metricProcessMillisCounterKey ks);
   NewCounterIncCollect MetricConsumeProcessedCountKey;
   NewCounterObserveMillisCollect t MetricConsumeProcessMillisCounterKey].
Definition consume_collectors (ks : consumer_keys) (t : Z) : Collector := NewCollectors (consume_collector_list ks t).

(** * The handling of a message *)

(** What the consumers share: the counters, and the times the balance manager was woken. *)
Record consuming (S : Type) := mkConsuming { c_state : S; c_metrics : Metrics; c_execs : nat }.
Arguments mkConsuming {S}.
Arguments c_state {S}.
Arguments c_metrics {S}.
Arguments c_execs {S}.

Definition consumer_Success (ks : consumer_keys) (m : Metrics) : Metrics :=
  counted MetricConsumeSuccessCountKey (counted (metricSuccessCountKey ks) m).
Definition consumer_Failure (ks : consumer_keys) (m : Metrics) : Metrics :=
  counted MetricConsumeFailureCountKey (counted (metricFailureCountKey ks) m).

(** The body of [Consume], [ConsumeTrace] and [ConsumeLogs], from the time [t] to the time
    [now]; [exec] : the balance manager is woken after a success.  [None] : it does not
    return. *)
Definition counted_consume {S} (ks : consumer_keys) (exec : bool) (t now : Z) (fuel : nat)
    (persistConsume : M S unit) (s : consuming S) : option (consuming S * result unit) :=
  match consume_retry fuel persistConsume consume_sleeper 0 (c_state s) with
  | None => None
  | Some (st, Err e, _) =>
      m ← Collect now (collector_Error (consume_collectors ks t)) (consumer_Failure ks (c_metrics s));
      Some (mkConsuming st m.1 (c_execs s), Err e)
  | Some (st, Ok _, _) =>
      m ← Collect now (consume_collectors ks t) (consumer_Success ks (c_metrics s));
      Some (mkConsuming st m.1 (c_execs s + (if exec then 1 else 0)), Ok tt)
  end.

(** * consumer_db.go *)
Record consumerDB (W : Type) := mkConsumerDB {
  cdb_id : string;
  cdb_eventType : string;
  cdb_chainID : string;
  cdb_consumer : W;
  cdb_keys : consumer_keys;
  cdb_topicName : string;
}.
Arguments mkConsumerDB {W}.
Arguments cdb_id {W}.
Arguments cdb_eventType {W}.
Arguments cdb_chainID {W}.
Arguments cdb_consumer {W}.
Arguments cdb_keys {W}.
Arguments cdb_topicName {W}.

(** The names of an event type; an unknown one leaves them empty. *)
Definition consumer_names (networkID : Z) (chainVM chainID eventType : string) : consumer_keys * string :=
  let name := Z_to_string networkID +:+ " " +:+ chainVM +:+ " " +:+ chainID in
  if decide (eventType = EventTypeDecisions) then (keys_of "consume_records" chainID, "consumer " +:+ name)
  else if decide (eventType = EventTypeConsensus) then
    (keys_of "consume_consensus_records" chainID, "consumer_consensus " +:+ name)
  else (mkConsumerKeys "" "" "" "", "").

(** [NewConsumerDBFactory]: [factory] makes the writer; [None] is a panic of the metrics. *)
Definition NewConsumerDBFactory {W} (factory : Z → string → string → result W) (eventType : string)
    (networkID : Z) (chainVM chainID : string) (m : Metrics) : option (Metrics * result (consumerDB W)) :=
  let '(ks, id) := consumer_names networkID chainVM chainID eventType in
  m ← init_keys ks m;
  Some (m, match factory networkID chainVM chainID with
           | Err e => Err e
           | Ok w => Ok (mkConsumerDB id eventType chainID w ks (GetTopicName networkID chainID eventType))
           end).

Definition consumerDB_Topic {W} (c : consumerDB W) : list string := [cdb_topicName c].

(** [Process] and [Consume], for a writer of methods [Consume] and [ConsumeConsensus]. *)
Definition consumerDB_counted {S W} (c : consumerDB W) (Consume ConsumeConsensus : W → Message → M S unit)
    (t now : Z) (fuel : nat) (row : TxPool) : consuming S → option (consuming S * result unit) :=
  counted_consume (cdb_keys c) true t now fuel
    (persistConsume (cdb_eventType c) (Consume (cdb_consumer c)) (ConsumeConsensus (cdb_consumer c))
       (process_message (cdb_chainID c) row)).

(** * consumer_axchain_db.go *)
Record consumerAXChainDB := mkConsumerAXChainDB {
  cax_id : string;
  cax_producer : ProducerAXChain;       (* the network and the chain, which name the topics *)
  cax_consumer : cvm.Writer;
  cax_keys : consumer_keys;
}.

Definition NewConsumerAXChainDB (NewWriter : Z → string → result cvm.Writer) (networkID : Z) (AXchainID : string)
    (m : Metrics) : option (Metrics * result consumerAXChainDB) :=
  let ks := keys_of "consume_records" (AXchainID +:+ "_axchain") in
  m ← init_keys ks m;
  Some (m, match NewWriter networkID AXchainID with
           | Err e => Err e
           | Ok w => Ok (mkConsumerAXChainDB ("consumer " +:+ Z_to_string networkID +:+ " " +:+ AXchainID +:+ " axchain")
                           (mkProducerAXChain networkID AXchainID) w ks)
           end).

Definition consumerAXChainDB_Topic (c : consumerAXChainDB) : list string :=
  [ax_topic (cax_producer c); ax_topicTrc (cax_producer c); ax_topicLogs (cax_producer c)].

(** [NewWriter] of cvm/writer.go; [ApricotPhase5Time] is the time of the fork of a network, in
    seconds, which is third-party. *)
Definition cvm_NewWriter `{!NodeGenesis} (ApricotPhase5Time : Z → Z) (networkID : Z) (chainID : string) : result cvm.Writer :=
  '(_, axcAssetID) ← genesis_FromConfig networkID;
  Ok (cvm.mkWriter networkID axcAssetID (axc.NewWriter chainID axcAssetID) (wrap64 (ApricotPhase5Time networkID))).

Section axchain.
Context `{SqlEngine D} `{!AxiaIds} `{!AxiaMath} `{!AxiaCrypto} `{!Cfg} `{!CvmCodec} `{!AxJson}.
Context (Propagate : error → string → error) (clock : nat → Z) (fuel : nat) (t now : Z) (c : consumerAXChainDB).
Implicit Types s : consuming D.

(** A text that is not understood is an error before anything is counted. *)
Definition unmarshalled {A} (r : result A) (handle : A → consuming D → option (consuming D * result unit)) s :=
match r with Err e => Some (s, Err e) | Ok a => handle a s end.

(** Only a block wakes the balance manager. *)
Definition ax_Consume_counted (msg : Message) : consuming D → option (consuming D * result unit) :=
unmarshalled (cblock_Unmarshal (default "" (Message_body msg))) (λ block,
  counted_consume (cax_keys c) true t now fuel
    (cvm.Consume Propagate clock (cax_consumer c) (Message_timestamp msg) (Message_nanosecond msg)
       (CBlock_ExtraData block) block)).

Definition ax_ConsumeTrace_counted (msg : Message) : consuming D → option (consuming D * result unit) :=
unmarshalled (unjson_trace (default "" (Message_body msg))) (λ transactionTrace,
  counted_consume (cax_keys c) false t now fuel
    (cvm.ConsumeTrace clock (Message_timestamp msg) (Message_nanosecond msg) transactionTrace)).

Definition ax_ConsumeLogs_counted (msg : Message) : consuming D → option (consuming D * result unit) :=
unmarshalled (unjson_log (default "" (Message_body msg))) (λ txLogs,
  counted_consume (cax_keys c) false t now fuel
    (cvm.ConsumeLogs clock (Message_timestamp msg) (Message_nanosecond msg) (default "" (Message_body msg)) txLogs)).

Definition consumerAXChainDB_counted (row : TxPool) s : option (consuming D * result unit) :=
let msg := process_message (ax_chainID (cax_producer c)) row in
if decide (TxPool_Topic row = ax_topic (cax_producer c)) then ax_Consume_counted msg s
else if decide (TxPool_Topic row = ax_topicTrc (cax_producer c)) then ax_ConsumeTrace_counted msg s
else if decide (TxPool_Topic row = ax_topicLogs (cax_producer c)) then ax_ConsumeLogs_counted msg s
else Some (s, Ok tt).
End axchain.

(** * The factories of the indexer (stream/consumers/indexer.go) *)

(** The calls of the factories, in the order of [IndexerFactories]: each factory of chains
    for each chain, then the factories of the instance. *)
Definition factory_calls {A} (factoriesChainDB : list (Chain → A)) (factoriesInstDB : list A) (chains : list Chain) : list A :=
  concat (map (λ factory, map factory chains) factoriesChainDB) ++ factoriesInstDB.

(** * Facts *)

(** What the collectors of a message add, after a success and after a failure. *)
Definition collected (ks : consumer_keys) (millis : Z) (k : string) : Z :=
  hits (metricProcessedCountKey ks) k + millis * hits (metricProcessMillisCounterKey ks) k +
  hits MetricConsumeProcessedCountKey k + millis * hits MetricConsumeProcessMillisCounterKey k.

Lemma collects_success ks t now : (t ≤ now)%Z →
  collects now (consume_collectors ks t) (collected ks (since_millis now t)).
Proof.
  intros Ht. set (f := λ c : Collector, match c with
    | counterIncCollect b key => λ k, if b then hits key k else 0%Z
    | counterObserveMillisCollect b t key => λ k, (if b then since_millis now t * hits key k else 0)%Z
    | _ => λ _, 0%Z
    end).
  eapply collects_ext; [|apply (collects_container now (consume_collector_list ks t) f)].
  - intros k. cbn. unfold collected. lia.
  - repeat constructor; first [apply collects_inc|by apply collects_millis].
Qed.

Lemma collects_failure ks t now : (t ≤ now)%Z →
  collects now (collector_Error (consume_collectors ks t)) (λ _, 0%Z).
Proof.
  intros Ht. eapply collects_ext;
    [|apply (collects_container now (map collector_Error (consume_collector_list ks t)) (λ _ _, 0%Z))]; [done|].
  repeat constructor; first [apply (collects_inc _ false)|by apply (collects_millis _ false)].
Qed.

(** A message is counted once, and the balance manager woken after a success only. *)
Lemma message_consumed_state {S} ks exec t now fuel (m : M S unit) (s : consuming S) : (t ≤ now)%Z →
  match consume_retry fuel m consume_sleeper 0 (c_state s), counted_consume ks exec t now fuel m s with
  | None, None => True
  | Some (st, r, _), Some (s', r') =>
      r' = r ∧ c_state s' = st ∧
      c_execs s' = c_execs s + (match r with Ok _ => if exec then 1 else 0 | Err _ => 0 end) ∧
      grows (λ k, match r with
        | Ok _ => hits (metricSuccessCountKey ks) k + hits MetricConsumeSuccessCountKey k + collected ks (since_millis now t) k
        | Err _ => hits (metricFailureCountKey ks) k + hits MetricConsumeFailureCountKey k
        end)%Z (c_metrics s) (c_metrics s')
  | _, _ => False
  end.
Proof.
  intros Ht. unfold counted_consume. destruct (consume_retry _ _ _ _ _) as [[[st [[]|e]] slept]|]; [| |done].
  - destruct (collects_success ks t now Ht (consumer_Success ks (c_metrics s))) as (m' & r' & -> & Hg).
    cbn. split_and!; [done..|].
    exact (grows_trans _ _ _ _ _ (grows_trans _ _ _ _ _ (counted_grows _ _) (counted_grows _ _)) Hg).
  - destruct (collects_failure ks t now Ht (consumer_Failure ks (c_metrics s))) as (m' & r' & -> & Hg).
    cbn. split_and!; [done|done|lia|]. eapply grows_ext;
      [|exact (grows_trans _ _ _ _ _ (grows_trans _ _ _ _ _ (counted_grows _ _) (counted_grows _ _)) Hg)].
    intros k. cbn. lia.
Qed.

(** ** The topics *)
Lemma list_ascii_app a b : String.list_ascii_of_string (a +:+ b) = String.list_ascii_of_string a ++ String.list_ascii_of_string b.
Proof. induction a as [|c a IH]; [done|]. exact (f_equal (cons c) IH). Qed.

Lemma length_list_ascii s : length (String.list_ascii_of_string s) = String.length s.
Proof. induction s as [|c s IH]; [done|]. exact (f_equal S IH). Qed.

Lemma list_ascii_inj a b : String.list_ascii_of_string a = String.list_ascii_of_string b → a = b.
Proof. intros E. by rewrite <-(String.string_of_list_ascii_of_string a), E, String.string_of_list_ascii_of_string. Qed.

(** Names that end in different ways are different. *)
Lemma ends_differ n a b s1 s2 : let last s := take n (reverse (String.list_ascii_of_string s)) in
  last s1 ≠ last s2 → n ≤ String.length s1 → n ≤ String.length s2 → a +:+ s1 ≠ b +:+ s2.
Proof.
  intros last Hne H1 H2 E. apply Hne. unfold last. apply (f_equal (λ s, take n (reverse (String.list_ascii_of_string s)))) in E.
  rewrite !list_ascii_app, !reverse_app, !take_app_le in E; [done|rewrite length_reverse..].
  all: by rewrite length_list_ascii.
Qed.

Ltac ends_apart := first [done|match goal with
  | E : _ = _ :> string |- _ => exfalso; revert E; apply (ends_differ 2); [discriminate|apply Nat.leb_le; reflexivity..]
  end].

Lemma app_cancel_tail a b s : a +:+ s = b +:+ s → a = b.
Proof.
  intros E. apply list_ascii_inj. apply (f_equal String.list_ascii_of_string) in E. rewrite !list_ascii_app in E.
  by apply app_inv_tail in E.
Qed.

Lemma app_cancel_head a b s : s +:+ a = s +:+ b → a = b.
Proof. induction s as [|c s IH]; [done|]. by intros [= ?%IH]. Qed.

Lemma app_assoc_string a b c : a +:+ b +:+ c = (a +:+ b) +:+ c.
Proof. apply list_ascii_inj. by rewrite !list_ascii_app, app_assoc. Qed.

Section topics.
Context (networkID : Z) (AXchainID : string).

Definition topic_of (eventType : string) (c : Chain) : string := GetTopicName networkID (Chain_ID c) eventType.
Definition ax_topics : list string :=
let p := mkProducerAXChain networkID AXchainID in [ax_topic p; ax_topicTrc p; ax_topicLogs p].

(** The topics of the consumers that the indexer is started with. *)
Definition indexer_topics (chains : list Chain) : list string :=
map (topic_of EventTypeDecisions) chains ++ map (topic_of EventTypeConsensus) chains ++ ax_topics.

(** Where a topic ends. *)
Lemma topic_of_end eventType c :
topic_of eventType c = (Z_to_string networkID +:+ "-" +:+ Chain_ID c) +:+ "-" +:+ eventType.
Proof. unfold topic_of, GetTopicName. by rewrite <-!app_assoc_string. Qed.

Lemma ax_topics_end :
ax_topics = map (λ s, (Z_to_string networkID +:+ "-" +:+ AXchainID) +:+ s) ["-axchain"; "-axchain-trc"; "-axchain-logs"].
Proof. unfold ax_topics, ax_topic, ax_topicTrc, ax_topicLogs. cbn [map ax_networkID ax_chainID]. by rewrite <-!app_assoc_string. Qed.

Lemma topic_not_ax eventType c : eventType = EventTypeDecisions ∨ eventType = EventTypeConsensus → topic_of eventType c ∉ ax_topics.
Proof.
intros Hev Hin. rewrite topic_of_end, ax_topics_end in Hin. cbn [map] in Hin. rewrite !elem_of_cons, elem_of_nil in Hin.
destruct Hev as [->| ->]; destruct Hin as [E|[E|[E|[]]]]; ends_apart.
Qed.

Lemma topics_of_inj eventType chains : NoDup (map Chain_ID chains) → NoDup (map (topic_of eventType) chains).
Proof.
intros Hnd. rewrite NoDup_alt in Hnd. apply NoDup_alt. intros i j t Hi Hj.
apply list_lookup_fmap_Some in Hi as (c & -> & Hi). apply list_lookup_fmap_Some in Hj as (c' & E & Hj).
apply (Hnd i j (Chain_ID c)); apply list_lookup_fmap_Some; [by exists c|]. exists c'. split; [|done].
rewrite !topic_of_end in E. apply app_cancel_tail in E. by do 2 apply app_cancel_head in E.
Qed.

(** No topic is claimed twice, whatever the chains are called: their ids are the keys of the
  configuration. *)
Lemma indexer_topics_distinct chains : NoDup (map Chain_ID chains) → NoDup (indexer_topics chains).
Proof.
intros Hnd. unfold indexer_topics. apply NoDup_app. split_and!; [by apply topics_of_inj| |].
- intros t (c & -> & _)%list_elem_of_fmap [(c' & E & _)%list_elem_of_fmap|Hax]%elem_of_app.
  + rewrite !topic_of_end in E. ends_apart.
  + by apply (topic_not_ax EventTypeDecisions c) in Hax; [|left].
- apply NoDup_app. split_and!; [by apply topics_of_inj| |].
  + intros t (c & -> & _)%list_elem_of_fmap. apply topic_not_ax. by right.
  + rewrite ax_topics_end. cbn [map].
    repeat (apply NoDup_cons; split; [rewrite ?elem_of_cons, elem_of_nil; intros Hin; repeat destruct Hin as [E|Hin]; ends_apart|]).
    constructor.
Qed.
End topics.

Lemma start_factories_ok {D} (l : list (ProcessorDB (D:=D) * list string)) st :
  start_factories (map Ok l) st = register_all l st.
Proof.
  revert st. induction l as [|[f ts] l IH]; intros st; [done|]. cbn.
  destruct (register_topics f ts st) as [st'|e]; [apply IH|done].
Qed.

Lemma concat_single {A B} (f : A → B) l : concat (map (λ x, [f x]) l) = map f l.
Proof. induction l as [|x l IH]; [done|]. exact (f_equal (cons (f x)) IH). Qed.

(** The chains of a configuration each have a consumer of decisions and one of the consensus,
    the C chain has one for its three topics, and the indexer accepts them all: each topic
    goes to its consumer, and there are no others. *)
Theorem consumers_registered {D} networkID AXchainID chains (decisions consensus : Chain → ProcessorDB (D:=D))
    (axchain : ProcessorDB (D:=D)) : NoDup (map Chain_ID chains) →
  let topic := topic_of networkID in
  let calls := factory_calls [λ c, (decisions c, [topic EventTypeDecisions c]); λ c, (consensus c, [topic EventTypeConsensus c])]
    [(axchain, ax_topics networkID AXchainID)] chains in
  ∃ fsm, start_factories (map Ok calls) (∅, []) = Ok (fsm, indexer_topics networkID AXchainID chains) ∧
    (∀ c, c ∈ chains → fsm !! topic EventTypeDecisions c = Some (decisions c) ∧
       fsm !! topic EventTypeConsensus c = Some (consensus c)) ∧
    ∀ t, t ∈ ax_topics networkID AXchainID → fsm !! t = Some axchain.
Proof.
  intros Hnd topic calls. rewrite start_factories_ok.
  assert (concat (map snd calls) = indexer_topics networkID AXchainID chains) as Ec.
  { unfold calls, factory_calls, indexer_topics. cbn [map concat]. rewrite app_nil_r, !map_app, !concat_app, !map_map.
    cbn [map concat snd]. by rewrite app_nil_r, <-app_assoc, !concat_single. }
  pose proof (register_all_spec calls (∅, []) registered_empty) as Hs.
  destruct (register_all calls (∅, [])) as [[fsm names]|e].
  - destruct Hs as (_ & Hn & Hf & _). cbn [fst snd] in Hn, Hf. rewrite app_nil_l, Ec in Hn. exists fsm. split_and!; [by rewrite Hn| |].
    + intros c Hc. split; (eapply Hf; [|left]); unfold calls, factory_calls; cbn [map concat]; rewrite app_nil_r, !elem_of_app.
      * left. left. by apply (list_elem_of_fmap_2 (λ c, (decisions c, [topic EventTypeDecisions c]))).
      * left. right. by apply (list_elem_of_fmap_2 (λ c, (consensus c, [topic EventTypeConsensus c]))).
    + intros t Ht. eapply Hf; [|exact Ht]. unfold calls, factory_calls. apply elem_of_app. right. left.
  - destruct Hs. rewrite Ec. by apply indexer_topics_distinct.
Qed.

(** ** A consumer does to the database what Stream.v says *)
Definition on_state {S} (o : option (consuming S * result unit)) : option (S * result unit) :=
  option_map (λ x, (c_state x.1, x.2)) o.

Lemma counted_consume_state {S} ks exec t now fuel (m : M S unit) (s : consuming S) : (t ≤ now)%Z →
  on_state (counted_consume ks exec t now fuel m s) = option_map (λ x, (x.1.1, x.1.2)) (consume_retry fuel m consume_sleeper 0 (c_state s)).
Proof.
  intros Ht. pose proof (message_consumed_state ks exec t now fuel m s Ht) as Hm.
  destruct (consume_retry _ _ _ _ _) as [[[st r] slept]|], (counted_consume _ _ _ _ _ _ _) as [[s' r']|]; try done.
  destruct Hm as (-> & <- & _). done.
Qed.

Lemma consumerDB_state {S W} (c : consumerDB W) (Consume ConsumeConsensus : W → Message → M S unit) t now fuel row s : (t ≤ now)%Z →
  on_state (consumerDB_counted c Consume ConsumeConsensus t now fuel row s) =
  consumerDB_Process fuel (cdb_eventType c) (cdb_chainID c) (Consume (cdb_consumer c)) (ConsumeConsensus (cdb_consumer c)) row (c_state s).
Proof.
  intros Ht. unfold consumerDB_counted, consumerDB_Process. rewrite counted_consume_state by done.
  by destruct (consume_retry _ _ _ _ _) as [[[st r] slept]|].
Qed.

(** The counters aside, the consumer of the C chain handles a row as StreamAx.v does: each
    topic by its writer, and what is not of its topics is left alone. *)
Theorem consumerAXChainDB_state `{SqlEngine D} `{!AxiaIds} `{!AxiaMath} `{!AxiaCrypto} `{!Cfg} `{!CvmCodec} `{!AxJson}
    (Propagate : error → string → error) (clock : nat → Z) fuel t now (c : consumerAXChainDB) row (s : consuming D) : (t ≤ now)%Z →
  on_state (consumerAXChainDB_counted Propagate clock fuel t now c row s) =
  consumerAXChainDB_Process Propagate clock fuel (cax_producer c) (cax_consumer c) row (c_state s).
Proof.
  intros Ht. assert (∀ exec (m : M D unit), on_state (counted_consume (cax_keys c) exec t now fuel m s) = ax_retry fuel m (c_state s)) as Hm.
  { intros exec m. rewrite counted_consume_state by done. unfold ax_retry. by destruct (consume_retry _ _ _ _ _) as [[[st r] slept]|]. }
  unfold consumerAXChainDB_counted, consumerAXChainDB_Process, ax_Consume_counted, ax_ConsumeTrace_counted, ax_ConsumeLogs_counted,
    ax_Consume, ax_ConsumeTrace, ax_ConsumeLogs, unmarshalled.
  destruct (decide _); [destruct (cblock_Unmarshal _); [apply Hm|done]|].
  destruct (decide _); [destruct (unjson_trace _); [apply Hm|done]|].
  destruct (decide _); [destruct (unjson_log _); [apply Hm|done]|done].
Qed.

(** * Two chains and the C chain *)
Module ConsumersSample.
Definition chains : list Chain := [mkChain "X" "avm"; mkChain "P" "pvm"].
Example seven_topics : indexer_topics 5 "C" chains =
["5-X-decisions"; "5-P-decisions"; "5-X-consensus"; "5-P-consensus"; "5-C-axchain"; "5-C-axchain-trc"; "5-C-axchain-logs"].
Proof. vm_compute. reflexivity. Qed.

(** A message that takes two attempts and 250 ms. *)
Definition flaky : M nat unit := λ n, (S n, if n =? 0 then Err DeadlockDBErrorMessage else Ok tt).
Abbreviation ks := (keys_of "consume_records" "X").
Definition metrics : Metrics := default Metrics_empty (init_keys ks Metrics_empty).
Example counted_once : (λ x, (c_state x.1, c_execs x.1, x.2, map (λ k, counters (c_metrics x.1) !! k)
  [metricProcessedCountKey ks; metricProcessMillisCounterKey ks; metricSuccessCountKey ks; metricFailureCountKey ks])) <$>
counted_consume ks true 1000000000 1250000000 5 flaky (mkConsuming 0 metrics 0) =
Some (2, 1, Ok tt, [Some 1; Some 250; Some 1; Some 0]%Z).
Proof. vm_compute. reflexivity. Qed.
End ConsumersSample.
