(* ===== verification/Routes.v ===== *)
(** api: the routes of the server (server.go, index.go, [AddV2Routes] of v2.go), the
    handlers that answer from the memory of the reader, and the counters of each handler.

    The choice of a route is gocraft/web's (third-party): [web_route] finds, in a table of
    methods and patterns, the one a request matches, with the text of its [:id]. *)

From S2P Require Import Prelude Errors Sql Axia Models Utils GoText Params Api ReaderAggregates ReaderLists ReaderAggregator Metrics Wiring Services.

Inductive Method := GET | POST.
#[global] Instance Method_eq_dec : EqDecision Method.
Proof. solve_decision. Defined.

Class WebRouter := { web_route : list (Method * string) → Method → string → option (nat * string) }.

(** The methods of [V2Context] with a route. *)
Inductive Handler :=
| H_Index | H_Search | H_Aggregate | H_TxfeeAggregate | H_AddressChains | H_AddressChainsPost
| H_ListTransactions | H_ListTransactionsPost | H_GetTransaction | H_ListAddresses | H_GetAddress
| H_ListOutputs | H_GetOutput | H_ListAssets | H_GetAsset | H_ATxData | H_PTxData | H_CTxData | H_ETxData
| H_ListCTransactions | H_RawTransaction | H_CacheAddressCounts | H_CacheTxCounts | H_CacheAssets
| H_CacheAssetAggregates | H_CacheAggregates.

(** * [AddV2Routes] *)
Definition v2_routes : list (Method * string * Handler) := [
  (GET, "/", H_Index);
  (GET, "/search", H_Search);
  (GET, "/aggregates", H_Aggregate);
  (GET, "/txfeeAggregates", H_TxfeeAggregate);
  (GET, "/transactions/aggregates", H_Aggregate);
  (GET, "/addressChains", H_AddressChains);
  (POST, "/addressChains", H_AddressChainsPost);
  (GET, "/transactions", H_ListTransactions);
  (POST, "/transactions", H_ListTransactionsPost);
  (GET, "/transactions/:id", H_GetTransaction);
  (GET, "/addresses", H_ListAddresses);
  (GET, "/addresses/:id", H_GetAddress);
  (GET, "/outputs", H_ListOutputs);
  (GET, "/outputs/:id", H_GetOutput);
  (GET, "/assets", H_ListAssets);
  (GET, "/assets/:id", H_GetAsset);
  (GET, "/atxdata/:id", H_ATxData);
  (GET, "/ptxdata/:id", H_PTxData);
  (GET, "/ctxdata/:id", H_CTxData);
  (GET, "/etxdata/:id", H_ETxData);
  (GET, "/ctransactions", H_ListCTransactions);
  (GET, "/rawtransaction/:id", H_RawTransaction);
  (GET, "/cacheaddresscounts", H_CacheAddressCounts);
  (GET, "/cachetxscounts", H_CacheTxCounts);
  (GET, "/cacheassets", H_CacheAssets);
  (GET, "/cacheassetaggregates", H_CacheAssetAggregates);
  (GET, "/cacheaggregates/:id", H_CacheAggregates)].

(** ** Counters *)
Definition MetricCount := "api_count".
Definition MetricMillis := "api_millis".
Definition MetricTransactionsCount := "api_transactions_count".
Definition MetricTransactionsMillis := "api_transactions_millis".
Definition MetricCTransactionsCount := "api_ctransactions_count".
Definition MetricCTransactionsMillis := "api_ctransactions_millis".
Definition MetricAddressesCount := "api_addresses_count".
Definition MetricAddressesMillis := "api_addresses_millis".
Definition MetricAddressChainsCount := "api_address_chains_count".
Definition MetricAddressChainsMillis := "api_address_chains_millis".
Definition MetricAggregateCount := "api_aggregate_count".
Definition MetricAggregateMillis := "api_aggregate_millis".
Definition MetricAssetCount := "api_asset_count".
Definition MetricAssetMillis := "api_asset_millis".
Definition MetricSearchCount := "api_search_count".
Definition MetricSearchMillis := "api_search_millis".

(** The names and the help texts the routes initialise. *)
Definition v2_counters : list (string * string) := [
  (MetricCount, MetricCount); (MetricMillis, MetricMillis);
  (MetricTransactionsCount, MetricTransactionsCount); (MetricTransactionsMillis, MetricTransactionsMillis);
  (MetricCTransactionsCount, MetricCTransactionsCount); (MetricTransactionsMillis, MetricCTransactionsMillis);
  (MetricAddressesCount, MetricAddressesCount); (MetricAddressesMillis, MetricAddressesMillis);
  (MetricAddressChainsCount, MetricAddressChainsCount); (MetricAddressChainsMillis, MetricAddressChainsMillis);
  (MetricAggregateCount, MetricAggregateCount); (MetricAggregateMillis, MetricAggregateMillis);
  (MetricAssetCount, MetricAssetCount); (MetricAssetMillis, MetricAssetMillis);
  (MetricSearchCount, MetricSearchCount); (MetricSearchMillis, MetricSearchMillis)].

Definition init_counters (l : list (string * string)) (m : Metrics) : option Metrics :=
  fold_left (λ m '(name, help), m ← m; CounterInit name help m) l (Some m).

(** The collectors of each handler, made when it starts, at [now]; they collect when it ends. *)
Definition Search_collectors (now : Z) : Collector := NewCollectors [
  NewCounterObserveMillisCollect now MetricMillis;
  NewCounterIncCollect MetricCount;
  NewCounterObserveMillisCollect now MetricSearchMillis;
  NewCounterIncCollect MetricSearchCount].
Definition TxfeeAggregate_collectors (now : Z) : Collector := NewCollectors [
  NewCounterObserveMillisCollect now MetricMillis;
  NewCounterIncCollect MetricCount].
Definition Aggregate_collectors (now : Z) : Collector := NewCollectors [
  NewCounterObserveMillisCollect now MetricMillis;
  NewCounterIncCollect MetricCount;
  NewCounterObserveMillisCollect now MetricAggregateMillis;
  NewCounterIncCollect MetricAggregateCount].
Definition ListTransactions_collectors (now : Z) : Collector := NewCollectors [
  NewCounterObserveMillisCollect now MetricMillis;
  NewCounterIncCollect MetricCount;
  NewCounterObserveMillisCollect now MetricTransactionsMillis;
  NewCounterIncCollect MetricTransactionsCount].
Definition ListTransactionsPost_collectors (now : Z) : Collector := NewCollectors [
  NewCounterObserveMillisCollect now MetricMillis;
  NewCounterIncCollect MetricCount;
  NewCounterObserveMillisCollect now MetricTransactionsMillis;
  NewCounterIncCollect MetricTransactionsCount].
Definition GetTransaction_collectors (now : Z) : Collector := NewCollectors [
  NewCounterObserveMillisCollect now MetricMillis;
  NewCounterIncCollect MetricCount;
  NewCounterObserveMillisCollect now MetricTransactionsMillis;
  NewCounterIncCollect MetricTransactionsCount].
Definition ListCTransactions_collectors (now : Z) : Collector := NewCollectors [
  NewCounterObserveMillisCollect now MetricMillis;
  NewCounterIncCollect MetricCount;
  NewCounterObserveMillisCollect now MetricCTransactionsMillis;
  NewCounterIncCollect MetricCTransactionsCount].
Definition ListAddresses_collectors (now : Z) : Collector := NewCollectors [
  NewCounterObserveMillisCollect now MetricMillis;
  NewCounterIncCollect MetricCount;
  NewCounterObserveMillisCollect now MetricAddressesMillis;
  NewCounterIncCollect MetricAddressesCount].
Definition GetAddress_collectors (now : Z) : Collector := NewCollectors [
  NewCounterObserveMillisCollect now MetricMillis;
  NewCounterIncCollect MetricCount;
  NewCounterObserveMillisCollect now MetricAddressesMillis;
  NewCounterIncCollect MetricAddressesCount].
Definition AddressChains_collectors (now : Z) : Collector := NewCollectors [
  NewCounterObserveMillisCollect now MetricMillis;
  NewCounterIncCollect MetricCount;
  NewCounterObserveMillisCollect now MetricAddressChainsMillis;
  NewCounterIncCollect MetricAddressChainsCount].
Definition AddressChainsPost_collectors (now : Z) : Collector := NewCollectors [
  NewCounterObserveMillisCollect now MetricMillis;
  NewCounterIncCollect MetricCount;
  NewCounterObserveMillisCollect now MetricAddressChainsMillis;
  NewCounterIncCollect MetricAddressChainsCount].
Definition ListOutputs_collectors (now : Z) : Collector := NewCollectors [
  NewCounterObserveMillisCollect now MetricMillis;
  NewCounterIncCollect MetricCount].
Definition GetOutput_collectors (now : Z) : Collector := NewCollectors [
  NewCounterObserveMillisCollect now MetricMillis;
  NewCounterIncCollect MetricCount].
Definition ListAssets_collectors (now : Z) : Collector := NewCollectors [
  NewCounterObserveMillisCollect now MetricMillis;
  NewCounterIncCollect MetricCount;
  NewCounterObserveMillisCollect now MetricAssetMillis;
  NewCounterIncCollect MetricAssetCount].
Definition GetAsset_collectors (now : Z) : Collector := NewCollectors [
  NewCounterObserveMillisCollect now MetricMillis;
  NewCounterIncCollect MetricCount;
  NewCounterObserveMillisCollect now MetricAssetMillis;
  NewCounterIncCollect MetricAssetCount].

Definition handler_collectors (now : Z) (h : Handler) : Collector :=
  match h with
  | H_Search => Search_collectors now
  | H_TxfeeAggregate => TxfeeAggregate_collectors now
  | H_Aggregate => Aggregate_collectors now
  | H_ListTransactions => ListTransactions_collectors now
  | H_ListTransactionsPost => ListTransactionsPost_collectors now
  | H_GetTransaction => GetTransaction_collectors now
  | H_ListCTransactions => ListCTransactions_collectors now
  | H_ListAddresses => ListAddresses_collectors now
  | H_GetAddress => GetAddress_collectors now
  | H_AddressChains => AddressChains_collectors now
  | H_AddressChainsPost => AddressChainsPost_collectors now
  | H_ListOutputs => ListOutputs_collectors now
  | H_GetOutput => GetOutput_collectors now
  | H_ListAssets => ListAssets_collectors now
  | H_GetAsset => GetAsset_collectors now
  | _ => NewCollectors []
  end.

(** * server.go and index.go *)
Definition AVMName := "avm".
Definition SwapChainAlias := "swap".
Definition PVMName := "pvm".
Definition CoreChainAlias := "core".

Record ChainInfo := mkChainInfo {
  ChainInfo_ID : string;
  ChainInfo_Alias : string;
  ChainInfo_VM : string;
  ChainInfo_AXCAssetID : string;
  ChainInfo_NetworkID : Z;
}.

(** [json.Marshal] (third-party), on what this file prints. *)
Class ApiJson := {
  json_index : Z → gmap string ChainInfo → result string;
  json_ChainInfo : ChainInfo → result string;
  json_ChainCounts : list ChainCounts → result string;
  json_Assets : list Asset → result string;
  json_AssetAggregates : list AssetAggregate → result string;
  json_Histogram : option AggregatesHistogram → result string;
}.

(** What the reader keeps in memory: the tasks of reader_aggregate_processor.go. *)
Record ReaderMemory := mkReaderMemory {
  mem_assets : AssetAggrTask;
  mem_1m : AggregateTask;
  mem_1h : AggregateTask;
  mem_24h : AggregateTask;
  mem_7d : AggregateTask;
  mem_30d : AggregateTask;
}.

Section server.
Context {D : Type} `{!AxcReader D} `{!GoText} `{!AxiaIds} `{!AxiaFormatting} `{!ApiJson} `{!WebRouter}.
Context (chksum0 : string → nat) (Unmarshal : string → result Values).
Context (networkID : Z) (swapChainID axcAssetID : ID).

Definition swap_info (alias : string) : ChainInfo :=
mkChainInfo (ID_String swapChainID) alias AVMName (ID_String axcAssetID) networkID.

Definition newIndexResponse : result string :=
json_index networkID
(<[ID_String ids_Empty := mkChainInfo (ID_String ids_Empty) CoreChainAlias PVMName (ID_String axcAssetID) networkID]>
  (<[ID_String swapChainID := swap_info SwapChainAlias]> ∅)).

Definition newLegacyIndexResponse : result string := json_ChainInfo (swap_info SwapChainAlias).

Record Request := mkRequest {
rq_method : Method;
rq_path : string;
rq_query : Values;
rq_body : option (result string);
}.

(** [c.version = 2] and so on: the chain of a legacy route is its default. *)
Definition v2_context (chainID : option ID) : V2Context :=
mkV2Context networkID axcAssetID (match chainID with Some _ => 1 | None => 2 end) chainID.

(** A handler that answers from the memory of the reader. *)
Definition respond_memory (r : result string) (s : api_state D) : api_state D * Response :=
match r with Err e => (s, ErrorResponse 400 e) | Ok b => (s, Json b) end.

(** The answer of a handler.  [None] : it panics. *)
Definition handle (h : Handler) (index : string) (c : V2Context) (now : Z) (rq : Request) (id : string)
(mem : ReaderMemory) (s : api_state D) : option (api_state D * Response) :=
let q := rq_query rq in
let cached r := Some (respond chksum0 networkID r now s) in
let direct r := Some (respond_direct r s) in
let memory r := Some (respond_memory r s) in
match h with
| H_Index => Some (s, Json index)
| H_Search => cached (Api.Search c now q)
| H_Aggregate => cached (Api.Aggregate c now q)
| H_TxfeeAggregate => cached (Api.TxfeeAggregate c now q)
| H_AddressChains => cached (Api.AddressChains c now q)
| H_AddressChainsPost => cached (Api.AddressChainsPost c now Unmarshal q (rq_body rq))
| H_ListTransactions => cached (Api.ListTransactions c now q)
| H_ListTransactionsPost => cached (Api.ListTransactionsPost c now Unmarshal q (rq_body rq))
| H_GetTransaction => cached (Api.GetTransaction c id)
| H_ListAddresses => cached (Api.ListAddresses c now q)
| H_GetAddress => cached (Api.GetAddress c now q id)
| H_ListOutputs => r ← Api.ListOutputs c now q; cached r
| H_GetOutput => cached (Api.GetOutput id)
| H_ListAssets => cached (Api.ListAssets c now q)
| H_GetAsset => cached (Api.GetAsset c now q id)
| H_ListCTransactions => cached (Api.ListCTransactions c now q)
| H_ATxData => direct (Api.ATxData c now q id)
| H_PTxData => direct (Api.PTxData c now q id)
| H_CTxData => direct (Api.CTxData c now q id)
| H_ETxData => direct (Api.ETxData c now q id)
| H_RawTransaction => direct (Api.RawTransaction id)
| H_CacheAddressCounts => memory (json_ChainCounts (CacheAddressCounts (mem_assets mem)))
| H_CacheTxCounts => memory (json_ChainCounts (CacheTxCounts (mem_assets mem)))
| H_CacheAssets => memory (json_Assets (CacheAssets (mem_assets mem)))
| H_CacheAssetAggregates => memory (json_AssetAggregates (CacheAssetAggregates (mem_assets mem)))
| H_CacheAggregates =>
  memory (json_Histogram (CacheAggregates (mem_1m mem) (mem_1h mem) (mem_24h mem) (mem_7d mem) (mem_30d mem) id))
end.

(** [newRouter] : every route, with the text of its index and its chain. *)
Definition mounts (index legacy : string) : list (string * string * option ID) :=
[("/v2", index, None); ("/x", legacy, Some swapChainID); ("/X", legacy, Some swapChainID)].

Definition all_routes (index legacy : string) : list (Method * string * (Handler * string * option ID)) :=
(GET, "/", (H_Index, index, None)) ::
flat_map (λ '(path, text, chainID),
map (λ '(m, pattern, h), (m, path +:+ pattern, (h, text, chainID))) v2_routes) (mounts index legacy).

(** A request, from the server's side. *)
Definition serve (index legacy : string) (now : Z) (rq : Request) (mem : ReaderMemory) (s : api_state D)
: option (api_state D * Response) :=
match web_route (map fst (all_routes index legacy)) (rq_method rq) (rq_path rq) with
| None => Some (s, ErrorResponse 404 "Not Found")
| Some (i, id) =>
  match all_routes index legacy !! i with
  | None => Some (s, ErrorResponse 404 "Not Found")
  | Some (_, (h, text, chainID)) => handle h text (v2_context chainID) now rq id mem s
  end
end.

Definition newRouter (now : Z) (rq : Request) (mem : ReaderMemory) (s : api_state D)
: result (option (api_state D * Response)) :=
index ← newIndexResponse;
legacy ← newLegacyIndexResponse;
Ok (serve index legacy now rq mem s).
End server.

(** * Facts *)

(** A method and a path have one handler. *)
Lemma routes_distinct : NoDup (map fst v2_routes).
Proof. apply (bool_decide_unpack _). vm_compute. exact I. Qed.

(** The counters after [AddV2Routes]. *)
Definition api_metrics : Metrics := default Metrics_empty (init_counters v2_counters Metrics_empty).

(** The pairs of counters (time, number) of a handler. *)
Definition handler_counters (h : Handler) : list (string * string) :=
  let all := (MetricMillis, MetricCount) in
  match h with
  | H_Search => [all; (MetricSearchMillis, MetricSearchCount)]
  | H_Aggregate => [all; (MetricAggregateMillis, MetricAggregateCount)]
  | H_ListTransactions | H_ListTransactionsPost | H_GetTransaction =>
      [all; (MetricTransactionsMillis, MetricTransactionsCount)]
  | H_ListCTransactions => [all; (MetricCTransactionsMillis, MetricCTransactionsCount)]
  | H_ListAddresses | H_GetAddress => [all; (MetricAddressesMillis, MetricAddressesCount)]
  | H_AddressChains | H_AddressChainsPost => [all; (MetricAddressChainsMillis, MetricAddressChainsCount)]
  | H_ListAssets | H_GetAsset => [all; (MetricAssetMillis, MetricAssetCount)]
  | H_TxfeeAggregate | H_ListOutputs | H_GetOutput => [all]
  | _ => []
  end.

Lemma handler_collectors_pairs now h : handler_collectors now h =
  NewCollectors (flat_map (λ '(millis, count),
    [NewCounterObserveMillisCollect now millis; NewCounterIncCollect count]) (handler_counters h)).
Proof. by destruct h. Qed.

(** A request adds its time and one to the counters of its handler, and to no other, whatever
    it answers: also when it panics. *)
Lemma handler_counted start now h : (start ≤ now)%Z →
  collects now (handler_collectors start h)
    (λ k, foldr (λ '(millis, count) n, since_millis now start * hits millis k + hits count k + n) 0 (handler_counters h))%Z.
Proof.
  intros Ht. rewrite handler_collectors_pairs. generalize (handler_counters h) as l. intros l.
  set (f c k := match c with counterObserveMillisCollect _ t m => since_millis now start * hits m k
                           | counterIncCollect _ n => hits n k | _ => 0 end%Z).
  eapply collects_ext; [|apply (collects_container now _ f)].
  - intros k. induction l as [|[millis count] l IH]; [done|]. cbn [flat_map foldr app f NewCounterObserveMillisCollect NewCounterIncCollect].
    rewrite IH. lia.
  - induction l as [|[millis count] l IH]; cbn [flat_map app]; [constructor|].
    constructor; [by apply (collects_millis now true start millis)|]. constructor; [apply (collects_inc now true count)|done].
Qed.

(** Every counter of every handler is initialised but the time of the C transactions:
    its name is given as the help text of the time of the transactions. *)
Lemma counters_initialised h millis count :
  (millis, count) ∈ handler_counters h →
  is_Some (counters api_metrics !! count) ∧
  (millis ≠ MetricCTransactionsMillis → is_Some (counters api_metrics !! millis)).
Proof.
  intros Hin. assert (forallb (λ '(millis, count), bool_decide (is_Some (counters api_metrics !! count)) &&
    (String.eqb millis MetricCTransactionsMillis || bool_decide (is_Some (counters api_metrics !! millis))))
    (handler_counters h) = true) as Hall by (destruct h; vm_compute; reflexivity).
  rewrite forallb_forall in Hall. specialize (Hall _ (proj1 (list_elem_of_In _ _) Hin)). cbn beta iota in Hall.
  apply andb_true_iff in Hall as [Hc%bool_decide_eq_true Hm]. split; [exact Hc|]. intros Hne.
  apply orb_true_iff in Hm as [Hm%String.eqb_eq|Hm%bool_decide_eq_true]; [done|exact Hm].
Qed.

Example ctransactions_time_not_counted :
  snd <$> CounterAdd MetricCTransactionsMillis 5 api_metrics =
  Some (Err "metric not found: api_ctransactions_millis").
Proof. vm_compute. reflexivity. Qed.

(** * api: the answers on the wire (context.go, utils.go), and the server around the router
    (server.go): what a client reads of a request, whatever its route and its answer. *)

(** * net/http

    A [ResponseWriter] : the first status is the one that is sent, a [Write] before any sends
    200. *)
Record Written := mkWritten { w_status : option Z; w_headers : list (string * string); w_body : string }.

Definition no_answer : Written := mkWritten None [] "".
Definition WriteHeader (code : Z) (w : Written) : Written :=
  mkWritten (match w_status w with Some c => Some c | None => Some code end) (w_headers w) (w_body w).
Definition Write (b : string) (w : Written) : Written :=
  let w := WriteHeader 200 w in mkWritten (w_status w) (w_headers w) (w_body w +:+ b).
Definition Header_Add (k v : string) (w : Written) : Written :=
  mkWritten (w_status w) (w_headers w ++ [(k, v)]) (w_body w).

(** [json.Marshal(&ErrorResponse{...})] (third-party). *)
Class ErrorJson := { json_ErrorResponse : Z → string → result string }.

Section answers.
Context `{!ErrorJson}.

(** * utils.go *)
Definition WriteJSON (msg : string) (w : Written) : Written := Write msg (WriteHeader 200 w).

(** A text within double quotes. *)
Definition quoted (s : string) : string := let q := String.String (Ascii.ascii_of_nat 34) EmptyString in q +:+ s +:+ q.
Definition wrong_error : string :=
"{" +:+ quoted "code" +:+ ": 500, " +:+ quoted "message" +:+ ": " +:+ quoted "failed to generate correct error message" +:+ "}".

(** The function goes on after its first answer. *)
Definition WriteErr (code : Z) (msg : string) (w : Written) : Written :=
match json_ErrorResponse code msg with
| Ok errBytes => Write errBytes (WriteHeader code w)
| Err _ =>
    let w := Write wrong_error (WriteHeader 500 w) in
    Write "" (WriteHeader code w)
end.

(** * context.go *)
Definition Context_WriteErr (code : Z) (err : error) (w : Written) : Written :=
match json_ErrorResponse code err with
| Err _ => WriteHeader 500 w
| Ok errBytes => Write errBytes (WriteHeader code w)
end.

Definition api_headers : list (string * string) := [
  ("access-control-allow-headers", "Accept, Content-Type, Content-Length, Accept-Encoding");
  ("access-control-allow-methods", "GET");
  ("access-control-allow-origin", "*");
  ("Content-Type", "application/json")].

Definition setHeaders (next : Written → Written) (w : Written) : Written :=
next (fold_left (λ w '(k, v), Header_Add k v w) api_headers w).

Definition notFoundHandler : Written → Written := WriteErr 404 "Not Found".

(** What a handler writes of its answer. *)
Definition write_response (r : Response) : Written → Written :=
match r with
| Json body => WriteJSON body
| ErrorResponse code message => Context_WriteErr code message
end.
End answers.

(** * The server

    [constants.GetHRP] is third-party; [Bech32HRP] is the variable of models/primitives.go. *)
Section server.
Context {Consumer ConsumerAX : Type} (GetHRP : Z → string).

Definition Second : Z := (10 ^ 9)%Z.
Definition HTTPWriteTimeout : Z := (30 * Second)%Z.

Record Server := mkServer {
srv_Addr : string;
srv_ReadTimeout : Z;
srv_WriteTimeout : Z;
srv_IdleTimeout : Z;
srv_Handler : Router Consumer ConsumerAX;
}.

Record process := mkProcess { pr_conns : Conns; pr_Bech32HRP : string }.

Definition SetBech32HRP (networkID : Z) (p : process) : process := mkProcess (pr_conns p) (GetHRP networkID).

Definition NewServer (parts : RouterParts Consumer ConsumerAX) (networkID : Z) (ListenAddr : string) : M process Server := λ p,
match Services.newRouter parts (pr_conns p) with
| (cs, Err e) => (mkProcess cs (pr_Bech32HRP p), Err e)
| (cs, Ok router) =>
    (SetBech32HRP networkID (mkProcess cs (pr_Bech32HRP p)),
     Ok (mkServer ListenAddr (5 * Second) HTTPWriteTimeout (15 * Second) router))
end.

(** [Close] : [Shutdown] (net/http) ends the requests; the connections of the router stay open. *)
Definition Server_Close (Shutdown : result unit) : M process unit := λ p, (p, Shutdown).
End server.

(** * A request, on the wire *)
Section requests.
Context {D : Type} `{!AxcReader D} `{!GoText} `{!AxiaIds} `{!AxiaFormatting} `{!ApiJson} `{!WebRouter} `{!ErrorJson}.
Context (chksum0 : string → nat) (Unmarshal : string → result Values).
Context (networkID : Z) (swapChainID axcAssetID : ID).

Definition ServeHTTP (index legacy : string) (now : Z) (rq : Request) (mem : ReaderMemory) (s : api_state D)
: option (api_state D * Written) :=
match web_route (map fst (all_routes swapChainID index legacy)) (rq_method rq) (rq_path rq) with
| None => Some (s, setHeaders notFoundHandler no_answer)
| Some _ =>
    '(s', r) ← serve chksum0 Unmarshal networkID swapChainID axcAssetID index legacy now rq mem s;
    Some (s', setHeaders (write_response r) no_answer)
end.

(** The codes of the errors of a handler. *)
Definition error_code (r : Response) : Prop := match r with Json _ => True | ErrorResponse code _ => code = 400%Z ∨ code = 500%Z end.

Lemma respond_code (r : result (Cacheable D)) now s : error_code (respond chksum0 networkID r now s).2.
Proof.
destruct r as [c|e]; [|by left]. cbn. unfold WriteCacheable. destruct (LCache_Get _ _ _ _); [done|].
destruct (CacheableFn c (a_db s)) as [d [b|e]]; [done|by right].
Qed.
Lemma respond_direct_code (r : result (M D string)) s : error_code (respond_direct r s).2.
Proof. destruct r as [m|e]; [|by left]. cbn. destruct (m (a_db s)) as [d [b|e]]; [done|by left]. Qed.
Lemma respond_memory_code (r : result string) (s : api_state D) : error_code (respond_memory r s).2.
Proof. destruct r; [done|by left]. Qed.

Lemma handle_code h index c now rq id mem (s s' : api_state D) r :
handle chksum0 Unmarshal networkID h index c now rq id mem s = Some (s', r) → error_code r.
Proof.
assert (∀ x, Some x = Some (s', r) → error_code x.2 → error_code r) as Hx by (by intros x [= ->]).
intros E. destruct h; cbn in E;
try (eapply Hx; [exact E|first [apply respond_code | apply respond_direct_code | apply respond_memory_code | exact I]]; fail).
apply bind_Some in E as (r' & _ & E). eapply Hx; [exact E|apply respond_code].
Qed.

(** What is read of any request that does not make its handler panic: one status, the headers
of the interface, and a text.  200 goes with the answer of the handler; the text of an error
says what it is, under its code: 404 for what has no route, 400 and 500 for what a handler
refuses. *)
Theorem answer_written index legacy now rq mem (s s' : api_state D) w :
(∀ code msg, is_ok (json_ErrorResponse code msg) = true) →
ServeHTTP index legacy now rq mem s = Some (s', w) →
w_headers w = api_headers ∧
((web_route (map fst (all_routes swapChainID index legacy)) (rq_method rq) (rq_path rq) = None ∧ s' = s ∧
  w_status w = Some 404%Z ∧ json_ErrorResponse 404 "Not Found" = Ok (w_body w)) ∨
 ∃ r, serve chksum0 Unmarshal networkID swapChainID axcAssetID index legacy now rq mem s = Some (s', r) ∧
   match r with
   | Json body => w_status w = Some 200%Z ∧ w_body w = body
   | ErrorResponse code message => code ∈ [400%Z; 404%Z; 500%Z] ∧ w_status w = Some code ∧
                                   json_ErrorResponse code message = Ok (w_body w)
   end).
Proof.
intros Hj E. unfold ServeHTTP in E. destruct (web_route _ _ _) as [[i id]|] eqn:Er.
- apply bind_Some in E as ([s1 r] & Es & [= -> <-]). assert (error_code r ∨ ∃ m, r = ErrorResponse 404 m) as Hr.
  { unfold serve in Es. rewrite Er in Es. destruct (all_routes swapChainID index legacy !! i) as [[? [[h text] chainID]]|].
    - left. by eapply handle_code.
    - injection Es as <- <-. right. by eexists. }
  split.
  { destruct r as [body|code message]; cbn; [done|]. unfold Context_WriteErr. by destruct (json_ErrorResponse code message). }
  right. exists r. split; [done|]. destruct r as [body|code message]; [done|]. cbn. unfold Context_WriteErr.
  specialize (Hj code message). destruct (json_ErrorResponse code message) as [b|e]; [|done].
  split; [|done]. rewrite !elem_of_cons. destruct Hr as [[->| ->]|(m & [= -> _])]; naive_solver.
- injection E as <- <-. unfold setHeaders, notFoundHandler, WriteErr. specialize (Hj 404%Z "Not Found").
  destruct (json_ErrorResponse 404 "Not Found") as [b|e]; [|done]. split; [done|]. left. by repeat split.
Qed.
End requests.
