(* ===== verification/ApiReader.v ===== *)
(** The API over the readers: [axc.Reader] as the [AxcReader] that the handlers use, and
    what a request does to the database. *)

From S2P Require Import Prelude Errors Sql MemDb DbModel Axia Models Utils GoText Params Api Metrics Routes Query Select ReaderAggregates ReaderModels ReaderTxs ReaderDress ReaderLists ReaderCTrans ReaderAggregator ParamsFacts ReaderFacts CacheFacts AssetAggrFacts.

(** [json.Marshal] (third-party) on the answers of the reader. *)
Class ReaderJson := {
  js_SearchResults : SearchResults → result string;
  js_TxfeeAggregates : TxfeeAggregatesHistogram → result string;
  js_Aggregates : AggregatesHistogram → result string;
  js_TransactionList : TransactionList → result string;
  js_Transaction : option Transaction → result string;
  js_CTransactionList : CTransactionList → result string;
  js_AddressList : AddressList → result string;
  js_AddressInfo : option AddressInfo → result string;
  js_AddressChains : option (gmap string (list string)) → result string;
  js_OutputList : OutputList → result string;
  js_Output : option Output → result string;
  js_AssetList : AssetList → result string;
  js_Asset : option Asset → result string;
  js_BlockList : list Block → result string;
  js_Block : option Block → result string;
  js_text : string → result string;
}.

(** What the reader is made of: its flags, the lists of its cache, and the printers of
    its consumers. *)
Record ReaderConfig := mkReaderConfig {
  rc_IsAggregateCache : bool;
  rc_IsAccumulateBalanceReader : bool;
  rc_txAsc : ReaderAggregateTxList;
  rc_txDesc : ReaderAggregateTxList;
  rc_chainConsumers : gmap string (string → result string);
  rc_axChainCconsumer : string → result string;
}.

Section reader.
Context `{SqlEngine D} `{!GoText} `{!AxiaIds} `{!AxiaFormatting} `{!SqlText} `{!Dbr} `{!AddressText}.
Context `{!CTransJson} `{!CorethJson} `{!ReaderJson}.

Definition printed {A} (m : M D A) (js : A → result string) : M D string := a ← m; lift_result (js a).

Definition axc_Reader (rc : ReaderConfig) : AxcReader D := {|
rd_Search p _ := printed (ReaderLists.Search (rc_IsAccumulateBalanceReader rc) (SP_ListParams p)) js_SearchResults;
rd_TxfeeAggregate p := printed (ReaderAggregates.TxfeeAggregate p) js_TxfeeAggregates;
rd_Aggregate p := printed (ReaderAggregates.Aggregate p) js_Aggregates;
rd_ListTransactions p axc :=
  printed (ReaderDress.ListTransactions (rc_IsAggregateCache rc) (rc_txAsc rc) (rc_txDesc rc) p axc) js_TransactionList;
rd_GetTransaction id axc :=
  printed (ReaderDress.GetTransaction (rc_IsAggregateCache rc) (rc_txAsc rc) (rc_txDesc rc) id axc) js_Transaction;
rd_ListCTransactions p := printed (ReaderCTrans.ListCTransactions p) js_CTransactionList;
rd_ListAddresses p := printed (ReaderLists.ListAddresses (rc_IsAccumulateBalanceReader rc) p) js_AddressList;
rd_GetAddress p := printed (ReaderLists.GetAddress (rc_IsAccumulateBalanceReader rc) p) js_AddressInfo;
rd_AddressChains p := printed (ReaderLists.AddressChains p) js_AddressChains;
rd_ListOutputs p := printed (ReaderLists.ListOutputs p) js_OutputList;
rd_GetOutput id := printed (ReaderLists.GetOutput id) js_Output;
rd_ListAssets p := printed (ReaderLists.ListAssets p) js_AssetList;
rd_GetAsset p id := printed (ReaderLists.GetAsset p id) js_Asset;
rd_ListBlocks p := printed (ReaderLists.ListBlocks p) js_BlockList;
rd_GetBlock id := printed (ReaderLists.GetBlock id) js_Block;
rd_ATxDATA p := ReaderLists.ATxDATA (rc_chainConsumers rc) (TD_ID p);
rd_PTxDATA p := ReaderLists.PTxDATA (rc_chainConsumers rc) (TD_ID p);
rd_CTxDATA p := ReaderLists.CTxDATA (TD_ID p);
rd_ETxDATA p := ReaderLists.ETxDATA (rc_axChainCconsumer rc) (TD_ID p);
rd_RawTransaction id := printed (ReaderLists.RawTransaction id) js_text;
|}.
End reader.

(** * What a request does to the database *)

Create HintDb reads_db.

(** What the interface promises: an operation of the reader only reads. *)
Class ReaderReads {D} `{SqlEngine D} (R : AxcReader D) := {
  Search_only_reads p axc : reads (rd_Search p axc);
  TxfeeAggregate_only_reads p : reads (rd_TxfeeAggregate p);
  Aggregate_only_reads p : reads (rd_Aggregate p);
  ListTransactions_only_reads p axc : reads (rd_ListTransactions p axc);
  GetTransaction_only_reads id axc : reads (rd_GetTransaction id axc);
  ListCTransactions_only_reads p : reads (rd_ListCTransactions p);
  ListAddresses_only_reads p : reads (rd_ListAddresses p);
  GetAddress_only_reads p : reads (rd_GetAddress p);
  AddressChains_only_reads p : reads (rd_AddressChains p);
  ListOutputs_only_reads p : reads (rd_ListOutputs p);
  GetOutput_only_reads id : reads (rd_GetOutput id);
  ListAssets_only_reads p : reads (rd_ListAssets p);
  GetAsset_only_reads p id : reads (rd_GetAsset p id);
  ATxDATA_only_reads p : reads (rd_ATxDATA p);
  PTxDATA_only_reads p : reads (rd_PTxDATA p);
  CTxDATA_only_reads p : reads (rd_CTxDATA p);
  ETxDATA_only_reads p : reads (rd_ETxDATA p);
  RawTransaction_only_reads id : reads (rd_RawTransaction id);
}.
#[export] Hint Resolve Search_only_reads TxfeeAggregate_only_reads Aggregate_only_reads ListTransactions_only_reads
  GetTransaction_only_reads ListCTransactions_only_reads ListAddresses_only_reads GetAddress_only_reads
  AddressChains_only_reads ListOutputs_only_reads GetOutput_only_reads ListAssets_only_reads GetAsset_only_reads
  ATxDATA_only_reads PTxDATA_only_reads CTxDATA_only_reads ETxDATA_only_reads RawTransaction_only_reads : reads_db.

Section reads.
Context `{SqlEngine D} `{!SqlEngineOk D} `{!GoText} `{!AxiaIds} `{!AxiaFormatting} `{!SqlText} `{!Dbr} `{!AddressText}.
Context `{!CTransJson} `{!CorethJson} `{!ReaderJson}.

Lemma page_count_reads lp n (m : M D Z) : reads m → reads (page_count lp n m).
Proof. intros Hm. unfold page_count. repeat case_match; auto with magellan. Qed.
#[local] Hint Resolve page_count_reads Aggregate_reads ListAssets_reads : reads_db.

Ltac solve_reads :=
repeat first
  [ done
  | apply reads_ret | apply reads_lift | apply reads_select | apply reads_select_result
  | progress auto 1 with reads_db nocore
  | apply page_count_reads
  | apply reads_bind; [|intros ?]
  | match goal with |- reads (match ?x with _ => _ end) => destruct x
                  | |- reads (if ?x then _ else _) => destruct x end ].

Lemma dressAssets_reads l : reads (D:=D) (dressAssets l).
Proof. unfold dressAssets. solve_reads. Qed.
#[local] Hint Resolve dressAssets_reads : reads_db.
Lemma ListOutputs_reads p : reads (D:=D) (ReaderLists.ListOutputs p).
Proof. unfold ReaderLists.ListOutputs. solve_reads. Qed.
Lemma ListAddresses_reads b p : reads (D:=D) (ReaderLists.ListAddresses b p).
Proof. unfold ReaderLists.ListAddresses. solve_reads. Qed.
Lemma ListBlocks_reads p : reads (D:=D) (ReaderLists.ListBlocks p).
Proof. unfold ReaderLists.ListBlocks. solve_reads.   Qed.
Lemma TxfeeAggregate_reads p : reads (D:=D) (ReaderAggregates.TxfeeAggregate p).
Proof. unfold ReaderAggregates.TxfeeAggregate, getFirstTransactionTime. solve_reads.  Qed.
Lemma listTxs_reads b l l' p : reads (D:=D) (ReaderTxs.listTxs b l l' p).
Proof. unfold ReaderTxs.listTxs. solve_reads.  Qed.
Lemma dressTransactions_reads txs axc id g : reads (D:=D) (dressTransactions txs axc id g).
Proof.
unfold dressTransactions, resolveProposers, resolveRewarded, collectInsAndOuts, collectCvmTransactions. solve_reads. 
Qed.
#[local] Hint Resolve ListOutputs_reads ListAddresses_reads ListBlocks_reads listTxs_reads dressTransactions_reads : reads_db.

Lemma ListTransactions_reads b l l' p axc : reads (D:=D) (ReaderDress.ListTransactions b l l' p axc).
Proof. unfold ReaderDress.ListTransactions. solve_reads. Qed.
#[local] Hint Resolve ListTransactions_reads : reads_db.
Lemma ListCTransactions_reads p : reads (D:=D) (ReaderCTrans.ListCTransactions p).
Proof. unfold ReaderCTrans.ListCTransactions, handleDressTraces, fetchAndDecodeCBlocks. solve_reads. Qed.
Lemma GetOutput_reads id : reads (D:=D) (ReaderLists.GetOutput id).
Proof. unfold ReaderLists.GetOutput. solve_reads. Qed.
Lemma GetAddress_reads b p : reads (D:=D) (ReaderLists.GetAddress b p).
Proof. unfold ReaderLists.GetAddress. solve_reads. Qed.
Lemma Search_reads b lp : reads (D:=D) (ReaderLists.Search b lp).
Proof. unfold ReaderLists.Search, searchByID, searchByShortID. solve_reads. Qed.
Lemma GetTransaction_reads b l l' id axc : reads (D:=D) (ReaderDress.GetTransaction b l l' id axc).
Proof. unfold ReaderDress.GetTransaction. solve_reads. Qed.
Lemma GetAsset_reads p id : reads (D:=D) (ReaderLists.GetAsset p id).
Proof. unfold ReaderLists.GetAsset. solve_reads. Qed.
Lemma AddressChains_reads p : reads (D:=D) (ReaderLists.AddressChains p).
Proof. unfold ReaderLists.AddressChains. solve_reads. Qed.
Lemma GetBlock_reads p : reads (D:=D) (ReaderLists.GetBlock p).
Proof. unfold ReaderLists.GetBlock. solve_reads. Qed.
Lemma RawTransaction_reads p : reads (D:=D) (ReaderLists.RawTransaction p).
Proof. unfold ReaderLists.RawTransaction. solve_reads. Qed.
Lemma ATxDATA_reads cs id : reads (D:=D) (ReaderLists.ATxDATA cs id).
Proof. unfold ReaderLists.ATxDATA. solve_reads. Qed.
Lemma PTxDATA_reads cs id : reads (D:=D) (ReaderLists.PTxDATA cs id).
Proof. unfold ReaderLists.PTxDATA. solve_reads. Qed.
Lemma ETxDATA_reads cs id : reads (D:=D) (ReaderLists.ETxDATA cs id).
Proof. unfold ReaderLists.ETxDATA. solve_reads. Qed.
Lemma CTxDATA_reads id : reads (D:=D) (ReaderLists.CTxDATA id).
Proof. unfold ReaderLists.CTxDATA. solve_reads. Qed.
#[local] Hint Resolve TxfeeAggregate_reads ListCTransactions_reads GetOutput_reads GetAddress_reads Search_reads
GetTransaction_reads GetAsset_reads AddressChains_reads RawTransaction_reads ATxDATA_reads PTxDATA_reads
ETxDATA_reads CTxDATA_reads : reads_db.

Lemma printed_reads {A} (m : M D A) js : reads m → reads (printed m js).
Proof. intros Hm. unfold printed. by solve_reads. Qed.
#[local] Hint Resolve printed_reads : reads_db.

#[export] Instance axc_Reader_reads rc : ReaderReads (axc_Reader rc).
Proof. split; intros; cbn [axc_Reader rd_Search rd_TxfeeAggregate rd_Aggregate rd_ListTransactions rd_GetTransaction
rd_ListCTransactions rd_ListAddresses rd_GetAddress rd_AddressChains rd_ListOutputs rd_GetOutput rd_ListAssets
rd_GetAsset rd_ATxDATA rd_PTxDATA rd_CTxDATA rd_ETxDATA rd_RawTransaction]; eauto 3 with reads_db. Qed.
End reads.

(** * The server over a reader that keeps its promise *)
Section server_reads.
Context `{SqlEngine D} `{R : AxcReader D} `{!ReaderReads R} `{!GoText} `{!AxiaIds} `{!AxiaFormatting} `{!ApiJson} `{!WebRouter}.
Context (chksum0 : string → nat) (Unmarshal : string → result Values).
Context (networkID : Z) (swapChainID axcAssetID : ID).

(** A cacheable, or a direct computation, of a handler only reads. *)
Definition cacheable_reads (r : result (Cacheable D)) : Prop := ∀ x, r = Ok x → reads (CacheableFn x).
Definition direct_reads (r : result (M D string)) : Prop := ∀ m, r = Ok m → reads m.

Lemma respond_reads (r : result (Cacheable D)) now s : cacheable_reads r → rows (a_db s) ≡ᶜ rows (a_db (respond chksum0 networkID r now s).1).
Proof.
intros Hr. unfold respond, WriteCacheable. destruct r as [x|e]; [|done]. destruct (LCache_Get _ _ _ _); [done|].
pose proof (Hr x eq_refl (a_db s)) as E. by destruct (CacheableFn x (a_db s)) as [d [b|e]].
Qed.

Lemma respond_direct_reads (r : result (M D string)) s : direct_reads r → rows (a_db s) ≡ᶜ rows (a_db (respond_direct r s).1).
Proof.
intros Hr. unfold respond_direct. destruct r as [m|e]; [|done].
pose proof (Hr m eq_refl (a_db s)) as E. by destruct (m (a_db s)) as [d [b|e]].
Qed.

Lemma cacheable_bind {A} (r : result A) f : (∀ a, cacheable_reads (f a)) → cacheable_reads (r ≫= f).
Proof. intros Hf x E. destruct r as [a|e]; [exact (Hf a x E)|done]. Qed.
Lemma cacheable_ok k ttl m : reads m → cacheable_reads (Ok (mkCacheable k ttl m)).
Proof. by intros Hm x [= <-]. Qed.
Lemma cacheable_err e : cacheable_reads (Err e).
Proof. done. Qed.
Lemma direct_bind {A} (r : result A) (f : A → M D string) : (∀ a, reads (f a)) → direct_reads (a ← r; Ok (f a)).
Proof. intros Hf x E. destruct r as [a|e]; [injection E as <-; apply Hf|done]. Qed.
#[local] Hint Resolve cacheable_bind cacheable_ok cacheable_err direct_bind : reads_db.
#[local] Hint Extern 1 (cacheable_reads (if ?x then _ else _)) => destruct x : reads_db.

Ltac handler_reads :=
repeat first [ apply cacheable_err | apply cacheable_ok | apply direct_bind; intros ? | apply cacheable_bind; intros ?
             | match goal with |- cacheable_reads (if ?x then _ else _) => destruct x end ]; eauto 2 with reads_db.

Lemma handle_reads h index c now rq id mem s s' resp :
handle chksum0 Unmarshal networkID h index c now rq id mem s = Some (s', resp) → rows (a_db s) ≡ᶜ rows (a_db s').
Proof.
intros E.
assert (∀ r, cacheable_reads r → Some (respond chksum0 networkID r now s) = Some (s', resp) →
  rows (a_db s) ≡ᶜ rows (a_db s')) as Hc.
{ intros r Hr [= Es]. pose proof (respond_reads r now s Hr) as Hs. by rewrite Es in Hs. }
assert (∀ r, direct_reads r → Some (respond_direct r s) = Some (s', resp) → rows (a_db s) ≡ᶜ rows (a_db s')) as Hd.
{ intros r Hr [= Es]. pose proof (respond_direct_reads r s Hr) as Hs. by rewrite Es in Hs. }
assert (∀ r, Some (respond_memory r s) = Some (s', resp) → rows (a_db s) ≡ᶜ rows (a_db s')) as Hm.
{ intros [b|e] [= <- _]; done. }
destruct h; cbn [handle] in E; cbn zeta in E; try (by apply (Hm _ E));
  try (apply (Hc _) in E; [exact E|]; unfold Api.Search, Api.Aggregate, Api.TxfeeAggregate, Api.AddressChainsPost, Api.AddressChains,
    Api.ListTransactionsPost, Api.ListTransactions, Api.GetTransaction, Api.ListAddresses, Api.GetAddress, Api.GetOutput,
    Api.ListAssets, Api.GetAsset, Api.ListCTransactions; handler_reads; fail);
  try (apply (Hd _) in E; [exact E|]; unfold Api.ATxData, Api.PTxData, Api.CTxData, Api.ETxData, Api.RawTransaction;
    handler_reads; fail).
- by injection E as <- _.
- apply bind_Some in E as (r & Er & E). apply (Hc r) in E; [exact E|]. unfold Api.ListOutputs in Er.
  apply bind_Some in Er as (r' & _ & [= <-]). handler_reads.
Qed.

Lemma serve_reads index legacy now rq mem s s' resp :
serve chksum0 Unmarshal networkID swapChainID axcAssetID index legacy now rq mem s = Some (s', resp) →
rows (a_db s) ≡ᶜ rows (a_db s').
Proof.
unfold serve. destruct (web_route _ _ _) as [[i id]|]; [|by intros [= <- _]].
destruct (all_routes _ _ _ !! i) as [[? [[h text] chainID]]|]; [|by intros [= <- _]]. apply handle_reads.
Qed.
End server_reads.

(** * The server over the readers of the indexes *)
Section server.
Context `{SqlEngine D, !SqlEngineOk D} `{!GoText} `{!AxiaIds} `{!AxiaFormatting} `{!SqlText} `{!Dbr}.
Context `{!AddressText} `{!CTransJson} `{!CorethJson} `{!ReaderJson} `{!ApiJson} `{!WebRouter}.
Context (chksum0 : string → nat) (Unmarshal : string → result Values).
Context (networkID : Z) (swapChainID axcAssetID : ID).

(** A run of the server: requests, over what the reader keeps at their time, and turns of
  the writer of the cache.  A request whose handler panics leaves the state as it was. *)
Inductive ApiEvent :=
| ServeRequest (now : Z) (rq : Request) (rc : ReaderConfig) (mem : ReaderMemory)
| WriteCache (now : Z).

Definition api_event (index legacy : string) (s : api_state D) (ev : ApiEvent) : api_state D :=
match ev with
| ServeRequest now rq rc mem =>
    match serve (AxcReader0 := axc_Reader rc) chksum0 Unmarshal networkID swapChainID axcAssetID index legacy now rq mem s with
    | Some (s', _) => s'
    | None => s
    end
| WriteCache now => Processor chksum0 now s
end.

Definition api_run (index legacy : string) (evs : list ApiEvent) (s : api_state D) : api_state D :=
fold_left (api_event index legacy) evs s.

(** Whatever is asked of the API over the readers of the indexes, in any order and with
  any turns of the writer of the cache in between, the rows of the database stay the same. *)
Theorem api_reads_only index legacy evs s : rows (a_db s) ≡ᶜ rows (a_db (api_run index legacy evs s)).
Proof.
revert s. induction evs as [|ev evs IH]; intros s; [done|]. cbn. rewrite <-(IH (api_event index legacy s ev)).
destruct ev as [now rq rc mem|now]; cbn [api_event]; [|unfold Processor; by destruct (take_job _) as [[]|]].
destruct (serve _ _ _ _ _ _ _ _ _ _ _) as [[s' r]|] eqn:E; [|done]. eapply (serve_reads (R := axc_Reader rc)), E. Unshelve. all: exact _.
Qed.
End server.

(** * A request for the assets *)
Module ApiSample.
#[export] Instance address_text : AddressText := {| Bech32HRP := "hrp"; FormatBech32 hrp s := Ok (hrp +:+ "1" +:+ s) |}.
#[export] Instance ctrans_json : CTransJson := {|
eth_UnmarshalJSON _ := Err "no transaction";
header_json_Unmarshal _ := Err "no header";
json_trace_model _ := Err "no trace";
UnpackRevert _ := Err "no reason" |}.
#[export] Instance coreth_json : CorethJson := {|
cblock := unit; ctransaction := string; clog := string;
cblock_json_Unmarshal _ := Ok tt; cblock_TxsBytes _ := []; cblock_Txs _ := []; cblock_Number _ := 0%Z;
cblock_Hash _ := ""; cblock_ExtraData _ := "";
ctransaction_UnmarshalJSON := Ok; clog_UnmarshalJSON := Ok; clog_Index _ := 0%Z;
BlockExport_Marshal _ _ _ _ _ := Ok "" |}.
Definition counted {A} (l : list A) : result string := Ok (Z_to_string (Z.of_nat (length l))).
#[export] Instance reader_json : ReaderJson := {|
js_SearchResults _ := Ok ""; js_TxfeeAggregates _ := Ok ""; js_Aggregates _ := Ok "";
js_TransactionList _ := Ok ""; js_Transaction _ := Ok ""; js_CTransactionList _ := Ok "";
js_AddressList _ := Ok ""; js_AddressInfo _ := Ok ""; js_AddressChains _ := Ok "";
js_OutputList l := counted (OL_Outputs l); js_Output _ := Ok ""; js_AssetList l := counted (SL_Assets l);
js_Asset _ := Ok ""; js_BlockList _ := Ok ""; js_Block _ := Ok ""; js_text := Ok |}.
#[export] Instance api_json : ApiJson := {|
json_index _ _ := Ok "index"; json_ChainInfo _ := Ok "chain"; json_ChainCounts := counted;
json_Assets := counted; json_AssetAggregates := counted; json_Histogram _ := Ok "" |}.
#[export] Instance router : WebRouter := {|
web_route l m path := (λ '(i, _), (i, "")) <$> list_find (λ r, r = (m, path)) l |}.
End ApiSample.
Module ApiRun.
Import Toy ParamsFacts.ToyText AggSample ToyDbr ApiSample.
#[local] Existing Instance CacheFacts.CacheSample.like_text.
Definition rc : ReaderConfig := mkReaderConfig false false empty_tx_list empty_tx_list ∅ Ok.
Definition no_task : AggregateTask := mkAggregateTask 0 None.
Definition mem : ReaderMemory :=
mkReaderMemory (mkAssetAggrTask 0 [] [] ∅ [] ∅ []) no_task no_task no_task no_task no_task.
Definition rq : Request := mkRequest GET "/v2/outputs" ∅ None.
Definition s0 : api_state MemDb := mkApiState db NewTTLMap (mkWorker [] WorkerQueueSize).
Definition evs : list ApiEvent := [ServeRequest start rq rc mem; WriteCache start; ServeRequest start rq rc mem].
Abbreviation run := (api_run (λ _, 0) (λ _, Err "no body") 5 "X" "axc" "index" "legacy" evs s0).

Example two_outputs :
snd <$> serve (AxcReader0 := axc_Reader rc) (λ _, 0) (λ _, Err "no body") 5 "X" "axc" "index" "legacy" start rq mem s0 =
Some (Json "2").
Proof. vm_compute. reflexivity. Qed.
End ApiRun.
Import Toy ParamsFacts.ToyText AggSample ToyDbr ApiSample ApiRun.
#[local] Existing Instance CacheFacts.CacheSample.like_text.

Lemma api_reads_only_witness : rows db ≡ᶜ rows (a_db run) ∧ length (rows (a_db run) TableOutputs) = 2.
Proof.
  split; [exact (api_reads_only (λ _, 0) (λ _, Err "no body") 5 "X" "axc" "index" "legacy" evs s0)|].
  vm_compute. reflexivity.
Defined.
